(* ===== verification/_CoqProject ===== *)
-Q . S2P
Prelude.v
PrimRewrite.v
Swizzle.v
S3tc.v
SmbusSlave.v
I2cCore.v
SmbusMaster.v
SmbusDevices.v
AmdSmbus.v
Nv2aRegs.v
Nv2aState.v
Float32.v
Vertex.v
Nv2aBlocks.v
Pgraph.v
Kelvin.v
KelvinTable.v
KelvinLaws.v
KelvinBatch.v
KelvinSafety.v
Pfifo.v
PfifoStream.v
Nv2a.v
PgraphInvariant.v
NullRenderer.v
Texture.v
TextureLayout.v
DspCore.v
DspArith.v
DspAlu.v
DspMove.v
DspEmu.v
DspCpu.v
DspDma.v
DspAluSpec.v
DspSafety.v
DspInterrupts.v
ApuMem.v
DspDevice.v
Demo.v
DspDemo.v
