(* ===== verification/Prelude.v ===== *)
(** * DukeX: a verification library for the Xbox devices of the emulator

    DukeX is an emulator of the original Xbox, a fork of xemu and QEMU.  This library is a
    shallow embedding of the devices that are its own code: the NV2A graphics chip, the
    SMBus with its slaves, and the DSPs of the audio unit.  A C function is a function on a record of the fields it works on;
    a failed assertion, an access outside an array, a division by zero, a shift out of range
    or a loop that does not end is the outcome [Fault] of the result monad [res].  Integers
    are [Z], wrapped where C wraps them ([uwrap], [swrap]); floats are their 32-bit patterns,
    with the arithmetic of [SpecFloat]; memories are maps from addresses, arrays of fixed size
    are lists, and the large register files are maps that are zero where nothing was written.

    ** The parts of the program and where they are modelled

    The guest drives the NV2A in two ways: by loads and stores to the register BAR, which the
    block table of nv2a.c hands to the units, and by a push buffer in memory, which the FIFO
    decodes into methods for PGRAPH.  PGRAPH keeps the state of the 3D engine and calls the
    renderer.

    - [Nv2aRegs]: the names of nv2a_regs.h, vga_regs.h, pci_regs.h and vsh_regs.h in use.
    - [Nv2aState]: [NV2AState] of nv2a_int.h and [PGRAPHState] of pgraph.h as records; the
      interrupt tree ([nv2a_update_irq]), DMA objects ([nv_dma_load], [nv_dma_map]), GPU tiles
      and the PGRAPH registers.
    - [Nv2aBlocks]: the read and write handlers of pmc.c, pbus.c, pfb.c, ptimer.c, pcrtc.c,
      pvideo.c, pramdac.c, prmvio.c, prmcio.c, prmdio.c, user.c and stubs.c.
    - [Float32], [Vertex]: floats, and the immediate-mode vertices of pgraph/vertex.c.
    - [Pgraph]: pgraph_read, pgraph_write, pgraph_context_switch and pgraph_method of
      pgraph/pgraph.c, with bursts of words, the squashing of draw calls and the 2D classes;
      pgraph/rdi.c.  The renderer ([Renderer]) and the method table ([Kelvin]) are classes,
      with what PGRAPH expects of them as laws.
    - [Kelvin], [KelvinTable]: the 201 Kelvin method handlers of pgraph.c, one definition
      each, and the table that methods.h.inc builds; [KelvinLaws] shows that they keep the
      laws.
    - [KelvinBatch]: what a batch of draw calls and elements amounts to.
    - [KelvinSafety]: no handler leaves an array.
    - [Pfifo]: pfifo.c, that is the registers, the RAMHT, the pusher and the puller.
    - [PfifoStream]: the word-by-word machine of the push buffer, which the pusher refines.
    - [Nv2a]: the block table, the instance memory, reset and vertical blank of nv2a.c.
    - [PgraphInvariant]: [pgraph_init], and the invariant of PGRAPH in every reachable state.
    - [NullRenderer], [Demo]: the null renderer of pgraph/null/renderer.c as an instance of the
      laws; devices on which the theorems are run.
    - [PrimRewrite], [Swizzle], [S3tc]: pgraph/prim_rewrite.c, pgraph/swizzle.c and
      pgraph/s3tc.c, the algorithms that the renderers share.
    - [Texture], [TextureLayout]: pgraph/texture.c with the conversions of util.h, and the
      decoding of a texture in pgraph/vk/texture.c ([get_texture_layout]), which uses them
      together with the two before.
    - [SmbusSlave], [I2cCore], [SmbusMaster]: hw/i2c/smbus_slave.c, core.c and
      smbus_master.c.
    - [SmbusDevices], [AmdSmbus]: the system management controller, the EEPROM, the
      temperature sensor and the video encoders of hw/xbox/smbus_*.c; the host controller
      amd_smbus.c, with the devices of xbox.c on its bus.

    The audio unit has two DSP56300 processors, the GP and the EP, which an interpreter executes
    (hw/xbox/mcpx/apu/dsp).  A DMA engine in the peripheral space of each moves samples between
    the memories of the DSP and pages of the guest.

    - [DspCore], [DspArith]: the core of dsp_cpu.c (registers, memories, hardware stack, loops,
      interrupts) with the callbacks as the class [Peripherals]; its 56-bit arithmetic.
    - [DspAlu], [DspMove], [DspEmu]: dsp_emu.c.inc, that is effective addresses, condition codes
      and the 256 codes of the ALU table; the parallel moves; the other instructions.
    - [DspCpu]: the opcode table, its look-up through two caches, the execution of an
      instruction.
    - [DspDma]: the DMA engine of dsp_dma.c and the peripherals, bootstrap and run loop of dsp.c,
      with the access to the guest as the class [ScratchOps].
    - [DspAluSpec]: the codes of the ALU as operations on integers.  [DspSafety],
      [DspInterrupts]: every instruction stays in bounds; interrupts are taken.
    - [ApuMem]: the page lists, scratch areas and FIFOs of gp_ep.c.  [DspDevice]: they are safe
      callbacks for the engine, and the engine for the core; transfers there and back.
      [DspDemo]: DSPs on which the theorems are run.

    ** What the theorems show

    - Refinement.  The pusher, with its packed registers and bursts, does what a machine that
      takes one word at a time does ([pusher_refines]), and delivers an encoded list of calls
      ([push_buffer_delivered]); draw calls that can be squashed are outside of both.  Lazily filled vertex buffers are those of a machine that
      stores every attribute of every vertex ([vertex_refines]).  Host commands on the SMBus,
      and cycles of the controller, are single steps of a machine of addressed devices
      ([smbus_master_refines], [amd756_cycle]).
    - Invariants and bounds.  Array sizes and counts of PGRAPH hold in every reachable state
      ([reachable_wf]); no Kelvin method leaves an array ([kelvin_word_safe]); every MMIO
      access is answered, with registers in range, or stops at a listed assertion
      ([mmio_write_total], [mmio_read_total]); the interrupt tree stays coherent
      ([mmio_write_irq], [vblank_irq]); the SMBus ports are safe ([amd756_ports_safe]), for
      as many accesses as the SMC's version counter can count.  No
      instruction word makes the DSP leave an array or loop in the interpreter, and its opcode
      caches stay true to a program that overwrites itself ([dsp_step_safe]).
    - Liveness.  A pending interrupt of the DSP is dispatched ([dsp_interrupt_taken]).
    - Function.  Batches are what was asked for ([batch_requests]); rewritten primitives,
      swizzled textures and decompressed images are those of reference definitions
      ([prim_rewrite_indexed_correct], [swizzle_box_correct], [s3tc_decompress_2d_correct] and
      their companions); a decoded texture is, level by level, what its registers and memory
      describe ([texture_layout_correct]); the arithmetic of the DSP is that of integers,
      with every bit of the status register ([alu_arithmetic]); round trips through the EEPROM, through swizzling, through a FIFO in
      guest memory ([gp_fifo_roundtrip]) and through the DMA engine ([dma_roundtrip]); the
      palette, the timer, the panel events, the encoders.
    - Errors.  What the code gets wrong is proved too: [array_element16_overflow],
      [last_range_twice], [ensure_capacity_limit], [storage_small_device],
      [pgraph_ack_stale], [reset_interrupts], [pramdac_lanes], [tiny_faces],
      [bordered_beyond].

    ** Fuel

    Loops over counters are structural.  [ensure_capacity] gets 32 doublings, more than a
    32-bit capacity has; [hash_loop] 32 rounds, one per bit of a handle at least;
    [pfifo_run_pusher] takes its fuel as an argument, because a push buffer may jump in
    circles, and the theorems say how much is enough.  The loops of modulo addressing get 16
    doublings and one step for each unit of the offset, which [dsp_step_safe] shows to be enough;
    copies over pages and rings get one step for each byte, which is enough unless the ring is
    empty; a run of the DSP one instruction for each cycle.  A list of DMA blocks may be
    circular, so its fuel is a parameter ([DmaFuel]).  Lists and rings that do not end are the
    outcome [Hang], which is not that of any other loop.

    ** Not modelled

    The OpenGL and Vulkan renderers beyond the decoding of textures, and the generated
    shaders, whose meaning is that of the
    host's graphics stack: their calls are the parameter [ops].  The vertex-program
    interpreter (a submodule) and the VGA core are parameters too.  Locks and the threads that
    run while a lock is dropped, migration, profiling counters, traces, logs and the disassembler.
    The voice processor, which mixes in floating point on worker threads, AC97, the network card,
    the other devices of the Xbox, QEMU itself and the user interface.

    This file: faults, machine integers, memories, arrays, records and the tactics and lemmas
    that the components share. *)

From stdpp Require Export prelude gmap strings.
From Stdlib Require Export ZArith Lia.
From coqutil Require Export Z.bitblast.

Declare Scope cint_scope.
Delimit Scope cint_scope with cint.
Open Scope Z_scope.

(** ** Faults

    The C code aborts ([assert]), indexes past an array, divides by zero or
    spins.  Those are not results the caller can see, so the model returns them
    as a separate outcome and the theorems say when they cannot happen. *)

Inductive fault : Type :=
| AssertFail      (** an [assert] or [abort] *)
| OutOfBounds     (** an access outside the object *)
| DivByZero       (** [/] or [%] by zero *)
| ShiftRange      (** a shift by the width of the type or more *)
| OutOfFuel       (** the loop did not finish within the iterations given *)
| Hang.           (** a DMA engine is still at work on a list or a ring of the guest's *)

Inductive res (A : Type) : Type :=
| Ok (a : A)
| Fault (f : fault).
Arguments Ok {A} _.
Arguments Fault {A} _.

#[global] Instance fault_eq_dec : EqDecision fault.
Proof. solve_decision. Defined.

Definition res_bind {A B} (m : res A) (k : A -> res B) : res B :=
  match m with Ok a => k a | Fault f => Fault f end.

#[global] Instance res_ret : MRet res := @Ok.
#[global] Instance res_mbind : MBind res := fun A B k m => res_bind m k.

(** [assert(b)] *)
Definition c_assert (b : bool) : res unit :=
  if b then Ok tt else Fault AssertFail.

Lemma res_bind_Ok {A B} (m : res A) (k : A -> res B) (b : B) :
  (m ≫= k) = Ok b <-> exists a, m = Ok a /\ k a = Ok b.
Proof.
  destruct m as [a|f]; cbn; split.
  - eauto.
  - by intros (? & [= ->] & ?).
  - done.
  - by intros (? & ? & ?).
Qed.

Lemma c_assert_Ok b : c_assert b = Ok tt <-> b = true.
Proof. destruct b; naive_solver. Qed.

(** Fold a fallible step over a list: the shape of a C [for] loop whose body
    may fault. *)
Fixpoint res_foldl {S A} (f : S -> A -> res S) (s : S) (l : list A) : res S :=
  match l with
  | [] => Ok s
  | a :: l => s' ← f s a; res_foldl f s' l
  end.

Lemma res_foldl_app {S A} (f : S -> A -> res S) s l1 l2 :
  res_foldl f s (l1 ++ l2) = (res_foldl f s l1 ≫= fun s' => res_foldl f s' l2).
Proof. revert s; induction l1 as [|a l1 IH]; intros s; cbn; [done|].
  destruct (f s a); cbn; [apply IH|done].
Qed.

(** Invariant rule: the state after a loop is related to the number of
    iterations done, and no iteration faults. *)
Lemma res_foldl_ind {S A} (f : S -> A -> res S) (P : list A -> S -> Prop) s0 l :
  P [] s0 ->
  (forall done a rest s, l = done ++ a :: rest -> P done s ->
     exists s', f s a = Ok s' /\ P (done ++ [a]) s') ->
  exists s', res_foldl f s0 l = Ok s' /\ P l s'.
Proof.
  intros H0 Hstep.
  assert (G : forall rest done s, l = done ++ rest -> P done s ->
              exists s', res_foldl f s rest = Ok s' /\ P l s').
  { induction rest as [|a rest IH]; intros done s Hl HP.
    - exists s. rewrite app_nil_r in Hl. subst. done.
    - destruct (Hstep done a rest s Hl HP) as (s1 & E1 & HP1).
      destruct (IH (done ++ [a]) s1) as (s2 & E2 & HP2).
      + by rewrite <- app_assoc.
      + done.
      + exists s2. cbn. by rewrite E1. }
  by apply (G l [] s0).
Qed.

(** A loop whose state is a value and a counter that only depends on the index. *)
Lemma res_foldl_counter {M C} (body : M * C -> Z -> res (M * C)) (f : M -> Z -> res M)
    (g : Z -> C) m c n :
  c = g 0 ->
  (forall m k, 0 <= k < n -> body (m, g k) k = (m' ← f m k; Ok (m', g (k + 1)))) ->
  0 <= n ->
  res_foldl body (m, c) (seqZ 0 n) = (m' ← res_foldl f m (seqZ 0 n); Ok (m', g n)).
Proof.
  intros -> Hb Hn.
  assert (G : forall (j : nat) i m, 0 <= i -> i + Z.of_nat j = n ->
    res_foldl body (m, g i) (seqZ i (Z.of_nat j))
    = (m' ← res_foldl f m (seqZ i (Z.of_nat j)); Ok (m', g n))).
  { induction j as [|j IH]; intros i m' Hi Hj.
    - assert (i = n) as -> by lia. done.
    - rewrite seqZ_cons by lia. cbn [res_foldl].
      rewrite Hb by lia. destruct (f m' i) as [m1|]; cbn [mbind res_mbind res_bind]; [|done].
      replace (Z.pred (Z.of_nat (S j))) with (Z.of_nat j) by lia.
      replace (Z.succ i) with (i + 1) by lia. apply IH; lia. }
  specialize (G (Z.to_nat n) 0 m). rewrite Z2Nat.id in G by lia. apply G; lia.
Qed.

(** Nested loops run over the concatenation of the inner index lists. *)
Lemma res_foldl_nest {S A B} (f : S -> B -> res S) (g : A -> list B) s l :
  res_foldl (fun s a => res_foldl f s (g a)) s l = res_foldl f s (l ≫= g).
Proof.
  revert s. induction l as [|a l IH]; intros s; [done|].
  cbn [res_foldl mbind list_bind]. rewrite res_foldl_app.
  destruct (res_foldl f s (g a)); [apply IH|done].
Qed.

Lemma res_foldl_fmap {S A B} (f : S -> B -> res S) (g : A -> B) s l :
  res_foldl (fun s a => f s (g a)) s l = res_foldl f s (g <$> l).
Proof.
  revert s. induction l as [|a l IH]; intros s; [done|].
  cbn. destruct (f s (g a)); [apply IH|done].
Qed.

Lemma res_foldl_ext {S A} (f f' : S -> A -> res S) s l :
  (forall s a, a ∈ l -> f s a = f' s a) -> res_foldl f s l = res_foldl f' s l.
Proof.
  revert s. induction l as [|a l IH]; intros s Hf; [done|].
  cbn [res_foldl]. rewrite Hf by set_solver. destruct (f' s a); [|done].
  apply IH. intros. apply Hf. set_solver.
Qed.

(** [switch] without fall-through: the first case that matches, or the default. *)
Fixpoint switch {A} (x : Z) (cases : list (Z * A)) (dflt : A) : A :=
  match cases with
  | [] => dflt
  | (c, e) :: l => if x =? c then e else switch x l dflt
  end.

(** A property of every branch holds of the switch. *)
Lemma switch_ind {A} (P : A -> Prop) x cases dflt :
  Forall (fun c => x = c.1 -> P c.2) cases -> P dflt -> P (switch x cases dflt).
Proof.
  intros Hc Hd. induction Hc as [|[c e] l Hc _ IH]; [done|]. cbn.
  destruct (Z.eqb_spec x c); [by apply Hc|done].
Qed.

(** Inversion of a computation that returned. *)
Ltac res_inv H :=
  cbn [switch] in H;
  repeat match type of H with
  | Fault _ = Ok _ => discriminate H
  | Ok _ = Ok _ => injection H as H
  | mbind _ _ = Ok _ => apply res_bind_Ok in H as (? & ? & H)
  | (if ?b then _ else _) = Ok _ => destruct b eqn:?
  | (match ?x with _ => _ end) = Ok _ => destruct x eqn:?
  end.

(** ** Machine integers

    A [w]-bit unsigned value is a [Z] in [0, 2^w); the wrap-around of C is
    written out with [uwrap], the conversion to a signed type with [swrap]. *)

Definition uwrap (w x : Z) : Z := x mod 2 ^ w.
Definition swrap (w x : Z) : Z :=
  let y := x mod 2 ^ w in if y <? 2 ^ (w - 1) then y else y - 2 ^ w.

Abbreviation u8 := (uwrap 8).
Abbreviation u16 := (uwrap 16).
Abbreviation u32 := (uwrap 32).
Abbreviation u64 := (uwrap 64).
Abbreviation s32 := (swrap 32).

Definition in_uw (w x : Z) : Prop := 0 <= x < 2 ^ w.
Abbreviation is_u8 := (in_uw 8).
Abbreviation is_u16 := (in_uw 16).
Abbreviation is_u32 := (in_uw 32).

Lemma uwrap_range w x : 0 <= w -> in_uw w (uwrap w x).
Proof. intros. unfold in_uw, uwrap. apply Z.mod_pos_bound. lia. Qed.

Lemma uwrap_small w x : in_uw w x -> uwrap w x = x.
Proof. intros. unfold uwrap. by apply Z.mod_small. Qed.

Lemma uwrap_id w x : 0 <= x < 2 ^ w -> uwrap w x = x.
Proof. apply uwrap_small. Qed.

Lemma uwrap_uwrap w x : uwrap w (uwrap w x) = uwrap w x.
Proof. unfold uwrap. by rewrite Z.mod_mod_divide by apply Z.divide_refl. Qed.

Lemma swrap_small w x : 0 < w -> 0 <= x < 2 ^ (w - 1) -> swrap w x = x.
Proof.
  intros Hw Hx. unfold swrap.
  assert (2 ^ w = 2 * 2 ^ (w - 1)) by (rewrite <- Z.pow_succ_r by lia; f_equal; lia).
  rewrite Z.mod_small by lia. destruct (Z.ltb_spec x (2 ^ (w - 1))); lia.
Qed.

(** Linear arithmetic with division and remainder by constants. *)
Ltac dlia := Z.to_euclidean_division_equations; lia.

(** Digits in radix [n] are unique. *)
Lemma radix_unique n q q' a a' : 0 <= a < n -> 0 <= a' < n ->
  q * n + a = q' * n + a' -> q = q' /\ a = a'.
Proof. intros. assert (q = q') by nia. subst. lia. Qed.

(** ** Bits and masks *)

(** C truth value of [v & m]. *)
Definition tst (v m : Z) : bool := negb (Z.land v m =? 0).

Lemma tst_bit p k : 0 <= k -> tst p (2 ^ k) = Z.testbit p k.
Proof.
  intros Hk. unfold tst. destruct (Z.testbit p k) eqn:E.
  - apply negb_true_iff, Z.eqb_neq. intros E0.
    assert (Z.testbit (Z.land p (2 ^ k)) k = true) as Hb.
    { by rewrite Z.land_spec, E, Z.pow2_bits_true. }
    rewrite E0, Z.bits_0 in Hb. done.
  - apply negb_false_iff, Z.eqb_eq. apply Z.bits_inj'. intros i Hi.
    rewrite Z.land_spec, Z.bits_0. destruct (decide (i = k)) as [->|].
    + by rewrite E.
    + rewrite Z.pow2_bits_false by lia. apply andb_false_r.
Qed.

Fixpoint pos_ctz (p : positive) : Z :=
  match p with
  | xO q => 1 + pos_ctz q
  | _ => 0
  end.

(** [ctz32] of QEMU's [host-utils.h]: the number of trailing zeros, 32 for 0. *)
Definition ctz32 (v : Z) : Z :=
  match v with Zpos p => pos_ctz p | _ => 32 end.

Definition GET_MASK (v mask : Z) : Z := Z.shiftr (Z.land v mask) (ctz32 mask).

Definition SET_MASK (v mask val : Z) : Z :=
  Z.lor (Z.land v (Z.lnot mask))
        (Z.land (u32 (Z.shiftl val (ctz32 mask))) mask).

(** A register field: [k] contiguous bits from bit [a] of a 32-bit register. *)
Class BitField (m a k : Z) : Prop := {
  bf_eq : m = Z.shiftl (Z.ones k) a;
  bf_lo : 0 <= a;
  bf_len : 0 < k;
  bf_hi : a + k <= 32
}.

(** Decides a concrete field: [bitfield] solves [BitField 0x1FFC 2 11]. *)
Ltac bitfield := constructor; [vm_compute; reflexivity | lia ..].

#[export] Hint Extern 1 (BitField _ _ _) => bitfield : typeclass_instances.

Lemma ctz32_double z : 0 < z -> ctz32 (2 * z) = 1 + ctz32 z.
Proof. by destruct z. Qed.

Lemma ctz32_ones k : 0 < k -> ctz32 (Z.ones k) = 0.
Proof.
  intros Hk. rewrite Z.ones_equiv.
  assert (E : Z.pred (2 ^ k) = 2 * (2 ^ (k - 1) - 1) + 1).
  { replace k with (Z.succ (k - 1)) at 1 by lia. rewrite Z.pow_succ_r by lia. lia. }
  rewrite E. assert (0 <= 2 ^ (k - 1) - 1) by lia.
  by destruct (2 ^ (k - 1) - 1).
Qed.

Lemma ones_pos k : 0 < k -> 0 < Z.ones k.
Proof.
  intros. rewrite Z.ones_equiv. assert (2 ^ 0 < 2 ^ k) by (apply Z.pow_lt_mono_r; lia).
  change (2 ^ 0) with 1 in *. lia.
Qed.

Lemma ctz32_field m a k `{BitField m a k} : ctz32 m = a.
Proof.
  destruct H as [-> Ha Hk _].
  rewrite Z.shiftl_mul_pow2 by lia. clear -Ha Hk.
  pose proof (ones_pos k Hk). pattern a; apply natlike_ind; [|clear a Ha; intros a Ha IH|done].
  - rewrite Z.mul_1_r. by apply ctz32_ones.
  - rewrite Z.pow_succ_r by lia.
    replace (Z.ones k * (2 * 2 ^ a)) with (2 * (Z.ones k * 2 ^ a)) by lia.
    rewrite ctz32_double by lia. lia.
Qed.

Lemma GET_MASK_field v m a k `{BitField m a k} :
  GET_MASK v m = Z.land (Z.shiftr v a) (Z.ones k).
Proof.
  unfold GET_MASK. rewrite (ctz32_field m a k). destruct H as [-> ? ? ?].
  Z.bitblast.
Qed.

Lemma SET_MASK_field v m a k x `{BitField m a k} :
  SET_MASK v m x =
  Z.lor (Z.land v (Z.lnot m)) (Z.shiftl (Z.land x (Z.ones k)) a).
Proof.
  unfold SET_MASK, uwrap. rewrite (ctz32_field m a k). destruct H as [-> ? ? ?].
  f_equal. Z.bitblast.
Qed.

Lemma GET_MASK_range v m a k `{BitField m a k} : 0 <= GET_MASK v m < 2 ^ k.
Proof.
  rewrite (GET_MASK_field v m a k). destruct H.
  rewrite Z.land_ones by lia. apply Z.mod_pos_bound. lia.
Qed.

(** Masking a field out leaves it in its place. *)
Lemma land_GET_MASK v m a k `{BitField m a k} : Z.land v m = GET_MASK v m * 2 ^ a.
Proof.
  rewrite (GET_MASK_field v m a k). destruct H as [-> ? ? ?].
  rewrite <- Z.shiftl_mul_pow2 by lia. Z.bitblast.
Qed.

Lemma GET_MASK_arith v m a k `{BitField m a k} : GET_MASK v m = v / 2 ^ a mod 2 ^ k.
Proof.
  rewrite (GET_MASK_field v m a k). destruct H.
  by rewrite Z.land_ones, Z.shiftr_div_pow2 by lia.
Qed.

(** Reading back a field just written gives the value, truncated to the field. *)
Lemma GET_SET_MASK v m a k x `{BitField m a k} :
  GET_MASK (SET_MASK v m x) m = x mod 2 ^ k.
Proof.
  rewrite (GET_MASK_field _ m a k), (SET_MASK_field v m a k x) by done. destruct H as [-> ? ? ?].
  rewrite <- Z.land_ones by lia. Z.bitblast.
Qed.

(** Writing one field leaves a disjoint one alone. *)
Lemma GET_SET_MASK_ne v m1 m2 x :
  Z.land m1 m2 = 0 -> GET_MASK (SET_MASK v m1 x) m2 = GET_MASK v m2.
Proof.
  intros Hd. unfold GET_MASK. f_equal. unfold SET_MASK.
  apply Z.bits_inj'; intros i Hi.
  assert (Hb : Z.testbit m1 i && Z.testbit m2 i = false)
    by (rewrite <- Z.land_spec, Hd; apply Z.bits_0).
  rewrite !Z.land_spec, Z.lor_spec, !Z.land_spec, Z.lnot_spec by lia.
  destruct (Z.testbit m1 i), (Z.testbit m2 i), (Z.testbit v i); cbn in *;
    rewrite ?andb_false_r, ?andb_true_r; done.
Qed.

Lemma testbit_above w x i : 0 <= x < 2 ^ w -> 0 <= w <= i -> Z.testbit x i = false.
Proof.
  intros Hx Hi. rewrite <- (Z.mod_small x (2 ^ w)) by done.
  apply Z.mod_pow2_bits_high. lia.
Qed.

(** A non-negative number with no bit from [w] up is below [2^w]. *)
Lemma bits_bound w x : 0 <= w -> 0 <= x ->
  (forall i, w <= i -> Z.testbit x i = false) -> x < 2 ^ w.
Proof.
  intros Hw Hx Hb.
  assert (x = x mod 2 ^ w) as ->.
  { apply Z.bits_inj'; intros i Hi. destruct (Z.lt_ge_cases i w).
    - by rewrite Z.mod_pow2_bits_low by lia.
    - rewrite Z.mod_pow2_bits_high by lia. by apply Hb. }
  apply Z.mod_pos_bound. lia.
Qed.

Lemma SET_MASK_range v m x : in_uw 32 v -> in_uw 32 (SET_MASK v m x).
Proof.
  unfold in_uw. intros Hv. pose proof (uwrap_range 32 (Z.shiftl x (ctz32 m)) ltac:(lia)) as Hu.
  unfold in_uw in Hu. unfold SET_MASK.
  set (y := u32 _) in *. clearbody y.
  assert (0 <= Z.lor (Z.land v (Z.lnot m)) (Z.land y m)).
  { apply Z.lor_nonneg; split; apply Z.land_nonneg; tauto. }
  split; [done|]. apply bits_bound; [lia|done|].
  intros i Hi. rewrite Z.lor_spec, !Z.land_spec.
  by rewrite (testbit_above 32 v), (testbit_above 32 y).
Qed.

(** Bits put above others. *)
Lemma lor_shiftl w lo hi : 0 <= w -> 0 <= lo < 2 ^ w -> Z.lor lo (Z.shiftl hi w) = lo + hi * 2 ^ w.
Proof.
  intros Hw Hl. assert (E : Z.land lo (Z.shiftl hi w) = 0).
  { apply Z.bits_inj'; intros i Hi. rewrite Z.land_spec, Z.bits_0, Z.shiftl_spec by lia.
    destruct (Z.lt_ge_cases i w); [rewrite (Z.testbit_neg_r hi) by lia; apply andb_false_r|].
    by rewrite (testbit_above w lo) by lia. }
  rewrite <- Z.lxor_lor, <- Z.add_nocarry_lxor by done.
  by rewrite Z.shiftl_mul_pow2 by lia.
Qed.

Lemma lor_byte lo hi : 0 <= lo < 256 -> Z.lor lo (Z.shiftl hi 8) = lo + 256 * hi.
Proof. intros. rewrite (lor_shiftl 8) by lia. lia. Qed.

Lemma lor_range w x y : 0 <= w -> in_uw w x -> in_uw w y -> in_uw w (Z.lor x y).
Proof.
  unfold in_uw. intros Hw Hx Hy.
  assert (0 <= Z.lor x y) by (apply Z.lor_nonneg; lia). split; [done|].
  apply bits_bound; [done|done|]. intros i Hi.
  by rewrite Z.lor_spec, (testbit_above w x), (testbit_above w y).
Qed.

Lemma land_range w x m : 0 <= w -> in_uw w x -> in_uw w (Z.land x m).
Proof.
  unfold in_uw. intros Hw Hx. assert (0 <= Z.land x m) by (apply Z.land_nonneg; lia).
  split; [done|]. apply bits_bound; [done|done|]. intros i Hi.
  by rewrite Z.land_spec, (testbit_above w x).
Qed.

(** Operations that stay within a width. *)
Create HintDb words discriminated.
#[export] Hint Resolve uwrap_range lor_range land_range SET_MASK_range : words.
#[export] Hint Extern 2 (_ <= _) => lia : words.

(** ** Records

    [r <| f := v |>] is the record [r] with the field [f] set; [g ; f] goes one
    record down.  A record declares its eta expansion, the update of a field is
    found by abstracting the projection in it. *)

Class Eta (R : Type) := eta_of : R -> R.

Class Update {R T : Type} (f : R -> T) := update : (T -> T) -> R -> R.
Arguments update {R T} f {_} _ _.

Ltac solve_update :=
  match goal with
  | |- @Update ?R ?T ?f =>
      let i := constr:(@eta_of R _) in
      let e := eval hnf in i in
      match eval pattern f in e with
      | ?b _ => exact (fun (g : T -> T) (r : R) => b (fun r => g (f r)) r)
      end
  end.

#[export] Hint Extern 1 (Update _) => solve_update : typeclass_instances.

Declare Scope record_scope.
Open Scope record_scope.
Notation "r <| f := v |>" := (update f (fun _ => v) r)
  (at level 1, left associativity, f at level 9) : record_scope.
Notation "r <| f ::= g |>" := (update f g r)
  (at level 1, left associativity, f at level 9) : record_scope.
Notation "r <| g ; f := v |>" := (update g (update f (fun _ => v)) r)
  (at level 1, left associativity, g at level 9, f at level 9) : record_scope.

(** ** Memory

    A block of C memory is a finite map from byte offset to byte: an offset that
    is not in the map is outside the object. *)

Abbreviation mem := (gmap Z Z).

Definition ld (m : mem) (a : Z) : res Z :=
  match m !! a with Some v => Ok v | None => Fault OutOfBounds end.

Definition st (m : mem) (a v : Z) : res mem :=
  match m !! a with Some _ => Ok (<[a := v]> m) | None => Fault OutOfBounds end.

Definition mem_valid (m : mem) (n : Z) : Prop :=
  forall a, 0 <= a < n -> is_Some (m !! a).

(** [0; 1; ...; n-1] *)
Definition zseq (n : Z) : list Z := seqZ 0 n.

Definition mem_of_list (l : list Z) : mem := map_seqZ 0 l.

(** [memcpy(dst + d, src + s, n)] between two blocks. *)
Definition memcpy (src : mem) (s : Z) (dst : mem) (d n : Z) : res mem :=
  res_foldl (fun dst i => v ← ld src (s + i); st dst (d + i) v) dst (zseq n).

Lemma zseq_split n l1 a l2 : zseq n = l1 ++ a :: l2 ->
  0 <= a < n /\ a = Z.of_nat (length l1).
Proof.
  intros E. assert (H : zseq n !! length l1 = Some a).
  { rewrite E, lookup_app_r, Nat.sub_diag by lia. done. }
  apply lookup_seqZ in H as [-> H]. lia.
Qed.

(** Both ranges inside their objects: the bytes arrive, the others stay. *)
Lemma memcpy_ok src s dst d n : 0 <= n ->
  (forall i, 0 <= i < n -> is_Some (src !! (s + i)) /\ is_Some (dst !! (d + i))) ->
  exists dst', memcpy src s dst d n = Ok dst'
    /\ forall a, dst' !! a = if decide (d <= a < d + n) then src !! (s + (a - d)) else dst !! a.
Proof.
  intros Hn Hv. unfold memcpy.
  destruct (res_foldl_ind (fun dst i => v ← ld src (s + i); st dst (d + i) v)
    (fun l m => forall a, m !! a = if decide (d <= a < d + Z.of_nat (length l))
                                  then src !! (s + (a - d)) else dst !! a) dst (zseq n))
    as (m & E & Hm).
  - intros a. by rewrite decide_False by (cbn; lia).
  - intros l1 i l2 m Hl HP. apply zseq_split in Hl as [Hi Ei].
    destruct (Hv i Hi) as [[v Ev] [u Eu]].
    unfold ld, st. rewrite Ev. cbn. rewrite HP, decide_False, Eu by lia.
    eexists; split; [done|]. intros a. rewrite length_app. cbn [length].
    destruct (Z.eq_dec a (d + i)) as [->|].
    + rewrite lookup_insert_eq, decide_True by lia. by replace (d + i - d) with i by lia.
    + rewrite lookup_insert_ne, HP by lia. repeat case_decide; done || lia.
  - exists m. split; [done|]. intros a. rewrite Hm. unfold zseq.
    rewrite length_seqZ, Z2Nat.id by lia. done.
Qed.

(** A loop of stores of [n] bytes to places that do not overlap: each chunk ends
    up with its value and nothing else changes. *)
Lemma res_foldl_chunks {P} `{EqDecision P} (wr : mem -> P -> res mem) (da : P -> Z)
    (val : P -> Z -> option Z) n dst ps :
  (forall p m, p ∈ ps -> (forall i, 0 <= i < n -> is_Some (m !! (da p + i))) ->
     exists m', wr m p = Ok m' /\ forall a,
       m' !! a = if decide (da p <= a < da p + n) then val p (a - da p) else m !! a) ->
  (forall p i, p ∈ ps -> 0 <= i < n -> is_Some (val p i) /\ is_Some (dst !! (da p + i))) ->
  (forall p q i j, p ∈ ps -> q ∈ ps -> 0 <= i < n -> 0 <= j < n ->
     da p + i = da q + j -> p = q) ->
  exists dst', res_foldl wr dst ps = Ok dst'
    /\ (forall p i, p ∈ ps -> 0 <= i < n -> dst' !! (da p + i) = val p i)
    /\ (forall a, (forall p i, p ∈ ps -> 0 <= i < n -> a <> da p + i) -> dst' !! a = dst !! a).
Proof.
  intros Hwr Hv Hinj.
  apply (res_foldl_ind wr (fun l m =>
    (forall p i, p ∈ l -> 0 <= i < n -> m !! (da p + i) = val p i)
    /\ (forall a, (forall p i, p ∈ l -> 0 <= i < n -> a <> da p + i) -> m !! a = dst !! a))).
  - split; [set_solver|done].
  - intros l1 q l2 m -> [Hin Hout].
    assert (Hsome : forall p i, p ∈ l1 ++ q :: l2 -> 0 <= i < n -> is_Some (m !! (da p + i))).
    { intros p i Hp Hi. destruct (decide (p ∈ l1)) as [Hl|Hl].
      - rewrite Hin by done. by apply Hv.
      - rewrite Hout; [by apply Hv|]. intros p' j Hp' Hj E.
        apply Hinj in E as ->; set_solver. }
    destruct (Hwr q m) as (m' & -> & Hm'); [set_solver| |].
    { intros i Hi. apply Hsome; set_solver. }
    exists m'. split; [done|]. split.
    + intros p i Hp Hi. rewrite Hm'. case_decide as Hc.
      * assert (q = p) as -> by (apply (Hinj q p (da p + i - da q) i); set_solver by lia).
        f_equal. lia.
      * apply Hin; [|done]. apply elem_of_app in Hp as [?|Hp]; [done|].
        apply list_elem_of_singleton in Hp as ->. lia.
    + intros a Ha. rewrite Hm', decide_False.
      * apply Hout. intros p i Hp. apply Ha. set_solver.
      * intros Hc. apply (Ha q (a - da q)); [set_solver|lia|lia].
Qed.

Lemma elem_of_zseq n a : a ∈ zseq n <-> 0 <= a < n.
Proof. unfold zseq. rewrite elem_of_seqZ. lia. Qed.

Lemma res_bind_pair {A B C} (r : res A) (b : B) (k : A -> res C) :
  ('(a, _) ← (a ← r; Ok (a, b)); k a) = (a ← r; k a).
Proof. by destruct r. Qed.

Lemma res_bind_ret {A} (r : res A) : (a ← r; Ok a) = r.
Proof. by destruct r. Qed.

(** [g_malloc(n)]: a block of [n] bytes with contents [junk]. *)
Definition g_malloc (junk : Z -> Z) (n : Z) : mem :=
  list_to_map ((fun a => (a, junk a)) <$> zseq n).

Lemma g_malloc_lookup junk n a :
  g_malloc junk n !! a = if decide (0 <= a < n) then Some (junk a) else None.
Proof.
  unfold g_malloc. case_decide as Ha.
  - apply elem_of_list_to_map_1'.
    + by intros y (x & [= -> ->] & _)%list_elem_of_fmap.
    + apply list_elem_of_fmap. exists a. by rewrite elem_of_zseq.
  - apply not_elem_of_list_to_map_1. intros (y & -> & (x & -> & Hx)%list_elem_of_fmap)%list_elem_of_fmap.
    apply Ha. by apply elem_of_zseq.
Qed.

(** ** Little-endian words *)

(** A load of [n] bytes through [uint16_t*], [uint32_t*], [uint64_t*]. *)
Fixpoint ld_le (m : mem) (n : nat) (a : Z) : res Z :=
  match n with
  | O => Ok 0
  | S n => b ← ld m a; hi ← ld_le m n (a + 1); Ok (b + 256 * hi)
  end.

(** [stl_le_p] and its kind. *)
Fixpoint st_le (m : mem) (n : nat) (a v : Z) : res mem :=
  match n with
  | O => Ok m
  | S n => m ← st m a (v mod 256); st_le m n (a + 1) (v / 256)
  end.

Definition byte_at (data : mem) (a : Z) : Z := default 0 (data !! a).
Definition le_at (data : mem) (n : nat) (a : Z) : Z :=
  foldr (fun i acc => byte_at data (a + i) + 256 * acc) 0 (seqZ 0 (Z.of_nat n)).

(** Bytes [[lo, lo + n)] of [data] are there and are bytes. *)
Definition bytes_valid (data : mem) (lo n : Z) : Prop :=
  forall a, lo <= a < lo + n -> exists v, data !! a = Some v /\ is_u8 v.

Lemma bytes_valid_sub data lo n lo' n' : bytes_valid data lo n ->
  lo <= lo' -> lo' + n' <= lo + n -> bytes_valid data lo' n'.
Proof. intros H ? ? a Ha. apply H. lia. Qed.

Lemma ld_byte data a : bytes_valid data a 1 -> ld data a = Ok (byte_at data a) /\ is_u8 (byte_at data a).
Proof.
  intros H. destruct (H a ltac:(lia)) as (v & E & Hv). unfold ld, byte_at. by rewrite E.
Qed.

Lemma seqZ_shift n a : seqZ (a + 1) n = (fun i => i + 1) <$> seqZ a n.
Proof.
  unfold seqZ. rewrite <- list_fmap_compose. apply list_fmap_ext. intros. cbn. lia.
Qed.

Lemma le_at_S data n a : le_at data (S n) a = byte_at data a + 256 * le_at data n (a + 1).
Proof.
  unfold le_at. rewrite seqZ_cons by lia. cbn [foldr]. rewrite Z.add_0_r. do 2 f_equal.
  replace (Z.pred (Z.of_nat (S n))) with (Z.of_nat n) by lia.
  change (Z.succ 0) with (0 + 1). rewrite seqZ_shift.
  induction (seqZ 0 (Z.of_nat n)) as [|i l IH]; [done|]. cbn. rewrite IH.
  by replace (a + (i + 1)) with (a + 1 + i) by lia.
Qed.

Lemma ld_le_ok data n a : bytes_valid data a (Z.of_nat n) -> ld_le data n a = Ok (le_at data n a).
Proof.
  revert a. induction n as [|n IH]; intros a H; [done|]. cbn [ld_le].
  destruct (ld_byte data a) as [-> _]; [eapply bytes_valid_sub; [exact H|lia..]|].
  cbn [mbind res_mbind res_bind].
  rewrite IH by (eapply bytes_valid_sub; [exact H|lia|lia]). cbn. by rewrite le_at_S.
Qed.

Lemma le_at_range m n a : bytes_valid m a (Z.of_nat n) -> in_uw (8 * Z.of_nat n) (le_at m n a).
Proof.
  revert a. induction n as [|n IH]; intros a Hv; [done|]. rewrite le_at_S.
  destruct (ld_byte m a) as [_ Hb]; [eapply bytes_valid_sub; [exact Hv|lia..]|].
  specialize (IH (a + 1) ltac:(eapply bytes_valid_sub; [exact Hv|lia..])). unfold in_uw in *.
  replace (8 * Z.of_nat (S n)) with (8 + 8 * Z.of_nat n) by lia. rewrite Z.pow_add_r by lia.
  change (2 ^ 8) with 256 in *. lia.
Qed.

(** A load inside the object gives a word of its width. *)
Lemma ld_le_total m n a : bytes_valid m a (Z.of_nat n) ->
  exists v, ld_le m n a = Ok v /\ in_uw (8 * Z.of_nat n) v.
Proof. intros Hv. rewrite ld_le_ok by done. eexists. split; [done|by apply le_at_range]. Qed.

(** ** Arrays as lists: past the end is a fault *)

Definition buf_at (data : list Z) (i : nat) : res Z :=
  match data !! i with Some v => Ok v | None => Fault OutOfBounds end.
Definition buf_set (data : list Z) (i : nat) (v : Z) : res (list Z) :=
  if decide (i < length data)%nat then Ok (<[i := v]> data) else Fault OutOfBounds.

Lemma buf_at_u8 data i : Forall is_u8 data -> (i < length data)%nat ->
  exists v, buf_at data i = Ok v /\ data !! i = Some v /\ is_u8 v.
Proof.
  intros Hd Hi. destruct (lookup_lt_is_Some_2 data i Hi) as [v Hv]. exists v.
  unfold buf_at. rewrite Hv. split_and!; [done..|]. exact (Forall_lookup_1 _ _ _ _ Hd Hv).
Qed.

Lemma buf_set_ok data i v : (i < length data)%nat -> buf_set data i v = Ok (<[i := v]> data).
Proof. intros. unfold buf_set. by rewrite decide_True. Qed.

(** [l[i]] and [l[i] = v] on a C array of fixed size, and on an array of rows. *)
Definition aget {A} (l : list A) (i : Z) : res A :=
  if i <? 0 then Fault OutOfBounds
  else match l !! Z.to_nat i with Some x => Ok x | None => Fault OutOfBounds end.
Definition aset {A} (l : list A) (i : Z) (v : A) : res (list A) :=
  if (0 <=? i) && (i <? Z.of_nat (length l)) then Ok (<[Z.to_nat i := v]> l)
  else Fault OutOfBounds.
Definition aset2 {A} (l : list (list A)) (i j : Z) (v : A) : res (list (list A)) :=
  row ← aget l i;
  row ← aset row j v;
  aset l i row.

Lemma aget_ok {A} (l : list A) i : 0 <= i < Z.of_nat (length l) ->
  exists x, aget l i = Ok x /\ l !! Z.to_nat i = Some x.
Proof.
  intros Hi. unfold aget. destruct (Z.ltb_spec i 0); [lia|].
  destruct (lookup_lt_is_Some_2 l (Z.to_nat i)) as [x Hx]; [lia|]. rewrite Hx. eauto.
Qed.

Lemma aget_Ok {A} (l : list A) i x : aget l i = Ok x ->
  0 <= i < Z.of_nat (length l) /\ l !! Z.to_nat i = Some x.
Proof.
  unfold aget. destruct (Z.ltb_spec i 0); [done|]. destruct (l !! Z.to_nat i) eqn:E; [|done].
  intros [= ->]. apply lookup_lt_Some in E as Hl. split; [lia|done].
Qed.

Lemma aset_ok {A} (l : list A) i v : 0 <= i < Z.of_nat (length l) ->
  aset l i v = Ok (<[Z.to_nat i := v]> l).
Proof.
  intros Hi. unfold aset. by rewrite (proj2 (Z.leb_le _ _)), (proj2 (Z.ltb_lt _ _)) by lia.
Qed.

Lemma aset_Ok {A} (l l' : list A) i v : aset l i v = Ok l' ->
  0 <= i < Z.of_nat (length l) /\ l' = <[Z.to_nat i := v]> l.
Proof.
  unfold aset. destruct (Z.leb_spec 0 i), (Z.ltb_spec i (Z.of_nat (length l))); cbn [andb]; try done.
  intros [= <-]. split; [lia|done].
Qed.

Lemma alter_insert {A} (f : A -> A) (l : list A) i x : l !! i = Some x ->
  alter f i l = <[i := f x]> l.
Proof.
  induction l as [|y l IH] in i |- *; [done|]. destruct i as [|i]; cbn.
  - by intros [= ->].
  - intros E. f_equal. by apply IH.
Qed.

(** A loop over the elements of an array, each of them replaced. *)
Lemma mapM_ok {A B} (f : A -> res B) (R : A -> B -> Prop) l :
  Forall (fun x => exists y, f x = Ok y /\ R x y) l -> exists k, mapM f l = Ok k /\ Forall2 R l k.
Proof.
  induction 1 as [|x l (y & E & Hr) _ (k & Ek & Hk)]; [by exists []|].
  exists (y :: k). cbn. rewrite E. cbn [mbind res_mbind res_bind]. rewrite Ek. by split; [|constructor].
Qed.
