(* ===== verification/PrimRewrite.v ===== *)
(** * Primitive rewriting (hw/xbox/nv2a/pgraph/prim_rewrite.c)

    Strips, loops, fans, quads and polygons are rewritten into explicit point,
    line or triangle lists for host graphics APIs that only take those.  The
    operations follow the C functions one for one; the reference definitions
    [ref_*] say, by recursion on the vertex list, which primitives a draw call
    denotes. *)

From S2P Require Import Prelude.

Module PrimRewrite.

(** ** Data (prim_rewrite.h, vsh_regs.h) *)

Inductive ShaderPrimitiveMode : Set :=
| PRIM_TYPE_INVALID
| PRIM_TYPE_POINTS
| PRIM_TYPE_LINES
| PRIM_TYPE_LINE_LOOP
| PRIM_TYPE_LINE_STRIP
| PRIM_TYPE_TRIANGLES
| PRIM_TYPE_TRIANGLE_STRIP
| PRIM_TYPE_TRIANGLE_FAN
| PRIM_TYPE_QUADS
| PRIM_TYPE_QUAD_STRIP
| PRIM_TYPE_POLYGON.

Inductive ShaderPolygonMode : Set :=
| POLY_MODE_FILL
| POLY_MODE_POINT
| POLY_MODE_LINE.

#[global] Instance ShaderPrimitiveMode_eq_dec : EqDecision ShaderPrimitiveMode.
Proof. solve_decision. Defined.
#[global] Instance ShaderPolygonMode_eq_dec : EqDecision ShaderPolygonMode.
Proof. solve_decision. Defined.

Record PrimAssemblyState := {
  primitive_mode : ShaderPrimitiveMode;
  polygon_mode : ShaderPolygonMode;
  last_provoking : bool;
  flat_shading : bool
}.

(** The scratch buffer: only its capacity (in 32-bit words) matters, the words
    written to it are those of the [PrimRewrite] that points into it. *)
Record PrimRewriteBuf := { capacity : Z }.

(** [indices] holds the words stored so far through [r->indices], so its length
    is [r->num_indices]; [room] is the capacity of the buffer the pointer goes
    to, 0 for the NULL pointer. *)
Record PrimRewrite := {
  indices : list Z;
  room : Z;
  output_mode : ShaderPrimitiveMode;
  flat_provoking_rewrite : bool
}.

Definition num_indices (r : PrimRewrite) : Z := Z.of_nat (length (indices r)).

(** ** Operations *)

Definition pgraph_prim_rewrite_init : PrimRewriteBuf := {| capacity := 0 |}.

Definition pgraph_prim_rewrite_finalize (buf : PrimRewriteBuf) : PrimRewriteBuf :=
  {| capacity := 0 |}.

Definition ascii_tolower (c : Ascii.ascii) : Ascii.ascii :=
  let n := Ascii.nat_of_ascii c in
  if (65 <=? n)%nat && (n <=? 90)%nat then Ascii.ascii_of_nat (n + 32) else c.

(** [g_ascii_strcasecmp(a, b) == 0] *)
Fixpoint strcaseeq (a b : string) : bool :=
  match a, b with
  | EmptyString, EmptyString => true
  | String c a, String d b =>
      Ascii.eqb (ascii_tolower c) (ascii_tolower d) && strcaseeq a b
  | _, _ => false
  end.

(** [env] is the result of [getenv(name)]. *)
Definition env_flag_enabled (env : option string) (default_value : bool) : bool :=
  match env with
  | None => default_value
  | Some EmptyString => default_value
  | Some e =>
      negb (String.eqb e "0") && negb (strcaseeq e "false") &&
      negb (strcaseeq e "no") && negb (strcaseeq e "off")
  end.

(** [cached] is the static variable [enabled], -1 before the first call; the
    result is the returned flag and the new value of the static. *)
Definition pgraph_prim_rewrite_enabled (env : option string) (cached : Z) : bool * Z :=
  let enabled :=
    if cached <? 0 then (if env_flag_enabled env true then 1 else 0) else cached in
  (negb (enabled =? 0), enabled).

Definition pgraph_prim_rewrite_debug_enabled (env : option string) (cached : Z) : bool * Z :=
  let enabled :=
    if cached <? 0 then (if env_flag_enabled env false then 1 else 0) else cached in
  (negb (enabled =? 0), enabled).

(** The doubling loop of [ensure_capacity]. *)
Fixpoint grow (fuel : nat) (next needed : Z) : res Z :=
  if next <? needed then
    match fuel with
    | O => Fault OutOfFuel
    | S fuel => grow fuel (u32 (next * 2)) needed
    end
  else Ok next.

Definition ensure_capacity_fuel (fuel : nat) (buf : PrimRewriteBuf) (needed : Z)
  : res PrimRewriteBuf :=
  if needed <=? capacity buf then Ok buf
  else
    let next := if capacity buf =? 0 then 256 else u32 (capacity buf * 2) in
    next ← grow fuel next needed;
    Ok {| capacity := next |}.

(** 32 doublings take any non-zero 32-bit value past its top bit. *)
Definition ensure_capacity := ensure_capacity_fuel 32.

Definition pgraph_prim_rewrite_get_output_mode
    (primitive_mode : ShaderPrimitiveMode) (polygon_mode : ShaderPolygonMode)
  : res ShaderPrimitiveMode :=
  match primitive_mode with
  | PRIM_TYPE_POINTS => Ok PRIM_TYPE_POINTS
  | PRIM_TYPE_LINES | PRIM_TYPE_LINE_STRIP | PRIM_TYPE_LINE_LOOP => Ok PRIM_TYPE_LINES
  | PRIM_TYPE_TRIANGLES | PRIM_TYPE_TRIANGLE_STRIP | PRIM_TYPE_TRIANGLE_FAN =>
      Ok PRIM_TYPE_TRIANGLES
  | PRIM_TYPE_QUADS | PRIM_TYPE_QUAD_STRIP | PRIM_TYPE_POLYGON =>
      if bool_decide (polygon_mode = POLY_MODE_POINT) then Ok PRIM_TYPE_POINTS
      else Ok (if bool_decide (polygon_mode = POLY_MODE_LINE) then PRIM_TYPE_LINES
               else PRIM_TYPE_TRIANGLES)
  | PRIM_TYPE_INVALID => Fault AssertFail
  end.

(** [enabled] is the value of [pgraph_prim_rewrite_enabled()]. *)
Definition pgraph_prim_rewrite_needed (enabled : bool) (state : PrimAssemblyState) : bool :=
  if negb enabled then false
  else match primitive_mode state with
  | PRIM_TYPE_POINTS => false
  | PRIM_TYPE_LINES | PRIM_TYPE_TRIANGLES => flat_shading state && last_provoking state
  | _ => true
  end.

Definition max_output_indices (mode : ShaderPrimitiveMode)
    (polygon_mode : ShaderPolygonMode) (input_count : Z) : Z :=
  match mode with
  | PRIM_TYPE_POINTS => input_count
  | PRIM_TYPE_LINES => input_count
  | PRIM_TYPE_LINE_STRIP =>
      if 2 <=? input_count then u32 ((input_count - 1) * 2) else 0
  | PRIM_TYPE_LINE_LOOP =>
      if 2 <=? input_count then u32 (input_count * 2) else 0
  | PRIM_TYPE_TRIANGLES => input_count
  | PRIM_TYPE_TRIANGLE_STRIP | PRIM_TYPE_TRIANGLE_FAN =>
      if 3 <=? input_count then u32 ((input_count - 2) * 3) else 0
  | PRIM_TYPE_QUADS =>
      if bool_decide (polygon_mode = POLY_MODE_POINT) then input_count
      else if bool_decide (polygon_mode = POLY_MODE_LINE)
           then u32 (input_count / 4 * 8) else u32 (input_count / 4 * 6)
  | PRIM_TYPE_QUAD_STRIP =>
      if bool_decide (polygon_mode = POLY_MODE_POINT) then input_count
      else if input_count <? 4 then 0
      else if bool_decide (polygon_mode = POLY_MODE_LINE)
           then u32 ((input_count - 2) / 2 * 8) else u32 ((input_count - 2) / 2 * 6)
  | PRIM_TYPE_POLYGON =>
      if bool_decide (polygon_mode = POLY_MODE_POINT) then input_count
      else if bool_decide (polygon_mode = POLY_MODE_LINE)
           then (if 2 <=? input_count then u32 (input_count * 2) else 0)
           else (if 3 <=? input_count then u32 ((input_count - 2) * 3) else 0)
  | PRIM_TYPE_INVALID => 0
  end.

(** [idx] is the index array, [None] for the NULL pointer of a non-indexed draw. *)
Definition idx_at (idx : option (list Z)) (i base : Z) : res Z :=
  match idx with
  | Some l => match l !! Z.to_nat i with
              | Some v => Ok v
              | None => Fault OutOfBounds
              end
  | None => Ok (u32 (base + i))
  end.

Definition emit_vertex (r : PrimRewrite) (v : Z) : res PrimRewrite :=
  if num_indices r <? room r then
    Ok {| indices := indices r ++ [v];
          room := room r;
          output_mode := output_mode r;
          flat_provoking_rewrite := flat_provoking_rewrite r |}
  else Fault OutOfBounds.

Definition emit_line (r : PrimRewrite) (a b : Z) : res PrimRewrite :=
  r ← emit_vertex r a; emit_vertex r b.

Definition emit_line_pv (r : PrimRewrite) (a b p : Z) : res PrimRewrite :=
  if p =? a then emit_line r a b else emit_line r b a.

Definition emit_tri (r : PrimRewrite) (a b c : Z) : res PrimRewrite :=
  r ← emit_vertex r a; r ← emit_vertex r b; emit_vertex r c.

Definition emit_tri_pv (r : PrimRewrite) (a b c p : Z) : res PrimRewrite :=
  if p =? a then emit_tri r a b c
  else if p =? b then emit_tri r b c a
  else emit_tri r c a b.

(** [for (unsigned int i = i0; i + k < count; i += step) body], with the 32-bit
    wrap-around of [i + k] and [i += step]. *)
Fixpoint for_u32 {S} (fuel : nat) (i k step count : Z) (body : S -> Z -> res S) (s : S)
  : res S :=
  if u32 (i + k) <? count then
    match fuel with
    | O => Fault OutOfFuel
    | S fuel => s ← body s i; for_u32 fuel (u32 (i + step)) k step count body s
    end
  else Ok s.

(** Every loop below advances by at least one vertex per iteration. *)
Definition for_count {S} (k step count : Z) (body : S -> Z -> res S) (s : S) : res S :=
  for_u32 (Z.to_nat count) 0 k step count body s.

Definition rewrite_points (r : PrimRewrite) (idx : option (list Z)) (base count : Z)
  : res PrimRewrite :=
  for_count 0 1 count (fun r i => v ← idx_at idx i base; emit_vertex r v) r.

Definition rewrite_lines (r : PrimRewrite) (idx : option (list Z)) (base count : Z)
    (last_provoking : bool) : res PrimRewrite :=
  for_count 1 2 count (fun r i =>
    v0 ← idx_at idx i base;
    v1 ← idx_at idx (u32 (i + 1)) base;
    emit_line_pv r v0 v1 (if last_provoking then v1 else v0)) r.

Definition rewrite_line_strip (r : PrimRewrite) (idx : option (list Z)) (base count : Z)
    (last_provoking : bool) : res PrimRewrite :=
  for_count 1 1 count (fun r i =>
    v0 ← idx_at idx i base;
    v1 ← idx_at idx (u32 (i + 1)) base;
    emit_line_pv r v0 v1 (if last_provoking then v1 else v0)) r.

Definition rewrite_line_loop (r : PrimRewrite) (idx : option (list Z)) (base count : Z)
    (last_provoking : bool) : res PrimRewrite :=
  if count <? 2 then Ok r
  else
    r ← rewrite_line_strip r idx base count last_provoking;
    v_last ← idx_at idx (u32 (count - 1)) base;
    v_first ← idx_at idx 0 base;
    emit_line_pv r v_last v_first (if last_provoking then v_first else v_last).

Definition rewrite_triangles (r : PrimRewrite) (idx : option (list Z)) (base count : Z)
    (last_provoking : bool) : res PrimRewrite :=
  for_count 2 3 count (fun r i =>
    v0 ← idx_at idx i base;
    v1 ← idx_at idx (u32 (i + 1)) base;
    v2 ← idx_at idx (u32 (i + 2)) base;
    emit_tri_pv r v0 v1 v2 (if last_provoking then v2 else v0)) r.

Definition rewrite_triangle_strip (r : PrimRewrite) (idx : option (list Z)) (base count : Z)
    (last_provoking : bool) : res PrimRewrite :=
  for_count 2 1 count (fun r i =>
    v0 ← idx_at idx i base;
    v1 ← idx_at idx (u32 (i + 1)) base;
    v2 ← idx_at idx (u32 (i + 2)) base;
    let pv := if last_provoking then v2 else v0 in
    if tst i 1 then emit_tri_pv r v1 v0 v2 pv
    else emit_tri_pv r v0 v1 v2 pv) r.

Definition rewrite_triangle_fan (r : PrimRewrite) (idx : option (list Z)) (base count : Z)
    (last_provoking : bool) : res PrimRewrite :=
  if count <? 3 then Ok r
  else
    hub ← idx_at idx 0 base;
    for_count 2 1 count (fun r i =>
      v1 ← idx_at idx (u32 (i + 1)) base;
      v2 ← idx_at idx (u32 (i + 2)) base;
      emit_tri_pv r hub v1 v2 (if last_provoking then v2 else v1)) r.

Definition rewrite_quads (r : PrimRewrite) (idx : option (list Z)) (base count : Z)
    (flat_shading : bool) : res PrimRewrite :=
  for_count 3 4 count (fun r i =>
    v0 ← idx_at idx i base;
    v1 ← idx_at idx (u32 (i + 1)) base;
    v2 ← idx_at idx (u32 (i + 2)) base;
    v3 ← idx_at idx (u32 (i + 3)) base;
    if flat_shading : bool then
      r ← emit_tri r v3 v0 v1; emit_tri r v3 v1 v2
    else
      r ← emit_tri r v0 v1 v2; emit_tri r v0 v2 v3) r.

Definition rewrite_quads_line (r : PrimRewrite) (idx : option (list Z)) (base count : Z)
  : res PrimRewrite :=
  for_count 3 4 count (fun r i =>
    v0 ← idx_at idx i base;
    v1 ← idx_at idx (u32 (i + 1)) base;
    v2 ← idx_at idx (u32 (i + 2)) base;
    v3 ← idx_at idx (u32 (i + 3)) base;
    r ← emit_line r v0 v1;
    r ← emit_line r v1 v2;
    r ← emit_line r v2 v3;
    emit_line r v3 v0) r.

Definition rewrite_quad_strip (r : PrimRewrite) (idx : option (list Z)) (base count : Z)
    (flat_shading : bool) : res PrimRewrite :=
  for_count 3 2 count (fun r i =>
    v0 ← idx_at idx i base;
    v1 ← idx_at idx (u32 (i + 1)) base;
    v2 ← idx_at idx (u32 (i + 2)) base;
    v3 ← idx_at idx (u32 (i + 3)) base;
    if flat_shading : bool then
      r ← emit_tri r v3 v2 v0; emit_tri r v3 v0 v1
    else
      r ← emit_tri r v0 v1 v2; emit_tri r v2 v1 v3) r.

Definition rewrite_quad_strip_line (r : PrimRewrite) (idx : option (list Z)) (base count : Z)
  : res PrimRewrite :=
  for_count 3 2 count (fun r i =>
    v0 ← idx_at idx i base;
    v1 ← idx_at idx (u32 (i + 1)) base;
    v2 ← idx_at idx (u32 (i + 2)) base;
    v3 ← idx_at idx (u32 (i + 3)) base;
    r ← emit_line r v0 v1;
    r ← emit_line r v1 v3;
    r ← emit_line r v3 v2;
    emit_line r v2 v0) r.

Definition rewrite_polygon (r : PrimRewrite) (idx : option (list Z)) (base count : Z)
  : res PrimRewrite :=
  if count <? 3 then Ok r
  else
    hub ← idx_at idx 0 base;
    for_count 2 1 count (fun r i =>
      v1 ← idx_at idx (u32 (i + 1)) base;
      v2 ← idx_at idx (u32 (i + 2)) base;
      emit_tri r hub v1 v2) r.

Definition rewrite_polygon_line (r : PrimRewrite) (idx : option (list Z)) (base count : Z)
  : res PrimRewrite :=
  if count <? 2 then Ok r
  else
    r ← rewrite_line_strip r idx base count false;
    a ← idx_at idx (u32 (count - 1)) base;
    b ← idx_at idx 0 base;
    emit_line r a b.

Definition rewrite_indices (r : PrimRewrite) (state : PrimAssemblyState)
    (idx : option (list Z)) (base count : Z) : res PrimRewrite :=
  match primitive_mode state with
  | PRIM_TYPE_POINTS => rewrite_points r idx base count
  | PRIM_TYPE_LINES => rewrite_lines r idx base count (last_provoking state)
  | PRIM_TYPE_LINE_STRIP => rewrite_line_strip r idx base count (last_provoking state)
  | PRIM_TYPE_LINE_LOOP => rewrite_line_loop r idx base count (last_provoking state)
  | PRIM_TYPE_TRIANGLES => rewrite_triangles r idx base count (last_provoking state)
  | PRIM_TYPE_TRIANGLE_STRIP =>
      rewrite_triangle_strip r idx base count (last_provoking state)
  | PRIM_TYPE_TRIANGLE_FAN => rewrite_triangle_fan r idx base count (last_provoking state)
  | PRIM_TYPE_QUADS =>
      if bool_decide (polygon_mode state = POLY_MODE_POINT) then rewrite_points r idx base count
      else if bool_decide (polygon_mode state = POLY_MODE_LINE)
           then rewrite_quads_line r idx base count
           else rewrite_quads r idx base count (flat_shading state)
  | PRIM_TYPE_QUAD_STRIP =>
      if bool_decide (polygon_mode state = POLY_MODE_POINT) then rewrite_points r idx base count
      else if bool_decide (polygon_mode state = POLY_MODE_LINE)
           then rewrite_quad_strip_line r idx base count
           else rewrite_quad_strip r idx base count (flat_shading state)
  | PRIM_TYPE_POLYGON =>
      if bool_decide (polygon_mode state = POLY_MODE_POINT) then rewrite_points r idx base count
      else if bool_decide (polygon_mode state = POLY_MODE_LINE)
           then rewrite_polygon_line r idx base count
           else rewrite_polygon r idx base count
  | PRIM_TYPE_INVALID => Fault AssertFail
  end.

Definition empty_result (enabled : bool) (state : PrimAssemblyState) : res PrimRewrite :=
  m ← pgraph_prim_rewrite_get_output_mode (primitive_mode state) (polygon_mode state);
  Ok {| indices := []; room := 0; output_mode := m;
        flat_provoking_rewrite :=
          flat_shading state && pgraph_prim_rewrite_needed enabled state |}.

(** [result.indices = buf->data] *)
Definition point_at_buf (r : PrimRewrite) (buf : PrimRewriteBuf) : PrimRewrite :=
  {| indices := indices r; room := capacity buf; output_mode := output_mode r;
     flat_provoking_rewrite := flat_provoking_rewrite r |}.

(** The first loop of [pgraph_prim_rewrite_ranges]. *)
Definition ranges_max_output (state : PrimAssemblyState) (ranges : list (Z * Z)) : Z :=
  foldl (fun total '(start, count) =>
           if count <=? 0 then total
           else u64 (total + max_output_indices (primitive_mode state)
                                                (polygon_mode state) (u32 count)))
        0 ranges.

(** [ranges] pairs [starts[i]] with [counts[i]], both [int32_t]. *)
Definition pgraph_prim_rewrite_ranges (enabled : bool) (buf : PrimRewriteBuf)
    (state : PrimAssemblyState) (ranges : list (Z * Z))
  : res (PrimRewrite * PrimRewriteBuf) :=
  result ← empty_result enabled state;
  if negb (pgraph_prim_rewrite_needed enabled state) then Ok (result, buf)
  else
    let total_max_output := ranges_max_output state ranges in
    _ ← c_assert (total_max_output <=? 2 ^ 32 - 1);
    if total_max_output =? 0 then Ok (result, buf)
    else
      buf ← ensure_capacity buf (u32 total_max_output);
      result ← res_foldl (fun r '(start, count) =>
                 if count <=? 0 then Ok r
                 else
                   _ ← c_assert (0 <=? start);
                   rewrite_indices r state None (u32 start) (u32 count))
               (point_at_buf result buf) ranges;
      _ ← c_assert (num_indices result <=? total_max_output);
      Ok (result, buf).

Definition pgraph_prim_rewrite_sequential (enabled : bool) (buf : PrimRewriteBuf)
    (state : PrimAssemblyState) (start count : Z) : res (PrimRewrite * PrimRewriteBuf) :=
  pgraph_prim_rewrite_ranges enabled buf state [(start, count)].

Definition pgraph_prim_rewrite_indexed (enabled : bool) (buf : PrimRewriteBuf)
    (state : PrimAssemblyState) (input_indices : list Z) (num_input_indices : Z)
  : res (PrimRewrite * PrimRewriteBuf) :=
  result ← empty_result enabled state;
  if negb (pgraph_prim_rewrite_needed enabled state) then Ok (result, buf)
  else
    let max_output := max_output_indices (primitive_mode state) (polygon_mode state)
                                         num_input_indices in
    if max_output =? 0 then Ok (result, buf)
    else
      buf ← ensure_capacity buf max_output;
      result ← rewrite_indices (point_at_buf result buf) state (Some input_indices)
                               0 num_input_indices;
      _ ← c_assert (num_indices result <=? max_output);
      Ok (result, buf).

(** ** Reference: which primitives a draw call denotes

    [assemble] cuts the vertex list of a draw call into primitives, each with
    its vertices in winding order and its provoking vertex (the one flat shading
    takes its colour from).  It recurses on the vertex list and knows nothing of
    indices, counters or buffers. *)

Definition prim : Type := list Z * Z.

Definition pick (last : bool) (first_v last_v : Z) : Z := if last then last_v else first_v.

Fixpoint ref_lines (lp : bool) (vs : list Z) : list prim :=
  match vs with
  | a :: b :: t => ([a; b], pick lp a b) :: ref_lines lp t
  | _ => []
  end.

Fixpoint ref_line_strip (lp : bool) (vs : list Z) : list prim :=
  match vs with
  | a :: (b :: _) as t => ([a; b], pick lp a b) :: ref_line_strip lp t
  | _ => []
  end.

(** The strip and the closing edge from the last vertex to the first. *)
Definition ref_line_loop (lp : bool) (vs : list Z) : list prim :=
  match vs with
  | a :: _ :: _ =>
      let z := List.last vs 0 in ref_line_strip lp vs ++ [([z; a], pick lp z a)]
  | _ => []
  end.

Fixpoint ref_triangles (lp : bool) (vs : list Z) : list prim :=
  match vs with
  | a :: b :: c :: t => ([a; b; c], pick lp a c) :: ref_triangles lp t
  | _ => []
  end.

(** Every second triangle of a strip swaps its first two vertices so that all
    triangles wind the same way. *)
Fixpoint ref_triangle_strip (odd lp : bool) (vs : list Z) : list prim :=
  match vs with
  | a :: (b :: c :: _) as t =>
      ((if odd then [b; a; c] else [a; b; c]), pick lp a c)
        :: ref_triangle_strip (negb odd) lp t
  | _ => []
  end.

Fixpoint ref_fan_edges (hub : Z) (pv : Z -> Z -> Z) (vs : list Z) : list prim :=
  match vs with
  | b :: (c :: _) as t => ([hub; b; c], pv b c) :: ref_fan_edges hub pv t
  | _ => []
  end.

Definition ref_triangle_fan (lp : bool) (vs : list Z) : list prim :=
  match vs with
  | hub :: t => ref_fan_edges hub (pick lp) t
  | [] => []
  end.

(** A polygon is shaded from its hub. *)
Definition ref_polygon (vs : list Z) : list prim :=
  match vs with
  | hub :: t => ref_fan_edges hub (fun _ _ => hub) t
  | [] => []
  end.

(** The two triangles of the quad [a b c d]; flat shading takes the colour from
    the last vertex, so both triangles start there. *)
Definition quad_tris (flat : bool) (a b c d : Z) : list prim :=
  if flat then [([d; a; b], d); ([d; b; c], d)] else [([a; b; c], a); ([a; c; d], a)].

Definition quad_edges (a b c d : Z) : list prim :=
  [([a; b], a); ([b; c], b); ([c; d], c); ([d; a], d)].

Fixpoint ref_quads (q : Z -> Z -> Z -> Z -> list prim) (vs : list Z) : list prim :=
  match vs with
  | a :: b :: c :: d :: t => q a b c d ++ ref_quads q t
  | _ => []
  end.

Fixpoint ref_quad_strip (q : Z -> Z -> Z -> Z -> list prim) (vs : list Z) : list prim :=
  match vs with
  | a :: b :: (c :: d :: _) as t => q a b c d ++ ref_quad_strip q t
  | _ => []
  end.

(** In a quad strip the outline of [a b c d] runs [a b d c]. *)
Definition strip_tris (flat : bool) (a b c d : Z) : list prim :=
  if flat then [([d; c; a], d); ([d; a; b], d)] else [([a; b; c], a); ([c; b; d], c)].

Definition strip_edges (a b c d : Z) : list prim := quad_edges a b d c.

Definition ref_points (vs : list Z) : list prim := (fun v => ([v], v)) <$> vs.

Definition by_polygon_mode {A} (m : ShaderPolygonMode) (point line fill : A) : A :=
  match m with POLY_MODE_POINT => point | POLY_MODE_LINE => line | POLY_MODE_FILL => fill end.

Definition assemble (st : PrimAssemblyState) (vs : list Z) : list prim :=
  let lp := last_provoking st in
  let flat := flat_shading st in
  match primitive_mode st with
  | PRIM_TYPE_INVALID => []
  | PRIM_TYPE_POINTS => ref_points vs
  | PRIM_TYPE_LINES => ref_lines lp vs
  | PRIM_TYPE_LINE_LOOP => ref_line_loop lp vs
  | PRIM_TYPE_LINE_STRIP => ref_line_strip lp vs
  | PRIM_TYPE_TRIANGLES => ref_triangles lp vs
  | PRIM_TYPE_TRIANGLE_STRIP => ref_triangle_strip false lp vs
  | PRIM_TYPE_TRIANGLE_FAN => ref_triangle_fan lp vs
  | PRIM_TYPE_QUADS =>
      by_polygon_mode (polygon_mode st) (ref_points vs)
        (ref_quads quad_edges vs) (ref_quads (quad_tris flat) vs)
  | PRIM_TYPE_QUAD_STRIP =>
      by_polygon_mode (polygon_mode st) (ref_points vs)
        (ref_quad_strip strip_edges vs) (ref_quad_strip (strip_tris flat) vs)
  | PRIM_TYPE_POLYGON =>
      by_polygon_mode (polygon_mode st) (ref_points vs)
        (ref_line_loop false vs) (ref_polygon vs)
  end.

(** The rotation of [l] that starts at the first occurrence of [p]. *)
Definition rotate_to (p : Z) (l : list Z) : list Z :=
  match list_find (fun x => x = p) l with
  | Some (i, _) => drop i l ++ take i l
  | None => l
  end.

(** A primitive as the host sees it: the provoking vertex first. *)
Definition emitted (q : prim) : list Z := rotate_to q.2 q.1.

Definition em (l : list prim) : list Z := concat (emitted <$> l).

Definition ref_output (st : PrimAssemblyState) (vs : list Z) : list Z :=
  em (assemble st vs).

(** The vertices of a draw call. *)
Definition verts (idx : option (list Z)) (base count : Z) : list Z :=
  match idx with
  | Some l => take (Z.to_nat count) l
  | None => (fun i => u32 (base + i)) <$> seqZ 0 count
  end.

(** ** The loops against the reference *)

Definition push (r : PrimRewrite) (l : list Z) : PrimRewrite :=
  {| indices := indices r ++ l; room := room r; output_mode := output_mode r;
     flat_provoking_rewrite := flat_provoking_rewrite r |}.

Definition emit_list (r : PrimRewrite) (l : list Z) : res PrimRewrite :=
  res_foldl emit_vertex r l.

Lemma emit_list_ok r l :
  num_indices r + Z.of_nat (length l) <= room r -> emit_list r l = Ok (push r l).
Proof.
  revert r. induction l as [|v l IH]; intros r Hr; cbn.
  - unfold push. rewrite app_nil_r. by destruct r.
  - unfold emit_vertex. cbn in Hr. destruct (Z.ltb_spec (num_indices r) (room r)); [|lia].
    cbn. unfold emit_list in IH. rewrite IH.
    + unfold push; cbn. by rewrite <- app_assoc.
    + unfold num_indices in *; cbn. rewrite length_app; cbn. lia.
Qed.

Lemma emit_list_app r l1 l2 :
  emit_list r (l1 ++ l2) = (emit_list r l1 ≫= fun r => emit_list r l2).
Proof. apply res_foldl_app. Qed.

Lemma emit_list_bind (r : PrimRewrite) (l1 l2 : list Z) k :
  (forall r', k r' = emit_list r' l2) ->
  (emit_list r l1 ≫= k) = emit_list r (l1 ++ l2).
Proof. intros Hk. rewrite emit_list_app. destruct (emit_list r l1); cbn; auto. Qed.

Lemma emit_vertex_list r v : emit_vertex r v = emit_list r [v].
Proof. cbn. by destruct (emit_vertex r v). Qed.

Lemma emit_line_list r a b : emit_line r a b = emit_list r [a; b].
Proof. cbn. unfold emit_line. destruct (emit_vertex r a); cbn; [|done].
  by destruct (emit_vertex _ b). Qed.

Lemma emit_tri_list r a b c : emit_tri r a b c = emit_list r [a; b; c].
Proof. cbn. unfold emit_tri. destruct (emit_vertex r a); cbn; [|done].
  destruct (emit_vertex _ b); cbn; [|done]. by destruct (emit_vertex _ c). Qed.

Lemma rotate_to_line a b p : p = a \/ p = b ->
  rotate_to p [a; b] = if p =? a then [a; b] else [b; a].
Proof.
  intros Hp. unfold rotate_to, list_find. destruct (Z.eqb_spec p a).
  - by rewrite decide_True.
  - rewrite decide_False by done. by rewrite decide_True by intuition congruence.
Qed.

Lemma rotate_to_tri a b c p : p = a \/ p = b \/ p = c ->
  rotate_to p [a; b; c] =
  if p =? a then [a; b; c] else if p =? b then [b; c; a] else [c; a; b].
Proof.
  intros Hp. unfold rotate_to, list_find. destruct (Z.eqb_spec p a).
  { by rewrite decide_True. }
  rewrite decide_False by done. destruct (Z.eqb_spec p b).
  { by rewrite decide_True. }
  rewrite decide_False by done. by rewrite decide_True by intuition congruence.
Qed.

Lemma emit_line_pv_list r a b p : p = a \/ p = b ->
  emit_line_pv r a b p = emit_list r (rotate_to p [a; b]).
Proof.
  intros Hp. unfold emit_line_pv. rewrite rotate_to_line by done.
  destruct (p =? a); apply emit_line_list.
Qed.

Lemma emit_tri_pv_list r a b c p : p = a \/ p = b \/ p = c ->
  emit_tri_pv r a b c p = emit_list r (rotate_to p [a; b; c]).
Proof.
  intros Hp. unfold emit_tri_pv. rewrite rotate_to_tri by done.
  destruct (p =? a); [apply emit_tri_list|].
  destruct (p =? b); apply emit_tri_list.
Qed.

Lemma em_app l1 l2 : em (l1 ++ l2) = em l1 ++ em l2.
Proof. unfold em. by rewrite fmap_app, concat_app. Qed.

Lemma em_cons q l : em (q :: l) = emitted q ++ em l.
Proof. done. Qed.

Lemma emitted_head a l : emitted (a :: l, a) = a :: l.
Proof.
  unfold emitted, rotate_to, list_find; cbn [fst snd]. rewrite decide_True by done.
  cbn. by rewrite app_nil_r.
Qed.

Section Loops.
Context (idx : option (list Z)) (base count : Z).
Context (Hcount : 0 <= count <= 2 ^ 32 - 8).
Context (Hidx : match idx with Some l => count <= Z.of_nat (length l) | None => True end).

Let vs := verts idx base count.

Lemma verts_length : Z.of_nat (length vs) = count.
Proof.
  unfold vs, verts. destruct idx as [l|].
  - rewrite length_take. lia.
  - rewrite length_fmap, length_seqZ. lia.
Qed.

Lemma idx_at_verts i v :
  0 <= i -> vs !! Z.to_nat i = Some v -> idx_at idx i base = Ok v.
Proof.
  intros Hi. unfold vs, verts, idx_at. destruct idx as [l|].
  - intros [Hl _]%lookup_take_Some. by rewrite Hl.
  - rewrite list_lookup_fmap. intros (j & Hj & ->)%fmap_Some.
    apply lookup_seqZ in Hj as [-> ?]. do 2 f_equal. lia.
Qed.

(** Reading [idx[i + j]] is reading element [j] of the vertices from [i] on. *)
Lemma idx_at_suffix i j suf v :
  0 <= i -> 0 <= j -> i + j < 2 ^ 32 ->
  drop (Z.to_nat i) vs = suf -> suf !! Z.to_nat j = Some v ->
  idx_at idx (u32 (i + j)) base = Ok v.
Proof.
  intros Hi Hj Hij <- Hv. rewrite lookup_drop in Hv.
  rewrite uwrap_id by lia. apply idx_at_verts; [lia|].
  by rewrite Z2Nat.inj_add by lia.
Qed.

Section Generic.
Context (k step : Z) (Hk : 0 <= k <= 3) (Hstep : 1 <= step <= 4).
Context (body : PrimRewrite -> Z -> res PrimRewrite).
Context (ref out : Z -> list Z -> list prim).
Context (Hbody : forall r i suf, 0 <= i -> i + 3 < 2 ^ 32 ->
  drop (Z.to_nat i) vs = suf -> k < Z.of_nat (length suf) ->
  body r i = emit_list r (em (out i suf))).
Context (Hnil : forall i suf, Z.of_nat (length suf) <= k -> ref i suf = []).
Context (Hcons : forall i suf, k < Z.of_nat (length suf) ->
  ref i suf = out i suf ++ ref (i + step) (drop (Z.to_nat step) suf)).

Lemma for_u32_ref fuel i r :
  0 <= i <= count + 4 -> count - i <= Z.of_nat fuel ->
  for_u32 fuel i k step count body r =
  emit_list r (em (ref i (drop (Z.to_nat i) vs))).
Proof.
  revert i r. pose proof verts_length as Hlen.
  induction fuel as [|fuel IH]; intros i r Hi Hf; cbn [for_u32];
    rewrite (uwrap_id 32 (i + k)) by lia;
    destruct (Z.ltb_spec (i + k) count) as [Hlt|Hge].
  - lia.
  - rewrite Hnil by (rewrite length_drop; lia). done.
  - rewrite (Hbody r i _ ltac:(lia) ltac:(lia) eq_refl)
      by (rewrite length_drop; lia).
    rewrite (Hcons i) by (rewrite length_drop; lia). rewrite em_app.
    apply emit_list_bind. intros r'. rewrite uwrap_id by lia.
    rewrite IH by lia. by rewrite drop_drop, Z2Nat.inj_add by lia.
  - rewrite Hnil by (rewrite length_drop; lia). done.
Qed.

Lemma for_count_ref r :
  for_count k step count body r = emit_list r (em (ref 0 vs)).
Proof. unfold for_count. rewrite for_u32_ref by lia. done. Qed.
End Generic.

Lemma idx_at_suffix0 i suf v :
  0 <= i -> i < 2 ^ 32 ->
  drop (Z.to_nat i) vs = v :: suf -> idx_at idx i base = Ok v.
Proof.
  intros Hi Hlt Hs. rewrite <- (uwrap_id 32 i), <- (Z.add_0_r i) by lia.
  apply (idx_at_suffix i 0 (v :: suf)); [lia..|done|done].
Qed.

(** Replaces the reads of a loop body by the vertices at the front of the
    suffix [Hs : drop i vs = a :: b :: ...]. *)
Ltac read_vertices Hs :=
  repeat match goal with
  | |- context [idx_at idx (u32 (?i + ?j)) base] =>
      rewrite (idx_at_suffix i j _ _ ltac:(lia) ltac:(lia) ltac:(lia) Hs eq_refl)
  | |- context [idx_at idx ?i base] =>
      rewrite (idx_at_suffix0 i _ _ ltac:(lia) ltac:(lia) Hs)
  end; cbn [mbind res_mbind res_bind].

Lemma rewrite_points_ref r :
  rewrite_points r idx base count = emit_list r (em (ref_points vs)).
Proof.
  unfold rewrite_points.
  apply (for_count_ref 0 1 ltac:(lia) ltac:(lia) _ (fun _ => ref_points)
           (fun _ suf => ref_points (take 1 suf))).
  - intros r' i [|a suf] Hi Hi3 Hs Hl; cbn in Hl; [lia|].
    read_vertices Hs. rewrite emit_vertex_list. unfold em, ref_points.
    cbn [take fmap list_fmap concat]. by rewrite emitted_head.
  - intros _ [|a suf] Hl; cbn in *; [done|lia].
  - intros _ [|a suf] Hl; cbn in *; [lia|done].
Qed.

Lemma rewrite_lines_ref r lp :
  rewrite_lines r idx base count lp = emit_list r (em (ref_lines lp vs)).
Proof.
  unfold rewrite_lines.
  apply (for_count_ref 1 2 ltac:(lia) ltac:(lia) _ (fun _ => ref_lines lp)
           (fun _ suf => ref_lines lp (take 2 suf))).
  - intros r' i [|a [|b suf]] Hi Hi3 Hs Hl; cbn in Hl; [lia..|].
    read_vertices Hs. rewrite emit_line_pv_list by (destruct lp; auto). cbn.
    by rewrite app_nil_r.
  - intros _ [|a [|b suf]] Hl; cbn in *; [done|done|lia].
  - intros _ [|a [|b suf]] Hl; cbn in *; [lia|lia|done].
Qed.

Lemma rewrite_line_strip_ref r lp :
  rewrite_line_strip r idx base count lp = emit_list r (em (ref_line_strip lp vs)).
Proof.
  unfold rewrite_line_strip.
  apply (for_count_ref 1 1 ltac:(lia) ltac:(lia) _ (fun _ => ref_line_strip lp)
           (fun _ suf => ref_line_strip lp (take 2 suf))).
  - intros r' i [|a [|b suf]] Hi Hi3 Hs Hl; cbn in Hl; [lia..|].
    read_vertices Hs. rewrite emit_line_pv_list by (destruct lp; auto). cbn.
    by rewrite app_nil_r.
  - intros _ [|a [|b suf]] Hl; cbn in *; [done|done|lia].
  - intros _ [|a [|b suf]] Hl; cbn in *; [lia|lia|done].
Qed.

Lemma rewrite_triangles_ref r lp :
  rewrite_triangles r idx base count lp = emit_list r (em (ref_triangles lp vs)).
Proof.
  unfold rewrite_triangles.
  apply (for_count_ref 2 3 ltac:(lia) ltac:(lia) _ (fun _ => ref_triangles lp)
           (fun _ suf => ref_triangles lp (take 3 suf))).
  - intros r' i [|a [|b [|c suf]]] Hi Hi3 Hs Hl; cbn in Hl; [lia..|].
    read_vertices Hs. rewrite emit_tri_pv_list by (destruct lp; auto). cbn.
    by rewrite app_nil_r.
  - intros _ [|a [|b [|c suf]]] Hl; cbn in *; [done..|lia].
  - intros _ [|a [|b [|c suf]]] Hl; cbn in *; [lia..|done].
Qed.

Lemma tst_1_odd i : tst i 1 = Z.odd i.
Proof.
  unfold tst. change 1 with (Z.ones 1). rewrite Z.land_ones by lia.
  change (2 ^ 1) with 2. rewrite Zmod_odd. by destruct (Z.odd i).
Qed.

Lemma rewrite_triangle_strip_ref r lp :
  rewrite_triangle_strip r idx base count lp =
  emit_list r (em (ref_triangle_strip false lp vs)).
Proof.
  unfold rewrite_triangle_strip.
  apply (for_count_ref 2 1 ltac:(lia) ltac:(lia) _
           (fun i => ref_triangle_strip (Z.odd i) lp)
           (fun i suf => ref_triangle_strip (Z.odd i) lp (take 3 suf))).
  - intros r' i [|a [|b [|c suf]]] Hi Hi3 Hs Hl; cbn in Hl; [lia..|].
    read_vertices Hs. rewrite tst_1_odd.
    destruct (Z.odd i); rewrite emit_tri_pv_list by (destruct lp; auto); cbn;
      by rewrite app_nil_r.
  - intros i [|a [|b [|c suf]]] Hl; cbn in *; [done..|lia].
  - intros i [|a [|b [|c suf]]] Hl; cbn in *; [lia..|].
    by rewrite Z.add_1_r, Z.odd_succ, <- Z.negb_odd.
Qed.

Lemma rewrite_quads_ref r flat :
  rewrite_quads r idx base count flat = emit_list r (em (ref_quads (quad_tris flat) vs)).
Proof.
  unfold rewrite_quads.
  apply (for_count_ref 3 4 ltac:(lia) ltac:(lia) _ (fun _ => ref_quads (quad_tris flat))
           (fun _ suf => ref_quads (quad_tris flat) (take 4 suf))).
  - intros r' i [|a [|b [|c [|d suf]]]] Hi Hi3 Hs Hl; cbn in Hl; [lia..|].
    read_vertices Hs. cbn. unfold quad_tris. rewrite app_nil_r.
    destruct flat; rewrite emit_tri_list; unfold em; cbn [fmap list_fmap concat];
      rewrite !emitted_head; apply emit_list_bind; intros; apply emit_tri_list.
  - intros _ [|a [|b [|c [|d suf]]]] Hl; cbn in *; [done..|lia].
  - intros _ [|a [|b [|c [|d suf]]]] Hl; cbn in *; [lia..|].
    by rewrite app_nil_r.
Qed.

Lemma rewrite_quad_strip_ref r flat :
  rewrite_quad_strip r idx base count flat =
  emit_list r (em (ref_quad_strip (strip_tris flat) vs)).
Proof.
  unfold rewrite_quad_strip.
  apply (for_count_ref 3 2 ltac:(lia) ltac:(lia) _ (fun _ => ref_quad_strip (strip_tris flat))
           (fun _ suf => ref_quad_strip (strip_tris flat) (take 4 suf))).
  - intros r' i [|a [|b [|c [|d suf]]]] Hi Hi3 Hs Hl; cbn in Hl; [lia..|].
    read_vertices Hs. cbn. unfold strip_tris. rewrite app_nil_r.
    destruct flat; rewrite emit_tri_list; unfold em; cbn [fmap list_fmap concat];
      rewrite !emitted_head; apply emit_list_bind; intros; apply emit_tri_list.
  - intros _ [|a [|b [|c [|d suf]]]] Hl; cbn in *; [done..|lia].
  - intros _ [|a [|b [|c [|d suf]]]] Hl; cbn in *; [lia..|].
    by rewrite app_nil_r.
Qed.

Lemma emit_4_lines r a b c d e f g h :
  (r ← emit_line r a b; r ← emit_line r c d; r ← emit_line r e f; emit_line r g h)
  = emit_list r [a; b; c; d; e; f; g; h].
Proof.
  rewrite emit_line_list. apply (emit_list_bind _ [a; b]). intros.
  rewrite emit_line_list. apply (emit_list_bind _ [c; d]). intros.
  rewrite emit_line_list. apply (emit_list_bind _ [e; f]). intros.
  apply emit_line_list.
Qed.

Lemma rewrite_quads_line_ref r :
  rewrite_quads_line r idx base count = emit_list r (em (ref_quads quad_edges vs)).
Proof.
  unfold rewrite_quads_line.
  apply (for_count_ref 3 4 ltac:(lia) ltac:(lia) _ (fun _ => ref_quads quad_edges)
           (fun _ suf => ref_quads quad_edges (take 4 suf))).
  - intros r' i [|a [|b [|c [|d suf]]]] Hi Hi3 Hs Hl; cbn in Hl; [lia..|].
    read_vertices Hs. rewrite emit_4_lines. unfold em. cbn [take ref_quads quad_edges app].
    cbn [fmap list_fmap concat]. by rewrite !emitted_head.
  - intros _ [|a [|b [|c [|d suf]]]] Hl; cbn in *; [done..|lia].
  - intros _ [|a [|b [|c [|d suf]]]] Hl; cbn in *; [lia..|done].
Qed.

Lemma rewrite_quad_strip_line_ref r :
  rewrite_quad_strip_line r idx base count =
  emit_list r (em (ref_quad_strip strip_edges vs)).
Proof.
  unfold rewrite_quad_strip_line.
  apply (for_count_ref 3 2 ltac:(lia) ltac:(lia) _ (fun _ => ref_quad_strip strip_edges)
           (fun _ suf => ref_quad_strip strip_edges (take 4 suf))).
  - intros r' i [|a [|b [|c [|d suf]]]] Hi Hi3 Hs Hl; cbn in Hl; [lia..|].
    read_vertices Hs. rewrite emit_4_lines. unfold em.
    cbn [take ref_quad_strip strip_edges quad_edges app].
    cbn [fmap list_fmap concat]. by rewrite !emitted_head.
  - intros _ [|a [|b [|c [|d suf]]]] Hl; cbn in *; [done..|lia].
  - intros _ [|a [|b [|c [|d suf]]]] Hl; cbn in *; [lia..|done].
Qed.

Lemma idx_at_0 a t : vs = a :: t -> idx_at idx 0 base = Ok a.
Proof. intros E. apply idx_at_verts; [lia|]. by rewrite E. Qed.

Lemma idx_at_last : 0 < count -> idx_at idx (u32 (count - 1)) base = Ok (List.last vs 0).
Proof.
  intros Hc. rewrite uwrap_id by lia. apply idx_at_verts; [lia|].
  pose proof verts_length. destruct vs as [|a t] eqn:E using rev_ind; cbn in *; [lia|].
  rewrite List.last_last. rewrite length_app in *; cbn in *.
  apply lookup_app_Some. right. split; [lia|].
  by replace (Z.to_nat (count - 1) - length t)%nat with 0%nat by lia.
Qed.

Lemma rewrite_line_loop_ref r lp :
  rewrite_line_loop r idx base count lp = emit_list r (em (ref_line_loop lp vs)).
Proof.
  unfold rewrite_line_loop. pose proof verts_length as Hl.
  destruct (Z.ltb_spec count 2).
  - destruct vs as [|a [|b t]]; cbn in *; [done|done|lia].
  - rewrite rewrite_line_strip_ref. rewrite idx_at_last by lia.
    destruct vs as [|a [|b t]] eqn:E; cbn in Hl; [lia|lia|].
    rewrite (idx_at_0 a (b :: t)) by done. unfold ref_line_loop. rewrite em_app.
    apply emit_list_bind. intros r'. cbn [mbind res_mbind res_bind].
    rewrite emit_line_pv_list by (destruct lp; auto). unfold em; cbn [fmap list_fmap concat].
    by rewrite app_nil_r.
Qed.

Lemma rewrite_polygon_line_ref r :
  rewrite_polygon_line r idx base count = emit_list r (em (ref_line_loop false vs)).
Proof.
  unfold rewrite_polygon_line. pose proof verts_length as Hl.
  destruct (Z.ltb_spec count 2).
  - destruct vs as [|a [|b t]]; cbn in *; [done|done|lia].
  - rewrite rewrite_line_strip_ref. rewrite idx_at_last by lia.
    destruct vs as [|a [|b t]] eqn:E; cbn in Hl; [lia|lia|].
    rewrite (idx_at_0 a (b :: t)) by done. unfold ref_line_loop. rewrite em_app.
    apply emit_list_bind. intros r'. cbn [mbind res_mbind res_bind].
    rewrite emit_line_list. unfold em, pick; cbn [fmap list_fmap concat].
    by rewrite emitted_head, app_nil_r.
Qed.

(** The loop shared by fans and polygons; [pv] is the provoking vertex of the
    triangle [hub b c]. *)
Lemma fan_loop_ref r hub pv (emit : PrimRewrite -> Z -> Z -> res PrimRewrite) :
  (forall r b c, emit r b c = emit_list r (emitted ([hub; b; c], pv b c))) ->
  for_count 2 1 count (fun r i =>
    v1 ← idx_at idx (u32 (i + 1)) base;
    v2 ← idx_at idx (u32 (i + 2)) base;
    emit r v1 v2) r = emit_list r (em (ref_fan_edges hub pv (tail vs))).
Proof.
  intros Hemit.
  apply (for_count_ref 2 1 ltac:(lia) ltac:(lia) _
           (fun _ suf => ref_fan_edges hub pv (tail suf))
           (fun _ suf => ref_fan_edges hub pv (tail (take 3 suf)))).
  - intros r' i [|a [|b [|c suf]]] Hi Hi3 Hs Hl; cbn in Hl; [lia..|].
    read_vertices Hs. rewrite Hemit. unfold em. cbn [take tail ref_fan_edges].
    cbn [fmap list_fmap concat]. by rewrite app_nil_r.
  - intros _ [|a [|b [|c suf]]] Hl; cbn in *; [done..|lia].
  - intros _ [|a [|b [|c suf]]] Hl; cbn in *; [lia..|done].
Qed.

Lemma rewrite_triangle_fan_ref r lp :
  rewrite_triangle_fan r idx base count lp = emit_list r (em (ref_triangle_fan lp vs)).
Proof.
  unfold rewrite_triangle_fan. pose proof verts_length as Hl.
  destruct (Z.ltb_spec count 3).
  - destruct vs as [|a [|b [|c t]]]; cbn in *; [done..|lia].
  - destruct vs as [|a t] eqn:E; cbn in Hl; [lia|].
    rewrite (idx_at_0 a t) by done. cbn [mbind res_mbind res_bind].
    rewrite (fan_loop_ref r a (pick lp)
      (fun r v1 v2 => emit_tri_pv r a v1 v2 (if lp then v2 else v1))).
    + by rewrite E.
    + intros. by rewrite emit_tri_pv_list by (destruct lp; auto).
Qed.

Lemma rewrite_polygon_ref r :
  rewrite_polygon r idx base count = emit_list r (em (ref_polygon vs)).
Proof.
  unfold rewrite_polygon. pose proof verts_length as Hl.
  destruct (Z.ltb_spec count 3).
  - destruct vs as [|a [|b [|c t]]]; cbn in *; [done..|lia].
  - destruct vs as [|a t] eqn:E; cbn in Hl; [lia|].
    rewrite (idx_at_0 a t) by done. cbn [mbind res_mbind res_bind].
    rewrite (fan_loop_ref r a (fun _ _ => a) (fun r v1 v2 => emit_tri r a v1 v2)).
    + by rewrite E.
    + intros. by rewrite emitted_head, emit_tri_list.
Qed.

Lemma rewrite_indices_ref r state :
  primitive_mode state <> PRIM_TYPE_INVALID ->
  rewrite_indices r state idx base count = emit_list r (ref_output state vs).
Proof.
  intros Hm. unfold rewrite_indices, ref_output, assemble.
  destruct (primitive_mode state); try done;
  destruct (polygon_mode state); cbn [by_polygon_mode];
  repeat case_bool_decide; try done;
  auto using rewrite_points_ref, rewrite_lines_ref, rewrite_line_strip_ref,
    rewrite_line_loop_ref, rewrite_triangles_ref, rewrite_triangle_strip_ref,
    rewrite_triangle_fan_ref, rewrite_quads_ref, rewrite_quads_line_ref,
    rewrite_quad_strip_ref, rewrite_quad_strip_line_ref, rewrite_polygon_ref,
    rewrite_polygon_line_ref.
Qed.
End Loops.

(** ** Sizes *)

Lemma rotate_to_perm p l : rotate_to p l ≡ₚ l.
Proof.
  unfold rotate_to. destruct (list_find _ l) as [[i x]|]; [|done].
  rewrite Permutation_app_comm. by rewrite take_drop.
Qed.

Lemma length_emitted q : length (emitted q) = length q.1.
Proof. unfold emitted. by rewrite rotate_to_perm. Qed.

Definition zlen {A} (l : list A) : Z := Z.of_nat (length l).

Lemma zlen_em_cons q l : zlen (em (q :: l)) = zlen q.1 + zlen (em l).
Proof. unfold zlen. rewrite em_cons, length_app, length_emitted. lia. Qed.

Lemma zlen_em_app l1 l2 : zlen (em (l1 ++ l2)) = zlen (em l1) + zlen (em l2).
Proof. unfold zlen. rewrite em_app, length_app. lia. Qed.

Lemma zlen_cons {A} (a : A) l : zlen (a :: l) = 1 + zlen l.
Proof. unfold zlen; cbn [length]. lia. Qed.

Lemma zlen_nonneg {A} (l : list A) : 0 <= zlen l.
Proof. unfold zlen. lia. Qed.

Lemma zlen_em_nil : zlen (em []) = 0.
Proof. done. Qed.

Lemma zlen_nil {A} : zlen (@nil A) = 0.
Proof. done. Qed.

Create Rewrite HintDb zlen.
#[local] Hint Rewrite @zlen_cons @zlen_nil zlen_em_cons zlen_em_app zlen_em_nil : zlen.

(** Complete induction on the length of a list. *)
Lemma list_len_ind {A} (P : list A -> Prop) :
  (forall l, (forall l', (length l' < length l)%nat -> P l') -> P l) -> forall l, P l.
Proof.
  intros H l. induction l as [l IH] using (induction_ltof1 _ (@length A)).
  apply H. intros l' Hl. apply IH. done.
Qed.

(** Peels the first elements of [vs] and settles the count by arithmetic. *)
Ltac peel IH :=
  cbn [ref_lines ref_triangles ref_quads];
  autorewrite with zlen; rewrite ?IH by (cbn; lia); cbn [fst]; autorewrite with zlen.

Lemma zlen_ref_points vs : zlen (em (ref_points vs)) = zlen vs.
Proof. induction vs as [|a vs IH]; [done|].
  change (ref_points (a :: vs)) with (([a], a) :: ref_points vs).
  autorewrite with zlen. cbn [fst]. autorewrite with zlen. lia.
Qed.

Lemma zlen_ref_lines lp vs : zlen (em (ref_lines lp vs)) = 2 * (zlen vs / 2).
Proof.
  induction vs as [vs IH] using list_len_ind.
  destruct vs as [|a [|b t]]; [done..|]. peel IH. pose proof (zlen_nonneg t). dlia.
Qed.

Lemma zlen_ref_line_strip lp vs :
  zlen (em (ref_line_strip lp vs)) = 2 * Z.max 0 (zlen vs - 1).
Proof.
  induction vs as [vs IH] using list_len_ind.
  destruct vs as [|a [|b t]]; [done..|].
  change (ref_line_strip lp (a :: b :: t))
    with (([a; b], pick lp a b) :: ref_line_strip lp (b :: t)).
  peel IH. pose proof (zlen_nonneg t). lia.
Qed.

Lemma zlen_ref_line_loop lp vs :
  zlen (em (ref_line_loop lp vs)) = if 2 <=? zlen vs then 2 * zlen vs else 0.
Proof.
  destruct vs as [|a [|b t]]; [done..|]. unfold ref_line_loop.
  rewrite zlen_em_app, zlen_ref_line_strip. autorewrite with zlen. cbn [fst].
  autorewrite with zlen. pose proof (zlen_nonneg t).
  destruct (Z.leb_spec 2 (1 + (1 + zlen t))); lia.
Qed.

Lemma zlen_ref_triangles lp vs : zlen (em (ref_triangles lp vs)) = 3 * (zlen vs / 3).
Proof.
  induction vs as [vs IH] using list_len_ind.
  destruct vs as [|a [|b [|c t]]]; [done..|]. peel IH. pose proof (zlen_nonneg t). dlia.
Qed.

Lemma zlen_ref_triangle_strip odd lp vs :
  zlen (em (ref_triangle_strip odd lp vs)) = 3 * Z.max 0 (zlen vs - 2).
Proof.
  revert odd. induction vs as [vs IH] using list_len_ind. intros odd.
  destruct vs as [|a [|b [|c t]]]; [done..|].
  change (ref_triangle_strip odd lp (a :: b :: c :: t))
    with ((if odd then [b; a; c] else [a; b; c], pick lp a c)
            :: ref_triangle_strip (negb odd) lp (b :: c :: t)).
  peel IH. pose proof (zlen_nonneg t). destruct odd; autorewrite with zlen; lia.
Qed.

Lemma zlen_ref_fan_edges hub pv vs :
  zlen (em (ref_fan_edges hub pv vs)) = 3 * Z.max 0 (zlen vs - 1).
Proof.
  induction vs as [vs IH] using list_len_ind.
  destruct vs as [|a [|b t]]; [done..|].
  change (ref_fan_edges hub pv (a :: b :: t))
    with (([hub; a; b], pv a b) :: ref_fan_edges hub pv (b :: t)).
  peel IH. pose proof (zlen_nonneg t). lia.
Qed.

Lemma zlen_ref_quads q n vs : (forall a b c d, zlen (em (q a b c d)) = n) ->
  zlen (em (ref_quads q vs)) = n * (zlen vs / 4).
Proof.
  intros Hq. induction vs as [vs IH] using list_len_ind.
  destruct vs as [|a [|b [|c [|d t]]]]; 
    [by rewrite Z.div_small, Z.mul_0_r by (unfold zlen; cbn; lia)..|]. peel IH. rewrite Hq.
  replace (1 + (1 + (1 + (1 + zlen t)))) with (zlen t + 1 * 4) by lia.
  rewrite Z.div_add by lia. lia.
Qed.

Lemma zlen_ref_quad_strip q n vs : (forall a b c d, zlen (em (q a b c d)) = n) ->
  zlen (em (ref_quad_strip q vs)) = n * (Z.max 0 (zlen vs - 2) / 2).
Proof.
  intros Hq. induction vs as [vs IH] using list_len_ind.
  destruct vs as [|a [|b [|c [|d t]]]]; 
    [by rewrite Z.div_small, Z.mul_0_r by (unfold zlen; cbn; lia)..|].
  change (ref_quad_strip q (a :: b :: c :: d :: t))
    with (q a b c d ++ ref_quad_strip q (c :: d :: t)).
  peel IH. rewrite Hq. pose proof (zlen_nonneg t).
  replace (Z.max 0 (1 + (1 + (1 + (1 + zlen t))) - 2))
    with (Z.max 0 (1 + (1 + zlen t) - 2) + 1 * 2) by lia.
  rewrite Z.div_add by lia. lia.
Qed.

Lemma zlen_quad_tris flat a b c d : zlen (em (quad_tris flat a b c d)) = 6.
Proof. unfold quad_tris. by destruct flat; autorewrite with zlen. Qed.

Lemma zlen_strip_tris flat a b c d : zlen (em (strip_tris flat a b c d)) = 6.
Proof. unfold strip_tris. by destruct flat; autorewrite with zlen. Qed.

Lemma zlen_quad_edges a b c d : zlen (em (quad_edges a b c d)) = 8.
Proof. unfold quad_edges. by autorewrite with zlen. Qed.

Lemma zlen_strip_edges a b c d : zlen (em (strip_edges a b c d)) = 8.
Proof. apply zlen_quad_edges. Qed.

(** A draw of at most [2^29] vertices: the bound keeps [max_output_indices] and
    the buffer sizes inside 32 bits. *)
Definition draw_limit : Z := 2 ^ 29.

Lemma ref_output_fits st vs :
  primitive_mode st <> PRIM_TYPE_INVALID -> zlen vs <= draw_limit ->
  zlen (ref_output st vs)
    <= max_output_indices (primitive_mode st) (polygon_mode st) (zlen vs)
  /\ max_output_indices (primitive_mode st) (polygon_mode st) (zlen vs) <= 4 * zlen vs
  /\ 0 <= max_output_indices (primitive_mode st) (polygon_mode st) (zlen vs).
Proof.
  intros Hm Hn. unfold draw_limit in Hn. pose proof (zlen_nonneg vs).
  assert (Hfan : forall hub pv, zlen (em (ref_fan_edges hub pv (tail vs)))
                 = 3 * Z.max 0 (zlen vs - 2)).
  { intros. rewrite zlen_ref_fan_edges. destruct vs; autorewrite with zlen; cbn [tail].
    - done.
    - autorewrite with zlen. lia. }
  unfold ref_output, assemble, max_output_indices.
  destruct (primitive_mode st); try done; destruct (polygon_mode st); cbn [by_polygon_mode];
  repeat case_bool_decide; try done;
  rewrite ?zlen_ref_points, ?zlen_ref_lines, ?zlen_ref_line_strip, ?zlen_ref_line_loop,
    ?zlen_ref_triangles, ?zlen_ref_triangle_strip,
    ?(zlen_ref_quads _ 6), ?(zlen_ref_quads _ 8), ?(zlen_ref_quad_strip _ 6),
    ?(zlen_ref_quad_strip _ 8)
    by auto using zlen_quad_tris, zlen_strip_tris, zlen_quad_edges, zlen_strip_edges;
  try (destruct vs as [|hub t]; [done|]; cbn [ref_triangle_fan ref_polygon];
       rewrite (Hfan hub : forall pv, zlen (em (ref_fan_edges hub pv t)) = _));
  repeat match goal with
  | |- context [if ?a <=? ?b then _ else _] => destruct (Z.leb_spec a b)
  | |- context [if ?a <? ?b then _ else _] => destruct (Z.ltb_spec a b)
  end; rewrite ?uwrap_id by dlia; dlia.
Qed.

(** ** The scratch buffer *)

(** Capacities are 0 or 256 doubled some number of times. *)
Definition buf_wf (buf : PrimRewriteBuf) : Prop :=
  capacity buf = 0 \/ exists k, 8 <= k <= 31 /\ capacity buf = 2 ^ k.

Lemma u32_double_pow2 k : 0 <= k <= 30 -> u32 (2 ^ k * 2) = 2 ^ (k + 1).
Proof.
  intros. rewrite Z.mul_comm, <- Z.pow_succ_r by lia. apply uwrap_id. split; [lia|].
  apply Z.pow_lt_mono_r; lia.
Qed.

Lemma grow_ok fuel k needed :
  8 <= k <= 31 -> needed <= 2 ^ 31 -> 31 - k <= Z.of_nat fuel ->
  exists j, 8 <= j <= 31 /\ grow fuel (2 ^ k) needed = Ok (2 ^ j) /\ needed <= 2 ^ j.
Proof.
  revert k. induction fuel as [|fuel IH]; intros k Hk Hn Hf; cbn [grow];
    destruct (Z.ltb_spec (2 ^ k) needed) as [Hlt|]; eauto.
  - assert (k = 31) as -> by lia. lia.
  - assert (k <> 31) by (intros ->; lia). rewrite u32_double_pow2 by lia. apply IH; lia.
Qed.

Lemma ensure_capacity_ok buf needed :
  buf_wf buf -> 0 <= needed <= 2 ^ 31 ->
  exists buf', ensure_capacity buf needed = Ok buf' /\ buf_wf buf'
               /\ needed <= capacity buf'.
Proof.
  intros Hb Hn. unfold ensure_capacity, ensure_capacity_fuel.
  destruct (Z.leb_spec needed (capacity buf)); [eauto|].
  assert (exists k, 8 <= k <= 31 /\
            (if capacity buf =? 0 then 256 else u32 (capacity buf * 2)) = 2 ^ k)
    as (k & Hk & ->).
  { destruct Hb as [->|(k & Hk & E)]; [by exists 8|].
    rewrite E in *. assert (k <> 31) by (intros ->; lia).
    destruct (Z.eqb_spec (2 ^ k) 0); [lia|].
    exists (k + 1). rewrite u32_double_pow2 by lia. split; [lia|done]. }
  destruct (grow_ok 32 k needed) as (j & Hj & -> & Hle); [lia..|].
  eexists; split; [done|]. cbn. split; [right; eauto|done].
Qed.

Lemma grow_diverges fuel next needed :
  2 ^ 31 < needed -> (next = 0 \/ exists k, 0 <= k <= 31 /\ next = 2 ^ k) ->
  grow fuel next needed = Fault OutOfFuel.
Proof.
  intros Hn. revert next. induction fuel as [|fuel IH]; intros next Hx; cbn [grow];
    (assert (next < needed);
     [destruct Hx as [->|(k & Hk & ->)]; [lia|];
      assert (2 ^ k <= 2 ^ 31) by (apply Z.pow_le_mono_r; lia); lia|]);
    destruct (Z.ltb_spec next needed); try lia; [done|].
  apply IH. destruct Hx as [->|(k & Hk & ->)]; [by left|].
  destruct (decide (k = 31)) as [->|]; [left; reflexivity|].
  right. exists (k + 1). rewrite u32_double_pow2 by lia. split; [lia|done].
Qed.

(** ** Whole draw calls *)

Lemma point_at_buf_room r buf : room (point_at_buf r buf) = capacity buf.
Proof. done. Qed.

Lemma empty_result_ok enabled state :
  primitive_mode state <> PRIM_TYPE_INVALID ->
  exists m, pgraph_prim_rewrite_get_output_mode (primitive_mode state) (polygon_mode state)
              = Ok m
    /\ empty_result enabled state =
         Ok {| indices := []; room := 0; output_mode := m;
               flat_provoking_rewrite :=
                 flat_shading state && pgraph_prim_rewrite_needed enabled state |}.
Proof.
  intros Hm. unfold empty_result.
  assert (exists m, pgraph_prim_rewrite_get_output_mode (primitive_mode state)
                      (polygon_mode state) = Ok m) as [m E].
  { destruct (primitive_mode state); try done; cbn; eauto; case_bool_decide; eauto. }
  exists m. by rewrite E.
Qed.

Lemma ref_output_nil st vs :
  primitive_mode st <> PRIM_TYPE_INVALID -> zlen vs <= draw_limit ->
  max_output_indices (primitive_mode st) (polygon_mode st) (zlen vs) = 0 ->
  ref_output st vs = [].
Proof.
  intros Hm Hn H0. destruct (ref_output_fits st vs Hm Hn) as (Hle & _).
  destruct (ref_output st vs); [done|]. unfold zlen in *; cbn in *. lia.
Qed.

(** The result of a whole indexed draw, with the flags it carries. *)
Lemma prim_rewrite_indexed_run enabled buf state idx :
  primitive_mode state <> PRIM_TYPE_INVALID -> buf_wf buf -> zlen idx <= draw_limit ->
  exists m rm buf',
    pgraph_prim_rewrite_get_output_mode (primitive_mode state) (polygon_mode state) = Ok m
    /\ pgraph_prim_rewrite_indexed enabled buf state idx (zlen idx) =
       Ok ({| indices := if pgraph_prim_rewrite_needed enabled state
                         then ref_output state idx else [];
              room := rm; output_mode := m;
              flat_provoking_rewrite :=
                flat_shading state && pgraph_prim_rewrite_needed enabled state |}, buf')
    /\ buf_wf buf' /\ rm <= capacity buf'.
Proof.
  intros Hm Hb Hn. unfold pgraph_prim_rewrite_indexed.
  destruct (empty_result_ok enabled state Hm) as (m & Em & ->). cbn.
  assert (0 <= capacity buf).
  { destruct Hb as [->|(k & ? & ->)]; [done|]. apply Z.pow_nonneg. lia. }
  exists m. destruct (pgraph_prim_rewrite_needed enabled state); cbn; [|eauto 10].
  destruct (ref_output_fits state idx Hm Hn) as (Hle & H4 & H0).
  pose proof (zlen_nonneg idx).
  set (mx := max_output_indices _ _ _) in *.
  destruct (Z.eqb_spec mx 0) as [E|E].
  { rewrite ref_output_nil by done. eauto 10. }
  unfold draw_limit in Hn.
  destruct (ensure_capacity_ok buf mx Hb ltac:(lia)) as (buf' & -> & Hb' & Hcap). cbn.
  rewrite rewrite_indices_ref by (done || (cbn; unfold zlen in *; lia)).
  unfold verts. rewrite take_ge by (unfold zlen; lia).
  rewrite emit_list_ok; [|change (0 + zlen (ref_output state idx) <= capacity buf'); lia].
  cbn. change (num_indices _) with (zlen (ref_output state idx)).
  destruct (Z.leb_spec (zlen (ref_output state idx)) mx); [|lia]. cbn.
  exists (capacity buf'), buf'. by split_and!.
Qed.

(** C4. An indexed draw is rewritten to exactly the primitives it denotes: for
    every primitive mode and every index list of up to 2^29 vertices the call
    returns (no assertion fails, no store goes past the scratch buffer), the
    words in the buffer are the reference output, and the buffer invariant is
    kept. *)
Theorem prim_rewrite_indexed_correct enabled buf state idx :
  primitive_mode state <> PRIM_TYPE_INVALID -> buf_wf buf -> zlen idx <= draw_limit ->
  exists r buf',
    pgraph_prim_rewrite_indexed enabled buf state idx (zlen idx) = Ok (r, buf')
    /\ buf_wf buf'
    /\ indices r = (if pgraph_prim_rewrite_needed enabled state
                    then ref_output state idx else [])
    /\ pgraph_prim_rewrite_get_output_mode (primitive_mode state) (polygon_mode state)
        = Ok (output_mode r).
Proof.
  intros Hm Hb Hn.
  destruct (prim_rewrite_indexed_run enabled buf state idx Hm Hb Hn)
    as (m & rm & buf' & Em & E & Hb' & _). eauto 10.
Qed.

Lemma prim_rewrite_indexed_correct_witness :
  exists r buf',
    pgraph_prim_rewrite_indexed true pgraph_prim_rewrite_init
      {| primitive_mode := PRIM_TYPE_TRIANGLE_STRIP; polygon_mode := POLY_MODE_FILL;
         last_provoking := false; flat_shading := true |} [10; 11; 12; 13] 4 = Ok (r, buf')
    /\ indices r = [10; 11; 12; 11; 13; 12].
Proof.
  destruct (prim_rewrite_indexed_correct true pgraph_prim_rewrite_init
      {| primitive_mode := PRIM_TYPE_TRIANGLE_STRIP; polygon_mode := POLY_MODE_FILL;
         last_provoking := false; flat_shading := true |} [10; 11; 12; 13])
    as (r & buf' & E & _ & Hi & _).
  - done.
  - by left.
  - vm_compute. discriminate.
  - exists r, buf'. split; [exact E|]. rewrite Hi. vm_compute. reflexivity.
Defined.

(** The vertices a list of (start, count) ranges draws, range by range. *)
Definition ranges_output (state : PrimAssemblyState) (ranges : list (Z * Z)) : list Z :=
  concat ((fun '(start, count) =>
             if count <=? 0 then [] else ref_output state (verts None (u32 start) count))
          <$> ranges).

Definition ranges_total (ranges : list (Z * Z)) : Z :=
  foldr (fun '(start, count) n => Z.max 0 count + n) 0 ranges.

Lemma ranges_total_cons start count l :
  ranges_total ((start, count) :: l) = Z.max 0 count + ranges_total l.
Proof. done. Qed.

Lemma ranges_total_nonneg ranges : 0 <= ranges_total ranges.
Proof.
  induction ranges as [|[start count] l IH]; [done|]. rewrite ranges_total_cons. lia.
Qed.

Lemma zlen_verts_None base count : 0 <= count -> zlen (verts None base count) = count.
Proof. intros. unfold zlen, verts. rewrite length_fmap, length_seqZ. lia. Qed.

Section Ranges.
Context (state : PrimAssemblyState) (Hm : primitive_mode state <> PRIM_TYPE_INVALID).

Lemma ranges_max_output_acc ranges :
  forall acc, 0 <= acc -> acc + 4 * ranges_total ranges < 2 ^ 64 ->
  ranges_total ranges <= draw_limit ->
  let t := foldl (fun total '(start, count) =>
    if count <=? 0 then total
    else u64 (total + max_output_indices (primitive_mode state)
                        (polygon_mode state) (u32 count))) acc ranges in
  acc + zlen (ranges_output state ranges) <= t <= acc + 4 * ranges_total ranges.
Proof.
  induction ranges as [|[start count] l IH]; intros acc Hacc Hlt Hlim.
  { change (ranges_total []) with 0. change (zlen (ranges_output state [])) with 0.
    cbn [foldl]. lia. }
  rewrite ranges_total_cons in *. cbn [foldl]. pose proof (ranges_total_nonneg l).
  unfold ranges_output in *; cbn [fmap list_fmap concat].
  destruct (Z.leb_spec count 0).
  - rewrite Z.max_l, Z.add_0_l in * by lia. apply IH; lia.
  - rewrite Z.max_r in * by lia.
    pose proof (zlen_verts_None (u32 start) count ltac:(lia)) as Hv.
    destruct (ref_output_fits state (verts None (u32 start) count) Hm) as (H1 & H2 & H3);
      [rewrite Hv; lia|]. rewrite Hv in *.
    unfold draw_limit in Hlim. rewrite (uwrap_id 32 count) by lia.
    rewrite (uwrap_id 64) by lia.
    set (mx := max_output_indices _ _ _) in *.
    specialize (IH (acc + mx) ltac:(lia) ltac:(lia) ltac:(unfold draw_limit; lia)).
    cbv zeta in IH. unfold zlen in *. rewrite length_app. lia.
Qed.

Lemma ranges_loop ranges :
  forall r, Forall (fun '(start, count) => 0 < count -> 0 <= start) ranges ->
  ranges_total ranges <= draw_limit ->
  num_indices r + zlen (ranges_output state ranges) <= room r ->
  res_foldl (fun r '(start, count) =>
    if count <=? 0 then Ok r
    else _ ← c_assert (0 <=? start);
         rewrite_indices r state None (u32 start) (u32 count)) r ranges
  = Ok (push r (ranges_output state ranges)).
Proof.
  induction ranges as [|[start count] l IH]; intros r Hs Hlim Hroom.
  { cbn. unfold push, ranges_output; cbn. rewrite app_nil_r. by destruct r. }
  apply Forall_cons in Hs as [Hs0 Hs]. rewrite ranges_total_cons in Hlim. pose proof (ranges_total_nonneg l).
  cbn [res_foldl]. unfold ranges_output in *; cbn [fmap list_fmap concat] in *.
  destruct (Z.leb_spec count 0).
  - apply IH; [done|lia|done].
  - unfold draw_limit in *. destruct (Z.leb_spec 0 start); [|lia]. cbn [c_assert mbind res_mbind res_bind].
    rewrite (uwrap_id 32 count) by lia.
    rewrite rewrite_indices_ref by (done || lia).
    unfold zlen in Hroom. rewrite length_app in Hroom.
    rewrite emit_list_ok by lia. cbn [mbind res_mbind res_bind].
    rewrite IH; [|done|lia|].
    + unfold push; cbn. by rewrite app_assoc.
    + unfold num_indices, zlen in *; cbn [push indices room]. rewrite length_app. lia.
Qed.
End Ranges.

(** C20. A draw of vertex ranges (or of one range, [pgraph_prim_rewrite_sequential])
    is rewritten range by range to the primitives each range denotes, the empty
    and negative ranges contributing nothing; no primitive spans two ranges, no
    assertion fails and no store leaves the buffer, for up to 2^29 vertices in
    all. *)
Theorem prim_rewrite_ranges_correct enabled buf state ranges :
  primitive_mode state <> PRIM_TYPE_INVALID -> buf_wf buf ->
  Forall (fun '(start, count) => 0 < count -> 0 <= start) ranges ->
  ranges_total ranges <= draw_limit ->
  exists r buf',
    pgraph_prim_rewrite_ranges enabled buf state ranges = Ok (r, buf')
    /\ buf_wf buf'
    /\ indices r = (if pgraph_prim_rewrite_needed enabled state
                    then ranges_output state ranges else [])
    /\ pgraph_prim_rewrite_get_output_mode (primitive_mode state) (polygon_mode state)
        = Ok (output_mode r).
Proof.
  intros Hm Hb Hs Hlim. unfold pgraph_prim_rewrite_ranges.
  destruct (empty_result_ok enabled state Hm) as (m & Em & ->).
  cbn [mbind res_mbind res_bind].
  destruct (pgraph_prim_rewrite_needed enabled state); cbn [negb]; [|eauto 10].
  pose proof (ranges_total_nonneg ranges). unfold draw_limit in Hlim.
  pose proof (ranges_max_output_acc state Hm ranges 0 ltac:(lia) ltac:(lia)
                ltac:(unfold draw_limit; lia)) as Hacc. cbv zeta in Hacc.
  fold (ranges_max_output state ranges) in Hacc.
  set (mx := ranges_max_output state ranges) in *.
  pose proof (zlen_nonneg (ranges_output state ranges)).
  destruct (Z.leb_spec mx (2 ^ 32 - 1)); [|lia].
  cbn [c_assert mbind res_mbind res_bind].
  destruct (Z.eqb_spec mx 0) as [E|E].
  { assert (ranges_output state ranges = []) as ->
      by (destruct (ranges_output state ranges); [done|unfold zlen in *; cbn in *; lia]).
    do 2 eexists. split; [done|]. split; [done|]. done. }
  rewrite uwrap_id by lia.
  destruct (ensure_capacity_ok buf mx Hb ltac:(lia)) as (buf' & -> & Hb' & Hcap). cbn.
  rewrite ranges_loop; [|done|done|unfold draw_limit; lia|].
  2: { change (0 + zlen (ranges_output state ranges) <= capacity buf'). lia. }
  cbn. change (num_indices _) with (zlen (ranges_output state ranges)).
  destruct (Z.leb_spec (zlen (ranges_output state ranges)) mx); [|lia]. cbn. eauto 10.
Qed.

Lemma prim_rewrite_ranges_correct_witness :
  exists r buf',
    pgraph_prim_rewrite_ranges true pgraph_prim_rewrite_init
      {| primitive_mode := PRIM_TYPE_QUADS; polygon_mode := POLY_MODE_FILL;
         last_provoking := true; flat_shading := true |} [(0, 4); (9, 0); (20, 5)] = Ok (r, buf')
    /\ indices r = [3; 0; 1; 3; 1; 2; 23; 20; 21; 23; 21; 22].
Proof.
  destruct (prim_rewrite_ranges_correct true pgraph_prim_rewrite_init
      {| primitive_mode := PRIM_TYPE_QUADS; polygon_mode := POLY_MODE_FILL;
         last_provoking := true; flat_shading := true |} [(0, 4); (9, 0); (20, 5)])
    as (r & buf' & E & _ & Hi & _).
  - done.
  - by left.
  - repeat constructor; lia.
  - vm_compute. discriminate.
  - exists r, buf'. split; [exact E|]. rewrite Hi. vm_compute. reflexivity.
Defined.

(** ** Winding, provoking vertex, and the size of the growth loop *)

Definition is_rotation (l l' : list Z) : Prop := exists k, l = drop k l' ++ take k l'.

(** Vertices per primitive of a host topology. *)
Definition prim_size (m : ShaderPrimitiveMode) : nat :=
  match m with PRIM_TYPE_POINTS => 1 | PRIM_TYPE_LINES => 2 | _ => 3 end.

(** What holds of one primitive of a draw over the vertices [vs] when the output
    topology is [m]. *)
Definition prim_wf (m : ShaderPrimitiveMode) (vs : list Z) (q : prim) : Prop :=
  length q.1 = prim_size m /\ q.2 ∈ q.1 /\ q.1 ⊆ vs.

Lemma emitted_rotation q : is_rotation (emitted q) q.1.
Proof.
  unfold emitted, rotate_to. destruct (list_find _ _) as [[k x]|].
  - by exists k.
  - exists 0%nat. cbn. by rewrite app_nil_r.
Qed.

Lemma emitted_first q : q.2 ∈ q.1 -> head (emitted q) = Some q.2.
Proof.
  intros Hin. unfold emitted, rotate_to.
  destruct (list_find_elem_of (fun x => x = q.2) q.1 q.2 Hin eq_refl) as [[k x] E].
  rewrite E. apply list_find_Some in E as (Hk & -> & _).
  by rewrite (drop_S _ _ _ Hk).
Qed.

Lemma prim_wf_mono m vs vs' q : vs ⊆ vs' -> prim_wf m vs q -> prim_wf m vs' q.
Proof. intros Hs (? & ? & ?). split_and!; [done..|]. set_solver. Qed.

Lemma Forall_prim_wf_mono m vs vs' l :
  vs ⊆ vs' -> Forall (prim_wf m vs) l -> Forall (prim_wf m vs') l.
Proof. intros Hs Hl. eapply Forall_impl; [exact Hl|]. intros q. by apply prim_wf_mono. Qed.

(** One primitive made of the listed vertices. *)
Ltac one_prim := split_and!; [done | set_solver | set_solver].

Lemma pick_in lp a b (l : list Z) : a ∈ l -> b ∈ l -> pick lp a b ∈ l.
Proof. by destruct lp. Qed.

Create HintDb prims.
#[local] Hint Resolve pick_in list_elem_of_here list_elem_of_further : prims.

Ltac prim_step IH :=
  repeat first [ apply Forall_nil_2 | apply Forall_cons_2 | apply Forall_app_2 ];
  [ try (split_and!; cbn; [done | eauto 6 with prims | set_solver]) ..
  | try (eapply Forall_prim_wf_mono; [|apply IH; cbn; lia]; set_solver) ].

Lemma wf_ref_points vs : Forall (prim_wf PRIM_TYPE_POINTS vs) (ref_points vs).
Proof.
  apply Forall_forall. intros q (v & -> & Hv)%list_elem_of_fmap. one_prim.
Qed.

Lemma wf_ref_lines lp vs : Forall (prim_wf PRIM_TYPE_LINES vs) (ref_lines lp vs).
Proof.
  induction vs as [vs IH] using list_len_ind.
  destruct vs as [|a [|b t]]; [constructor..|]. cbn [ref_lines]. prim_step IH.
Qed.

Lemma wf_ref_line_strip lp vs : Forall (prim_wf PRIM_TYPE_LINES vs) (ref_line_strip lp vs).
Proof.
  induction vs as [vs IH] using list_len_ind.
  destruct vs as [|a [|b t]]; [constructor..|].
  change (ref_line_strip lp (a :: b :: t))
    with (([a; b], pick lp a b) :: ref_line_strip lp (b :: t)). prim_step IH.
Qed.

Lemma last_in (vs : list Z) d : vs <> [] -> List.last vs d ∈ vs.
Proof.
  destruct vs as [|v vs] using rev_ind; [done|]. intros _.
  rewrite List.last_last. set_solver.
Qed.

Lemma wf_ref_line_loop lp vs : Forall (prim_wf PRIM_TYPE_LINES vs) (ref_line_loop lp vs).
Proof.
  destruct vs as [|a [|b t]]; [constructor..|]. cbn [ref_line_loop].
  pose proof (last_in (a :: b :: t) 0 ltac:(done)) as Hl.
  set (z := List.last _ _) in *. clearbody z.
  apply Forall_app_2; [apply wf_ref_line_strip|]. apply Forall_singleton.
  split_and!; cbn; [done | eauto with prims | set_solver].
Qed.

Lemma wf_ref_triangles lp vs : Forall (prim_wf PRIM_TYPE_TRIANGLES vs) (ref_triangles lp vs).
Proof.
  induction vs as [vs IH] using list_len_ind.
  destruct vs as [|a [|b [|c t]]]; [constructor..|]. cbn [ref_triangles]. prim_step IH.
Qed.

Lemma wf_ref_triangle_strip odd lp vs :
  Forall (prim_wf PRIM_TYPE_TRIANGLES vs) (ref_triangle_strip odd lp vs).
Proof.
  revert odd. induction vs as [vs IH] using list_len_ind. intros odd.
  destruct vs as [|a [|b [|c t]]]; [constructor..|].
  change (ref_triangle_strip odd lp (a :: b :: c :: t))
    with ((if odd then [b; a; c] else [a; b; c], pick lp a c)
            :: ref_triangle_strip (negb odd) lp (b :: c :: t)).
  destruct odd; prim_step IH.
Qed.

Lemma wf_ref_fan_edges hub pv vs :
  (forall b c, pv b c ∈ [hub; b; c]) ->
  Forall (prim_wf PRIM_TYPE_TRIANGLES (hub :: vs)) (ref_fan_edges hub pv vs).
Proof.
  intros Hpv. induction vs as [vs IH] using list_len_ind.
  destruct vs as [|a [|b t]]; [constructor..|].
  change (ref_fan_edges hub pv (a :: b :: t))
    with (([hub; a; b], pv a b) :: ref_fan_edges hub pv (b :: t)).
  apply Forall_cons_2.
  - split_and!; cbn; [done | apply Hpv | set_solver].
  - eapply Forall_prim_wf_mono; [|apply IH; cbn; lia]. set_solver.
Qed.

Lemma wf_ref_quads m q vs : (forall a b c d, Forall (prim_wf m [a; b; c; d]) (q a b c d)) ->
  Forall (prim_wf m vs) (ref_quads q vs).
Proof.
  intros Hq. induction vs as [vs IH] using list_len_ind.
  destruct vs as [|a [|b [|c [|d t]]]]; [constructor..|]. cbn [ref_quads].
  apply Forall_app_2; (eapply Forall_prim_wf_mono; [|first [apply Hq | apply IH; cbn; lia]]);
    set_solver.
Qed.

Lemma wf_ref_quad_strip m q vs :
  (forall a b c d, Forall (prim_wf m [a; b; c; d]) (q a b c d)) ->
  Forall (prim_wf m vs) (ref_quad_strip q vs).
Proof.
  intros Hq. induction vs as [vs IH] using list_len_ind.
  destruct vs as [|a [|b [|c [|d t]]]]; [constructor..|].
  change (ref_quad_strip q (a :: b :: c :: d :: t))
    with (q a b c d ++ ref_quad_strip q (c :: d :: t)).
  apply Forall_app_2; (eapply Forall_prim_wf_mono; [|first [apply Hq | apply IH; cbn; lia]]);
    set_solver.
Qed.

Lemma wf_quad_shapes flat a b c d :
  Forall (prim_wf PRIM_TYPE_TRIANGLES [a; b; c; d]) (quad_tris flat a b c d)
  /\ Forall (prim_wf PRIM_TYPE_TRIANGLES [a; b; c; d]) (strip_tris flat a b c d)
  /\ Forall (prim_wf PRIM_TYPE_LINES [a; b; c; d]) (quad_edges a b c d)
  /\ Forall (prim_wf PRIM_TYPE_LINES [a; b; c; d]) (strip_edges a b c d).
Proof.
  unfold quad_tris, strip_tris, strip_edges, quad_edges.
  destruct flat; split_and!; repeat (apply Forall_cons_2; [one_prim|]); constructor.
Qed.

Lemma assemble_wf st vs m :
  pgraph_prim_rewrite_get_output_mode (primitive_mode st) (polygon_mode st) = Ok m ->
  Forall (prim_wf m vs) (assemble st vs).
Proof.
  assert (Hfan : forall lp, Forall (prim_wf PRIM_TYPE_TRIANGLES vs) (ref_triangle_fan lp vs)).
  { intros lp. destruct vs; [constructor|]. apply wf_ref_fan_edges.
    intros. destruct lp; set_solver. }
  assert (Hpoly : Forall (prim_wf PRIM_TYPE_TRIANGLES vs) (ref_polygon vs)).
  { destruct vs; [constructor|]. apply wf_ref_fan_edges. set_solver. }
  unfold assemble. pose proof (fun a b c d => wf_quad_shapes (flat_shading st) a b c d) as Hq.
  destruct (primitive_mode st); try done; destruct (polygon_mode st);
    cbn [pgraph_prim_rewrite_get_output_mode by_polygon_mode];
    repeat case_bool_decide; try done; intros [= <-];
    auto using wf_ref_points, wf_ref_lines, wf_ref_line_strip, wf_ref_line_loop,
      wf_ref_triangles, wf_ref_triangle_strip;
    first [apply wf_ref_quads | apply wf_ref_quad_strip]; intros; apply Hq.
Qed.

(** C25. Whatever the rewritten topology, the index buffer is a sequence of whole
    primitives of the output topology, one for each primitive the draw denotes:
    each chunk is a rotation of the source primitive (so its winding, and with it
    the face that is culled, is unchanged), starts at the provoking vertex (so
    flat shading with the host's first-vertex convention picks the right colour),
    and uses only vertices of the draw. *)
Theorem prim_rewrite_indexed_winding enabled buf state idx :
  primitive_mode state <> PRIM_TYPE_INVALID -> buf_wf buf -> zlen idx <= draw_limit ->
  pgraph_prim_rewrite_needed enabled state = true ->
  exists r buf' chunks,
    pgraph_prim_rewrite_indexed enabled buf state idx (zlen idx) = Ok (r, buf')
    /\ indices r = concat chunks
    /\ Forall2 (fun c q => length c = prim_size (output_mode r)
                          /\ is_rotation c q.1 /\ head c = Some q.2 /\ c ⊆ idx)
               chunks (assemble state idx).
Proof.
  intros Hm Hb Hn Hneed.
  destruct (prim_rewrite_indexed_run enabled buf state idx Hm Hb Hn)
    as (m & rm & buf' & Em & E & _ & _). rewrite Hneed in E.
  eexists _, _, (emitted <$> assemble state idx).
  split; [exact E|]. split; [done|]. apply Forall2_fmap_l, Forall_Forall2_diag.
  eapply Forall_impl; [by apply assemble_wf|]. intros q (Hl & Hin & Hsub).
  split_and!.
  - by rewrite length_emitted.
  - apply emitted_rotation.
  - by apply emitted_first.
  - intros v Hv. apply Hsub. unfold emitted in Hv. by rewrite rotate_to_perm in Hv.
Qed.

Lemma prim_rewrite_indexed_winding_witness :
  exists r buf' chunks,
    pgraph_prim_rewrite_indexed true pgraph_prim_rewrite_init
      {| primitive_mode := PRIM_TYPE_TRIANGLES; polygon_mode := POLY_MODE_FILL;
         last_provoking := true; flat_shading := true |} [5; 6; 7] 3 = Ok (r, buf')
    /\ indices r = concat chunks.
Proof.
  destruct (prim_rewrite_indexed_winding true pgraph_prim_rewrite_init
      {| primitive_mode := PRIM_TYPE_TRIANGLES; polygon_mode := POLY_MODE_FILL;
         last_provoking := true; flat_shading := true |} [5; 6; 7])
    as (r & buf' & chunks & E & Hi & _); [done | by left | vm_compute; discriminate | done |].
  by exists r, buf', chunks.
Defined.

(** C34. [ensure_capacity] terminates and leaves room for every request of up to
    2^31 words, but for a larger one (which the assertion in
    [pgraph_prim_rewrite_ranges] still lets through) the doubling overflows to 0
    and the loop never ends: no amount of fuel gives a result. *)
Theorem ensure_capacity_limit buf needed :
  buf_wf buf -> 0 <= needed < 2 ^ 32 ->
  (needed <= 2 ^ 31 ->
     exists buf', ensure_capacity buf needed = Ok buf' /\ buf_wf buf'
                  /\ needed <= capacity buf')
  /\ (2 ^ 31 < needed -> forall fuel,
       ensure_capacity_fuel fuel buf needed = Fault OutOfFuel).
Proof.
  intros Hb Hn. split; intros H31; [apply ensure_capacity_ok; [done|lia]|].
  intros fuel. unfold ensure_capacity_fuel.
  assert (capacity buf <= 2 ^ 31).
  { destruct Hb as [->|(k & Hk & ->)]; [lia|]. apply Z.pow_le_mono_r; lia. }
  destruct (Z.leb_spec needed (capacity buf)); [lia|].
  rewrite grow_diverges; [done|done|].
  destruct Hb as [->|(k & Hk & E)]; [right; by exists 8|]. rewrite E.
  destruct (Z.eqb_spec (2 ^ k) 0); [lia|]. destruct (decide (k = 31)) as [->|].
  - left. reflexivity.
  - right. exists (k + 1). rewrite u32_double_pow2 by lia. split; [lia|done].
Qed.

Lemma ensure_capacity_limit_witness :
  (exists buf', ensure_capacity pgraph_prim_rewrite_init 1000 = Ok buf' /\ 1000 <= capacity buf')
  /\ ensure_capacity_fuel 100 pgraph_prim_rewrite_init 3000000000 = Fault OutOfFuel.
Proof.
  split.
  - destruct (ensure_capacity_limit pgraph_prim_rewrite_init 1000) as [H _];
      [by left | lia |]. destruct (H ltac:(lia)) as (b & E & _ & Hc). by exists b.
  - destruct (ensure_capacity_limit pgraph_prim_rewrite_init 3000000000) as [_ H];
      [by left | lia |]. apply H. lia.
Defined.

End PrimRewrite.
