(* ===== verification/Swizzle.v ===== *)
(** * Swizzled textures (hw/xbox/nv2a/pgraph/swizzle.c)

    Swizzled textures store texels in Z order.  The code builds one bit mask per
    dimension and walks the masks with [off = (off - mask) & mask].  The
    reference here is a list that says, for each bit of a swizzled offset from
    the lowest up, which coordinate the bit belongs to. *)

From S2P Require Import Prelude.

Module Swizzle.

(** ** The code *)

(** The [do ... while (!done)] loop; its fuel is the number of iterations. *)
Fixpoint swizzle_mask_loop (fuel : nat) (width height depth x y z bit mask_bit : Z)
  : res (Z * Z * Z * Z) :=
  match fuel with
  | O => Fault OutOfFuel
  | S fuel =>
      let '(x, mask_bit, d1) :=
        if bit <? width then (Z.lor x mask_bit, u32 (Z.shiftl mask_bit 1), false)
        else (x, mask_bit, true) in
      let '(y, mask_bit, d2) :=
        if bit <? height then (Z.lor y mask_bit, u32 (Z.shiftl mask_bit 1), false)
        else (y, mask_bit, d1) in
      let '(z, mask_bit, finished) :=
        if bit <? depth then (Z.lor z mask_bit, u32 (Z.shiftl mask_bit 1), false)
        else (z, mask_bit, d2) in
      let bit := u32 (Z.shiftl bit 1) in
      if finished then Ok (x, y, z, mask_bit)
      else swizzle_mask_loop fuel width height depth x y z bit mask_bit
  end.

(** 32 iterations are enough when every side is at most 2^31; above that [bit]
    wraps to 0 and the loop does not end. *)
Definition generate_swizzle_masks (width height depth : Z) : res (Z * Z * Z) :=
  '(x, y, z, mask_bit) ← swizzle_mask_loop 32 width height depth 0 0 0 1 1;
  _ ← c_assert (Z.lxor (Z.lxor x y) z =? u32 (mask_bit - 1));
  Ok (x, y, z).

(** [off = (off - mask) & mask], on [uint32_t] and back to [int]: the bits are
    those of the unsigned value, and every use converts back to unsigned. *)
Definition next_off (mask off : Z) : Z := Z.land (u32 (off - mask)) mask.

(** The pointers advance by [unsigned int] products, which wrap at 32 bits;
    [src_buf += slice_pitch] is pointer arithmetic and does not. *)
Definition swizzle_box_internal (src_buf : mem) (width height depth : Z) (dst_buf : mem)
    (row_pitch slice_pitch bytes_per_pixel : Z) : res mem :=
  '(mask_x, mask_y, mask_z) ← generate_swizzle_masks width height depth;
  '(dst, _) ← res_foldl (fun '(dst, (src_buf_off, off_z)) _ =>
    '(dst, _) ← res_foldl (fun '(dst, off_y) y =>
      let src_tmp := src_buf_off + u32 (y * row_pitch) in
      let dst_tmp := u32 (u32 (off_y + off_z) * bytes_per_pixel) in
      '(dst, _) ← res_foldl (fun '(dst, off_x) x =>
        dst ← memcpy src_buf (src_tmp + u32 (x * bytes_per_pixel))
                     dst (dst_tmp + u32 (off_x * bytes_per_pixel)) bytes_per_pixel;
        Ok (dst, next_off mask_x off_x)) (dst, 0) (zseq width);
      Ok (dst, next_off mask_y off_y)) (dst, 0) (zseq height);
    Ok (dst, (src_buf_off + slice_pitch, next_off mask_z off_z))) (dst_buf, (0, 0)) (zseq depth);
  Ok dst.

Definition unswizzle_box_internal (src_buf : mem) (width height depth : Z) (dst_buf : mem)
    (row_pitch slice_pitch bytes_per_pixel : Z) : res mem :=
  '(mask_x, mask_y, mask_z) ← generate_swizzle_masks width height depth;
  '(dst, _) ← res_foldl (fun '(dst, (dst_buf_off, off_z)) _ =>
    '(dst, _) ← res_foldl (fun '(dst, off_y) y =>
      let src_tmp := u32 (u32 (off_y + off_z) * bytes_per_pixel) in
      let dst_tmp := dst_buf_off + u32 (y * row_pitch) in
      '(dst, _) ← res_foldl (fun '(dst, off_x) x =>
        dst ← memcpy src_buf (src_tmp + u32 (off_x * bytes_per_pixel))
                     dst (dst_tmp + u32 (x * bytes_per_pixel)) bytes_per_pixel;
        Ok (dst, next_off mask_x off_x)) (dst, 0) (zseq width);
      Ok (dst, next_off mask_y off_y)) (dst, 0) (zseq height);
    Ok (dst, (dst_buf_off + slice_pitch, next_off mask_z off_z))) (dst_buf, (0, 0)) (zseq depth);
  Ok dst.

(** [MULTIVERSION]: the switch picks a copy of the same function specialised to
    the constant. *)
Definition multiversion (m : Z -> res mem) (bytes_per_pixel : Z) : res mem :=
  match bytes_per_pixel with
  | 1 => m 1
  | 2 => m 2
  | 3 => m 3
  | 4 => m 4
  | _ => m bytes_per_pixel
  end.

Definition swizzle_box src_buf width height depth dst_buf row_pitch slice_pitch bpp :=
  multiversion (swizzle_box_internal src_buf width height depth dst_buf row_pitch slice_pitch) bpp.
Definition unswizzle_box src_buf width height depth dst_buf row_pitch slice_pitch bpp :=
  multiversion (unswizzle_box_internal src_buf width height depth dst_buf row_pitch slice_pitch) bpp.

Definition swizzle_rect src_buf width height dst_buf pitch bpp :=
  swizzle_box src_buf width height 1 dst_buf pitch 0 bpp.
Definition unswizzle_rect src_buf width height dst_buf pitch bpp :=
  unswizzle_box src_buf width height 1 dst_buf pitch 0 bpp.

(** ** Reference: the layout of a swizzled offset *)

Inductive dim := DX | DY | DZ.

#[global] Instance dim_eq_dec : EqDecision dim.
Proof. solve_decision. Defined.

(** Level [i] of the interleaving holds bit [i] of each coordinate that has one. *)
Definition level (a b c i : Z) : list dim :=
  (if i <? a then [DX] else []) ++ (if i <? b then [DY] else [])
  ++ (if i <? c then [DZ] else []).

Definition levels (a b c n : Z) : list dim := zseq n ≫= level a b c.

(** Sides of [w], [h], [d] texels have [log2_up] coordinate bits. *)
Definition layout (w h d : Z) : list dim :=
  let a := Z.log2_up w in let b := Z.log2_up h in let c := Z.log2_up d in
  levels a b c (Z.max a (Z.max b c)).

(** The swizzled offset of (x, y, z), lowest bit first. *)
Fixpoint weave (l : list dim) (x y z : Z) : Z :=
  match l with
  | [] => 0
  | DX :: l => x mod 2 + 2 * weave l (x / 2) y z
  | DY :: l => y mod 2 + 2 * weave l x (y / 2) z
  | DZ :: l => z mod 2 + 2 * weave l x y (z / 2)
  end.

(** ... and its inverse. *)
Fixpoint unweave (l : list dim) (o : Z) : Z * Z * Z :=
  match l with
  | [] => (0, 0, 0)
  | k :: l =>
      let '(x, y, z) := unweave l (o / 2) in
      match k with
      | DX => (o mod 2 + 2 * x, y, z)
      | DY => (x, o mod 2 + 2 * y, z)
      | DZ => (x, y, o mod 2 + 2 * z)
      end
  end.

(** Bits of [n] put, lowest first, at the positions of [l] tagged [k]; [-1] gives
    the mask of those positions. *)
Fixpoint deposit (k : dim) (l : list dim) (n : Z) : Z :=
  match l with
  | [] => 0
  | k' :: l =>
      if decide (k' = k) then n mod 2 + 2 * deposit k l (n / 2)
      else 2 * deposit k l n
  end.

Definition mask (k : dim) (l : list dim) : Z := deposit k l (-1).

Definition count (k : dim) (l : list dim) : Z := Z.of_nat (length (filter (fun k' => k' = k) l)).

(** ** Walking a mask *)

Lemma land_bit_double a b c d : 0 <= b < 2 -> 0 <= d < 2 ->
  Z.land (b + 2 * a) (d + 2 * c) = b * d + 2 * Z.land a c.
Proof.
  intros Hb Hd.
  assert (b = Z.b2z (b =? 1)) as Eb by (destruct (Z.eqb_spec b 1); cbn; lia).
  assert (d = Z.b2z (d =? 1)) as Ed by (destruct (Z.eqb_spec d 1); cbn; lia).
  rewrite Eb, Ed at 1. rewrite !(Z.add_comm (Z.b2z _)).
  replace (b * d) with (Z.b2z ((b =? 1) && (d =? 1)))
    by (rewrite Eb, Ed at 2; by destruct (b =? 1), (d =? 1)).
  rewrite (Z.add_comm (Z.b2z _)).
  apply Z.bits_inj'; intros i Hi. rewrite Z.land_spec.
  destruct (Z.eq_dec i 0) as [->|].
  - by rewrite !Z.testbit_0_r.
  - replace i with (Z.succ (i - 1)) by lia.
    rewrite !Z.testbit_succ_r by lia. by rewrite Z.land_spec.
Qed.

Lemma land_double a c : Z.land (2 * a) (2 * c) = 2 * Z.land a c.
Proof. apply (land_bit_double a 0 c 0); lia. Qed.

Lemma land_odd_double a c : Z.land (1 + 2 * a) (2 * c) = 2 * Z.land a c.
Proof. apply (land_bit_double a 1 c 0); lia. Qed.

Lemma mask_cons k k' l : mask k (k' :: l) = (if decide (k' = k) then 1 else 0) + 2 * mask k l.
Proof. unfold mask. cbn [deposit]. by case_decide. Qed.

(** The borrow of [- mask - 1] runs through the positions outside the mask. *)
Lemma deposit_ripple k l n : Z.land (deposit k l n - mask k l - 1) (mask k l) = deposit k l n.
Proof.
  revert n. induction l as [|k' l IH]; intros n; [done|].
  rewrite mask_cons. cbn [deposit]. case_decide.
  - replace (n mod 2 + 2 * deposit k l (n / 2) - (1 + 2 * mask k l) - 1)
      with (n mod 2 + 2 * (deposit k l (n / 2) - mask k l - 1)) by lia.
    rewrite land_bit_double, IH by dlia. lia.
  - replace (2 * deposit k l n - (0 + 2 * mask k l) - 1)
      with (1 + 2 * (deposit k l n - mask k l - 1)) by lia.
    rewrite Z.add_0_l, land_odd_double, IH. done.
Qed.

(** Subtracting the mask and masking steps to the next coordinate. *)
Lemma deposit_step k l n : Z.land (deposit k l n - mask k l) (mask k l) = deposit k l (n + 1).
Proof.
  revert n. induction l as [|k' l IH]; intros n; [done|].
  rewrite mask_cons. cbn [deposit]. case_decide.
  - destruct (Z.eq_dec (n mod 2) 0) as [E|E].
    + replace (n mod 2 + 2 * deposit k l (n / 2) - (1 + 2 * mask k l))
        with (1 + 2 * (deposit k l (n / 2) - mask k l - 1)) by lia.
      rewrite land_bit_double, deposit_ripple by lia.
      replace ((n + 1) / 2) with (n / 2) by dlia. replace ((n + 1) mod 2) with 1 by dlia. lia.
    + replace (n mod 2 + 2 * deposit k l (n / 2) - (1 + 2 * mask k l))
        with (0 + 2 * (deposit k l (n / 2) - mask k l)) by dlia.
      rewrite land_bit_double, IH by lia.
      replace ((n + 1) / 2) with (n / 2 + 1) by dlia. replace ((n + 1) mod 2) with 0 by dlia. lia.
  - rewrite Z.add_0_l, <- Z.mul_sub_distr_l, land_double, IH. done.
Qed.

Lemma deposit_range k l n : 0 <= deposit k l n < 2 ^ Z.of_nat (length l).
Proof.
  revert n. induction l as [|k' l IH]; intros n; [cbn; lia|].
  cbn [deposit length]. rewrite Nat2Z.inj_succ, Z.pow_succ_r by lia.
  case_decide; [specialize (IH (n / 2))|specialize (IH n)]; dlia.
Qed.

Lemma deposit_0 k l : deposit k l 0 = 0.
Proof.
  induction l as [|k' l IH]; [done|]. cbn [deposit].
  change (0 mod 2) with 0. change (0 / 2) with 0. case_decide; lia.
Qed.

(** The code's step, on 32-bit words. *)
Lemma next_off_deposit k l n : (length l <= 32)%nat ->
  next_off (mask k l) (deposit k l n) = deposit k l (n + 1).
Proof.
  intros Hl. unfold next_off, uwrap. rewrite <- deposit_step.
  set (m := mask k l). assert (Hm : 0 <= m < 2 ^ 32).
  { pose proof (deposit_range k l (-1)) as Hr. fold (mask k l) in Hr. fold m in Hr.
    assert (2 ^ Z.of_nat (length l) <= 2 ^ 32) by (apply Z.pow_le_mono_r; lia). lia. }
  set (v := _ - m). clearbody v m.
  rewrite <- (Z.land_ones v) by lia. rewrite <- Z.land_assoc, (Z.land_comm (Z.ones 32)).
  rewrite Z.land_ones by lia. by rewrite (Z.mod_small m).
Qed.

Lemma deposit_weave l x y z :
  deposit DX l x + deposit DY l y + deposit DZ l z = weave l x y z.
Proof.
  revert x y z. induction l as [|k l IH]; intros x y z; [done|].
  destruct k; cbn [deposit weave]; repeat case_decide; try done; rewrite <- IH; lia.
Qed.

(** ** The masks *)

Lemma mask_snoc k k' l :
  mask k (l ++ [k']) =
  mask k l + (if decide (k' = k) then 2 ^ Z.of_nat (length l) else 0).
Proof.
  induction l as [|k0 l IH].
  - cbn [app]. rewrite mask_cons. cbn. case_decide; lia.
  - cbn [app length]. rewrite !mask_cons, IH, Nat2Z.inj_succ, Z.pow_succ_r by lia.
    repeat case_decide; lia.
Qed.

Lemma lor_pow2 x n : 0 <= x < 2 ^ n -> 0 <= n -> Z.lor x (2 ^ n) = x + 2 ^ n.
Proof.
  intros Hx Hn. symmetry. rewrite <- Z.lxor_lor, <- Z.add_nocarry_lxor; [done|..];
    apply Z.bits_inj'; intros i Hi; rewrite Z.land_spec, Z.bits_0, Z.pow2_bits_eqb by lia;
    (destruct (Z.eqb_spec n i) as [<-|]; [rewrite (testbit_above n x) by lia|]);
    by rewrite ?andb_false_r.
Qed.

Lemma mask_lor k l : Z.lor (mask k l) (2 ^ Z.of_nat (length l)) = mask k (l ++ [k]).
Proof.
  rewrite mask_snoc, decide_True by done. apply lor_pow2; [|lia]. apply deposit_range.
Qed.

Lemma mask_other k k' l : k' <> k -> mask k (l ++ [k']) = mask k l.
Proof. intros. rewrite mask_snoc, decide_False by done. lia. Qed.

(** Bit [i] of a mask says whether position [i] of the layout has its tag. *)
Lemma mask_testbit k l i : 0 <= i ->
  Z.testbit (mask k l) i = bool_decide (l !! Z.to_nat i = Some k).
Proof.
  revert i. induction l as [|k' l IH]; intros i Hi.
  - rewrite Z.bits_0, bool_decide_eq_false_2; done.
  - rewrite mask_cons, Z.add_comm.
    replace (if decide (k' = k) then 1 else 0) with (Z.b2z (bool_decide (k' = k)))
      by (by repeat case_decide).
    destruct (Z.eq_dec i 0) as [->|].
    + rewrite Z.testbit_0_r. apply bool_decide_ext. cbn. naive_solver.
    + replace i with (Z.succ (i - 1)) at 1 by lia.
      rewrite Z.testbit_succ_r, IH by lia.
      by replace (Z.to_nat i) with (S (Z.to_nat (i - 1))) by lia.
Qed.

(** The masks of the three dimensions share no bit ... *)
Lemma mask_disjoint k k' l : k <> k' -> Z.land (mask k l) (mask k' l) = 0.
Proof.
  intros Hk. apply Z.bits_inj'; intros i Hi.
  rewrite Z.land_spec, !mask_testbit, Z.bits_0 by done.
  repeat case_bool_decide; congruence || done.
Qed.

(** ... and together cover every bit of an offset. *)
Lemma mask_cover l :
  Z.lxor (Z.lxor (mask DX l) (mask DY l)) (mask DZ l) = Z.ones (Z.of_nat (length l)).
Proof.
  apply Z.bits_inj'; intros i Hi.
  rewrite !Z.lxor_spec, !mask_testbit, Z.testbit_ones_nonneg by lia.
  destruct (Z.ltb_spec i (Z.of_nat (length l))).
  - destruct (lookup_lt_is_Some_2 l (Z.to_nat i) ltac:(lia)) as [[] ->]; done.
  - rewrite (lookup_ge_None_2 l) by lia. done.
Qed.

Lemma u32_pow2_double n : 0 <= n -> u32 (Z.shiftl (u32 (2 ^ n)) 1) = u32 (2 ^ (n + 1)).
Proof.
  intros. unfold uwrap. rewrite Z.shiftl_mul_pow2, Z.mul_mod_idemp_l by lia.
  by rewrite Z.pow_add_r by lia.
Qed.

(** One [if] of the loop body: the mask and [mask_bit] describe one more
    position. *)
Lemma mask_push k l (b d : bool) : (length l < 32)%nat \/ b = false ->
  (if b then (Z.lor (mask k l) (u32 (2 ^ Z.of_nat (length l))),
              u32 (Z.shiftl (u32 (2 ^ Z.of_nat (length l))) 1), false)
   else (mask k l, u32 (2 ^ Z.of_nat (length l)), d))
  = (mask k (l ++ if b then [k] else []),
     u32 (2 ^ Z.of_nat (length (l ++ if b then [k] else []))), if b then false else d).
Proof.
  intros Hl. destruct b; [|by rewrite app_nil_r]. destruct Hl as [Hl|]; [|done].
  rewrite u32_pow2_double by lia. rewrite length_app. cbn [length].
  rewrite Nat2Z.inj_add. f_equal. f_equal.
  rewrite uwrap_id; [apply mask_lor|]. split; [lia|]. apply Z.pow_lt_mono_r; lia.
Qed.

Lemma mask_app_other k k' l (b : bool) : k' <> k ->
  mask k (l ++ if b then [k'] else []) = mask k l.
Proof. intros. destruct b; [by apply mask_other|by rewrite app_nil_r]. Qed.

Lemma levels_succ a b c n : 0 <= n -> levels a b c (n + 1) = levels a b c n ++ level a b c n.
Proof.
  intros. unfold levels, zseq. rewrite seqZ_app by lia. rewrite bind_app. f_equal.
  replace (seqZ (0 + n) 1) with [n] by (unfold seqZ; cbn; f_equal; lia).
  cbn [mbind list_bind]. by rewrite app_nil_r.
Qed.

Lemma length_level_le a b c n : (length (level a b c n) <= 3)%nat.
Proof. unfold level. repeat case_match; cbn; lia. Qed.

Lemma side_bit w n : 0 <= w -> 0 <= n -> (2 ^ n <? w) = (n <? Z.log2_up w).
Proof.
  intros Hw Hn. destruct (Z.eq_dec w 0) as [->|].
  - destruct (Z.ltb_spec (2 ^ n) 0), (Z.ltb_spec n (Z.log2_up 0)); cbn in *; lia.
  - pose proof (Z.log2_up_lt_pow2 w n ltac:(lia)).
    destruct (Z.ltb_spec (2 ^ n) w), (Z.ltb_spec n (Z.log2_up w)); lia.
Qed.

Lemma levels_length_mono a b c m n : 0 <= m <= n ->
  (length (levels a b c m) <= length (levels a b c n))%nat.
Proof.
  intros. unfold levels, zseq. replace n with (m + (n - m)) by lia.
  rewrite seqZ_app by lia. rewrite bind_app, length_app. lia.
Qed.

(** One iteration of the loop adds one level to the layout. *)
Lemma swizzle_mask_level fuel w h d i (a := Z.log2_up w) (b := Z.log2_up h) (c := Z.log2_up d)
    (l := levels a b c i) (l' := levels a b c (i + 1)) :
  0 <= w -> 0 <= h -> 0 <= d -> 0 <= i <= 31 -> (length l' <= 32)%nat ->
  swizzle_mask_loop (S fuel) w h d (mask DX l) (mask DY l) (mask DZ l)
    (2 ^ i) (u32 (2 ^ Z.of_nat (length l)))
  = if decide (level a b c i = []) then
      Ok (mask DX l', mask DY l', mask DZ l', u32 (2 ^ Z.of_nat (length l')))
    else swizzle_mask_loop fuel w h d (mask DX l') (mask DY l') (mask DZ l')
           (u32 (2 ^ (i + 1))) (u32 (2 ^ Z.of_nat (length l'))).
Proof.
  intros Hw Hh Hd Hi Hlen.
  assert (El : l' = l ++ level a b c i) by (apply levels_succ; lia).
  rewrite El in *. clearbody l. clear l' El.
  cbn [swizzle_mask_loop]. rewrite !side_bit by lia. fold a b c.
  unfold level in *. set (bx := i <? a) in *. set (by_ := i <? b) in *. set (bz := i <? c) in *.
  clearbody bx by_ bz. rewrite !length_app in Hlen. rewrite !(app_assoc l), !app_assoc.
  rewrite (mask_push DX) by (destruct bx; cbn in *; [left; lia|by right]).
  rewrite <- (mask_app_other DY DX l bx), <- (mask_app_other DZ DX l bx) by done.
  set (l1 := l ++ if bx then [DX] else []).
  assert (H1 : (length l1 + length (if by_ then [DY] else []) + length (if bz then [DZ] else [])
                <= 32)%nat) by (unfold l1; rewrite length_app; lia).
  rewrite (mask_push DY) by (destruct by_; cbn in *; [left; lia|by right]).
  rewrite <- (mask_app_other DX DY l1 by_), <- (mask_app_other DZ DY l1 by_) by done.
  set (l2 := l1 ++ if by_ then [DY] else []).
  assert (H2 : (length l2 + length (if bz then [DZ] else []) <= 32)%nat)
    by (unfold l2; rewrite length_app; lia).
  rewrite (mask_push DZ) by (destruct bz; cbn in *; [left; lia|by right]).
  rewrite <- (mask_app_other DX DZ l2 bz), <- (mask_app_other DY DZ l2 bz) by done.
  rewrite Z.shiftl_mul_pow2, <- Z.pow_add_r by lia.
  by destruct bx, by_, bz.
Qed.

Lemma level_nil a b c i : level a b c i = [] <-> Z.max a (Z.max b c) <= i.
Proof.
  unfold level. destruct (Z.ltb_spec i a), (Z.ltb_spec i b), (Z.ltb_spec i c); cbn;
    split; intros; done || lia.
Qed.

Lemma swizzle_mask_loop_ok fuel w h d i (a := Z.log2_up w) (b := Z.log2_up h)
    (c := Z.log2_up d) (n := Z.max a (Z.max b c)) (l := levels a b c i) (L := layout w h d) :
  0 <= w -> 0 <= h -> 0 <= d -> 0 <= i <= n -> n <= 31 -> n - i < Z.of_nat fuel ->
  (length L <= 32)%nat ->
  swizzle_mask_loop fuel w h d (mask DX l) (mask DY l) (mask DZ l)
    (2 ^ i) (u32 (2 ^ Z.of_nat (length l)))
  = Ok (mask DX L, mask DY L, mask DZ L, u32 (2 ^ Z.of_nat (length L))).
Proof.
  intros Hw Hh Hd. revert l. revert i. induction fuel as [|fuel IH]; intros i l Hi Hn Hf HL; [lia|].
  unfold l. destruct (Z.eq_dec i n) as [->|Hne].
  - assert (El : levels a b c (n + 1) = L).
    { rewrite levels_succ by lia. rewrite (proj2 (level_nil a b c n)) by lia. apply app_nil_r. }
    rewrite swizzle_mask_level by (try lia; fold a b c; by rewrite El).
    fold a b c. rewrite decide_True by (apply level_nil; lia). by rewrite El.
  - assert (length (levels a b c (i + 1)) <= length L)%nat
      by (apply levels_length_mono; lia).
    rewrite swizzle_mask_level by (try lia; fold a b c; lia).
    fold a b c. rewrite decide_False by (rewrite level_nil; lia).
    rewrite (uwrap_id 32 (2 ^ (i + 1)))
      by (split; [lia|]; apply Z.pow_lt_mono_r; lia).
    apply IH; lia.
Qed.

(** ** The sizes the code is used for *)

(** The number of bits of a swizzled offset. *)
Definition offset_bits (w h d : Z) : Z := Z.log2_up w + Z.log2_up h + Z.log2_up d.

(** Sides of at most 2^31 texels, offsets of at most 32 bits. *)
Record box_dims (w h d : Z) : Prop := {
  box_w : 0 <= w <= 2 ^ 31;
  box_h : 0 <= h <= 2 ^ 31;
  box_d : 0 <= d <= 2 ^ 31;
  box_bits : offset_bits w h d <= 32
}.

Lemma count_app k l1 l2 : count k (l1 ++ l2) = count k l1 + count k l2.
Proof. unfold count. rewrite filter_app, length_app. lia. Qed.

Lemma count_level a b c i :
  count DX (level a b c i) = (if i <? a then 1 else 0)
  /\ count DY (level a b c i) = (if i <? b then 1 else 0)
  /\ count DZ (level a b c i) = (if i <? c then 1 else 0).
Proof. unfold level. by destruct (i <? a), (i <? b), (i <? c). Qed.

Lemma count_levels a b c n : 0 <= a -> 0 <= b -> 0 <= c -> 0 <= n ->
  count DX (levels a b c n) = Z.min n a /\ count DY (levels a b c n) = Z.min n b
  /\ count DZ (levels a b c n) = Z.min n c.
Proof.
  intros Ha Hb Hc. revert n. apply natlike_ind; [rewrite !Z.min_l by lia; done|].
  intros n Hn (IHx & IHy & IHz). rewrite <- Z.add_1_r, levels_succ by lia.
  rewrite !count_app, IHx, IHy, IHz.
  destruct (count_level a b c n) as (-> & -> & ->).
  destruct (Z.ltb_spec n a), (Z.ltb_spec n b), (Z.ltb_spec n c); lia.
Qed.

Lemma count_layout w h d (L := layout w h d) :
  count DX L = Z.log2_up w /\ count DY L = Z.log2_up h /\ count DZ L = Z.log2_up d.
Proof.
  pose proof (Z.log2_up_nonneg w). pose proof (Z.log2_up_nonneg h).
  pose proof (Z.log2_up_nonneg d). unfold L, layout.
  set (n := Z.max _ _). destruct (count_levels (Z.log2_up w) (Z.log2_up h) (Z.log2_up d) n)
    as (-> & -> & ->); lia.
Qed.

Lemma length_counts l : Z.of_nat (length l) = count DX l + count DY l + count DZ l.
Proof.
  induction l as [|k l IH]; [done|]. change (k :: l) with ([k] ++ l).
  rewrite !count_app, length_app, Nat2Z.inj_add, IH. change (length [k]) with 1%nat.
  assert (count DX [k] + count DY [k] + count DZ [k] = 1) by (by destruct k). lia.
Qed.

Lemma length_layout w h d : Z.of_nat (length (layout w h d)) = offset_bits w h d.
Proof. rewrite length_counts. by destruct (count_layout w h d) as (-> & -> & ->). Qed.

Lemma log2_up_31 w : w <= 2 ^ 31 -> Z.log2_up w <= 31.
Proof. intros. change 31 with (Z.log2_up (2 ^ 31)). by apply Z.log2_up_le_mono. Qed.

Lemma masks_run w h d (L := layout w h d) : box_dims w h d ->
  generate_swizzle_masks w h d = Ok (mask DX L, mask DY L, mask DZ L).
Proof.
  intros [Hw Hh Hd Hb]. unfold generate_swizzle_masks.
  rewrite <- length_layout in Hb.
  pose proof (log2_up_31 w) as H1. pose proof (log2_up_31 h) as H2.
  pose proof (log2_up_31 d) as H3.
  pose proof (Z.log2_up_nonneg w) as H4.
  assert (E : swizzle_mask_loop 32 w h d 0 0 0 1 1
    = Ok (mask DX L, mask DY L, mask DZ L, u32 (2 ^ Z.of_nat (length L))))
    by (apply (swizzle_mask_loop_ok 32 w h d 0); lia).
  rewrite E. clear E. cbn [mbind res_mbind res_bind]. fold L.
  rewrite mask_cover. fold L in Hb.
  replace (u32 (u32 (2 ^ Z.of_nat (length L)) - 1)) with (Z.ones (Z.of_nat (length L))).
  { by rewrite Z.eqb_refl. }
  rewrite Z.ones_equiv, <- Z.sub_1_r. unfold uwrap. rewrite Zminus_mod_idemp_l.
  assert (0 < 2 ^ Z.of_nat (length L) <= 2 ^ 32)
    by (split; [lia|]; apply Z.pow_le_mono_r; lia).
  rewrite Z.mod_small; lia.
Qed.

(** ** Weaving is a bijection *)

Lemma bit_split b o : 0 <= b < 2 -> (b + 2 * o) / 2 = o /\ (b + 2 * o) mod 2 = b.
Proof. dlia. Qed.

Lemma unweave_weave l x y z :
  unweave l (weave l x y z) = (x mod 2 ^ count DX l, y mod 2 ^ count DY l, z mod 2 ^ count DZ l).
Proof.
  revert x y z. induction l as [|k l IH]; intros x y z; [by rewrite !Z.mod_1_r|].
  assert (Hpos : forall k, 0 <= count k l) by (intros; unfold count; lia).
  assert (Hmod : forall v n, 0 <= n -> v mod 2 ^ (1 + n) = v mod 2 + 2 * ((v / 2) mod 2 ^ n)).
  { intros v n Hn. rewrite Z.pow_add_r by lia. apply Z.rem_mul_r; lia. }
  change (k :: l) with ([k] ++ l). rewrite !count_app.
  destruct k; cbn [app weave unweave];
    (match goal with |- context [?v mod 2 + 2 * ?o] =>
       destruct (bit_split (v mod 2) o) as [-> ->]; [dlia|] end);
    rewrite IH;
    repeat (change (count DX [_]) with 1 || change (count DX [_]) with 0
            || change (count DY [_]) with 1 || change (count DY [_]) with 0
            || change (count DZ [_]) with 1 || change (count DZ [_]) with 0);
    by rewrite Hmod by done.
Qed.

Lemma weave_range l x y z : 0 <= weave l x y z < 2 ^ Z.of_nat (length l).
Proof.
  revert x y z. induction l as [|k l IH]; intros x y z; [cbn; lia|].
  cbn [length]. rewrite Nat2Z.inj_succ, Z.pow_succ_r by lia.
  destruct k; cbn [weave];
    [specialize (IH (x / 2) y z)|specialize (IH x (y / 2) z)|specialize (IH x y (z / 2))]; dlia.
Qed.

(** Texel coordinates within a box. *)
Definition in_box (w h d : Z) (p : Z * Z * Z) : Prop :=
  let '(x, y, z) := p in 0 <= x < w /\ 0 <= y < h /\ 0 <= z < d.

Lemma side_pow2 w x : 0 <= x < w -> x mod 2 ^ Z.log2_up w = x.
Proof.
  intros Hx. apply Z.mod_small. destruct (Z.eq_dec w 1) as [->|]; [cbn; lia|].
  pose proof (Z.log2_up_spec w ltac:(lia)). lia.
Qed.

Definition weave3 (l : list dim) (p : Z * Z * Z) : Z := let '(x, y, z) := p in weave l x y z.

Lemma unweave_in_box w h d p : in_box w h d p ->
  unweave (layout w h d) (weave3 (layout w h d) p) = p.
Proof.
  destruct p as [[x y] z]. intros (Hx & Hy & Hz). cbn [weave3]. rewrite unweave_weave.
  destruct (count_layout w h d) as (-> & -> & ->). by rewrite !side_pow2.
Qed.

Lemma weave_inj w h d p q : in_box w h d p -> in_box w h d q ->
  weave3 (layout w h d) p = weave3 (layout w h d) q -> p = q.
Proof.
  intros Hp Hq E. rewrite <- (unweave_in_box w h d p Hp), <- (unweave_in_box w h d q Hq).
  by rewrite E.
Qed.

(** ** The loops as one list of texel copies *)

(** Texels in the order the loops visit them. *)
Definition texels (w h d : Z) : list (Z * Z * Z) :=
  zseq d ≫= fun z => zseq h ≫= fun y => (fun x => (x, y, z)) <$> zseq w.

Definition copy_texels (src : mem) (sa da : Z * Z * Z -> Z) (bpp : Z) (dst : mem)
    (ps : list (Z * Z * Z)) : res mem :=
  res_foldl (fun m p => memcpy src (sa p) m (da p) bpp) dst ps.

Lemma elem_of_texels w h d p : p ∈ texels w h d <-> in_box w h d p.
Proof.
  destruct p as [[x y] z]. unfold texels, in_box. split.
  - intros (z' & (y' & (x' & [= -> -> ->] & Hx)%list_elem_of_fmap & Hy)%list_elem_of_bind
            & Hz)%list_elem_of_bind. rewrite elem_of_zseq in *. auto.
  - intros (Hx & Hy & Hz). apply list_elem_of_bind. exists z. rewrite elem_of_zseq.
    split; [|done]. apply list_elem_of_bind. exists y. rewrite elem_of_zseq.
    split; [|done]. apply list_elem_of_fmap. exists x. by rewrite elem_of_zseq.
Qed.

(** Addresses of a texel, as the code computes them. *)
Definition linear_addr (row slice bpp : Z) (p : Z * Z * Z) : Z :=
  let '(x, y, z) := p in z * slice + u32 (y * row) + u32 (x * bpp).
Definition swizzled_addr (l : list dim) (bpp : Z) (p : Z * Z * Z) : Z :=
  let '(x, y, z) := p in
  u32 (u32 (deposit DY l y + deposit DZ l z) * bpp) + u32 (deposit DX l x * bpp).

(** The three loops, with the copy of a texel as a parameter: [f] gets the
    offset of the linear slice, [off_z], [off_y], [y], [off_x] and [x]. *)
Definition box_walk (w h d mx my mz slice : Z)
    (f : Z -> Z -> Z -> Z -> Z -> Z -> mem -> res mem) (dst : mem) : res mem :=
  '(dst, _) ← res_foldl (fun '(dst, (base, oz)) _ =>
    '(dst, _) ← res_foldl (fun '(dst, oy) y =>
      '(dst, _) ← res_foldl (fun '(dst, ox) x =>
        dst ← f base oz oy y ox x dst; Ok (dst, next_off mx ox)) (dst, 0) (zseq w);
      Ok (dst, next_off my oy)) (dst, 0) (zseq h);
    Ok (dst, (base + slice, next_off mz oz))) (dst, (0, 0)) (zseq d);
  Ok dst.

Section Boxes.
Context (w h d row slice bpp : Z) (Hdims : box_dims w h d).
#[local] Abbreviation L := (layout w h d).

Lemma layout_32 : (length L <= 32)%nat.
Proof. pose proof (length_layout w h d). destruct Hdims. lia. Qed.

Lemma box_walk_texels f dst :
  box_walk w h d (mask DX L) (mask DY L) (mask DZ L) slice f dst =
  res_foldl (fun m '(x, y, z) =>
      f (z * slice) (deposit DZ L z) (deposit DY L y) y (deposit DX L x) x m)
    dst (texels w h d).
Proof.
  pose proof layout_32 as HL. destruct Hdims. unfold box_walk, texels, zseq.
  set (g := fun m '(x, y, z) =>
    f (z * slice) (deposit DZ L z) (deposit DY L y) y (deposit DX L x) x m).
  rewrite (res_foldl_counter _
    (fun m z => res_foldl (fun m y => res_foldl (fun m x => g m (x, y, z)) m (seqZ 0 w))
                  m (seqZ 0 h))
    (fun z => (z * slice, deposit DZ L z))); [|by rewrite deposit_0|intros m z Hz|lia].
  - rewrite (res_bind_pair _ _ Ok), res_bind_ret, <- res_foldl_nest.
    apply res_foldl_ext. intros m z _. rewrite <- res_foldl_nest.
    apply res_foldl_ext. intros m' y _. apply (res_foldl_fmap g (fun x => (x, y, z))).
  - rewrite (res_foldl_counter _ (fun m y => res_foldl (fun m x => g m (x, y, z)) m (seqZ 0 w))
      (deposit DY L)); [|by rewrite deposit_0|intros m' y Hy|lia].
    + rewrite res_bind_pair, next_off_deposit by done.
      by replace ((z + 1) * slice) with (z * slice + slice) by lia.
    + rewrite (res_foldl_counter _ (fun m x => g m (x, y, z)) (deposit DX L));
        [|by rewrite deposit_0|intros m2 x Hx|lia].
      * by rewrite res_bind_pair, next_off_deposit.
      * by rewrite next_off_deposit.
Qed.

Lemma swizzle_run src dst :
  swizzle_box_internal src w h d dst row slice bpp =
  copy_texels src (linear_addr row slice bpp) (swizzled_addr L bpp) bpp dst (texels w h d).
Proof.
  unfold swizzle_box_internal. rewrite masks_run by done.
  etransitivity; [apply (box_walk_texels (fun base oz oy y ox x m =>
    memcpy src (base + u32 (y * row) + u32 (x * bpp))
           m (u32 (u32 (oy + oz) * bpp) + u32 (ox * bpp)) bpp))|].
  apply res_foldl_ext. by intros m [[x y] z] _.
Qed.

Lemma unswizzle_run src dst :
  unswizzle_box_internal src w h d dst row slice bpp =
  copy_texels src (swizzled_addr L bpp) (linear_addr row slice bpp) bpp dst (texels w h d).
Proof.
  unfold unswizzle_box_internal. rewrite masks_run by done.
  etransitivity; [apply (box_walk_texels (fun base oz oy y ox x m =>
    memcpy src (u32 (u32 (oy + oz) * bpp) + u32 (ox * bpp))
           m (base + u32 (y * row) + u32 (x * bpp)) bpp))|].
  apply res_foldl_ext. by intros m [[x y] z] _.
Qed.

End Boxes.

(** Copying texels between places that do not overlap: each arrives, and nothing
    else in the destination changes. *)
Lemma copy_texels_ok src sa da bpp dst ps : 0 <= bpp ->
  (forall p i, p ∈ ps -> 0 <= i < bpp ->
     is_Some (src !! (sa p + i)) /\ is_Some (dst !! (da p + i))) ->
  (forall p q i j, p ∈ ps -> q ∈ ps -> 0 <= i < bpp -> 0 <= j < bpp ->
     da p + i = da q + j -> p = q) ->
  exists dst', copy_texels src sa da bpp dst ps = Ok dst'
    /\ (forall p i, p ∈ ps -> 0 <= i < bpp -> dst' !! (da p + i) = src !! (sa p + i))
    /\ (forall a, (forall p i, p ∈ ps -> 0 <= i < bpp -> a <> da p + i) -> dst' !! a = dst !! a).
Proof.
  intros Hb Hv Hinj.
  apply (res_foldl_chunks (fun m p => memcpy src (sa p) m (da p) bpp) da
           (fun p i => src !! (sa p + i)) bpp dst ps); [|done|done].
  intros p m Hp Hm. apply memcpy_ok; [done|]. intros i Hi. split; [by apply Hv|by apply Hm].
Qed.

(** ** Addresses without wrap-around *)

(** Sizes for which no product of the address computation wraps. *)
Record box_pitches (w h d row slice bpp : Z) : Prop := {
  pitch_bpp : 0 < bpp;
  pitch_row : 0 <= row;
  pitch_slice : 0 <= slice;
  pitch_rows : h * row <= 2 ^ 32;
  pitch_size : 2 ^ offset_bits w h d * bpp <= 2 ^ 32
}.

Definition linear (row slice bpp : Z) (p : Z * Z * Z) : Z :=
  let '(x, y, z) := p in z * slice + y * row + x * bpp.

(** Rows that do not overlap, nor slices if there are several. *)
Definition linear_disjoint (w h d row slice bpp : Z) : Prop :=
  w * bpp <= row /\ (d <= 1 \/ h * row <= slice).

Lemma linear_inj w h d row slice bpp p q i j : linear_disjoint w h d row slice bpp ->
  0 < bpp -> in_box w h d p -> in_box w h d q -> 0 <= i < bpp -> 0 <= j < bpp ->
  linear row slice bpp p + i = linear row slice bpp q + j -> p = q.
Proof.
  intros [Hr Hs] Hb Hp Hq Hi Hj E. destruct p as [[x y] z], q as [[x' y'] z'].
  destruct Hp as (Hx & Hy & Hz), Hq as (Hx' & Hy' & Hz'). cbn in E.
  assert (Hrow : forall x i, 0 <= x < w -> 0 <= i < bpp -> 0 <= x * bpp + i < row) by nia.
  pose proof (Hrow x i Hx Hi). pose proof (Hrow x' j Hx' Hj).
  assert (Hsl : forall y r, 0 <= y < h -> 0 <= r < row -> 0 <= y * row + r < h * row) by nia.
  pose proof (Hsl y (x * bpp + i) Hy ltac:(lia)). pose proof (Hsl y' (x' * bpp + j) Hy' ltac:(lia)).
  assert (z = z' /\ y * row + (x * bpp + i) = y' * row + (x' * bpp + j)) as [-> E1].
  { destruct Hs; [assert (z = z') by lia; subst; lia|]. apply (radix_unique slice); lia. }
  apply radix_unique in E1 as [-> E2]; [|lia..].
  apply radix_unique in E2 as [-> _]; [done|lia..].
Qed.

Lemma swizzled_inj w h d bpp p q i j : in_box w h d p -> in_box w h d q ->
  0 <= i < bpp -> 0 <= j < bpp ->
  weave3 (layout w h d) p * bpp + i = weave3 (layout w h d) q * bpp + j -> p = q.
Proof.
  intros Hp Hq Hi Hj E. apply radix_unique in E as [E _]; [|done..].
  by eapply weave_inj.
Qed.

Section Addresses.
Context (w h d row slice bpp : Z) (Hdims : box_dims w h d)
  (Hpitch : box_pitches w h d row slice bpp).

Lemma weave3_range p : 0 <= weave3 (layout w h d) p < 2 ^ offset_bits w h d.
Proof. destruct p as [[x y] z]. rewrite <- length_layout. apply weave_range. Qed.

Lemma swizzled_addr_eq p : swizzled_addr (layout w h d) bpp p = weave3 (layout w h d) p * bpp.
Proof.
  pose proof (weave3_range p) as Hw. destruct p as [[x y] z]. cbn [swizzled_addr weave3] in *.
  rewrite <- deposit_weave in *.
  pose proof (deposit_range DX (layout w h d) x). pose proof (deposit_range DY (layout w h d) y).
  pose proof (deposit_range DZ (layout w h d) z).
  destruct Hpitch. set (n := 2 ^ offset_bits w h d) in *.
  assert (Hle : forall v, 0 <= v < n -> 0 <= v * bpp < 2 ^ 32) by nia.
  assert (n <= 2 ^ 32) by nia.
  rewrite (uwrap_id 32 (_ + _)) by lia. rewrite !uwrap_id by (apply Hle; lia). lia.
Qed.

Lemma linear_addr_eq p : in_box w h d p -> linear_addr row slice bpp p = linear row slice bpp p.
Proof.
  destruct p as [[x y] z]. intros (Hx & Hy & Hz). cbn. destruct Hpitch.
  assert (Hxb : 0 <= x * bpp < 2 ^ offset_bits w h d * bpp).
  { pose proof (side_pow2 w x Hx). pose proof (Z.log2_up_nonneg w).
    pose proof (Z.mod_pos_bound x (2 ^ Z.log2_up w) ltac:(lia)).
    assert (2 ^ Z.log2_up w <= 2 ^ offset_bits w h d).
    { pose proof (Z.log2_up_nonneg h). pose proof (Z.log2_up_nonneg d).
      apply Z.pow_le_mono_r; unfold offset_bits; lia. }
    nia. }
  rewrite !uwrap_id by nia. lia.
Qed.

(** Every swizzled byte lies in a block of [2^bits] texels. *)
Lemma swizzled_valid dst p i : mem_valid dst (2 ^ offset_bits w h d * bpp) -> 0 <= i < bpp ->
  is_Some (dst !! (weave3 (layout w h d) p * bpp + i)).
Proof. intros Hv Hi. apply Hv. pose proof (weave3_range p). nia. Qed.

(** The bytes of a texel in the linear image are inside [m]. *)
Definition linear_valid (m : mem) : Prop := forall p i, in_box w h d p -> 0 <= i < bpp ->
  is_Some (m !! (linear row slice bpp p + i)).

Lemma swizzle_box_run src dst :
  linear_valid src -> mem_valid dst (2 ^ offset_bits w h d * bpp) ->
  exists dst', swizzle_box src w h d dst row slice bpp = Ok dst'
    /\ (forall p i, in_box w h d p -> 0 <= i < bpp ->
         dst' !! (weave3 (layout w h d) p * bpp + i) = src !! (linear row slice bpp p + i))
    /\ (forall a, (forall p i, in_box w h d p -> 0 <= i < bpp ->
           a <> weave3 (layout w h d) p * bpp + i) -> dst' !! a = dst !! a).
Proof.
  intros Hs Hd. pose proof (pitch_bpp _ _ _ _ _ _ Hpitch).
  assert (swizzle_box src w h d dst row slice bpp
          = swizzle_box_internal src w h d dst row slice bpp) as ->
    by (unfold swizzle_box, multiversion; by repeat case_match).
  rewrite swizzle_run by done.
  destruct (copy_texels_ok src (linear_addr row slice bpp) (swizzled_addr (layout w h d) bpp)
    bpp dst (texels w h d)) as (dst' & E & Hin & Hout).
  - lia.
  - intros p i Hp%elem_of_texels Hi. rewrite linear_addr_eq, swizzled_addr_eq by done.
    split; [by apply Hs|by apply swizzled_valid].
  - intros p q i j Hp%elem_of_texels Hq%elem_of_texels Hi Hj. rewrite !swizzled_addr_eq.
    by apply swizzled_inj.
  - exists dst'. split; [done|]. split.
    + intros p i Hp Hi. rewrite <- swizzled_addr_eq, <- linear_addr_eq by done.
      apply Hin; [by apply elem_of_texels|done].
    + intros a Ha. apply Hout. intros p i Hp%elem_of_texels Hi. rewrite swizzled_addr_eq. auto.
Qed.

Lemma unswizzle_box_run src dst : linear_disjoint w h d row slice bpp ->
  linear_valid dst ->
  (forall p i, in_box w h d p -> 0 <= i < bpp ->
     is_Some (src !! (weave3 (layout w h d) p * bpp + i))) ->
  exists dst', unswizzle_box src w h d dst row slice bpp = Ok dst'
    /\ (forall p i, in_box w h d p -> 0 <= i < bpp ->
         dst' !! (linear row slice bpp p + i) = src !! (weave3 (layout w h d) p * bpp + i))
    /\ (forall a, (forall p i, in_box w h d p -> 0 <= i < bpp ->
           a <> linear row slice bpp p + i) -> dst' !! a = dst !! a).
Proof.
  intros Hdj Hd Hs. pose proof (pitch_bpp _ _ _ _ _ _ Hpitch).
  assert (unswizzle_box src w h d dst row slice bpp
          = unswizzle_box_internal src w h d dst row slice bpp) as ->
    by (unfold unswizzle_box, multiversion; by repeat case_match).
  rewrite unswizzle_run by done.
  destruct (copy_texels_ok src (swizzled_addr (layout w h d) bpp) (linear_addr row slice bpp)
    bpp dst (texels w h d)) as (dst' & E & Hin & Hout).
  - lia.
  - intros p i Hp%elem_of_texels Hi. rewrite linear_addr_eq, swizzled_addr_eq by done. auto.
  - intros p q i j Hp%elem_of_texels Hq%elem_of_texels Hi Hj. rewrite !linear_addr_eq by done.
    by apply linear_inj with w h d.
  - exists dst'. split; [done|]. split.
    + intros p i Hp Hi. rewrite <- swizzled_addr_eq, <- linear_addr_eq by done.
      apply Hin; [by apply elem_of_texels|done].
    + intros a Ha. apply Hout. intros p i Hp%elem_of_texels Hi. rewrite linear_addr_eq by done.
      auto.
Qed.

End Addresses.

(** ** Theorems *)

Lemma iter_next_off k l n : (length l <= 32)%nat ->
  Nat.iter n (next_off (mask k l)) 0 = deposit k l (Z.of_nat n).
Proof.
  intros Hl. induction n as [|n IH]; [symmetry; apply deposit_0|].
  cbn [Nat.iter nat_rect]. change (nat_rect _ _ _ n) with (Nat.iter n (next_off (mask k l)) 0).
  rewrite IH, next_off_deposit by done. f_equal. lia.
Qed.

Lemma mask_loop_diverges fuel w h d x y z bit mb : 2 ^ 31 < w -> 0 <= bit ->
  (bit = 0 \/ exists i, 0 <= i <= 31 /\ bit = 2 ^ i) ->
  swizzle_mask_loop fuel w h d x y z bit mb = Fault OutOfFuel.
Proof.
  intros Hw. revert x y z bit mb. induction fuel as [|fuel IH]; intros x y z bit mb H0 Hb; [done|].
  cbn [swizzle_mask_loop].
  assert (bit <= 2 ^ 31).
  { destruct Hb as [->|(i & Hi & ->)]; [lia|]. apply Z.pow_le_mono_r; lia. }
  destruct (Z.ltb_spec bit w); [|lia].
  assert (Hn : u32 (Z.shiftl bit 1) = 0
               \/ exists i, 0 <= i <= 31 /\ u32 (Z.shiftl bit 1) = 2 ^ i).
  { destruct Hb as [->|(i & Hi & ->)]; [by left|].
    rewrite Z.shiftl_mul_pow2, <- Z.pow_add_r by lia.
    destruct (Z.eq_dec i 31) as [->|]; [by left|right]. exists (i + 1). split; [lia|].
    apply uwrap_id. split; [lia|]. apply Z.pow_lt_mono_r; lia. }
  assert (0 <= u32 (Z.shiftl bit 1)) by (apply uwrap_range; lia).
  destruct (bit <? h), (bit <? d); by apply IH.
Qed.

(** C26. For sides of at most 2^31 whose offsets have at most 32 bits,
    [generate_swizzle_masks] returns, with its assertion holding, three masks
    that share no bit and together are the low [log2 w + log2 h + log2 d] bits;
    stepping a coordinate with [off = (off - mask) & mask] and adding the three
    offsets gives the Z-order interleaving of the coordinates.  The header asks
    for powers of two, other sides are rounded up.  A side above 2^31 makes
    [bit] wrap to zero, and the loop does not end. *)
Theorem generate_swizzle_masks_correct w h d :
  (box_dims w h d -> exists mx my mz,
     generate_swizzle_masks w h d = Ok (mx, my, mz)
     /\ Z.land mx my = 0 /\ Z.land mx mz = 0 /\ Z.land my mz = 0
     /\ Z.lxor (Z.lxor mx my) mz = 2 ^ offset_bits w h d - 1
     /\ forall x y z : nat,
          Nat.iter x (next_off mx) 0 + Nat.iter y (next_off my) 0 + Nat.iter z (next_off mz) 0
          = weave (layout w h d) (Z.of_nat x) (Z.of_nat y) (Z.of_nat z))
  /\ (2 ^ 31 < w -> forall fuel, swizzle_mask_loop fuel w h d 0 0 0 1 1 = Fault OutOfFuel).
Proof.
  split.
  - intros Hd. pose proof (layout_32 w h d Hd).
    exists (mask DX (layout w h d)), (mask DY (layout w h d)), (mask DZ (layout w h d)).
    split_and!; [by apply masks_run | by apply mask_disjoint .. | |].
    + by rewrite mask_cover, length_layout, Z.ones_equiv, Z.sub_1_r.
    + intros x y z. by rewrite !iter_next_off, deposit_weave.
  - intros Hw fuel. apply mask_loop_diverges; [done|lia|]. right. by exists 0.
Qed.

Lemma generate_swizzle_masks_correct_witness :
  (exists mx my mz, generate_swizzle_masks 8 32 1 = Ok (mx, my, mz) /\ Z.land mx my = 0)
  /\ swizzle_mask_loop 100 3000000000 1 1 0 0 0 1 1 = Fault OutOfFuel.
Proof.
  split.
  - destruct (generate_swizzle_masks_correct 8 32 1) as [H _].
    destruct H as (mx & my & mz & E & Hxy & _); [by constructor|]. by exists mx, my, mz.
  - destruct (generate_swizzle_masks_correct 3000000000 1 1) as [_ H]. apply H. lia.
Defined.

(** C14. Swizzling a box copies the texel at (x, y, z) of the linear image to the
    Z-order offset of (x, y, z), byte for byte, stays inside a destination of
    2^bits texels and changes no other byte of it. *)
Theorem swizzle_box_correct w h d row slice bpp src dst :
  box_dims w h d -> box_pitches w h d row slice bpp ->
  linear_valid w h d row slice bpp src -> mem_valid dst (2 ^ offset_bits w h d * bpp) ->
  exists dst', swizzle_box src w h d dst row slice bpp = Ok dst'
    /\ (forall x y z i, in_box w h d (x, y, z) -> 0 <= i < bpp ->
         dst' !! (weave (layout w h d) x y z * bpp + i)
         = src !! (z * slice + y * row + x * bpp + i))
    /\ (forall a, (forall p i, in_box w h d p -> 0 <= i < bpp ->
           a <> weave3 (layout w h d) p * bpp + i) -> dst' !! a = dst !! a).
Proof.
  intros Hd Hp Hs Hv. destruct (swizzle_box_run w h d row slice bpp Hd Hp src dst Hs Hv)
    as (dst' & E & Hin & Hout).
  exists dst'. split_and!; [done| |done]. intros x y z i. apply (Hin (x, y, z)).
Qed.

Lemma swizzle_box_correct_witness :
  exists dst', swizzle_box (mem_of_list [10; 11; 20; 21]) 2 2 1 (g_malloc (fun _ => 0) 4) 2 0 1 = Ok dst'
    /\ dst' !! 2 = Some 20.
Proof.
  destruct (swizzle_box_correct 2 2 1 2 0 1 (mem_of_list [10; 11; 20; 21]) (g_malloc (fun _ => 0) 4))
    as (dst' & E & H & _).
  - by constructor.
  - by constructor.
  - intros [[x y] z] i (Hx & Hy & Hz) Hi. cbn.
    assert (z = 0) as -> by lia. assert (i = 0) as -> by lia.
    assert (x = 0 \/ x = 1) as [-> | ->] by lia; assert (y = 0 \/ y = 1) as [-> | ->] by lia;
      eexists; vm_compute; reflexivity.
  - intros a Ha. exists 0. rewrite g_malloc_lookup. by rewrite decide_True.
  - exists dst'. split; [done|]. apply (H 0 1 0 0); cbn; lia.
Defined.

(** C21. Unswizzling what was swizzled gives the image back: for every box, pitch
    and texel size with non-overlapping rows and slices, both calls succeed and
    every texel of the result equals the texel of the original, while bytes
    between the rows keep their value. *)
Theorem unswizzle_swizzle_roundtrip w h d row slice bpp src dst back :
  box_dims w h d -> box_pitches w h d row slice bpp ->
  linear_disjoint w h d row slice bpp ->
  linear_valid w h d row slice bpp src -> mem_valid dst (2 ^ offset_bits w h d * bpp) ->
  linear_valid w h d row slice bpp back ->
  exists dst' back',
    swizzle_box src w h d dst row slice bpp = Ok dst'
    /\ unswizzle_box dst' w h d back row slice bpp = Ok back'
    /\ (forall x y z i, in_box w h d (x, y, z) -> 0 <= i < bpp ->
          back' !! (z * slice + y * row + x * bpp + i)
          = src !! (z * slice + y * row + x * bpp + i))
    /\ (forall a, (forall p i, in_box w h d p -> 0 <= i < bpp ->
            a <> linear row slice bpp p + i) -> back' !! a = back !! a).
Proof.
  intros Hd Hp Hdj Hs Hv Hb.
  destruct (swizzle_box_run w h d row slice bpp Hd Hp src dst Hs Hv) as (dst' & E & Hin & _).
  destruct (unswizzle_box_run w h d row slice bpp Hd Hp dst' back Hdj Hb)
    as (back' & E' & Hin' & Hout').
  { intros p i Hbx Hi. rewrite Hin by done. by apply Hs. }
  exists dst', back'. split_and!; [done..| |done].
  intros x y z i Hbx Hi. etransitivity; [exact (Hin' (x, y, z) i Hbx Hi)|].
  exact (Hin (x, y, z) i Hbx Hi).
Qed.

Lemma unswizzle_swizzle_roundtrip_witness :
  exists dst' back',
    swizzle_box (mem_of_list [10; 11; 20; 21]) 2 2 1 (g_malloc (fun _ => 0) 4) 2 0 1 = Ok dst'
    /\ unswizzle_box dst' 2 2 1 (g_malloc (fun _ => 7) 4) 2 0 1 = Ok back' /\ back' !! 3 = Some 21.
Proof.
  destruct (unswizzle_swizzle_roundtrip 2 2 1 2 0 1 (mem_of_list [10; 11; 20; 21])
              (g_malloc (fun _ => 0) 4) (g_malloc (fun _ => 7) 4)) as (dst' & back' & E & E' & H & _).
  - by constructor.
  - by constructor.
  - split; [lia|left; lia].
  - intros [[x y] z] i (Hx & Hy & Hz) Hi. cbn.
    assert (z = 0) as -> by lia. assert (i = 0) as -> by lia.
    assert (x = 0 \/ x = 1) as [-> | ->] by lia; assert (y = 0 \/ y = 1) as [-> | ->] by lia;
      eexists; vm_compute; reflexivity.
  - intros a Ha. exists 0. rewrite g_malloc_lookup. by rewrite decide_True.
  - intros [[x y] z] i (Hx & Hy & Hz) Hi. exists 7.
    rewrite g_malloc_lookup. by rewrite decide_True by (cbn; lia).
  - exists dst', back'. split_and!; [done..|]. apply (H 1 1 0 0); cbn; lia.
Defined.

End Swizzle.
