(* ===== verification/S3tc.v ===== *)
(** * S3TC texture decompression (hw/xbox/nv2a/pgraph/s3tc.c)

    DXT1, DXT3 and DXT5 blocks of 4x4 texels are expanded to RGBA8.  The
    definitions follow the C loops; the reference [ref_texel] gives the colour of
    one texel in closed form from its block, so the theorems say that the loops
    visit every texel once, at the right block and the right address. *)

From S2P Require Import Prelude.

Module S3tc.

(** ** The code *)

Inductive S3TC_DECOMPRESS_FORMAT : Set :=
| S3TC_DECOMPRESS_FORMAT_DXT1
| S3TC_DECOMPRESS_FORMAT_DXT3
| S3TC_DECOMPRESS_FORMAT_DXT5.

(** An array element; reading one that was not assigned is a fault. *)
Definition arr_get (l : list Z) (i : Z) : res Z :=
  match l !! Z.to_nat i with
  | Some v => if 0 <=? i then Ok v else Fault OutOfBounds
  | None => Fault OutOfBounds
  end.

(** [r], [g], [b] and [a]; of [a] only the assigned prefix. *)
Record colors := { c_r : list Z; c_g : list Z; c_b : list Z; c_a : list Z }.

Definition decode_bc1_colors (c0 c1 : Z) (transparent : bool) : colors :=
  let r0 := u8 (Z.shiftr (Z.land c0 0xF800) 8 * 0xFF / 0xF8) in
  let g0 := u8 (Z.shiftr (Z.land c0 0x07E0) 3 * 0xFF / 0xFC) in
  let b0 := u8 (Z.shiftl (Z.land c0 0x001F) 3 * 0xFF / 0xF8) in
  let r1 := u8 (Z.shiftr (Z.land c1 0xF800) 8 * 0xFF / 0xF8) in
  let g1 := u8 (Z.shiftr (Z.land c1 0x07E0) 3 * 0xFF / 0xFC) in
  let b1 := u8 (Z.shiftl (Z.land c1 0x001F) 3 * 0xFF / 0xF8) in
  if transparent then
    {| c_r := [r0; r1; u8 ((r0 + r1) / 2); 0];
       c_g := [g0; g1; u8 ((g0 + g1) / 2); 0];
       c_b := [b0; b1; u8 ((b0 + b1) / 2); 0];
       c_a := [255; 255; 255; 0] |}
  else
    {| c_r := [r0; r1; u8 ((2 * r0 + r1) / 3); u8 ((r0 + 2 * r1) / 3)];
       c_g := [g0; g1; u8 ((2 * g0 + g1) / 3); u8 ((g0 + 2 * g1) / 3)];
       c_b := [b0; b1; u8 ((2 * b0 + b1) / 3); u8 ((b0 + 2 * b1) / 3)];
       c_a := [255; 255; 255; 255] |}.

(** [for (v = lo; v < hi && v < lim; v++)] *)
Definition clipped (lo hi lim : Z) : list Z := seqZ lo (Z.min hi lim - lo).

(** [int] arithmetic wraps (the build uses -fwrapv). *)
Definition write_block_to_texture (converted_data : mem) (indices i j width height
    z_pos_factor : Z) (c : colors) (separate_alpha : bool) : res mem :=
  let x0 := s32 (i * 4) in
  let y0 := s32 (j * 4) in
  let x1 := s32 (x0 + 4) in
  let y1 := s32 (y0 + 4) in
  res_foldl (fun m y =>
    let y_index := 4 * (y - y0) in
    let z_plus_y_pos_factor := s32 (z_pos_factor + s32 (y * width)) in
    res_foldl (fun m x =>
      let xy_index := y_index + x - x0 in
      let index := Z.land (Z.shiftr indices (2 * xy_index)) 0x03 in
      let alpha_index := if separate_alpha then u8 xy_index else index in
      let p := s32 (s32 (z_plus_y_pos_factor + x) * 4) in
      r ← arr_get (c_r c) index; m ← st m p r;
      g ← arr_get (c_g c) index; m ← st m (p + 1) g;
      b ← arr_get (c_b c) index; m ← st m (p + 2) b;
      a ← arr_get (c_a c) alpha_index; st m (p + 3) a)
    m (clipped x0 x1 width)) converted_data (clipped y0 y1 height).

Definition decompress_dxt1_block (data : mem) (block_data : Z) (converted_data : mem)
    (i j width height z_pos_factor : Z) : res mem :=
  c0 ← ld_le data 2 block_data;
  c1 ← ld_le data 2 (block_data + 2);
  let c := decode_bc1_colors c0 c1 (c0 <=? c1) in
  indices ← ld_le data 4 (block_data + 4);
  write_block_to_texture converted_data indices i j width height z_pos_factor c false.

Definition set_alpha (c : colors) (a : list Z) : colors :=
  {| c_r := c_r c; c_g := c_g c; c_b := c_b c; c_a := a |}.

Definition decompress_dxt3_block (data : mem) (block_data : Z) (converted_data : mem)
    (i j width height z_pos_factor : Z) : res mem :=
  c0 ← ld_le data 2 (block_data + 8);
  c1 ← ld_le data 2 (block_data + 10);
  let c := decode_bc1_colors c0 c1 false in
  alpha ← ld_le data 8 block_data;
  let a := (fun a_i => u8 (Z.shiftl (Z.land (Z.shiftr alpha (4 * a_i)) 0x0F) 4 * 0xFF / 0xF0))
             <$> zseq 16 in
  indices ← ld_le data 4 (block_data + 12);
  write_block_to_texture converted_data indices i j width height z_pos_factor
    (set_alpha c a) true.

Definition dxt5_palette (a0 a1 : Z) : list Z :=
  [a0; a1] ++
  if a1 <? a0 then
    [u8 ((6 * a0 + 1 * a1) / 7); u8 ((5 * a0 + 2 * a1) / 7); u8 ((4 * a0 + 3 * a1) / 7);
     u8 ((3 * a0 + 4 * a1) / 7); u8 ((2 * a0 + 5 * a1) / 7); u8 ((1 * a0 + 6 * a1) / 7)]
  else
    [u8 ((4 * a0 + 1 * a1) / 5); u8 ((3 * a0 + 2 * a1) / 5); u8 ((2 * a0 + 3 * a1) / 5);
     u8 ((1 * a0 + 4 * a1) / 5); 0; 255].

Definition decompress_dxt5_block (data : mem) (block_data : Z) (converted_data : mem)
    (i j width height z_pos_factor : Z) : res mem :=
  c0 ← ld_le data 2 (block_data + 8);
  c1 ← ld_le data 2 (block_data + 10);
  let c := decode_bc1_colors c0 c1 false in
  alpha ← ld_le data 8 block_data;
  a0 ← ld data block_data;
  a1 ← ld data (block_data + 1);
  let a_palette := dxt5_palette a0 a1 in
  a ← res_foldl (fun a a_i =>
        v ← arr_get a_palette (Z.land (Z.shiftr alpha (16 + 3 * a_i)) 0x07);
        Ok (a ++ [v])) [] (zseq 16);
  indices ← ld_le data 4 (block_data + 12);
  write_block_to_texture converted_data indices i j width height z_pos_factor
    (set_alpha c a) true.

(** The [if]/[else if] chain of both entry points; [data + 8 * index] or
    [data + 16 * index]. *)
Definition decompress_block (color_format : S3TC_DECOMPRESS_FORMAT) (data : mem) (index : Z)
    (converted_data : mem) (i j width height z_pos_factor : Z) : res mem :=
  match color_format with
  | S3TC_DECOMPRESS_FORMAT_DXT1 =>
      decompress_dxt1_block data (s32 (8 * index)) converted_data i j width height z_pos_factor
  | S3TC_DECOMPRESS_FORMAT_DXT3 =>
      decompress_dxt3_block data (s32 (16 * index)) converted_data i j width height z_pos_factor
  | S3TC_DECOMPRESS_FORMAT_DXT5 =>
      decompress_dxt5_block data (s32 (16 * index)) converted_data i j width height z_pos_factor
  end.

Definition s3tc_decompress_3d (junk : Z -> Z) (color_format : S3TC_DECOMPRESS_FORMAT)
    (data : mem) (width height depth : Z) : res mem :=
  _ ← c_assert (0 <? width);
  _ ← c_assert (0 <? height);
  _ ← c_assert (0 <? depth);
  let physical_width := Z.land (u32 (width + 3)) 0xFFFFFFFC in
  let physical_height := Z.land (u32 (height + 3)) 0xFFFFFFFC in
  let num_blocks_x := s32 (physical_width / 4) in
  let num_blocks_y := s32 (physical_height / 4) in
  let num_blocks_z := s32 (u32 (depth + 3) / 4) in
  let converted_data := g_malloc junk (u32 (u32 (u32 (width * height) * depth) * 4)) in
  '(converted_data, _) ← res_foldl (fun '(m, (cur_depth, sub_block_index)) _ =>
    let residual_depth := s32 (depth - cur_depth) in
    let block_depth := Z.min residual_depth 4 in
    '(m, sub_block_index) ← res_foldl (fun '(m, sub_block_index) j =>
      res_foldl (fun '(m, sub_block_index) i =>
        res_foldl (fun '(m, sub_block_index) slice =>
          let z_pos_factor := s32 (u32 (u32 ((cur_depth + slice) * width) * height)) in
          m ← decompress_block color_format data sub_block_index m i j
                (s32 width) (s32 height) z_pos_factor;
          Ok (m, s32 (sub_block_index + 1)))
        (m, sub_block_index) (zseq block_depth))
      (m, sub_block_index) (zseq num_blocks_x))
    (m, sub_block_index) (zseq num_blocks_y);
    Ok (m, (s32 (cur_depth + block_depth), sub_block_index)))
  (converted_data, (0, 0)) (zseq num_blocks_z);
  Ok converted_data.

Definition s3tc_decompress_2d (junk : Z -> Z) (color_format : S3TC_DECOMPRESS_FORMAT)
    (data : mem) (width height : Z) : res mem :=
  _ ← c_assert (0 <? width);
  _ ← c_assert (0 <? height);
  let physical_width := Z.land (u32 (width + 3)) 0xFFFFFFFC in
  let physical_height := Z.land (u32 (height + 3)) 0xFFFFFFFC in
  let num_blocks_x := s32 (physical_width / 4) in
  let num_blocks_y := s32 (physical_height / 4) in
  let converted_data := g_malloc junk (u32 (u32 (width * height) * 4)) in
  res_foldl (fun m j =>
    res_foldl (fun m i =>
      let block_index := s32 (s32 (j * num_blocks_x) + i) in
      decompress_block color_format data block_index m i j (s32 width) (s32 height) 0)
    m (zseq num_blocks_x)) converted_data (zseq num_blocks_y).

(** ** Reference: the colour of one texel *)

Definition texel : Type := Z * Z * Z * Z.

(** Bits [[lo, lo + n)] of a word. *)
Definition field (v lo n : Z) : Z := (v / 2 ^ lo) mod 2 ^ n.

(** A channel of [n] bits scaled to 0..255, rounded down. *)
Definition scale (n v : Z) : Z := v * 255 / (2 ^ n - 1).

Definition rgb565 (c : Z) : Z * Z * Z :=
  (scale 5 (field c 11 5), scale 6 (field c 5 6), scale 5 (field c 0 5)).

(** The weighted mean of two colours, rounded down. *)
Definition mix (wa wb : Z) (a b : Z * Z * Z) : Z * Z * Z :=
  let '(ra, ga, ba) := a in let '(rb, gb, bb) := b in
  ((wa * ra + wb * rb) / (wa + wb), (wa * ga + wb * gb) / (wa + wb),
   (wa * ba + wb * bb) / (wa + wb)).

(** Entry [k] of a BC1 palette; [punch] is the three-colour mode whose last entry
    is transparent black. *)
Definition bc1_entry (punch : bool) (c0 c1 k : Z) : Z * Z * Z :=
  if k =? 0 then rgb565 c0
  else if k =? 1 then rgb565 c1
  else if punch then if k =? 2 then mix 1 1 (rgb565 c0) (rgb565 c1) else (0, 0, 0)
  else if k =? 2 then mix 2 1 (rgb565 c0) (rgb565 c1) else mix 1 2 (rgb565 c0) (rgb565 c1).

(** Entry [k] of a DXT5 alpha palette. *)
Definition alpha_entry (a0 a1 k : Z) : Z :=
  if k =? 0 then a0
  else if k =? 1 then a1
  else if a1 <? a0 then ((8 - k) * a0 + (k - 1) * a1) / 7
  else if k <=? 5 then ((6 - k) * a0 + (k - 1) * a1) / 5
  else if k =? 6 then 0 else 255.

Definition block_size (f : S3TC_DECOMPRESS_FORMAT) : Z :=
  match f with S3TC_DECOMPRESS_FORMAT_DXT1 => 8 | _ => 16 end.

(** Texel [t] of block [n] has a 2-bit colour index, and 4 bits of alpha in DXT3 or
    a 3-bit alpha index in DXT5. *)
Definition texel_at (f : S3TC_DECOMPRESS_FORMAT) (data : mem) (n t : Z) : texel :=
  let base := block_size f * n in
  let cbase := match f with S3TC_DECOMPRESS_FORMAT_DXT1 => base | _ => base + 8 end in
  let c0 := le_at data 2 cbase in
  let c1 := le_at data 2 (cbase + 2) in
  let k := field (le_at data 4 (cbase + 4)) (2 * t) 2 in
  let alpha := le_at data 8 base in
  match f with
  | S3TC_DECOMPRESS_FORMAT_DXT1 =>
      let punch := c0 <=? c1 in
      (bc1_entry punch c0 c1 k, if punch && (k =? 3) then 0 else 255)
  | S3TC_DECOMPRESS_FORMAT_DXT3 => (bc1_entry false c0 c1 k, scale 4 (field alpha (4 * t) 4))
  | S3TC_DECOMPRESS_FORMAT_DXT5 =>
      (bc1_entry false c0 c1 k,
       alpha_entry (byte_at data base) (byte_at data (base + 1)) (field alpha (16 + 3 * t) 3))
  end.

(** The texel at (u, v) of block [n]. *)
Definition ref_texel (f : S3TC_DECOMPRESS_FORMAT) (data : mem) (n u v : Z) : texel :=
  texel_at f data n (4 * v + u).

(** ** Palettes *)

Lemma field_range v lo n : 0 <= n -> 0 <= field v lo n < 2 ^ n.
Proof. intros. apply Z.mod_pos_bound. lia. Qed.

Lemma land_field v lo n : 0 <= lo -> 0 <= n -> Z.land (Z.shiftr v lo) (Z.ones n) = field v lo n.
Proof. intros. by rewrite Z.land_ones, Z.shiftr_div_pow2. Qed.

(** A field of a 16-bit colour moved to the top of a byte. *)
Lemma red_bits c : Z.shiftr (Z.land c 0xF800) 8 = 8 * field c 11 5.
Proof.
  rewrite <- land_field, Z.mul_comm by lia. change 8 with (2 ^ 3) at 2.
  rewrite <- Z.shiftl_mul_pow2 by lia. change 0xF800 with (Z.shiftl (Z.ones 5) 11). Z.bitblast.
Qed.

Lemma green_bits c : Z.shiftr (Z.land c 0x07E0) 3 = 4 * field c 5 6.
Proof.
  rewrite <- land_field, Z.mul_comm by lia. change 4 with (2 ^ 2).
  rewrite <- Z.shiftl_mul_pow2 by lia. change 0x07E0 with (Z.shiftl (Z.ones 6) 5). Z.bitblast.
Qed.

Lemma blue_bits c : Z.shiftl (Z.land c 0x001F) 3 = 8 * field c 0 5.
Proof.
  rewrite <- land_field, Z.mul_comm by lia. change 8 with (2 ^ 3).
  rewrite <- Z.shiftl_mul_pow2 by lia. change 0x001F with (Z.ones 5). Z.bitblast.
Qed.

Lemma scale_range n v : 0 < n -> 0 <= v < 2 ^ n -> 0 <= scale n v < 256.
Proof.
  intros Hn Hv. assert (2 ^ 1 <= 2 ^ n) by (apply Z.pow_le_mono_r; lia).
  unfold scale. split; [apply Z.div_pos; lia|].
  apply Z.div_lt_upper_bound; nia.
Qed.

Lemma scale_eq n k v : 0 < n -> 0 < k -> 0 <= v < 2 ^ n ->
  u8 (k * v * 0xFF / (k * (2 ^ n - 1))) = scale n v.
Proof.
  intros Hn Hk Hv. assert (2 ^ 1 <= 2 ^ n) by (apply Z.pow_le_mono_r; lia).
  rewrite <- Z.mul_assoc, Z.div_mul_cancel_l by lia.
  apply uwrap_id, (scale_range n v); done.
Qed.

Ltac channel n k bits c :=
  rewrite (bits c); apply (scale_eq n k); [lia | lia | apply field_range; lia].

Lemma red_eq c : u8 (Z.shiftr (Z.land c 0xF800) 8 * 0xFF / 0xF8) = scale 5 (field c 11 5).
Proof. channel 5 8 red_bits c. Qed.
Lemma green_eq c : u8 (Z.shiftr (Z.land c 0x07E0) 3 * 0xFF / 0xFC) = scale 6 (field c 5 6).
Proof. channel 6 4 green_bits c. Qed.
Lemma blue_eq c : u8 (Z.shiftl (Z.land c 0x001F) 3 * 0xFF / 0xF8) = scale 5 (field c 0 5).
Proof. channel 5 8 blue_bits c. Qed.

(** A palette holds [e k] at entry [k], for the [n] entries it has. *)
Definition holds (l : list Z) (n : Z) (e : Z -> Z) : Prop :=
  forall k, 0 <= k < n -> arr_get l k = Ok (e k).

Lemma holds_4 a b c d e : e 0 = a -> e 1 = b -> e 2 = c -> e 3 = d -> holds [a; b; c; d] 4 e.
Proof.
  intros <- <- <- <- k Hk.
  assert (k = 0 \/ k = 1 \/ k = 2 \/ k = 3) as [-> | [-> | [-> | ->]]] by lia; done.
Qed.

Definition rgb_holds (c : colors) (e : Z -> Z * Z * Z) : Prop :=
  holds (c_r c) 4 (fun k => (e k).1.1) /\ holds (c_g c) 4 (fun k => (e k).1.2)
  /\ holds (c_b c) 4 (fun k => (e k).2).

Lemma decode_bc1_colors_rgb c0 c1 punch :
  rgb_holds (decode_bc1_colors c0 c1 punch) (bc1_entry punch c0 c1).
Proof.
  unfold decode_bc1_colors. rewrite !red_eq, !green_eq, !blue_eq.
  assert (H5 : forall c lo, 0 <= scale 5 (field c lo 5) < 256)
    by (intros; apply scale_range, field_range; lia).
  assert (H6 : forall c lo, 0 <= scale 6 (field c lo 6) < 256)
    by (intros; apply scale_range, field_range; lia).
  pose proof (H5 c0 11). pose proof (H5 c0 0). pose proof (H6 c0 5).
  pose proof (H5 c1 11). pose proof (H5 c1 0). pose proof (H6 c1 5).
  unfold rgb_holds. destruct punch; cbn [c_r c_g c_b]; split_and!; apply holds_4;
    cbn -[Z.div]; rewrite ?uwrap_id by dlia; try done; f_equal; lia.
Qed.

Lemma decode_bc1_colors_alpha c0 c1 punch :
  holds (c_a (decode_bc1_colors c0 c1 punch)) 4 (fun k => if punch && (k =? 3) then 0 else 255).
Proof. unfold decode_bc1_colors. destruct punch; by apply holds_4. Qed.

Lemma dxt5_palette_holds a0 a1 : is_u8 a0 -> is_u8 a1 ->
  holds (dxt5_palette a0 a1) 8 (alpha_entry a0 a1).
Proof.
  unfold in_uw, dxt5_palette, alpha_entry. intros H0 H1 k Hk.
  assert (k = 0 \/ k = 1 \/ k = 2 \/ k = 3 \/ k = 4 \/ k = 5 \/ k = 6 \/ k = 7)
    as Hc by lia.
  destruct (Z.ltb_spec a1 a0);
    repeat (destruct Hc as [->|Hc]); subst; cbn -[Z.div Z.mul Z.add];
    rewrite ?uwrap_id by dlia; try done; do 2 f_equal; lia.
Qed.

Lemma holds_fmap n e : 0 <= n -> holds (e <$> zseq n) n e.
Proof.
  intros Hn k Hk. unfold arr_get. rewrite list_lookup_fmap. unfold zseq.
  rewrite lookup_seqZ_lt by lia. cbn. destruct (Z.leb_spec 0 k); [|lia].
  do 2 f_equal. lia.
Qed.

(** The DXT5 loop that fills [a]. *)
Lemma alpha_loop_eq l (f : Z -> Z) e n : (forall k, 0 <= k < n -> arr_get l (f k) = Ok (e k)) ->
  res_foldl (fun a a_i => v ← arr_get l (f a_i); Ok (a ++ [v])) [] (zseq n) = Ok (e <$> zseq n).
Proof.
  intros Hf.
  destruct (res_foldl_ind (fun a a_i => v ← arr_get l (f a_i); Ok (a ++ [v]))
    (fun ks a => a = e <$> ks) [] (zseq n)) as (a & E & ->); [done| |done].
  intros l1 k l2 a E ->. apply zseq_split in E as [Hk _]. rewrite Hf by done. cbn.
  eexists; split; [done|]. by rewrite fmap_app.
Qed.

(** ** One block *)

Definition write4 (m : mem) (p : Z) (t : texel) : res mem :=
  let '(r, g, b, a) := t in
  m ← st m p r; m ← st m (p + 1) g; m ← st m (p + 2) b; st m (p + 3) a.

(** Coordinates of the texels of block (i, j) that are inside the image. *)
Definition block_texels (i j w h : Z) : list (Z * Z) :=
  clipped (4 * j) (4 * j + 4) h ≫= fun y => (fun x => (x, y)) <$> clipped (4 * i) (4 * i + 4) w.

Lemma elem_of_clipped lo hi lim v : v ∈ clipped lo hi lim <-> lo <= v < hi /\ v < lim.
Proof. unfold clipped. rewrite elem_of_seqZ. lia. Qed.

Lemma elem_of_block_texels i j w h x y : (x, y) ∈ block_texels i j w h <->
  (4 * i <= x < 4 * i + 4 /\ x < w) /\ (4 * j <= y < 4 * j + 4 /\ y < h).
Proof.
  unfold block_texels. rewrite list_elem_of_bind. split.
  - intros (y' & (x' & [= -> ->] & Hx)%list_elem_of_fmap & Hy).
    rewrite elem_of_clipped in *. auto.
  - intros [Hx Hy]. exists y. rewrite elem_of_clipped. split; [|done].
    apply list_elem_of_fmap. exists x. by rewrite elem_of_clipped.
Qed.

(** The value the code writes for texel [t] of a block is [pv t]. *)
Definition block_value (c : colors) (sep : bool) (indices : Z) (pv : Z -> texel) : Prop :=
  forall t, 0 <= t < 16 ->
    let k := Z.land (Z.shiftr indices (2 * t)) 0x03 in
    let '(r, g, b, a) := pv t in
    arr_get (c_r c) k = Ok r /\ arr_get (c_g c) k = Ok g /\ arr_get (c_b c) k = Ok b
    /\ arr_get (c_a c) (if sep then u8 t else k) = Ok a.

Lemma write_block_flat m indices i j w h zpf c sep pv :
  0 <= i < 2 ^ 29 - 1 -> 0 <= j < 2 ^ 29 - 1 -> 0 <= zpf -> 0 <= w ->
  4 * (zpf + w * h) < 2 ^ 31 -> block_value c sep indices pv ->
  write_block_to_texture m indices i j w h zpf c sep =
  res_foldl (fun m '(x, y) =>
      write4 m (4 * (zpf + y * w + x)) (pv (4 * (y - 4 * j) + (x - 4 * i))))
    m (block_texels i j w h).
Proof.
  intros Hi Hj Hz Hw Hb Hpv. unfold write_block_to_texture, block_texels.
  rewrite (swrap_small 32 (i * 4)), (swrap_small 32 (j * 4)) by lia.
  rewrite (swrap_small 32 (i * 4 + 4)), (swrap_small 32 (j * 4 + 4)) by lia.
  replace (i * 4) with (4 * i) by lia. replace (j * 4) with (4 * j) by lia.
  rewrite <- res_foldl_nest. apply res_foldl_ext. intros m1 y Hy%elem_of_clipped.
  rewrite <- res_foldl_fmap. apply res_foldl_ext. intros m2 x Hx%elem_of_clipped.
  assert (0 <= y * w /\ y * w + x < w * h) by nia.
  rewrite (swrap_small 32 (y * w)), (swrap_small 32 (zpf + y * w)) by lia.
  rewrite (swrap_small 32 (zpf + y * w + x)), (swrap_small 32 (_ * 4)) by lia.
  replace (4 * (y - 4 * j) + x - 4 * i) with (4 * (y - 4 * j) + (x - 4 * i)) by lia.
  specialize (Hpv (4 * (y - 4 * j) + (x - 4 * i)) ltac:(lia)). cbv zeta in Hpv.
  destruct (pv _) as [[[r g] b] a]. destruct Hpv as (-> & -> & -> & ->).
  by rewrite (Z.mul_comm _ 4).
Qed.

Ltac ld_ok H :=
  rewrite ld_le_ok by (eapply bytes_valid_sub; [exact H|cbn; lia|cbn; lia]);
  cbn [mbind res_mbind res_bind].

Lemma index_field v t : 0 <= t -> Z.land (Z.shiftr v (2 * t)) 3 = field v (2 * t) 2.
Proof. intros. change 3 with (Z.ones 2). apply land_field; lia. Qed.

Lemma rgb_value (c : colors) (e : Z -> Z * Z * Z) (sep : bool) (indices : Z) (al : Z -> Z) :
  rgb_holds c e ->
  (forall t, 0 <= t < 16 ->
     arr_get (c_a c) (if sep then u8 t else field indices (2 * t) 2) = Ok (al t)) ->
  block_value c sep indices (fun t => (e (field indices (2 * t) 2), al t)).
Proof.
  intros (Hr & Hg & Hb) Ha t Ht. cbv zeta. rewrite index_field by lia.
  pose proof (field_range indices (2 * t) 2 ltac:(lia)).
  specialize (Hr (field indices (2 * t) 2) ltac:(lia)).
  specialize (Hg (field indices (2 * t) 2) ltac:(lia)).
  specialize (Hb (field indices (2 * t) 2) ltac:(lia)). specialize (Ha t Ht).
  cbv beta in *. destruct (e _) as [[r g] b]. auto.
Qed.

(** A block of any format writes the reference texels. *)
Lemma decompress_block_flat f data n m i j w h zpf :
  0 <= n -> block_size f * n < 2 ^ 31 -> bytes_valid data (block_size f * n) (block_size f) ->
  0 <= i < 2 ^ 29 - 1 -> 0 <= j < 2 ^ 29 - 1 -> 0 <= zpf -> 0 <= w ->
  4 * (zpf + w * h) < 2 ^ 31 ->
  decompress_block f data n m i j w h zpf =
  res_foldl (fun m '(x, y) =>
      write4 m (4 * (zpf + y * w + x)) (ref_texel f data n (x - 4 * i) (y - 4 * j)))
    m (block_texels i j w h).
Proof.
  intros Hn Hs Hv Hi Hj Hz Hw Hb.
  destruct f; cbn [decompress_block block_size] in *;
    [unfold decompress_dxt1_block | unfold decompress_dxt3_block | unfold decompress_dxt5_block];
    rewrite swrap_small by lia; cbv zeta.
  - ld_ok Hv. ld_ok Hv. ld_ok Hv. apply (write_block_flat _ _ _ _ _ _ _ _ _ (texel_at _ data n)); [done..|].
    apply rgb_value; [apply decode_bc1_colors_rgb|]. intros t Ht.
    apply decode_bc1_colors_alpha. apply field_range. lia.
  - ld_ok Hv. ld_ok Hv. ld_ok Hv. ld_ok Hv.
    replace (16 * n + 10) with (16 * n + 8 + 2) by lia.
    replace (16 * n + 12) with (16 * n + 8 + 4) by lia. apply (write_block_flat _ _ _ _ _ _ _ _ _ (texel_at _ data n)); [done..|].
    apply rgb_value; [apply decode_bc1_colors_rgb|]. intros t Ht. rewrite (uwrap_id 8) by lia.
    cbn [c_a set_alpha]. rewrite (holds_fmap 16) by lia. f_equal. change 15 with (Z.ones 4). rewrite land_field by lia.
    rewrite Z.shiftl_mul_pow2, (Z.mul_comm (field _ _ _)) by lia.
    apply (scale_eq 4 16); [lia|lia|apply field_range; lia].
  - ld_ok Hv. ld_ok Hv. ld_ok Hv.
    destruct (ld_byte data (16 * n)) as [-> H0]; [eapply bytes_valid_sub; [exact Hv|lia..]|].
    destruct (ld_byte data (16 * n + 1)) as [-> H1]; [eapply bytes_valid_sub; [exact Hv|lia..]|].
    cbn [mbind res_mbind res_bind].
    rewrite (alpha_loop_eq _ (fun a_i => Z.land (Z.shiftr _ (16 + 3 * a_i)) 7)
      (fun t => alpha_entry (byte_at data (16 * n)) (byte_at data (16 * n + 1))
                  (field (le_at data 8 (16 * n)) (16 + 3 * t) 3))).
    2:{ intros k Hk. change 7 with (Z.ones 3). rewrite land_field by lia.
        apply dxt5_palette_holds; [done..|]. apply field_range. lia. }
    cbn [mbind res_mbind res_bind]. ld_ok Hv.
    replace (16 * n + 10) with (16 * n + 8 + 2) by lia.
    replace (16 * n + 12) with (16 * n + 8 + 4) by lia. apply (write_block_flat _ _ _ _ _ _ _ _ _ (texel_at _ data n)); [done..|].
    apply rgb_value; [apply decode_bc1_colors_rgb|]. intros t Ht. rewrite (uwrap_id 8) by lia.
    cbn [c_a set_alpha block_size]. by rewrite (holds_fmap 16) by lia.
Qed.

(** ** A whole image *)

Definition nblocks (v : Z) : Z := (v + 3) / 4.

(** The block that holds texel (x, y, z): slices come in groups of four, and the
    blocks of one group are stored slice by slice at each position. *)
Definition block_index (w h d x y z : Z) : Z :=
  4 * (z / 4) * (nblocks w * nblocks h)
  + (y / 4 * nblocks w + x / 4) * Z.min (d - 4 * (z / 4)) 4 + z mod 4.

(** An image whose sizes fit the [int] arithmetic and whose blocks are all there. *)
Record image_ok (f : S3TC_DECOMPRESS_FORMAT) (data : mem) (w h d : Z) : Prop := {
  im_w : 0 < w;
  im_h : 0 < h;
  im_d : 0 < d;
  im_size : 4 * (w * h * d) < 2 ^ 31;
  im_blocks : block_size f * (nblocks w * nblocks h * d) < 2 ^ 31;
  im_data : bytes_valid data 0 (block_size f * (nblocks w * nblocks h * d))
}.

Definition in_image (w h d : Z) (p : Z * Z * Z) : Prop :=
  let '(x, y, z) := p in 0 <= x < w /\ 0 <= y < h /\ 0 <= z < d.

Definition texel_addr (w h : Z) (p : Z * Z * Z) : Z :=
  let '(x, y, z) := p in 4 * (z * (w * h) + y * w + x).

Definition image_texel (f : S3TC_DECOMPRESS_FORMAT) (data : mem) (w h d : Z) (p : Z * Z * Z)
  : texel :=
  let '(x, y, z) := p in ref_texel f data (block_index w h d x y z) (x mod 4) (y mod 4).

Lemma land_align4 v : 0 <= v < 2 ^ 32 -> Z.land v 0xFFFFFFFC / 4 = v / 4.
Proof.
  intros Hv. change 4 with (2 ^ 2). rewrite <- !Z.shiftr_div_pow2 by lia.
  rewrite Z.shiftr_land. change (Z.shiftr 0xFFFFFFFC 2) with (Z.ones 30).
  rewrite Z.land_ones, Z.shiftr_div_pow2 by lia. apply Z.mod_small. dlia.
Qed.

Lemma blocks_eq v : 0 < v < 2 ^ 31 - 4 -> s32 (Z.land (u32 (v + 3)) 0xFFFFFFFC / 4) = nblocks v.
Proof.
  intros. rewrite (uwrap_id 32) by lia. rewrite land_align4 by lia.
  unfold nblocks. apply swrap_small; [lia|]. dlia.
Qed.

Lemma slice_bound w h d z : 0 < w -> 0 < h -> 0 <= z < d ->
  0 <= z * w <= z * w * h /\ z * w * h < w * h * d.
Proof. intros. assert (0 < w * h) by nia. nia. Qed.

Lemma sub_block_bound nx ny bd i j s : 0 <= i < nx -> 0 <= j < ny -> 0 <= s < bd ->
  0 <= (j * nx + i) * bd /\ (j * nx + i) * bd + s < nx * ny * bd.
Proof. intros. assert (0 <= j * nx + i <= nx * ny - 1) by nia. nia. Qed.

Section Image.
Context (f : S3TC_DECOMPRESS_FORMAT) (data : mem) (w h d : Z) (Hok : image_ok f data w h d).
#[local] Abbreviation nbx := (nblocks w).
#[local] Abbreviation nby := (nblocks h).

Definition put (m : mem) (p : Z * Z * Z) : res mem :=
  write4 m (texel_addr w h p) (image_texel f data w h d p).

Definition at_z (z : Z) (l : list (Z * Z)) : list (Z * Z * Z) := (fun '(x, y) => (x, y, z)) <$> l.

Lemma image_bounds : w < 2 ^ 29 /\ h < 2 ^ 29 /\ d < 2 ^ 29 /\ w * h < 2 ^ 29
  /\ 0 < nbx < 2 ^ 28 /\ 0 < nby < 2 ^ 28 /\ nbx * nby * d < 2 ^ 31.
Proof.
  destruct Hok. assert (8 <= block_size f) by (destruct f; cbn; lia).
  assert (0 < nbx /\ 0 < nby) by (unfold nblocks; dlia).
  assert (w < 2 ^ 29 /\ h < 2 ^ 29 /\ d < 2 ^ 29 /\ w * h < 2 ^ 29) by nia.
  assert (nbx < 2 ^ 28 /\ nby < 2 ^ 28) by (unfold nblocks; dlia).
  assert (0 < nbx * nby * d) by nia. split_and!; lia.
Qed.

Lemma block_index_range x y z : in_image w h d (x, y, z) ->
  0 <= block_index w h d x y z < nbx * nby * d.
Proof.
  intros (Hx & Hy & Hz). unfold block_index.
  assert (0 <= x / 4 < nbx) by (unfold nblocks; dlia).
  assert (0 <= y / 4 < nby) by (unfold nblocks; dlia).
  assert (0 <= z / 4 /\ 0 <= z mod 4 < Z.min (d - 4 * (z / 4)) 4) as [Hz4 Hs] by dlia.
  set (k := z / 4) in *. set (bd := Z.min _ 4) in *. set (s := z mod 4) in *.
  assert (4 * k + bd <= d) by lia.
  assert (Hb : 0 <= y / 4 * nbx + x / 4 < nbx * nby) by nia.
  set (b := y / 4 * nbx + x / 4) in *. clearbody b k bd s. split; [nia|].
  assert (4 * k * (nbx * nby) + (b * bd + s) < (4 * k + bd) * (nbx * nby)) by nia. nia.
Qed.

(** One block of slice [z] puts its texels. *)
Lemma block_puts n m i j z : 0 <= i < nbx -> 0 <= j < nby -> 0 <= z < d ->
  n = 4 * (z / 4) * (nbx * nby) + (j * nbx + i) * Z.min (d - 4 * (z / 4)) 4 + z mod 4 ->
  decompress_block f data n m i j w h (z * w * h) =
  res_foldl put m (at_z z (block_texels i j w h)).
Proof.
  intros Hi Hj Hz ->. pose proof image_bounds as (Hw & Hh & Hd & Hwh & Hx & Hy & Hn).
  destruct Hok.
  assert (Hb : forall x y, (x, y) ∈ block_texels i j w h ->
    in_image w h d (x, y, z) /\ x / 4 = i /\ y / 4 = j /\ x mod 4 = x - 4 * i
    /\ y mod 4 = y - 4 * j).
  { intros x y [Hxi Hyj]%elem_of_block_texels. unfold in_image. split; [lia|]. dlia. }
  pose proof (block_index_range (4 * i) (4 * j) z) as Hr.
  unfold block_index in Hr. replace (4 * i / 4) with i in Hr by dlia.
  replace (4 * j / 4) with j in Hr by dlia.
  destruct Hr as [H0 H1].
  { unfold in_image, nblocks in *. split_and!; try lia; dlia. }
  assert (0 <= z * w * h /\ z * w * h + w * h <= w * h * d) by nia.
  rewrite decompress_block_flat; [|done|destruct f; cbn in *; lia| |lia..].
  2:{ eapply bytes_valid_sub; [exact im_data0| |]; destruct f; cbn in *; lia. }
  unfold at_z. rewrite <- res_foldl_fmap. apply res_foldl_ext. intros m' [x y] Hxy.
  destruct (Hb x y Hxy) as (_ & Ex & Ey & Mx & My).
  unfold put, image_texel, block_index, texel_addr. rewrite Ex, Ey, Mx, My.
  by rewrite (Z.mul_assoc z).
Qed.

(** The order in which the texels are put. *)
Definition group_texels (k : Z) : list (Z * Z * Z) :=
  zseq nby ≫= fun j => zseq nbx ≫= fun i => zseq (Z.min (d - 4 * k) 4) ≫= fun s =>
    at_z (4 * k + s) (block_texels i j w h).

Definition image_texels : list (Z * Z * Z) := zseq (nblocks d) ≫= group_texels.

Lemma elem_of_image_texels p : p ∈ image_texels <-> in_image w h d p.
Proof.
  destruct Hok. destruct p as [[x y] z]. unfold image_texels, group_texels, at_z. split.
  - intros (k & (j & (i & (s & ([x' y'] & [= -> -> ->] & Hb)%list_elem_of_fmap
      & Hs)%list_elem_of_bind & Hi)%list_elem_of_bind & Hj)%list_elem_of_bind & Hk)%list_elem_of_bind.
    rewrite elem_of_block_texels in Hb. rewrite elem_of_zseq in *.
    unfold in_image. lia.
  - intros (Hx & Hy & Hz). apply list_elem_of_bind. exists (z / 4). rewrite elem_of_zseq.
    split; [|unfold nblocks; dlia]. apply list_elem_of_bind. exists (y / 4). rewrite elem_of_zseq.
    split; [|unfold nblocks; dlia]. apply list_elem_of_bind. exists (x / 4). rewrite elem_of_zseq.
    split; [|unfold nblocks; dlia]. apply list_elem_of_bind. exists (z mod 4). rewrite elem_of_zseq.
    split; [|dlia]. apply list_elem_of_fmap. exists (x, y). rewrite elem_of_block_texels.
    split; [f_equal; dlia|dlia].
Qed.

(** The four loops of the 3D entry point. *)
Lemma group_run k m : 0 <= k < nblocks d ->
  res_foldl (fun '(m, sub) j =>
    res_foldl (fun '(m, sub) i =>
      res_foldl (fun '(m, sub) slice =>
        m ← decompress_block f data sub m i j w h
              (s32 (u32 (u32 ((4 * k + slice) * w) * h)));
        Ok (m, s32 (sub + 1))) (m, sub) (zseq (Z.min (d - 4 * k) 4)))
      (m, sub) (zseq nbx)) (m, 4 * k * (nbx * nby)) (zseq nby)
  = (m ← res_foldl put m (group_texels k);
     Ok (m, 4 * k * (nbx * nby) + nby * nbx * Z.min (d - 4 * k) 4)).
Proof.
  intros Hk. pose proof image_bounds as (Hw & Hh & Hd & Hwh & Hx & Hy & Hn). destruct Hok.
  assert (H4k : 4 * k < d) by (unfold nblocks in Hk; dlia).
  set (bd := Z.min (d - 4 * k) 4). assert (Hbd : 0 < bd <= 4 /\ 4 * k + bd <= d) by lia.
  assert (Hend : 4 * k * (nbx * nby) + nbx * nby * bd <= nbx * nby * d) by nia.
  unfold group_texels. fold bd. rewrite <- res_foldl_nest.
  apply (res_foldl_counter _ _ (fun j => 4 * k * (nbx * nby) + j * nbx * bd)); [lia| |lia].
  intros m1 j Hj. cbv beta iota. rewrite <- res_foldl_nest.
  rewrite (res_foldl_counter _ (fun m i => res_foldl put m
    (zseq bd ≫= fun s => at_z (4 * k + s) (block_texels i j w h)))
    (fun i => 4 * k * (nbx * nby) + (j * nbx + i) * bd)); [|lia| |lia].
  { by replace ((j * nbx + nbx) * bd) with ((j + 1) * nbx * bd) by lia. }
  intros m2 i Hi. rewrite <- res_foldl_nest.
  rewrite (res_foldl_counter _ (fun m s => res_foldl put m
    (at_z (4 * k + s) (block_texels i j w h)))
    (fun s => 4 * k * (nbx * nby) + (j * nbx + i) * bd + s)); [|lia| |lia].
  { by replace (4 * k * (nbx * nby) + (j * nbx + (i + 1)) * bd)
      with (4 * k * (nbx * nby) + (j * nbx + i) * bd + bd) by lia. }
  intros m3 s Hs. destruct (slice_bound w h d (4 * k + s)) as [Hz1 Hz2]; [lia..|].
  rewrite (uwrap_id 32 ((4 * k + s) * w)) by lia.
  rewrite (uwrap_id 32 (_ * h)), (swrap_small 32 (_ * h)) by lia.
  destruct (sub_block_bound nbx nby bd i j s); [lia..|].
  rewrite (swrap_small 32 (_ + 1)) by lia.
  rewrite block_puts by (unfold bd in *; try lia; dlia).
  by rewrite Z.add_assoc.
Qed.

Lemma decompress_3d_run junk :
  s3tc_decompress_3d junk f data w h d
  = res_foldl put (g_malloc junk (4 * (w * h * d))) image_texels.
Proof.
  pose proof image_bounds as (Hw & Hh & Hd & Hwh & Hx & Hy & Hn). destruct Hok.
  unfold s3tc_decompress_3d, c_assert.
  rewrite !(proj2 (Z.ltb_lt _ _)) by lia. cbn [mbind res_mbind res_bind]. cbv zeta.
  rewrite !blocks_eq, !(swrap_small 32 w), !(swrap_small 32 h) by lia.
  rewrite (uwrap_id 32 (w * h)), (uwrap_id 32 (_ * d)), (uwrap_id 32 (_ * 4)) by nia.
  rewrite (uwrap_id 32 (d + 3)), (swrap_small 32 (_ / 4)) by dlia.
  change ((d + 3) / 4) with (nblocks d). replace (w * h * d * 4) with (4 * (w * h * d)) by lia.
  assert (Hnd : nblocks d <= d /\ 0 < nblocks d) by (unfold nblocks; dlia).
  unfold image_texels. rewrite <- res_foldl_nest.
  rewrite (res_foldl_counter _ (fun m k => res_foldl put m (group_texels k))
    (fun k => (Z.min (4 * k) d, Z.min (4 * k) d * (nbx * nby)))).
  - by rewrite (res_bind_pair _ _ Ok), res_bind_ret.
  - by rewrite Z.min_l by lia.
  - intros m k Hk. assert (4 * k < d) by (unfold nblocks in Hk; dlia).
    rewrite Z.min_l, (swrap_small 32 (d - 4 * k)) by lia.
    rewrite group_run by lia. rewrite (swrap_small 32 (_ + _)) by lia.
    destruct (res_foldl put m (group_texels k)); cbn [mbind res_mbind res_bind]; [|done].
    do 3 f_equal; nia.
  - lia.
Qed.

(** ** From the list of puts to the image *)

Definition texel_byte (t : texel) (i : Z) : Z :=
  let '(r, g, b, a) := t in if i =? 0 then r else if i =? 1 then g else if i =? 2 then b else a.

Lemma write4_ok m p t : (forall i, 0 <= i < 4 -> is_Some (m !! (p + i))) ->
  exists m', write4 m p t = Ok m' /\ forall a,
    m' !! a = if decide (p <= a < p + 4) then Some (texel_byte t (a - p)) else m !! a.
Proof.
  intros Hv. destruct t as [[[r g] b] a].
  destruct (Hv 0) as [v0 E0]; [lia|]. destruct (Hv 1) as [v1 E1]; [lia|].
  destruct (Hv 2) as [v2 E2]; [lia|]. destruct (Hv 3) as [v3 E3]; [lia|].
  rewrite Z.add_0_r in E0. unfold write4, st. rewrite E0. cbn [mbind res_mbind res_bind].
  rewrite lookup_insert_ne, E1 by lia. cbn [mbind res_mbind res_bind].
  rewrite !lookup_insert_ne, E2 by lia. cbn [mbind res_mbind res_bind].
  rewrite !lookup_insert_ne, E3 by lia. eexists; split; [done|]. intros x.
  case_decide as Hx; [|by rewrite !lookup_insert_ne by lia].
  assert (x = p \/ x = p + 1 \/ x = p + 2 \/ x = p + 3) as [-> | [-> | [-> | ->]]] by lia;
    rewrite ?lookup_insert_ne by lia; rewrite lookup_insert_eq; unfold texel_byte;
    [replace (p - p) with 0 by lia|replace (p + 1 - p) with 1 by lia
    |replace (p + 2 - p) with 2 by lia|replace (p + 3 - p) with 3 by lia]; done.
Qed.

(** Texels have distinct addresses, and together they fill the image. *)
Lemma texel_addr_inj p q i j : in_image w h d p -> in_image w h d q ->
  0 <= i < 4 -> 0 <= j < 4 -> texel_addr w h p + i = texel_addr w h q + j -> p = q.
Proof.
  destruct Hok, p as [[x y] z], q as [[x' y'] z']. intros (Hx & Hy & Hz) (Hx' & Hy' & Hz') Hi Hj E.
  cbn in E. assert (E' : z * (w * h) + (y * w + x) = z' * (w * h) + (y' * w + x')) by lia.
  apply radix_unique in E' as [-> E']; [|nia..].
  apply radix_unique in E' as [-> ->]; [done|lia..].
Qed.

Lemma texel_addr_range p i : in_image w h d p -> 0 <= i < 4 ->
  0 <= texel_addr w h p + i < 4 * (w * h * d).
Proof.
  destruct Hok, p as [[x y] z]. intros (Hx & Hy & Hz) Hi. cbn.
  assert (0 <= y * w + x < w * h) by nia. nia.
Qed.

Lemma texel_addr_surj a : 0 <= a < 4 * (w * h * d) ->
  exists p i, in_image w h d p /\ 0 <= i < 4 /\ a = texel_addr w h p + i.
Proof.
  destruct Hok. intros Ha. set (q := a / 4).
  assert (Ea : a = 4 * q + a mod 4 /\ 0 <= a mod 4 < 4) by (unfold q; dlia).
  assert (Hq : 0 <= q < w * h * d) by lia. clearbody q.
  assert (0 < w * h) by nia.
  exists (q mod w, q mod (w * h) / w, q / (w * h)), (a mod 4). split; [|split; [lia|]].
  - cbn. split_and!; try (apply Z.mod_pos_bound; lia).
    + apply Z.div_pos; [|lia]. by apply Z.mod_pos_bound.
    + apply Z.div_lt_upper_bound; [lia|]. by apply Z.mod_pos_bound.
    + apply Z.div_pos; lia.
    + apply Z.div_lt_upper_bound; lia.
  - cbn. pose proof (Z.div_mod q (w * h) ltac:(lia)) as E1.
    pose proof (Z.div_mod (q mod (w * h)) w ltac:(lia)) as E2.
    assert (q mod (w * h) mod w = q mod w) as E3.
    { symmetry. rewrite E1 at 1. replace (w * h * (q / (w * h))) with (h * (q / (w * h)) * w) by lia.
      rewrite Z.add_comm. by rewrite Z.mod_add by lia. }
    rewrite E3 in E2. lia.
Qed.

(** What decompression must produce. *)
Definition image_spec (m : mem) : Prop :=
  (forall p i, in_image w h d p -> 0 <= i < 4 ->
     m !! (texel_addr w h p + i) = Some (texel_byte (image_texel f data w h d p) i))
  /\ (forall a, ~ 0 <= a < 4 * (w * h * d) -> m !! a = None).

Lemma image_spec_unique m m' : image_spec m -> image_spec m' -> m = m'.
Proof.
  intros [H1 H2] [H1' H2']. apply map_eq. intros a.
  destruct (decide (0 <= a < 4 * (w * h * d))) as [Ha|Ha]; [|by rewrite H2, H2'].
  destruct (texel_addr_surj a Ha) as (p & i & Hp & Hi & ->). by rewrite H1, H1'.
Qed.

Lemma puts_spec junk : exists m,
  res_foldl put (g_malloc junk (4 * (w * h * d))) image_texels = Ok m /\ image_spec m.
Proof.
  destruct (res_foldl_chunks put (texel_addr w h)
    (fun p i => Some (texel_byte (image_texel f data w h d p) i)) 4
    (g_malloc junk (4 * (w * h * d))) image_texels) as (m & E & Hin & Hout).
  - intros p m _ Hm. by apply write4_ok.
  - intros p i Hp%elem_of_image_texels Hi. split; [done|].
    rewrite g_malloc_lookup, decide_True; [done|]. by apply texel_addr_range.
  - intros p q i j Hp%elem_of_image_texels Hq%elem_of_image_texels. by apply texel_addr_inj.
  - exists m. split; [done|]. split.
    + intros p i Hp. apply Hin. by apply elem_of_image_texels.
    + intros a Ha. rewrite Hout, g_malloc_lookup, decide_False; [done..|].
      intros p i Hp%elem_of_image_texels Hi ->. by apply Ha, texel_addr_range.
Qed.

End Image.

Lemma decompress_2d_run f data w h junk : image_ok f data w h 1 ->
  s3tc_decompress_2d junk f data w h
  = res_foldl (put f data w h 1) (g_malloc junk (4 * (w * h * 1))) (image_texels w h 1).
Proof.
  intros Hok. pose proof (image_bounds f data w h 1 Hok) as (Hw & Hh & Hd & Hwh & Hx & Hy & Hn).
  pose proof Hok as [Hw0 Hh0 _ Hs Hb _].
  unfold s3tc_decompress_2d, c_assert.
  rewrite !(proj2 (Z.ltb_lt _ _)) by lia. cbn [mbind res_mbind res_bind]. cbv zeta.
  rewrite !blocks_eq, !(swrap_small 32 w), !(swrap_small 32 h) by lia.
  rewrite (uwrap_id 32 (w * h)), (uwrap_id 32 (_ * 4)) by nia.
  replace (w * h * 4) with (4 * (w * h * 1)) by lia.
  unfold image_texels. change (zseq (nblocks 1)) with [0]. cbn [mbind list_bind].
  rewrite app_nil_r. unfold group_texels. rewrite <- res_foldl_nest.
  apply res_foldl_ext. intros m j Hj%elem_of_zseq. rewrite <- res_foldl_nest.
  apply res_foldl_ext. intros m' i Hi%elem_of_zseq.
  change (zseq (Z.min (1 - 4 * 0) 4)) with [0]. cbn [mbind list_bind]. rewrite app_nil_r.
  assert (0 <= j * nblocks w + i < nblocks w * nblocks h) by nia.
  rewrite (swrap_small 32 (j * _)), (swrap_small 32 (_ + i)) by nia.
  apply (block_puts f data w h 1 Hok _ m' i j 0); [done|done|lia|].
  change (0 / 4) with 0. change (0 mod 4) with 0. lia.
Qed.

(** ** Theorems *)

(** C15. Decompressing a 2D texture of any of the three formats succeeds (no load
    past the compressed data, no store past the allocation), leaves in every
    texel the colour that the texel's block encodes, and does not depend on what
    was in the allocated memory. *)
Theorem s3tc_decompress_2d_correct f data w h : image_ok f data w h 1 ->
  exists m, (forall junk, s3tc_decompress_2d junk f data w h = Ok m)
    /\ (forall x y i, 0 <= x < w -> 0 <= y < h -> 0 <= i < 4 ->
          m !! (4 * (y * w + x) + i)
          = Some (texel_byte (ref_texel f data (y / 4 * nblocks w + x / 4) (x mod 4) (y mod 4)) i))
    /\ (forall a, ~ 0 <= a < 4 * (w * h) -> m !! a = None).
Proof.
  intros Hok. destruct (puts_spec f data w h 1 Hok (fun _ => 0)) as (m & E & Hm).
  exists m. split_and!.
  - intros junk. rewrite decompress_2d_run by done.
    destruct (puts_spec f data w h 1 Hok junk) as (m' & -> & Hm'). f_equal.
    by apply (image_spec_unique f data w h 1).
  - intros x y i Hx Hy Hi. destruct Hm as [Hm _].
    specialize (Hm (x, y, 0) i ltac:(cbn; lia) Hi). cbn -[Z.mul Z.add] in Hm.
    replace (0 * (w * h) + y * w + x) with (y * w + x) in Hm by lia. rewrite Hm.
    unfold block_index. change (0 / 4) with 0. change (0 mod 4) with 0.
    by replace (4 * 0 * (nblocks w * nblocks h)
      + (y / 4 * nblocks w + x / 4) * Z.min (1 - 4 * 0) 4 + 0)
      with (y / 4 * nblocks w + x / 4) by lia.
  - intros a Ha. apply Hm. lia.
Qed.

(** A one-block DXT1 texture: white, black, and all indices 0. *)
Definition sample_dxt1 : mem := mem_of_list [255; 255; 0; 0; 0; 0; 0; 0].

Lemma sample_dxt1_ok : image_ok S3TC_DECOMPRESS_FORMAT_DXT1 sample_dxt1 4 4 1.
Proof.
  constructor; [done..|]. intros a Ha.
  assert (a = 0 \/ a = 1 \/ a = 2 \/ a = 3 \/ a = 4 \/ a = 5 \/ a = 6 \/ a = 7) as Hc
    by (change (0 <= a < 8) in Ha; lia).
  repeat (destruct Hc as [->|Hc]); subst; eexists; (split; [vm_compute; reflexivity|done]).
Qed.

Lemma s3tc_decompress_2d_correct_witness :
  exists m, s3tc_decompress_2d (fun _ => 77) S3TC_DECOMPRESS_FORMAT_DXT1 sample_dxt1 4 4 = Ok m
    /\ m !! 0 = Some 255.
Proof.
  destruct (s3tc_decompress_2d_correct S3TC_DECOMPRESS_FORMAT_DXT1 sample_dxt1 4 4)
    as (m & E & Hm & _); [exact sample_dxt1_ok|].
  exists m. split; [apply E|]. apply (Hm 0 0 0); lia.
Defined.

(** C22. Decompressing a 3D texture does the same for every slice: the running
    [sub_block_index] points at the block of the texel's slice, also in a last
    group of fewer than four slices. *)
Theorem s3tc_decompress_3d_correct f data w h d : image_ok f data w h d ->
  exists m, (forall junk, s3tc_decompress_3d junk f data w h d = Ok m)
    /\ (forall x y z i, in_image w h d (x, y, z) -> 0 <= i < 4 ->
          m !! (4 * (z * (w * h) + y * w + x) + i)
          = Some (texel_byte (ref_texel f data (block_index w h d x y z) (x mod 4) (y mod 4)) i))
    /\ (forall a, ~ 0 <= a < 4 * (w * h * d) -> m !! a = None).
Proof.
  intros Hok. destruct (puts_spec f data w h d Hok (fun _ => 0)) as (m & E & Hm).
  exists m. split_and!.
  - intros junk. rewrite decompress_3d_run by done.
    destruct (puts_spec f data w h d Hok junk) as (m' & -> & Hm'). f_equal.
    by apply (image_spec_unique f data w h d).
  - intros x y z i. apply (proj1 Hm (x, y, z)).
  - apply Hm.
Qed.

Lemma s3tc_decompress_3d_correct_witness :
  exists m, s3tc_decompress_3d (fun _ => 77) S3TC_DECOMPRESS_FORMAT_DXT1 sample_dxt1 4 4 1 = Ok m
    /\ m !! 0 = Some 255.
Proof.
  destruct (s3tc_decompress_3d_correct S3TC_DECOMPRESS_FORMAT_DXT1 sample_dxt1 4 4 1)
    as (m & E & Hm & _); [exact sample_dxt1_ok|].
  exists m. split; [apply E|]. apply (Hm 0 0 0 0); cbn; lia.
Defined.

End S3tc.
