(* ===== verification/SmbusSlave.v ===== *)
(** * SMBus devices (hw/i2c/smbus_slave.c)

    The device side of the SMBus protocol: I2C events drive a small state machine
    that collects the bytes of a command and calls the device.  What a device
    offers is the class [SMBusDeviceClass]; what it promises is [SMBusDeviceLaws],
    which the bus and host controller theorems use and each device of
    SmbusDevices discharges. *)

From S2P Require Import Prelude.

(** [struct SMBusDeviceClass]: a NULL method is [None]. *)
Class SMBusDeviceClass (D : Type) := {
  quick_cmd : D -> option (Z -> res D);
  write_data : D -> option (list Z -> Z -> res (D * Z));
  receive_byte : D -> option (res (D * Z))
}.

Module SmbusSlave.

Definition SMBUS_DATA_MAX_LEN : Z := 34.

Inductive i2c_event : Set :=
| I2C_START_RECV
| I2C_START_SEND
| I2C_START_SEND_ASYNC
| I2C_FINISH
| I2C_NACK.

Inductive smbus_mode : Set :=
| SMBUS_IDLE
| SMBUS_WRITE_DATA
| SMBUS_READ_DATA
| SMBUS_DONE
| SMBUS_CONFUSED.

#[global] Instance smbus_mode_eq_dec : EqDecision smbus_mode.
Proof. solve_decision. Defined.

(** [struct SMBusDevice] with the address of its [I2CSlave] and the state of the
    device that embeds it. *)
Record SMBusDevice (D : Type) := {
  address : Z;
  mode : smbus_mode;
  data_len : Z;
  data_buf : list Z;
  impl : D
}.
Arguments address {D}.
Arguments mode {D}.
Arguments data_len {D}.
Arguments data_buf {D}.
Arguments impl {D}.

Section Slave.
Context {D : Type} `{SMBusDeviceClass D}.

Definition set_mode (s : SMBusDevice D) (m : smbus_mode) : SMBusDevice D :=
  {| address := address s; mode := m; data_len := data_len s; data_buf := data_buf s;
     impl := impl s |}.
Definition set_impl (s : SMBusDevice D) (d : D) : SMBusDevice D :=
  {| address := address s; mode := mode s; data_len := data_len s; data_buf := data_buf s;
     impl := d |}.

Definition smbus_do_quick_cmd (dev : SMBusDevice D) (recv : Z) : res (SMBusDevice D) :=
  match quick_cmd (impl dev) with
  | Some f => d ← f recv; Ok (set_impl dev d)
  | None => Ok dev
  end.

(** The result of [write_data] is dropped; its [len] is a [uint8_t]. *)
Definition smbus_do_write (dev : SMBusDevice D) : res (SMBusDevice D) :=
  match write_data (impl dev) with
  | Some f => '(d, _) ← f (data_buf dev) (u8 (data_len dev)); Ok (set_impl dev d)
  | None => Ok dev
  end.

Definition smbus_i2c_event (dev : SMBusDevice D) (event : i2c_event)
  : res (SMBusDevice D * Z) :=
  match event with
  | I2C_START_SEND =>
      match mode dev with
      | SMBUS_IDLE => Ok (set_mode dev SMBUS_WRITE_DATA, 0)
      | _ => Ok (set_mode dev SMBUS_CONFUSED, 0)
      end
  | I2C_START_RECV =>
      match mode dev with
      | SMBUS_IDLE => Ok (set_mode dev SMBUS_READ_DATA, 0)
      | SMBUS_WRITE_DATA =>
          if data_len dev =? 0 then Ok (set_mode dev SMBUS_CONFUSED, 0)
          else dev ← smbus_do_write dev; Ok (set_mode dev SMBUS_READ_DATA, 0)
      | _ => Ok (set_mode dev SMBUS_CONFUSED, 0)
      end
  | I2C_FINISH =>
      dev ← (if data_len dev =? 0 then
               match mode dev with
               | SMBUS_WRITE_DATA => smbus_do_quick_cmd dev 0
               | SMBUS_READ_DATA => smbus_do_quick_cmd dev 1
               | _ => Ok dev
               end
             else
               match mode dev with
               | SMBUS_WRITE_DATA => smbus_do_write dev
               | _ => Ok dev
               end);
      Ok ({| address := address dev; mode := SMBUS_IDLE; data_len := 0;
             data_buf := data_buf dev; impl := impl dev |}, 0)
  | I2C_NACK =>
      match mode dev with
      | SMBUS_DONE => Ok (dev, 0)
      | SMBUS_READ_DATA => Ok (set_mode dev SMBUS_DONE, 0)
      | _ => Ok (set_mode dev SMBUS_CONFUSED, 0)
      end
  | I2C_START_SEND_ASYNC => Ok (dev, -1)
  end.

Definition smbus_i2c_recv (dev : SMBusDevice D) : res (SMBusDevice D * Z) :=
  match mode dev with
  | SMBUS_READ_DATA =>
      match receive_byte (impl dev) with
      | Some f => '(d, ret) ← f; Ok (set_impl dev d, ret)
      | None => Ok (dev, 0xff)
      end
  | _ => Ok (set_mode dev SMBUS_CONFUSED, 0xff)
  end.

Definition smbus_i2c_send (dev : SMBusDevice D) (data : Z) : res (SMBusDevice D * Z) :=
  match mode dev with
  | SMBUS_WRITE_DATA =>
      if SMBUS_DATA_MAX_LEN <=? data_len dev then Ok (dev, 0)
      else Ok ({| address := address dev; mode := mode dev; data_len := data_len dev + 1;
                  data_buf := <[Z.to_nat (data_len dev) := data]> (data_buf dev);
                  impl := impl dev |}, 0)
  | _ => Ok (dev, 0)
  end.

End Slave.
End SmbusSlave.

(** ** What a device promises

    Methods keep the device's invariant and do not fault when called as the
    protocol calls them: [write_data] with a command of 1 to 34 bytes, of which it
    reads no byte past the length.  [dev_wf n d] says the device is sound for [n]
    more byte reads: a device with a counter that a read steps (the version index
    of the system management controller) is only sound until it overflows. *)
Class SMBusDeviceLaws (D : Type) `{SMBusDeviceClass D} := {
  dev_wf : Z -> D -> Prop;
  dev_wf_mono m n d : m <= n -> dev_wf n d -> dev_wf m d;
  quick_cmd_ok n d f r : dev_wf n d -> quick_cmd d = Some f ->
    exists d', f r = Ok d' /\ dev_wf n d';
  write_data_ok n d f buf len : dev_wf n d -> write_data d = Some f ->
    1 <= len <= 34 -> length buf = 34%nat -> Forall is_u8 buf ->
    exists d' r, f buf len = Ok (d', r) /\ dev_wf n d';
  write_data_ext d f buf buf' len : write_data d = Some f -> 1 <= len <= 34 ->
    length buf = 34%nat -> length buf' = 34%nat ->
    take (Z.to_nat len) buf = take (Z.to_nat len) buf' -> f buf len = f buf' len;
  receive_byte_ok n d r : dev_wf n d -> 1 <= n -> receive_byte d = Some r ->
    exists d' v, r = Ok (d', v) /\ dev_wf (n - 1) d' /\ is_u8 v
}.

(** ** The device seen through the protocol

    Total functions for what one command does to a device; the laws say the
    method really returns it. *)
Module SmbusDev.
Section Dev.
Context {D : Type} `{SMBusDeviceLaws D}.

Definition pad (bs : list Z) : list Z := bs ++ replicate (34 - length bs) 0.

(** A command of the bytes [bs]. *)
Definition dev_write (d : D) (bs : list Z) : D :=
  match write_data d with
  | Some f => match f (pad bs) (Z.of_nat (length bs)) with Ok (d', _) => d' | Fault _ => d end
  | None => d
  end.

Definition dev_quick (d : D) (r : Z) : D :=
  match quick_cmd d with
  | Some f => match f r with Ok d' => d' | Fault _ => d end
  | None => d
  end.

Definition dev_recv (d : D) : D * Z :=
  match receive_byte d with
  | Some (Ok (d', v)) => (d', v)
  | _ => (d, 0xff)
  end.

Lemma dev_write_wf n d bs : dev_wf n d -> (1 <= length bs <= 34)%nat -> Forall is_u8 bs ->
  dev_wf n (dev_write d bs).
Proof.
  intros Hd Hl Hbs. unfold dev_write. destruct (write_data d) as [f|] eqn:E; [|done].
  destruct (write_data_ok n d f (pad bs) (Z.of_nat (length bs))) as (d' & r & -> & Hw); try done.
  - lia.
  - unfold pad. rewrite length_app, length_replicate. lia.
  - apply Forall_app; split; [done|]. apply Forall_replicate. done.
Qed.

Lemma dev_quick_wf n d r : dev_wf n d -> dev_wf n (dev_quick d r).
Proof.
  intros Hd. unfold dev_quick. destruct (quick_cmd d) as [f|] eqn:E; [|done].
  by destruct (quick_cmd_ok n d f r Hd E) as (d' & -> & ?).
Qed.

Lemma dev_recv_wf n d : dev_wf n d -> 1 <= n ->
  dev_wf (n - 1) (dev_recv d).1 /\ is_u8 (dev_recv d).2.
Proof.
  intros Hd Hn. unfold dev_recv. destruct (receive_byte d) as [r|] eqn:E.
  - by destruct (receive_byte_ok n d r Hd Hn E) as (d' & v & -> & ?).
  - split; [|done]. eapply dev_wf_mono; [|done]. lia.
Qed.

End Dev.
End SmbusDev.
