(* ===== verification/I2cCore.v ===== *)
(** * The I2C bus (hw/i2c/core.c)

    Starting a transfer scans the bus for the devices the address selects; sends,
    receives and events then go to those until the transfer ends.  The bus is
    polymorphic in the device, which is only known through [SMBusDeviceClass]. *)

From S2P Require Import Prelude SmbusSlave.
Import SmbusSlave SmbusDev.

Module I2cCore.

Definition I2C_BROADCAST : Z := 0x00.

(** [struct I2CBus]: [current_devs] holds positions in [children], first node
    first.  The bottom half and the queue of pending masters serve controllers
    with asynchronous masters and are left out. *)
Record I2CBus (D : Type) := {
  children : list (SMBusDevice D);
  current_devs : list nat;
  broadcast : bool
}.
Arguments children {D}.
Arguments current_devs {D}.
Arguments broadcast {D}.

Section Bus.
Context {D : Type} `{SMBusDeviceClass D}.
#[local] Abbreviation bus := (I2CBus D).

Definition i2c_init_bus (devs : list (SMBusDevice D)) : bus :=
  {| children := devs; current_devs := []; broadcast := false |}.

Definition set_children (b : bus) (cs : list (SMBusDevice D)) : bus :=
  {| children := cs; current_devs := current_devs b; broadcast := broadcast b |}.
Definition set_current (b : bus) (ids : list nat) : bus :=
  {| children := children b; current_devs := ids; broadcast := broadcast b |}.
Definition set_broadcast (b : bus) (v : bool) : bus :=
  {| children := children b; current_devs := current_devs b; broadcast := v |}.

(** Run a method of the device a node points to. *)
Definition with_child {R} (b : bus) (i : nat) (k : SMBusDevice D -> res (SMBusDevice D * R))
  : res (bus * R) :=
  match children b !! i with
  | Some c => '(c, r) ← k c; Ok (set_children b (<[i := c]> (children b)), r)
  | None => Fault OutOfBounds
  end.

(** [QLIST_INSERT_HEAD] on a match. *)
Definition i2c_slave_match (candidate : SMBusDevice D) (i : nat) (addr : Z) (bc : bool)
    (current : list nat) : bool * list nat :=
  if (address candidate =? addr) || bc then (true, i :: current) else (false, current).

(** The [QTAILQ_FOREACH] over the children, from position [i]. *)
Fixpoint i2c_scan_from (cs : list (SMBusDevice D)) (i : nat) (addr : Z) (bc : bool)
    (current : list nat) : bool * list nat :=
  match cs with
  | [] => (bc, current)
  | c :: cs =>
      let '(m, current) := i2c_slave_match c i addr bc current in
      if m && negb bc then (true, current) else i2c_scan_from cs (S i) addr bc current
  end.

Definition i2c_scan_bus (b : bus) (addr : Z) (bc : bool) (current : list nat) : bool * list nat :=
  i2c_scan_from (children b) 0 addr bc current.

(** [QLIST_FOREACH_SAFE]: finish each device and drop its node. *)
Fixpoint i2c_end_loop (b : bus) (ids : list nat) : res bus :=
  match ids with
  | [] => Ok (set_current b [])
  | i :: ids =>
      '(b, _) ← with_child b i (fun c => smbus_i2c_event c I2C_FINISH);
      i2c_end_loop (set_current b ids) ids
  end.

Definition i2c_end_transfer (b : bus) : res bus :=
  b ← i2c_end_loop b (current_devs b);
  Ok (set_broadcast b false).

(** The loop that sends the start event to the selected devices. *)
Fixpoint i2c_start_loop (b : bus) (ids : list nat) (event : i2c_event) (bus_scanned : bool)
  : res (bus * Z) :=
  match ids with
  | [] => Ok (b, 0)
  | i :: ids =>
      '(b, rv) ← with_child b i (fun c => smbus_i2c_event c event);
      if negb (rv =? 0) && negb (broadcast b) then
        b ← (if bus_scanned then i2c_end_transfer b else Ok b);
        Ok (b, rv)
      else i2c_start_loop b ids event bus_scanned
  end.

Definition i2c_do_start_transfer (b : bus) (addr : Z) (event : i2c_event) : res (bus * Z) :=
  let b := if addr =? I2C_BROADCAST then set_broadcast b true else b in
  let '(b, bus_scanned) :=
    match current_devs b with
    | [] => (set_current b (i2c_scan_bus b addr (broadcast b) []).2, true)
    | _ => (b, false)
    end in
  match current_devs b with
  | [] => Ok (b, 1)
  | ids => i2c_start_loop b ids event bus_scanned
  end.

Definition i2c_start_transfer (b : bus) (addr : Z) (is_recv : bool) : res (bus * Z) :=
  i2c_do_start_transfer b addr (if is_recv then I2C_START_RECV else I2C_START_SEND).
Definition i2c_start_recv (b : bus) (addr : Z) : res (bus * Z) :=
  i2c_do_start_transfer b addr I2C_START_RECV.
Definition i2c_start_send (b : bus) (addr : Z) : res (bus * Z) :=
  i2c_do_start_transfer b addr I2C_START_SEND.
Definition i2c_start_send_async (b : bus) (addr : Z) : res (bus * Z) :=
  i2c_do_start_transfer b addr I2C_START_SEND_ASYNC.

(** [ret = ret || sc->send(s, data)]: once a device has refused the byte, the
    others do not get it. *)
Fixpoint i2c_send_loop (b : bus) (ids : list nat) (data : Z) (ret : bool) : res (bus * bool) :=
  match ids with
  | [] => Ok (b, ret)
  | i :: ids =>
      if ret then i2c_send_loop b ids data true
      else '(b, r) ← with_child b i (fun c => smbus_i2c_send c data);
           i2c_send_loop b ids data (negb (r =? 0))
  end.

Definition i2c_send (b : bus) (data : Z) : res (bus * Z) :=
  '(b, ret) ← i2c_send_loop b (current_devs b) data false;
  Ok (b, if ret : bool then -1 else 0).

Definition i2c_recv (b : bus) : res (bus * Z) :=
  match current_devs b with
  | i :: _ => if broadcast b then Ok (b, 0xff) else with_child b i smbus_i2c_recv
  | [] => Ok (b, 0xff)
  end.

Fixpoint i2c_nack_loop (b : bus) (ids : list nat) : res bus :=
  match ids with
  | [] => Ok b
  | i :: ids =>
      '(b, _) ← with_child b i (fun c => smbus_i2c_event c I2C_NACK);
      i2c_nack_loop b ids
  end.

Definition i2c_nack (b : bus) : res bus := i2c_nack_loop b (current_devs b).

End Bus.

(** ** Transfers *)

(** Addresses and devices, without the protocol state. *)
Abbreviation view D := (list (Z * D)).

Section Transfers.
Context {D : Type} `{SMBusDeviceLaws D}.

(** The devices an address selects on an idle bus, in the order of the list. *)
Definition selected (v : view D) (addr : Z) : list nat :=
  if addr =? 0 then rev (seq 0 (length v))
  else match list_find (fun p => p.1 = addr) v with
       | Some (i, _) => [i]
       | None => []
       end.

(** Apply [f] to the devices at [ids]. *)
Definition on_ids (ids : list nat) (f : D -> D) (v : view D) : view D :=
  imap (fun i p => if decide (i ∈ ids) then (p.1, f p.2) else p) v.

(** Slave [c] is the device [p], in mode [m], with the bytes [bs] collected. *)
Record slave_in (m : smbus_mode) (bs : list Z) (p : Z * D) (c : SMBusDevice D) : Prop := {
  si_addr : address c = p.1;
  si_impl : impl c = p.2;
  si_mode : mode c = m;
  si_len : data_len c = Z.of_nat (length bs);
  si_max : (length bs <= 34)%nat;
  si_buf : length (data_buf c) = 34%nat;
  si_bytes : Forall is_u8 (data_buf c);
  si_take : take (length bs) (data_buf c) = bs
}.

(** During a transfer, with [n] byte reads left, the selected devices are in mode [m] with [bs] collected,
    all others are idle. *)
Record transfer (n : Z) (ids : list nat) (bc : bool) (m : smbus_mode) (bs : list Z) (v : view D)
    (b : I2CBus D) : Prop := {
  tr_current : current_devs b = ids;
  tr_bcast : broadcast b = bc;
  tr_nodup : NoDup ids;
  tr_length : length (children b) = length v;
  tr_ids : forall i, i ∈ ids -> (i < length v)%nat;
  tr_slaves : forall i c p, children b !! i = Some c -> v !! i = Some p ->
    if decide (i ∈ ids) then slave_in m bs p c else slave_in SMBUS_IDLE [] p c;
  tr_wf : Forall (fun p => dev_wf n p.2) v
}.

#[global] Arguments tr_current {n ids bc m bs v b} _.
#[global] Arguments tr_bcast {n ids bc m bs v b} _.
#[global] Arguments tr_nodup {n ids bc m bs v b} _.
#[global] Arguments tr_length {n ids bc m bs v b} _.
#[global] Arguments tr_ids {n ids bc m bs v b} _.
#[global] Arguments tr_slaves {n ids bc m bs v b} _.
#[global] Arguments tr_wf {n ids bc m bs v b} _.

(** Between transfers, with [n] byte reads left. *)
Definition bus_idle (n : Z) (v : view D) (b : I2CBus D) : Prop :=
  transfer n [] false SMBUS_IDLE [] v b /\ v <> [].

(** ** Visiting the selected devices one by one *)

(** Part way through a loop: the devices of [todo] are still in mode [m] with [bs],
    those of [fin] are in [m'] with [bs'] and had [f] applied. *)
Definition mixed (n : Z) (fin todo : list nat) (m : smbus_mode) (bs : list Z) (m' : smbus_mode)
    (bs' : list Z) (f : D -> D) (v : view D) (cs : list (SMBusDevice D)) : Prop :=
  length cs = length v /\ Forall (fun p => dev_wf n p.2) v /\
  forall i c p, cs !! i = Some c -> v !! i = Some p ->
    if decide (i ∈ fin) then slave_in m' bs' (p.1, f p.2) c
    else if decide (i ∈ todo) then slave_in m bs p c
    else slave_in SMBUS_IDLE [] p c.

(** What a method does to one device of the selection. *)
Definition method_spec {R} (n : Z) (k : SMBusDevice D -> res (SMBusDevice D * R)) (r : R)
    (m : smbus_mode) (bs : list Z) (m' : smbus_mode) (bs' : list Z) (f : D -> D) : Prop :=
  forall p c, dev_wf n p.2 -> slave_in m bs p c ->
    exists c', k c = Ok (c', r) /\ slave_in m' bs' (p.1, f p.2) c'.

Section Steps.
Context {n : Z}.

Lemma with_child_step {R} (k : SMBusDevice D -> res (SMBusDevice D * R)) r m bs m' bs' f v fin i
    todo (b : I2CBus D) :
  method_spec n k r m bs m' bs' f ->
  mixed n fin (i :: todo) m bs m' bs' f v (children b) ->
  (i < length v)%nat -> i ∉ fin -> i ∉ todo ->
  exists cs, with_child b i k = Ok (set_children b cs, r)
    /\ mixed n (i :: fin) todo m bs m' bs' f v cs.
Proof.
  intros Hk (Hlen & Hwf & Hm) Hi Hf Ht.
  destruct (lookup_lt_is_Some_2 v i Hi) as [p Hp].
  destruct (lookup_lt_is_Some_2 (children b) i ltac:(lia)) as [c Hc].
  pose proof (Hm i c p Hc Hp) as Hs. rewrite decide_False, decide_True in Hs by set_solver.
  assert (dev_wf n p.2) as Hd by (by eapply (Forall_lookup_1 _ _ _ _ Hwf)).
  destruct (Hk p c Hd Hs) as (c' & E & Hs').
  unfold with_child. rewrite Hc, E. cbn [mbind res_mbind res_bind].
  eexists; split; [done|]. split; [by rewrite length_insert|]. split; [done|].
  intros j c1 q Hj Hq. destruct (decide (j = i)) as [->|Hne].
  - rewrite list_lookup_insert_eq in Hj by lia. rewrite decide_True by set_solver. congruence.
  - rewrite list_lookup_insert_ne in Hj by done. specialize (Hm j c1 q Hj Hq).
    assert (j ∈ i :: fin <-> j ∈ fin) as E1 by set_solver.
    assert (j ∈ i :: todo <-> j ∈ todo) as E2 by set_solver.
    by rewrite (decide_ext _ _ _ _ E1), <- (decide_ext _ _ _ _ E2).
Qed.

Lemma transfer_mixed ids bc m bs m' bs' f v b : transfer n ids bc m bs v b ->
  mixed n [] ids m bs m' bs' f v (children b).
Proof.
  intros []. split_and!; [done..|]. intros i c p Hc Hp.
  rewrite (decide_False (P := i ∈ [])) by set_solver. by apply tr_slaves0.
Qed.

Lemma length_on_ids ids f v : length (on_ids ids f v) = length v.
Proof. unfold on_ids. by rewrite length_imap. Qed.

Lemma lookup_on_ids ids f v i : on_ids ids f v !! i =
  (fun p => if decide (i ∈ ids) then (p.1, f p.2) else p) <$> v !! i.
Proof. unfold on_ids. by rewrite list_lookup_imap. Qed.

Lemma on_ids_wf n' ids f v : n' <= n -> (forall d, dev_wf n d -> dev_wf n' (f d)) ->
  Forall (fun p => dev_wf n p.2) v -> Forall (fun p => dev_wf n' p.2) (on_ids ids f v).
Proof.
  intros Hn Hf Hv. apply Forall_lookup_2. intros i p Hp. rewrite lookup_on_ids in Hp.
  destruct (v !! i) as [q|] eqn:Hq; [|done]. cbn in Hp. injection Hp as <-.
  pose proof (Forall_lookup_1 _ _ _ _ Hv Hq). case_decide; [by apply Hf|].
  by eapply dev_wf_mono.
Qed.

(** The state after a loop over all selected devices, given the nodes left in
    [current_devs]. *)
Lemma mixed_transfer n' fin ids bc m bs m' bs' f v (b : I2CBus D) :
  mixed n fin [] m bs m' bs' f v (children b) -> (forall i, i ∈ fin <-> i ∈ ids) ->
  current_devs b = ids -> broadcast b = bc -> NoDup ids ->
  (forall i, i ∈ ids -> (i < length v)%nat) -> n' <= n ->
  (forall d, dev_wf n d -> dev_wf n' (f d)) ->
  transfer n' ids bc m' bs' (on_ids ids f v) b.
Proof.
  intros (Hlen & Hwf & Hm) Hids Hc Hb Hnd Hlt Hn Hf. constructor; try done.
  - by rewrite length_on_ids.
  - intros i. rewrite length_on_ids. apply Hlt.
  - intros i c p Hi Hp. rewrite lookup_on_ids in Hp.
    destruct (v !! i) as [q|] eqn:Hq; [|done]. cbn in Hp. injection Hp as <-.
    specialize (Hm i c q Hi Hq). rewrite (decide_ext _ _ _ _ (Hids i)) in Hm.
    by case_decide.
  - by apply on_ids_wf.
Qed.

(** ... and when the transfer is over. *)
Lemma mixed_idle fin m bs f v (b : I2CBus D) :
  mixed n fin [] m bs SMBUS_IDLE [] f v (children b) ->
  current_devs b = [] -> broadcast b = false -> (forall d, dev_wf n d -> dev_wf n (f d)) ->
  transfer n [] false SMBUS_IDLE [] (on_ids fin f v) b.
Proof.
  intros (Hlen & Hwf & Hm) Hc Hb Hf. constructor; try done.
  - constructor.
  - by rewrite length_on_ids.
  - set_solver.
  - intros i c p Hi Hp. rewrite lookup_on_ids in Hp.
    destruct (v !! i) as [q|] eqn:Hq; [|done]. cbn in Hp. injection Hp as <-.
    specialize (Hm i c q Hi Hq).
    rewrite decide_False by set_solver. by case_decide.
  - by apply on_ids_wf.
Qed.

(** ** The loops of the bus operations *)

(** The common shape of the loops: run [k] on each device and expect 0. *)
Fixpoint visit (k : SMBusDevice D -> res (SMBusDevice D * Z)) (ids : list nat) (b : I2CBus D)
  : res (I2CBus D) :=
  match ids with
  | [] => Ok b
  | i :: ids =>
      '(b, r) ← with_child b i k;
      if r =? 0 then visit k ids b else Fault AssertFail
  end.

Lemma visit_ok k m bs m' bs' f v ids fin (b : I2CBus D) :
  method_spec n k 0 m bs m' bs' f -> mixed n fin ids m bs m' bs' f v (children b) ->
  NoDup ids -> (forall i, i ∈ ids -> (i < length v)%nat /\ i ∉ fin) ->
  exists cs, visit k ids b = Ok (set_children b cs)
    /\ mixed n (rev ids ++ fin) [] m bs m' bs' f v cs.
Proof.
  intros Hk. revert fin b. induction ids as [|i ids IH]; intros fin b Hm Hnd Hlt.
  { exists (children b). by destruct b. }
  apply NoDup_cons in Hnd as [Hni Hnd]. destruct (Hlt i) as [Hi Hf]; [set_solver|].
  destruct (with_child_step _ 0 m bs m' bs' f v fin i ids b Hk Hm Hi Hf Hni) as (cs & E & Hm').
  cbn [visit rev]. rewrite E. cbn [mbind res_mbind res_bind].
  destruct (IH (i :: fin) (set_children b cs) Hm' Hnd) as (cs' & E' & Hm2).
  { intros j Hj. destruct (Hlt j) as [? ?]; set_solver. }
  exists cs'. split; [exact E'|]. by rewrite <- app_assoc.
Qed.

(** Each loop of the code is [visit] with its method. *)
Ltac as_visit IH :=
  cbn; destruct (with_child _ _ _) as [[b1 r]|]; cbn [mbind res_mbind res_bind]; [|done];
  destruct (Z.eqb_spec r 0) as [->|]; [cbn; apply IH|done].

Lemma start_visit event sc ids b b' :
  visit (fun c => smbus_i2c_event c event) ids b = Ok b' ->
  i2c_start_loop b ids event sc = Ok (b', 0).
Proof. revert b. induction ids as [|i ids IH]; intros b; [by intros [= ->]|]. as_visit IH. Qed.

Lemma nack_visit ids b b' :
  visit (fun c => smbus_i2c_event c I2C_NACK) ids b = Ok b' -> i2c_nack_loop b ids = Ok b'.
Proof. revert b. induction ids as [|i ids IH]; intros b; [by intros [= ->]|]. as_visit IH. Qed.

Lemma send_visit data ids b b' :
  visit (fun c => smbus_i2c_send c data) ids b = Ok b' ->
  i2c_send_loop b ids data false = Ok (b', false).
Proof. revert b. induction ids as [|i ids IH]; intros b; [by intros [= ->]|]. as_visit IH. Qed.

Lemma with_child_current (b : I2CBus D) ids i (k : SMBusDevice D -> res (SMBusDevice D * Z)) :
  with_child (set_current b ids) i k
  = ('(b, r) ← with_child b i k; Ok (set_current b ids, r)).
Proof.
  unfold with_child. cbn. destruct (children b !! i) as [c|]; [|done]. by destruct (k c) as [[]|].
Qed.

Lemma end_visit ids b b' :
  visit (fun c => smbus_i2c_event c I2C_FINISH) ids b = Ok b' ->
  forall ids0, i2c_end_loop (set_current b ids0) ids = Ok (set_current b' []).
Proof.
  revert b. induction ids as [|i ids IH]; intros b; [by intros [= ->]|].
  cbn. intros E ids0. rewrite with_child_current.
  destruct (with_child _ _ _) as [[b1 r]|]; cbn [mbind res_mbind res_bind] in *; [|done].
  destruct (r =? 0); [|done]. exact (IH b1 E ids).
Qed.

(** ** What each event does to a selected device *)

Lemma impl_id (c : SMBusDevice D) : set_impl c (impl c) = c.
Proof. by destruct c. Qed.

Lemma do_write_ok m bs p c : dev_wf n p.2 -> slave_in m bs p c -> bs <> [] ->
  smbus_do_write c = Ok (set_impl c (dev_write p.2 bs)).
Proof.
  intros Hd [Ha Hi Hm Hl Hmax Hb Hby Ht] Hne. unfold smbus_do_write, dev_write. rewrite Hi.
  destruct (write_data p.2) as [f|] eqn:E; [|by rewrite <- Hi, impl_id].
  assert (1 <= length bs <= 34)%nat by (destruct bs; [done|cbn in *; lia]).
  rewrite Hl, uwrap_id by lia.
  assert (Hp : length (pad bs) = 34%nat) by (unfold pad; rewrite length_app, length_replicate; lia).
  destruct (write_data_ok n p.2 f (data_buf c) (Z.of_nat (length bs))) as (d' & r & E' & _);
    [done..|lia|done|done|].
  rewrite <- (write_data_ext p.2 f (data_buf c) (pad bs)); [|done|lia|done|done|].
  - by rewrite E'.
  - rewrite Nat2Z.id, Ht. unfold pad. by rewrite take_app_length.
Qed.

(** Leave the collected bytes alone. *)
Lemma slave_in_mode m m' bs p (d : D) c : slave_in m bs p c ->
  slave_in m' bs (p.1, d) (set_mode (set_impl c d) m').
Proof. intros []. by constructor. Qed.

Lemma slave_in_idle m bs p (d : D) c : slave_in m bs p c ->
  slave_in SMBUS_IDLE [] (p.1, d)
    {| address := address c; mode := SMBUS_IDLE; data_len := 0; data_buf := data_buf c;
       impl := d |}.
Proof. intros []. constructor; try done. cbn. lia. Qed.

Lemma spec_start_send :
  method_spec n (fun c => smbus_i2c_event c I2C_START_SEND) 0 SMBUS_IDLE [] SMBUS_WRITE_DATA [] id.
Proof.
  intros p c Hd Hs. unfold smbus_i2c_event. rewrite (si_mode _ _ _ _ Hs).
  eexists; split; [done|]. rewrite <- (impl_id c), (si_impl _ _ _ _ Hs). by eapply slave_in_mode.
Qed.

Lemma spec_start_recv :
  method_spec n (fun c => smbus_i2c_event c I2C_START_RECV) 0 SMBUS_IDLE [] SMBUS_READ_DATA [] id.
Proof.
  intros p c Hd Hs. unfold smbus_i2c_event. rewrite (si_mode _ _ _ _ Hs).
  eexists; split; [done|]. rewrite <- (impl_id c), (si_impl _ _ _ _ Hs). by eapply slave_in_mode.
Qed.

(** A repeated start runs the command collected so far. *)
Lemma spec_restart bs : bs <> [] ->
  method_spec n (fun c => smbus_i2c_event c I2C_START_RECV) 0
    SMBUS_WRITE_DATA bs SMBUS_READ_DATA bs (fun d => dev_write d bs).
Proof.
  intros Hne p c Hd Hs. unfold smbus_i2c_event.
  rewrite (si_mode _ _ _ _ Hs), (si_len _ _ _ _ Hs).
  destruct (Z.eqb_spec (Z.of_nat (length bs)) 0); [destruct bs; [done|cbn in *; lia]|].
  rewrite (do_write_ok _ bs p c) by done. eexists; split; [done|]. by eapply slave_in_mode.
Qed.

Lemma spec_send bs x : is_u8 x -> (length bs < 34)%nat ->
  method_spec n (fun c => smbus_i2c_send c x) 0 SMBUS_WRITE_DATA bs SMBUS_WRITE_DATA (bs ++ [x]) id.
Proof.
  intros Hx Hlt p c Hd [Ha Hi Hm Hl Hmax Hb Hby Ht]. unfold smbus_i2c_send. rewrite Hm, Hl.
  unfold SMBUS_DATA_MAX_LEN. destruct (Z.leb_spec 34 (Z.of_nat (length bs))); [lia|].
  eexists; split; [done|]. rewrite Nat2Z.id.
  constructor; cbn; try done; rewrite ?length_app, ?length_insert; cbn; try lia.
  - by apply Forall_insert.
  - replace (length bs + 1)%nat with (S (length bs)) by lia.
    rewrite (take_S_r _ _ x) by (apply list_lookup_insert_eq; lia).
    by rewrite take_insert_ge, Ht.
Qed.

Lemma spec_nack bs :
  method_spec n (fun c => smbus_i2c_event c I2C_NACK) 0 SMBUS_READ_DATA bs SMBUS_DONE bs id.
Proof.
  intros p c Hd Hs. unfold smbus_i2c_event. rewrite (si_mode _ _ _ _ Hs).
  eexists; split; [done|]. rewrite <- (impl_id c), (si_impl _ _ _ _ Hs). by eapply slave_in_mode.
Qed.

Lemma do_quick_ok c r : dev_wf n (impl c) ->
  smbus_do_quick_cmd c r = Ok (set_impl c (dev_quick (impl c) r)).
Proof.
  intros Hd. unfold smbus_do_quick_cmd, dev_quick.
  destruct (quick_cmd (impl c)) as [f|] eqn:E; [|by rewrite impl_id].
  by destruct (quick_cmd_ok n _ f r Hd E) as (d' & -> & _).
Qed.

(** A transfer without data is a quick command. *)
Lemma spec_finish_quick (rd : bool) :
  method_spec n (fun c => smbus_i2c_event c I2C_FINISH) 0
    (if rd then SMBUS_READ_DATA else SMBUS_WRITE_DATA) [] SMBUS_IDLE []
    (fun d => dev_quick d (if rd then 1 else 0)).
Proof.
  intros p c Hd Hs. unfold smbus_i2c_event. rewrite (si_mode _ _ _ _ Hs), (si_len _ _ _ _ Hs).
  rewrite <- (si_impl _ _ _ _ Hs) in Hd.
  destruct rd; cbn -[smbus_do_quick_cmd]; rewrite do_quick_ok by done;
    (eexists; split; [done|]); rewrite (si_impl _ _ _ _ Hs); exact (slave_in_idle _ _ p _ c Hs).
Qed.

Lemma spec_finish_write bs : bs <> [] ->
  method_spec n (fun c => smbus_i2c_event c I2C_FINISH) 0
    SMBUS_WRITE_DATA bs SMBUS_IDLE [] (fun d => dev_write d bs).
Proof.
  intros Hne p c Hd Hs. unfold smbus_i2c_event.
  rewrite (si_mode _ _ _ _ Hs), (si_len _ _ _ _ Hs).
  destruct (Z.eqb_spec (Z.of_nat (length bs)) 0); [destruct bs; [done|cbn in *; lia]|].
  rewrite (do_write_ok _ bs p c Hd Hs Hne). eexists; split; [done|].
  exact (slave_in_idle _ _ p _ c Hs).
Qed.

Lemma spec_finish_done bs :
  method_spec n (fun c => smbus_i2c_event c I2C_FINISH) 0 SMBUS_DONE bs SMBUS_IDLE [] id.
Proof.
  intros p c Hd Hs. unfold smbus_i2c_event. rewrite (si_mode _ _ _ _ Hs).
  exists {| address := address c; mode := SMBUS_IDLE; data_len := 0; data_buf := data_buf c;
            impl := impl c |}.
  split; [by destruct (data_len c =? 0)|].
  rewrite (si_impl _ _ _ _ Hs). exact (slave_in_idle _ _ p _ c Hs).
Qed.

(** ** Bus operations on transfers *)

Lemma on_ids_id ids v : on_ids ids id v = v.
Proof.
  apply list_eq. intros i. rewrite lookup_on_ids. destruct (v !! i) as [[]|]; cbn; [|done].
  by case_decide.
Qed.

Lemma transfer_visit k ids bc m bs m' bs' f v (b : I2CBus D) :
  transfer n ids bc m bs v b -> method_spec n k 0 m bs m' bs' f ->
  exists cs, visit k ids b = Ok (set_children b cs)
    /\ mixed n (rev ids ++ []) [] m bs m' bs' f v cs.
Proof.
  intros Ht Hk. apply (visit_ok k m bs m' bs' f v ids [] b Hk).
  - by eapply transfer_mixed.
  - by destruct Ht.
  - intros i Hi. split; [by eapply tr_ids|set_solver].
Qed.

Lemma elem_of_rev_nil (ids : list nat) i : i ∈ rev ids ++ [] <-> i ∈ ids.
Proof. rewrite app_nil_r. rewrite !list_elem_of_In. symmetry. apply in_rev. Qed.

(** A loop that keeps the nodes: nack, send and a repeated start. *)
Lemma transfer_step k ids bc m bs m' bs' f v (b : I2CBus D) :
  transfer n ids bc m bs v b -> method_spec n k 0 m bs m' bs' f ->
  (forall d, dev_wf n d -> dev_wf n (f d)) ->
  exists b', visit k ids b = Ok b' /\ transfer n ids bc m' bs' (on_ids ids f v) b'.
Proof.
  intros Ht Hk Hf. destruct (transfer_visit k ids bc m bs m' bs' f v b Ht Hk) as (cs & E & Hm).
  eexists; split; [done|]. destruct Ht.
  eapply (mixed_transfer n); [exact Hm | apply elem_of_rev_nil | done || lia ..].
Qed.

Lemma send_ok ids bc bs x v b : transfer n ids bc SMBUS_WRITE_DATA bs v b ->
  is_u8 x -> (length bs < 34)%nat ->
  exists b', i2c_send b x = Ok (b', 0) /\ transfer n ids bc SMBUS_WRITE_DATA (bs ++ [x]) v b'.
Proof.
  intros Ht Hx Hl.
  destruct (transfer_step _ _ _ _ _ _ _ _ _ _ Ht (spec_send bs x Hx Hl)) as (b' & E & Ht'); [done|].
  exists b'. rewrite on_ids_id in Ht'. split; [|done]. unfold i2c_send.
  rewrite (tr_current Ht). by rewrite (send_visit _ _ _ _ E).
Qed.

Lemma nack_ok ids bc bs v b : transfer n ids bc SMBUS_READ_DATA bs v b ->
  exists b', i2c_nack b = Ok b' /\ transfer n ids bc SMBUS_DONE bs v b'.
Proof.
  intros Ht.
  destruct (transfer_step _ _ _ _ _ _ _ _ _ _ Ht (spec_nack bs)) as (b' & E & Ht'); [done|].
  exists b'. rewrite on_ids_id in Ht'. split; [|done]. unfold i2c_nack.
  rewrite (tr_current Ht). by apply nack_visit.
Qed.

Lemma end_ok ids bc m bs f v b : transfer n ids bc m bs v b -> v <> [] ->
  method_spec n (fun c => smbus_i2c_event c I2C_FINISH) 0 m bs SMBUS_IDLE [] f ->
  (forall d, dev_wf n d -> dev_wf n (f d)) ->
  exists b', i2c_end_transfer b = Ok b' /\ bus_idle n (on_ids ids f v) b'.
Proof.
  intros Ht Hv Hk Hf.
  destruct (transfer_visit _ ids bc m bs SMBUS_IDLE [] f v b Ht Hk) as (cs & E & Hm).
  unfold i2c_end_transfer. rewrite (tr_current Ht).
  replace (i2c_end_loop b ids) with (i2c_end_loop (set_current b (current_devs b)) ids)
    by (by destruct b).
  rewrite (end_visit _ _ _ E). cbn [mbind res_mbind res_bind].
  eexists; split; [done|].
  assert (on_ids ids f v = on_ids (rev ids ++ []) f v) as ->.
  { apply list_eq. intros i. rewrite !lookup_on_ids.
    destruct (v !! i); [|done]. cbn. by rewrite (decide_ext _ _ _ _ (elem_of_rev_nil ids i)). }
  split; [by eapply mixed_idle|]. intros En. apply Hv, nil_length_inv.
  by rewrite <- (length_on_ids (rev ids ++ []) f v), En.
Qed.

(** *** Starting a transfer *)

Lemma scan_broadcast (cs : list (SMBusDevice D)) i addr cur :
  (i2c_scan_from cs i addr true cur).2 = rev (seq i (length cs)) ++ cur.
Proof.
  revert i cur. induction cs as [|c cs IH]; intros i cur; [done|].
  cbn [i2c_scan_from]. unfold i2c_slave_match. rewrite orb_true_r. cbn [andb negb].
  rewrite IH. cbn [length seq rev]. by rewrite <- app_assoc.
Qed.

Lemma scan_single (cs : list (SMBusDevice D)) i addr :
  (i2c_scan_from cs i addr false []).2 =
  match list_find (fun c => address c = addr) cs with
  | Some (j, _) => [(i + j)%nat]
  | None => []
  end.
Proof.
  revert i. induction cs as [|c cs IH]; intros i; [done|].
  cbn [i2c_scan_from list_find]. unfold i2c_slave_match. rewrite orb_false_r.
  destruct (Z.eqb_spec (address c) addr); cbn [andb negb].
  - rewrite decide_True by done. by rewrite Nat.add_0_r.
  - rewrite decide_False by done. rewrite IH.
    destruct (list_find _ cs) as [[j x]|]; cbn; [|done]. by rewrite Nat.add_succ_r.
Qed.

Lemma list_find_fmap {A B} (f : A -> B) (P : B -> Prop) `{forall x, Decision (P x)} l :
  list_find P (f <$> l) = prod_map id f <$> list_find (fun x => P (f x)) l.
Proof.
  induction l as [|a l IH]; [done|]. cbn. case_decide; [done|].
  rewrite IH. by destruct (list_find _ l) as [[]|].
Qed.

Lemma idle_view v b : transfer n [] false SMBUS_IDLE [] v b ->
  v = (fun c => (address c, impl c)) <$> children b.
Proof.
  intros []. apply list_eq. intros i. rewrite list_lookup_fmap.
  destruct (v !! i) as [p|] eqn:Hp.
  - destruct (lookup_lt_is_Some_2 (children b) i) as [c Hc].
    { rewrite tr_length0. by eapply lookup_lt_Some. }
    rewrite Hc. cbn. specialize (tr_slaves0 i c p Hc Hp). rewrite decide_False in tr_slaves0 by set_solver.
    destruct tr_slaves0 as [Ea Ei _ _ _ _ _ _]. destruct p; cbn in *. congruence.
  - apply lookup_ge_None in Hp. rewrite lookup_ge_None_2; [done|lia].
Qed.

Lemma scan_selected v b addr : transfer n [] false SMBUS_IDLE [] v b ->
  (i2c_scan_bus b addr (addr =? 0) []).2 = selected v addr.
Proof.
  intros Ht. unfold i2c_scan_bus, selected. pose proof (tr_length Ht).
  destruct (Z.eqb_spec addr 0) as [->|].
  - rewrite scan_broadcast, app_nil_r. by f_equal; f_equal.
  - rewrite scan_single. rewrite (idle_view v b Ht) at 1. rewrite list_find_fmap. cbn.
    by destruct (list_find _ (children b)) as [[]|].
Qed.

Lemma selected_ok v addr : NoDup (selected v addr) /\ forall i, i ∈ selected v addr -> (i < length v)%nat.
Proof.
  unfold selected. destruct (addr =? 0).
  - split.
    + rewrite NoDup_ListNoDup. apply NoDup_rev, seq_NoDup.
    + intros i Hi. rewrite list_elem_of_In, <- in_rev, in_seq in Hi. lia.
  - destruct (list_find _ v) as [[i p]|] eqn:E; [|split; [constructor|set_solver]].
    split; [apply NoDup_singleton|]. intros j ->%list_elem_of_singleton.
    apply list_find_Some in E as (E & _). by eapply lookup_lt_Some.
Qed.

Lemma selected_broadcast v : v <> [] -> selected v 0 <> [].
Proof.
  intros Hv E. apply Hv. unfold selected in E. rewrite Z.eqb_refl in E.
  apply (f_equal length) in E. rewrite length_rev, length_seq in E. by apply nil_length_inv.
Qed.

(** The bus once the scan has selected [ids]. *)
Lemma scanned_transfer v b ids bc : transfer n [] false SMBUS_IDLE [] v b ->
  NoDup ids -> (forall i, i ∈ ids -> (i < length v)%nat) ->
  transfer n ids bc SMBUS_IDLE [] v
    {| children := children b; current_devs := ids; broadcast := bc |}.
Proof.
  intros [] Hnd Hlt. constructor; try done. intros i c p Hc Hp.
  specialize (tr_slaves0 i c p Hc Hp). rewrite decide_False in tr_slaves0 by set_solver.
  by case_decide.
Qed.

Lemma start_idle v b addr event m' : bus_idle n v b -> selected v addr <> [] ->
  method_spec n (fun c => smbus_i2c_event c event) 0 SMBUS_IDLE [] m' [] id ->
  exists b', i2c_do_start_transfer b addr event = Ok (b', 0)
    /\ transfer n (selected v addr) (addr =? 0) m' [] v b'.
Proof.
  intros [Ht Hv] Hne Hk. pose proof (scan_selected v b addr Ht) as Es.
  destruct (selected_ok v addr) as [Hnd Hlt].
  pose proof (scanned_transfer v b (selected v addr) (addr =? 0) Ht Hnd Hlt) as Hs.
  destruct (transfer_step _ _ _ _ _ _ _ _ _ _ Hs Hk) as (b' & E & Ht'); [done|].
  rewrite on_ids_id in Ht'. exists b'. split; [|done].
  unfold i2c_do_start_transfer, I2C_BROADCAST. destruct Ht as [Hc Hb _ _ _ _ _].
  assert ((if addr =? 0 then set_broadcast b true else b)
    = {| children := children b; current_devs := []; broadcast := (addr =? 0) |}) as ->.
  { destruct b; cbn in *; subst. by destruct (addr =? 0). }
  cbn [current_devs broadcast set_current children].
  change (i2c_scan_bus _ addr (addr =? 0) []) with (i2c_scan_bus b addr (addr =? 0) []).
  rewrite Es. apply (start_visit _ true) in E. by destruct (selected v addr).
Qed.

(** No device answers: the bus stays idle and the start reports an error. *)
Lemma start_nobody v b addr event : bus_idle n v b -> selected v addr = [] ->
  exists b', i2c_do_start_transfer b addr event = Ok (b', 1) /\ bus_idle n v b'.
Proof.
  intros [Ht Hv] Hne. pose proof (scan_selected v b addr Ht) as Es.
  assert (addr <> 0) by (intros ->; by apply selected_broadcast in Hne).
  unfold i2c_do_start_transfer, I2C_BROADCAST. destruct (Z.eqb_spec addr 0); [done|].
  pose proof (tr_current Ht) as Hc. rewrite Hc.
  rewrite (tr_bcast Ht), Es, Hne. cbn.
  exists (set_current b []). split; [done|]. split; [|done].
  replace (set_current b []) with b; [done|]. destruct b; cbn in *. by subst.
Qed.

Lemma restart_ok v b addr ids bs : transfer n ids (addr =? 0) SMBUS_WRITE_DATA bs v b ->
  ids <> [] -> bs <> [] -> (length bs <= 34)%nat -> Forall is_u8 bs ->
  exists b', i2c_start_recv b addr = Ok (b', 0)
    /\ transfer n ids (addr =? 0) SMBUS_READ_DATA bs (on_ids ids (fun d => dev_write d bs) v) b'.
Proof.
  intros Ht Hne Hbs Hlen Hby.
  destruct (transfer_step _ _ _ _ _ _ _ _ _ _ Ht (spec_restart bs Hbs)) as (b' & E & Ht').
  { intros d Hd. apply dev_write_wf; try done. destruct bs; [done|cbn in *; lia]. }
  exists b'. split; [|done]. unfold i2c_start_recv, i2c_do_start_transfer, I2C_BROADCAST.
  pose proof (tr_current Ht) as Hc. pose proof (tr_bcast Ht) as Hb.
  assert ((if addr =? 0 then set_broadcast b true else b) = b) as ->.
  { destruct b; cbn in *; subst. by destruct (addr =? 0). }
  rewrite Hc. apply (start_visit _ false) in E.
  destruct ids; [done|]. rewrite Hc. exact E.
Qed.

(** *** Receiving *)

Lemma recv_broadcast ids bs v b : transfer n ids true SMBUS_READ_DATA bs v b ->
  i2c_recv b = Ok (b, 0xff).
Proof. intros [_ Hb _ _ _ _ _]. unfold i2c_recv. rewrite Hb. by destruct (current_devs b). Qed.

Lemma recv_single i bs v b a d : transfer n [i] false SMBUS_READ_DATA bs v b ->
  v !! i = Some (a, d) -> 1 <= n ->
  exists b', i2c_recv b = Ok (b', (dev_recv d).2)
    /\ transfer (n - 1) [i] false SMBUS_READ_DATA bs (on_ids [i] (fun d => (dev_recv d).1) v) b'.
Proof.
  intros Ht Hi Hn. pose proof Ht as [Hc Hb _ Hlen Hids Hs Hwf].
  pose proof (Forall_lookup_1 _ _ _ _ Hwf Hi) as Hd. cbn in Hd.
  destruct (lookup_lt_is_Some_2 (children b) i) as [c Hci]; [rewrite Hlen; apply Hids; set_solver|].
  pose proof (Hs i c (a, d) Hci Hi) as Hsi. rewrite decide_True in Hsi by set_solver.
  unfold i2c_recv. rewrite Hc, Hb. unfold with_child. rewrite Hci.
  assert (smbus_i2c_recv c = Ok (set_impl c (dev_recv d).1, (dev_recv d).2)) as ->.
  { destruct Hsi as [_ Ei Em _ _ _ _ _]. unfold smbus_i2c_recv, dev_recv. rewrite Em, Ei. cbn in *.
    destruct (receive_byte d) as [r|] eqn:Er; cbn.
    - by destruct (receive_byte_ok n d r Hd Hn Er) as (d' & x & -> & _).
    - by rewrite <- Ei, impl_id. }
  cbn [mbind res_mbind res_bind]. eexists; split; [done|].
  eapply (mixed_transfer (n - 1) [i] [i] false SMBUS_READ_DATA bs); try done.
  - split; [cbn; by rewrite length_insert|]. split; [done|]. intros j c1 q Hj Hq. cbn in Hj.
    destruct (decide (j = i)) as [->|Hne].
    + rewrite list_lookup_insert_eq in Hj by (by eapply lookup_lt_Some).
      rewrite decide_True by set_solver. injection Hj as <-. rewrite Hi in Hq. injection Hq as <-.
      destruct Hsi. by constructor.
    + rewrite list_lookup_insert_ne in Hj by done. specialize (Hs j c1 q Hj Hq).
      rewrite decide_False in Hs by set_solver. by rewrite !decide_False by set_solver.
  - apply NoDup_singleton.
  - lia.
  - intros d' Hd'. by apply dev_recv_wf.
Qed.

End Steps.

(** A smaller budget of reads is weaker. *)
Lemma transfer_mono n n' ids bc m bs v b : n' <= n -> transfer n ids bc m bs v b ->
  transfer n' ids bc m bs v b.
Proof.
  intros Hn []. constructor; try done. eapply Forall_impl; [done|].
  intros p. by apply dev_wf_mono.
Qed.

Lemma bus_idle_mono n n' v b : n' <= n -> bus_idle n v b -> bus_idle n' v b.
Proof. intros Hn [Ht Hv]. split; [by eapply transfer_mono|done]. Qed.

End Transfers.
End I2cCore.
