(* ===== verification/SmbusMaster.v ===== *)
(** * SMBus host commands (hw/i2c/smbus_master.c)

    Each command is a sequence of bus operations.  The abstract machine [abs_op]
    only knows addresses and devices: a command hands its bytes to the selected
    devices and reads back theirs.  The refinement theorem says that the bus, with
    its events and per-device state machines, implements it. *)

From S2P Require Import Prelude SmbusSlave I2cCore.
Import SmbusSlave SmbusDev I2cCore.

Module SmbusMaster.

Section Master.
Context {D : Type} `{SMBusDeviceClass D}.
#[local] Abbreviation bus := (I2CBus D).

Definition smbus_quick_command (b : bus) (addr : Z) (read : bool) : res (bus * Z) :=
  '(b, e) ← i2c_start_transfer b addr read;
  if negb (e =? 0) then Ok (b, -1)
  else b ← i2c_end_transfer b; Ok (b, 0).

Definition smbus_receive_byte (b : bus) (addr : Z) : res (bus * Z) :=
  '(b, e) ← i2c_start_recv b addr;
  if negb (e =? 0) then Ok (b, -1)
  else
    '(b, data) ← i2c_recv b;
    b ← i2c_nack b;
    b ← i2c_end_transfer b;
    Ok (b, data).

Definition smbus_send_byte (b : bus) (addr data : Z) : res (bus * Z) :=
  '(b, e) ← i2c_start_send b addr;
  if negb (e =? 0) then Ok (b, -1)
  else
    '(b, _) ← i2c_send b data;
    b ← i2c_end_transfer b;
    Ok (b, 0).

Definition smbus_read_byte (b : bus) (addr command : Z) : res (bus * Z) :=
  '(b, e) ← i2c_start_send b addr;
  if negb (e =? 0) then Ok (b, -1)
  else
    '(b, _) ← i2c_send b command;
    '(b, e) ← i2c_start_recv b addr;
    if negb (e =? 0) then b ← i2c_end_transfer b; Ok (b, -1)
    else
      '(b, data) ← i2c_recv b;
      b ← i2c_nack b;
      b ← i2c_end_transfer b;
      Ok (b, data).

Definition smbus_write_byte (b : bus) (addr command data : Z) : res (bus * Z) :=
  '(b, e) ← i2c_start_send b addr;
  if negb (e =? 0) then Ok (b, -1)
  else
    '(b, _) ← i2c_send b command;
    '(b, _) ← i2c_send b data;
    b ← i2c_end_transfer b;
    Ok (b, 0).

Definition smbus_read_word (b : bus) (addr command : Z) : res (bus * Z) :=
  '(b, e) ← i2c_start_send b addr;
  if negb (e =? 0) then Ok (b, -1)
  else
    '(b, _) ← i2c_send b command;
    '(b, e) ← i2c_start_recv b addr;
    if negb (e =? 0) then b ← i2c_end_transfer b; Ok (b, -1)
    else
      '(b, data) ← i2c_recv b;
      '(b, hi) ← i2c_recv b;
      let data := u16 (Z.lor data (Z.shiftl hi 8)) in
      b ← i2c_nack b;
      b ← i2c_end_transfer b;
      Ok (b, data).

Definition smbus_write_word (b : bus) (addr command data : Z) : res (bus * Z) :=
  '(b, e) ← i2c_start_send b addr;
  if negb (e =? 0) then Ok (b, -1)
  else
    '(b, _) ← i2c_send b command;
    '(b, _) ← i2c_send b (Z.land data 0xff);
    '(b, _) ← i2c_send b (u8 (Z.shiftr data 8));
    b ← i2c_end_transfer b;
    Ok (b, 0).

(** The two loops over a block. *)
Fixpoint recv_loop (b : bus) (data : list Z) (i n : nat) : res (bus * list Z) :=
  match n with
  | O => Ok (b, data)
  | S n =>
      '(b, v) ← i2c_recv b;
      data ← buf_set data i v;
      recv_loop b data (S i) n
  end.

Fixpoint send_loop (b : bus) (data : list Z) (i n : nat) : res bus :=
  match n with
  | O => Ok b
  | S n =>
      v ← buf_at data i;
      '(b, _) ← i2c_send b v;
      send_loop b data (S i) n
  end.

Definition smbus_read_block (b : bus) (addr command : Z) (data : list Z) (len : Z)
    (recv_len send_cmd : bool) : res (bus * list Z * Z) :=
  let receive (b : bus) :=
    '(b, e) ← i2c_start_recv b addr;
    if negb (e =? 0) then
      b ← (if send_cmd then i2c_end_transfer b else Ok b);
      Ok (b, data, -1)
    else
      '(b, rlen) ← (if recv_len then i2c_recv b else Ok (b, len));
      let rlen := if len <? rlen then 0 else rlen in
      '(b, data) ← recv_loop b data 0 (Z.to_nat rlen);
      b ← i2c_nack b;
      b ← i2c_end_transfer b;
      Ok (b, data, rlen) in
  if send_cmd then
    '(b, e) ← i2c_start_send b addr;
    if negb (e =? 0) then Ok (b, data, -1)
    else '(b, _) ← i2c_send b command; receive b
  else receive b.

Definition smbus_write_block (b : bus) (addr command : Z) (data : list Z) (len : Z)
    (send_len : bool) : res (bus * Z) :=
  let len := if 32 <? len then 32 else len in
  '(b, e) ← i2c_start_send b addr;
  if negb (e =? 0) then Ok (b, -1)
  else
    '(b, _) ← i2c_send b command;
    b ← (if send_len then '(b, _) ← i2c_send b (u8 len); Ok b else Ok b);
    b ← send_loop b data 0 (Z.to_nat len);
    b ← i2c_end_transfer b;
    Ok (b, 0).

(** The commands as data, and the call each stands for.  The list is the data
    buffer of a block command, untouched by the others. *)
Inductive master_op :=
| Quick (read : bool)
| ReceiveByte
| SendByte (data : Z)
| ReadByte (command : Z)
| WriteByte (command data : Z)
| ReadWord (command : Z)
| WriteWord (command data : Z)
| ReadBlock (command len : Z) (recv_len send_cmd : bool)
| WriteBlock (command len : Z) (send_len : bool).

Definition run_op (b : bus) (addr : Z) (data : list Z) (o : master_op)
  : res (bus * list Z * Z) :=
  let keep (r : res (bus * Z)) := '(b, v) ← r; Ok (b, data, v) in
  match o with
  | Quick read => keep (smbus_quick_command b addr read)
  | ReceiveByte => keep (smbus_receive_byte b addr)
  | SendByte x => keep (smbus_send_byte b addr x)
  | ReadByte c => keep (smbus_read_byte b addr c)
  | WriteByte c x => keep (smbus_write_byte b addr c x)
  | ReadWord c => keep (smbus_read_word b addr c)
  | WriteWord c x => keep (smbus_write_word b addr c x)
  | ReadBlock c len rl sc => smbus_read_block b addr c data len rl sc
  | WriteBlock c len sl => keep (smbus_write_block b addr c data len sl)
  end.

End Master.

(** ** The abstract machine *)

Section Abstract.
Context {D : Type} `{SMBusDeviceLaws D}.

(** Hand the bytes [bs] to the devices at [ids]. *)
Definition abs_write (ids : list nat) (bs : list Z) (v : view D) : view D :=
  on_ids ids (fun d => dev_write d bs) v.

(** One byte from the device at an address; nobody drives the bus on a broadcast. *)
Definition abs_recv (ids : list nat) (bc : bool) (v : view D) : view D * Z :=
  match ids with
  | [i] => match v !! i with
           | Some (_, d) =>
               if bc then (v, 0xff)
               else (on_ids ids (fun d => (dev_recv d).1) v, (dev_recv d).2)
           | None => (v, 0xff)
           end
  | _ => (v, 0xff)
  end.

Fixpoint abs_recvs (n : nat) (ids : list nat) (bc : bool) (v : view D) : view D * list Z :=
  match n with
  | O => (v, [])
  | S n =>
      let '(v, x) := abs_recv ids bc v in
      let '(v, xs) := abs_recvs n ids bc v in (v, x :: xs)
  end.

(** A buffer with its first bytes replaced. *)
Definition overwrite (data xs : list Z) : list Z := xs ++ drop (length xs) data.

Definition abs_op (addr : Z) (data : list Z) (o : master_op) (v : view D)
  : view D * list Z * Z :=
  let ids := selected v addr in
  let bc := addr =? 0 in
  if decide (ids = []) then (v, data, -1)
  else match o with
  | Quick read => (on_ids ids (fun d => dev_quick d (if read then 1 else 0)) v, data, 0)
  | ReceiveByte => let r := abs_recv ids bc v in (r.1, data, r.2)
  | SendByte x => (abs_write ids [x] v, data, 0)
  | ReadByte c => let r := abs_recv ids bc (abs_write ids [c] v) in (r.1, data, r.2)
  | WriteByte c x => (abs_write ids [c; x] v, data, 0)
  | ReadWord c =>
      let lo := abs_recv ids bc (abs_write ids [c] v) in
      let hi := abs_recv ids bc lo.1 in
      (hi.1, data, lo.2 + 256 * hi.2)
  | WriteWord c x => (abs_write ids [c; x mod 256; x / 256] v, data, 0)
  | ReadBlock c len recv_len send_cmd =>
      let v := if send_cmd then abs_write ids [c] v else v in
      let r := if recv_len then abs_recv ids bc v else (v, len) in
      let n := if len <? r.2 then 0 else r.2 in
      let xs := abs_recvs (Z.to_nat n) ids bc r.1 in
      (xs.1, overwrite data xs.2, n)
  | WriteBlock c len send_len =>
      let n := Z.min len 32 in
      (abs_write ids (c :: (if send_len then [n] else []) ++ take (Z.to_nat n) data) v, data, 0)
  end.

(** Arguments a caller may pass: bytes, and block lengths the buffer has room for. *)
Definition op_ok (data : list Z) (o : master_op) : Prop :=
  Forall is_u8 data /\
  match o with
  | Quick _ | ReceiveByte => True
  | SendByte x => is_u8 x
  | ReadByte c | ReadWord c => is_u8 c
  | WriteByte c x => is_u8 c /\ is_u8 x
  | WriteWord c x => is_u8 c /\ is_u16 x
  | ReadBlock c len _ _ => is_u8 c /\ 0 <= len <= Z.of_nat (length data)
  | WriteBlock c len _ => is_u8 c /\ 0 <= len /\ Z.min len 32 <= Z.of_nat (length data)
  end.

(** Byte reads a command may take from a device. *)
Definition op_cost (o : master_op) : Z :=
  match o with
  | ReceiveByte | ReadByte _ => 1
  | ReadWord _ => 2
  | ReadBlock _ len _ _ => 1 + len
  | _ => 0
  end.

(** ** Refinement *)

Implicit Types (v : view D) (b : I2CBus D).

Lemma selected_single v addr : addr <> 0 -> selected v addr <> [] ->
  exists i, selected v addr = [i].
Proof.
  intros Ha. unfold selected. destruct (Z.eqb_spec addr 0); [done|].
  destruct (list_find _ v) as [[i p]|]; [by exists i|done].
Qed.

(** One answering device, or a broadcast. *)
Definition answering (ids : list nat) (bc : bool) : Prop := bc = true \/ exists i, ids = [i].

Lemma selected_answering v addr : selected v addr <> [] -> answering (selected v addr) (addr =? 0).
Proof.
  intros Hne. destruct (Z.eqb_spec addr 0); [by left|]. right. by apply selected_single.
Qed.

Lemma recv_ok n ids bc bs v b : transfer n ids bc SMBUS_READ_DATA bs v b -> answering ids bc ->
  1 <= n ->
  exists b', i2c_recv b = Ok (b', (abs_recv ids bc v).2)
    /\ transfer (n - 1) ids bc SMBUS_READ_DATA bs (abs_recv ids bc v).1 b'
    /\ is_u8 (abs_recv ids bc v).2.
Proof.
  intros Ht Ha Hn. pose proof (transfer_mono n (n - 1) _ _ _ _ _ _ ltac:(lia) Ht) as Ht1.
  destruct Ha as [->|[i ->]].
  - assert (abs_recv ids true v = (v, 255)) as ->.
    { unfold abs_recv. repeat case_match; done. }
    exists b. split; [by eapply recv_broadcast|done].
  - destruct (lookup_lt_is_Some_2 v i) as [[a d] Hi].
    { apply (tr_ids Ht). set_solver. }
    unfold abs_recv. rewrite Hi. destruct bc.
    + exists b. split; [by eapply recv_broadcast|done].
    + destruct (recv_single i bs v b a d Ht Hi Hn) as (b' & E & Ht'). exists b'.
      split; [done|]. split; [done|]. apply (dev_recv_wf n); [|done].
      exact (Forall_lookup_1 _ _ _ _ (tr_wf Ht) Hi).
Qed.

Lemma overwrite_step data i x xs : (i < length data)%nat ->
  take (S i) (<[i := x]> data) ++ overwrite (drop (S i) (<[i := x]> data)) xs
  = take i data ++ overwrite (drop i data) (x :: xs).
Proof.
  intros Hi. unfold overwrite. rewrite (take_S_r _ _ x) by (by apply list_lookup_insert_eq).
  rewrite take_insert_ge by lia. rewrite drop_insert_lt by lia.
  rewrite <- app_assoc. cbn [app length]. by rewrite !drop_drop, Nat.add_succ_comm.
Qed.

Lemma recv_loop_ok n k i data ids bc bs v b : transfer n ids bc SMBUS_READ_DATA bs v b ->
  answering ids bc -> (i + k <= length data)%nat -> Z.of_nat k <= n ->
  exists b', recv_loop b data i k
      = Ok (b', take i data ++ overwrite (drop i data) (abs_recvs k ids bc v).2)
    /\ transfer (n - Z.of_nat k) ids bc SMBUS_READ_DATA bs (abs_recvs k ids bc v).1 b'.
Proof.
  revert n i data v b. induction k as [|k IH]; intros n i data v b Ht Ha Hl Hn.
  { exists b. split; [cbn; unfold overwrite; cbn; by rewrite drop_0, take_drop|].
    by rewrite Z.sub_0_r. }
  cbn [recv_loop abs_recvs]. destruct (recv_ok _ _ _ _ _ _ Ht Ha ltac:(lia)) as (b1 & -> & Ht1 & _).
  destruct (abs_recv ids bc v) as [v1 x]. cbn [fst snd] in *. cbn [mbind res_mbind res_bind].
  unfold buf_set. rewrite decide_True by lia. cbn [mbind res_mbind res_bind].
  destruct (IH (n - 1) (S i) (<[i := x]> data) v1 b1 Ht1 Ha) as (b2 & -> & Ht2);
    [rewrite length_insert; lia|lia|].
  exists b2. destruct (abs_recvs k ids bc v1) as [v2 xs]. cbn [fst snd] in *.
  split; [by rewrite overwrite_step by lia|].
  by replace (n - Z.of_nat (S k)) with (n - 1 - Z.of_nat k) by lia.
Qed.

Lemma send_loop_ok n k i data ids bc bs v b : transfer n ids bc SMBUS_WRITE_DATA bs v b ->
  Forall is_u8 data -> (i + k <= length data)%nat -> (length bs + k <= 34)%nat ->
  exists b', send_loop b data i k = Ok b'
    /\ transfer n ids bc SMBUS_WRITE_DATA (bs ++ take k (drop i data)) v b'.
Proof.
  revert i bs b. induction k as [|k IH]; intros i bs b Ht Hd Hi Hl.
  { exists b. split; [done|]. cbn. by rewrite app_nil_r. }
  destruct (lookup_lt_is_Some_2 data i ltac:(lia)) as [x Hx].
  pose proof (Forall_lookup_1 _ _ _ _ Hd Hx) as Hx8.
  cbn [send_loop]. unfold buf_at. rewrite Hx. cbn [mbind res_mbind res_bind].
  destruct (send_ok _ _ _ x _ _ Ht Hx8 ltac:(lia)) as (b1 & -> & Ht1).
  cbn [mbind res_mbind res_bind].
  destruct (IH (S i) (bs ++ [x]) b1 Ht1 Hd) as (b2 & -> & Ht2);
    [lia|rewrite length_app; cbn; lia|].
  exists b2. split; [done|]. rewrite (drop_S _ _ _ Hx). cbn [take].
  by rewrite <- app_assoc in Ht2.
Qed.

(** The end of a transfer that wrote, and of one that read. *)
Lemma finish_write n ids bc bs v b : transfer n ids bc SMBUS_WRITE_DATA bs v b -> v <> [] ->
  bs <> [] -> (length bs <= 34)%nat -> Forall is_u8 bs ->
  exists b', i2c_end_transfer b = Ok b' /\ bus_idle n (abs_write ids bs v) b'.
Proof.
  intros Ht Hv Hbs Hl Hby. eapply end_ok; [done|done|by apply spec_finish_write|].
  intros d Hd. apply dev_write_wf; try done. destruct bs; [done|cbn in *; lia].
Qed.

Lemma finish_read n ids bc bs v b {R} (k : I2CBus D -> res R) :
  transfer n ids bc SMBUS_READ_DATA bs v b -> v <> [] ->
  exists b', (b ← i2c_nack b; b ← i2c_end_transfer b; k b) = k b' /\ bus_idle n v b'.
Proof.
  intros Ht Hv. destruct (nack_ok _ _ _ _ _ Ht) as (b1 & -> & Ht1).
  cbn [mbind res_mbind res_bind].
  destruct (end_ok _ _ _ _ id _ _ Ht1 Hv (spec_finish_done bs)) as (b2 & -> & Hi); [done|].
  rewrite on_ids_id in Hi. by exists b2.
Qed.

(** Views keep their length, so a non-empty bus stays so. *)
Lemma on_ids_nonempty ids f (v : view D) : v <> [] -> on_ids ids f v <> [].
Proof.
  intros Hv E. apply Hv, nil_length_inv. by rewrite <- (length_on_ids ids f v), E.
Qed.

Lemma abs_recv_nonempty ids bc (v : view D) : v <> [] -> (abs_recv ids bc v).1 <> [].
Proof.
  intros Hv. unfold abs_recv. repeat case_match; try done. by apply on_ids_nonempty.
Qed.

Lemma abs_recvs_nonempty n ids bc (v : view D) : v <> [] -> (abs_recvs n ids bc v).1 <> [].
Proof.
  revert v. induction n as [|n IH]; intros v Hv; [done|]. cbn [abs_recvs].
  pose proof (abs_recv_nonempty ids bc v Hv) as H1. destruct (abs_recv ids bc v) as [v1 x].
  specialize (IH v1 H1). by destruct (abs_recvs n ids bc v1).
Qed.

(** A start that finds a device, and its first byte. *)
Lemma start_send_byte n v b addr x {R} (k : I2CBus D -> res R) (e : I2CBus D -> res R) :
  bus_idle n v b -> selected v addr <> [] -> is_u8 x ->
  exists b', ('(b, r) ← i2c_start_send b addr;
              if negb (r =? 0) then e b else '(b, _) ← i2c_send b x; k b) = k b'
    /\ transfer n (selected v addr) (addr =? 0) SMBUS_WRITE_DATA [x] v b'.
Proof.
  intros Hi Hne Hx.
  destruct (start_idle v b addr I2C_START_SEND SMBUS_WRITE_DATA Hi Hne spec_start_send)
    as (b1 & E & Ht1).
  unfold i2c_start_send. rewrite E. cbn [mbind res_mbind res_bind].
  destruct (send_ok _ _ _ x _ _ Ht1 Hx ltac:(cbn; lia)) as (b2 & -> & Ht2).
  by exists b2.
Qed.

Lemma restart_read n v b addr ids c {R} (k e : I2CBus D -> res R) :
  transfer n ids (addr =? 0) SMBUS_WRITE_DATA [c] v b -> ids <> [] -> is_u8 c ->
  exists b', ('(b, r) ← i2c_start_recv b addr; if negb (r =? 0) then e b else k b) = k b'
    /\ transfer n ids (addr =? 0) SMBUS_READ_DATA [c] (abs_write ids [c] v) b'.
Proof.
  intros Ht Hne Hc.
  destruct (restart_ok v b addr ids [c] Ht Hne) as (b' & -> & Ht'); [done|cbn; lia|by constructor|].
  by exists b'.
Qed.

(** Nobody at the address: every command fails and nothing changes. *)
Lemma run_op_nobody n v b addr data o : bus_idle n v b -> selected v addr = [] ->
  exists b', run_op b addr data o = Ok (b', data, -1) /\ bus_idle n v b'.
Proof.
  intros Hi Hs.
  destruct (start_nobody v b addr I2C_START_SEND Hi Hs) as (bs & Es & His).
  destruct (start_nobody v b addr I2C_START_RECV Hi Hs) as (br & Er & Hir).
  destruct o; cbn [run_op];
    unfold smbus_quick_command, smbus_receive_byte, smbus_send_byte, smbus_read_byte,
      smbus_write_byte, smbus_read_word, smbus_write_word, smbus_read_block, smbus_write_block,
      i2c_start_transfer, i2c_start_send, i2c_start_recv;
    repeat (case_match; subst); rewrite ?Es, ?Er; eauto.
Qed.

Ltac all_u8 := cbn [app]; repeat (apply Forall_cons_2; [done|]); apply Forall_nil_2.

Section Answered.
Context (n : Z) (v : view D) (b : I2CBus D) (addr : Z) (Hi : bus_idle n v b) (Hne : selected v addr <> []).
#[local] Abbreviation ids := (selected v addr).
#[local] Abbreviation bc := (addr =? 0).

Lemma view_nonempty : v <> [].
Proof. by destruct Hi. Qed.

Lemma quick_ok read : exists b', smbus_quick_command b addr read = Ok (b', 0)
  /\ bus_idle n (on_ids ids (fun d => dev_quick d (if read then 1 else 0)) v) b'.
Proof.
  unfold smbus_quick_command, i2c_start_transfer.
  destruct (start_idle v b addr (if read then I2C_START_RECV else I2C_START_SEND)
    (if read then SMBUS_READ_DATA else SMBUS_WRITE_DATA) Hi Hne) as (b1 & -> & Ht).
  { destruct read; [apply spec_start_recv|apply spec_start_send]. }
  cbn [mbind res_mbind res_bind].
  destruct (end_ok _ _ _ _ _ _ _ Ht view_nonempty (spec_finish_quick read)) as (b2 & -> & Hi2).
  { intros. by apply dev_quick_wf. }
  by exists b2.
Qed.

Lemma receive_byte_ok' : 1 <= n ->
  exists b', smbus_receive_byte b addr = Ok (b', (abs_recv ids bc v).2)
  /\ bus_idle (n - 1) (abs_recv ids bc v).1 b'.
Proof.
  intros Hn.
  unfold smbus_receive_byte, i2c_start_recv.
  destruct (start_idle v b addr I2C_START_RECV SMBUS_READ_DATA Hi Hne spec_start_recv)
    as (b1 & -> & Ht). cbn [mbind res_mbind res_bind].
  destruct (recv_ok _ _ _ _ _ _ Ht (selected_answering v addr Hne) Hn) as (b2 & E & Ht2 & _).
  cbn. rewrite E. cbn [mbind res_mbind res_bind].
  destruct (finish_read _ _ _ _ _ _ (fun b => Ok (b, (abs_recv ids bc v).2)) Ht2) as (b3 & E3 & Hi3).
  { apply abs_recv_nonempty, view_nonempty. }
  exists b3. split; [exact E3|done].
Qed.

Lemma send_byte_ok x : is_u8 x -> exists b', smbus_send_byte b addr x = Ok (b', 0)
  /\ bus_idle n (abs_write ids [x] v) b'.
Proof.
  intros Hx. unfold smbus_send_byte.
  destruct (start_send_byte n v b addr x (fun b => b ← i2c_end_transfer b; Ok (b, 0))
    (fun b => Ok (b, -1)) Hi Hne Hx) as (b1 & -> & Ht).
  destruct (finish_write _ _ _ _ _ _ Ht view_nonempty) as (b2 & -> & Hi2);
    [done|cbn; lia|all_u8|]. by exists b2.
Qed.

Lemma write_byte_ok c x : is_u8 c -> is_u8 x -> exists b', smbus_write_byte b addr c x = Ok (b', 0)
  /\ bus_idle n (abs_write ids [c; x] v) b'.
Proof.
  intros Hc Hx. unfold smbus_write_byte.
  destruct (start_send_byte n v b addr c
    (fun b => '(b, _) ← i2c_send b x; b ← i2c_end_transfer b; Ok (b, 0))
    (fun b => Ok (b, -1)) Hi Hne Hc) as (b1 & -> & Ht).
  destruct (send_ok _ _ _ x _ _ Ht Hx ltac:(cbn; lia)) as (b2 & -> & Ht2).
  cbn [mbind res_mbind res_bind].
  destruct (finish_write _ _ _ _ _ _ Ht2 view_nonempty) as (b3 & -> & Hi3);
    [done|cbn; lia|all_u8|]. by exists b3.
Qed.

Lemma write_word_ok c x : is_u8 c -> is_u16 x -> exists b', smbus_write_word b addr c x = Ok (b', 0)
  /\ bus_idle n (abs_write ids [c; x mod 256; x / 256] v) b'.
Proof.
  intros Hc Hx. unfold smbus_write_word. unfold in_uw in Hx.
  change 255 with (Z.ones 8). rewrite Z.land_ones, Z.shiftr_div_pow2 by lia.
  change (2 ^ 8) with 256. rewrite (uwrap_id 8) by dlia.
  destruct (start_send_byte n v b addr c (fun b =>
      '(b, _) ← i2c_send b (x mod 256); '(b, _) ← i2c_send b (x / 256);
      b ← i2c_end_transfer b; Ok (b, 0))
    (fun b => Ok (b, -1)) Hi Hne Hc) as (b1 & -> & Ht).
  assert (is_u8 (x mod 256)) by (unfold in_uw; dlia).
  assert (is_u8 (x / 256)) by (unfold in_uw; dlia).
  destruct (send_ok _ _ _ (x mod 256) _ _ Ht) as (b2 & -> & Ht2); [done|cbn; lia|].
  cbn [mbind res_mbind res_bind].
  destruct (send_ok _ _ _ (x / 256) _ _ Ht2) as (b3 & -> & Ht3); [done|cbn; lia|].
  cbn [mbind res_mbind res_bind].
  destruct (finish_write _ _ _ _ _ _ Ht3 view_nonempty) as (b4 & -> & Hi4);
    [done|cbn; lia|all_u8|]. by exists b4.
Qed.

Lemma read_byte_ok c : is_u8 c -> 1 <= n ->
  exists b', smbus_read_byte b addr c = Ok (b', (abs_recv ids bc (abs_write ids [c] v)).2)
  /\ bus_idle (n - 1) (abs_recv ids bc (abs_write ids [c] v)).1 b'.
Proof.
  intros Hc Hn. unfold smbus_read_byte.
  set (rest := fun b => '(b, data) ← i2c_recv b; b ← i2c_nack b; b ← i2c_end_transfer b;
                        Ok (b, data)).
  destruct (start_send_byte n v b addr c (fun b => '(b, e) ← i2c_start_recv b addr;
     if negb (e =? 0) then b ← i2c_end_transfer b; Ok (b, -1) else rest b)
    (fun b => Ok (b, -1)) Hi Hne Hc) as (b1 & E1 & Ht).
  destruct (restart_read n v b1 addr ids c rest (fun b => b ← i2c_end_transfer b; Ok (b, -1))
    Ht Hne Hc) as (b2 & E2 & Ht2).
  unfold rest in E1, E2. rewrite E1, E2. clear rest E1 E2.
  destruct (recv_ok _ _ _ _ _ _ Ht2 (selected_answering v addr Hne) Hn) as (b3 & -> & Ht3 & _).
  cbn [mbind res_mbind res_bind].
  destruct (finish_read _ _ _ _ _ _ (fun b => Ok (b, (abs_recv ids bc (abs_write ids [c] v)).2)) Ht3)
    as (b4 & E4 & Hi4).
  { apply abs_recv_nonempty, on_ids_nonempty, view_nonempty. }
  exists b4. split; [exact E4|done].
Qed.

Lemma word_lor lo hi : is_u8 lo -> is_u8 hi -> u16 (Z.lor lo (Z.shiftl hi 8)) = lo + 256 * hi.
Proof. unfold in_uw. intros Hl Hh. rewrite lor_byte by done. apply uwrap_id. lia. Qed.

Lemma read_word_ok c (r1 := abs_recv ids bc (abs_write ids [c] v)) (r2 := abs_recv ids bc r1.1) :
  is_u8 c -> 2 <= n -> exists b', smbus_read_word b addr c = Ok (b', r1.2 + 256 * r2.2)
  /\ bus_idle (n - 2) r2.1 b'.
Proof.
  intros Hc Hn. unfold smbus_read_word.
  set (rest := fun b => '(b, data) ← i2c_recv b; '(b, hi) ← i2c_recv b;
    let data := u16 (Z.lor data (Z.shiftl hi 8)) in
    b ← i2c_nack b; b ← i2c_end_transfer b; Ok (b, data)).
  destruct (start_send_byte n v b addr c (fun b => '(b, e) ← i2c_start_recv b addr;
     if negb (e =? 0) then b ← i2c_end_transfer b; Ok (b, -1) else rest b)
    (fun b => Ok (b, -1)) Hi Hne Hc) as (b1 & E1 & Ht).
  destruct (restart_read n v b1 addr ids c rest (fun b => b ← i2c_end_transfer b; Ok (b, -1))
    Ht Hne Hc) as (b2 & E2 & Ht2).
  unfold rest in E1, E2. rewrite E1, E2. clear rest E1 E2.
  pose proof (selected_answering v addr Hne) as Ha.
  destruct (recv_ok _ _ _ _ _ _ Ht2 Ha ltac:(lia)) as (b3 & -> & Ht3 & Hlo).
  cbn [mbind res_mbind res_bind].
  destruct (recv_ok _ _ _ _ _ _ Ht3 Ha ltac:(lia)) as (b4 & -> & Ht4 & Hhi).
  cbn [mbind res_mbind res_bind]. cbv zeta. rewrite word_lor by done.
  destruct (finish_read _ _ _ _ _ _ (fun b => Ok (b, r1.2 + 256 * r2.2)) Ht4) as (b5 & E5 & Hi5).
  { do 2 apply abs_recv_nonempty. apply on_ids_nonempty, view_nonempty. }
  exists b5. split; [exact E5|]. by replace (n - 2) with (n - 1 - 1) by lia.
Qed.

Lemma write_block_ok c data len (sl : bool) (k := Z.min len 32) : is_u8 c -> Forall is_u8 data ->
  0 <= len -> k <= Z.of_nat (length data) ->
  exists b', smbus_write_block b addr c data len sl = Ok (b', 0)
  /\ bus_idle n (abs_write ids (c :: (if sl then [k] else []) ++ take (Z.to_nat k) data) v) b'.
Proof.
  intros Hc Hd Hl Hn. unfold smbus_write_block.
  assert ((if 32 <? len then 32 else len) = k) as -> by (destruct (Z.ltb_spec 32 len); lia).
  assert (is_u8 k) as Hn8 by (unfold in_uw; lia). rewrite (uwrap_small 8 k Hn8).
  destruct (start_send_byte n v b addr c (fun b =>
      b ← (if sl then '(b, _) ← i2c_send b k; Ok b else Ok b);
      b ← send_loop b data 0 (Z.to_nat k); b ← i2c_end_transfer b; Ok (b, 0))
    (fun b => Ok (b, -1)) Hi Hne Hc) as (b1 & -> & Ht).
  assert (exists b2, (if sl then '(b, _) ← i2c_send b1 k; Ok b else Ok b1) = Ok b2
    /\ transfer n ids bc SMBUS_WRITE_DATA (c :: if sl then [k] else []) v b2) as (b2 & -> & Ht2).
  { destruct sl; [|by exists b1].
    destruct (send_ok _ _ _ k _ _ Ht Hn8 ltac:(cbn; lia)) as (b2 & -> & Ht2). by exists b2. }
  cbn [mbind res_mbind res_bind].
  destruct (send_loop_ok n (Z.to_nat k) 0 data _ _ _ _ _ Ht2 Hd) as (b3 & -> & Ht3);
    [lia|destruct sl; cbn; lia|].
  cbn [mbind res_mbind res_bind]. rewrite drop_0 in Ht3. cbn [app] in Ht3.
  destruct (finish_write _ _ _ _ _ _ Ht3 view_nonempty) as (b4 & -> & Hi4); [done| | |by exists b4].
  - cbn. rewrite length_app, length_take. destruct sl; cbn; lia.
  - apply Forall_cons_2; [done|]. apply Forall_app_2; [|by apply Forall_take].
    destruct sl; [by apply Forall_cons_2|done].
Qed.

(** The part of a block read after the bus has turned to receiving. *)
Lemma read_block_tail v' bs b1 data len (rl : bool)
    (r := if rl then abs_recv ids bc v' else (v', len)) (k := if len <? r.2 then 0 else r.2)
    (xs := abs_recvs (Z.to_nat k) ids bc r.1) :
  transfer n ids bc SMBUS_READ_DATA bs v' b1 -> v' <> [] -> 0 <= len <= Z.of_nat (length data) ->
  1 + len <= n ->
  exists b', ('(b, rlen) ← (if rl then i2c_recv b1 else Ok (b1, len));
      let rlen := if len <? rlen then 0 else rlen in
      '(b, data) ← recv_loop b data 0 (Z.to_nat rlen);
      b ← i2c_nack b; b ← i2c_end_transfer b; Ok (b, data, rlen))
    = Ok (b', overwrite data xs.2, k) /\ bus_idle (n - (1 + len)) xs.1 b'.
Proof.
  intros Ht Hv Hl Hn. pose proof (selected_answering v addr Hne) as Ha.
  assert (exists b2, (if rl then i2c_recv b1 else Ok (b1, len)) = Ok (b2, r.2)
    /\ transfer (n - 1) ids bc SMBUS_READ_DATA bs r.1 b2 /\ r.1 <> []) as (b2 & -> & Ht2 & Hv2).
  { unfold r. destruct rl; [|exists b1; split_and!; [done|eapply transfer_mono; [|done]; lia|done]].
    destruct (recv_ok _ _ _ _ _ _ Ht Ha ltac:(lia)) as (b2 & -> & Ht2 & _). exists b2.
    split_and!; [done..|]. by apply abs_recv_nonempty. }
  cbn [mbind res_mbind res_bind]. cbv zeta. fold k.
  assert (k <= len) by (unfold k; destruct (Z.ltb_spec len r.2); lia).
  destruct (recv_loop_ok (n - 1) (Z.to_nat k) 0 data _ _ _ _ _ Ht2 Ha) as (b3 & -> & Ht3); [lia..|].
  cbn [mbind res_mbind res_bind].
  destruct (finish_read _ _ _ _ _ _
    (fun b => Ok (b, take 0 data ++ overwrite (drop 0 data) xs.2, k)) Ht3) as (b4 & E4 & Hi4);
    [by apply abs_recvs_nonempty|].
  exists b4. split; [exact E4|]. eapply bus_idle_mono; [|exact Hi4]. lia.
Qed.

Lemma read_block_ok c data len rl (sc : bool) (v' := if sc then abs_write ids [c] v else v)
    (r := if rl : bool then abs_recv ids bc v' else (v', len))
    (k := if len <? r.2 then 0 else r.2) (xs := abs_recvs (Z.to_nat k) ids bc r.1) :
  is_u8 c -> 0 <= len <= Z.of_nat (length data) -> 1 + len <= n ->
  exists b', smbus_read_block b addr c data len rl sc = Ok (b', overwrite data xs.2, k)
  /\ bus_idle (n - (1 + len)) xs.1 b'.
Proof.
  intros Hc Hl Hn. unfold smbus_read_block.
  set (rest := fun b => '(b, rlen) ← (if rl then i2c_recv b else Ok (b, len));
      let rlen := if len <? rlen then 0 else rlen in
      '(b, data) ← recv_loop b data 0 (Z.to_nat rlen);
      b ← i2c_nack b; b ← i2c_end_transfer b; Ok (b, data, rlen)).
  destruct sc.
  - set (err := fun b => b ← i2c_end_transfer b; Ok (b, data, -1)).
    destruct (start_send_byte n v b addr c (fun b => '(b, e) ← i2c_start_recv b addr;
       if negb (e =? 0) then err b else rest b)
      (fun b => Ok (b, data, -1)) Hi Hne Hc) as (b1 & E1 & Ht).
    destruct (restart_read n v b1 addr ids c rest err Ht Hne Hc) as (b2 & E2 & Ht2).
    unfold rest, err in E1, E2. cbv zeta in E1, E2 |- *. rewrite E1, E2.
    apply (read_block_tail v' [c] b2 data len rl Ht2); [|done|done].
    apply on_ids_nonempty, view_nonempty.
  - destruct (start_idle v b addr I2C_START_RECV SMBUS_READ_DATA Hi Hne spec_start_recv)
      as (b1 & E1 & Ht). unfold i2c_start_recv. rewrite E1. cbn [mbind res_mbind res_bind].
    apply (read_block_tail v' [] b1 data len rl Ht); [apply view_nonempty|done|done].
Qed.

End Answered.

Lemma op_cost_nonneg data o : op_ok data o -> 0 <= op_cost o.
Proof. intros [_ Ho]. destruct o; cbn in *; lia. Qed.

(** One command on an idle bus. *)
Lemma run_op_refines n v b addr data o :
  bus_idle n v b -> op_ok data o -> op_cost o <= n ->
  exists b', run_op b addr data o
      = Ok (b', (abs_op addr data o v).1.2, (abs_op addr data o v).2)
    /\ bus_idle (n - op_cost o) (abs_op addr data o v).1.1 b'.
Proof.
  intros Hi [Hd Ho] Hn. unfold abs_op. case_decide as Hs.
  { destruct (run_op_nobody n v b addr data o Hi Hs) as (b' & -> & Hb). exists b'.
    split; [done|]. eapply bus_idle_mono; [|exact Hb].
    pose proof (op_cost_nonneg data o (conj Hd Ho)). lia. }
  destruct o as [rd| |x|c|c x|c|c x|c len rl sc|c len sl]; cbn [run_op op_cost] in *;
    rewrite ?Z.sub_0_r;
    [destruct (quick_ok n v b addr Hi Hs rd) as (b' & -> & Hb)
    |destruct (receive_byte_ok' n v b addr Hi Hs Hn) as (b' & -> & Hb)
    |destruct (send_byte_ok n v b addr Hi Hs x Ho) as (b' & -> & Hb)
    |destruct (read_byte_ok n v b addr Hi Hs c Ho Hn) as (b' & -> & Hb)
    |destruct (write_byte_ok n v b addr Hi Hs c x) as (b' & -> & Hb); [apply Ho..|]
    |destruct (read_word_ok n v b addr Hi Hs c Ho Hn) as (b' & -> & Hb)
    |destruct (write_word_ok n v b addr Hi Hs c x) as (b' & -> & Hb); [apply Ho..|]
    |destruct (read_block_ok n v b addr Hi Hs c data len rl sc) as (b' & -> & Hb);
       [apply Ho|apply Ho|done|]
    |destruct (write_block_ok n v b addr Hi Hs c data len sl) as (b' & -> & Hb);
       [apply Ho|done|apply Ho|apply Ho|]];
    by exists b'.
Qed.

(** Bytes read by the abstract machine are bytes. *)
Lemma abs_recv_wf n ids bc v : Forall (fun p => dev_wf n p.2) v -> 1 <= n ->
  Forall (fun p => dev_wf (n - 1) p.2) (abs_recv ids bc v).1 /\ is_u8 (abs_recv ids bc v).2.
Proof.
  intros Hv Hn.
  assert (Hm : Forall (fun p => dev_wf (n - 1) p.2) v).
  { eapply Forall_impl; [done|]. intros p. apply dev_wf_mono. lia. }
  unfold abs_recv. destruct ids as [|i [|j t]]; [done| |done].
  destruct (v !! i) as [[a d]|] eqn:E; [|done]. destruct bc; [done|].
  pose proof (Forall_lookup_1 _ _ _ _ Hv E) as Hd. cbn [fst snd] in *. split.
  - apply (on_ids_wf (n := n)); [lia| |done]. intros d' Hd'. by apply dev_recv_wf.
  - by apply (dev_recv_wf n).
Qed.

Lemma abs_recvs_wf k n ids bc v : Forall (fun p => dev_wf n p.2) v -> Z.of_nat k <= n ->
  Forall is_u8 (abs_recvs k ids bc v).2 /\ length (abs_recvs k ids bc v).2 = k.
Proof.
  revert n v. induction k as [|k IH]; intros n v Hv Hn; [done|]. cbn [abs_recvs].
  destruct (abs_recv_wf n ids bc v Hv) as [Hv1 Hx]; [lia|].
  destruct (abs_recv ids bc v) as [v1 x]. cbn [fst snd] in *.
  destruct (IH (n - 1) v1 Hv1) as [H1 H2]; [lia|].
  destruct (abs_recvs k ids bc v1) as [v2 xs]. cbn [fst snd] in *.
  split; [by apply Forall_cons_2|cbn; lia].
Qed.

(** The buffer of a block read keeps its length and holds bytes. *)
Lemma abs_op_data n addr data o v : Forall (fun p => dev_wf n p.2) v -> op_ok data o ->
  op_cost o <= n ->
  length (abs_op addr data o v).1.2 = length data /\ Forall is_u8 (abs_op addr data o v).1.2.
Proof.
  intros Hv [Hd Ho] Hn. unfold abs_op. case_decide; [done|].
  destruct o as [rd| |x|c|c x|c|c x|c len rl sc|c len sl]; try done.
  cbn [op_cost fst snd] in *. destruct Ho as [Hc Hl].
  set (ids := selected v addr). set (v1 := if sc then abs_write ids [c] v else v).
  assert (Hx1 : Forall (fun p => dev_wf n p.2) v1).
  { unfold v1. destruct sc; [|done]. apply (on_ids_wf (n := n)); [lia| |done].
    intros d Hdw. apply dev_write_wf; [done|cbn; lia|by apply Forall_cons_2]. }
  set (r := if rl : bool then abs_recv ids (addr =? 0) v1 else (v1, len)).
  assert (Hx2 : Forall (fun p => dev_wf (n - 1) p.2) r.1).
  { unfold r. destruct rl; [apply abs_recv_wf; [done|lia]|].
    eapply Forall_impl; [done|]. intros p. apply dev_wf_mono. lia. }
  set (k := if len <? r.2 then 0 else r.2).
  assert (k <= len) by (unfold k; destruct (Z.ltb_spec len r.2); lia).
  destruct (abs_recvs_wf (Z.to_nat k) (n - 1) ids (addr =? 0) r.1 Hx2) as [Hx3 Hx4]; [lia|].
  unfold overwrite. split.
  - rewrite length_app, length_drop. lia.
  - apply Forall_app_2; [done|]. by apply Forall_drop.
Qed.

(** A history of commands, each with its address and buffer, and their results. *)
Fixpoint run_ops (b : I2CBus D) (l : list (Z * list Z * master_op))
  : res (I2CBus D * list (list Z * Z)) :=
  match l with
  | [] => Ok (b, [])
  | (addr, data, o) :: l =>
      '(b, data, r) ← run_op b addr data o;
      '(b, rs) ← run_ops b l;
      Ok (b, (data, r) :: rs)
  end.

Fixpoint abs_ops (v : view D) (l : list (Z * list Z * master_op)) : view D * list (list Z * Z) :=
  match l with
  | [] => (v, [])
  | (addr, data, o) :: l =>
      let r := abs_op addr data o v in
      let rs := abs_ops r.1.1 l in
      (rs.1, (r.1.2, r.2) :: rs.2)
  end.

Definition ops_cost (l : list (Z * list Z * master_op)) : Z :=
  foldr (fun c t => op_cost c.2 + t) 0 l.

(** C12. Refinement of the SMBus host commands: from an idle bus, any sequence of
    commands to any addresses (the broadcast address 0 and addresses nobody answers
    included) runs without a fault, leaves the bus idle (no device stuck in or
    confused about a transfer), and gives the results, the data and the devices of
    the abstract machine, which only knows addresses and devices.  The bus is idle for
    [n] byte reads, the number that its devices are sound for, and the commands may not cost
    more: the SMC of the Xbox counts the reads of its version in an [int], whose overflow
    is a read outside of the version string, so that [n] is less than 2^31 there. *)
Theorem smbus_master_refines n v b l :
  bus_idle n v b -> Forall (fun c => op_ok c.1.2 c.2) l -> ops_cost l <= n ->
  exists b', run_ops b l = Ok (b', (abs_ops v l).2)
    /\ bus_idle (n - ops_cost l) (abs_ops v l).1 b'.
Proof.
  intros Hi Hl. revert n v b Hi.
  induction Hl as [|[[addr data] o] l Ho Hl IH]; intros n v b Hi Hn.
  { exists b. cbn. by rewrite Z.sub_0_r. }
  cbn [ops_cost foldr snd] in *. fold (ops_cost l) in *.
  assert (0 <= ops_cost l).
  { clear -Hl. induction Hl as [|c l Hc Hl IH]; [done|]. cbn. fold (ops_cost l).
    pose proof (op_cost_nonneg _ _ Hc). lia. }
  destruct (run_op_refines n v b addr data o Hi Ho) as (b1 & E & Hi1); [lia|].
  cbn [run_ops abs_ops]. rewrite E. cbn [mbind res_mbind res_bind].
  destruct (IH _ _ _ Hi1) as (b2 & -> & Hi2); [lia|]. exists b2. split; [done|].
  by replace (n - (op_cost o + ops_cost l)) with (n - op_cost o - ops_cost l) by lia.
Qed.

End Abstract.
End SmbusMaster.
