(* ===== verification/SmbusDevices.v ===== *)
(** * The devices on the Xbox SMBus (hw/xbox/smbus_*.c)

    The system management controller, the configuration EEPROM, the temperature
    sensor and the three video encoders, each with its C methods, its
    [SMBusDeviceClass] and the proof of its [SMBusDeviceLaws]. *)

From S2P Require Import Prelude SmbusSlave.
Import SmbusSlave SmbusDev.

(** ** System management controller (smbus_xbox_smc.c) *)
Module Smc.

Definition SMC_REG_VER : Z := 0x01.
Definition SMC_REG_POWER : Z := 0x02.
Definition SMC_REG_POWER_RESET : Z := 0x01.
Definition SMC_REG_POWER_CYCLE : Z := 0x40.
Definition SMC_REG_POWER_SHUTDOWN : Z := 0x80.
Definition SMC_REG_TRAYSTATE : Z := 0x03.
Definition SMC_REG_TRAYSTATE_OPEN : Z := 0x10.
Definition SMC_REG_TRAYSTATE_NO_MEDIA_DETECTED : Z := 0x40.
Definition SMC_REG_TRAYSTATE_MEDIA_DETECTED : Z := 0x60.
Definition SMC_REG_AVPACK : Z := 0x04.
Definition SMC_REG_AVPACK_SCART : Z := 0x00.
Definition SMC_REG_AVPACK_HDTV : Z := 0x01.
Definition SMC_REG_AVPACK_VGA : Z := 0x02.
Definition SMC_REG_AVPACK_RFU : Z := 0x03.
Definition SMC_REG_AVPACK_SVIDEO : Z := 0x04.
Definition SMC_REG_AVPACK_COMPOSITE : Z := 0x06.
Definition SMC_REG_AVPACK_NONE : Z := 0x07.
Definition SMC_REG_ERROR_WRITE : Z := 0x0e.
Definition SMC_REG_ERROR_READ : Z := 0x0f.
Definition SMC_REG_INTSTATUS : Z := 0x11.
Definition SMC_REG_INTSTATUS_POWER : Z := 0x01.
Definition SMC_REG_INTSTATUS_TRAYCLOSED : Z := 0x02.
Definition SMC_REG_INTSTATUS_TRAYOPENING : Z := 0x04.
Definition SMC_REG_INTSTATUS_EJECT_BUTTON : Z := 0x20.
Definition SMC_REG_SCRATCH : Z := 0x1b.
Definition SMC_REG_SCRATCH_SHORT_ANIMATION : Z := 0x04.
Definition SMC_VERSION_LENGTH : Z := 3.

(** What the controller asks of the rest of the machine, oldest first. *)
Inductive request : Set :=
| ResetRequest      (** [qemu_system_reset_request] *)
| ShutdownRequest   (** [qemu_system_shutdown_request] *)
| ExtSmi.           (** [acpi_send_event(ACPI_EXTSMI_STATUS)] *)

(** [version_string] holds the characters and the terminating 0; NULL is [None]. *)
Record SMBusSMCDevice := {
  version_string : option (list Z);
  version_string_index : Z;
  cmd : Z;
  traystate_reg : Z;
  avpack_reg : Z;
  intstatus_reg : Z;
  scratch_reg : Z;
  error_reg : Z;
  requests : list request
}.

Definition set_cmd (s : SMBusSMCDevice) (v : Z) : SMBusSMCDevice :=
  {| version_string := version_string s; version_string_index := version_string_index s;
     cmd := v; traystate_reg := traystate_reg s; avpack_reg := avpack_reg s;
     intstatus_reg := intstatus_reg s; scratch_reg := scratch_reg s; error_reg := error_reg s;
     requests := requests s |}.
Definition set_index (s : SMBusSMCDevice) (v : Z) : SMBusSMCDevice :=
  {| version_string := version_string s; version_string_index := v;
     cmd := cmd s; traystate_reg := traystate_reg s; avpack_reg := avpack_reg s;
     intstatus_reg := intstatus_reg s; scratch_reg := scratch_reg s; error_reg := error_reg s;
     requests := requests s |}.
Definition set_tray (s : SMBusSMCDevice) (v : Z) : SMBusSMCDevice :=
  {| version_string := version_string s; version_string_index := version_string_index s;
     cmd := cmd s; traystate_reg := v; avpack_reg := avpack_reg s;
     intstatus_reg := intstatus_reg s; scratch_reg := scratch_reg s; error_reg := error_reg s;
     requests := requests s |}.
Definition set_intstatus (s : SMBusSMCDevice) (v : Z) : SMBusSMCDevice :=
  {| version_string := version_string s; version_string_index := version_string_index s;
     cmd := cmd s; traystate_reg := traystate_reg s; avpack_reg := avpack_reg s;
     intstatus_reg := v; scratch_reg := scratch_reg s; error_reg := error_reg s;
     requests := requests s |}.
Definition set_scratch (s : SMBusSMCDevice) (v : Z) : SMBusSMCDevice :=
  {| version_string := version_string s; version_string_index := version_string_index s;
     cmd := cmd s; traystate_reg := traystate_reg s; avpack_reg := avpack_reg s;
     intstatus_reg := intstatus_reg s; scratch_reg := v; error_reg := error_reg s;
     requests := requests s |}.
Definition set_error (s : SMBusSMCDevice) (v : Z) : SMBusSMCDevice :=
  {| version_string := version_string s; version_string_index := version_string_index s;
     cmd := cmd s; traystate_reg := traystate_reg s; avpack_reg := avpack_reg s;
     intstatus_reg := intstatus_reg s; scratch_reg := scratch_reg s; error_reg := v;
     requests := requests s |}.
Definition request_of (s : SMBusSMCDevice) (r : request) : SMBusSMCDevice :=
  {| version_string := version_string s; version_string_index := version_string_index s;
     cmd := cmd s; traystate_reg := traystate_reg s; avpack_reg := avpack_reg s;
     intstatus_reg := intstatus_reg s; scratch_reg := scratch_reg s; error_reg := error_reg s;
     requests := requests s ++ [r] |}.

(** Only traces. *)
Definition smc_quick_cmd (smc : SMBusSMCDevice) (read : Z) : res SMBusSMCDevice := Ok smc.

Definition smc_write_data (smc : SMBusSMCDevice) (buf : list Z) (len : Z)
  : res (SMBusSMCDevice * Z) :=
  c ← buf_at buf 0;
  let smc := set_cmd smc c in
  let len := u8 (len - 1) in
  if len <? 1 then Ok (smc, 0)
  else
    b ← buf_at buf 1;
    let smc :=
      if c =? SMC_REG_VER then set_index smc b
      else if c =? SMC_REG_POWER then
        if tst b (Z.lor SMC_REG_POWER_RESET SMC_REG_POWER_CYCLE) then request_of smc ResetRequest
        else if tst b SMC_REG_POWER_SHUTDOWN then request_of smc ShutdownRequest
        else smc
      else if c =? SMC_REG_ERROR_WRITE then set_error smc b
      else if c =? SMC_REG_SCRATCH then set_scratch smc b
      else smc in
    Ok (smc, 0).

(** [version_string[version_string_index++ % SMC_VERSION_LENGTH]], with the sign of
    C's remainder. *)
Definition version_char (smc : SMBusSMCDevice) : res Z :=
  match version_string smc with
  | None => Fault OutOfBounds
  | Some vs =>
      let i := Z.rem (version_string_index smc) SMC_VERSION_LENGTH in
      if i <? 0 then Fault OutOfBounds else buf_at vs (Z.to_nat i)
  end.

Definition smc_receive_byte (smc : SMBusSMCDevice) : res (SMBusSMCDevice * Z) :=
  let c := cmd smc in
  let smc := set_cmd smc (u8 (c + 1)) in
  if c =? SMC_REG_VER then
    v ← version_char smc;
    Ok (set_index smc (s32 (version_string_index smc + 1)), u8 v)
  else if c =? SMC_REG_TRAYSTATE then Ok (smc, traystate_reg smc)
  else if c =? SMC_REG_SCRATCH then Ok (smc, scratch_reg smc)
  else if c =? SMC_REG_AVPACK then Ok (smc, avpack_reg smc)
  else if c =? SMC_REG_ERROR_READ then Ok (smc, error_reg smc)
  else if c =? SMC_REG_INTSTATUS then Ok (set_intstatus smc 0, intstatus_reg smc)
  else if c =? 0x1c then Ok (smc, 0x52)
  else if c =? 0x1d then Ok (smc, 0x72)
  else if c =? 0x1e then Ok (smc, 0xea)
  else if c =? 0x1f then Ok (smc, 0x46)
  else Ok (smc, 0).

Definition xbox_smc_avpack_to_reg (avpack : string) : option Z :=
  if decide (avpack = "composite"%string) then Some SMC_REG_AVPACK_COMPOSITE
  else if decide (avpack = "scart"%string) then Some SMC_REG_AVPACK_SCART
  else if decide (avpack = "svideo"%string) then Some SMC_REG_AVPACK_SVIDEO
  else if decide (avpack = "vga"%string) then Some SMC_REG_AVPACK_VGA
  else if decide (avpack = "rfu"%string) then Some SMC_REG_AVPACK_RFU
  else if decide (avpack = "hdtv"%string) then Some SMC_REG_AVPACK_HDTV
  else if decide (avpack = "none"%string) then Some SMC_REG_AVPACK_NONE
  else None.

(** [xbox_assert_extsmi] *)
Definition xbox_assert_extsmi (smc : SMBusSMCDevice) : SMBusSMCDevice := request_of smc ExtSmi.

Definition xbox_smc_power_button (smc : SMBusSMCDevice) : SMBusSMCDevice :=
  xbox_assert_extsmi
    (set_intstatus smc (Z.lor (intstatus_reg smc) SMC_REG_INTSTATUS_POWER)).

Definition xbox_smc_eject_button (smc : SMBusSMCDevice) : SMBusSMCDevice :=
  xbox_assert_extsmi
    (set_intstatus smc (Z.lor (intstatus_reg smc) SMC_REG_INTSTATUS_EJECT_BUTTON)).

(** The drive is there ([Some]), with its tray open or a medium in it. *)
Definition xbox_smc_update_tray_state (drive : option (bool * bool)) (smc : SMBusSMCDevice)
  : res SMBusSMCDevice :=
  match drive with
  | None => Fault AssertFail
  | Some (tray_open, has_medium) =>
      let smc :=
        if tray_open : bool then
          set_intstatus (set_tray smc SMC_REG_TRAYSTATE_OPEN)
            (Z.lor (intstatus_reg smc) SMC_REG_INTSTATUS_TRAYOPENING)
        else
          set_intstatus
            (set_tray smc (if has_medium : bool then SMC_REG_TRAYSTATE_MEDIA_DETECTED
                           else SMC_REG_TRAYSTATE_NO_MEDIA_DETECTED))
            (Z.lor (intstatus_reg smc) SMC_REG_INTSTATUS_TRAYCLOSED) in
      Ok (xbox_assert_extsmi smc)
  end.

(** Characters of a C string and its terminator. *)
Definition c_string (s : string) : list Z :=
  ((fun c => Z.of_nat (Ascii.nat_of_ascii c)) <$> String.list_ascii_of_string s) ++ [0].

(** The second component counts the errors reported through [errp]; reporting a
    second one trips the assertion of [error_setg]. *)
Definition smbus_smc_realize (short_animation : bool) (avpack smc_version : option string)
    (drive : option (bool * bool)) : res (SMBusSMCDevice * nat) :=
  let scratch := if short_animation then SMC_REG_SCRATCH_SHORT_ANIMATION else 0 in
  let '(avreg, err) :=
    match avpack with
    | None => (0, 0%nat)
    | Some a => match xbox_smc_avpack_to_reg a with
                | Some r => (r, 0%nat)
                | None => (0, 1%nat)
                end
    end in
  '(vs, err) ← match smc_version with
    | None => Ok (None, err)
    | Some v =>
        if Z.of_nat (String.length v) =? SMC_VERSION_LENGTH then Ok (Some (c_string v), err)
        else if decide (err = 0%nat) then Ok (Some (c_string v), 1%nat) else Fault AssertFail
    end;
  smc ← xbox_smc_update_tray_state drive
    {| version_string := vs; version_string_index := 0; cmd := 0; traystate_reg := 0;
       avpack_reg := avreg; intstatus_reg := 0; scratch_reg := scratch; error_reg := 0;
       requests := [] |};
  Ok (smc, err).

#[global] Instance smc_class : SMBusDeviceClass SMBusSMCDevice := {
  quick_cmd smc := Some (smc_quick_cmd smc);
  write_data smc := Some (smc_write_data smc);
  receive_byte smc := Some (smc_receive_byte smc)
}.

(** ** Invariant *)

Record smc_wf (n : Z) (s : SMBusSMCDevice) : Prop := {
  sw_version : exists vs, version_string s = Some vs /\ (3 <= length vs)%nat /\ Forall is_u8 vs;
  sw_index : 0 <= version_string_index s;
  sw_budget : version_string_index s + n <= 2 ^ 31 - 1;
  sw_restart : 255 + n <= 2 ^ 31 - 1;
  sw_cmd : is_u8 (cmd s);
  sw_tray : is_u8 (traystate_reg s);
  sw_avpack : is_u8 (avpack_reg s);
  sw_intstatus : is_u8 (intstatus_reg s);
  sw_scratch : is_u8 (scratch_reg s);
  sw_error : is_u8 (error_reg s)
}.

Lemma version_char_ok n s : smc_wf n s ->
  exists v, version_char s = Ok v /\ is_u8 v.
Proof.
  intros [(vs & Ev & Hl & Hvs) Hi _ _ _ _ _ _ _ _]. unfold version_char. rewrite Ev.
  rewrite Z.rem_mod_nonneg by (done || lia).
  pose proof (Z.mod_pos_bound (version_string_index s) SMC_VERSION_LENGTH ltac:(done)) as Hm.
  set (i := _ mod _) in *. unfold SMC_VERSION_LENGTH in Hm.
  destruct (Z.ltb_spec i 0); [lia|].
  destruct (buf_at_u8 vs (Z.to_nat i)) as (v & -> & _ & Hv); [done|lia|eauto].
Qed.

Lemma smc_receive_ok n s : smc_wf n s -> 1 <= n ->
  exists s' v, smc_receive_byte s = Ok (s', v) /\ smc_wf (n - 1) s' /\ is_u8 v.
Proof.
  intros Hs Hn. unfold smc_receive_byte. destruct Hs.
  pose proof (uwrap_range 8 (cmd s + 1) ltac:(lia)) as Hc.
  assert (Hw : smc_wf n (set_cmd s (u8 (cmd s + 1)))) by (by constructor).
  destruct (version_char_ok n _ Hw) as (v & E & Hv).
  destruct (cmd s =? SMC_REG_VER).
  { rewrite E. cbn. do 2 eexists. split; [done|]. rewrite (swrap_small 32) by lia.
    split; [|apply uwrap_range; lia]. constructor; cbn; done || lia. }
  repeat case_match; do 2 eexists; (split; [done|]);
    (split; [constructor; cbn; done || lia|done]).
Qed.

Lemma smc_write_ok n s buf len : smc_wf n s -> 1 <= len <= 34 -> length buf = 34%nat ->
  Forall is_u8 buf -> exists s' r, smc_write_data s buf len = Ok (s', r) /\ smc_wf n s'.
Proof.
  intros Hs Hl Hb Hby. unfold smc_write_data.
  destruct (buf_at_u8 buf 0 Hby) as (c & -> & _ & Hc); [lia|].
  destruct (buf_at_u8 buf 1 Hby) as (b & -> & _ & Hx); [lia|]. cbn.
  destruct Hs. unfold in_uw in *. change (2 ^ 8) with 256 in *.
  repeat case_match; do 2 eexists; (split; [done|]); constructor; cbn; done || lia.
Qed.

(** A prefix decides what is read from it. *)
Lemma buf_at_take buf buf' k i : take k buf = take k buf' -> (i < k)%nat ->
  buf_at buf i = buf_at buf' i.
Proof.
  intros E Hi. unfold buf_at. by rewrite <- (lookup_take_lt buf k), E, lookup_take_lt.
Qed.

Lemma smc_write_ext s buf buf' len : 1 <= len <= 34 ->
  take (Z.to_nat len) buf = take (Z.to_nat len) buf' ->
  smc_write_data s buf len = smc_write_data s buf' len.
Proof.
  intros Hl E. unfold smc_write_data. rewrite (buf_at_take _ _ _ 0 E) by lia.
  destruct (buf_at buf' 0) as [c|]; [cbn|done]. rewrite (uwrap_id 8) by lia.
  destruct (Z.ltb_spec (len - 1) 1); [done|]. by rewrite (buf_at_take _ _ _ 1 E) by lia.
Qed.

#[global] Instance smc_laws : SMBusDeviceLaws SMBusSMCDevice.
Proof.
  refine {| dev_wf := smc_wf |}.
  - intros m n d Hm []. constructor; done || lia.
  - intros n d f r Hd [= <-]. by exists d.
  - intros n d f buf len Hd [= <-]. by apply smc_write_ok.
  - intros d f buf buf' len [= <-] Hl _ _. by apply smc_write_ext.
  - intros n d r Hd Hn [= <-]. by apply smc_receive_ok.
Defined.

(** ** Interrupt status *)

(** Front panel events. *)
Inductive panel : Set := PowerButton | EjectButton | Tray (is_open has_medium : bool).

Definition press (s : SMBusSMCDevice) (e : panel) : res SMBusSMCDevice :=
  match e with
  | PowerButton => Ok (xbox_smc_power_button s)
  | EjectButton => Ok (xbox_smc_eject_button s)
  | Tray o m => xbox_smc_update_tray_state (Some (o, m)) s
  end.

Definition panel_bit (e : panel) : Z :=
  match e with
  | PowerButton => 0x01
  | EjectButton => 0x20
  | Tray true _ => 0x04
  | Tray false _ => 0x02
  end.

Lemma press_ok s e : exists s', press s e = Ok s'
  /\ intstatus_reg s' = Z.lor (intstatus_reg s) (panel_bit e)
  /\ requests s' = requests s ++ [ExtSmi].
Proof. destruct e as [| |[] m]; eexists; (split; [done|]); done. Qed.

Lemma presses_ok l s : exists s', res_foldl press s l = Ok s'
  /\ intstatus_reg s' = foldl (fun a e => Z.lor a (panel_bit e)) (intstatus_reg s) l
  /\ requests s' = requests s ++ replicate (length l) ExtSmi.
Proof.
  revert s. induction l as [|e l IH]; intros s.
  { exists s. cbn. by rewrite app_nil_r. }
  destruct (press_ok s e) as (s1 & E & Hi & Hr). destruct (IH s1) as (s2 & E2 & Hi2 & Hr2).
  exists s2. cbn. rewrite E. split; [done|]. rewrite Hi2, Hr2, Hi, Hr, <- app_assoc. done.
Qed.

(** C30. Front panel events are not lost: after any sequence of button presses and
    tray movements, reading the interrupt status register (command 0x11 and one
    byte) returns the union of what was pending and of the events, one external
    SMI was raised for each, and the register reads 0 the next time. *)
Theorem smc_intstatus_read s l :
  exists s1 s2 s3 s4 v,
    res_foldl press s l = Ok s1
    /\ requests s1 = requests s ++ replicate (length l) ExtSmi
    /\ smc_write_data s1 (pad [SMC_REG_INTSTATUS]) 1 = Ok (s2, 0)
    /\ smc_receive_byte s2 = Ok (s3, v)
    /\ v = foldl (fun a e => Z.lor a (panel_bit e)) (intstatus_reg s) l
    /\ smc_write_data s3 (pad [SMC_REG_INTSTATUS]) 1 = Ok (s4, 0)
    /\ exists s5, smc_receive_byte s4 = Ok (s5, 0).
Proof.
  destruct (presses_ok l s) as (s1 & E & Hi & Hr).
  exists s1, (set_cmd s1 0x11), (set_intstatus (set_cmd s1 0x12) 0),
    (set_cmd (set_intstatus (set_cmd s1 0x12) 0) 0x11), (intstatus_reg s1).
  split_and!; try done. by eexists.
Qed.

End Smc.

(** ** Storage: the configuration EEPROM (smbus_storage.c) *)
Module Storage.

(** [file] is the backing file's contents; [host] says what the host does with the
    next write: the file cannot be opened, or so many bytes reach it. *)
Record SMBusStorageDevice := {
  file : option (list Z);
  data : list Z;
  size : Z;
  addr : Z;
  offset : Z;
  persist : bool;
  host : option Z
}.

Definition set_offset (s : SMBusStorageDevice) (o : Z) : SMBusStorageDevice :=
  {| file := file s; data := data s; size := size s; addr := addr s; offset := o;
     persist := persist s; host := host s |}.
Definition set_data (s : SMBusStorageDevice) (d : list Z) (o : Z) : SMBusStorageDevice :=
  {| file := file s; data := d; size := size s; addr := addr s; offset := o;
     persist := persist s; host := host s |}.
Definition set_file (s : SMBusStorageDevice) (f : list Z) : SMBusStorageDevice :=
  {| file := Some f; data := data s; size := size s; addr := addr s; offset := offset s;
     persist := persist s; host := host s |}.

Inductive realize_error : Set := SizeMismatch | OpenFailed | ReadFailed | FileUnspecified.

(** The file is given by what [get_image_size], [qemu_open] and [read] return. *)
Definition smbus_storage_realize (sz a : Z) (pers : bool) (h : option Z)
    (f : option (Z * bool * list Z)) : SMBusStorageDevice * option realize_error :=
  let s := {| file := None; data := replicate (Z.to_nat sz) 0; size := sz; addr := a;
              offset := 0; persist := pers; host := h |} in
  match f with
  | None => (s, Some FileUnspecified)
  | Some (image_size, opened, contents) =>
      let s := set_file s contents in
      if negb (image_size =? sz) then (s, Some SizeMismatch)
      else if negb opened then (s, Some OpenFailed)
      else
        let got := take (Z.to_nat sz) contents in
        let s := set_data s (got ++ drop (length got) (data s)) 0 in
        if negb (Z.of_nat (length got) =? sz) then (s, Some ReadFailed) else (s, None)
  end.

(** [for (; len > 0; len--) { data[offset] = *buf++; offset = (offset + 1) % size; }] *)
Fixpoint store_loop (n : nat) (s : SMBusStorageDevice) (buf : list Z) (i : nat)
  : res SMBusStorageDevice :=
  match n with
  | O => Ok s
  | S n =>
      v ← buf_at buf i;
      d ← buf_set (data s) (Z.to_nat (offset s)) v;
      if size s =? 0 then Fault DivByZero
      else store_loop n (set_data s d (u32 (offset s + 1) mod size s)) buf (S i)
  end.

Definition smbus_storage_write_data (s : SMBusStorageDevice) (buf : list Z) (len : Z)
  : res (SMBusStorageDevice * Z) :=
  o ← buf_at buf 0;
  let s := set_offset s o in
  let len := u8 (len - 1) in
  s ← store_loop (Z.to_nat len) s buf 1;
  let changed := 0 <? len in
  match file s with
  | Some f =>
      if changed && persist s then
        match host s with
        | None => Ok (s, -1)
        | Some wc =>
            let s := set_file s (take (Z.to_nat wc) (data s) ++ drop (Z.to_nat wc) f) in
            if negb (wc =? size s) then Ok (s, -1) else Ok (s, 0)
        end
      else Ok (s, 0)
  | None => Ok (s, 0)
  end.

Definition smbus_storage_receive_byte (s : SMBusStorageDevice) : res (SMBusStorageDevice * Z) :=
  v ← buf_at (data s) (Z.to_nat (offset s));
  if size s =? 0 then Fault DivByZero
  else Ok (set_offset s (u32 (offset s + 1) mod size s), v).

(** No [quick_cmd]. *)
#[global] Instance storage_class : SMBusDeviceClass SMBusStorageDevice := {
  quick_cmd _ := None;
  write_data s := Some (smbus_storage_write_data s);
  receive_byte s := Some (smbus_storage_receive_byte s)
}.

(** ** Invariant *)

(** The data block and the bounds of the C object; [offset] is only known to be in
    range when [size] is at least 256, the range of the command byte. *)
Record storage_wf (s : SMBusStorageDevice) : Prop := {
  tw_size : 256 <= size s < 2 ^ 32;
  tw_length : Z.of_nat (length (data s)) = size s;
  tw_bytes : Forall is_u8 (data s);
  tw_offset : 0 <= offset s < size s
}.

(** What a loop of [n] stores from [offset] leaves: the bytes, wrapped around. *)
Lemma store_loop_ok n s buf i : 0 < size s < 2 ^ 32 -> Z.of_nat (length (data s)) = size s ->
  0 <= offset s < size s -> (i + n <= length buf)%nat -> Z.of_nat n <= size s ->
  exists s', store_loop n s buf i = Ok s'
    /\ s' = set_data s (data s') ((offset s + Z.of_nat n) mod size s)
    /\ length (data s') = length (data s)
    /\ (forall j, (j < n)%nat ->
          data s' !! Z.to_nat ((offset s + Z.of_nat j) mod size s) = buf !! (i + j)%nat)
    /\ (forall k, (forall j, (j < n)%nat -> k <> Z.to_nat ((offset s + Z.of_nat j) mod size s)) ->
          data s' !! k = data s !! k).
Proof.
  revert s i. induction n as [|n IH]; intros s i Hsz Hlen Ho Hb Hn.
  { exists s. split_and!; try done; [|lia]. cbn. rewrite Z.add_0_r, Z.mod_small by lia.
    by destruct s. }
  destruct (lookup_lt_is_Some_2 buf i ltac:(lia)) as [v Hv]. cbn [store_loop].
  unfold buf_at. rewrite Hv. cbn [mbind res_mbind res_bind].
  rewrite buf_set_ok by lia. cbn [mbind res_mbind res_bind].
  destruct (Z.eqb_spec (size s) 0); [lia|]. rewrite (uwrap_id 32) by lia.
  set (s1 := set_data s _ _).
  assert (Ho1 : offset s1 = (offset s + 1) mod size s) by done.
  assert (Hm : forall j, (offset s1 + Z.of_nat j) mod size s = (offset s + Z.of_nat (S j)) mod size s).
  { intros j. rewrite Ho1, Zplus_mod_idemp_l. f_equal. lia. }
  destruct (IH s1 (S i)) as (s' & E & Es & Hl & Hin & Hout).
  { done. } { cbn. rewrite length_insert. lia. } { rewrite Ho1. apply Z.mod_pos_bound. cbn. lia. }
  { lia. } { cbn. lia. }
  change (size s1) with (size s) in *.
  assert (H0 : Z.to_nat ((offset s + Z.of_nat 0) mod size s) = Z.to_nat (offset s)).
  { rewrite Z.add_0_r, Z.mod_small by lia. done. }
  assert (Hfirst : data s' !! Z.to_nat (offset s) = Some v).
  { rewrite Hout; [by apply list_lookup_insert_eq; lia|]. intros j Hj. rewrite Hm.
    intros E1. apply Z2Nat.inj in E1; [|lia|apply Z.mod_pos_bound; lia].
    destruct (Z_lt_le_dec (offset s + Z.of_nat (S j)) (size s)).
    - rewrite Z.mod_small in E1 by lia. lia.
    - rewrite <- (Z.mod_unique _ (size s) 1 (offset s + Z.of_nat (S j) - size s)) in E1 by lia. lia. }
  exists s'. split_and!.
  - done.
  - rewrite Es, Hm. by destruct s.
  - rewrite Hl. cbn. by rewrite length_insert.
  - intros [|j] Hj; [by rewrite H0, Hfirst, Nat.add_0_r|].
    rewrite <- Hm, Hin by lia. f_equal. lia.
  - intros k Hk. rewrite Hout.
    + cbn. apply list_lookup_insert_ne. intros <-. apply (Hk 0%nat); [lia|done].
    + intros j Hj. rewrite Hm. apply Hk. lia.
Qed.

Lemma store_loop_bytes n s buf i s' : Forall is_u8 buf -> Forall is_u8 (data s) ->
  store_loop n s buf i = Ok s' -> Forall is_u8 (data s').
Proof.
  intros Hb. revert s i. induction n as [|n IH]; intros s i Hd; [by intros [= <-]|].
  cbn [store_loop]. intros (v & Ev & (d & Ed & E)%res_bind_Ok)%res_bind_Ok.
  destruct (size s =? 0); [done|]. apply IH in E; [done|]. cbn.
  unfold buf_set in Ed. case_decide; [|done]. injection Ed as <-.
  unfold buf_at in Ev. destruct (buf !! i) eqn:Ei; [|done]. injection Ev as <-.
  apply Forall_insert; [done|]. exact (Forall_lookup_1 _ _ _ _ Hb Ei).
Qed.

(** The write to the backing file only touches [file]. *)
Lemma write_data_run s buf len s1 : 1 <= len <= 34 -> (34 <= length buf)%nat ->
  (exists o, buf !! 0%nat = Some o /\
     store_loop (Z.to_nat (len - 1)) (set_offset s o) buf 1 = Ok s1) ->
  exists s' r, smbus_storage_write_data s buf len = Ok (s', r)
    /\ data s' = data s1 /\ size s' = size s1 /\ offset s' = offset s1
    /\ persist s' = persist s1 /\ addr s' = addr s1 /\ host s' = host s1
    /\ file s' = (if decide (2 <= len /\ persist s1 = true) then
                    match file s1, host s1 with
                    | Some f, Some wc => Some (take (Z.to_nat wc) (data s1) ++ drop (Z.to_nat wc) f)
                    | f, _ => f
                    end else file s1).
Proof.
  intros Hl Hb (o & Ho & E). unfold smbus_storage_write_data, buf_at. rewrite Ho.
  cbn [mbind res_mbind res_bind]. rewrite (uwrap_id 8 (len - 1)), E by lia.
  cbn [mbind res_mbind res_bind].
  destruct (file s1) as [f|] eqn:Ef.
  - destruct (Z.ltb_spec 0 (len - 1)), (persist s1) eqn:Ep; cbn [andb].
    + rewrite decide_True by (split; [lia|done]). destruct (host s1) as [wc|] eqn:Eh.
      * destruct (negb _); do 2 eexists; (split; [done|]); cbn; by rewrite Ep, Eh.
      * do 2 eexists; split; [done|]. by rewrite Ef, Ep, Eh.
    + rewrite decide_False by (intros [_ ?]; done). do 2 eexists; split; [done|]. by rewrite Ef, Ep.
    + rewrite decide_False by lia. do 2 eexists; split; [done|]. by rewrite Ef, Ep.
    + rewrite decide_False by lia. do 2 eexists; split; [done|]. by rewrite Ef, Ep.
  - do 2 eexists; split; [done|]. rewrite Ef. split_and!; try done. by case_decide.
Qed.

Lemma storage_write_ok s buf len : storage_wf s -> 1 <= len <= 34 -> length buf = 34%nat ->
  Forall is_u8 buf ->
  exists s' r, smbus_storage_write_data s buf len = Ok (s', r) /\ storage_wf s'.
Proof.
  intros [Hsz Hlen Hby Ho] Hl Hb Hbuf.
  destruct (buf_at_u8 buf 0 Hbuf) as (o & _ & Eo & Hou); [lia|].
  destruct (store_loop_ok (Z.to_nat (len - 1)) (set_offset s o) buf 1)
    as (s1 & E & Es & Hl1 & Hin & Hout); [cbn; unfold in_uw in Hou; lia..|].
  destruct (write_data_run s buf len s1) as (s' & r & E' & Hd & Hsz' & Ho' & _); [done|lia|eauto|].
  exists s', r. split; [done|]. rewrite Es in Hsz', Ho'. cbn in Hsz', Ho', Hl1.
  constructor; rewrite ?Hsz', ?Hd; try done; try lia.
  - exact (store_loop_bytes _ (set_offset s o) _ _ _ Hbuf Hby E).
  - rewrite Ho'. apply Z.mod_pos_bound. lia.
Qed.

Lemma storage_receive_ok s : storage_wf s -> exists s' v,
  smbus_storage_receive_byte s = Ok (s', v) /\ storage_wf s' /\ is_u8 v
  /\ data s !! Z.to_nat (offset s) = Some v
  /\ s' = set_offset s ((offset s + 1) mod size s).
Proof.
  intros [Hsz Hlen Hby Ho]. unfold smbus_storage_receive_byte.
  destruct (buf_at_u8 (data s) (Z.to_nat (offset s)) Hby) as (v & -> & Ev & Hv); [lia|].
  cbn [mbind res_mbind res_bind]. destruct (Z.eqb_spec (size s) 0); [lia|].
  rewrite (uwrap_id 32) by lia. do 2 eexists. split; [done|]. split_and!; try done.
  constructor; try done. apply Z.mod_pos_bound. cbn. lia.
Qed.

Lemma store_loop_ext n s buf buf' i k : take k buf = take k buf' -> (i + n <= k)%nat ->
  store_loop n s buf i = store_loop n s buf' i.
Proof.
  intros E. revert s i. induction n as [|n IH]; intros s i Hn; [done|]. cbn [store_loop].
  rewrite (Smc.buf_at_take _ _ _ i E) by lia.
  destruct (buf_at buf' i); [cbn [mbind res_mbind res_bind]|done].
  destruct (buf_set _ _ _); [cbn [mbind res_mbind res_bind]|done].
  destruct (size s =? 0); [done|]. apply IH. lia.
Qed.

Lemma storage_write_ext s buf buf' len : 1 <= len <= 34 ->
  take (Z.to_nat len) buf = take (Z.to_nat len) buf' ->
  smbus_storage_write_data s buf len = smbus_storage_write_data s buf' len.
Proof.
  intros Hl E. unfold smbus_storage_write_data. rewrite (Smc.buf_at_take _ _ _ 0 E) by lia.
  destruct (buf_at buf' 0) as [o|]; [cbn [mbind res_mbind res_bind]|done].
  rewrite (uwrap_id 8) by lia. by rewrite (store_loop_ext _ _ _ _ 1 _ E) by lia.
Qed.

#[global] Instance storage_laws : SMBusDeviceLaws SMBusStorageDevice.
Proof.
  refine {| dev_wf := fun _ => storage_wf |}.
  - done.
  - done.
  - intros n d f buf len Hd [= <-]. by apply storage_write_ok.
  - intros d f buf buf' len [= <-] Hl _ _. by apply storage_write_ext.
  - intros n d r Hd _ [= <-]. destruct (storage_receive_ok d Hd) as (d' & v & E & Hw & Hv & _).
    eauto.
Defined.

(** ** Contents *)

(** Read [n] bytes one after the other. *)
Fixpoint read_bytes (n : nat) (s : SMBusStorageDevice) : res (SMBusStorageDevice * list Z) :=
  match n with
  | O => Ok (s, [])
  | S n =>
      '(s, v) ← smbus_storage_receive_byte s;
      '(s, vs) ← read_bytes n s;
      Ok (s, v :: vs)
  end.

Lemma read_bytes_ok s bs : storage_wf s ->
  (forall j v, bs !! j = Some v ->
     data s !! Z.to_nat ((offset s + Z.of_nat j) mod size s) = Some v) ->
  exists s', read_bytes (length bs) s = Ok (s', bs).
Proof.
  revert s. induction bs as [|b bs IH]; intros s Hw Hd; [by exists s|].
  destruct (storage_receive_ok s Hw) as (s1 & v & E & Hw1 & _ & Ev & Es).
  pose proof (Hd 0%nat b eq_refl) as H0. destruct Hw as [Hsz _ _ Ho].
  rewrite Z.add_0_r, Z.mod_small in H0 by lia. rewrite Ev in H0. injection H0 as ->.
  cbn [length read_bytes]. rewrite E. cbn [mbind res_mbind res_bind].
  destruct (IH s1 Hw1) as (s2 & E2).
  - intros j w Hj. rewrite Es. cbn. rewrite Zplus_mod_idemp_l.
    replace (offset s + 1 + Z.of_nat j) with (offset s + Z.of_nat (S j)) by lia. by apply Hd.
  - rewrite E2. by eexists.
Qed.

Lemma pad_length bs : (length bs <= 34)%nat -> length (pad bs) = 34%nat.
Proof. intros. unfold pad. rewrite length_app, length_replicate. lia. Qed.

(** A write of the bytes [bs] at [a], in terms of the store loop. *)
Lemma storage_write_effect s a bs :
  storage_wf s -> is_u8 a -> Forall is_u8 bs -> (length bs <= 33)%nat ->
  exists s1 r,
    smbus_storage_write_data s (pad (a :: bs)) (Z.of_nat (length (a :: bs))) = Ok (s1, r)
    /\ storage_wf s1 /\ size s1 = size s /\ length (data s1) = length (data s)
    /\ (forall j v, bs !! j = Some v ->
         data s1 !! Z.to_nat ((a + Z.of_nat j) mod size s) = Some v)
    /\ (forall k, (forall j, (j < length bs)%nat -> k <> Z.to_nat ((a + Z.of_nat j) mod size s)) ->
         data s1 !! k = data s !! k)
    /\ (bs <> [] -> persist s = true -> host s = Some (size s) ->
         forall f, file s = Some f -> Z.of_nat (length f) = size s -> file s1 = Some (data s1)).
Proof.
  intros Hw Ha Hbs Hl. pose proof Hw as [Hsz Hlen Hby Ho]. unfold in_uw in Ha.
  assert (Hp : length (pad (a :: bs)) = 34%nat) by (apply pad_length; cbn; lia).
  assert (Hpu : Forall is_u8 (pad (a :: bs))).
  { unfold pad. apply Forall_app_2; [by apply Forall_cons_2|]. by apply Forall_replicate. }
  destruct (storage_write_ok s (pad (a :: bs)) (Z.of_nat (length (a :: bs))) Hw)
    as (s1 & r & E1 & Hw1); [cbn; lia|done|done|].
  destruct (store_loop_ok (length bs) (set_offset s a) (pad (a :: bs)) 1)
    as (t & Et & Es & Hlt & Hin & Hout); [cbn; lia|done|cbn; lia|rewrite Hp; lia|cbn; lia|].
  destruct (write_data_run s (pad (a :: bs)) (Z.of_nat (length (a :: bs))) t)
    as (s1' & r' & E1' & Hd & Hsz' & _ & _ & _ & _ & Hf); [cbn; lia|lia| |].
  { exists a. split; [done|]. replace (Z.to_nat _) with (length bs) by (cbn; lia). exact Et. }
  rewrite E1 in E1'. injection E1' as <- <-. rewrite Es in Hsz'. cbn in Hsz', Hin, Hout, Hlt.
  exists s1, r. split_and!; try done; rewrite ?Hd; try done.
  - intros j v Hj. rewrite Hin by (by eapply lookup_lt_Some). unfold pad. cbn.
    by rewrite (lookup_app_l_Some _ _ _ _ Hj).
  - intros Hne Hper Hhost f Hfile Hflen.
    rewrite Hf, Es. cbn [persist file host set_data set_offset data].
    rewrite Hfile, Hhost, decide_True.
    + rewrite take_ge by lia. by rewrite drop_ge, app_nil_r by lia.
    + split; [|done]. destruct bs; [done|cbn; lia].
Qed.

(** Reading back from where a write started. *)
Lemma storage_read_back s a bs :
  storage_wf s -> is_u8 a ->
  (forall j v, bs !! j = Some v -> data s !! Z.to_nat ((a + Z.of_nat j) mod size s) = Some v) ->
  smbus_storage_write_data s (pad [a]) 1 = Ok (set_offset s a, 0)
  /\ exists s', read_bytes (length bs) (set_offset s a) = Ok (s', bs).
Proof.
  intros Hw Ha Hd. unfold in_uw in Ha. split.
  - unfold smbus_storage_write_data. change (u8 (1 - 1)) with 0.
    change (Z.to_nat 0) with 0%nat. cbn. by destruct (file s).
  - apply read_bytes_ok; [|done]. destruct Hw. constructor; try done. cbn. lia.
Qed.

(** C29. What is written to the EEPROM is what is read back: after a block of up to
    33 bytes [bs] was written at offset [a], setting the offset to [a] again and
    reading returns [bs], wrapping around at the end of the device; no other byte
    changed; and if the device persists and the host took the whole write, the
    backing file holds the device's new contents. *)
Theorem storage_write_read s a bs :
  storage_wf s -> is_u8 a -> Forall is_u8 bs -> (1 <= length bs <= 33)%nat ->
  exists s1 r s2 s3,
    smbus_storage_write_data s (pad (a :: bs)) (Z.of_nat (length (a :: bs))) = Ok (s1, r)
    /\ smbus_storage_write_data s1 (pad [a]) 1 = Ok (s2, 0)
    /\ read_bytes (length bs) s2 = Ok (s3, bs)
    /\ (forall k, (forall j, (j < length bs)%nat -> k <> Z.to_nat ((a + Z.of_nat j) mod size s)) ->
         data s1 !! k = data s !! k)
    /\ (forall f, persist s = true -> file s = Some f -> host s = Some (size s) ->
         Z.of_nat (length f) = size s -> file s1 = Some (data s1)).
Proof.
  intros Hw Ha Hbs Hl.
  destruct (storage_write_effect s a bs Hw Ha Hbs) as (s1 & r & E1 & Hw1 & Hsz & _ & Hin & Hout & Hf);
    [lia|].
  destruct (storage_read_back s1 a bs Hw1 Ha) as (E2 & s3 & E3).
  { intros j v Hj. rewrite Hsz. by apply Hin. }
  exists s1, r, (set_offset s1 a), s3. split_and!; try done.
  intros f Hper Hfile Hhost Hflen. apply (Hf ltac:(destruct bs; [cbn in Hl; lia|done]) Hper Hhost f);
    done.
Qed.

(** A device as realized from a file of 256 bytes, on a host that takes writes. *)
Definition sample_eeprom : SMBusStorageDevice :=
  (smbus_storage_realize 256 0x54 true (Some 256) (Some (256, true, replicate 256 0))).1.

Lemma sample_eeprom_wf : storage_wf sample_eeprom.
Proof.
  constructor; [done|done| |done].
  replace (data sample_eeprom) with (replicate 256 0) by done. by apply Forall_replicate.
Qed.

Lemma storage_write_read_witness :
  exists s1 r s2 s3,
    smbus_storage_write_data sample_eeprom (pad [255; 7; 9]) 3 = Ok (s1, r)
    /\ smbus_storage_write_data s1 (pad [255]) 1 = Ok (s2, 0)
    /\ read_bytes 2 s2 = Ok (s3, [7; 9]).
Proof.
  destruct (storage_write_read sample_eeprom 255 [7; 9]) as (s1 & r & s2 & s3 & E1 & E2 & E3 & _).
  - apply sample_eeprom_wf.
  - done.
  - by repeat (apply Forall_cons_2; [done|]).
  - cbn. lia.
  - by exists s1, r, s2, s3.
Defined.

(** C40. The command byte is not reduced modulo the [size] property: on a device
    smaller than 256 bytes a write whose command byte is inside the device
    succeeds, and one whose command byte is not stores past the end of the block. *)
Theorem storage_small_device s a v :
  0 < size s < 2 ^ 32 -> Z.of_nat (length (data s)) = size s -> is_u8 a -> is_u8 v ->
  (a < size s -> exists s' r, smbus_storage_write_data s (pad [a; v]) 2 = Ok (s', r)
                              /\ data s' !! Z.to_nat a = Some v)
  /\ (size s <= a -> smbus_storage_write_data s (pad [a; v]) 2 = Fault OutOfBounds).
Proof.
  intros Hsz Hlen Ha Hv. unfold in_uw in Ha. split; intros Hlt.
  - destruct (store_loop_ok 1 (set_offset s a) (pad [a; v]) 1) as (t & Et & Es & Hlt1 & Hin & _);
      [cbn; lia..|].
    destruct (write_data_run s (pad [a; v]) 2 t) as (s' & r & E & Hd & _); [lia|cbn; lia| |].
    { exists a. split; [done|]. exact Et. }
    exists s', r. split; [done|]. rewrite Hd. specialize (Hin 0%nat ltac:(lia)). cbn in Hin.
    by rewrite Z.add_0_r, Z.mod_small in Hin by lia.
  - unfold smbus_storage_write_data. cbn -[store_loop]. change (Z.to_nat (u8 (2 - 1))) with 1%nat.
    cbn [store_loop]. cbn. unfold buf_set. by rewrite decide_False by lia.
Qed.

Lemma storage_small_device_witness :
  smbus_storage_write_data
    (smbus_storage_realize 128 0x54 false None (Some (128, true, replicate 128 0))).1
    (pad [200; 1]) 2 = Fault OutOfBounds.
Proof.
  destruct (storage_small_device
    (smbus_storage_realize 128 0x54 false None (Some (128, true, replicate 128 0))).1 200 1)
    as [_ H]; [done..|]. apply H. done.
Defined.

End Storage.

(** ** Temperature sensor (smbus_adm1032.c) *)
Module Adm1032.

Record SMBusADM1032Device := { cmd : Z }.

Definition smbus_adm1032_quick_cmd (cx : SMBusADM1032Device) (read : Z)
  : res SMBusADM1032Device := Ok cx.

Definition smbus_adm1032_write_data (cx : SMBusADM1032Device) (buf : list Z) (len : Z)
  : res (SMBusADM1032Device * Z) :=
  c ← buf_at buf 0;
  Ok ({| cmd := c |}, 0).

Definition smbus_adm1032_receive_byte (cx : SMBusADM1032Device)
  : res (SMBusADM1032Device * Z) :=
  let c := cmd cx in
  let cx := {| cmd := u8 (c + 1) |} in
  if (c =? 0x0) || (c =? 0x1) then Ok (cx, 50) else Ok (cx, 0).

Definition smbus_adm1032_realize : SMBusADM1032Device := {| cmd := 0 |}.

#[global] Instance adm1032_class : SMBusDeviceClass SMBusADM1032Device := {
  quick_cmd d := Some (smbus_adm1032_quick_cmd d);
  write_data d := Some (smbus_adm1032_write_data d);
  receive_byte d := Some (smbus_adm1032_receive_byte d)
}.

#[global] Instance adm1032_laws : SMBusDeviceLaws SMBusADM1032Device.
Proof.
  refine {| dev_wf := fun _ d => is_u8 (cmd d) |}.
  - done.
  - intros n d f r Hd [= <-]. by exists d.
  - intros n d f buf len _ [= <-] Hl Hb Hby. unfold smbus_adm1032_write_data.
    destruct (buf_at_u8 buf 0 Hby) as (c & -> & _ & Hc); [lia|]. by do 2 eexists.
  - intros d f buf buf' len [= <-] Hl _ _ E. unfold smbus_adm1032_write_data.
    by rewrite (Smc.buf_at_take _ _ _ 0 E) by lia.
  - intros n d r _ _ [= <-]. unfold smbus_adm1032_receive_byte.
    assert (is_u8 (u8 (cmd d + 1))) by (apply uwrap_range; lia).
    destruct (_ || _); do 2 eexists; by split_and!.
Defined.

End Adm1032.

(** ** Video encoders (smbus_cx25871.c, smbus_fs454.c, smbus_xcalibur.c)

    The three files are the same up to names: 256 registers with an index that
    writes set and reads step. *)
Module Encoder.

Record encoder := { registers : list Z; cmd : Z }.

(** [memcpy(dst + d, src + s, n)] *)
Fixpoint copy (dst : list Z) (d : nat) (src : list Z) (s n : nat) : res (list Z) :=
  match n with
  | O => Ok dst
  | S n => v ← buf_at src s; dst ← buf_set dst d v; copy dst (S d) src (S s) n
  end.

Definition encoder_write (cx : encoder) (buf : list Z) (len : Z) : res (encoder * Z) :=
  c ← buf_at buf 0;
  let len := u8 (len - 1) in
  if len <? 1 then Ok ({| registers := registers cx; cmd := c |}, 0)
  else
    r ← copy (registers cx) (Z.to_nat c) buf 1 (Z.to_nat (Z.min len (256 - c)));
    Ok ({| registers := r; cmd := c |}, 0).

Definition encoder_read (cx : encoder) : res (encoder * Z) :=
  v ← buf_at (registers cx) (Z.to_nat (cmd cx));
  Ok ({| registers := registers cx; cmd := u8 (cmd cx + 1) |}, v).

Definition encoder_realize : encoder := {| registers := replicate 256 0; cmd := 0 |}.

Definition smbus_cx25871_quick_cmd (cx : encoder) (read : Z) : res encoder := Ok cx.
Definition smbus_cx25871_write_data := encoder_write.
Definition smbus_cx25871_receive_byte := encoder_read.
Definition smbus_cx25871_realize := encoder_realize.

Definition smbus_fs454_quick_cmd (cx : encoder) (read : Z) : res encoder := Ok cx.
Definition smbus_fs454_write_data := encoder_write.
Definition smbus_fs454_receive_byte := encoder_read.
Definition smbus_fs454_realize := encoder_realize.

Definition smbus_xcalibur_quick_cmd (cx : encoder) (read : Z) : res encoder := Ok cx.
Definition smbus_xcalibur_write_data := encoder_write.
Definition smbus_xcalibur_receive_byte := encoder_read.
Definition smbus_xcalibur_realize := encoder_realize.

Record encoder_wf (d : encoder) : Prop := {
  ew_length : length (registers d) = 256%nat;
  ew_bytes : Forall is_u8 (registers d);
  ew_cmd : is_u8 (cmd d)
}.

Lemma copy_ok n dst d src s : (d + n <= length dst)%nat -> (s + n <= length src)%nat ->
  copy dst d src s n = Ok (take d dst ++ take n (drop s src) ++ drop (d + n) dst).
Proof.
  revert dst d s. induction n as [|n IH]; intros dst d s Hd Hs.
  { rewrite Nat.add_0_r, take_0. cbn [copy app]. by rewrite take_drop. }
  destruct (lookup_lt_is_Some_2 src s ltac:(lia)) as [v Hv]. cbn [copy].
  unfold buf_at. rewrite Hv. cbn [mbind res_mbind res_bind].
  rewrite buf_set_ok by lia. cbn [mbind res_mbind res_bind].
  rewrite IH by (rewrite ?length_insert; lia). f_equal.
  rewrite (take_S_r _ _ v) by (apply list_lookup_insert_eq; lia).
  rewrite take_insert_ge, drop_insert_lt by lia. rewrite (drop_S _ _ _ Hv). cbn [take].
  rewrite <- app_assoc. cbn [app]. by rewrite Nat.add_succ_r.
Qed.

(** What a write leaves in the registers: the data from register [c] on, cut at the
    end of the file. *)
Lemma encoder_write_run d buf len c : encoder_wf d -> 1 <= len <= 34 -> length buf = 34%nat ->
  buf !! 0%nat = Some c -> is_u8 c ->
  let n := Z.to_nat (Z.min (len - 1) (256 - c)) in
  encoder_write d buf len =
  Ok ({| registers := take (Z.to_nat c) (registers d) ++ take n (drop 1 buf)
                        ++ drop (Z.to_nat c + n) (registers d);
         cmd := c |}, 0).
Proof.
  intros [Hr Hby Hc] Hl Hb Ec Hcu. unfold in_uw in Hcu. unfold encoder_write, buf_at.
  rewrite Ec. cbn [mbind res_mbind res_bind]. rewrite (uwrap_id 8) by lia.
  destruct (Z.ltb_spec (len - 1) 1).
  - replace (Z.to_nat (Z.min (len - 1) (256 - c))) with 0%nat by lia.
    rewrite take_0, Nat.add_0_r. cbn [app]. by rewrite take_drop.
  - rewrite copy_ok by lia. done.
Qed.

Lemma encoder_write_ok d buf len : encoder_wf d -> 1 <= len <= 34 -> length buf = 34%nat ->
  Forall is_u8 buf -> exists d' r, encoder_write d buf len = Ok (d', r) /\ encoder_wf d'.
Proof.
  intros Hd Hl Hb Hby. destruct (buf_at_u8 buf 0 Hby) as (c & _ & Ec & Hc); [lia|].
  rewrite (encoder_write_run d buf len c) by done. do 2 eexists. split; [done|].
  destruct Hd as [Hr Hrb _]. unfold in_uw in Hc. constructor; cbn; [|repeat apply Forall_app_2|done].
  - rewrite !length_app, !length_take, !length_drop. lia.
  - by apply Forall_take.
  - by apply Forall_take, Forall_drop.
  - by apply Forall_drop.
Qed.

Lemma copy_ext n dst d src src' s k : take k src = take k src' -> (s + n <= k)%nat ->
  copy dst d src s n = copy dst d src' s n.
Proof.
  intros E. revert dst d s. induction n as [|n IH]; intros dst d s Hs; [done|]. cbn [copy].
  rewrite (Smc.buf_at_take _ _ _ s E) by lia.
  destruct (buf_at src' s); [cbn [mbind res_mbind res_bind]|done].
  destruct (buf_set _ _ _); [cbn [mbind res_mbind res_bind]|done]. apply IH. lia.
Qed.

Lemma encoder_write_ext d buf buf' len : 1 <= len <= 34 ->
  take (Z.to_nat len) buf = take (Z.to_nat len) buf' ->
  encoder_write d buf len = encoder_write d buf' len.
Proof.
  intros Hl E. unfold encoder_write. rewrite (Smc.buf_at_take _ _ _ 0 E) by lia.
  destruct (buf_at buf' 0) as [c|]; [cbn [mbind res_mbind res_bind]|done].
  rewrite (uwrap_id 8) by lia. by rewrite (copy_ext _ _ _ _ _ _ _ E) by lia.
Qed.

Lemma encoder_read_ok d : encoder_wf d ->
  exists d' v, encoder_read d = Ok (d', v) /\ encoder_wf d' /\ is_u8 v.
Proof.
  intros [Hr Hby Hc]. unfold encoder_read. unfold in_uw in Hc.
  destruct (buf_at_u8 (registers d) (Z.to_nat (cmd d)) Hby) as (v & -> & _ & Hv); [lia|].
  do 2 eexists. split; [done|]. split; [|done]. constructor; try done. apply uwrap_range. lia.
Qed.

(** C31. The register file of a video encoder: a command of index [c] and data [bs]
    leaves [bs] in the registers from [c] on, drops what would go past register
    255, changes no other register, and a read returns the register at the index. *)
Theorem encoder_write_registers d c bs :
  encoder_wf d -> is_u8 c -> Forall is_u8 bs -> (length bs <= 33)%nat ->
  exists d', encoder_write d (pad (c :: bs)) (Z.of_nat (length (c :: bs))) = Ok (d', 0)
    /\ encoder_wf d' /\ cmd d' = c
    /\ (forall j v, bs !! j = Some v -> (Z.to_nat c + j < 256)%nat ->
          registers d' !! (Z.to_nat c + j)%nat = Some v)
    /\ (forall k, (k < Z.to_nat c \/ Z.to_nat c + length bs <= k)%nat ->
          registers d' !! k = registers d !! k)
    /\ exists d2 v, encoder_read d' = Ok (d2, v) /\ registers d' !! Z.to_nat c = Some v.
Proof.
  intros Hd Hc Hbs Hl. pose proof Hc as Hc'. unfold in_uw in Hc'.
  assert (Hp : length (pad (c :: bs)) = 34%nat) by (apply Storage.pad_length; cbn; lia).
  assert (Hpu : Forall is_u8 (pad (c :: bs))).
  { unfold pad. apply Forall_app_2; [by apply Forall_cons_2|]. by apply Forall_replicate. }
  pose proof (encoder_write_run d (pad (c :: bs)) (Z.of_nat (length (c :: bs))) c Hd
    ltac:(cbn; lia) Hp eq_refl Hc) as E. cbv zeta in E.
  destruct (encoder_write_ok d (pad (c :: bs)) (Z.of_nat (length (c :: bs))) Hd)
    as (d' & r & E' & Hd'); [cbn; lia|done|done|].
  rewrite E in E'. injection E' as <- <-. destruct Hd as [Hr _ _].
  set (n := Z.to_nat (Z.min _ _)) in *.
  assert (Hn : n = Nat.min (length bs) (256 - Z.to_nat c)) by (unfold n; cbn; lia).
  eexists. split; [exact E|]. split; [done|]. split; [done|]. cbn [registers]. split_and!.
  - intros j v Hj Hlt. pose proof (lookup_lt_Some _ _ _ Hj).
    rewrite lookup_app_r by (rewrite length_take; lia). rewrite length_take.
    replace (Z.to_nat c + j - _)%nat with j by lia.
    rewrite lookup_app_l by (rewrite length_take, length_drop; lia).
    rewrite lookup_take_lt, lookup_drop by lia. unfold pad.
    rewrite lookup_app_l by (cbn; lia). exact Hj.
  - intros k [Hk|Hk].
    + rewrite lookup_app_l by (rewrite length_take; lia). by rewrite lookup_take_lt.
    + rewrite app_assoc, lookup_app_r; rewrite length_app, !length_take, length_drop; [|lia].
      rewrite lookup_drop. f_equal. lia.
  - destruct (encoder_read_ok _ Hd') as (d2 & v & E2 & _). exists d2, v. split; [done|].
    unfold encoder_read, buf_at in E2. cbn [registers cmd] in E2.
    by destruct (_ !! Z.to_nat c) eqn:?; [injection E2 as <- <-|].
Qed.

Lemma encoder_realize_wf : encoder_wf encoder_realize.
Proof.
  constructor; [done| |done].
  change (registers encoder_realize) with (replicate 256 0). by apply Forall_replicate.
Qed.

Lemma encoder_write_registers_witness :
  exists d', encoder_write encoder_realize (pad [254; 1; 2; 3]) 4 = Ok (d', 0)
    /\ registers d' !! 255%nat = Some 2.
Proof.
  destruct (encoder_write_registers encoder_realize 254 [1; 2; 3])
    as (d' & E & _ & _ & H & _).
  - apply encoder_realize_wf.
  - done.
  - by repeat (apply Forall_cons_2; [done|]).
  - cbn. lia.
  - exists d'. split; [exact E|]. apply (H 1%nat 2); [done|cbn; lia].
Defined.

End Encoder.

(** ** The devices of the machine (hw/xbox/xbox.c) *)
Module XboxDevices.

Inductive xbox_dev :=
| DevSmc (d : Smc.SMBusSMCDevice)
| DevEncoder (d : Encoder.encoder)
| DevAdm1032 (d : Adm1032.SMBusADM1032Device)
| DevStorage (d : Storage.SMBusStorageDevice).

Definition lift {A} (c : A -> xbox_dev) (r : res (A * Z)) : res (xbox_dev * Z) :=
  '(d, v) ← r; Ok (c d, v).

#[global] Instance encoder_class : SMBusDeviceClass Encoder.encoder := {
  quick_cmd d := Some (fun _ => Ok d);
  write_data d := Some (Encoder.encoder_write d);
  receive_byte d := Some (Encoder.encoder_read d)
}.

#[global] Instance encoder_laws : SMBusDeviceLaws Encoder.encoder.
Proof.
  refine {| dev_wf := fun _ => Encoder.encoder_wf |}.
  - done.
  - intros n d f r Hd [= <-]. by exists d.
  - intros n d f buf len Hd [= <-]. by apply Encoder.encoder_write_ok.
  - intros d f buf buf' len [= <-] Hl _ _. by apply Encoder.encoder_write_ext.
  - intros n d r Hd _ [= <-]. by apply Encoder.encoder_read_ok.
Defined.

(** Method tables by the type of the device. *)
#[global] Instance xbox_class : SMBusDeviceClass xbox_dev := {
  quick_cmd x :=
    match x with
    | DevSmc d => (fun f r => d ← f r; Ok (DevSmc d)) <$> quick_cmd d
    | DevEncoder d => (fun f r => d ← f r; Ok (DevEncoder d)) <$> quick_cmd d
    | DevAdm1032 d => (fun f r => d ← f r; Ok (DevAdm1032 d)) <$> quick_cmd d
    | DevStorage d => (fun f r => d ← f r; Ok (DevStorage d)) <$> quick_cmd d
    end;
  write_data x :=
    match x with
    | DevSmc d => (fun f b l => lift DevSmc (f b l)) <$> write_data d
    | DevEncoder d => (fun f b l => lift DevEncoder (f b l)) <$> write_data d
    | DevAdm1032 d => (fun f b l => lift DevAdm1032 (f b l)) <$> write_data d
    | DevStorage d => (fun f b l => lift DevStorage (f b l)) <$> write_data d
    end;
  receive_byte x :=
    match x with
    | DevSmc d => lift DevSmc <$> receive_byte d
    | DevEncoder d => lift DevEncoder <$> receive_byte d
    | DevAdm1032 d => lift DevAdm1032 <$> receive_byte d
    | DevStorage d => lift DevStorage <$> receive_byte d
    end
}.

Definition xbox_wf (n : Z) (x : xbox_dev) : Prop :=
  match x with
  | DevSmc d => dev_wf n d
  | DevEncoder d => dev_wf n d
  | DevAdm1032 d => dev_wf n d
  | DevStorage d => dev_wf n d
  end.

#[global] Instance xbox_laws : SMBusDeviceLaws xbox_dev.
Proof.
  refine {| dev_wf := xbox_wf |}.
  - intros m n []; cbn [xbox_wf]; apply dev_wf_mono.
  - intros n [d|d|d|d] f r Hd E; cbn [quick_cmd xbox_class] in E; cbn [xbox_wf] in Hd;
      apply fmap_Some in E as (g & Eg & ->);
      destruct (quick_cmd_ok n d g r Hd Eg) as (d' & -> & Hd');
      eexists; (split; [reflexivity|exact Hd']).
  - intros n [d|d|d|d] f buf len Hd E Hl Hb Hby; cbn [write_data xbox_class] in E;
      cbn [xbox_wf] in Hd; apply fmap_Some in E as (g & Eg & ->);
      destruct (write_data_ok n d g buf len Hd Eg Hl Hb Hby) as (d' & r & -> & Hd');
      by do 2 eexists.
  - intros [d|d|d|d] f buf buf' len E Hl Hb Hb' Ht; cbn [write_data xbox_class] in E;
      apply fmap_Some in E as (g & Eg & ->); by rewrite (write_data_ext d g buf buf' len).
  - intros n [d|d|d|d] r Hd Hn E; cbn [receive_byte xbox_class] in E; cbn [xbox_wf] in Hd;
      apply fmap_Some in E as (g & Eg & ->);
      destruct (receive_byte_ok n d g Hd Hn Eg) as (d' & v & -> & Hd' & Hv);
      by do 2 eexists.
Defined.

(** The devices [xbox_init_common] puts on the bus, in the order of the calls. *)
Definition xbox_smbus_devices (video_encoder : string) (smc : Smc.SMBusSMCDevice)
  : list (Z * xbox_dev) :=
  (0x10, DevSmc smc) ::
  if decide (video_encoder <> "xcalibur"%string) then
    (if decide (video_encoder = "conexant"%string)
     then [(0x45, DevEncoder Encoder.smbus_cx25871_realize)]
     else if decide (video_encoder = "focus"%string)
     then [(0x6A, DevEncoder Encoder.smbus_fs454_realize)]
     else [])
    ++ [(0x4C, DevAdm1032 Adm1032.smbus_adm1032_realize)]
  else [(0x70, DevEncoder Encoder.smbus_xcalibur_realize)].

End XboxDevices.
