(* ===== verification/AmdSmbus.v ===== *)
(** * The AMD756 SMBus host controller (hw/xbox/amd_smbus.c)

    The guest programs an address, a command and data through byte-wide I/O ports
    and starts a cycle; the controller runs one SMBus host command and reports in
    its status register.  The bus behind it is the one of I2cCore, with devices
    known only by [SMBusDeviceLaws]. *)

From S2P Require Import Prelude SmbusSlave I2cCore SmbusMaster SmbusDevices.
Import SmbusSlave SmbusDev I2cCore SmbusMaster.

Module AmdSmbus.

Definition SMB_GLOBAL_STATUS : Z := 0x0.
Definition SMB_GLOBAL_ENABLE : Z := 0x2.
Definition SMB_HOST_ADDRESS : Z := 0x4.
Definition SMB_HOST_DATA : Z := 0x6.
Definition SMB_HOST_COMMAND : Z := 0x8.
Definition SMB_HOST_BLOCK_DATA : Z := 0x9.

Definition AMD756_QUICK : Z := 0x00.
Definition AMD756_BYTE : Z := 0x01.
Definition AMD756_BYTE_DATA : Z := 0x02.
Definition AMD756_WORD_DATA : Z := 0x03.
Definition AMD756_BLOCK_DATA : Z := 0x05.

Definition GS_ABRT_STS : Z := 1.
Definition GS_COL_STS : Z := 2.
Definition GS_PRERR_STS : Z := 4.
Definition GS_HCYC_STS : Z := 16.
Definition GS_TO_STS : Z := 32.
Definition GS_CLEAR_STS : Z :=
  Z.lor (Z.lor (Z.lor (Z.lor GS_ABRT_STS GS_COL_STS) GS_PRERR_STS) GS_HCYC_STS) GS_TO_STS.

Definition GE_CYC_TYPE_MASK : Z := 7.
Definition GE_HOST_STC : Z := 8.
Definition GE_HCYC_EN : Z := 16.
Definition GE_ABORT : Z := 32.

(** [irq] is the level of the line, [None] when none is connected. *)
Record AMD756SMBus (D : Type) := {
  smbus : I2CBus D;
  smb_stat : Z;
  smb_ctl : Z;
  smb_cmd : Z;
  smb_addr : Z;
  smb_data0 : Z;
  smb_data1 : Z;
  smb_data : list Z;
  smb_index : Z;
  irq : option bool
}.
Arguments smbus {D}.
Arguments smb_stat {D}.
Arguments smb_ctl {D}.
Arguments smb_cmd {D}.
Arguments smb_addr {D}.
Arguments smb_data0 {D}.
Arguments smb_data1 {D}.
Arguments smb_data {D}.
Arguments smb_index {D}.
Arguments irq {D}.

Section Amd.
Context {D : Type} `{SMBusDeviceClass D}.
#[local] Abbreviation amd := (AMD756SMBus D).

Definition set_stat (s : amd) (v : Z) : amd :=
  {| smbus := smbus s; smb_stat := v; smb_ctl := smb_ctl s; smb_cmd := smb_cmd s;
     smb_addr := smb_addr s; smb_data0 := smb_data0 s; smb_data1 := smb_data1 s;
     smb_data := smb_data s; smb_index := smb_index s; irq := irq s |}.
Definition set_ctl (s : amd) (v : Z) : amd :=
  {| smbus := smbus s; smb_stat := smb_stat s; smb_ctl := v; smb_cmd := smb_cmd s;
     smb_addr := smb_addr s; smb_data0 := smb_data0 s; smb_data1 := smb_data1 s;
     smb_data := smb_data s; smb_index := smb_index s; irq := irq s |}.
Definition set_cmd (s : amd) (v : Z) : amd :=
  {| smbus := smbus s; smb_stat := smb_stat s; smb_ctl := smb_ctl s; smb_cmd := v;
     smb_addr := smb_addr s; smb_data0 := smb_data0 s; smb_data1 := smb_data1 s;
     smb_data := smb_data s; smb_index := smb_index s; irq := irq s |}.
Definition set_addr (s : amd) (v : Z) : amd :=
  {| smbus := smbus s; smb_stat := smb_stat s; smb_ctl := smb_ctl s; smb_cmd := smb_cmd s;
     smb_addr := v; smb_data0 := smb_data0 s; smb_data1 := smb_data1 s;
     smb_data := smb_data s; smb_index := smb_index s; irq := irq s |}.
Definition set_data0 (s : amd) (v : Z) : amd :=
  {| smbus := smbus s; smb_stat := smb_stat s; smb_ctl := smb_ctl s; smb_cmd := smb_cmd s;
     smb_addr := smb_addr s; smb_data0 := v; smb_data1 := smb_data1 s;
     smb_data := smb_data s; smb_index := smb_index s; irq := irq s |}.
Definition set_data1 (s : amd) (v : Z) : amd :=
  {| smbus := smbus s; smb_stat := smb_stat s; smb_ctl := smb_ctl s; smb_cmd := smb_cmd s;
     smb_addr := smb_addr s; smb_data0 := smb_data0 s; smb_data1 := v;
     smb_data := smb_data s; smb_index := smb_index s; irq := irq s |}.
Definition set_block (s : amd) (d : list Z) (i : Z) : amd :=
  {| smbus := smbus s; smb_stat := smb_stat s; smb_ctl := smb_ctl s; smb_cmd := smb_cmd s;
     smb_addr := smb_addr s; smb_data0 := smb_data0 s; smb_data1 := smb_data1 s;
     smb_data := d; smb_index := i; irq := irq s |}.
Definition set_irq (s : amd) (l : bool) : amd :=
  {| smbus := smbus s; smb_stat := smb_stat s; smb_ctl := smb_ctl s; smb_cmd := smb_cmd s;
     smb_addr := smb_addr s; smb_data0 := smb_data0 s; smb_data1 := smb_data1 s;
     smb_data := smb_data s; smb_index := smb_index s; irq := Some l |}.
Definition set_bus (s : amd) (b : I2CBus D) : amd :=
  {| smbus := b; smb_stat := smb_stat s; smb_ctl := smb_ctl s; smb_cmd := smb_cmd s;
     smb_addr := smb_addr s; smb_data0 := smb_data0 s; smb_data1 := smb_data1 s;
     smb_data := smb_data s; smb_index := smb_index s; irq := irq s |}.

Definition amd756_smbus_init (devs : list (SMBusDevice D)) (line : option bool) : amd :=
  {| smbus := i2c_init_bus devs; smb_stat := 0; smb_ctl := 0; smb_cmd := 0; smb_addr := 0;
     smb_data0 := 0; smb_data1 := 0; smb_data := replicate 32 0; smb_index := 0; irq := line |}.

(** The labels of [amd756_smb_transaction]. *)
Definition t_error (s : amd) : amd := set_stat s (Z.lor (smb_stat s) GS_PRERR_STS).
Definition t_done (s : amd) (ret : Z) : amd :=
  if ret <? 0 then t_error s else set_stat s (Z.lor (smb_stat s) GS_HCYC_STS).
Definition t_data8 (s : amd) (ret : Z) : amd :=
  if ret <? 0 then t_error s else t_done (set_data0 s (u8 ret)) ret.
Definition t_data16 (s : amd) (ret : Z) : amd :=
  if ret <? 0 then t_error s else t_data8 (set_data1 s (u8 (Z.shiftr ret 8))) ret.

Definition amd756_smb_transaction (s : amd) : res amd :=
  let prot := Z.land (smb_ctl s) GE_CYC_TYPE_MASK in
  let read := tst (smb_addr s) 0x01 in
  let cmd := smb_cmd s in
  let addr := Z.land (Z.shiftr (smb_addr s) 1) 0x7f in
  let b := smbus s in
  if prot =? AMD756_QUICK then
    '(b, ret) ← smbus_quick_command b addr read; Ok (t_done (set_bus s b) ret)
  else if prot =? AMD756_BYTE then
    if read then '(b, ret) ← smbus_receive_byte b addr; Ok (t_data8 (set_bus s b) ret)
    else '(b, ret) ← smbus_send_byte b addr cmd; Ok (t_done (set_bus s b) ret)
  else if prot =? AMD756_BYTE_DATA then
    if read then '(b, ret) ← smbus_read_byte b addr cmd; Ok (t_data8 (set_bus s b) ret)
    else '(b, ret) ← smbus_write_byte b addr cmd (smb_data0 s); Ok (t_done (set_bus s b) ret)
  else if prot =? AMD756_WORD_DATA then
    if read then '(b, ret) ← smbus_read_word b addr cmd; Ok (t_data16 (set_bus s b) ret)
    else '(b, ret) ← smbus_write_word b addr cmd
                       (Z.lor (Z.shiftl (smb_data1 s) 8) (smb_data0 s));
         Ok (t_done (set_bus s b) ret)
  else if prot =? AMD756_BLOCK_DATA then
    if read then
      '(b, d, ret) ← smbus_read_block b addr cmd (smb_data s) 32 true true;
      Ok (t_data8 (set_block (set_bus s b) d (smb_index s)) ret)
    else '(b, ret) ← smbus_write_block b addr cmd (smb_data s) (smb_data0 s) true;
         Ok (t_done (set_bus s b) ret)
  else Ok (t_error s).

(** [s->smb_index++] on a [uint8_t], back to 0 past 31. *)
Definition next_index (i : Z) : Z := let i := u8 (i + 1) in if 31 <? i then 0 else i.

Definition amd756_smb_ioport_writeb (s : amd) (port val : Z) : res amd :=
  let addr := Z.land port 0x3f in
  if addr =? SMB_GLOBAL_STATUS then
    let s :=
      match irq s with
      | None => s
      | Some _ =>
          if tst (smb_ctl s) GE_HCYC_EN
             && tst (Z.land val GS_CLEAR_STS) (Z.lnot (Z.land (smb_stat s) GS_CLEAR_STS))
          then set_irq s true else set_irq s false
      end in
    let stat := if tst val GS_CLEAR_STS then 0
                else if tst val GS_HCYC_STS then GS_HCYC_STS
                else GS_HCYC_STS in
    Ok (set_block (set_stat s stat) (smb_data s) 0)
  else if addr =? SMB_GLOBAL_ENABLE then
    let s := set_ctl s (u8 val) in
    let s := if tst val GE_ABORT then set_stat s (Z.lor (smb_stat s) GS_ABRT_STS) else s in
    if tst val GE_HOST_STC then
      s ← amd756_smb_transaction s;
      match irq s with
      | Some _ =>
          if tst val GE_HCYC_EN && tst (smb_stat s) GS_CLEAR_STS then Ok (set_irq s true) else Ok s
      | None => Ok s
      end
    else Ok s
  else if addr =? SMB_HOST_COMMAND then Ok (set_cmd s (u8 val))
  else if addr =? SMB_HOST_ADDRESS then Ok (set_addr s (u8 val))
  else if addr =? SMB_HOST_DATA then Ok (set_data0 s (u8 val))
  else if addr =? SMB_HOST_DATA + 1 then Ok (set_data1 s (u8 val))
  else if addr =? SMB_HOST_BLOCK_DATA then
    d ← buf_set (smb_data s) (Z.to_nat (smb_index s)) (u8 val);
    Ok (set_block s d (next_index (smb_index s)))
  else Ok s.

Definition amd756_smb_ioport_readb (s : amd) (port : Z) : res (amd * Z) :=
  let addr := Z.land port 0x3f in
  if addr =? SMB_GLOBAL_STATUS then Ok (s, smb_stat s)
  else if addr =? SMB_GLOBAL_ENABLE then Ok (s, Z.land (smb_ctl s) 0x1f)
  else if addr =? SMB_HOST_COMMAND then Ok (s, smb_cmd s)
  else if addr =? SMB_HOST_ADDRESS then Ok (s, smb_addr s)
  else if addr =? SMB_HOST_DATA then Ok (s, smb_data0 s)
  else if addr =? SMB_HOST_DATA + 1 then Ok (s, smb_data1 s)
  else if addr =? SMB_HOST_BLOCK_DATA then
    v ← buf_at (smb_data s) (Z.to_nat (smb_index s));
    Ok (set_block s (smb_data s) (next_index (smb_index s)), v)
  else Ok (s, 0).

End Amd.

(** ** Invariant *)

Section AmdLaws.
Context {D : Type} `{SMBusDeviceLaws D}.
#[local] Abbreviation amd := (AMD756SMBus D).
Implicit Types (s : amd) (v : view D).

(** Registers are bytes, the block index is inside the block, the bus is idle with
    the devices [v] sound for [n] more reads. *)
Record amd_wf (n : Z) (v : view D) (s : amd) : Prop := {
  aw_bus : bus_idle n v (smbus s);
  aw_stat : is_u8 (smb_stat s);
  aw_ctl : is_u8 (smb_ctl s);
  aw_cmd : is_u8 (smb_cmd s);
  aw_addr : is_u8 (smb_addr s);
  aw_data0 : is_u8 (smb_data0 s);
  aw_data1 : is_u8 (smb_data1 s);
  aw_length : length (smb_data s) = 32%nat;
  aw_bytes : Forall is_u8 (smb_data s);
  aw_index : 0 <= smb_index s <= 31
}.

(** The host command a cycle stands for; other protocols are errors. *)
Definition cycle_op (s : amd) : option master_op :=
  let read := tst (smb_addr s) 1 in
  match Z.land (smb_ctl s) GE_CYC_TYPE_MASK with
  | 0 => Some (Quick read)
  | 1 => Some (if read then ReceiveByte else SendByte (smb_cmd s))
  | 2 => Some (if read then ReadByte (smb_cmd s) else WriteByte (smb_cmd s) (smb_data0 s))
  | 3 => Some (if read then ReadWord (smb_cmd s)
               else WriteWord (smb_cmd s) (smb_data0 s + 256 * smb_data1 s))
  | 5 => Some (if read then ReadBlock (smb_cmd s) 32 true true
               else WriteBlock (smb_cmd s) (smb_data0 s) true)
  | _ => None
  end.

Definition cycle_addr (s : amd) : Z := smb_addr s / 2.

(** What the cycle does to the controller, given the abstract result: [ret] goes to
    the data registers of a read. *)
Definition cycle_result (s : amd) (o : master_op) (d : list Z) (ret : Z) : amd :=
  if ret <? 0 then t_error (set_block s d (smb_index s))
  else
    let s := set_stat s (Z.lor (smb_stat s) GS_HCYC_STS) in
    match o with
    | ReceiveByte | ReadByte _ => set_data0 s (u8 ret)
    | ReadBlock _ _ _ _ => set_data0 (set_block s d (smb_index s)) (u8 ret)
    | ReadWord _ => set_data0 (set_data1 s (u8 (ret / 256))) (u8 ret)
    | _ => s
    end.

Lemma cycle_addr_eq s : is_u8 (smb_addr s) ->
  Z.land (Z.shiftr (smb_addr s) 1) 0x7f = cycle_addr s.
Proof.
  unfold in_uw, cycle_addr. intros Ha. change 0x7f with (Z.ones 7).
  rewrite Z.land_ones, Z.shiftr_div_pow2 by lia. apply Z.mod_small. dlia.
Qed.

Lemma cycle_op_ok n v s o : amd_wf n v s -> cycle_op s = Some o ->
  op_ok (smb_data s) o /\ op_cost o <= 33.
Proof.
  intros [_ _ _ Hc _ Hd0 Hd1 Hl Hd _] E. unfold op_ok, in_uw in *.
  unfold cycle_op in E. split; [split; [done|]|]; repeat case_match; simplify_eq/=; try done; try lia.
Qed.

(** A cycle runs the host command of the registers and reports its result. *)
Lemma transaction_ok n v s : amd_wf n v s -> 33 <= n ->
  match cycle_op s with
  | None => amd756_smb_transaction s = Ok (t_error s)
  | Some o =>
      let r := abs_op (cycle_addr s) (smb_data s) o v in
      exists b', amd756_smb_transaction s = Ok (set_bus (cycle_result s o r.1.2 r.2) b')
        /\ bus_idle (n - 33) r.1.1 b'
  end.
Proof.
  intros Hw Hn. pose proof Hw as [Hb _ Hctl _ Ha Hd0 Hd1 _ _ _].
  destruct (cycle_op s) as [o|] eqn:Eo.
  - cbv zeta. destruct (cycle_op_ok n v s o Hw Eo) as [Hok Hcost].
    destruct (run_op_refines n v (smbus s) (cycle_addr s) (smb_data s) o Hb Hok) as (b' & E & Hb').
    { lia. }
    exists b'. split; [|eapply bus_idle_mono; [|exact Hb']; lia].
    unfold amd756_smb_transaction. rewrite cycle_addr_eq by done.
    rewrite (Z.lor_comm (Z.shiftl _ _)), lor_byte by done.
    unfold cycle_op in Eo. set (p := Z.land (smb_ctl s) GE_CYC_TYPE_MASK) in *. clearbody p.
    assert (p = 0 \/ p = 1 \/ p = 2 \/ p = 3 \/ p = 5) as Hp
      by (repeat case_match; simplify_eq/=; lia).
    set (r := abs_op _ _ o v) in *. clearbody r. destruct r as [[v' d] ret]. cbn [fst snd] in *.
    destruct Hp as [-> | [-> | [-> | [-> | ->]]]]; injection Eo as <-;
      cbn [Z.eqb Pos.eqb AMD756_QUICK AMD756_BYTE AMD756_BYTE_DATA AMD756_WORD_DATA
           AMD756_BLOCK_DATA];
      destruct (tst (smb_addr s) 1); cbn [run_op] in E;
      lazymatch type of E with
      | smbus_read_block _ _ _ _ _ _ _ = _ => idtac
      | _ => apply res_bind_Ok in E as ([b1 r1] & E & [= <- <- <-])
      end;
      rewrite E; cbn [mbind res_mbind res_bind];
      unfold cycle_result, t_data16, t_data8, t_done;
      rewrite ?Z.shiftr_div_pow2 by lia; change (2 ^ 8) with 256;
      (destruct (_ <? 0); [by destruct s|done]).
  - unfold cycle_op in Eo. unfold amd756_smb_transaction.
    set (p := Z.land (smb_ctl s) GE_CYC_TYPE_MASK) in *. clearbody p.
    repeat (case_match; simplify_eq/=); done.
Qed.

Lemma lor_stat s x : is_u8 (smb_stat s) -> is_u8 x -> is_u8 (Z.lor (smb_stat s) x).
Proof. intros. by apply lor_range. Qed.

Lemma cycle_result_wf n n' v v' s o d ret b' : amd_wf n v s -> length d = 32%nat ->
  Forall is_u8 d -> bus_idle n' v' b' -> amd_wf n' v' (set_bus (cycle_result s o d ret) b').
Proof.
  intros [_ Hst Hctl Hc Ha Hd0 Hd1 Hl Hby Hi] Hd Hdu Hb'.
  assert (forall x, is_u8 (u8 x)) as Hu by (intros; apply uwrap_range; lia).
  pose proof (lor_stat s GS_PRERR_STS Hst ltac:(done)) as Hp.
  pose proof (lor_stat s GS_HCYC_STS Hst ltac:(done)) as Hh.
  unfold cycle_result, t_error. repeat case_match; constructor; done || apply Hu.
Qed.

(** The bus and the devices after a cycle. *)
Lemma transaction_wf n v s : amd_wf n v s -> 33 <= n ->
  exists v' s', amd756_smb_transaction s = Ok s' /\ amd_wf (n - 33) v' s' /\ irq s' = irq s.
Proof.
  intros Hw Hn. pose proof (transaction_ok n v s Hw Hn) as Ht.
  destruct (cycle_op s) as [o|] eqn:Eo.
  - destruct Ht as (b' & E & Hb'). destruct (cycle_op_ok n v s o Hw Eo) as [Hok Hcost].
    destruct (abs_op_data n (cycle_addr s) (smb_data s) o v) as [Hlen Hby].
    { by destruct Hw as [[[] _] _ _ _ _ _ _ _ _ _]. } { done. } { lia. }
    do 2 eexists. split; [exact E|]. split.
    + eapply cycle_result_wf; [done| |done|done]. rewrite Hlen. by destruct Hw.
    + unfold cycle_result, t_error. by repeat case_match.
  - exists v, (t_error s). split; [done|]. split; [|done]. destruct Hw.
    constructor; try done; [|by apply lor_stat]. eapply bus_idle_mono; [|done]. lia.
Qed.

Lemma amd_wf_mono n n' v s : n' <= n -> amd_wf n v s -> amd_wf n' v s.
Proof. intros Hn []. constructor; try done. by eapply bus_idle_mono. Qed.

Lemma next_index_range i : 0 <= i <= 31 -> 0 <= next_index i <= 31.
Proof.
  intros Hi. unfold next_index. rewrite (uwrap_id 8) by lia. destruct (Z.ltb_spec 31 (i + 1)); lia.
Qed.

Lemma writeb_ok n v s port val : amd_wf n v s -> 33 <= n ->
  exists v' s', amd756_smb_ioport_writeb s port val = Ok s' /\ amd_wf (n - 33) v' s'.
Proof.
  intros Hw0 Hn. assert (Hw : amd_wf (n - 33) v s) by (eapply amd_wf_mono; [|done]; lia).
  assert (forall x, is_u8 (u8 x)) as Hu by (intros; apply uwrap_range; lia).
  unfold amd756_smb_ioport_writeb.
  destruct (_ =? SMB_GLOBAL_STATUS).
  { exists v. eexists. split; [done|]. destruct Hw. repeat case_match; by constructor. }
  destruct (_ =? SMB_GLOBAL_ENABLE).
  { set (s1 := if tst val GE_ABORT then _ else _).
    assert (amd_wf n v s1) as Hs1.
    { unfold s1. destruct Hw0. case_match; constructor; try done; first [by apply lor_stat | apply Hu]. }
    destruct (tst val GE_HOST_STC); [|exists v, s1; split; [done|]; eapply amd_wf_mono; [|done]; lia].
    destruct (transaction_wf n v s1 Hs1 Hn) as (v' & s2 & -> & Hs2 & _).
    cbn [mbind res_mbind res_bind]. exists v'.
    destruct (irq s2); [|by exists s2]. case_match; [|by exists s2].
    eexists; split; [done|]. destruct Hs2. by constructor. }
  repeat (match goal with |- context [if Z.land port 63 =? ?x then _ else _] =>
            destruct (Z.land port 63 =? x) end;
          [first [ exists v; eexists; split; [done|]; destruct Hw; constructor; (done || apply Hu)
                 | rewrite buf_set_ok by (destruct Hw; lia); exists v; eexists; split; [done|];
                   destruct Hw; constructor; try done;
                   [ cbn; by rewrite length_insert | by apply Forall_insert
                   | by apply next_index_range ] ]|]).
  by exists v, s.
Qed.

Lemma readb_ok n v s port : amd_wf n v s ->
  exists s' x, amd756_smb_ioport_readb s port = Ok (s', x) /\ amd_wf n v s' /\ is_u8 x.
Proof.
  intros Hw. assert (is_u8 (Z.land (smb_ctl s) 31)) as Hc.
  { change 31 with (Z.ones 5). rewrite Z.land_ones by lia.
    pose proof (Z.mod_pos_bound (smb_ctl s) (2 ^ 5) ltac:(lia)). unfold in_uw. lia. }
  unfold amd756_smb_ioport_readb.
  assert (exists x, buf_at (smb_data s) (Z.to_nat (smb_index s)) = Ok x /\ is_u8 x) as (x & E & Hx).
  { destruct Hw. destruct (buf_at_u8 (smb_data s) (Z.to_nat (smb_index s))) as (x & ? & _ & ?);
      [done|lia|eauto]. }
  rewrite E. cbn [mbind res_mbind res_bind]. repeat case_match;
    (do 2 eexists; split; [reflexivity|]; split; [|by destruct Hw]); try done.
  destruct Hw. constructor; try done. by apply next_index_range.
Qed.

(** A sequence of port accesses and the values read. *)
Inductive port_access := PortRead (port : Z) | PortWrite (port val : Z).

Fixpoint run_ports (s : amd) (l : list port_access) : res (amd * list Z) :=
  match l with
  | [] => Ok (s, [])
  | PortRead p :: l =>
      '(s, x) ← amd756_smb_ioport_readb s p;
      '(s, xs) ← run_ports s l;
      Ok (s, x :: xs)
  | PortWrite p x :: l =>
      s ← amd756_smb_ioport_writeb s p x;
      run_ports s l
  end.

(** C23. Whatever a guest does to the SMBus ports, the emulator survives until a counter of a
    device overflows: a sequence of reads and writes of any ports and values runs without a
    fault, keeps the controller's registers in range and the bus idle between cycles, and every
    value read is a byte, as long as 33 times its length is at most the number [n] of byte reads
    that the devices are sound for.  On the bus of the Xbox [n] is less than 2^31, because the
    SMC's count of version reads overflows there. *)
Theorem amd756_ports_safe n v s l : amd_wf n v s -> 33 * Z.of_nat (length l) <= n ->
  exists v' s' xs, run_ports s l = Ok (s', xs)
    /\ amd_wf (n - 33 * Z.of_nat (length l)) v' s' /\ Forall is_u8 xs.
Proof.
  revert n v s. induction l as [|[p|p x] l IH]; intros n v s Hw Hn; cbn [length run_ports] in *.
  - exists v, s, []. split; [done|]. split; [|done]. cbn. by rewrite Z.sub_0_r.
  - destruct (readb_ok n v s p Hw) as (s1 & x & -> & Hw1 & Hx). cbn [mbind res_mbind res_bind].
    destruct (IH (n - 33) v s1) as (v2 & s2 & xs & -> & Hw2 & Hxs);
      [eapply amd_wf_mono; [|done]; lia|lia|].
    exists v2, s2, (x :: xs). split; [done|]. split; [|by apply Forall_cons_2].
    eapply amd_wf_mono; [|done]. lia.
  - destruct (writeb_ok n v s p x Hw) as (v1 & s1 & -> & Hw1); [lia|].
    cbn [mbind res_mbind res_bind].
    destruct (IH (n - 33) v1 s1 Hw1) as (v2 & s2 & xs & -> & Hw2 & Hxs); [lia|].
    exists v2, s2, xs. split; [done|]. split; [|done]. eapply amd_wf_mono; [|done]. lia.
Qed.

(** The interrupt line after a cycle: raised when enabled and any status is set. *)
Definition raise_irq (s : amd) (val : Z) : amd :=
  match irq s with
  | Some _ => if tst val GE_HCYC_EN && tst (smb_stat s) GS_CLEAR_STS then set_irq s true else s
  | None => s
  end.

Lemma enable_run s val : tst val GE_HOST_STC = true -> tst val GE_ABORT = false ->
  amd756_smb_ioport_writeb s SMB_GLOBAL_ENABLE val
  = (s ← amd756_smb_transaction (set_ctl s (u8 val)); Ok (raise_irq s val)).
Proof.
  intros Hs Ha. unfold amd756_smb_ioport_writeb. change (Z.land SMB_GLOBAL_ENABLE 0x3f) with 2.
  cbn [Z.eqb Pos.eqb SMB_GLOBAL_STATUS SMB_GLOBAL_ENABLE]. rewrite Hs, Ha.
  destruct (amd756_smb_transaction _) as [s1|]; [|done]. cbn [mbind res_mbind res_bind].
  unfold raise_irq. destruct (irq s1); [|done]. by case_match.
Qed.

Lemma set_ctl_wf n v s x : amd_wf n v s -> amd_wf n v (set_ctl s (u8 x)).
Proof. intros []. constructor; try done. apply uwrap_range. lia. Qed.

(** C13. A cycle that is started (port 2 with the start bit) runs exactly one host
    command, the one the protocol bits, the address, the command and the data
    registers spell: the devices, the data registers and the block buffer afterwards
    are those of the abstract command, completion is reported in HCYC_STS, and an
    address nobody answers or a reserved protocol in PRERR_STS with the devices
    unchanged; the interrupt line, if connected and enabled, goes up. *)
Theorem amd756_cycle n v s val :
  amd_wf n v s -> 33 <= n -> tst val GE_HOST_STC = true -> tst val GE_ABORT = false ->
  let s0 := set_ctl s (u8 val) in
  match cycle_op s0 with
  | None => amd756_smb_ioport_writeb s SMB_GLOBAL_ENABLE val = Ok (raise_irq (t_error s0) val)
  | Some o =>
      let r := abs_op (cycle_addr s) (smb_data s) o v in
      exists b', amd756_smb_ioport_writeb s SMB_GLOBAL_ENABLE val
          = Ok (raise_irq (set_bus (cycle_result s0 o r.1.2 r.2) b') val)
        /\ bus_idle (n - 33) r.1.1 b'
  end.
Proof.
  intros Hw Hn Hstc Habt s0. rewrite enable_run by done. fold s0.
  pose proof (transaction_ok n v s0 (set_ctl_wf n v s val Hw) Hn) as Ht.
  destruct (cycle_op s0) as [o|]; [|by rewrite Ht].
  destruct Ht as (b' & E & Hb'). exists b'. by rewrite E.
Qed.

End AmdLaws.

(** ** The Xbox bus *)

Import XboxDevices.

(** A device as [qdev_realize] leaves it. *)
Definition slave_of (p : Z * xbox_dev) : SMBusDevice xbox_dev :=
  {| address := p.1; mode := SMBUS_IDLE; data_len := 0; data_buf := replicate 34 0; impl := p.2 |}.

Lemma init_wf n v line : Forall (fun p => dev_wf n p.2) v -> v <> [] ->
  amd_wf n v (amd756_smbus_init (slave_of <$> v) line).
Proof.
  intros Hv Hne. constructor; try done; [|by apply Forall_replicate]. split; [|done].
  constructor; try done.
  - constructor.
  - cbn. by rewrite length_fmap.
  - set_solver.
  - intros i c p Hc Hp. rewrite decide_False by set_solver. cbn in Hc.
    rewrite list_lookup_fmap, Hp in Hc. injection Hc as <-. constructor; try done.
    + cbn. lia.
    + by apply Forall_replicate.
Qed.

(** The machine with a Conexant encoder, SMC version P01 and a 256 byte EEPROM. *)
Definition default_smc : Smc.SMBusSMCDevice :=
  match Smc.smbus_smc_realize false (Some "hdtv"%string) (Some "P01"%string) (Some (false, true)) with
  | Ok (smc, _) => smc
  | Fault _ => {| Smc.version_string := None; Smc.version_string_index := 0; Smc.cmd := 0;
                  Smc.traystate_reg := 0; Smc.avpack_reg := 0; Smc.intstatus_reg := 0;
                  Smc.scratch_reg := 0; Smc.error_reg := 0; Smc.requests := [] |}
  end.

Definition default_devices : view xbox_dev :=
  xbox_smbus_devices "conexant" default_smc ++ [(0x54, DevStorage Storage.sample_eeprom)].

(** Byte reads the fresh devices are sound for. *)
Definition read_budget : Z := 2 ^ 31 - 256.

Lemma default_smc_wf : Smc.smc_wf read_budget default_smc.
Proof.
  constructor; try done. exists [80; 48; 49; 0]. split_and!; [done|cbn; lia|].
  by repeat (apply Forall_cons_2; [done|]).
Qed.

Lemma default_devices_wf : Forall (fun p => dev_wf read_budget p.2) default_devices.
Proof.
  repeat apply Forall_cons_2.
  - apply default_smc_wf.
  - apply Encoder.encoder_realize_wf.
  - done.
  - apply Storage.sample_eeprom_wf.
  - apply Forall_nil_2.
Qed.

Definition default_controller : AMD756SMBus xbox_dev :=
  amd756_smbus_init (slave_of <$> default_devices) None.

Lemma default_controller_wf : amd_wf read_budget default_devices default_controller.
Proof. apply init_wf; [apply default_devices_wf|done]. Qed.

Lemma smbus_master_refines_witness :
  exists b', run_ops (smbus default_controller)
      [(0x54, [], WriteByte 5 77); (0x54, [], ReadByte 5); (0x33, [], ReadByte 0);
       (0x10, [], ReadWord 1); (0x00, [], SendByte 9)]
    = Ok (b', [([], 0); ([], 77); ([], -1); ([], 80); ([], 0)]).
Proof.
  destruct (smbus_master_refines read_budget default_devices (smbus default_controller)
    [(0x54, [], WriteByte 5 77); (0x54, [], ReadByte 5); (0x33, [], ReadByte 0);
     (0x10, [], ReadWord 1); (0x00, [], SendByte 9)]) as (b' & E & _).
  - apply default_controller_wf.
  - repeat apply Forall_cons_2; done.
  - done.
  - exists b'. rewrite E. vm_compute. reflexivity.
Defined.

Lemma amd756_ports_safe_witness :
  exists s' xs, run_ports default_controller
    [PortWrite 4 0x21; PortWrite 8 1; PortWrite 2 0x0a; PortRead 6; PortRead 0] = Ok (s', xs).
Proof.
  destruct (amd756_ports_safe read_budget default_devices default_controller
    [PortWrite 4 0x21; PortWrite 8 1; PortWrite 2 0x0a; PortRead 6; PortRead 0])
    as (v' & s' & xs & E & _); [apply default_controller_wf|done|]. by exists s', xs.
Defined.

Lemma amd756_cycle_witness :
  exists b', amd756_smb_ioport_writeb default_controller SMB_GLOBAL_ENABLE 0x08
    = Ok (raise_irq (set_bus (set_stat (set_ctl default_controller 0x08) GS_HCYC_STS) b') 0x08).
Proof.
  pose proof (amd756_cycle read_budget default_devices default_controller 0x08) as H.
  destruct H as (b' & E & _); [apply default_controller_wf|done|done|done|].
  exists b'. exact E.
Defined.

(** ** The EEPROM seen through the ports *)

(** The port writes that run a byte-data cycle: address, command, start. *)
Definition byte_cycle (addr c : Z) : list port_access :=
  [PortWrite SMB_HOST_ADDRESS addr; PortWrite SMB_HOST_COMMAND c; PortWrite SMB_GLOBAL_ENABLE 0x0a].

Section EepromPorts.
Context (addr : Z) (i : nat).
Implicit Types (v : view xbox_dev) (s : AMD756SMBus xbox_dev).

(** [i] is the device that answers at the address. *)
Definition eeprom_at v (e : Storage.SMBusStorageDevice) : Prop :=
  0 < addr < 128 /\ selected v addr = [i] /\ v !! i = Some (addr, DevStorage e).

(** Which devices answer depends on the addresses alone. *)
Lemma selected_fst (w : view xbox_dev) a :
  selected w a = if a =? 0 then rev (seq 0 (length (fst <$> w)))
                 else match list_find (fun x => x = a) (fst <$> w) with
                      | Some (j, _) => [j]
                      | None => []
                      end.
Proof.
  unfold selected. rewrite length_fmap, list_find_fmap. case_match; [done|].
  change (list_find ((fun x : Z => x = a) ∘ fst) w) with (list_find (fun p : Z * xbox_dev => p.1 = a) w).
  by destruct (list_find _ w) as [[]|].
Qed.

Lemma selected_on_ids ids f (w : view xbox_dev) a : selected (on_ids ids f w) a = selected w a.
Proof.
  rewrite !selected_fst. assert (fst <$> on_ids ids f w = fst <$> w) as ->; [|done].
  apply list_eq. intros j. rewrite !list_lookup_fmap, lookup_on_ids.
  destruct (w !! j); [|done]. cbn. by case_decide.
Qed.

Lemma eeprom_on_ids w e f e' : eeprom_at w e -> f (DevStorage e) = DevStorage e' ->
  eeprom_at (on_ids [i] f w) e'.
Proof.
  intros (Ha & Hs & Hi) Hf. split_and!; [lia|lia|by rewrite selected_on_ids|].
  rewrite lookup_on_ids, Hi. cbn. rewrite decide_True by set_solver. by rewrite Hf.
Qed.

(** The command byte and the data byte reach the device. *)
Lemma storage_dev_write e bs e' r :
  Storage.smbus_storage_write_data e (pad bs) (Z.of_nat (length bs)) = Ok (e', r) ->
  dev_write (DevStorage e) bs = DevStorage e'.
Proof. intros E. unfold dev_write. cbn [write_data xbox_class Storage.storage_class fmap option_fmap option_map]. by rewrite E. Qed.

Lemma storage_dev_recv e e' x :
  Storage.smbus_storage_receive_byte e = Ok (e', x) ->
  dev_recv (DevStorage e) = (DevStorage e', x).
Proof. intros E. unfold dev_recv. cbn [receive_byte xbox_class Storage.storage_class fmap option_fmap option_map]. by rewrite E. Qed.

(** The accesses of a cycle run its host command and leave the line alone. *)
Lemma byte_cycle_run n v s a c o l : amd_wf n v s -> 33 <= n -> is_u8 a -> is_u8 c ->
  let s0 := set_ctl (set_cmd (set_addr s a) c) 0x0a in
  cycle_op s0 = Some o ->
  let r := abs_op (a / 2) (smb_data s) o v in
  exists b', let s' := set_bus (cycle_result s0 o r.1.2 r.2) b' in
    run_ports s (byte_cycle a c ++ l) = run_ports s' l /\ amd_wf (n - 33) r.1.1 s'.
Proof.
  intros Hw Hn Ha Hc s0 Eo r.
  assert (Hw0 : amd_wf n v s0) by (destruct Hw; by constructor).
  pose proof (transaction_ok n v s0 Hw0 Hn) as Ht. rewrite Eo in Ht. destruct Ht as (b' & E & Hb').
  destruct (cycle_op_ok n v s0 o Hw0 Eo) as [Hok Hcost].
  destruct (abs_op_data n (a / 2) (smb_data s) o v) as [Hlen Hby];
    [by destruct Hw as [[[] _] _ _ _ _ _ _ _ _ _]|done|lia|].
  exists b'. cbv zeta. split; [|apply (cycle_result_wf n _ v); [done|unfold r; rewrite Hlen; by destruct Hw|done|done]].
  cbn [byte_cycle app run_ports].
  change (amd756_smb_ioport_writeb s SMB_HOST_ADDRESS a) with (Ok (set_addr s (u8 a))).
  cbn [mbind res_mbind res_bind].
  change (amd756_smb_ioport_writeb (set_addr s (u8 a)) SMB_HOST_COMMAND c)
    with (Ok (set_cmd (set_addr s (u8 a)) (u8 c))).
  cbn [mbind res_mbind res_bind]. rewrite !(uwrap_id 8) by done. rewrite enable_run by done.
  change (u8 10) with 10. fold s0. rewrite E. cbn [mbind res_mbind res_bind].
  unfold raise_irq. by destruct (irq _).
Qed.

Lemma tst_bit0_even a : tst (2 * a) 1 = false.
Proof.
  unfold tst. change 1 with (Z.ones 1). rewrite Z.land_ones by lia. change (2 ^ 1) with 2.
  by rewrite Z.mul_comm, Z.mod_mul.
Qed.

Lemma tst_bit0_odd a : tst (2 * a + 1) 1 = true.
Proof.
  unfold tst. change 1 with (Z.ones 1) at 2. rewrite Z.land_ones by lia. change (2 ^ 1) with 2.
  rewrite (Z.mul_comm 2 a), Z.add_comm, Z.mod_add by lia. done.
Qed.

Lemma tst_lor_bit st k : 0 <= k -> tst (Z.lor st (2 ^ k)) (2 ^ k) = true.
Proof.
  intros Hk. unfold tst. apply negb_true_iff, Z.eqb_neq. intros E.
  assert (Z.testbit (Z.land (Z.lor st (2 ^ k)) (2 ^ k)) k = true) as Hb.
  { rewrite Z.land_spec, Z.lor_spec, Z.pow2_bits_true by lia. by rewrite orb_true_r. }
  rewrite E, Z.bits_0 in Hb. done.
Qed.

Lemma abs_write_byte w e d c x : eeprom_at w e ->
  abs_op addr d (WriteByte c x) w = (on_ids [i] (fun d => dev_write d [c; x]) w, d, 0).
Proof. intros (_ & Hs & _). unfold abs_op. by rewrite Hs. Qed.

Lemma abs_read_byte w e e1 e2 d c x : eeprom_at w e ->
  dev_write (DevStorage e) [c] = DevStorage e1 -> dev_recv (DevStorage e1) = (DevStorage e2, x) ->
  exists w', abs_op addr d (ReadByte c) w = (w', d, x) /\ eeprom_at w' e2.
Proof.
  intros He Ew Er. pose proof (eeprom_on_ids w e (fun d => dev_write d [c]) e1 He Ew) as He1.
  pose proof (eeprom_on_ids _ e1 (fun d => (dev_recv d).1) e2 He1 ltac:(cbv beta; by rewrite Er)) as He2.
  destruct He as (Ha & Hs & _). pose proof He1 as (_ & _ & Hi1). eexists. split; [|exact He2].
  unfold abs_op. rewrite Hs, decide_False by done. destruct (Z.eqb_spec addr 0); [lia|].
  unfold abs_write, abs_recv. rewrite Hi1. cbn [fst snd]. by rewrite Er.
Qed.

(** C24. The EEPROM through the ports: writing a byte [x] at offset [a] with a
    byte-data cycle (address with the write bit, command, data, start) and reading
    it back with a second cycle (address with the read bit) gives [x] on the data
    port with HCYC_STS set, whatever the registers held before; the cycles
    change no other byte of the EEPROM. *)
Theorem eeprom_port_roundtrip n v s e a x :
  amd_wf n v s -> 66 <= n -> eeprom_at v e -> is_u8 a -> is_u8 x ->
  exists s' e' st,
    run_ports s (PortWrite SMB_HOST_DATA x :: byte_cycle (2 * addr) a
                 ++ byte_cycle (2 * addr + 1) a ++ [PortRead SMB_HOST_DATA; PortRead SMB_GLOBAL_STATUS])
      = Ok (s', [x; st])
    /\ tst st GS_HCYC_STS = true
    /\ (exists v', amd_wf (n - 66) v' s' /\ eeprom_at v' e')
    /\ Storage.data e' !! Z.to_nat (a mod Storage.size e) = Some x
    /\ (forall k, k <> Z.to_nat (a mod Storage.size e) ->
         Storage.data e' !! k = Storage.data e !! k).
Proof.
  intros Hw Hn He Ha Hx. pose proof He as ((Hlo & Hhi) & _ & Hi).
  assert (Hwe : Storage.storage_wf e).
  { destruct Hw as [[[] _] _ _ _ _ _ _ _ _ _].
    exact (Forall_lookup_1 _ _ _ _ tr_wf0 Hi). }
  destruct (Storage.storage_write_effect e a [x] Hwe Ha) as (e1 & r1 & E1 & Hwe1 & Hsz & _ & Hin & Hout & _);
    [by apply Forall_cons_2|cbn; lia|].
  destruct (Storage.storage_read_back e1 a [x] Hwe1 Ha) as (E2 & e3 & E3).
  { intros j y Hj. rewrite Hsz. by apply Hin. }
  cbn [length Storage.read_bytes] in E3.
  apply res_bind_Ok in E3 as ([e4 y] & E3 & [= <- ->]).
  cbn [app run_ports].
  change (amd756_smb_ioport_writeb s SMB_HOST_DATA x) with (Ok (set_data0 s (u8 x))).
  cbn [mbind res_mbind res_bind]. rewrite (uwrap_id 8) by done.
  destruct (byte_cycle_run n v (set_data0 s x) (2 * addr) a (WriteByte a x)
    (byte_cycle (2 * addr + 1) a ++ [PortRead SMB_HOST_DATA; PortRead SMB_GLOBAL_STATUS]))
    as (b1 & -> & Hw1).
  { destruct Hw; by constructor. } { lia. } { unfold in_uw. lia. } { done. }
  { unfold cycle_op. cbn [smb_addr set_addr set_cmd set_ctl set_data0]. by rewrite tst_bit0_even. }
  replace (2 * addr / 2) with addr in * by dlia.
  rewrite (abs_write_byte v e) in * by done. cbn [fst snd] in *.
  pose proof (eeprom_on_ids v e (fun d => dev_write d [a; x]) e1 He (storage_dev_write e [a; x] e1 r1 E1)) as He1.
  destruct (abs_read_byte _ _ _ _ (smb_data s) a x He1 (storage_dev_write e1 [a] _ _ E2) (storage_dev_recv _ _ _ E3))
    as (v2 & Ev2 & He2).
  set (s1 := set_bus _ b1) in *.
  destruct (byte_cycle_run (n - 33) _ s1 (2 * addr + 1) a (ReadByte a)
    [PortRead SMB_HOST_DATA; PortRead SMB_GLOBAL_STATUS] Hw1) as (b2 & -> & Hw2).
  { lia. } { unfold in_uw. lia. } { done. }
  { unfold cycle_op. cbn [smb_addr set_addr set_cmd set_ctl set_data0]. by rewrite tst_bit0_odd. }
  replace ((2 * addr + 1) / 2) with addr in * by dlia.
  change (smb_data s1) with (smb_data s) in *. rewrite Ev2 in *. cbn [fst snd] in *.
  exists (set_bus (cycle_result (set_ctl (set_cmd (set_addr s1 (2 * addr + 1)) a) 10) (ReadByte a)
           (smb_data s) x) b2), e4, (Z.lor (smb_stat s1) GS_HCYC_STS).
  unfold in_uw in Hx. split; [|split; [|split]].
  - cbn [run_ports]. unfold cycle_result at 1 2. destruct (Z.ltb_spec x 0); [lia|].
    rewrite (uwrap_id 8) by done. done.
  - apply (tst_lor_bit _ 4). done.
  - exists v2. split; [|done]. by replace (n - 66) with (n - 33 - 33) by lia.
  - assert (Storage.data e4 = Storage.data e1) as ->.
    { destruct (Storage.storage_receive_ok (Storage.set_offset e1 a)) as (e5 & y & E5 & _ & _ & _ & He5).
      - destruct Hwe1. constructor; try done. cbn. unfold in_uw in Ha. lia.
      - rewrite E5 in E3. injection E3 as -> ->. by rewrite He5. }
    split; [|intros k Hk; apply Hout; intros [|j] Hj; cbn in Hj; [by rewrite Z.add_0_r|lia]].
    specialize (Hin 0%nat x eq_refl). by rewrite Z.add_0_r in Hin.
Qed.

End EepromPorts.

Lemma eeprom_port_roundtrip_witness :
  exists s' e' st,
    run_ports default_controller
      [PortWrite 6 77; PortWrite 4 0xa8; PortWrite 8 0x40; PortWrite 2 0x0a;
       PortWrite 4 0xa9; PortWrite 8 0x40; PortWrite 2 0x0a; PortRead 6; PortRead 0]
      = Ok (s', [77; st])
    /\ Storage.data e' !! 64%nat = Some 77.
Proof.
  destruct (eeprom_port_roundtrip 0x54 3 read_budget default_devices default_controller
              Storage.sample_eeprom 0x40 77) as (s' & e' & st & E & _ & _ & Hd & _);
    [apply default_controller_wf|done|done|done|done|].
  exists s', e', st. split; [exact E|exact Hd].
Defined.

End AmdSmbus.
