(* ===== verification/Nv2aRegs.v ===== *)
(** * Register map of the NV2A (hw/xbox/nv2a/nv2a_regs.h)

    Addresses, fields and values of the registers the other files use, with the
    names of the header. *)

From S2P Require Import Prelude.

Definition NV_NUM_GPU_TILES : Z := 0x8.
Definition NV_PMC_BOOT_0 : Z := 0x0.
Definition NV_PMC_INTR_0 : Z := 0x100.
Definition NV_PMC_INTR_0_PFIFO : Z := 0x100.
Definition NV_PMC_INTR_0_PGRAPH : Z := 0x1000.
Definition NV_PMC_INTR_0_PCRTC : Z := 0x1000000.
Definition NV_PMC_INTR_EN_0 : Z := 0x140.
Definition NV_PBUS_PCI_NV_0 : Z := 0x800.
Definition NV_PBUS_PCI_NV_1 : Z := 0x804.
Definition NV_PBUS_PCI_NV_2 : Z := 0x808.
Definition NV_PFIFO_INTR_0 : Z := 0x100.
Definition NV_PFIFO_INTR_EN_0 : Z := 0x140.
Definition NV_PFIFO_RAMHT : Z := 0x210.
Definition NV_PFIFO_RAMHT_BASE_ADDRESS : Z := 0x1f0.
Definition NV_PFIFO_RAMHT_SIZE : Z := 0x30000.
Definition NV_PFIFO_RUNOUT_STATUS : Z := 0x400.
Definition NV_PFIFO_RUNOUT_STATUS_LOW_MARK : Z := 0x10.
Definition NV_PFIFO_MODE : Z := 0x504.
Definition NV_PFIFO_CACHE1_PUSH0 : Z := 0x1200.
Definition NV_PFIFO_CACHE1_PUSH0_ACCESS : Z := 0x1.
Definition NV_PFIFO_CACHE1_PUSH1 : Z := 0x1204.
Definition NV_PFIFO_CACHE1_PUSH1_CHID : Z := 0x1f.
Definition NV_PFIFO_CACHE1_PUSH1_MODE : Z := 0x100.
Definition NV_PFIFO_CACHE1_PUSH1_MODE_DMA : Z := 0x1.
Definition NV_PFIFO_CACHE1_STATUS : Z := 0x1214.
Definition NV_PFIFO_CACHE1_STATUS_LOW_MARK : Z := 0x10.
Definition NV_PFIFO_CACHE1_DMA_PUSH : Z := 0x1220.
Definition NV_PFIFO_CACHE1_DMA_PUSH_ACCESS : Z := 0x1.
Definition NV_PFIFO_CACHE1_DMA_PUSH_STATUS : Z := 0x1000.
Definition NV_PFIFO_CACHE1_DMA_STATE : Z := 0x1228.
Definition NV_PFIFO_CACHE1_DMA_STATE_METHOD_TYPE : Z := 0x1.
Definition NV_PFIFO_CACHE1_DMA_STATE_METHOD_TYPE_INC : Z := 0x0.
Definition NV_PFIFO_CACHE1_DMA_STATE_METHOD_TYPE_NON_INC : Z := 0x1.
Definition NV_PFIFO_CACHE1_DMA_STATE_METHOD : Z := 0x1ffc.
Definition NV_PFIFO_CACHE1_DMA_STATE_SUBCHANNEL : Z := 0xe000.
Definition NV_PFIFO_CACHE1_DMA_STATE_METHOD_COUNT : Z := 0x1ffc0000.
Definition NV_PFIFO_CACHE1_DMA_STATE_ERROR : Z := 0xe0000000.
Definition NV_PFIFO_CACHE1_DMA_STATE_ERROR_NONE : Z := 0x0.
Definition NV_PFIFO_CACHE1_DMA_STATE_ERROR_CALL : Z := 0x1.
Definition NV_PFIFO_CACHE1_DMA_STATE_ERROR_RETURN : Z := 0x3.
Definition NV_PFIFO_CACHE1_DMA_INSTANCE : Z := 0x122c.
Definition NV_PFIFO_CACHE1_DMA_INSTANCE_ADDRESS : Z := 0xffff.
Definition NV_PFIFO_CACHE1_DMA_PUT : Z := 0x1240.
Definition NV_PFIFO_CACHE1_DMA_GET : Z := 0x1244.
Definition NV_PFIFO_CACHE1_REF : Z := 0x1248.
Definition NV_PFIFO_CACHE1_DMA_SUBROUTINE : Z := 0x124c.
Definition NV_PFIFO_CACHE1_DMA_SUBROUTINE_STATE : Z := 0x1.
Definition NV_PFIFO_CACHE1_PULL0 : Z := 0x1250.
Definition NV_PFIFO_CACHE1_PULL0_ACCESS : Z := 0x1.
Definition NV_PFIFO_CACHE1_PULL1 : Z := 0x1254.
Definition NV_PFIFO_CACHE1_PULL1_ENGINE : Z := 0x3.
Definition NV_PFIFO_CACHE1_ENGINE : Z := 0x1280.
Definition NV_PFIFO_CACHE1_DMA_DCOUNT : Z := 0x12a0.
Definition NV_PFIFO_CACHE1_DMA_GET_JMP_SHADOW : Z := 0x12a4.
Definition NV_PFIFO_CACHE1_DMA_RSVD_SHADOW : Z := 0x12a8.
Definition NV_PFIFO_CACHE1_DMA_DATA_SHADOW : Z := 0x12ac.
Definition NV_PFIFO_CACHE1_METHOD_TYPE : Z := 0x1.
Definition NV_PFIFO_CACHE1_METHOD_ADDRESS : Z := 0x1ffc.
Definition NV_PFIFO_CACHE1_METHOD_SUBCHANNEL : Z := 0xe000.
Definition NV_PGRAPH_DEBUG_3 : Z := 0x8c.
Definition NV_PGRAPH_DEBUG_3_HW_CONTEXT_SWITCH : Z := 0x4.
Definition NV_PGRAPH_INTR : Z := 0x100.
Definition NV_PGRAPH_INTR_CONTEXT_SWITCH : Z := 0x1000.
Definition NV_PGRAPH_INTR_ERROR : Z := 0x100000.
Definition NV_PGRAPH_NSOURCE : Z := 0x108.
Definition NV_PGRAPH_NSOURCE_NOTIFICATION : Z := 0x1.
Definition NV_PGRAPH_INTR_EN : Z := 0x140.
Definition NV_PGRAPH_CTX_CONTROL : Z := 0x144.
Definition NV_PGRAPH_CTX_CONTROL_CHID : Z := 0x10000.
Definition NV_PGRAPH_CTX_USER : Z := 0x148.
Definition NV_PGRAPH_CTX_USER_CHID : Z := 0x1f000000.
Definition NV_PGRAPH_CTX_SWITCH1 : Z := 0x14c.
Definition NV_PGRAPH_CTX_SWITCH1_GRCLASS : Z := 0xff.
Definition NV_PGRAPH_CTX_SWITCH2 : Z := 0x150.
Definition NV_PGRAPH_CTX_SWITCH3 : Z := 0x154.
Definition NV_PGRAPH_CTX_SWITCH4 : Z := 0x158.
Definition NV_PGRAPH_CTX_SWITCH5 : Z := 0x15c.
Definition NV_PGRAPH_CTX_CACHE1 : Z := 0x160.
Definition NV_PGRAPH_CTX_CACHE2 : Z := 0x180.
Definition NV_PGRAPH_CTX_CACHE3 : Z := 0x1a0.
Definition NV_PGRAPH_CTX_CACHE4 : Z := 0x1c0.
Definition NV_PGRAPH_CTX_CACHE5 : Z := 0x1e0.
Definition NV_PGRAPH_TRAPPED_ADDR : Z := 0x704.
Definition NV_PGRAPH_TRAPPED_ADDR_MTHD : Z := 0x1fff.
Definition NV_PGRAPH_TRAPPED_ADDR_SUBCH : Z := 0x70000.
Definition NV_PGRAPH_TRAPPED_ADDR_CHID : Z := 0x1f00000.
Definition NV_PGRAPH_TRAPPED_DATA_LOW : Z := 0x708.
Definition NV_PGRAPH_SURFACE : Z := 0x710.
Definition NV_PGRAPH_SURFACE_WRITE_3D : Z := 0x700000.
Definition NV_PGRAPH_SURFACE_READ_3D : Z := 0x7000000.
Definition NV_PGRAPH_SURFACE_MODULO_3D : Z := 0x70000000.
Definition NV_PGRAPH_INCREMENT : Z := 0x71c.
Definition NV_PGRAPH_INCREMENT_READ_3D : Z := 0x2.
Definition NV_PGRAPH_FIFO : Z := 0x720.
Definition NV_PGRAPH_FIFO_ACCESS : Z := 0x1.
Definition NV_PGRAPH_RDI_INDEX : Z := 0x750.
Definition NV_PGRAPH_RDI_INDEX_ADDRESS : Z := 0x1ffc.
Definition NV_PGRAPH_RDI_INDEX_SELECT : Z := 0x1ff0000.
Definition NV_PGRAPH_RDI_DATA : Z := 0x754.
Definition NV_PGRAPH_CHANNEL_CTX_POINTER : Z := 0x784.
Definition NV_PGRAPH_CHANNEL_CTX_POINTER_INST : Z := 0xffff.
Definition NV_PGRAPH_CHANNEL_CTX_TRIGGER : Z := 0x788.
Definition NV_PGRAPH_CHANNEL_CTX_TRIGGER_READ_IN : Z := 0x1.
Definition NV_PGRAPH_PATT_COLOR0 : Z := 0xb10.
Definition NV_PGRAPH_CSV0_D : Z := 0xfb4.
Definition NV_PGRAPH_CSV0_D_LIGHTS : Z := 0xffff.
Definition NV_PGRAPH_CSV0_D_RANGE_MODE : Z := 0x40000.
Definition NV_PGRAPH_CSV0_D_TEXGEN_REF : Z := 0x100000.
Definition NV_PGRAPH_CSV0_D_FOGGENMODE : Z := 0x1c00000.
Definition NV_PGRAPH_CSV0_D_FOGGENMODE_SPEC_ALPHA : Z := 0x0.
Definition NV_PGRAPH_CSV0_D_FOGGENMODE_RADIAL : Z := 0x1.
Definition NV_PGRAPH_CSV0_D_FOGGENMODE_PLANAR : Z := 0x2.
Definition NV_PGRAPH_CSV0_D_FOGGENMODE_ABS_PLANAR : Z := 0x3.
Definition NV_PGRAPH_CSV0_D_FOGGENMODE_FOG_X : Z := 0x4.
Definition NV_PGRAPH_CSV0_D_MODE : Z := 0xc0000000.
Definition NV_PGRAPH_CSV0_D_POINTPARAMSENABLE : Z := 0x2000000.
Definition NV_PGRAPH_CSV0_D_SKIN : Z := 0x1c000000.
Definition NV_PGRAPH_CSV0_C : Z := 0xfb8.
Definition NV_PGRAPH_CSV0_C_CHEOPS_PROGRAM_START : Z := 0xff00.
Definition NV_PGRAPH_CSV0_C_SPECULAR_ENABLE : Z := 0x10000.
Definition NV_PGRAPH_CSV0_C_ALPHA_FROM_MATERIAL_SPECULAR : Z := 0x20000.
Definition NV_PGRAPH_CSV0_C_SEPARATE_SPECULAR : Z := 0x40000.
Definition NV_PGRAPH_CSV0_C_SPECULAR : Z := 0x180000.
Definition NV_PGRAPH_CSV0_C_DIFFUSE : Z := 0x600000.
Definition NV_PGRAPH_CSV0_C_AMBIENT : Z := 0x1800000.
Definition NV_PGRAPH_CSV0_C_EMISSION : Z := 0x6000000.
Definition NV_PGRAPH_CSV0_C_NORMALIZATION_ENABLE : Z := 0x8000000.
Definition NV_PGRAPH_CSV0_C_LOCALEYE : Z := 0x40000000.
Definition NV_PGRAPH_CSV0_C_LIGHTING : Z := 0x80000000.
Definition NV_PGRAPH_CSV1_B : Z := 0xfbc.
Definition NV_PGRAPH_CSV1_A : Z := 0xfc0.
Definition NV_PGRAPH_CSV1_A_T0_S : Z := 0x70.
Definition NV_PGRAPH_CSV1_A_T0_S_DISABLE : Z := 0x0.
Definition NV_PGRAPH_CSV1_A_T0_S_NORMAL_MAP : Z := 0x4.
Definition NV_PGRAPH_CSV1_A_T0_S_REFLECTION_MAP : Z := 0x5.
Definition NV_PGRAPH_CSV1_A_T0_S_EYE_LINEAR : Z := 0x1.
Definition NV_PGRAPH_CSV1_A_T0_S_OBJECT_LINEAR : Z := 0x2.
Definition NV_PGRAPH_CSV1_A_T0_S_SPHERE_MAP : Z := 0x3.
Definition NV_PGRAPH_CSV1_A_T0_T : Z := 0x380.
Definition NV_PGRAPH_CSV1_A_T0_R : Z := 0x1c00.
Definition NV_PGRAPH_CSV1_A_T0_Q : Z := 0xe000.
Definition NV_PGRAPH_CSV1_A_T1_S : Z := 0x700000.
Definition NV_PGRAPH_CSV1_A_T1_T : Z := 0x3800000.
Definition NV_PGRAPH_CSV1_A_T1_R : Z := 0x1c000000.
Definition NV_PGRAPH_CSV1_A_T1_Q : Z := 0xe0000000.
Definition NV_PGRAPH_CHEOPS_OFFSET : Z := 0xfc4.
Definition NV_PGRAPH_CHEOPS_OFFSET_PROG_LD_PTR : Z := 0xff.
Definition NV_PGRAPH_CHEOPS_OFFSET_CONST_LD_PTR : Z := 0xff00.
Definition NV_PGRAPH_ANTIALIASING : Z := 0x1800.
Definition NV_PGRAPH_ANTIALIASING_ENABLE : Z := 0x1.
Definition NV_PGRAPH_BLEND : Z := 0x1804.
Definition NV_PGRAPH_BLEND_EQN : Z := 0x7.
Definition NV_PGRAPH_BLEND_EN : Z := 0x8.
Definition NV_PGRAPH_BLEND_SFACTOR : Z := 0xf0.
Definition NV_PGRAPH_BLEND_SFACTOR_ZERO : Z := 0x0.
Definition NV_PGRAPH_BLEND_SFACTOR_ONE : Z := 0x1.
Definition NV_PGRAPH_BLEND_SFACTOR_SRC_COLOR : Z := 0x2.
Definition NV_PGRAPH_BLEND_SFACTOR_ONE_MINUS_SRC_COLOR : Z := 0x3.
Definition NV_PGRAPH_BLEND_SFACTOR_SRC_ALPHA : Z := 0x4.
Definition NV_PGRAPH_BLEND_SFACTOR_ONE_MINUS_SRC_ALPHA : Z := 0x5.
Definition NV_PGRAPH_BLEND_SFACTOR_DST_ALPHA : Z := 0x6.
Definition NV_PGRAPH_BLEND_SFACTOR_ONE_MINUS_DST_ALPHA : Z := 0x7.
Definition NV_PGRAPH_BLEND_SFACTOR_DST_COLOR : Z := 0x8.
Definition NV_PGRAPH_BLEND_SFACTOR_ONE_MINUS_DST_COLOR : Z := 0x9.
Definition NV_PGRAPH_BLEND_SFACTOR_SRC_ALPHA_SATURATE : Z := 0xa.
Definition NV_PGRAPH_BLEND_SFACTOR_CONSTANT_COLOR : Z := 0xc.
Definition NV_PGRAPH_BLEND_SFACTOR_ONE_MINUS_CONSTANT_COLOR : Z := 0xd.
Definition NV_PGRAPH_BLEND_SFACTOR_CONSTANT_ALPHA : Z := 0xe.
Definition NV_PGRAPH_BLEND_SFACTOR_ONE_MINUS_CONSTANT_ALPHA : Z := 0xf.
Definition NV_PGRAPH_BLEND_DFACTOR : Z := 0xf00.
Definition NV_PGRAPH_BLEND_DFACTOR_ZERO : Z := 0x0.
Definition NV_PGRAPH_BLEND_DFACTOR_ONE : Z := 0x1.
Definition NV_PGRAPH_BLEND_DFACTOR_SRC_COLOR : Z := 0x2.
Definition NV_PGRAPH_BLEND_DFACTOR_ONE_MINUS_SRC_COLOR : Z := 0x3.
Definition NV_PGRAPH_BLEND_DFACTOR_SRC_ALPHA : Z := 0x4.
Definition NV_PGRAPH_BLEND_DFACTOR_ONE_MINUS_SRC_ALPHA : Z := 0x5.
Definition NV_PGRAPH_BLEND_DFACTOR_DST_ALPHA : Z := 0x6.
Definition NV_PGRAPH_BLEND_DFACTOR_ONE_MINUS_DST_ALPHA : Z := 0x7.
Definition NV_PGRAPH_BLEND_DFACTOR_DST_COLOR : Z := 0x8.
Definition NV_PGRAPH_BLEND_DFACTOR_ONE_MINUS_DST_COLOR : Z := 0x9.
Definition NV_PGRAPH_BLEND_DFACTOR_SRC_ALPHA_SATURATE : Z := 0xa.
Definition NV_PGRAPH_BLEND_DFACTOR_CONSTANT_COLOR : Z := 0xc.
Definition NV_PGRAPH_BLEND_DFACTOR_ONE_MINUS_CONSTANT_COLOR : Z := 0xd.
Definition NV_PGRAPH_BLEND_DFACTOR_CONSTANT_ALPHA : Z := 0xe.
Definition NV_PGRAPH_BLEND_DFACTOR_ONE_MINUS_CONSTANT_ALPHA : Z := 0xf.
Definition NV_PGRAPH_BLEND_LOGICOP_ENABLE : Z := 0x10000.
Definition NV_PGRAPH_BLEND_LOGICOP : Z := 0xf000.
Definition NV_PGRAPH_BLENDCOLOR : Z := 0x1808.
Definition NV_PGRAPH_BORDERCOLOR0 : Z := 0x180c.
Definition NV_PGRAPH_BUMPMAT00 : Z := 0x181c.
Definition NV_PGRAPH_BUMPMAT01 : Z := 0x1828.
Definition NV_PGRAPH_BUMPMAT10 : Z := 0x1834.
Definition NV_PGRAPH_BUMPMAT11 : Z := 0x1840.
Definition NV_PGRAPH_BUMPOFFSET1 : Z := 0x184c.
Definition NV_PGRAPH_BUMPSCALE1 : Z := 0x1858.
Definition NV_PGRAPH_CLEARRECTX : Z := 0x1864.
Definition NV_PGRAPH_CLEARRECTY : Z := 0x1868.
Definition NV_PGRAPH_COLORCLEARVALUE : Z := 0x186c.
Definition NV_PGRAPH_COLORKEYCOLOR0 : Z := 0x1870.
Definition NV_PGRAPH_COMBINEFACTOR0 : Z := 0x1880.
Definition NV_PGRAPH_COMBINEFACTOR1 : Z := 0x18a0.
Definition NV_PGRAPH_COMBINEALPHAI0 : Z := 0x18c0.
Definition NV_PGRAPH_COMBINEALPHAO0 : Z := 0x18e0.
Definition NV_PGRAPH_COMBINECOLORI0 : Z := 0x1900.
Definition NV_PGRAPH_COMBINECOLORO0 : Z := 0x1920.
Definition NV_PGRAPH_COMBINECTL : Z := 0x1940.
Definition NV_PGRAPH_COMBINESPECFOG0 : Z := 0x1944.
Definition NV_PGRAPH_COMBINESPECFOG1 : Z := 0x1948.
Definition NV_PGRAPH_CONTROL_0 : Z := 0x194c.
Definition NV_PGRAPH_CONTROL_0_ALPHAREF : Z := 0xff.
Definition NV_PGRAPH_CONTROL_0_ALPHAFUNC : Z := 0xf00.
Definition NV_PGRAPH_CONTROL_0_ALPHATESTENABLE : Z := 0x1000.
Definition NV_PGRAPH_CONTROL_0_ZENABLE : Z := 0x4000.
Definition NV_PGRAPH_CONTROL_0_ZFUNC : Z := 0xf0000.
Definition NV_PGRAPH_CONTROL_0_DITHERENABLE : Z := 0x400000.
Definition NV_PGRAPH_CONTROL_0_Z_PERSPECTIVE_ENABLE : Z := 0x800000.
Definition NV_PGRAPH_CONTROL_0_ZWRITEENABLE : Z := 0x1000000.
Definition NV_PGRAPH_CONTROL_0_STENCIL_WRITE_ENABLE : Z := 0x2000000.
Definition NV_PGRAPH_CONTROL_0_ALPHA_WRITE_ENABLE : Z := 0x4000000.
Definition NV_PGRAPH_CONTROL_0_RED_WRITE_ENABLE : Z := 0x8000000.
Definition NV_PGRAPH_CONTROL_0_GREEN_WRITE_ENABLE : Z := 0x10000000.
Definition NV_PGRAPH_CONTROL_0_BLUE_WRITE_ENABLE : Z := 0x20000000.
Definition NV_PGRAPH_CONTROL_1 : Z := 0x1950.
Definition NV_PGRAPH_CONTROL_1_STENCIL_TEST_ENABLE : Z := 0x1.
Definition NV_PGRAPH_CONTROL_1_STENCIL_FUNC : Z := 0xf0.
Definition NV_PGRAPH_CONTROL_1_STENCIL_REF : Z := 0xff00.
Definition NV_PGRAPH_CONTROL_1_STENCIL_MASK_READ : Z := 0xff0000.
Definition NV_PGRAPH_CONTROL_1_STENCIL_MASK_WRITE : Z := 0xff000000.
Definition NV_PGRAPH_CONTROL_2 : Z := 0x1954.
Definition NV_PGRAPH_CONTROL_2_STENCIL_OP_FAIL : Z := 0xf.
Definition NV_PGRAPH_CONTROL_2_STENCIL_OP_ZFAIL : Z := 0xf0.
Definition NV_PGRAPH_CONTROL_2_STENCIL_OP_ZPASS : Z := 0xf00.
Definition NV_PGRAPH_CONTROL_2_STENCIL_OP_V_KEEP : Z := 0x1.
Definition NV_PGRAPH_CONTROL_2_STENCIL_OP_V_ZERO : Z := 0x2.
Definition NV_PGRAPH_CONTROL_2_STENCIL_OP_V_REPLACE : Z := 0x3.
Definition NV_PGRAPH_CONTROL_2_STENCIL_OP_V_INCRSAT : Z := 0x4.
Definition NV_PGRAPH_CONTROL_2_STENCIL_OP_V_DECRSAT : Z := 0x5.
Definition NV_PGRAPH_CONTROL_2_STENCIL_OP_V_INVERT : Z := 0x6.
Definition NV_PGRAPH_CONTROL_2_STENCIL_OP_V_INCR : Z := 0x7.
Definition NV_PGRAPH_CONTROL_2_STENCIL_OP_V_DECR : Z := 0x8.
Definition NV_PGRAPH_CONTROL_3 : Z := 0x1958.
Definition NV_PGRAPH_CONTROL_3_PROVOKING_VERTEX : Z := 0x1.
Definition NV_PGRAPH_CONTROL_3_SHADEMODE : Z := 0x80.
Definition NV_PGRAPH_CONTROL_3_SHADEMODE_FLAT : Z := 0x0.
Definition NV_PGRAPH_CONTROL_3_SHADEMODE_SMOOTH : Z := 0x1.
Definition NV_PGRAPH_CONTROL_3_FOGENABLE : Z := 0x100.
Definition NV_PGRAPH_CONTROL_3_FOG_MODE : Z := 0x70000.
Definition NV_PGRAPH_CONTROL_3_FOG_MODE_LINEAR : Z := 0x0.
Definition NV_PGRAPH_CONTROL_3_FOG_MODE_EXP : Z := 0x1.
Definition NV_PGRAPH_CONTROL_3_FOG_MODE_EXP2 : Z := 0x3.
Definition NV_PGRAPH_CONTROL_3_FOG_MODE_EXP_ABS : Z := 0x5.
Definition NV_PGRAPH_CONTROL_3_FOG_MODE_EXP2_ABS : Z := 0x7.
Definition NV_PGRAPH_CONTROL_3_FOG_MODE_LINEAR_ABS : Z := 0x4.
Definition NV_PGRAPH_CONTROL_3_POINTPARAMSENABLE : Z := 0x200.
Definition NV_PGRAPH_FOGCOLOR : Z := 0x1980.
Definition NV_PGRAPH_FOGCOLOR_RED : Z := 0xff0000.
Definition NV_PGRAPH_FOGCOLOR_GREEN : Z := 0xff00.
Definition NV_PGRAPH_FOGCOLOR_BLUE : Z := 0xff.
Definition NV_PGRAPH_FOGCOLOR_ALPHA : Z := 0xff000000.
Definition NV_PGRAPH_FOGPARAM0 : Z := 0x1984.
Definition NV_PGRAPH_POINTSIZE : Z := 0x198c.
Definition NV_PGRAPH_SETUPRASTER : Z := 0x1990.
Definition NV_PGRAPH_SETUPRASTER_FRONTFACEMODE : Z := 0x3.
Definition NV_PGRAPH_SETUPRASTER_FRONTFACEMODE_FILL : Z := 0x0.
Definition NV_PGRAPH_SETUPRASTER_FRONTFACEMODE_POINT : Z := 0x1.
Definition NV_PGRAPH_SETUPRASTER_FRONTFACEMODE_LINE : Z := 0x2.
Definition NV_PGRAPH_SETUPRASTER_BACKFACEMODE : Z := 0xc.
Definition NV_PGRAPH_SETUPRASTER_POFFSETPOINTENABLE : Z := 0x40.
Definition NV_PGRAPH_SETUPRASTER_POFFSETLINEENABLE : Z := 0x80.
Definition NV_PGRAPH_SETUPRASTER_POFFSETFILLENABLE : Z := 0x100.
Definition NV_PGRAPH_SETUPRASTER_POINTSMOOTHENABLE : Z := 0x200.
Definition NV_PGRAPH_SETUPRASTER_LINESMOOTHENABLE : Z := 0x400.
Definition NV_PGRAPH_SETUPRASTER_POLYSMOOTHENABLE : Z := 0x800.
Definition NV_PGRAPH_SETUPRASTER_CULLCTRL : Z := 0x600000.
Definition NV_PGRAPH_SETUPRASTER_CULLCTRL_FRONT : Z := 0x1.
Definition NV_PGRAPH_SETUPRASTER_CULLCTRL_BACK : Z := 0x2.
Definition NV_PGRAPH_SETUPRASTER_CULLCTRL_FRONT_AND_BACK : Z := 0x3.
Definition NV_PGRAPH_SETUPRASTER_FRONTFACE : Z := 0x800000.
Definition NV_PGRAPH_SETUPRASTER_CULLENABLE : Z := 0x10000000.
Definition NV_PGRAPH_SETUPRASTER_Z_FORMAT : Z := 0x20000000.
Definition NV_PGRAPH_SETUPRASTER_WINDOWCLIPTYPE : Z := 0x80000000.
Definition NV_PGRAPH_SHADERCLIPMODE : Z := 0x1994.
Definition NV_PGRAPH_SHADERCTL : Z := 0x1998.
Definition NV_PGRAPH_SHADERPROG : Z := 0x199c.
Definition NV_PGRAPH_SEMAPHOREOFFSET : Z := 0x19a0.
Definition NV_PGRAPH_SHADOWCTL : Z := 0x19a4.
Definition NV_PGRAPH_SHADOWCTL_SHADOW_ZFUNC : Z := 0x7.
Definition NV_PGRAPH_SHADOWZSLOPETHRESHOLD : Z := 0x19a8.
Definition NV_PGRAPH_SPECFOGFACTOR0 : Z := 0x19ac.
Definition NV_PGRAPH_TEXADDRESS0 : Z := 0x19bc.
Definition NV_PGRAPH_TEXCTL0_0 : Z := 0x19cc.
Definition NV_PGRAPH_TEXCTL0_0_MAX_LOD_CLAMP : Z := 0x3ffc0.
Definition NV_PGRAPH_TEXCTL0_0_MIN_LOD_CLAMP : Z := 0x3ffc0000.
Definition NV_PGRAPH_TEXCTL0_0_ENABLE : Z := 0x40000000.
Definition NV_PGRAPH_TEXCTL1_0 : Z := 0x19dc.
Definition NV_PGRAPH_TEXCTL1_0_IMAGE_PITCH : Z := 0xffff0000.
Definition NV_PGRAPH_TEXFILTER0 : Z := 0x19f4.
Definition NV_PGRAPH_TEXFMT0 : Z := 0x1a04.
Definition NV_PGRAPH_TEXFMT0_CONTEXT_DMA : Z := 0x2.
Definition NV_PGRAPH_TEXFMT0_CUBEMAPENABLE : Z := 0x4.
Definition NV_PGRAPH_TEXFMT0_BORDER_SOURCE : Z := 0x8.
Definition NV_PGRAPH_TEXFMT0_BORDER_SOURCE_COLOR : Z := 0x1.
Definition NV_PGRAPH_TEXFMT0_DIMENSIONALITY : Z := 0xc0.
Definition NV_PGRAPH_TEXFMT0_COLOR : Z := 0x7f00.
Definition NV_PGRAPH_TEXFMT0_MIPMAP_LEVELS : Z := 0xf0000.
Definition NV_PGRAPH_TEXFMT0_BASE_SIZE_U : Z := 0xf00000.
Definition NV_PGRAPH_TEXFMT0_BASE_SIZE_V : Z := 0xf000000.
Definition NV_PGRAPH_TEXFMT0_BASE_SIZE_P : Z := 0xf0000000.
Definition NV_PGRAPH_TEXIMAGERECT0 : Z := 0x1a14.
Definition NV_PGRAPH_TEXIMAGERECT0_WIDTH : Z := 0x1fff0000.
Definition NV_PGRAPH_TEXIMAGERECT0_HEIGHT : Z := 0x1fff.
Definition NV_PGRAPH_TEXOFFSET0 : Z := 0x1a24.
Definition NV_PGRAPH_TEXPALETTE0 : Z := 0x1a34.
Definition NV_PGRAPH_TEXPALETTE0_CONTEXT_DMA : Z := 0x1.
Definition NV_PGRAPH_TEXPALETTE0_LENGTH : Z := 0xc.
Definition NV_PGRAPH_TEXPALETTE0_LENGTH_256 : Z := 0x0.
Definition NV_PGRAPH_TEXPALETTE0_LENGTH_128 : Z := 0x1.
Definition NV_PGRAPH_TEXPALETTE0_LENGTH_64 : Z := 0x2.
Definition NV_PGRAPH_TEXPALETTE0_LENGTH_32 : Z := 0x3.
Definition NV_PGRAPH_TEXPALETTE0_OFFSET : Z := 0xffffffc0.
Definition NV_PGRAPH_WINDOWCLIPX0 : Z := 0x1a44.
Definition NV_PGRAPH_WINDOWCLIPY0 : Z := 0x1a64.
Definition NV_PGRAPH_ZCOMPRESSOCCLUDE : Z := 0x1a84.
Definition NV_PGRAPH_ZCOMPRESSOCCLUDE_ZCLAMP_EN : Z := 0x10.
Definition NV_PGRAPH_ZCOMPRESSOCCLUDE_ZCLAMP_EN_CULL : Z := 0x0.
Definition NV_PGRAPH_ZCOMPRESSOCCLUDE_ZCLAMP_EN_CLAMP : Z := 0x1.
Definition NV_PGRAPH_ZSTENCILCLEARVALUE : Z := 0x1a88.
Definition NV_PGRAPH_ZCLIPMIN : Z := 0x1a90.
Definition NV_PGRAPH_ZOFFSETBIAS : Z := 0x1aa4.
Definition NV_PGRAPH_ZOFFSETFACTOR : Z := 0x1aa8.
Definition NV_PGRAPH_EYEVEC0 : Z := 0x1aac.
Definition NV_PGRAPH_ZCLIPMAX : Z := 0x1abc.
Definition NV_PCRTC_INTR_0 : Z := 0x100.
Definition NV_PCRTC_INTR_0_VBLANK : Z := 0x1.
Definition NV_PCRTC_INTR_EN_0 : Z := 0x140.
Definition NV_PCRTC_START : Z := 0x800.
Definition NV_PCRTC_RASTER : Z := 0x808.
Definition NV_PVIDEO_BUFFER : Z := 0x700.
Definition NV_PVIDEO_STOP : Z := 0x704.
Definition NV_PVIDEO_POINT_OUT : Z := 0x948.
Definition NV_PVIDEO_POINT_OUT_Y : Z := 0xfff0000.
Definition NV_PVIDEO_SIZE_OUT : Z := 0x950.
Definition NV_PVIDEO_SIZE_OUT_HEIGHT : Z := 0xfff0000.
Definition NV_PTIMER_INTR_0 : Z := 0x100.
Definition NV_PTIMER_INTR_EN_0 : Z := 0x140.
Definition NV_PTIMER_NUMERATOR : Z := 0x200.
Definition NV_PTIMER_DENOMINATOR : Z := 0x210.
Definition NV_PTIMER_TIME_0 : Z := 0x400.
Definition NV_PTIMER_TIME_1 : Z := 0x410.
Definition NV_PTIMER_ALARM_0 : Z := 0x420.
Definition NV_PFB_CSTATUS : Z := 0x20c.
Definition NV_PFB_TILE : Z := 0x240.
Definition NV_PFB_TILE_FLAGS_VALID : Z := 0x1.
Definition NV_PFB_WBC : Z := 0x410.
Definition NV_PRAMDAC_NVPLL_COEFF : Z := 0x500.
Definition NV_PRAMDAC_NVPLL_COEFF_MDIV : Z := 0xff.
Definition NV_PRAMDAC_NVPLL_COEFF_NDIV : Z := 0xff00.
Definition NV_PRAMDAC_NVPLL_COEFF_PDIV : Z := 0x70000.
Definition NV_PRAMDAC_MPLL_COEFF : Z := 0x504.
Definition NV_PRAMDAC_VPLL_COEFF : Z := 0x508.
Definition NV_PRAMDAC_PLL_TEST_COUNTER : Z := 0x514.
Definition NV_PRAMDAC_PLL_TEST_COUNTER_VPLL2_LOCK : Z := 0x8000000.
Definition NV_PRAMDAC_PLL_TEST_COUNTER_NVPLL_LOCK : Z := 0x20000000.
Definition NV_PRAMDAC_PLL_TEST_COUNTER_MPLL_LOCK : Z := 0x40000000.
Definition NV_PRAMDAC_PLL_TEST_COUNTER_VPLL_LOCK : Z := 0x80000000.
Definition NV_PRAMDAC_GENERAL_CONTROL : Z := 0x600.
Definition NV_PRAMDAC_FP_VDISPLAY_END : Z := 0x800.
Definition NV_PRAMDAC_FP_VCRTC : Z := 0x808.
Definition NV_PRAMDAC_FP_VSYNC_END : Z := 0x810.
Definition NV_PRAMDAC_FP_VVALID_END : Z := 0x818.
Definition NV_PRAMDAC_FP_HDISPLAY_END : Z := 0x820.
Definition NV_PRAMDAC_FP_HCRTC : Z := 0x828.
Definition NV_PRAMDAC_FP_HVALID_END : Z := 0x838.
Definition NV_USER_DAC_WRITE_MODE_ADDRESS : Z := 0x3c8.
Definition NV_USER_DAC_PALETTE_DATA : Z := 0x3c9.
Definition NV_USER_DMA_PUT : Z := 0x40.
Definition NV_USER_DMA_GET : Z := 0x44.
Definition NV_USER_REF : Z := 0x48.
Definition NV_DMA_CLASS : Z := 0xfff.
Definition NV_DMA_TARGET : Z := 0x30000.
Definition NV_DMA_ADJUST : Z := 0xfff00000.
Definition NV_DMA_ADDRESS : Z := 0xfffff000.
Definition NV_RAMHT_INSTANCE : Z := 0xffff.
Definition NV_RAMHT_ENGINE : Z := 0x30000.
Definition NV_RAMHT_CHID : Z := 0x1f000000.
Definition NV_RAMHT_STATUS : Z := 0x80000000.
Definition NV_SET_OBJECT : Z := 0x0.
Definition NV_BETA : Z := 0x12.
Definition NV012_SET_OBJECT : Z := 0x0.
Definition NV012_SET_BETA : Z := 0x300.
Definition NV_CONTEXT_PATTERN : Z := 0x44.
Definition NV044_SET_MONOCHROME_COLOR0 : Z := 0x310.
Definition NV_CONTEXT_SURFACES_2D : Z := 0x62.
Definition NV062_SET_OBJECT : Z := 0x0.
Definition NV062_SET_CONTEXT_DMA_IMAGE_SOURCE : Z := 0x184.
Definition NV062_SET_CONTEXT_DMA_IMAGE_DESTIN : Z := 0x188.
Definition NV062_SET_COLOR_FORMAT : Z := 0x300.
Definition NV062_SET_PITCH : Z := 0x304.
Definition NV062_SET_OFFSET_SOURCE : Z := 0x308.
Definition NV062_SET_OFFSET_DESTIN : Z := 0x30c.
Definition NV_IMAGE_BLIT : Z := 0x9f.
Definition NV09F_SET_OBJECT : Z := 0x0.
Definition NV09F_SET_CONTEXT_SURFACES : Z := 0x19c.
Definition NV09F_SET_OPERATION : Z := 0x2fc.
Definition NV09F_CONTROL_POINT_IN : Z := 0x300.
Definition NV09F_CONTROL_POINT_OUT : Z := 0x304.
Definition NV09F_SIZE : Z := 0x308.
Definition NV_KELVIN_PRIMITIVE : Z := 0x97.
Definition NV097_SET_OBJECT : Z := 0x0.
Definition NV097_NO_OPERATION : Z := 0x100.
Definition NV097_WAIT_FOR_IDLE : Z := 0x110.
Definition NV097_SET_FLIP_READ : Z := 0x120.
Definition NV097_SET_FLIP_WRITE : Z := 0x124.
Definition NV097_SET_FLIP_MODULO : Z := 0x128.
Definition NV097_FLIP_INCREMENT_WRITE : Z := 0x12c.
Definition NV097_FLIP_STALL : Z := 0x130.
Definition NV097_SET_CONTEXT_DMA_NOTIFIES : Z := 0x180.
Definition NV097_SET_CONTEXT_DMA_A : Z := 0x184.
Definition NV097_SET_CONTEXT_DMA_B : Z := 0x188.
Definition NV097_SET_CONTEXT_DMA_STATE : Z := 0x190.
Definition NV097_SET_CONTEXT_DMA_COLOR : Z := 0x194.
Definition NV097_SET_CONTEXT_DMA_ZETA : Z := 0x198.
Definition NV097_SET_CONTEXT_DMA_VERTEX_A : Z := 0x19c.
Definition NV097_SET_CONTEXT_DMA_VERTEX_B : Z := 0x1a0.
Definition NV097_SET_CONTEXT_DMA_SEMAPHORE : Z := 0x1a4.
Definition NV097_SET_CONTEXT_DMA_REPORT : Z := 0x1a8.
Definition NV097_SET_SURFACE_CLIP_HORIZONTAL : Z := 0x200.
Definition NV097_SET_SURFACE_CLIP_HORIZONTAL_X : Z := 0xffff.
Definition NV097_SET_SURFACE_CLIP_HORIZONTAL_WIDTH : Z := 0xffff0000.
Definition NV097_SET_SURFACE_CLIP_VERTICAL : Z := 0x204.
Definition NV097_SET_SURFACE_CLIP_VERTICAL_Y : Z := 0xffff.
Definition NV097_SET_SURFACE_CLIP_VERTICAL_HEIGHT : Z := 0xffff0000.
Definition NV097_SET_SURFACE_FORMAT : Z := 0x208.
Definition NV097_SET_SURFACE_FORMAT_COLOR : Z := 0xf.
Definition NV097_SET_SURFACE_FORMAT_ZETA : Z := 0xf0.
Definition NV097_SET_SURFACE_FORMAT_TYPE : Z := 0xf00.
Definition NV097_SET_SURFACE_FORMAT_ANTI_ALIASING : Z := 0xf000.
Definition NV097_SET_SURFACE_FORMAT_WIDTH : Z := 0xff0000.
Definition NV097_SET_SURFACE_FORMAT_HEIGHT : Z := 0xff000000.
Definition NV097_SET_SURFACE_PITCH : Z := 0x20c.
Definition NV097_SET_SURFACE_PITCH_COLOR : Z := 0xffff.
Definition NV097_SET_SURFACE_PITCH_ZETA : Z := 0xffff0000.
Definition NV097_SET_SURFACE_COLOR_OFFSET : Z := 0x210.
Definition NV097_SET_SURFACE_ZETA_OFFSET : Z := 0x214.
Definition NV097_SET_COMBINER_ALPHA_ICW : Z := 0x260.
Definition NV097_SET_COMBINER_SPECULAR_FOG_CW0 : Z := 0x288.
Definition NV097_SET_COMBINER_SPECULAR_FOG_CW1 : Z := 0x28c.
Definition NV097_SET_CONTROL0 : Z := 0x290.
Definition NV097_SET_CONTROL0_STENCIL_WRITE_ENABLE : Z := 0x1.
Definition NV097_SET_CONTROL0_Z_FORMAT : Z := 0x1000.
Definition NV097_SET_CONTROL0_Z_PERSPECTIVE_ENABLE : Z := 0x10000.
Definition NV097_SET_LIGHT_CONTROL : Z := 0x294.
Definition NV097_SET_LIGHT_CONTROL_SEPARATE_SPECULAR : Z := 0x1.
Definition NV097_SET_LIGHT_CONTROL_LOCALEYE : Z := 0x10000.
Definition NV097_SET_LIGHT_CONTROL_ALPHA_FROM_MATERIAL_SPECULAR : Z := 0x20000.
Definition NV097_SET_COLOR_MATERIAL : Z := 0x298.
Definition NV097_SET_FOG_MODE : Z := 0x29c.
Definition NV097_SET_FOG_MODE_V_LINEAR : Z := 0x2601.
Definition NV097_SET_FOG_MODE_V_EXP : Z := 0x800.
Definition NV097_SET_FOG_MODE_V_EXP2 : Z := 0x801.
Definition NV097_SET_FOG_MODE_V_EXP_ABS : Z := 0x802.
Definition NV097_SET_FOG_MODE_V_EXP2_ABS : Z := 0x803.
Definition NV097_SET_FOG_MODE_V_LINEAR_ABS : Z := 0x804.
Definition NV097_SET_FOG_GEN_MODE : Z := 0x2a0.
Definition NV097_SET_FOG_GEN_MODE_V_SPEC_ALPHA : Z := 0x0.
Definition NV097_SET_FOG_GEN_MODE_V_RADIAL : Z := 0x1.
Definition NV097_SET_FOG_GEN_MODE_V_PLANAR : Z := 0x2.
Definition NV097_SET_FOG_GEN_MODE_V_ABS_PLANAR : Z := 0x3.
Definition NV097_SET_FOG_GEN_MODE_V_FOG_X : Z := 0x6.
Definition NV097_SET_FOG_ENABLE : Z := 0x2a4.
Definition NV097_SET_FOG_COLOR : Z := 0x2a8.
Definition NV097_SET_FOG_COLOR_RED : Z := 0xff.
Definition NV097_SET_FOG_COLOR_GREEN : Z := 0xff00.
Definition NV097_SET_FOG_COLOR_BLUE : Z := 0xff0000.
Definition NV097_SET_FOG_COLOR_ALPHA : Z := 0xff000000.
Definition NV097_SET_WINDOW_CLIP_TYPE : Z := 0x2b4.
Definition NV097_SET_WINDOW_CLIP_HORIZONTAL : Z := 0x2c0.
Definition NV097_SET_WINDOW_CLIP_VERTICAL : Z := 0x2e0.
Definition NV097_SET_ALPHA_TEST_ENABLE : Z := 0x300.
Definition NV097_SET_BLEND_ENABLE : Z := 0x304.
Definition NV097_SET_CULL_FACE_ENABLE : Z := 0x308.
Definition NV097_SET_DEPTH_TEST_ENABLE : Z := 0x30c.
Definition NV097_SET_DITHER_ENABLE : Z := 0x310.
Definition NV097_SET_LIGHTING_ENABLE : Z := 0x314.
Definition NV097_SET_POINT_PARAMS_ENABLE : Z := 0x318.
Definition NV097_SET_POINT_SMOOTH_ENABLE : Z := 0x31c.
Definition NV097_SET_LINE_SMOOTH_ENABLE : Z := 0x320.
Definition NV097_SET_POLY_SMOOTH_ENABLE : Z := 0x324.
Definition NV097_SET_SKIN_MODE : Z := 0x328.
Definition NV097_SET_STENCIL_TEST_ENABLE : Z := 0x32c.
Definition NV097_SET_POLY_OFFSET_POINT_ENABLE : Z := 0x330.
Definition NV097_SET_POLY_OFFSET_LINE_ENABLE : Z := 0x334.
Definition NV097_SET_POLY_OFFSET_FILL_ENABLE : Z := 0x338.
Definition NV097_SET_ALPHA_FUNC : Z := 0x33c.
Definition NV097_SET_ALPHA_REF : Z := 0x340.
Definition NV097_SET_BLEND_FUNC_SFACTOR : Z := 0x344.
Definition NV097_SET_BLEND_FUNC_SFACTOR_V_ZERO : Z := 0x0.
Definition NV097_SET_BLEND_FUNC_SFACTOR_V_ONE : Z := 0x1.
Definition NV097_SET_BLEND_FUNC_SFACTOR_V_SRC_COLOR : Z := 0x300.
Definition NV097_SET_BLEND_FUNC_SFACTOR_V_ONE_MINUS_SRC_COLOR : Z := 0x301.
Definition NV097_SET_BLEND_FUNC_SFACTOR_V_SRC_ALPHA : Z := 0x302.
Definition NV097_SET_BLEND_FUNC_SFACTOR_V_ONE_MINUS_SRC_ALPHA : Z := 0x303.
Definition NV097_SET_BLEND_FUNC_SFACTOR_V_DST_ALPHA : Z := 0x304.
Definition NV097_SET_BLEND_FUNC_SFACTOR_V_ONE_MINUS_DST_ALPHA : Z := 0x305.
Definition NV097_SET_BLEND_FUNC_SFACTOR_V_DST_COLOR : Z := 0x306.
Definition NV097_SET_BLEND_FUNC_SFACTOR_V_ONE_MINUS_DST_COLOR : Z := 0x307.
Definition NV097_SET_BLEND_FUNC_SFACTOR_V_SRC_ALPHA_SATURATE : Z := 0x308.
Definition NV097_SET_BLEND_FUNC_SFACTOR_V_CONSTANT_COLOR : Z := 0x8001.
Definition NV097_SET_BLEND_FUNC_SFACTOR_V_ONE_MINUS_CONSTANT_COLOR : Z := 0x8002.
Definition NV097_SET_BLEND_FUNC_SFACTOR_V_CONSTANT_ALPHA : Z := 0x8003.
Definition NV097_SET_BLEND_FUNC_SFACTOR_V_ONE_MINUS_CONSTANT_ALPHA : Z := 0x8004.
Definition NV097_SET_BLEND_FUNC_DFACTOR : Z := 0x348.
Definition NV097_SET_BLEND_FUNC_DFACTOR_V_ZERO : Z := 0x0.
Definition NV097_SET_BLEND_FUNC_DFACTOR_V_ONE : Z := 0x1.
Definition NV097_SET_BLEND_FUNC_DFACTOR_V_SRC_COLOR : Z := 0x300.
Definition NV097_SET_BLEND_FUNC_DFACTOR_V_ONE_MINUS_SRC_COLOR : Z := 0x301.
Definition NV097_SET_BLEND_FUNC_DFACTOR_V_SRC_ALPHA : Z := 0x302.
Definition NV097_SET_BLEND_FUNC_DFACTOR_V_ONE_MINUS_SRC_ALPHA : Z := 0x303.
Definition NV097_SET_BLEND_FUNC_DFACTOR_V_DST_ALPHA : Z := 0x304.
Definition NV097_SET_BLEND_FUNC_DFACTOR_V_ONE_MINUS_DST_ALPHA : Z := 0x305.
Definition NV097_SET_BLEND_FUNC_DFACTOR_V_DST_COLOR : Z := 0x306.
Definition NV097_SET_BLEND_FUNC_DFACTOR_V_ONE_MINUS_DST_COLOR : Z := 0x307.
Definition NV097_SET_BLEND_FUNC_DFACTOR_V_SRC_ALPHA_SATURATE : Z := 0x308.
Definition NV097_SET_BLEND_FUNC_DFACTOR_V_CONSTANT_COLOR : Z := 0x8001.
Definition NV097_SET_BLEND_FUNC_DFACTOR_V_ONE_MINUS_CONSTANT_COLOR : Z := 0x8002.
Definition NV097_SET_BLEND_FUNC_DFACTOR_V_CONSTANT_ALPHA : Z := 0x8003.
Definition NV097_SET_BLEND_FUNC_DFACTOR_V_ONE_MINUS_CONSTANT_ALPHA : Z := 0x8004.
Definition NV097_SET_BLEND_COLOR : Z := 0x34c.
Definition NV097_SET_BLEND_EQUATION : Z := 0x350.
Definition NV097_SET_BLEND_EQUATION_V_FUNC_SUBTRACT : Z := 0x800a.
Definition NV097_SET_BLEND_EQUATION_V_FUNC_REVERSE_SUBTRACT : Z := 0x800b.
Definition NV097_SET_BLEND_EQUATION_V_FUNC_ADD : Z := 0x8006.
Definition NV097_SET_BLEND_EQUATION_V_MIN : Z := 0x8007.
Definition NV097_SET_BLEND_EQUATION_V_MAX : Z := 0x8008.
Definition NV097_SET_BLEND_EQUATION_V_FUNC_REVERSE_SUBTRACT_SIGNED : Z := 0xf005.
Definition NV097_SET_BLEND_EQUATION_V_FUNC_ADD_SIGNED : Z := 0xf006.
Definition NV097_SET_DEPTH_FUNC : Z := 0x354.
Definition NV097_SET_COLOR_MASK : Z := 0x358.
Definition NV097_SET_COLOR_MASK_BLUE_WRITE_ENABLE : Z := 0x1.
Definition NV097_SET_COLOR_MASK_GREEN_WRITE_ENABLE : Z := 0x100.
Definition NV097_SET_COLOR_MASK_RED_WRITE_ENABLE : Z := 0x10000.
Definition NV097_SET_COLOR_MASK_ALPHA_WRITE_ENABLE : Z := 0x1000000.
Definition NV097_SET_DEPTH_MASK : Z := 0x35c.
Definition NV097_SET_STENCIL_MASK : Z := 0x360.
Definition NV097_SET_STENCIL_FUNC : Z := 0x364.
Definition NV097_SET_STENCIL_FUNC_REF : Z := 0x368.
Definition NV097_SET_STENCIL_FUNC_MASK : Z := 0x36c.
Definition NV097_SET_STENCIL_OP_FAIL : Z := 0x370.
Definition NV097_SET_STENCIL_OP_ZFAIL : Z := 0x374.
Definition NV097_SET_STENCIL_OP_ZPASS : Z := 0x378.
Definition NV097_SET_STENCIL_OP_V_KEEP : Z := 0x1e00.
Definition NV097_SET_STENCIL_OP_V_ZERO : Z := 0x0.
Definition NV097_SET_STENCIL_OP_V_REPLACE : Z := 0x1e01.
Definition NV097_SET_STENCIL_OP_V_INCRSAT : Z := 0x1e02.
Definition NV097_SET_STENCIL_OP_V_DECRSAT : Z := 0x1e03.
Definition NV097_SET_STENCIL_OP_V_INVERT : Z := 0x150a.
Definition NV097_SET_STENCIL_OP_V_INCR : Z := 0x8507.
Definition NV097_SET_STENCIL_OP_V_DECR : Z := 0x8508.
Definition NV097_SET_SHADE_MODE : Z := 0x37c.
Definition NV097_SET_SHADE_MODE_V_FLAT : Z := 0x1d00.
Definition NV097_SET_SHADE_MODE_V_SMOOTH : Z := 0x1d01.
Definition NV097_SET_POLYGON_OFFSET_SCALE_FACTOR : Z := 0x384.
Definition NV097_SET_POLYGON_OFFSET_BIAS : Z := 0x388.
Definition NV097_SET_FRONT_POLYGON_MODE : Z := 0x38c.
Definition NV097_SET_FRONT_POLYGON_MODE_V_POINT : Z := 0x1b00.
Definition NV097_SET_FRONT_POLYGON_MODE_V_LINE : Z := 0x1b01.
Definition NV097_SET_FRONT_POLYGON_MODE_V_FILL : Z := 0x1b02.
Definition NV097_SET_BACK_POLYGON_MODE : Z := 0x390.
Definition NV097_SET_CLIP_MIN : Z := 0x394.
Definition NV097_SET_CLIP_MAX : Z := 0x398.
Definition NV097_SET_CULL_FACE : Z := 0x39c.
Definition NV097_SET_CULL_FACE_V_FRONT : Z := 0x404.
Definition NV097_SET_CULL_FACE_V_BACK : Z := 0x405.
Definition NV097_SET_CULL_FACE_V_FRONT_AND_BACK : Z := 0x408.
Definition NV097_SET_FRONT_FACE : Z := 0x3a0.
Definition NV097_SET_FRONT_FACE_V_CW : Z := 0x900.
Definition NV097_SET_FRONT_FACE_V_CCW : Z := 0x901.
Definition NV097_SET_NORMALIZATION_ENABLE : Z := 0x3a4.
Definition NV097_SET_MATERIAL_EMISSION : Z := 0x3a8.
Definition NV097_SET_MATERIAL_ALPHA : Z := 0x3b4.
Definition NV097_SET_SPECULAR_ENABLE : Z := 0x3b8.
Definition NV097_SET_LIGHT_ENABLE_MASK : Z := 0x3bc.
Definition NV097_SET_TEXGEN_S : Z := 0x3c0.
Definition NV097_SET_TEXGEN_S_DISABLE : Z := 0x0.
Definition NV097_SET_TEXGEN_S_EYE_LINEAR : Z := 0x2400.
Definition NV097_SET_TEXGEN_S_OBJECT_LINEAR : Z := 0x2401.
Definition NV097_SET_TEXGEN_S_SPHERE_MAP : Z := 0x2402.
Definition NV097_SET_TEXGEN_S_REFLECTION_MAP : Z := 0x8512.
Definition NV097_SET_TEXGEN_S_NORMAL_MAP : Z := 0x8511.
Definition NV097_SET_TEXGEN_T : Z := 0x3c4.
Definition NV097_SET_TEXGEN_R : Z := 0x3c8.
Definition NV097_SET_TEXGEN_Q : Z := 0x3cc.
Definition NV097_SET_TEXTURE_MATRIX_ENABLE : Z := 0x420.
Definition NV097_SET_POINT_SIZE : Z := 0x43c.
Definition NV097_SET_POINT_SIZE_V_MAX : Z := 0x1ff.
Definition NV097_SET_PROJECTION_MATRIX : Z := 0x440.
Definition NV097_SET_MODEL_VIEW_MATRIX : Z := 0x480.
Definition NV097_SET_INVERSE_MODEL_VIEW_MATRIX : Z := 0x580.
Definition NV097_SET_COMPOSITE_MATRIX : Z := 0x680.
Definition NV097_SET_TEXTURE_MATRIX : Z := 0x6c0.
Definition NV097_SET_FOG_PARAMS : Z := 0x9c0.
Definition NV097_SET_TEXGEN_PLANE_S : Z := 0x840.
Definition NV097_SET_TEXGEN_VIEW_MODEL : Z := 0x9cc.
Definition NV097_SET_FOG_PLANE : Z := 0x9d0.
Definition NV097_SET_SPECULAR_PARAMS : Z := 0x9e0.
Definition NV097_SET_PROVOKING_VERTEX : Z := 0x9fc.
Definition NV097_SET_SCENE_AMBIENT_COLOR : Z := 0xa10.
Definition NV097_SET_VIEWPORT_OFFSET : Z := 0xa20.
Definition NV097_SET_POINT_PARAMS : Z := 0xa30.
Definition NV097_SET_EYE_POSITION : Z := 0xa50.
Definition NV097_SET_COMBINER_FACTOR0 : Z := 0xa60.
Definition NV097_SET_COMBINER_FACTOR1 : Z := 0xa80.
Definition NV097_SET_COMBINER_ALPHA_OCW : Z := 0xaa0.
Definition NV097_SET_COMBINER_COLOR_ICW : Z := 0xac0.
Definition NV097_SET_COLOR_KEY_COLOR : Z := 0xae0.
Definition NV097_SET_VIEWPORT_SCALE : Z := 0xaf0.
Definition NV097_SET_TRANSFORM_PROGRAM : Z := 0xb00.
Definition NV097_SET_TRANSFORM_CONSTANT : Z := 0xb80.
Definition NV097_SET_VERTEX3F : Z := 0x1500.
Definition NV097_SET_BACK_LIGHT_AMBIENT_COLOR : Z := 0xc00.
Definition NV097_SET_BACK_LIGHT_DIFFUSE_COLOR : Z := 0xc0c.
Definition NV097_SET_BACK_LIGHT_SPECULAR_COLOR : Z := 0xc18.
Definition NV097_SET_LIGHT_AMBIENT_COLOR : Z := 0x1000.
Definition NV097_SET_LIGHT_DIFFUSE_COLOR : Z := 0x100c.
Definition NV097_SET_LIGHT_SPECULAR_COLOR : Z := 0x1018.
Definition NV097_SET_LIGHT_LOCAL_RANGE : Z := 0x1024.
Definition NV097_SET_LIGHT_INFINITE_HALF_VECTOR : Z := 0x1028.
Definition NV097_SET_LIGHT_INFINITE_DIRECTION : Z := 0x1034.
Definition NV097_SET_LIGHT_SPOT_FALLOFF : Z := 0x1040.
Definition NV097_SET_LIGHT_SPOT_DIRECTION : Z := 0x104c.
Definition NV097_SET_LIGHT_LOCAL_POSITION : Z := 0x105c.
Definition NV097_SET_LIGHT_LOCAL_ATTENUATION : Z := 0x1068.
Definition NV097_SET_VERTEX4F : Z := 0x1518.
Definition NV097_SET_NORMAL3F : Z := 0x1530.
Definition NV097_SET_NORMAL3S : Z := 0x1540.
Definition NV097_SET_DIFFUSE_COLOR4F : Z := 0x1550.
Definition NV097_SET_DIFFUSE_COLOR3F : Z := 0x1560.
Definition NV097_SET_DIFFUSE_COLOR4UB : Z := 0x156c.
Definition NV097_SET_SPECULAR_COLOR4F : Z := 0x1570.
Definition NV097_SET_SPECULAR_COLOR3F : Z := 0x1580.
Definition NV097_SET_SPECULAR_COLOR4UB : Z := 0x158c.
Definition NV097_SET_TEXCOORD0_2F : Z := 0x1590.
Definition NV097_SET_TEXCOORD0_4F : Z := 0x15a0.
Definition NV097_SET_TEXCOORD0_2S : Z := 0x1598.
Definition NV097_SET_TEXCOORD0_4S : Z := 0x15b0.
Definition NV097_SET_TEXCOORD1_2F : Z := 0x15b8.
Definition NV097_SET_TEXCOORD1_4F : Z := 0x15c8.
Definition NV097_SET_TEXCOORD1_2S : Z := 0x15c0.
Definition NV097_SET_TEXCOORD1_4S : Z := 0x15d8.
Definition NV097_SET_TEXCOORD2_2F : Z := 0x15e0.
Definition NV097_SET_TEXCOORD2_4F : Z := 0x15f0.
Definition NV097_SET_TEXCOORD2_2S : Z := 0x15e8.
Definition NV097_SET_TEXCOORD2_4S : Z := 0x1600.
Definition NV097_SET_TEXCOORD3_2F : Z := 0x1608.
Definition NV097_SET_TEXCOORD3_4F : Z := 0x1620.
Definition NV097_SET_TEXCOORD3_2S : Z := 0x1610.
Definition NV097_SET_TEXCOORD3_4S : Z := 0x1630.
Definition NV097_SET_FOG_COORD : Z := 0x1698.
Definition NV097_SET_WEIGHT1F : Z := 0x169c.
Definition NV097_SET_WEIGHT2F : Z := 0x16a0.
Definition NV097_SET_WEIGHT3F : Z := 0x16b0.
Definition NV097_SET_WEIGHT4F : Z := 0x16c0.
Definition NV097_SET_VERTEX_DATA_ARRAY_OFFSET : Z := 0x1720.
Definition NV097_SET_VERTEX_DATA_ARRAY_FORMAT : Z := 0x1760.
Definition NV097_SET_VERTEX_DATA_ARRAY_FORMAT_TYPE : Z := 0xf.
Definition NV097_SET_VERTEX_DATA_ARRAY_FORMAT_TYPE_UB_D3D : Z := 0x0.
Definition NV097_SET_VERTEX_DATA_ARRAY_FORMAT_TYPE_S1 : Z := 0x1.
Definition NV097_SET_VERTEX_DATA_ARRAY_FORMAT_TYPE_F : Z := 0x2.
Definition NV097_SET_VERTEX_DATA_ARRAY_FORMAT_TYPE_UB_OGL : Z := 0x4.
Definition NV097_SET_VERTEX_DATA_ARRAY_FORMAT_TYPE_S32K : Z := 0x5.
Definition NV097_SET_VERTEX_DATA_ARRAY_FORMAT_TYPE_CMP : Z := 0x6.
Definition NV097_SET_VERTEX_DATA_ARRAY_FORMAT_SIZE : Z := 0xf0.
Definition NV097_SET_VERTEX_DATA_ARRAY_FORMAT_STRIDE : Z := 0xffffff00.
Definition NV097_SET_LOGIC_OP_ENABLE : Z := 0x17bc.
Definition NV097_SET_LOGIC_OP : Z := 0x17c0.
Definition NV097_CLEAR_REPORT_VALUE : Z := 0x17c8.
Definition NV097_SET_ZPASS_PIXEL_COUNT_ENABLE : Z := 0x17cc.
Definition NV097_GET_REPORT : Z := 0x17d0.
Definition NV097_GET_REPORT_OFFSET : Z := 0xffffff.
Definition NV097_GET_REPORT_TYPE : Z := 0xff000000.
Definition NV097_GET_REPORT_TYPE_ZPASS_PIXEL_CNT : Z := 0x1.
Definition NV097_SET_EYE_DIRECTION : Z := 0x17e0.
Definition NV097_SET_SHADER_CLIP_PLANE_MODE : Z := 0x17f8.
Definition NV097_SET_BEGIN_END : Z := 0x17fc.
Definition NV097_SET_BEGIN_END_OP_END : Z := 0x0.
Definition NV097_SET_BEGIN_END_OP_POLYGON : Z := 0xa.
Definition NV097_ARRAY_ELEMENT16 : Z := 0x1800.
Definition NV097_ARRAY_ELEMENT32 : Z := 0x1808.
Definition NV097_DRAW_ARRAYS : Z := 0x1810.
Definition NV097_DRAW_ARRAYS_COUNT : Z := 0xff000000.
Definition NV097_DRAW_ARRAYS_START_INDEX : Z := 0xffffff.
Definition NV097_INLINE_ARRAY : Z := 0x1818.
Definition NV097_SET_EYE_VECTOR : Z := 0x181c.
Definition NV097_SET_VERTEX_DATA2F_M : Z := 0x1880.
Definition NV097_SET_VERTEX_DATA4F_M : Z := 0x1a00.
Definition NV097_SET_VERTEX_DATA2S : Z := 0x1900.
Definition NV097_SET_VERTEX_DATA4UB : Z := 0x1940.
Definition NV097_SET_VERTEX_DATA4S_M : Z := 0x1980.
Definition NV097_SET_TEXTURE_OFFSET : Z := 0x1b00.
Definition NV097_SET_TEXTURE_FORMAT : Z := 0x1b04.
Definition NV097_SET_TEXTURE_FORMAT_CONTEXT_DMA : Z := 0x3.
Definition NV097_SET_TEXTURE_FORMAT_CUBEMAP_ENABLE : Z := 0x4.
Definition NV097_SET_TEXTURE_FORMAT_BORDER_SOURCE : Z := 0x8.
Definition NV097_SET_TEXTURE_FORMAT_DIMENSIONALITY : Z := 0xf0.
Definition NV097_SET_TEXTURE_FORMAT_COLOR : Z := 0xff00.
Definition NV097_SET_TEXTURE_FORMAT_COLOR_SZ_Y8 : Z := 0x0.
Definition NV097_SET_TEXTURE_FORMAT_COLOR_SZ_AY8 : Z := 0x1.
Definition NV097_SET_TEXTURE_FORMAT_COLOR_SZ_A1R5G5B5 : Z := 0x2.
Definition NV097_SET_TEXTURE_FORMAT_COLOR_SZ_X1R5G5B5 : Z := 0x3.
Definition NV097_SET_TEXTURE_FORMAT_COLOR_SZ_A4R4G4B4 : Z := 0x4.
Definition NV097_SET_TEXTURE_FORMAT_COLOR_SZ_R5G6B5 : Z := 0x5.
Definition NV097_SET_TEXTURE_FORMAT_COLOR_SZ_A8R8G8B8 : Z := 0x6.
Definition NV097_SET_TEXTURE_FORMAT_COLOR_SZ_X8R8G8B8 : Z := 0x7.
Definition NV097_SET_TEXTURE_FORMAT_COLOR_SZ_I8_A8R8G8B8 : Z := 0xb.
Definition NV097_SET_TEXTURE_FORMAT_COLOR_L_DXT1_A1R5G5B5 : Z := 0xc.
Definition NV097_SET_TEXTURE_FORMAT_COLOR_L_DXT23_A8R8G8B8 : Z := 0xe.
Definition NV097_SET_TEXTURE_FORMAT_COLOR_L_DXT45_A8R8G8B8 : Z := 0xf.
Definition NV097_SET_TEXTURE_FORMAT_COLOR_LU_IMAGE_A1R5G5B5 : Z := 0x10.
Definition NV097_SET_TEXTURE_FORMAT_COLOR_LU_IMAGE_R5G6B5 : Z := 0x11.
Definition NV097_SET_TEXTURE_FORMAT_COLOR_LU_IMAGE_A8R8G8B8 : Z := 0x12.
Definition NV097_SET_TEXTURE_FORMAT_COLOR_LU_IMAGE_Y8 : Z := 0x13.
Definition NV097_SET_TEXTURE_FORMAT_COLOR_LU_IMAGE_G8B8 : Z := 0x17.
Definition NV097_SET_TEXTURE_FORMAT_COLOR_SZ_A8 : Z := 0x19.
Definition NV097_SET_TEXTURE_FORMAT_COLOR_SZ_A8Y8 : Z := 0x1a.
Definition NV097_SET_TEXTURE_FORMAT_COLOR_LU_IMAGE_AY8 : Z := 0x1b.
Definition NV097_SET_TEXTURE_FORMAT_COLOR_LU_IMAGE_X1R5G5B5 : Z := 0x1c.
Definition NV097_SET_TEXTURE_FORMAT_COLOR_LU_IMAGE_A4R4G4B4 : Z := 0x1d.
Definition NV097_SET_TEXTURE_FORMAT_COLOR_LU_IMAGE_X8R8G8B8 : Z := 0x1e.
Definition NV097_SET_TEXTURE_FORMAT_COLOR_LU_IMAGE_A8 : Z := 0x1f.
Definition NV097_SET_TEXTURE_FORMAT_COLOR_LU_IMAGE_A8Y8 : Z := 0x20.
Definition NV097_SET_TEXTURE_FORMAT_COLOR_LC_IMAGE_CR8YB8CB8YA8 : Z := 0x24.
Definition NV097_SET_TEXTURE_FORMAT_COLOR_LC_IMAGE_YB8CR8YA8CB8 : Z := 0x25.
Definition NV097_SET_TEXTURE_FORMAT_COLOR_SZ_R6G5B5 : Z := 0x27.
Definition NV097_SET_TEXTURE_FORMAT_COLOR_SZ_G8B8 : Z := 0x28.
Definition NV097_SET_TEXTURE_FORMAT_COLOR_SZ_R8B8 : Z := 0x29.
Definition NV097_SET_TEXTURE_FORMAT_COLOR_SZ_DEPTH_Y16_FIXED : Z := 0x2c.
Definition NV097_SET_TEXTURE_FORMAT_COLOR_LU_IMAGE_DEPTH_X8_Y24_FIXED : Z := 0x2e.
Definition NV097_SET_TEXTURE_FORMAT_COLOR_LU_IMAGE_DEPTH_X8_Y24_FLOAT : Z := 0x2f.
Definition NV097_SET_TEXTURE_FORMAT_COLOR_LU_IMAGE_DEPTH_Y16_FIXED : Z := 0x30.
Definition NV097_SET_TEXTURE_FORMAT_COLOR_LU_IMAGE_DEPTH_Y16_FLOAT : Z := 0x31.
Definition NV097_SET_TEXTURE_FORMAT_COLOR_LU_IMAGE_Y16 : Z := 0x35.
Definition NV097_SET_TEXTURE_FORMAT_COLOR_SZ_A8B8G8R8 : Z := 0x3a.
Definition NV097_SET_TEXTURE_FORMAT_COLOR_SZ_B8G8R8A8 : Z := 0x3b.
Definition NV097_SET_TEXTURE_FORMAT_COLOR_SZ_R8G8B8A8 : Z := 0x3c.
Definition NV097_SET_TEXTURE_FORMAT_COLOR_LU_IMAGE_A8B8G8R8 : Z := 0x3f.
Definition NV097_SET_TEXTURE_FORMAT_COLOR_LU_IMAGE_B8G8R8A8 : Z := 0x40.
Definition NV097_SET_TEXTURE_FORMAT_COLOR_LU_IMAGE_R8G8B8A8 : Z := 0x41.
Definition NV097_SET_TEXTURE_FORMAT_MIPMAP_LEVELS : Z := 0xf0000.
Definition NV097_SET_TEXTURE_FORMAT_BASE_SIZE_U : Z := 0xf00000.
Definition NV097_SET_TEXTURE_FORMAT_BASE_SIZE_V : Z := 0xf000000.
Definition NV097_SET_TEXTURE_FORMAT_BASE_SIZE_P : Z := 0xf0000000.
Definition NV097_SET_TEXTURE_ADDRESS : Z := 0x1b08.
Definition NV097_SET_TEXTURE_CONTROL0 : Z := 0x1b0c.
Definition NV097_SET_TEXTURE_CONTROL1 : Z := 0x1b10.
Definition NV097_SET_TEXTURE_FILTER : Z := 0x1b14.
Definition NV097_SET_TEXTURE_IMAGE_RECT : Z := 0x1b1c.
Definition NV097_SET_TEXTURE_PALETTE : Z := 0x1b20.
Definition NV097_SET_TEXTURE_PALETTE_CONTEXT_DMA : Z := 0x1.
Definition NV097_SET_TEXTURE_PALETTE_LENGTH : Z := 0xc.
Definition NV097_SET_TEXTURE_PALETTE_OFFSET : Z := 0xffffffc0.
Definition NV097_SET_TEXTURE_BORDER_COLOR : Z := 0x1b24.
Definition NV097_SET_TEXTURE_SET_BUMP_ENV_MAT : Z := 0x1b28.
Definition NV097_SET_TEXTURE_SET_BUMP_ENV_SCALE : Z := 0x1b38.
Definition NV097_SET_TEXTURE_SET_BUMP_ENV_OFFSET : Z := 0x1b3c.
Definition NV097_SET_SEMAPHORE_OFFSET : Z := 0x1d6c.
Definition NV097_BACK_END_WRITE_SEMAPHORE_RELEASE : Z := 0x1d70.
Definition NV097_SET_ZMIN_MAX_CONTROL : Z := 0x1d78.
Definition NV097_SET_ZMIN_MAX_CONTROL_ZCLAMP_EN : Z := 0xf0.
Definition NV097_SET_ZMIN_MAX_CONTROL_ZCLAMP_EN_CULL : Z := 0x0.
Definition NV097_SET_ZMIN_MAX_CONTROL_ZCLAMP_EN_CLAMP : Z := 0x1.
Definition NV097_SET_ANTI_ALIASING_CONTROL : Z := 0x1d7c.
Definition NV097_SET_ANTI_ALIASING_CONTROL_ENABLE : Z := 0x1.
Definition NV097_SET_ZSTENCIL_CLEAR_VALUE : Z := 0x1d8c.
Definition NV097_SET_COLOR_CLEAR_VALUE : Z := 0x1d90.
Definition NV097_CLEAR_SURFACE : Z := 0x1d94.
Definition NV097_SET_CLEAR_RECT_HORIZONTAL : Z := 0x1d98.
Definition NV097_SET_CLEAR_RECT_VERTICAL : Z := 0x1d9c.
Definition NV097_SET_SPECULAR_FOG_FACTOR : Z := 0x1e20.
Definition NV097_SET_SPECULAR_PARAMS_BACK : Z := 0x1e28.
Definition NV097_SET_COMBINER_COLOR_OCW : Z := 0x1e40.
Definition NV097_SET_COMBINER_CONTROL : Z := 0x1e60.
Definition NV097_SET_SHADOW_ZSLOPE_THRESHOLD : Z := 0x1e68.
Definition NV097_SET_SHADOW_DEPTH_FUNC : Z := 0x1e6c.
Definition NV097_SET_SHADER_STAGE_PROGRAM : Z := 0x1e70.
Definition NV097_SET_DOT_RGBMAPPING : Z := 0x1e74.
Definition NV097_SET_SHADER_OTHER_STAGE_INPUT : Z := 0x1e78.
Definition NV097_SET_TRANSFORM_DATA : Z := 0x1e80.
Definition NV097_LAUNCH_TRANSFORM_PROGRAM : Z := 0x1e90.
Definition NV097_SET_TRANSFORM_EXECUTION_MODE : Z := 0x1e94.
Definition NV097_SET_TRANSFORM_EXECUTION_MODE_MODE : Z := 0x3.
Definition NV097_SET_TRANSFORM_EXECUTION_MODE_RANGE_MODE : Z := 0xfffffffc.
Definition NV097_SET_TRANSFORM_PROGRAM_CXT_WRITE_EN : Z := 0x1e98.
Definition NV097_SET_TRANSFORM_PROGRAM_LOAD : Z := 0x1e9c.
Definition NV097_SET_TRANSFORM_PROGRAM_START : Z := 0x1ea0.
Definition NV097_SET_TRANSFORM_CONSTANT_LOAD : Z := 0x1ea4.
Definition NV_IGRAPH_XF_XFCTX_CMAT0 : Z := 0x0.
Definition NV_IGRAPH_XF_XFCTX_PMAT0 : Z := 0x4.
Definition NV_IGRAPH_XF_XFCTX_MMAT0 : Z := 0x8.
Definition NV_IGRAPH_XF_XFCTX_IMMAT0 : Z := 0xc.
Definition NV_IGRAPH_XF_XFCTX_EYEP : Z := 0x38.
Definition NV_IGRAPH_XF_XFCTX_FOG : Z := 0x39.
Definition NV_IGRAPH_XF_XFCTX_VPSCL : Z := 0x3a.
Definition NV_IGRAPH_XF_XFCTX_VPOFF : Z := 0x3b.
Definition NV_IGRAPH_XF_XFCTX_TG0MAT : Z := 0x40.
Definition NV_IGRAPH_XF_XFCTX_T0MAT : Z := 0x44.
Definition NV_IGRAPH_XF_LTCTXA_L0_K : Z := 0x0.
Definition NV_IGRAPH_XF_LTCTXA_L0_SPT : Z := 0x1.
Definition NV_IGRAPH_XF_LTCTXA_EYED : Z := 0x10.
Definition NV_IGRAPH_XF_LTCTXA_FR_AMB : Z := 0x11.
Definition NV_IGRAPH_XF_LTCTXA_CM_COL : Z := 0x13.
Definition NV_IGRAPH_XF_LTCTXA_FOG_K : Z := 0x15.
Definition NV_IGRAPH_XF_LTCTXB_L0_AMB : Z := 0x0.
Definition NV_IGRAPH_XF_LTCTXB_L0_DIF : Z := 0x1.
Definition NV_IGRAPH_XF_LTCTXB_L0_SPC : Z := 0x2.
Definition NV_IGRAPH_XF_LTCTXB_L0_BAMB : Z := 0x3.
Definition NV_IGRAPH_XF_LTCTXB_L0_BDIF : Z := 0x4.
Definition NV_IGRAPH_XF_LTCTXB_L0_BSPC : Z := 0x5.
Definition NV_IGRAPH_XF_LTC1_r0 : Z := 0x4.
Definition RDI_INDEX_VTX_CONSTANTS0 : Z := 0x17.
Definition RDI_INDEX_VTX_CONSTANTS1 : Z := 0xcc.
Definition NV2A_VERTEX_ATTR_POSITION : Z := 0x0.
Definition NV2A_VERTEX_ATTR_WEIGHT : Z := 0x1.
Definition NV2A_VERTEX_ATTR_NORMAL : Z := 0x2.
Definition NV2A_VERTEX_ATTR_DIFFUSE : Z := 0x3.
Definition NV2A_VERTEX_ATTR_SPECULAR : Z := 0x4.
Definition NV2A_VERTEX_ATTR_FOG : Z := 0x5.
Definition NV2A_VERTEX_ATTR_TEXTURE0 : Z := 0x9.
Definition NV2A_VERTEX_ATTR_TEXTURE1 : Z := 0xa.
Definition NV2A_VERTEX_ATTR_TEXTURE2 : Z := 0xb.
Definition NV2A_VERTEX_ATTR_TEXTURE3 : Z := 0xc.
Definition NV2A_CRYSTAL_FREQ : Z := 0xfe502a.
Definition NV2A_NUM_CHANNELS : Z := 0x20.
Definition NV2A_MAX_BATCH_LENGTH : Z := 0x7ffff.
Definition NV2A_VERTEXSHADER_ATTRIBUTES : Z := 0x10.
Definition NV2A_MAX_TRANSFORM_PROGRAM_LENGTH : Z := 0x88.
Definition NV2A_VERTEXSHADER_CONSTANTS : Z := 0xc0.
Definition NV2A_CUBEMAP_FACE_ALIGNMENT : Z := 0x80.
Definition VGA_ATT_W : Z := 0x3c0.
Definition VGA_AR_ENABLE_DISPLAY : Z := 0x20.
Definition PCI_VENDOR_ID : Z := 0x0.
Definition PCI_COMMAND : Z := 0x4.
Definition PCI_CLASS_REVISION : Z := 0x8.

Definition NV_PFB_TILE_BASE_ADDRESS_AND_FLAGS (i : Z) : Z := NV_PFB_TILE + i * 16.
Definition NV_PFB_TILE_LIMIT (i : Z) : Z := NV_PFB_TILE + i * 16 + 4.
