(* ===== verification/Nv2aState.v ===== *)
(** * State of the NV2A (hw/xbox/nv2a/nv2a_int.h, pgraph/pgraph.h, nv2a.c)

    One record per unit with the fields of the C structures that the modelled code
    reads or writes; [X] stands for the rest of the device, the VGA core and the
    renderer, reached only through [VgaOps] and [Renderer].  The interrupt tree
    ([nv2a_update_irq]) and the DMA objects in RAMIN are here because every unit
    uses them. *)

From S2P Require Import Prelude Nv2aRegs.

(** The VGA core the PRMVIO and PRMCIO blocks alias; [vga_reset] is
    [vga_common_reset] and the colour mode the NV2A starts in. *)
Class VgaOps (X : Type) := {
  vga_ioport_read : X -> Z -> X * Z;
  vga_ioport_write : X -> Z -> Z -> X;
  vga_ar_flip_flop : X -> Z;
  vga_invalidate_scanlines : X -> Z -> Z -> X;
  vga_reset : X -> X
}.

Module Nv2aState.

(** An array of 32-bit registers, zero where nothing was written. *)
Abbreviation regfile := (gmap Z Z).

Definition reg (r : regfile) (a : Z) : Z := default 0 (r !! a).

(** [regs[addr]] with the bounds of the array. *)
Definition reg_read (size : Z) (r : regfile) (a : Z) : res Z :=
  if (0 <=? a) && (a <? size) then Ok (reg r a) else Fault OutOfBounds.
Definition reg_write (size : Z) (r : regfile) (a v : Z) : res regfile :=
  if (0 <=? a) && (a <? size) then Ok (<[a := v]> r) else Fault OutOfBounds.

Lemma reg_insert r a v : reg (<[a := v]> r) a = v.
Proof. unfold reg. by rewrite lookup_insert_eq. Qed.

Lemma reg_insert_ne r a b v : a <> b -> reg (<[a := v]> r) b = reg r b.
Proof. intros Hn. unfold reg. by rewrite lookup_insert_ne. Qed.

Lemma reg_write_ok n r a v : 0 <= a < n -> reg_write n r a v = Ok (<[a := v]> r).
Proof.
  intros Ha. unfold reg_write. destruct (Z.leb_spec 0 a), (Z.ltb_spec a n); (lia || done).
Qed.

Lemma reg_read_ok n r a : 0 <= a < n -> reg_read n r a = Ok (reg r a).
Proof.
  intros Ha. unfold reg_read. destruct (Z.leb_spec 0 a), (Z.ltb_spec a n); (lia || done).
Qed.

(** ** The units *)

Record Pmc := {
  pmc_pending : Z;
  pmc_enabled : Z
}.
#[global] Instance eta_Pmc : Eta Pmc := fun r =>
  Build_Pmc (pmc_pending r) (pmc_enabled r).

Record Pfifo := {
  pfifo_pending : Z;
  pfifo_enabled : Z;
  pfifo_regs : regfile;
  fifo_kick : bool;
  halt : bool
}.
#[global] Instance eta_Pfifo : Eta Pfifo := fun r =>
  Build_Pfifo (pfifo_pending r) (pfifo_enabled r) (pfifo_regs r) (fifo_kick r) (halt r).

Record Ptimer := {
  ptimer_pending : Z;
  ptimer_enabled : Z;
  numerator : Z;
  denominator : Z;
  alarm_time : Z
}.
#[global] Instance eta_Ptimer : Eta Ptimer := fun r =>
  Build_Ptimer (ptimer_pending r) (ptimer_enabled r) (numerator r) (denominator r)
    (alarm_time r).

Record Pcrtc := {
  pcrtc_pending : Z;
  pcrtc_enabled : Z;
  pcrtc_start : Z;
  raster : Z
}.
#[global] Instance eta_Pcrtc : Eta Pcrtc := fun r =>
  Build_Pcrtc (pcrtc_pending r) (pcrtc_enabled r) (pcrtc_start r) (raster r).

Record Pramdac := {
  core_clock_coeff : Z;
  core_clock_freq : Z;
  memory_clock_coeff : Z;
  video_clock_coeff : Z;
  general_control : Z;
  fp_vdisplay_end : Z;
  fp_vcrtc : Z;
  fp_vsync_end : Z;
  fp_vvalid_end : Z;
  fp_hdisplay_end : Z;
  fp_hcrtc : Z;
  fp_hvalid_end : Z
}.
#[global] Instance eta_Pramdac : Eta Pramdac := fun r =>
  Build_Pramdac (core_clock_coeff r) (core_clock_freq r) (memory_clock_coeff r)
    (video_clock_coeff r) (general_control r) (fp_vdisplay_end r) (fp_vcrtc r)
    (fp_vsync_end r) (fp_vvalid_end r) (fp_hdisplay_end r) (fp_hcrtc r) (fp_hvalid_end r).

Record Puserdac := {
  write_mode_address : Z;
  palette : list Z
}.
#[global] Instance eta_Puserdac : Eta Puserdac := fun r =>
  Build_Puserdac (write_mode_address r) (palette r).

Record ContextSurfaces2DState := {
  cs_object_instance : Z;
  dma_image_source : Z;
  dma_image_dest : Z;
  color_format : Z;
  source_pitch : Z;
  dest_pitch : Z;
  source_offset : Z;
  dest_offset : Z
}.
#[global] Instance eta_ContextSurfaces2DState : Eta ContextSurfaces2DState := fun r =>
  Build_ContextSurfaces2DState (cs_object_instance r) (dma_image_source r) (dma_image_dest
    r) (color_format r) (source_pitch r) (dest_pitch r) (source_offset r) (dest_offset r).

Record ImageBlitState := {
  ib_object_instance : Z;
  context_surfaces : Z;
  operation : Z;
  in_x : Z;
  in_y : Z;
  out_x : Z;
  out_y : Z;
  width : Z;
  height : Z
}.
#[global] Instance eta_ImageBlitState : Eta ImageBlitState := fun r =>
  Build_ImageBlitState (ib_object_instance r) (context_surfaces r) (operation r) (in_x r)
    (in_y r) (out_x r) (out_y r) (width r) (height r).

Record BetaState := {
  beta_object_instance : Z;
  beta : Z
}.
#[global] Instance eta_BetaState : Eta BetaState := fun r =>
  Build_BetaState (beta_object_instance r) (beta r).

(** Floats are 32-bit patterns; [inline_buffer] is the array behind the pointer, four
    floats for each vertex of a batch. *)
Record VertexAttribute := {
  dma_select : bool;
  attr_offset : Z;
  inline_value : list Z;
  attr_format : Z;
  attr_size : Z;
  attr_count : Z;
  attr_stride : Z;
  inline_buffer : regfile;
  inline_buffer_populated : bool
}.
#[global] Instance eta_VertexAttribute : Eta VertexAttribute := fun r =>
  Build_VertexAttribute (dma_select r) (attr_offset r) (inline_value r) (attr_format r)
    (attr_size r) (attr_count r) (attr_stride r) (inline_buffer r)
    (inline_buffer_populated r).

Record Surface := {
  buffer_dirty : bool;
  write_enabled_cache : bool;
  surf_pitch : Z;
  surf_offset : Z
}.
#[global] Instance eta_Surface : Eta Surface := fun r =>
  Build_Surface (buffer_dirty r) (write_enabled_cache r) (surf_pitch r) (surf_offset r).

Record SurfaceShape := {
  shape_z_format : Z;
  shape_color_format : Z;
  shape_zeta_format : Z;
  log_width : Z;
  log_height : Z;
  clip_x : Z;
  clip_y : Z;
  clip_width : Z;
  clip_height : Z;
  anti_aliasing : Z
}.
#[global] Instance eta_SurfaceShape : Eta SurfaceShape := fun r =>
  Build_SurfaceShape (shape_z_format r) (shape_color_format r) (shape_zeta_format r)
    (log_width r) (log_height r) (clip_x r) (clip_y r) (clip_width r) (clip_height r)
    (anti_aliasing r).

(** The fixed-size arrays are lists; the arrays of a batch, which are large, are maps from
    indices, zero where nothing was written.  [regs_dirty] has the numbers of the words
    that changed.  The fields that only the renderers use are part of [X]. *)
Record PGRAPHState := {
  pg_pending : Z;
  pg_enabled : Z;
  frame_time : Z;
  context_surfaces_2d : ContextSurfaces2DState;
  image_blit : ImageBlitState;
  kelvin_object_instance : Z;
  beta_state : BetaState;
  dma_color : Z;
  dma_zeta : Z;
  surface_color : Surface;
  surface_zeta : Surface;
  surface_type : Z;
  surface_shape : SurfaceShape;
  dma_a : Z;
  dma_b : Z;
  texture_dirty : list bool;
  texture_matrix_enable : list bool;
  dma_state : Z;
  dma_notifies : Z;
  dma_semaphore : Z;
  dma_report : Z;
  zpass_pixel_count_enable : bool;
  dma_vertex_a : Z;
  dma_vertex_b : Z;
  primitive_mode : Z;
  enable_vertex_program_write : bool;
  vertex_state_shader_v0 : list Z;
  program_data : list (list Z);
  program_data_dirty : bool;
  vsh_constants : list (list Z);
  vsh_constants_dirty : list bool;
  ltctxa : list (list Z);
  ltctxa_dirty : list bool;
  ltctxb : list (list Z);
  ltctxb_dirty : list bool;
  ltc1 : list (list Z);
  ltc1_dirty : list bool;
  material_alpha : Z;
  light_infinite_half_vector : list (list Z);
  light_infinite_direction : list (list Z);
  light_local_position : list (list Z);
  light_local_attenuation : list (list Z);
  specular_params : list Z;
  specular_power : Z;
  specular_params_back : list Z;
  specular_power_back : Z;
  point_params : list Z;
  vertex_attributes : list VertexAttribute;
  compressed_attrs : Z;
  inline_array_length : Z;
  inline_array : regfile;
  inline_elements_length : Z;
  inline_elements : regfile;
  inline_buffer_length : Z;
  draw_arrays_length : Z;
  draw_arrays_min_start : Z;
  draw_arrays_max_count : Z;
  draw_arrays_start : regfile;
  draw_arrays_count : regfile;
  draw_arrays_prevent_connect : bool;
  regs_ : regfile;
  regs_dirty : gset Z;
  waiting_for_nop : bool;
  waiting_for_flip : bool;
  waiting_for_context_switch : bool
}.
#[global] Instance eta_PGRAPHState : Eta PGRAPHState := fun r =>
  Build_PGRAPHState (pg_pending r) (pg_enabled r) (frame_time r) (context_surfaces_2d r)
    (image_blit r) (kelvin_object_instance r) (beta_state r) (dma_color r) (dma_zeta r)
    (surface_color r) (surface_zeta r) (surface_type r) (surface_shape r) (dma_a r)
    (dma_b r) (texture_dirty r) (texture_matrix_enable r) (dma_state r) (dma_notifies r)
    (dma_semaphore r) (dma_report r) (zpass_pixel_count_enable r) (dma_vertex_a r)
    (dma_vertex_b r) (primitive_mode r) (enable_vertex_program_write r)
    (vertex_state_shader_v0 r) (program_data r) (program_data_dirty r) (vsh_constants r)
    (vsh_constants_dirty r) (ltctxa r) (ltctxa_dirty r) (ltctxb r) (ltctxb_dirty r)
    (ltc1 r) (ltc1_dirty r) (material_alpha r) (light_infinite_half_vector r)
    (light_infinite_direction r) (light_local_position r) (light_local_attenuation r)
    (specular_params r) (specular_power r) (specular_params_back r)
    (specular_power_back r) (point_params r) (vertex_attributes r) (compressed_attrs r)
    (inline_array_length r) (inline_array r) (inline_elements_length r)
    (inline_elements r) (inline_buffer_length r) (draw_arrays_length r)
    (draw_arrays_min_start r) (draw_arrays_max_count r) (draw_arrays_start r)
    (draw_arrays_count r) (draw_arrays_prevent_connect r) (regs_ r) (regs_dirty r)
    (waiting_for_nop r) (waiting_for_flip r) (waiting_for_context_switch r).

(** [irq] is the level of the PCI interrupt line, [config] the PCI configuration
    space, [vram] and [ramin] the memories behind [vram_ptr] and [ramin_ptr]. *)
Record NV2AState (X : Type) := {
  irq : bool;
  config : mem;
  vram_size : Z;
  vram : mem;
  ramin_size : Z;
  ramin : mem;
  pmc : Pmc;
  pfifo : Pfifo;
  pvideo_regs : regfile;
  ptimer : Ptimer;
  pfb_regs : regfile;
  pgraph : PGRAPHState;
  pcrtc : Pcrtc;
  pramdac : Pramdac;
  puserdac : Puserdac;
  ext : X
}.
Arguments irq {X}.
Arguments config {X}.
Arguments vram_size {X}.
Arguments vram {X}.
Arguments ramin_size {X}.
Arguments ramin {X}.
Arguments pmc {X}.
Arguments pfifo {X}.
Arguments pvideo_regs {X}.
Arguments ptimer {X}.
Arguments pfb_regs {X}.
Arguments pgraph {X}.
Arguments pcrtc {X}.
Arguments pramdac {X}.
Arguments puserdac {X}.
Arguments ext {X}.
Arguments Build_NV2AState {X}.
#[global] Instance eta_NV2AState X : Eta (NV2AState X) := fun r =>
  Build_NV2AState (irq r) (config r) (vram_size r) (vram r) (ramin_size r) (ramin r) (pmc
    r) (pfifo r) (pvideo_regs r) (ptimer r) (pfb_regs r) (pgraph r) (pcrtc r) (pramdac r)
    (puserdac r) (ext r).

Section State.
Context {X : Type}.
Implicit Types d : NV2AState X.

(** ** Interrupts *)

(** [pending & enabled] of a unit shows in its bit of the PMC register. *)
Definition unit_line (pending enabled bit p : Z) : Z :=
  if tst pending enabled then Z.lor p bit else Z.land p (Z.lnot bit).

Definition nv2a_update_irq d : NV2AState X :=
  let p := pmc_pending (pmc d) in
  let p := unit_line (pfifo_pending (pfifo d)) (pfifo_enabled (pfifo d)) NV_PMC_INTR_0_PFIFO p in
  let p := unit_line (pcrtc_pending (pcrtc d)) (pcrtc_enabled (pcrtc d)) NV_PMC_INTR_0_PCRTC p in
  let p := unit_line (pg_pending (pgraph d)) (pg_enabled (pgraph d)) NV_PMC_INTR_0_PGRAPH p in
  d <| pmc; pmc_pending := p |>
    <| irq := negb (p =? 0) && negb (pmc_enabled (pmc d) =? 0) |>.

(** ** DMA objects *)

Record DMAObject := { dma_class : Z; dma_target : Z; dma_address : Z; dma_limit : Z }.

Definition nv_dma_load d (dma_obj_address : Z) : res DMAObject :=
  if negb (dma_obj_address <? ramin_size d) then Fault AssertFail
  else
    flags ← ld_le (ramin d) 4 dma_obj_address;
    limit ← ld_le (ramin d) 4 (dma_obj_address + 4);
    frame ← ld_le (ramin d) 4 (dma_obj_address + 8);
    Ok {| dma_class := GET_MASK flags NV_DMA_CLASS;
          dma_target := GET_MASK flags NV_DMA_TARGET;
          dma_address := Z.lor (Z.land frame NV_DMA_ADDRESS) (GET_MASK flags NV_DMA_ADJUST);
          dma_limit := limit |}.

(** The pointer is an offset into [vram]; the length is the second result. *)
Definition nv_dma_map d (dma_obj_address : Z) : res (Z * Z) :=
  dma ← nv_dma_load d dma_obj_address;
  let a := Z.land (dma_address dma) 0x07FFFFFF in
  if negb (a <? vram_size d) then Fault AssertFail
  else Ok (a, dma_limit dma).

(** The tiles are looked at in order; [None] is the [continue] of the loop. *)
Definition clip_tile d (blit_base_address blit_end i : Z) : option Z :=
  let base_and_flags := reg (pfb_regs d) (NV_PFB_TILE_BASE_ADDRESS_AND_FLAGS i) in
  if negb (tst base_and_flags NV_PFB_TILE_FLAGS_VALID) then None
  else
    let limit := reg (pfb_regs d) (NV_PFB_TILE_LIMIT i) in
    if (blit_base_address <? limit) && (limit <? blit_end)
    then Some (u64 (u32 (limit + 1) - blit_base_address)) else None.

Definition nv_clip_gpu_tile_blit d (blit_base_address len : Z) : Z :=
  let blit_end := u64 (blit_base_address + len) in
  default len (head (omap (clip_tile d blit_base_address blit_end) (zseq NV_NUM_GPU_TILES))).

(** ** PGRAPH registers *)

Definition pgraph_reg_r (pg : PGRAPHState) (r : Z) : res Z :=
  if negb (r mod 4 =? 0) then Fault AssertFail else reg_read 0x2000 (regs_ pg) r.

(** The store and the dirty bit, for an address known to be good. *)
Definition reg_w (pg : PGRAPHState) (r v : Z) : PGRAPHState :=
  let pg' := if reg (regs_ pg) r =? v then pg
             else pg <| regs_dirty := {[ r / 4 ]} ∪ regs_dirty pg |> in
  pg' <| regs_ := <[r := v]> (regs_ pg) |>.

Definition pgraph_reg_w (pg : PGRAPHState) (r v : Z) : res PGRAPHState :=
  if negb (r mod 4 =? 0) then Fault AssertFail
  else if (0 <=? r) && (r <? 0x2000) then Ok (reg_w pg r v) else Fault OutOfBounds.

(** The macros are only used with register names, for which the assertion holds. *)
Definition PG_GET_MASK (pg : PGRAPHState) (r mask : Z) : Z := GET_MASK (reg (regs_ pg) r) mask.
Definition PG_SET_MASK (pg : PGRAPHState) (r mask v : Z) : PGRAPHState :=
  reg_w pg r (SET_MASK (reg (regs_ pg) r) mask v).

Definition pfifo_kick d : NV2AState X := d <| pfifo; fifo_kick := true |>.

End State.

End Nv2aState.
