(* ===== verification/Float32.v ===== *)
(** * Single-precision floats

    The [float] of the C code, as its 32-bit pattern: the operations decode the pattern,
    compute with the IEEE 754 operations of the Standard Library (round to nearest even,
    24 bits of precision, no contraction) and encode the result.  Every NaN result is the
    quiet NaN 0x7FC00000. *)

From Stdlib Require Import Floats.SpecFloat.
From S2P Require Import Prelude.

Module Float32.

Definition f32_decode (b : Z) : spec_float :=
  let s := Z.testbit b 31 in
  let e := Z.land (Z.shiftr b 23) 0xFF in
  let m := Z.land b 0x7FFFFF in
  if e =? 255 then (if m =? 0 then S754_infinity s else S754_nan)
  else if e =? 0 then
    match m with Zpos p => S754_finite s p (-149) | _ => S754_zero s end
  else match m + 2 ^ 23 with Zpos p => S754_finite s p (e - 150) | _ => S754_nan end.

Definition f32_encode (f : spec_float) : Z :=
  let sgn (s : bool) := if s then 2 ^ 31 else 0 in
  match f with
  | S754_zero s => sgn s
  | S754_infinity s => sgn s + 255 * 2 ^ 23
  | S754_nan => 0x7FC00000
  | S754_finite s m e =>
      if Zpos m <? 2 ^ 23 then sgn s + Zpos m
      else sgn s + (e + 150) * 2 ^ 23 + (Zpos m - 2 ^ 23)
  end.

Definition f32_op (op : spec_float -> spec_float -> spec_float) (a b : Z) : Z :=
  f32_encode (op (f32_decode a) (f32_decode b)).
Definition fadd : Z -> Z -> Z := f32_op (SFadd 24 128).
Definition fsub : Z -> Z -> Z := f32_op (SFsub 24 128).
Definition fmul : Z -> Z -> Z := f32_op (SFmul 24 128).
Definition fdiv : Z -> Z -> Z := f32_op (SFdiv 24 128).
Definition flt (a b : Z) : bool := SFltb (f32_decode a) (f32_decode b).
Definition fgt (a b : Z) : bool := flt b a.
Definition fle (a b : Z) : bool := SFleb (f32_decode a) (f32_decode b).
Definition feq (a b : Z) : bool := SFeqb (f32_decode a) (f32_decode b).

(** [(float)z], and [MAX] of two floats. *)
Definition f32_of_Z (z : Z) : Z := f32_encode (binary_normalize 24 128 z 0 false).
Definition fmax (a b : Z) : Z := if fgt a b then a else b.

(** [z / 255.0], computed as a [double] and stored in a [float]. *)
Definition f64_of_Z (z : Z) : spec_float := binary_normalize 53 1024 z 0 false.
Definition f32_of_f64 (f : spec_float) : spec_float :=
  match f with
  | S754_finite s m e => binary_normalize 24 128 (cond_Zopp s (Zpos m)) e s
  | _ => f
  end.
Definition fdiv_double (z w : Z) : Z :=
  f32_encode (f32_of_f64 (SFdiv 53 1024 (f64_of_Z z) (f64_of_Z w))).

Definition f_one : Z := 0x3F800000.
Definition f_minus_one : Z := 0xBF800000.

(** ** Patterns and values *)

Definition is_nan (b : Z) : bool :=
  (Z.land (Z.shiftr b 23) 0xFF =? 255) && negb (Z.land b 0x7FFFFF =? 0).

(** The pattern is its three fields. *)
Lemma f32_fields b : 0 <= b < 2 ^ 32 ->
  b = (if Z.testbit b 31 then 2 ^ 31 else 0)
      + Z.land (Z.shiftr b 23) 0xFF * 2 ^ 23 + Z.land b 0x7FFFFF
  /\ 0 <= Z.land (Z.shiftr b 23) 0xFF < 256 /\ 0 <= Z.land b 0x7FFFFF < 2 ^ 23.
Proof.
  intros Hb. change 0xFF with (Z.ones 8). change 0x7FFFFF with (Z.ones 23).
  rewrite !Z.land_ones, Z.shiftr_div_pow2 by lia.
  assert (Z.testbit b 31 = (2 ^ 31 <=? b)) as ->.
  { rewrite Z.testbit_eqb by lia. assert (b / 2 ^ 31 = 0 \/ b / 2 ^ 31 = 1) as [E|E] by dlia;
      rewrite E; cbn; destruct (Z.leb_spec (2 ^ 31) b); dlia. }
  destruct (Z.leb_spec (2 ^ 31) b); split; dlia.
Qed.

(** Encoding undoes decoding, except that the NaNs are one. *)
Lemma f32_encode_decode b : 0 <= b < 2 ^ 32 ->
  f32_encode (f32_decode b) = if is_nan b then 0x7FC00000 else b.
Proof.
  intros Hb. destruct (f32_fields b Hb) as (Eb & He & Hm). unfold f32_decode, is_nan. cbv zeta.
  set (s := Z.testbit b 31) in *. set (e := Z.land (Z.shiftr b 23) 0xFF) in *.
  set (m := Z.land b 0x7FFFFF) in *. clearbody s e m.
  destruct (Z.eqb_spec e 255) as [->|Hn].
  { destruct (Z.eqb_spec m 0) as [->|]; cbn [andb negb f32_encode]; [lia|done]. }
  cbn [andb]. destruct (Z.eqb_spec e 0) as [->|].
  - destruct m as [|p|p]; cbn [f32_encode]; [lia| |lia].
    rewrite (proj2 (Z.ltb_lt _ _)) by lia. lia.
  - destruct (m + 2 ^ 23) as [|p|p] eqn:Ep; [lia| |lia]. cbn [f32_encode].
    rewrite (proj2 (Z.ltb_ge _ _)) by lia. lia.
Qed.

(** Dividing a byte by 255 gives the same float in either precision. *)
Lemma fdiv_double_255 z : 0 <= z < 256 -> fdiv_double z 255 = fdiv (f32_of_Z z) (f32_of_Z 255).
Proof.
  intros Hz.
  assert (forallb (fun z => fdiv_double z 255 =? fdiv (f32_of_Z z) (f32_of_Z 255)) (zseq 256) = true)
    as Hall by (vm_compute; reflexivity).
  rewrite forallb_forall in Hall. apply Z.eqb_eq, Hall.
  apply list_elem_of_In, elem_of_zseq. lia.
Qed.

End Float32.
