(* ===== verification/Vertex.v ===== *)
(** * Immediate-mode vertices (pgraph/vertex.c)

    The game may send the attributes of a vertex one at a time; writing the last
    component of the position emits the vertex.  An attribute that keeps its value costs
    nothing: its [inline_buffer] is filled only when it first changes after a vertex was
    emitted.  [vertex_refines] says that this is the same as storing all the attributes
    of every vertex. *)

From S2P Require Import Prelude Nv2aRegs Nv2aState Float32.
Import Nv2aState Float32.

Module Vertex.

(** ** Current values *)

(** [int16_t] and the normalised integers of the vertex formats. *)
Definition s16 (x : Z) : Z := swrap 16 x.
Definition unorm (v n : Z) : Z := fdiv (f32_of_Z v) (f32_of_Z n).
Definition snorm (v n : Z) : Z := fmax f_minus_one (unorm v n).

(** The components of an (11,11,10) packed vector. *)
Definition sext_cmp (x sign ext : Z) : Z := if tst x sign then s32 (Z.lor x ext) else x.
Definition cmp_x (val : Z) : Z := sext_cmp (Z.land val 0x7FF) 0x400 0xFFFFF800.
Definition cmp_y (val : Z) : Z := sext_cmp (Z.land (Z.shiftr val 11) 0x7FF) 0x400 0xFFFFF800.
Definition cmp_z (val : Z) : Z := sext_cmp (Z.land (Z.shiftr val 22) 0x7FF) 0x200 0xFFFFFC00.

(** [memcpy] of [n] bytes over an array of floats. *)
Definition overlay (data : mem) (n : Z) (vs : list Z) : res (list Z) :=
  let byte i b := if i <? n then ld data i else Ok (Z.land b 0xFF) in
  if negb (n <=? 16) then Fault OutOfBounds
  else mapM (fun '(j, v) =>
         b0 ← byte (4 * j) v;
         b1 ← byte (4 * j + 1) (Z.shiftr v 8);
         b2 ← byte (4 * j + 2) (Z.shiftr v 16);
         b3 ← byte (4 * j + 3) (Z.shiftr v 24);
         Ok (b0 + 256 * (b1 + 256 * (b2 + 256 * b3)))) (zip (zseq 4) vs).

(** The loops over the components of an attribute: [inline_value[i] = value(i)]. *)
Definition fill_values (value : Z -> res Z) (n : Z) (vs : list Z) : res (list Z) :=
  res_foldl (fun vs i => v ← value i; aset vs i v) vs (zseq n).

Definition pgraph_update_inline_value (attr : VertexAttribute) (data : mem) : res VertexAttribute :=
  let count := attr_count attr in
  _ ← c_assert (count <=? 4);
  let vs := [0; 0; 0; f_one] in
  let s16_at i := v ← ld_le data 2 (2 * i); Ok (s16 v) in
  let ubytes := fill_values (fun i => v ← ld data i; Ok (unorm v 255)) count vs in
  vs ← switch (attr_format attr)
    [(NV097_SET_VERTEX_DATA_ARRAY_FORMAT_TYPE_UB_D3D, ubytes);
     (NV097_SET_VERTEX_DATA_ARRAY_FORMAT_TYPE_UB_OGL, ubytes);
     (NV097_SET_VERTEX_DATA_ARRAY_FORMAT_TYPE_S1,
      fill_values (fun i => v ← s16_at i; Ok (snorm v 32767)) count vs);
     (NV097_SET_VERTEX_DATA_ARRAY_FORMAT_TYPE_F, overlay data (u32 (attr_size attr * count)) vs);
     (NV097_SET_VERTEX_DATA_ARRAY_FORMAT_TYPE_S32K,
      fill_values (fun i => v ← s16_at i; Ok (f32_of_Z v)) count vs);
     (NV097_SET_VERTEX_DATA_ARRAY_FORMAT_TYPE_CMP,
      v ← ld_le data 4 0;
      let val := s32 v in
      Ok [snorm (cmp_x val) 1023; snorm (cmp_y val) 1023; snorm (cmp_z val) 511; f_one])]
    (Fault AssertFail);
  Ok (attr <| inline_value := vs |>).

(** The values of the attributes in the set [attrs], in order, and their number. *)
Definition pgraph_get_inline_values (pg : PGRAPHState) (attrs : Z) : list (list Z) * Z :=
  let values := (fun '(_, a) => inline_value a) <$>
    filter (fun '(i, _) => Z.testbit attrs i)
      (zip (zseq NV2A_VERTEXSHADER_ATTRIBUTES) (vertex_attributes pg)) in
  (values, Z.of_nat (length values)).

(** ** Vertices *)

(** The current value becomes the one of vertex [i]. *)
Definition store_vertex (attribute : VertexAttribute) (i : Z) : res VertexAttribute :=
  if (0 <=? i) && (i <? NV2A_MAX_BATCH_LENGTH)
  then Ok (attribute <| inline_buffer :=
             map_seqZ (4 * i) (inline_value attribute) ∪ inline_buffer attribute |>)
  else Fault OutOfBounds.

(** An operation on one of the attributes. *)
Definition on_attr (pg : PGRAPHState) (i : Z) (f : VertexAttribute -> res VertexAttribute)
  : res PGRAPHState :=
  a ← aget (vertex_attributes pg) i;
  a ← f a;
  l ← aset (vertex_attributes pg) i a;
  Ok (pg <| vertex_attributes := l |>).

(** The previous value of the attribute is uploaded for the [n] vertices there are. *)
Definition allocate_attribute (n : Z) (attribute : VertexAttribute) : res VertexAttribute :=
  if inline_buffer_populated attribute || (n =? 0) then Ok attribute
  else res_foldl store_vertex (attribute <| inline_buffer_populated := true |>) (zseq n).

Definition pgraph_allocate_inline_buffer_vertices (pg : PGRAPHState) (attr : Z)
  : res PGRAPHState :=
  on_attr pg attr (allocate_attribute (inline_buffer_length pg)).

Definition pgraph_finish_inline_buffer_vertex (pg : PGRAPHState) : res PGRAPHState :=
  let n := inline_buffer_length pg in
  _ ← c_assert (n <? NV2A_MAX_BATCH_LENGTH);
  l ← mapM (fun attribute =>
        if inline_buffer_populated attribute then store_vertex attribute n else Ok attribute)
      (vertex_attributes pg);
  Ok (pg <| vertex_attributes := l |> <| inline_buffer_length := n + 1 |>).

Definition pgraph_reset_draw_arrays (pg : PGRAPHState) : PGRAPHState :=
  pg <| draw_arrays_length := 0 |> <| draw_arrays_min_start := 0xFFFFFFFF |>
     <| draw_arrays_max_count := 0 |> <| draw_arrays_prevent_connect := false |>.

Definition pgraph_reset_inline_buffers (pg : PGRAPHState) : PGRAPHState :=
  pgraph_reset_draw_arrays
    (pg <| inline_elements_length := 0 |> <| inline_array_length := 0 |>
        <| inline_buffer_length := 0 |>).

(** [inline_value[j] = v] for the pairs of the list, after making room for them. *)
Definition set_attribute (pg : PGRAPHState) (attr : Z) (writes : list (Z * Z)) : res PGRAPHState :=
  pg ← pgraph_allocate_inline_buffer_vertices pg attr;
  on_attr pg attr (fun a =>
    vs ← res_foldl (fun vs '(j, v) => aset vs j v) (inline_value a) writes;
    Ok (a <| inline_value := vs |>)).

(** ** The vertices of a batch

    What a draw gets: for every emitted vertex the value of each attribute, from the
    buffer of the attribute if it has one, else the current value. *)

Definition buffered (a : VertexAttribute) (i : Z) : list Z :=
  (fun j => reg (inline_buffer a) (4 * i + j)) <$> zseq 4.
Definition vertex_value (i : Z) (a : VertexAttribute) : list Z :=
  if inline_buffer_populated a then buffered a i else inline_value a.
Definition vertices (pg : PGRAPHState) : list (list (list Z)) :=
  (fun i => vertex_value i <$> vertex_attributes pg) <$> zseq (inline_buffer_length pg).
Definition current (pg : PGRAPHState) : list (list Z) := inline_value <$> vertex_attributes pg.

Record attrs_wf (pg : PGRAPHState) : Prop := {
  aw_count : length (vertex_attributes pg) = 16%nat;
  aw_values : Forall (fun a => length (inline_value a) = 4%nat) (vertex_attributes pg);
  aw_length : 0 <= inline_buffer_length pg <= NV2A_MAX_BATCH_LENGTH
}.

(** The abstract machine: current values and the vertices emitted so far. *)
Inductive VertexOp :=
| SetAttribute (attr : Z) (writes : list (Z * Z))
| EmitVertex.

Definition vertex_op (pg : PGRAPHState) (o : VertexOp) : res PGRAPHState :=
  match o with
  | SetAttribute attr writes => set_attribute pg attr writes
  | EmitVertex => pgraph_finish_inline_buffer_vertex pg
  end.

Definition write_value (vs : list Z) (w : Z * Z) : list Z := <[Z.to_nat (w.1) := w.2]> vs.

Definition abstract_op (st : list (list Z) * list (list (list Z))) (o : VertexOp)
  : list (list Z) * list (list (list Z)) :=
  match o with
  | SetAttribute attr writes =>
      (alter (fun vs => foldl write_value vs writes) (Z.to_nat attr) st.1, st.2)
  | EmitVertex => (st.1, st.2 ++ [st.1])
  end.

Definition op_wf (o : VertexOp) : Prop :=
  match o with
  | SetAttribute attr writes => 0 <= attr < 16 /\ Forall (fun w => 0 <= w.1 < 4) writes
  | EmitVertex => True
  end.

Fixpoint emitted (l : list VertexOp) : Z :=
  match l with
  | [] => 0
  | SetAttribute _ _ :: l => emitted l
  | EmitVertex :: l => 1 + emitted l
  end.

(** ** Storing a vertex *)

Lemma reg_map_seqZ vs s m x :
  reg (map_seqZ s vs ∪ m) x
  = if decide (s <= x < s + Z.of_nat (length vs)) then default 0 (vs !! Z.to_nat (x - s)) else reg m x.
Proof.
  unfold reg. case_decide as Hd.
  - destruct (lookup_lt_is_Some_2 vs (Z.to_nat (x - s))) as [v Hv]; [lia|].
    rewrite (lookup_union_Some_l _ _ x v); [by rewrite Hv|].
    apply lookup_map_seqZ_Some. split; [lia|done].
  - rewrite lookup_union_r; [done|]. apply lookup_map_seqZ_None. lia.
Qed.

Lemma buffered_store a a' i k : length (inline_value a) = 4%nat -> store_vertex a i = Ok a' ->
  buffered a' k = if decide (k = i) then inline_value a else buffered a k.
Proof.
  intros Hl. unfold store_vertex. case_match; [|done]. intros [= <-]. unfold buffered.
  cbn [inline_buffer]. change (zseq 4) with [0; 1; 2; 3]. cbn [fmap list_fmap].
  change (inline_buffer (a <| inline_buffer := ?b |>)) with b. rewrite !reg_map_seqZ, Hl.
  destruct (decide (k = i)) as [->|Hk].
  - rewrite !decide_True by lia.
    destruct (inline_value a) as [|v0 [|v1 [|v2 [|v3 []]]]]; try done.
    replace (4 * i + 0 - 4 * i) with 0 by lia. replace (4 * i + 1 - 4 * i) with 1 by lia.
    replace (4 * i + 2 - 4 * i) with 2 by lia. by replace (4 * i + 3 - 4 * i) with 3 by lia.
  - by rewrite !decide_False by lia.
Qed.

Lemma store_vertex_ok a i : 0 <= i < NV2A_MAX_BATCH_LENGTH -> exists a', store_vertex a i = Ok a'
  /\ inline_value a' = inline_value a /\ inline_buffer_populated a' = inline_buffer_populated a.
Proof.
  intros Hi. unfold store_vertex. rewrite (proj2 (Z.leb_le _ _)), (proj2 (Z.ltb_lt _ _)) by lia.
  cbn [andb]. eauto.
Qed.

(** Filling the buffer with the value the earlier vertices had. *)
Lemma fill_buffer a n : length (inline_value a) = 4%nat -> 0 <= n <= NV2A_MAX_BATCH_LENGTH ->
  exists a', res_foldl store_vertex a (zseq n) = Ok a' /\ inline_value a' = inline_value a
    /\ inline_buffer_populated a' = inline_buffer_populated a
    /\ forall k, 0 <= k < n -> buffered a' k = inline_value a.
Proof.
  intros Hl Hn.
  destruct (res_foldl_ind store_vertex (fun l a' => inline_value a' = inline_value a
    /\ inline_buffer_populated a' = inline_buffer_populated a
    /\ forall k, k ∈ l -> buffered a' k = inline_value a) a (zseq n)) as (a' & E & Hv & Hp & Hb).
  - do 2 (split; [done|]). by intros k ?%not_elem_of_nil.
  - intros l1 i l2 a1 Hs (Hv & Hp & Hb). apply zseq_split in Hs as [Hi Ei].
    destruct (store_vertex_ok a1 i) as (a2 & E & Hv2 & Hp2); [lia|].
    exists a2. split; [done|]. split; [congruence|]. split; [congruence|].
    intros k Hk. rewrite (buffered_store a1 a2 i k) by (by rewrite ?Hv || done).
    case_decide; [done|]. apply Hb. apply elem_of_app in Hk as [|Hk]; [done|].
    by apply list_elem_of_singleton in Hk.
  - exists a'. do 3 (split; [done|]). intros k Hk. apply Hb, elem_of_zseq, Hk.
Qed.

(** ** The refinement *)

Lemma on_attr_ok pg i f : 0 <= i < Z.of_nat (length (vertex_attributes pg)) ->
  (forall a, vertex_attributes pg !! Z.to_nat i = Some a -> exists a', f a = Ok a') ->
  exists a a', vertex_attributes pg !! Z.to_nat i = Some a /\ f a = Ok a'
    /\ on_attr pg i f = Ok (pg <| vertex_attributes := <[Z.to_nat i := a']> (vertex_attributes pg) |>).
Proof.
  intros Hi Hf. destruct (aget_ok (vertex_attributes pg) i Hi) as (a & E & Ea).
  destruct (Hf a Ea) as [a' Ef]. exists a, a'. do 2 (split; [done|]).
  unfold on_attr. rewrite E. cbn [mbind res_mbind res_bind]. rewrite Ef.
  cbn [mbind res_mbind res_bind]. by rewrite aset_ok.
Qed.

(** Replacing an attribute by one with the same vertices changes no vertex. *)
Lemma vertices_insert pg i a a' : vertex_attributes pg !! i = Some a ->
  (forall k, 0 <= k < inline_buffer_length pg -> vertex_value k a' = vertex_value k a) ->
  vertices (pg <| vertex_attributes := <[i := a']> (vertex_attributes pg) |>) = vertices pg.
Proof.
  intros Ei Hv. unfold vertices. cbn [vertex_attributes inline_buffer_length].
  change (inline_buffer_length (pg <| vertex_attributes := ?l |>)) with (inline_buffer_length pg).
  apply list_fmap_ext. intros _ k Hk%list_elem_of_lookup_2. apply elem_of_zseq in Hk.
  change (vertex_attributes (pg <| vertex_attributes := ?l |>)) with l.
  rewrite list_fmap_insert, (Hv k Hk). apply list_insert_id. by rewrite list_lookup_fmap, Ei.
Qed.

Lemma attrs_wf_insert pg i a : attrs_wf pg -> length (inline_value a) = 4%nat ->
  attrs_wf (pg <| vertex_attributes := <[i := a]> (vertex_attributes pg) |>).
Proof.
  intros [Hc Hv Hl] Ha. constructor; [| |done].
  - change (length (<[i := a]> (vertex_attributes pg)) = 16%nat). by rewrite length_insert.
  - by apply Forall_insert.
Qed.

Lemma current_insert pg i a :
  current (pg <| vertex_attributes := <[i := a]> (vertex_attributes pg) |>)
  = <[i := inline_value a]> (current pg).
Proof. apply list_fmap_insert. Qed.

(** Making room for an attribute changes neither the values nor the vertices, and
    afterwards the value may change without changing a vertex. *)
Lemma allocate_attribute_ok n a : length (inline_value a) = 4%nat ->
  0 <= n <= NV2A_MAX_BATCH_LENGTH -> exists a', allocate_attribute n a = Ok a'
    /\ inline_value a' = inline_value a /\ (inline_buffer_populated a' = true \/ n = 0)
    /\ forall k, 0 <= k < n -> vertex_value k a' = vertex_value k a.
Proof.
  intros Ha Hn. unfold allocate_attribute.
  destruct (inline_buffer_populated a) eqn:Ep; cbn [orb].
  { exists a. split; [done|]. split; [done|]. split; [by left|done]. }
  destruct (Z.eqb_spec n 0) as [E0|].
  { exists a. do 2 (split; [done|]). split; [by right|done]. }
  destruct (fill_buffer (a <| inline_buffer_populated := true |>) n) as (a' & E & Ev & Epp & Eb);
    [done|lia|].
  exists a'. split; [done|]. split; [done|]. split; [by left|].
  intros k Hk. unfold vertex_value. rewrite Epp, Ep. by apply Eb.
Qed.

Lemma allocate_ok pg attr : attrs_wf pg -> 0 <= attr < 16 -> exists pg',
  pgraph_allocate_inline_buffer_vertices pg attr = Ok pg' /\ attrs_wf pg'
  /\ inline_buffer_length pg' = inline_buffer_length pg
  /\ current pg' = current pg /\ vertices pg' = vertices pg
  /\ forall a, vertex_attributes pg' !! Z.to_nat attr = Some a ->
     inline_buffer_populated a = true \/ inline_buffer_length pg = 0.
Proof.
  intros Hw Hi. pose proof Hw as [Hc Hv Hl].
  assert (forall a, vertex_attributes pg !! Z.to_nat attr = Some a -> length (inline_value a) = 4%nat)
    as Hlen by (intros a Ha; by eapply (Forall_lookup_1 _ _ _ _ Hv)).
  unfold pgraph_allocate_inline_buffer_vertices.
  destruct (on_attr_ok pg attr (allocate_attribute (inline_buffer_length pg)))
    as (a & a' & Ea & Efa & ->).
  { rewrite Hc. lia. }
  { intros a Ha. destruct (allocate_attribute_ok _ a (Hlen a Ha) Hl) as (a' & E & _). eauto. }
  destruct (allocate_attribute_ok _ a (Hlen a Ea) Hl) as (a2 & E2 & Ev & Hp & Hvv).
  rewrite Efa in E2. injection E2 as <-.
  eexists. split; [done|]. split; [apply attrs_wf_insert; [done|rewrite Ev; by apply Hlen]|].
  split; [done|]. split.
  { rewrite current_insert, Ev. apply list_insert_id. unfold current. by rewrite list_lookup_fmap, Ea. }
  split; [by apply (vertices_insert pg _ a)|]. intros b Hb.
  change (<[Z.to_nat attr := a']> (vertex_attributes pg) !! Z.to_nat attr = Some b) in Hb.
  rewrite list_lookup_insert_eq in Hb by lia. by injection Hb as <-.
Qed.

Lemma write_values_ok vs writes : length vs = 4%nat -> Forall (fun w => 0 <= w.1 < 4) writes ->
  res_foldl (fun vs '(j, v) => aset vs j v) vs writes = Ok (foldl write_value vs writes)
  /\ length (foldl write_value vs writes) = 4%nat.
Proof.
  intros Hl Hw. induction Hw as [|[j v] l Hj _ IH] in vs, Hl |- *; [done|].
  cbn [res_foldl foldl fst snd] in *. rewrite aset_ok by lia. cbn [mbind res_mbind res_bind].
  apply IH. unfold write_value. by rewrite length_insert.
Qed.

Lemma set_attribute_ok pg attr writes : attrs_wf pg -> 0 <= attr < 16 ->
  Forall (fun w => 0 <= w.1 < 4) writes -> exists pg', set_attribute pg attr writes = Ok pg'
  /\ attrs_wf pg' /\ inline_buffer_length pg' = inline_buffer_length pg
  /\ (current pg', vertices pg')
     = abstract_op (current pg, vertices pg) (SetAttribute attr writes).
Proof.
  intros Hw Hi Hws. unfold set_attribute.
  destruct (allocate_ok pg attr Hw Hi) as (pg1 & -> & Hw1 & El & Ec & Ev & Hp).
  cbn [mbind res_mbind res_bind]. pose proof Hw1 as [Hc1 Hv1 _].
  set (f := fun a => _ ≫= _).
  assert (forall a, vertex_attributes pg1 !! Z.to_nat attr = Some a ->
    f a = Ok (a <| inline_value := foldl write_value (inline_value a) writes |>)
    /\ length (foldl write_value (inline_value a) writes) = 4%nat) as Hf.
  { intros a Ha. pose proof (Forall_lookup_1 _ _ _ _ Hv1 Ha) as Hla. cbv beta in Hla.
    destruct (write_values_ok _ _ Hla Hws) as [E Hl]. split; [|done]. unfold f. by rewrite E. }
  destruct (on_attr_ok pg1 attr f) as (a & a' & Ea & Efa & ->).
  { rewrite Hc1. lia. }
  { intros a Ha. rewrite (proj1 (Hf a Ha)). eauto. }
  destruct (Hf a Ea) as [Ef Hl]. rewrite Efa in Ef. injection Ef as ->.
  eexists. split; [done|]. split; [by apply attrs_wf_insert|]. split; [done|].
  cbn [abstract_op fst snd]. f_equal.
  - rewrite current_insert, Ec. symmetry.
    apply (alter_insert (fun vs => foldl write_value vs writes)). rewrite <- Ec.
    unfold current. by rewrite list_lookup_fmap, Ea.
  - rewrite (vertices_insert pg1 _ a); [done..|]. intros k Hk. unfold vertex_value.
    destruct (Hp a Ea) as [Hpa|]; [|lia].
    change (inline_buffer_populated (a <| inline_value := ?v |>)) with (inline_buffer_populated a).
    by rewrite Hpa.
Qed.

Lemma zseq_S n : 0 <= n -> zseq (n + 1) = zseq n ++ [n].
Proof. intros Hn. unfold zseq. rewrite seqZ_app, Z.add_0_l by lia. done. Qed.

(** Emitting a vertex stores the current value where the attribute has a buffer. *)
Lemma finish_ok pg : attrs_wf pg -> inline_buffer_length pg < NV2A_MAX_BATCH_LENGTH ->
  exists pg', pgraph_finish_inline_buffer_vertex pg = Ok pg' /\ attrs_wf pg'
  /\ inline_buffer_length pg' = inline_buffer_length pg + 1
  /\ (current pg', vertices pg') = abstract_op (current pg, vertices pg) EmitVertex.
Proof.
  intros [Hc Hv Hl] Hn. unfold pgraph_finish_inline_buffer_vertex.
  rewrite (proj2 (Z.ltb_lt _ _)) by done. cbn [c_assert mbind res_mbind res_bind].
  set (n := inline_buffer_length pg) in *.
  destruct (mapM_ok (fun a => if inline_buffer_populated a then store_vertex a n else Ok a)
    (fun a a' => inline_value a' = inline_value a /\ vertex_value n a' = inline_value a
       /\ forall k, 0 <= k < n -> vertex_value k a' = vertex_value k a) (vertex_attributes pg))
    as (l & E & Hr).
  { eapply Forall_impl; [exact Hv|]. intros a Ha. cbv beta in *. unfold vertex_value.
    destruct (inline_buffer_populated a) eqn:Ep; [|exists a; rewrite Ep; auto].
    destruct (store_vertex_ok a n ltac:(lia)) as (a' & E & Ev & Epp). exists a'.
    rewrite Epp, Ep. split; [done|]. split; [done|].
    split; [|intros k Hk]; rewrite (buffered_store a a' n) by done;
      [by rewrite decide_True|rewrite decide_False by lia; done]. }
  rewrite E. cbn [mbind res_mbind res_bind]. eexists. split; [done|].
  assert (inline_value <$> l = inline_value <$> vertex_attributes pg) as Ecur.
  { clear -Hr. induction Hr as [|a a' l1 l2 (H1 & _) _ IH]; [done|]. cbn. by rewrite H1, IH. }
  split; [|split; [done|]].
  { constructor; cbn.
    - by rewrite <- (Forall2_length _ _ _ Hr).
    - apply (proj1 (Forall_fmap inline_value (fun v => length v = 4%nat) l)). rewrite Ecur.
      by apply Forall_fmap.
    - change (0 <= n + 1 <= NV2A_MAX_BATCH_LENGTH). lia. }
  cbn [abstract_op fst snd]. f_equal; [exact Ecur|]. unfold vertices.
  change (inline_buffer_length (_ <| inline_buffer_length := ?x |>)) with x.
  change (vertex_attributes (_ <| vertex_attributes := ?x |> <| inline_buffer_length := _ |>)) with x.
  rewrite zseq_S, fmap_app by lia. f_equal.
  - apply list_fmap_ext. intros _ k Hk%list_elem_of_lookup_2. apply elem_of_zseq in Hk.
    clear -Hr Hk. induction Hr as [|a a' l1 l2 (_ & _ & H3) _ IH]; [done|]. cbn. by rewrite H3, IH.
  - cbn [fmap list_fmap]. f_equal. unfold current. clear -Hr.
    induction Hr as [|a a' l1 l2 (_ & H2 & _) _ IH]; [done|]. cbn. by rewrite H2, IH.
Qed.

(** C10. Sending a batch of vertices attribute by attribute, with the buffers filled only
    when an attribute first changes, gives the vertices of the machine that stores all the
    attributes of every vertex: whatever the sequence of writes and emissions, as long as
    the batch fits, no write is out of bounds, no assertion fails, and a draw gets for
    every vertex and every attribute the value that was current when it was emitted. *)
Theorem vertex_refines (pg : PGRAPHState) (l : list VertexOp) :
  attrs_wf pg -> Forall op_wf l ->
  inline_buffer_length pg + emitted l <= NV2A_MAX_BATCH_LENGTH ->
  exists pg', res_foldl vertex_op pg l = Ok pg' /\ attrs_wf pg'
    /\ (current pg', vertices pg') = foldl abstract_op (current pg, vertices pg) l.
Proof.
  intros Hw Hl. induction Hl as [|o l Ho _ IH] in pg, Hw |- *; intros Hn; [by exists pg|].
  assert (forall l, 0 <= emitted l) as Hpos.
  { intros l'. induction l' as [|[] l' IHl]; cbn [emitted]; lia. }
  cbn [res_foldl foldl].
  assert (exists pg1, vertex_op pg o = Ok pg1 /\ attrs_wf pg1
    /\ inline_buffer_length pg1 + emitted l <= NV2A_MAX_BATCH_LENGTH
    /\ (current pg1, vertices pg1) = abstract_op (current pg, vertices pg) o)
    as (pg1 & E & Hw1 & Hn1 & Ea).
  { destruct o as [attr writes|]; cbn [vertex_op emitted op_wf] in *.
    - destruct Ho as [Hi Hws].
      destruct (set_attribute_ok pg attr writes Hw Hi Hws) as (pg1 & ? & ? & ? & ?).
      exists pg1. do 2 (split; [done|]). split; [lia|done].
    - destruct (finish_ok pg Hw) as (pg1 & ? & ? & ? & ?); [specialize (Hpos l); lia|].
      exists pg1. do 2 (split; [done|]). split; [lia|done]. }
  rewrite E, <- Ea. cbn [mbind res_mbind res_bind]. by apply IH.
Qed.

End Vertex.
