(* ===== verification/Nv2aBlocks.v ===== *)
(** * The small units of the NV2A (pmc.c, pbus.c, pfb.c, ptimer.c, pcrtc.c, pvideo.c,
      pramdac.c, prmvio.c, prmcio.c, prmdio.c, user.c, stubs.c)

    One read and one write handler per MMIO block.  An access has an offset in the
    block, a size in bytes and, for a write, a value of that size.  Logging is left
    out; PFIFO and PGRAPH have files of their own. *)

From S2P Require Import Prelude Nv2aRegs Nv2aState.
Import Nv2aState.

Module Nv2aBlocks.

Section Blocks.
Context {X : Type} `{VgaOps X}.
Implicit Types d : NV2AState X.

(** ** PMC *)

Definition pmc_read d (addr size : Z) : res (NV2AState X * Z) :=
  Ok (d, switch addr
    [(NV_PMC_BOOT_0, 0x02A000A3);
     (NV_PMC_INTR_0, pmc_pending (pmc d));
     (NV_PMC_INTR_EN_0, pmc_enabled (pmc d))] 0).

Definition pmc_write d (addr val size : Z) : res (NV2AState X) :=
  Ok (switch addr
    [(NV_PMC_INTR_0,
      nv2a_update_irq (d <| pmc; pmc_pending := Z.land (pmc_pending (pmc d)) (Z.lnot val) |>));
     (NV_PMC_INTR_EN_0, nv2a_update_irq (d <| pmc; pmc_enabled := u32 val |>))] d).

(** ** PBUS: [pci_get_long] and [pci_set_long] on the configuration space *)

Definition pci_set_long (m : mem) (a v : Z) : res mem :=
  res_foldl (fun m i => st m (a + i) (u8 (Z.shiftr v (8 * i)))) m (zseq 4).

Definition pbus_read d (addr size : Z) : res (NV2AState X * Z) :=
  r ← switch addr
    [(NV_PBUS_PCI_NV_0, ld_le (config d) 4 PCI_VENDOR_ID);
     (NV_PBUS_PCI_NV_1, ld_le (config d) 4 PCI_COMMAND);
     (NV_PBUS_PCI_NV_2, ld_le (config d) 4 PCI_CLASS_REVISION)] (Ok 0);
  Ok (d, r).

Definition pbus_write d (addr val size : Z) : res (NV2AState X) :=
  switch addr
    [(NV_PBUS_PCI_NV_1, c ← pci_set_long (config d) PCI_COMMAND (u32 val);
                        Ok (d <| config := c |>))] (Ok d).

(** ** PFB *)

Definition pfb_read d (addr size : Z) : res (NV2AState X * Z) :=
  r ← switch addr
    [(NV_PFB_CSTATUS, Ok (vram_size d));
     (NV_PFB_WBC, Ok 0)] (reg_read 0x1000 (pfb_regs d) addr);
  Ok (d, r).

Definition pfb_write d (addr val size : Z) : res (NV2AState X) :=
  r ← reg_write 0x1000 (pfb_regs d) addr (u32 val);
  Ok (d <| pfb_regs := r |>).

(** ** PTIMER; [now] is the virtual clock in nanoseconds *)

Definition NANOSECONDS_PER_SECOND : Z := 1000000000.

Definition muldiv64 (a b c : Z) : res Z :=
  if u32 c =? 0 then Fault DivByZero else Ok (u64 (a * u32 b / u32 c)).

Definition ptimer_get_clock d (now : Z) : res Z :=
  t ← muldiv64 now (core_clock_freq (pramdac d)) NANOSECONDS_PER_SECOND;
  muldiv64 t (denominator (ptimer d)) (numerator (ptimer d)).

Definition ptimer_read (now : Z) d (addr size : Z) : res (NV2AState X * Z) :=
  r ← switch addr
    [(NV_PTIMER_INTR_0, Ok (ptimer_pending (ptimer d)));
     (NV_PTIMER_INTR_EN_0, Ok (ptimer_enabled (ptimer d)));
     (NV_PTIMER_NUMERATOR, Ok (numerator (ptimer d)));
     (NV_PTIMER_DENOMINATOR, Ok (denominator (ptimer d)));
     (NV_PTIMER_TIME_0, c ← ptimer_get_clock d now; Ok (Z.shiftl (Z.land c 0x7ffffff) 5));
     (NV_PTIMER_TIME_1, c ← ptimer_get_clock d now; Ok (Z.land (Z.shiftr c 27) 0x1fffffff))]
    (Ok 0);
  Ok (d, r).

Definition ptimer_write d (addr val size : Z) : res (NV2AState X) :=
  Ok (switch addr
    [(NV_PTIMER_INTR_0,
      nv2a_update_irq (d <| ptimer; ptimer_pending := Z.land (ptimer_pending (ptimer d)) (Z.lnot val) |>));
     (NV_PTIMER_INTR_EN_0, nv2a_update_irq (d <| ptimer; ptimer_enabled := u32 val |>));
     (NV_PTIMER_DENOMINATOR, d <| ptimer; denominator := u32 val |>);
     (NV_PTIMER_NUMERATOR, d <| ptimer; numerator := u32 val |>);
     (NV_PTIMER_ALARM_0, d <| ptimer; alarm_time := u32 val |>)] d).

(** ** PCRTC; reading the raster line advances it *)

Definition pcrtc_read d (addr size : Z) : res (NV2AState X * Z) :=
  Ok (switch addr
    [(NV_PCRTC_INTR_0, (d, pcrtc_pending (pcrtc d)));
     (NV_PCRTC_INTR_EN_0, (d, pcrtc_enabled (pcrtc d)));
     (NV_PCRTC_START, (d, pcrtc_start (pcrtc d)));
     (NV_PCRTC_RASTER, (d <| pcrtc; raster := u32 (raster (pcrtc d) + 1) |>, raster (pcrtc d)))]
    (d, 0)).

Definition pcrtc_write d (addr val size : Z) : res (NV2AState X) :=
  Ok (switch addr
    [(NV_PCRTC_INTR_0,
      nv2a_update_irq (d <| pcrtc; pcrtc_pending := Z.land (pcrtc_pending (pcrtc d)) (Z.lnot val) |>));
     (NV_PCRTC_INTR_EN_0, nv2a_update_irq (d <| pcrtc; pcrtc_enabled := u32 val |>));
     (NV_PCRTC_START, d <| pcrtc; pcrtc_start := Z.land val 0x07FFFFFF |>)] d).

(** ** PVIDEO *)

Definition pvideo_vga_invalidate d : NV2AState X :=
  let y1 := GET_MASK (reg (pvideo_regs d) NV_PVIDEO_POINT_OUT) NV_PVIDEO_POINT_OUT_Y in
  let y2 := y1 + GET_MASK (reg (pvideo_regs d) NV_PVIDEO_SIZE_OUT) NV_PVIDEO_SIZE_OUT_HEIGHT in
  d <| ext := vga_invalidate_scanlines (ext d) y1 y2 |>.

Definition pvideo_read d (addr size : Z) : res (NV2AState X * Z) :=
  r ← switch addr [(NV_PVIDEO_STOP, Ok 0)] (reg_read 0x1000 (pvideo_regs d) addr);
  Ok (d, r).

Definition pvideo_write d (addr val size : Z) : res (NV2AState X) :=
  switch addr
    [(NV_PVIDEO_BUFFER,
      r ← reg_write 0x1000 (pvideo_regs d) addr (u32 val);
      Ok (pvideo_vga_invalidate (d <| pvideo_regs := r |>)));
     (NV_PVIDEO_STOP,
      Ok (pvideo_vga_invalidate
        (if tst val 0x01 then d <| pvideo_regs := <[NV_PVIDEO_BUFFER := 0]> (pvideo_regs d) |> else d)))]
    (r ← reg_write 0x1000 (pvideo_regs d) addr (u32 val);
     Ok (d <| pvideo_regs := r |>)).

(** ** PRAMDAC *)

(** The lock bits are [int]s, so that their union is sign extended. *)
Definition pll_locked : Z :=
  u64 (s32 (Z.lor (Z.lor (Z.lor NV_PRAMDAC_PLL_TEST_COUNTER_VPLL2_LOCK
                                NV_PRAMDAC_PLL_TEST_COUNTER_NVPLL_LOCK)
                         NV_PRAMDAC_PLL_TEST_COUNTER_MPLL_LOCK)
                  NV_PRAMDAC_PLL_TEST_COUNTER_VPLL_LOCK)).

(** [r >>= count] on a [uint64_t]. *)
Definition shr64 (r count : Z) : res Z :=
  if (0 <=? count) && (count <? 64) then Ok (Z.shiftr r count) else Fault ShiftRange.

(** The register at a word address. *)
Definition pramdac_value (p : Pramdac) (addr : Z) : Z :=
  switch addr
    [(NV_PRAMDAC_NVPLL_COEFF, core_clock_coeff p);
     (NV_PRAMDAC_MPLL_COEFF, memory_clock_coeff p);
     (NV_PRAMDAC_VPLL_COEFF, video_clock_coeff p);
     (NV_PRAMDAC_PLL_TEST_COUNTER, pll_locked);
     (NV_PRAMDAC_GENERAL_CONTROL, general_control p);
     (NV_PRAMDAC_FP_VDISPLAY_END, fp_vdisplay_end p);
     (NV_PRAMDAC_FP_VCRTC, fp_vcrtc p);
     (NV_PRAMDAC_FP_VSYNC_END, fp_vsync_end p);
     (NV_PRAMDAC_FP_VVALID_END, fp_vvalid_end p);
     (NV_PRAMDAC_FP_HDISPLAY_END, fp_hdisplay_end p);
     (NV_PRAMDAC_FP_HCRTC, fp_hcrtc p);
     (NV_PRAMDAC_FP_HVALID_END, fp_hvalid_end p)] 0.

Definition pramdac_read d (addr size : Z) : res (NV2AState X * Z) :=
  r ← shr64 (pramdac_value (pramdac d) (Z.land addr (Z.lnot 3)))
            (32 - 8 * size - 8 * Z.land addr 3);
  Ok (d, r).

(** The core clock that the PLL coefficients [val] select. *)
Definition pll_freq (val : Z) : Z :=
  let m := Z.land val NV_PRAMDAC_NVPLL_COEFF_MDIV in
  let n := Z.shiftr (Z.land val NV_PRAMDAC_NVPLL_COEFF_NDIV) 8 in
  let p := Z.shiftr (Z.land val NV_PRAMDAC_NVPLL_COEFF_PDIV) 16 in
  if m =? 0 then 0 else u32 (NV2A_CRYSTAL_FREQ * n) / Z.shiftl 1 p / m.

Definition pramdac_write d (addr val size : Z) : res (NV2AState X) :=
  let v := u32 val in
  Ok (switch addr
    [(NV_PRAMDAC_NVPLL_COEFF,
      d <| pramdac; core_clock_coeff := v |> <| pramdac; core_clock_freq := pll_freq val |>);
     (NV_PRAMDAC_MPLL_COEFF, d <| pramdac; memory_clock_coeff := v |>);
     (NV_PRAMDAC_VPLL_COEFF, d <| pramdac; video_clock_coeff := v |>);
     (NV_PRAMDAC_GENERAL_CONTROL, d <| pramdac; general_control := v |>);
     (NV_PRAMDAC_FP_VDISPLAY_END, d <| pramdac; fp_vdisplay_end := v |>);
     (NV_PRAMDAC_FP_VCRTC, d <| pramdac; fp_vcrtc := v |>);
     (NV_PRAMDAC_FP_VSYNC_END, d <| pramdac; fp_vsync_end := v |>);
     (NV_PRAMDAC_FP_VVALID_END, d <| pramdac; fp_vvalid_end := v |>);
     (NV_PRAMDAC_FP_HDISPLAY_END, d <| pramdac; fp_hdisplay_end := v |>);
     (NV_PRAMDAC_FP_HCRTC, d <| pramdac; fp_hcrtc := v |>);
     (NV_PRAMDAC_FP_HVALID_END, d <| pramdac; fp_hvalid_end := v |>)] d).

(** ** PRMVIO and PRMCIO: aliases of the VGA registers *)

Definition prmvio_read d (addr size : Z) : res (NV2AState X * Z) :=
  let '(x, r) := vga_ioport_read (ext d) addr in Ok (d <| ext := x |>, r).

Definition prmvio_write d (addr val size : Z) : res (NV2AState X) :=
  Ok (d <| ext := vga_ioport_write (ext d) addr (u32 val) |>).

Definition prmcio_read d (addr size : Z) : res (NV2AState X * Z) :=
  let '(x, r) := vga_ioport_read (ext d) addr in Ok (d <| ext := x |>, r).

Definition prmcio_write d (addr val size : Z) : res (NV2AState X) :=
  let val := switch addr
    [(VGA_ATT_W, if vga_ar_flip_flop (ext d) =? 0 then Z.lor val VGA_AR_ENABLE_DISPLAY else val)]
    val in
  Ok (d <| ext := vga_ioport_write (ext d) addr (u32 val) |>).

(** ** PRMDIO: the palette *)

Definition prmdio_read d (addr size : Z) : res (NV2AState X * Z) :=
  Ok (d, switch addr
    [(NV_USER_DAC_WRITE_MODE_ADDRESS, write_mode_address (puserdac d) / 3)] 0).

Definition prmdio_write d (addr val size : Z) : res (NV2AState X) :=
  let p := puserdac d in
  switch addr
    [(NV_USER_DAC_WRITE_MODE_ADDRESS,
      Ok (d <| puserdac; write_mode_address := Z.land val 0xff * 3 |>));
     (NV_USER_DAC_PALETTE_DATA,
      l ← buf_set (palette p) (Z.to_nat (write_mode_address p mod (256 * 3))) (u8 val);
      Ok (d <| puserdac; palette := l |>
            <| puserdac; write_mode_address := u16 (write_mode_address p + 1) |>))]
    (Ok d).

(** ** USER: the submission area of the current channel *)

Definition user_guard d (addr : Z) : bool :=
  let channel_id := Z.shiftr addr 16 in
  (channel_id <? NV2A_NUM_CHANNELS)
  && tst (reg (pfifo_regs (pfifo d)) NV_PFIFO_MODE) (Z.shiftl 1 channel_id)
  && (channel_id =? GET_MASK (reg (pfifo_regs (pfifo d)) NV_PFIFO_CACHE1_PUSH1)
                             NV_PFIFO_CACHE1_PUSH1_CHID).

Definition user_read d (addr size : Z) : res (NV2AState X * Z) :=
  if negb (user_guard d addr) then Fault AssertFail
  else Ok (d, switch (Z.land addr 0xFFFF)
    [(NV_USER_DMA_PUT, reg (pfifo_regs (pfifo d)) NV_PFIFO_CACHE1_DMA_PUT);
     (NV_USER_DMA_GET, reg (pfifo_regs (pfifo d)) NV_PFIFO_CACHE1_DMA_GET);
     (NV_USER_REF, reg (pfifo_regs (pfifo d)) NV_PFIFO_CACHE1_REF)] 0).

Definition user_write d (addr val size : Z) : res (NV2AState X) :=
  if negb (user_guard d addr) then Fault AssertFail
  else
    let put r := Ok (pfifo_kick (d <| pfifo; pfifo_regs := <[r := u32 val]> (pfifo_regs (pfifo d)) |>)) in
    switch (Z.land addr 0xFFFF)
      [(NV_USER_DMA_PUT, put NV_PFIFO_CACHE1_DMA_PUT);
       (NV_USER_DMA_GET, put NV_PFIFO_CACHE1_DMA_GET);
       (NV_USER_REF, put NV_PFIFO_CACHE1_REF)]
      (Fault AssertFail).

(** ** Blocks with no behaviour *)

Definition stub_read d (addr size : Z) : res (NV2AState X * Z) := Ok (d, 0).
Definition stub_write d (addr val size : Z) : res (NV2AState X) := Ok d.

(** [override] is the value the environment forces on iOS builds. *)
Definition pstraps_read (override : option Z) d (addr size : Z) : res (NV2AState X * Z) :=
  Ok (d, default 0 override).
Definition pstraps_write d (addr val size : Z) : res (NV2AState X) := Ok d.

(** ** The clock *)

(** C33. The two time registers show one clock: read at the same instant, TIME_1 and
    TIME_0 are the high and the low half of 32 times the low 56 bits of the clock,
    which is the virtual time scaled by the core frequency, the denominator and the
    numerator, each step rounded down. *)
Theorem ptimer_time now d size :
  0 <= now < 2 ^ 63 -> is_u32 (core_clock_freq (pramdac d)) ->
  is_u32 (denominator (ptimer d)) -> is_u32 (numerator (ptimer d)) -> numerator (ptimer d) <> 0 ->
  let ticks := u64 (u64 (now * core_clock_freq (pramdac d) / 1000000000)
                    * denominator (ptimer d) / numerator (ptimer d)) in
  exists lo hi,
    ptimer_read now d NV_PTIMER_TIME_0 size = Ok (d, lo)
    /\ ptimer_read now d NV_PTIMER_TIME_1 size = Ok (d, hi)
    /\ is_u32 lo /\ is_u32 hi /\ hi * 2 ^ 32 + lo = 32 * (ticks mod 2 ^ 56).
Proof.
  intros Hnow Hf Hd Hn Hn0 ticks.
  assert (ptimer_get_clock d now = Ok ticks) as E.
  { unfold ptimer_get_clock, muldiv64. rewrite (uwrap_small 32 (core_clock_freq _)) by done.
    change (u32 NANOSECONDS_PER_SECOND) with 1000000000. cbn [Z.eqb mbind res_mbind res_bind].
    rewrite (uwrap_small 32 (denominator _)), (uwrap_small 32 (numerator _)) by done.
    destruct (Z.eqb_spec (numerator (ptimer d)) 0); [done|reflexivity]. }
  unfold ptimer_read. cbn [switch].
  change (NV_PTIMER_TIME_0 =? _) with false at 1. cbn [Z.eqb Pos.eqb].
  do 2 eexists. rewrite E. split; [reflexivity|]. split; [reflexivity|].
  change 0x7ffffff with (Z.ones 27). change 0x1fffffff with (Z.ones 29).
  rewrite !Z.land_ones, Z.shiftl_mul_pow2, Z.shiftr_div_pow2 by lia.
  assert (0 <= ticks) by apply (uwrap_range 64 _ ltac:(lia)). clearbody ticks. clear -H0.
  unfold in_uw. split_and!; dlia.
Qed.

(** ** The palette *)

(** Programming a range of colours: the first index, then the bytes. *)
Definition palette_load d (index : Z) (bytes : list Z) : res (NV2AState X) :=
  d ← prmdio_write d NV_USER_DAC_WRITE_MODE_ADDRESS index 1;
  res_foldl (fun d b => prmdio_write d NV_USER_DAC_PALETTE_DATA b 1) d bytes.

Lemma palette_byte d b : length (palette (puserdac d)) = 768%nat -> is_u8 b ->
  prmdio_write d NV_USER_DAC_PALETTE_DATA b 1
  = Ok (d <| puserdac := {| write_mode_address := u16 (write_mode_address (puserdac d) + 1);
            palette := <[Z.to_nat (write_mode_address (puserdac d) mod 768) := b]> (palette (puserdac d)) |} |>).
Proof.
  intros Hl Hb. unfold prmdio_write. cbn [switch].
  change (NV_USER_DAC_PALETTE_DATA =? NV_USER_DAC_WRITE_MODE_ADDRESS) with false.
  change (NV_USER_DAC_PALETTE_DATA =? NV_USER_DAC_PALETTE_DATA) with true. cbv beta iota.
  change (256 * 3) with 768. rewrite buf_set_ok, (uwrap_small 8 b); [done|done|].
  rewrite Hl. pose proof (Z.mod_pos_bound (write_mode_address (puserdac d)) 768). lia.
Qed.

(** C32. The palette port programs consecutive colours: after the index [i] and up to 768
    bytes are written, byte [k] is component [k mod 3] of colour [i + k / 3], going
    round at colour 256; no other byte changed and the index register has advanced by
    the whole colours written. *)
Theorem palette_load_spec d i bytes :
  length (palette (puserdac d)) = 768%nat -> 0 <= i < 256 -> Forall is_u8 bytes ->
  (length bytes <= 768)%nat ->
  exists d', palette_load d i bytes = Ok d'
    /\ (forall k b, bytes !! k = Some b ->
         palette (puserdac d') !! Z.to_nat ((3 * i + Z.of_nat k) mod 768) = Some b)
    /\ (forall j, (forall k, (k < length bytes)%nat -> j <> Z.to_nat ((3 * i + Z.of_nat k) mod 768)) ->
         palette (puserdac d') !! j = palette (puserdac d) !! j)
    /\ prmdio_read d' NV_USER_DAC_WRITE_MODE_ADDRESS 1 = Ok (d', i + Z.of_nat (length bytes) / 3).
Proof.
  intros Hl Hi Hb Hn. unfold palette_load.
  assert (prmdio_write d NV_USER_DAC_WRITE_MODE_ADDRESS i 1
          = Ok (d <| puserdac; write_mode_address := i * 3 |>)) as ->.
  { unfold prmdio_write. cbn [switch Z.eqb Pos.eqb NV_USER_DAC_WRITE_MODE_ADDRESS].
    change 0xff with (Z.ones 8). rewrite Z.land_ones, Z.mod_small by lia. done. }
  cbn [mbind res_mbind res_bind].
  set (P := fun (l : list Z) (e : NV2AState X) =>
    write_mode_address (puserdac e) = 3 * i + Z.of_nat (length l)
    /\ length (palette (puserdac e)) = 768%nat
    /\ (forall k b, l !! k = Some b ->
         palette (puserdac e) !! Z.to_nat ((3 * i + Z.of_nat k) mod 768) = Some b)
    /\ (forall j, (forall k, (k < length l)%nat -> j <> Z.to_nat ((3 * i + Z.of_nat k) mod 768)) ->
         palette (puserdac e) !! j = palette (puserdac d) !! j)).
  destruct (res_foldl_ind (fun d b => prmdio_write d NV_USER_DAC_PALETTE_DATA b 1) P
    (d <| puserdac; write_mode_address := i * 3 |>) bytes) as (d' & -> & HP).
  - unfold P. cbn. split; [lia|]. split; [done|]. split; [done|]. done.
  - intros l b rest e -> (Hw & Hle & Hin & Hout).
    rewrite Forall_app, Forall_cons in Hb. rewrite length_app in Hn. cbn in Hn.
    rewrite palette_byte by tauto. eexists. split; [reflexivity|]. unfold P. cbn.
    rewrite Hw, length_insert, length_app. cbn [length].
    rewrite (uwrap_id 16) by lia. split; [lia|]. split; [done|].
    pose proof (Z.mod_pos_bound (3 * i + Z.of_nat (length l)) 768 ltac:(lia)) as Hm.
    split.
    + intros k x Hk. destruct (decide (k = length l)) as [->|Hne].
      * rewrite lookup_app_r, Nat.sub_diag in Hk by lia. injection Hk as <-.
        apply list_lookup_insert_eq. lia.
      * apply lookup_lt_Some in Hk as Hkl. rewrite length_app in Hkl. cbn in Hkl.
        rewrite lookup_app_l in Hk by lia. rewrite list_lookup_insert_ne; [by apply Hin|].
        intros E. apply Z2Nat.inj in E; dlia.
    + intros j Hj. rewrite list_lookup_insert_ne; [|intros E; by apply (Hj (length l)); [lia|]].
      apply Hout. intros k Hk. apply Hj. lia.
  - destruct HP as (Hw & _ & Hin & Hout). exists d'. split_and!; try done.
    unfold prmdio_read. cbn [switch Z.eqb Pos.eqb NV_USER_DAC_WRITE_MODE_ADDRESS].
    rewrite Hw. do 2 f_equal. dlia.
Qed.

(** ** PRAMDAC lanes *)

(** C39. Narrow PRAMDAC reads come from the wrong end: the byte at offset [k] of a
    register is byte [3 - k] of its value, not byte [k]; only whole-word reads give
    the little-endian value. *)
Theorem pramdac_lanes d r k :
  0 <= k < 4 -> r mod 4 = 0 ->
  exists x w, pramdac_read d (r + k) 1 = Ok (d, x) /\ pramdac_read d r 4 = Ok (d, w)
    /\ u8 x = w / 2 ^ (8 * (3 - k)) mod 256.
Proof.
  intros Hk Hr. unfold pramdac_read.
  assert (forall j, 0 <= j < 4 -> Z.land (r + j) (Z.lnot 3) = r /\ Z.land (r + j) 3 = j) as Hj.
  { intros j Hj. change 3 with (Z.ones 2). rewrite <- Z.ldiff_land, Z.ldiff_ones_r, Z.land_ones by lia.
    rewrite Z.shiftr_div_pow2, Z.shiftl_mul_pow2 by lia. change (2 ^ 2) with 4. dlia. }
  destruct (Hj k Hk) as [-> ->]. destruct (Hj 0 ltac:(lia)) as [E0 E1]. rewrite Z.add_0_r in E0, E1.
  rewrite E0, E1. set (v := pramdac_value _ _). clearbody v. clear -Hk. unfold shr64.
  destruct (Z.leb_spec 0 (32 - 8 * 1 - 8 * k)), (Z.ltb_spec (32 - 8 * 1 - 8 * k) 64); try lia.
  do 2 eexists. split; [reflexivity|]. split; [reflexivity|].
  rewrite !Z.shiftr_div_pow2 by lia. unfold uwrap. change (2 ^ (32 - 8 * 4 - 8 * 0)) with 1.
  rewrite Z.div_1_r. do 3 f_equal. lia.
Qed.

End Blocks.

End Nv2aBlocks.
