(* ===== verification/Pgraph.v ===== *)
(** * PGRAPH: registers, context switch and method dispatch (pgraph/pgraph.c, rdi.c)

    The MMIO handlers, the context switch, and [pgraph_method], which hands a
    method word to the object bound to its subchannel: the 2D classes are handled
    in place, the Kelvin 3D class through the table [kelvin_method].  Locks are
    not modelled: a handler runs with its locks held.  The renderer is reached
    through [Renderer]. *)

From S2P Require Import Prelude Nv2aRegs Nv2aState.
Import Nv2aState.

(** The calls PGRAPH makes through [renderer->ops], with their arguments. *)
Inductive RendererCall :=
| ClearReportValue
| ClearSurface (parameter : Z)
| DrawBegin
| DrawEnd
| FlipStall
| FlushDraw
| GetReport (parameter : Z)
| ImageBlit
| ProcessPendingReports
| SurfaceUpdate (upload color_write zeta_write : bool).

Class Renderer (X : Type) := {
  ops : RendererCall -> NV2AState X -> res (NV2AState X)
}.

Module Pgraph.

(** A method handler gets the subchannel, the method and the parameter. *)
Definition handler (X : Type) : Type :=
  NV2AState X -> Z -> Z -> Z -> res (NV2AState X).

(** [DEF_METHOD], [DEF_METHOD_INC] with the end of its range, [DEF_METHOD_NON_INC]. *)
Inductive MethodFunc (X : Type) :=
| Method (h : handler X)
| MethodInc (range_end : Z) (h : handler X)
| MethodNonInc (h : handler X).
Arguments Method {X}.
Arguments MethodInc {X}.
Arguments MethodNonInc {X}.

(** [pgraph_kelvin_methods], by [METHOD_ADDR_TO_INDEX]; [None] where the table has
    no handler. *)
Class Kelvin (X : Type) := {
  kelvin_method : Z -> option (MethodFunc X)
}.

Section Pgraph.
Context {X : Type} `{Renderer X} `{Kelvin X}.
Implicit Types d : NV2AState X.

(** ** RDI *)

Definition rdi_constant (pg : PGRAPHState) (address : Z) : res Z :=
  if negb (address / 4 <? NV2A_VERTEXSHADER_CONSTANTS) then Fault AssertFail
  else match vsh_constants pg !! Z.to_nat (address / 4) with
       | Some row => buf_at row (Z.to_nat (3 - address mod 4))
       | None => Fault OutOfBounds
       end.

Definition pgraph_rdi_read (pg : PGRAPHState) (select address : Z) : res Z :=
  switch select
    [(RDI_INDEX_VTX_CONSTANTS0, rdi_constant pg address);
     (RDI_INDEX_VTX_CONSTANTS1, rdi_constant pg address)]
    (Fault AssertFail).

Definition pgraph_rdi_write (pg : PGRAPHState) (select address val : Z) : res PGRAPHState :=
  switch select
    [(RDI_INDEX_VTX_CONSTANTS0, Fault AssertFail);
     (RDI_INDEX_VTX_CONSTANTS1, Fault AssertFail)]
    (Ok pg).

(** The address of the index register moves on after each access. *)
Definition rdi_next (pg : PGRAPHState) (address : Z) : res PGRAPHState :=
  if negb (address <? GET_MASK NV_PGRAPH_RDI_INDEX_ADDRESS NV_PGRAPH_RDI_INDEX_ADDRESS)
  then Fault AssertFail
  else Ok (PG_SET_MASK pg NV_PGRAPH_RDI_INDEX NV_PGRAPH_RDI_INDEX_ADDRESS (address + 1)).

(** ** MMIO *)

Definition pgraph_read d (addr size : Z) : res (NV2AState X * Z) :=
  let pg := pgraph d in
  switch addr
    [(NV_PGRAPH_INTR, Ok (d, pg_pending pg));
     (NV_PGRAPH_INTR_EN, Ok (d, pg_enabled pg));
     (NV_PGRAPH_RDI_DATA,
      let select := PG_GET_MASK pg NV_PGRAPH_RDI_INDEX NV_PGRAPH_RDI_INDEX_SELECT in
      let address := PG_GET_MASK pg NV_PGRAPH_RDI_INDEX NV_PGRAPH_RDI_INDEX_ADDRESS in
      r ← pgraph_rdi_read pg select address;
      pg ← rdi_next pg address;
      Ok (d <| pgraph := pg |>, r))]
    (r ← pgraph_reg_r pg addr; Ok (d, r)).

(** Acknowledging the interrupts lets the FIFO go on. *)
Definition ack_interrupts (pg : PGRAPHState) (val : Z) : PGRAPHState :=
  let p := Z.land (pg_pending pg) (Z.lnot val) in
  let pg := pg <| pg_pending := p |> in
  let pg := if negb (tst p NV_PGRAPH_INTR_ERROR) then pg <| waiting_for_nop := false |> else pg in
  if negb (tst p NV_PGRAPH_INTR_CONTEXT_SWITCH) then pg <| waiting_for_context_switch := false |>
  else pg.

(** [(f + 1) % MODULO_3D] for the read or the write index of the flip chain. *)
Definition flip_next (pg : PGRAPHState) (field : Z) : res PGRAPHState :=
  let m := PG_GET_MASK pg NV_PGRAPH_SURFACE NV_PGRAPH_SURFACE_MODULO_3D in
  if m =? 0 then Fault DivByZero
  else Ok (PG_SET_MASK pg NV_PGRAPH_SURFACE field
             ((PG_GET_MASK pg NV_PGRAPH_SURFACE field + 1) mod m)).

Definition pgraph_write d (addr val size : Z) : res (NV2AState X) :=
  let pg := pgraph d in
  d ← switch addr
    [(NV_PGRAPH_INTR, Ok (pfifo_kick (d <| pgraph := ack_interrupts pg val |>)));
     (NV_PGRAPH_INTR_EN, Ok (d <| pgraph; pg_enabled := u32 val |>));
     (NV_PGRAPH_INCREMENT,
      if tst val NV_PGRAPH_INCREMENT_READ_3D then
        pg ← flip_next pg NV_PGRAPH_SURFACE_READ_3D;
        Ok (pfifo_kick (d <| pgraph := pg |>))
      else Ok d);
     (NV_PGRAPH_RDI_DATA,
      let select := PG_GET_MASK pg NV_PGRAPH_RDI_INDEX NV_PGRAPH_RDI_INDEX_SELECT in
      let address := PG_GET_MASK pg NV_PGRAPH_RDI_INDEX NV_PGRAPH_RDI_INDEX_ADDRESS in
      pg ← pgraph_rdi_write pg select address (u32 val);
      pg ← rdi_next pg address;
      Ok (d <| pgraph := pg |>));
     (NV_PGRAPH_CHANNEL_CTX_TRIGGER,
      let context_address :=
        Z.shiftl (PG_GET_MASK pg NV_PGRAPH_CHANNEL_CTX_POINTER
                              NV_PGRAPH_CHANNEL_CTX_POINTER_INST) 4 in
      if tst val NV_PGRAPH_CHANNEL_CTX_TRIGGER_READ_IN then
        if negb (context_address <? ramin_size d) then Fault AssertFail
        else
          context_user ← ld_le (ramin d) 4 context_address;
          Ok (d <| pgraph := reg_w pg NV_PGRAPH_CTX_USER context_user |>)
      else Ok d)]
    (pg ← pgraph_reg_w pg addr (u32 val); Ok (d <| pgraph := pg |>));
  Ok (if addr =? NV_PGRAPH_FIFO then pfifo_kick d else d).

(** ** Context switch *)

Definition channel_valid (pg : PGRAPHState) : bool :=
  tst (reg (regs_ pg) NV_PGRAPH_CTX_CONTROL) NV_PGRAPH_CTX_CONTROL_CHID.

Definition pgraph_context_switch d (channel_id : Z) : res (NV2AState X) :=
  let pg := pgraph d in
  let pgraph_channel_id := PG_GET_MASK pg NV_PGRAPH_CTX_USER NV_PGRAPH_CTX_USER_CHID in
  if channel_valid pg && (pgraph_channel_id =? channel_id) then Ok d
  else
    let pg := PG_SET_MASK pg NV_PGRAPH_TRAPPED_ADDR NV_PGRAPH_TRAPPED_ADDR_CHID channel_id in
    if negb (PG_GET_MASK pg NV_PGRAPH_DEBUG_3 NV_PGRAPH_DEBUG_3_HW_CONTEXT_SWITCH =? 0)
    then Fault AssertFail
    else
      let pg := pg <| waiting_for_context_switch := true |>
                   <| pg_pending := Z.lor (pg_pending pg) NV_PGRAPH_INTR_CONTEXT_SWITCH |> in
      Ok (nv2a_update_irq (d <| pgraph := pg |>)).

(** ** Method words *)

(** [pgraph_method_inc] and [pgraph_method_non_inc]: the handler is run on the
    words at [parameters], a position in [vram]; the result has the words consumed. *)
Fixpoint method_loop (h : handler X) (n : nat) (step : Z) d (subchannel method parameters : Z)
  : res (NV2AState X) :=
  match n with
  | O => Ok d
  | S n =>
      parameter ← ld_le (vram d) 4 parameters;
      d ← h d subchannel method parameter;
      method_loop h n step d subchannel (method + step) (parameters + 4)
  end.

Definition pgraph_method_inc (h : handler X) (range_end : Z) d
    (subchannel method parameter parameters num_words_available : Z) (inc : bool)
  : res (NV2AState X * Z) :=
  if negb inc then d ← h d subchannel method parameter; Ok (d, 1)
  else
    let count := Z.min num_words_available (u32 (range_end - method) / 4) in
    d ← method_loop h (Z.to_nat count) 4 d subchannel method parameters;
    Ok (d, count).

Definition pgraph_method_non_inc (h : handler X) d
    (subchannel method parameter parameters num_words_available : Z) (inc : bool)
  : res (NV2AState X * Z) :=
  if inc then d ← h d subchannel method parameter; Ok (d, 1)
  else
    d ← method_loop h (Z.to_nat num_words_available) 0 d subchannel method parameters;
    Ok (d, num_words_available).

Definition run_method (f : MethodFunc X) d
    (subchannel method parameter parameters num_words_available : Z) (inc : bool)
  : res (NV2AState X * Z) :=
  match f with
  | Method h => d ← h d subchannel method parameter; Ok (d, 1)
  | MethodInc e h =>
      pgraph_method_inc h e d subchannel method parameter parameters num_words_available inc
  | MethodNonInc h =>
      pgraph_method_non_inc h d subchannel method parameter parameters num_words_available inc
  end.

(** The words after a [DRAW_ARRAYS] are [END], [BEGIN] of the same primitive and
    another [DRAW_ARRAYS]. *)
Definition lam d (parameters i mthd : Z) : res bool :=
  w ← ld_le (vram d) 4 (parameters + 4 * (i * 2 + 1)); Ok (Z.land w 0x31fff =? mthd).
Definition lamp d (parameters i mthd prm : Z) : res bool :=
  b ← lam d parameters i mthd;
  if (b : bool) then w ← ld_le (vram d) 4 (parameters + 4 * (i * 2 + 2)); Ok (w =? prm) else Ok false.

Definition can_squash d (method parameters max_lookahead_words : Z) : res bool :=
  let pg := pgraph d in
  if (method =? NV097_DRAW_ARRAYS) && (7 <=? max_lookahead_words)
     && (inline_elements_length pg =? 0) && (draw_arrays_length pg <? 1250 - 1)
  then
    b ← lamp d parameters 0 NV097_SET_BEGIN_END NV097_SET_BEGIN_END_OP_END;
    if negb b then Ok false
    else
      b ← lamp d parameters 1 NV097_SET_BEGIN_END (primitive_mode pg);
      if negb b then Ok false else lam d parameters 2 NV097_DRAW_ARRAYS
  else Ok false.

(** The object of the subchannel becomes the current one. *)
Definition set_object d (subchannel parameter : Z) : res (NV2AState X) :=
  if negb (parameter <? ramin_size d) then Fault AssertFail
  else
    ctx_1 ← ld_le (ramin d) 4 parameter;
    ctx_2 ← ld_le (ramin d) 4 (parameter + 4);
    ctx_3 ← ld_le (ramin d) 4 (parameter + 8);
    ctx_4 ← ld_le (ramin d) 4 (parameter + 12);
    let pg := pgraph d in
    let pg := reg_w pg (NV_PGRAPH_CTX_CACHE1 + subchannel * 4) ctx_1 in
    let pg := reg_w pg (NV_PGRAPH_CTX_CACHE2 + subchannel * 4) ctx_2 in
    let pg := reg_w pg (NV_PGRAPH_CTX_CACHE3 + subchannel * 4) ctx_3 in
    let pg := reg_w pg (NV_PGRAPH_CTX_CACHE4 + subchannel * 4) ctx_4 in
    let pg := reg_w pg (NV_PGRAPH_CTX_CACHE5 + subchannel * 4) parameter in
    Ok (d <| pgraph := pg |>).

Definition load_object (pg : PGRAPHState) (subchannel : Z) : PGRAPHState :=
  let cached pg c := reg (regs_ pg) (c + subchannel * 4) in
  let pg := reg_w pg NV_PGRAPH_CTX_SWITCH1 (cached pg NV_PGRAPH_CTX_CACHE1) in
  let pg := reg_w pg NV_PGRAPH_CTX_SWITCH2 (cached pg NV_PGRAPH_CTX_CACHE2) in
  let pg := reg_w pg NV_PGRAPH_CTX_SWITCH3 (cached pg NV_PGRAPH_CTX_CACHE3) in
  let pg := reg_w pg NV_PGRAPH_CTX_SWITCH4 (cached pg NV_PGRAPH_CTX_CACHE4) in
  reg_w pg NV_PGRAPH_CTX_SWITCH5 (cached pg NV_PGRAPH_CTX_CACHE5).

Definition lo16 (p : Z) : Z := Z.land p 0xFFFF.
Definition hi16 (p : Z) : Z := Z.shiftr p 16.

(** The 2D classes. *)
Definition beta_method d (method parameter : Z) : NV2AState X :=
  switch method
    [(NV012_SET_OBJECT,
      d <| pgraph ::= fun pg => pg <| beta_state; beta_object_instance := parameter |> |>);
     (NV012_SET_BETA,
      let b := if tst parameter 0x80000000 then 0 else Z.land parameter 0x7f800000 in
      d <| pgraph ::= fun pg => pg <| beta_state; beta := b |> |>)] d.

Definition pattern_method d (method parameter : Z) : NV2AState X :=
  switch method
    [(NV044_SET_MONOCHROME_COLOR0,
      d <| pgraph := reg_w (pgraph d) NV_PGRAPH_PATT_COLOR0 parameter |>)] d.

Definition surfaces_2d_method d (method parameter : Z) : NV2AState X :=
  let upd f := d <| pgraph; context_surfaces_2d := f (context_surfaces_2d (pgraph d)) |> in
  switch method
    [(NV062_SET_OBJECT, upd (fun c => c <| cs_object_instance := parameter |>));
     (NV062_SET_CONTEXT_DMA_IMAGE_SOURCE, upd (fun c => c <| dma_image_source := parameter |>));
     (NV062_SET_CONTEXT_DMA_IMAGE_DESTIN, upd (fun c => c <| dma_image_dest := parameter |>));
     (NV062_SET_COLOR_FORMAT, upd (fun c => c <| color_format := parameter |>));
     (NV062_SET_PITCH,
      upd (fun c => c <| source_pitch := lo16 parameter |> <| dest_pitch := hi16 parameter |>));
     (NV062_SET_OFFSET_SOURCE, upd (fun c => c <| source_offset := Z.land parameter 0x07FFFFFF |>));
     (NV062_SET_OFFSET_DESTIN, upd (fun c => c <| dest_offset := Z.land parameter 0x07FFFFFF |>))] d.

Definition image_blit_method d (method parameter : Z) : res (NV2AState X) :=
  let upd f := d <| pgraph; image_blit := f (image_blit (pgraph d)) |> in
  switch method
    [(NV09F_SET_OBJECT, Ok (upd (fun b => b <| ib_object_instance := parameter |>)));
     (NV09F_SET_CONTEXT_SURFACES, Ok (upd (fun b => b <| context_surfaces := parameter |>)));
     (NV09F_SET_OPERATION, Ok (upd (fun b => b <| operation := parameter |>)));
     (NV09F_CONTROL_POINT_IN,
      Ok (upd (fun b => b <| in_x := lo16 parameter |> <| in_y := hi16 parameter |>)));
     (NV09F_CONTROL_POINT_OUT,
      Ok (upd (fun b => b <| out_x := lo16 parameter |> <| out_y := hi16 parameter |>)));
     (NV09F_SIZE,
      let d := upd (fun b => b <| width := lo16 parameter |> <| height := hi16 parameter |>) in
      if negb (lo16 parameter =? 0) && negb (hi16 parameter =? 0) then ops ImageBlit d else Ok d)]
    (Ok d).

Definition kelvin_dispatch d (subchannel method parameter parameters num_words_available
    max_lookahead_words : Z) (inc : bool) : res (NV2AState X * Z) :=
  if negb (Z.shiftr method 2 <? 0x800) then Fault OutOfBounds
  else match kelvin_method (Z.shiftr method 2) with
  | None => Ok (d, 1)
  | Some f =>
      '(d, consumed) ← run_method f d subchannel method parameter parameters
                                  num_words_available inc;
      b ← can_squash d method parameters max_lookahead_words;
      if (b : bool) then Ok (d <| pgraph; draw_arrays_prevent_connect := true |>, consumed + 4)
      else Ok (d, consumed)
  end.

(** The object of the subchannel handles the method; [kelvin] is what a Kelvin object
    does with it. *)
Definition object_method (kelvin : NV2AState X -> res (NV2AState X * Z)) d
    (subchannel method parameter : Z) : res (NV2AState X * Z) :=
  if negb (channel_valid (pgraph d)) then Fault AssertFail
  else if negb (subchannel <? 8) then Fault AssertFail
  else
    d ← (if method =? NV_SET_OBJECT then set_object d subchannel parameter else Ok d);
    let d := d <| pgraph := load_object (pgraph d) subchannel |> in
    let graphics_class := PG_GET_MASK (pgraph d) NV_PGRAPH_CTX_SWITCH1
                                      NV_PGRAPH_CTX_SWITCH1_GRCLASS in
    if negb (subchannel =? 0) && (graphics_class =? 0x97) then Fault AssertFail
    else
      switch graphics_class
        [(NV_BETA, Ok (beta_method d method parameter, 1));
         (NV_CONTEXT_PATTERN, Ok (pattern_method d method parameter, 1));
         (NV_CONTEXT_SURFACES_2D, Ok (surfaces_2d_method d method parameter, 1));
         (NV_IMAGE_BLIT, d ← image_blit_method d method parameter; Ok (d, 1));
         (NV_KELVIN_PRIMITIVE, kelvin d)]
        (Ok (d, 1)).

Definition pgraph_method d (subchannel method parameter parameters num_words_available
    max_lookahead_words : Z) (inc : bool) : res (NV2AState X * Z) :=
  object_method (fun d => kelvin_dispatch d subchannel method parameter parameters
                            num_words_available max_lookahead_words inc)
    d subchannel method parameter.

End Pgraph.

(** ** Bursts

    PGRAPH may take several words of a command in one call.  [pgraph_word] is what one
    word means; a call that takes [n] words means the same as [n] words, each read from
    the push buffer when its turn comes. *)

Definition method_handler {X} (f : MethodFunc X) : handler X :=
  match f with Method h | MethodInc _ h | MethodNonInc h => h end.

(** A handler that may take several words in one call. *)
Definition bursts {X} (f : MethodFunc X) : Prop :=
  match f with Method _ => False | _ => True end.

Section Word.
Context {X : Type} `{Renderer X} `{Kelvin X}.
Implicit Types d : NV2AState X.

Definition kelvin_word d (subchannel method parameter : Z) : res (NV2AState X * Z) :=
  if negb (Z.shiftr method 2 <? 0x800) then Fault OutOfBounds
  else match kelvin_method (Z.shiftr method 2) with
  | None => Ok (d, 1)
  | Some f => d ← method_handler f d subchannel method parameter; Ok (d, 1)
  end.

Definition pgraph_word d (subchannel method parameter : Z) : res (NV2AState X) :=
  '(d, _) ← object_method (fun d => kelvin_word d subchannel method parameter)
              d subchannel method parameter;
  Ok d.

(** [n] words of the push buffer, the method advancing by [step]. *)
Fixpoint pgraph_stream (step : Z) (n : nat) d (subchannel method parameters : Z)
  : res (NV2AState X) :=
  match n with
  | O => Ok d
  | S n =>
      parameter ← ld_le (vram d) 4 parameters;
      d ← pgraph_word d subchannel method parameter;
      pgraph_stream step n d subchannel (method + step) (parameters + 4)
  end.

(** The registers that say which object is current: [CTX_CONTROL] to the end of the
    context caches. *)
Definition same_context (pg pg' : PGRAPHState) : Prop :=
  forall r, NV_PGRAPH_CTX_CONTROL <= r < 0x200 -> regs_ pg' !! r = regs_ pg !! r.

(** What the FIFO looks at to know whether it has to wait. *)
Definition wait_view (pg : PGRAPHState) : bool * bool * bool * Z :=
  (waiting_for_nop pg, waiting_for_flip pg, waiting_for_context_switch pg,
   reg (regs_ pg) NV_PGRAPH_FIFO).

(** The FIFO does not have to wait after any of the words if it did not before. *)
Fixpoint stays (step : Z) (n : nat) d (subchannel method parameters : Z) : Prop :=
  match n with
  | O => True
  | S n => forall w d', ld_le (vram d) 4 parameters = Ok w ->
      pgraph_word d subchannel method w = Ok d' ->
      wait_view (pgraph d') = wait_view (pgraph d)
      /\ stays step n d' subchannel (method + step) (parameters + 4)
  end.

End Word.

(** The methods that never come in bursts: objects, and the draw call that is squashed
    with its successors. *)
Definition single_method (m : Z) : Prop :=
  m = 0 \/ 0x180 <= m < 0x200 \/ m = NV097_DRAW_ARRAYS.

(** GET has met PUT: there is nothing left in the push buffer. *)
Definition drained (r : regfile) : bool :=
  reg r NV_PFIFO_CACHE1_DMA_GET =? reg r NV_PFIFO_CACHE1_DMA_PUT.

(** What the dispatcher needs to know about the Kelvin handlers. *)
Class KelvinLaws (X : Type) `{Kelvin X} : Prop := {
  (** A range of methods has one handler, and ends where the table says. *)
  kelvin_range : forall i e h, kelvin_method i = Some (MethodInc e h) ->
    4 * i < e <= 0x2000 /\ e mod 4 = 0
    /\ forall j, i <= j -> 4 * j < e -> kelvin_method j = Some (MethodInc e h);
  (** A handler that may take several words leaves the current object and the conditions
      the FIFO waits for alone. *)
  kelvin_quiet : forall f d s m p d', 0 < m < 0x2000 -> m mod 4 = 0 ->
    kelvin_method (Z.shiftr m 2) = Some f -> bursts f -> method_handler f d s m p = Ok d' ->
    same_context (pgraph d) (pgraph d') /\ wait_view (pgraph d') = wait_view (pgraph d);
  kelvin_single : forall i f, single_method (4 * i) -> kelvin_method i = Some f -> ~ bursts f;
  (** Of the FIFO registers a handler only looks at whether the push buffer is drained. *)
  kelvin_pfifo : forall i f d s m p r, kelvin_method i = Some f ->
    drained r = drained (pfifo_regs (pfifo d)) ->
    method_handler f (d <| pfifo; pfifo_regs := r |>) s m p
    = (d' ← method_handler f d s m p; Ok (d' <| pfifo; pfifo_regs := r |>))
}.

(** Neither does the renderer look at more: that of Vulkan finishes its command buffer when it is
    asked for pending reports and the push buffer is drained ([pgraph_vk_process_pending_reports] of
    vk/reports.c), the others look at no register of the FIFO.  Drawing a batch leaves the current
    object and the conditions the FIFO waits for alone. *)
Class RendererLaws (X : Type) `{Renderer X} : Prop := {
  ops_pfifo : forall c d r, drained r = drained (pfifo_regs (pfifo d)) ->
    ops c (d <| pfifo; pfifo_regs := r |>) = (d' ← ops c d; Ok (d' <| pfifo; pfifo_regs := r |>));
  flush_quiet : forall d d', ops FlushDraw d = Ok d' ->
    same_context (pgraph d) (pgraph d') /\ wait_view (pgraph d') = wait_view (pgraph d)
}.

Section Burst.
Context {X : Type} `{Renderer X} `{KelvinLaws X}.
Implicit Types d : NV2AState X.

Lemma regs_reg_w pg r v : regs_ (reg_w pg r v) = <[r := v]> (regs_ pg).
Proof. unfold reg_w. by case_match. Qed.

Lemma reg_w_id pg r v : regs_ pg !! r = Some v -> reg_w pg r v = pg.
Proof.
  intros E. unfold reg_w, reg. rewrite E. cbn [from_option]. unfold id. rewrite Z.eqb_refl.
  rewrite (insert_id _ _ _ E). by destruct pg.
Qed.

(** The context of the subchannel is the current one. *)
Definition loaded (pg : PGRAPHState) (subchannel : Z) : Prop :=
  forall i, 0 <= i < 5 ->
  regs_ pg !! (NV_PGRAPH_CTX_SWITCH1 + 4 * i)
  = Some (reg (regs_ pg) (NV_PGRAPH_CTX_CACHE1 + 32 * i + subchannel * 4)).

Lemma load_object_id pg subchannel : loaded pg subchannel -> load_object pg subchannel = pg.
Proof.
  intros Hl. unfold load_object.
  rewrite (reg_w_id pg NV_PGRAPH_CTX_SWITCH1) by apply (Hl 0 ltac:(lia)).
  rewrite (reg_w_id pg NV_PGRAPH_CTX_SWITCH2) by apply (Hl 1 ltac:(lia)).
  rewrite (reg_w_id pg NV_PGRAPH_CTX_SWITCH3) by apply (Hl 2 ltac:(lia)).
  rewrite (reg_w_id pg NV_PGRAPH_CTX_SWITCH4) by apply (Hl 3 ltac:(lia)).
  apply reg_w_id, (Hl 4 ltac:(lia)).
Qed.

Lemma load_object_loaded pg subchannel : 0 <= subchannel < 8 ->
  loaded (load_object pg subchannel) subchannel.
Proof.
  intros Hs i Hi. unfold load_object, reg. cbv zeta. rewrite !regs_reg_w.
  unfold NV_PGRAPH_CTX_SWITCH1, NV_PGRAPH_CTX_SWITCH2, NV_PGRAPH_CTX_SWITCH3,
    NV_PGRAPH_CTX_SWITCH4, NV_PGRAPH_CTX_SWITCH5, NV_PGRAPH_CTX_CACHE1, NV_PGRAPH_CTX_CACHE2,
    NV_PGRAPH_CTX_CACHE3, NV_PGRAPH_CTX_CACHE4, NV_PGRAPH_CTX_CACHE5.
  assert (i = 0 \/ i = 1 \/ i = 2 \/ i = 3 \/ i = 4) as Hc by lia.
  destruct Hc as [->|[->|[->|[->| ->]]]]; cbn [Z.mul Z.add Pos.mul Pos.add];
    repeat first [rewrite lookup_insert_eq | rewrite lookup_insert_ne by lia]; done.
Qed.

(** Writes to the registers below [FIFO] do not concern the FIFO. *)
Lemma reg_w_wait pg r v : r <> NV_PGRAPH_FIFO -> wait_view (reg_w pg r v) = wait_view pg.
Proof.
  intros Hr. unfold wait_view, reg. rewrite regs_reg_w, lookup_insert_ne by done.
  unfold reg_w. by case_match.
Qed.

Lemma load_object_wait pg subchannel : wait_view (load_object pg subchannel) = wait_view pg.
Proof. unfold load_object. cbv zeta. by rewrite !reg_w_wait by done. Qed.

Lemma loaded_same pg pg' subchannel : 0 <= subchannel < 8 -> same_context pg pg' ->
  loaded pg subchannel -> loaded pg' subchannel.
Proof.
  intros Hs Hc Hl i Hi. unfold reg.
  unfold same_context, NV_PGRAPH_CTX_CONTROL, NV_PGRAPH_CTX_SWITCH1, NV_PGRAPH_CTX_CACHE1 in *.
  rewrite !Hc by lia. apply (Hl i Hi).
Qed.

(** A Kelvin object is current; the dispatcher only allows it on subchannel 0. *)
Record kelvin_current (pg : PGRAPHState) : Prop := {
  kc_valid : channel_valid pg = true;
  kc_loaded : loaded pg 0;
  kc_class : PG_GET_MASK pg NV_PGRAPH_CTX_SWITCH1 NV_PGRAPH_CTX_SWITCH1_GRCLASS = NV_KELVIN_PRIMITIVE
}.

Lemma kelvin_current_same pg pg' : same_context pg pg' -> kelvin_current pg -> kelvin_current pg'.
Proof.
  intros Hc [Hv Hl Hk]. pose proof Hc as Hc0. unfold same_context in Hc.
  unfold channel_valid, PG_GET_MASK, reg in *. constructor.
  - unfold channel_valid, reg. by rewrite Hc.
  - by apply (loaded_same pg).
  - unfold PG_GET_MASK, reg. by rewrite Hc.
Qed.

Lemma object_method_kelvin k d m p : kelvin_current (pgraph d) -> m <> 0 ->
  object_method k d 0 m p = k d.
Proof.
  intros [Hv Hl Hk] Hm. unfold object_method. rewrite Hv. cbn [negb Z.ltb Z.compare].
  destruct (Z.eqb_spec m NV_SET_OBJECT) as [->|]; [done|]. cbn [mbind res_mbind res_bind].
  rewrite load_object_id by done. assert (d <| pgraph := pgraph d |> = d) as -> by (by destruct d).
  rewrite Hk. reflexivity.
Qed.

(** Either the answer does not depend on Kelvin and takes one word, or a Kelvin object
    gets the method. *)
Lemma object_method_cases d s m p : 0 <= s -> m <> 0 ->
  (exists r, (forall k, object_method k d s m p = r) /\ (forall d' n, r = Ok (d', n) -> n = 1))
  \/ (s = 0 /\ exists d0, kelvin_current (pgraph d0) /\ vram d0 = vram d
       /\ wait_view (pgraph d0) = wait_view (pgraph d) /\ forall k, object_method k d s m p = k d0).
Proof.
  intros Hs Hm. unfold object_method.
  destruct (channel_valid (pgraph d)) eqn:Hv; cbn [negb]; [|left; by eexists].
  destruct (Z.ltb_spec s 8); cbn [negb]; [|left; by eexists].
  destruct (Z.eqb_spec m NV_SET_OBJECT) as [->|_]; [done|]. cbn [mbind res_mbind res_bind].
  set (d0 := d <| pgraph := load_object (pgraph d) s |>).
  destruct (PG_GET_MASK (pgraph d0) NV_PGRAPH_CTX_SWITCH1 NV_PGRAPH_CTX_SWITCH1_GRCLASS =? NV_KELVIN_PRIMITIVE) eqn:Ek.
  - apply Z.eqb_eq in Ek. destruct (Z.eqb_spec s 0) as [->|]; cbn [negb andb].
    + right. split; [done|]. exists d0. split; [|split; [done|split]].
      * constructor; [|by apply load_object_loaded|done]. change (pgraph d0) with (load_object (pgraph d) 0).
        unfold channel_valid, load_object, reg in *. cbv zeta. rewrite !regs_reg_w.
        by rewrite !lookup_insert_ne by done.
      * change (pgraph d0) with (load_object (pgraph d) 0). apply load_object_wait.
      * intros k. rewrite Ek. reflexivity.
    + left. rewrite Ek. change (NV_KELVIN_PRIMITIVE =? 0x97) with true. cbv iota. by eexists.
  - left. unfold NV_KELVIN_PRIMITIVE in *. rewrite Ek, andb_false_r. eexists. split.
    { intros k. cbn [switch]. rewrite Ek. reflexivity. }
    intros d' n Hr. res_inv Hr; congruence.
Qed.

Lemma pgraph_word_kelvin d m p : kelvin_current (pgraph d) -> m <> 0 ->
  pgraph_word d 0 m p = ('(d', _) ← kelvin_word d 0 m p; Ok d').
Proof. intros Hk Hm. unfold pgraph_word. by rewrite object_method_kelvin. Qed.

(** The handler of the table for the [i]-th of [n] words. *)
Definition burst_of (f : MethodFunc X) (step : Z) (n : nat) (m : Z) : Prop :=
  forall i, (i < n)%nat -> 0 < m + step * Z.of_nat i < 0x2000
    /\ (m + step * Z.of_nat i) mod 4 = 0
    /\ kelvin_method (Z.shiftr (m + step * Z.of_nat i) 2) = Some f.

Lemma burst_of_S f step n m : burst_of f step (S n) m ->
  0 < m < 0x2000 /\ m mod 4 = 0 /\ kelvin_method (Z.shiftr m 2) = Some f /\ burst_of f step n (m + step).
Proof.
  intros Hb. destruct (Hb 0%nat ltac:(lia)) as (Hm0 & Hm4 & Hk). rewrite Z.mul_0_r, Z.add_0_r in *.
  do 3 (split; [done|]). intros i Hi. destruct (Hb (S i) ltac:(lia)) as (Hi0 & Hi4 & Hik).
  by replace (m + step + step * Z.of_nat i) with (m + step * Z.of_nat (S i)) by lia.
Qed.

(** A single word of a Kelvin object. *)
Lemma kelvin_one_word f d m p : kelvin_method (Z.shiftr m 2) = Some f -> 0 < m < 0x2000 ->
  kelvin_current (pgraph d) -> pgraph_word d 0 m p = method_handler f d 0 m p.
Proof.
  intros Ef Hm Hk. rewrite pgraph_word_kelvin by (done || lia).
  unfold kelvin_word. rewrite Ef, Z.shiftr_div_pow2 by lia. rewrite (proj2 (Z.ltb_lt _ _)) by dlia.
  cbn [negb]. by destruct (method_handler f d 0 m p).
Qed.

(** The loops over the words of a burst are the words one by one. *)
Lemma method_loop_stream f step n d m a : bursts f -> burst_of f step n m ->
  kelvin_current (pgraph d) ->
  method_loop (method_handler f) n step d 0 m a = pgraph_stream step n d 0 m a
  /\ stays step n d 0 m a.
Proof.
  intros Hf. induction n as [|n IH] in d, m, a |- *; intros Hb Hk; [done|].
  destruct (burst_of_S f step n m Hb) as (Hm & Hm4 & Ef & Hb').
  cbn [method_loop pgraph_stream stays]. split.
  - destruct (ld_le (vram d) 4 a) as [w|]; [|done]. cbn [mbind res_mbind res_bind].
    rewrite (kelvin_one_word f) by done.
    destruct (method_handler f d 0 m w) as [d'|] eqn:Eh; [|done]. cbn [mbind res_mbind res_bind].
    destruct (kelvin_quiet _ _ _ _ _ _ Hm Hm4 Ef Hf Eh) as [Hc _].
    by apply IH, (kelvin_current_same (pgraph d)).
  - intros w d' _ Ew. rewrite (kelvin_one_word f) in Ew by done.
    destruct (kelvin_quiet _ _ _ _ _ _ Hm Hm4 Ef Hf Ew) as [Hc Hw].
    split; [done|]. by apply IH, (kelvin_current_same (pgraph d)).
Qed.

(** What a method call comes to: one word, or a burst of words of the push buffer. *)
Definition burst_result d (s m p a na : Z) (inc : bool) (r : res (NV2AState X * Z)) : Prop :=
  r = (d' ← pgraph_word d s m p; Ok (d', 1))
  \/ exists n, let step := if inc then 4 else 0 in
     (0 < n)%nat /\ Z.of_nat n <= na
     /\ (forall i, (i < n)%nat -> m + step * Z.of_nat i < 0x2000
          /\ ~ single_method (m + step * Z.of_nat i))
     /\ stays step n d s m a
     /\ r = (d' ← pgraph_stream step n d s m a; Ok (d', Z.of_nat n)).

Lemma burst_single f step n m i : bursts f -> burst_of f step n m -> (i < n)%nat ->
  ~ single_method (m + step * Z.of_nat i).
Proof.
  intros Hf Hb Hi Hs. destruct (Hb i Hi) as (Hm0 & Hm4 & Hk).
  revert Hf. apply (kelvin_single (Z.shiftr (m + step * Z.of_nat i) 2)); [|done].
  rewrite Z.shiftr_div_pow2 by lia.
  by replace (4 * _) with (m + step * Z.of_nat i) by dlia.
Qed.

Lemma run_method_burst f d m p a na inc :
  kelvin_method (Z.shiftr m 2) = Some f -> 0 < m < 0x2000 -> m mod 4 = 0 ->
  kelvin_current (pgraph d) -> 1 <= na ->
  burst_result d 0 m p a na inc (run_method f d 0 m p a na inc).
Proof.
  intros Ef Hm Ha Hk Hna. pose proof (Z.shiftr_div_pow2 m 2 ltac:(lia)) as Es.
  assert (Hone : forall r, r = (d ← method_handler f d 0 m p; Ok (d, 1)) ->
    burst_result d 0 m p a na inc r).
  { intros r ->. left. by rewrite (kelvin_one_word f). }
  assert (Hmany : forall n, bursts f -> (0 < n)%nat -> Z.of_nat n <= na ->
    burst_of f (if inc then 4 else 0) n m ->
    burst_result d 0 m p a na inc
      (d ← method_loop (method_handler f) n (if inc then 4 else 0) d 0 m a; Ok (d, Z.of_nat n))).
  { intros n Hf Hn Hle Hb. right. exists n. cbv zeta.
    destruct (method_loop_stream f _ n d m a Hf Hb Hk) as [-> Hs].
    do 2 (split; [done|]). split; [|done]. intros i Hi. split; [by apply (Hb i Hi)|].
    by apply (burst_single f _ n). }
  destruct f as [h|e h|h], inc; cbn [run_method]; unfold pgraph_method_inc, pgraph_method_non_inc;
    cbn [negb]; cbv zeta; try (by apply Hone).
  - destruct (kelvin_range _ _ _ Ef) as (He & He4 & Hr). rewrite Es in He, Hr.
    assert (4 * (m / 2 ^ 2) = m) as E4 by dlia. rewrite E4 in He.
    rewrite (uwrap_id 32 (e - m)) by lia.
    assert (0 < (e - m) / 4 /\ 4 * ((e - m) / 4) = e - m) as [Hq Eq] by (split; dlia).
    specialize (Hmany (Z.to_nat (Z.min na ((e - m) / 4)))). rewrite Z2Nat.id in Hmany by lia.
    apply Hmany; [done|lia..|]. intros i Hi. split; [lia|]. split; [dlia|].
    rewrite Z.shiftr_div_pow2 by lia. apply Hr; dlia.
  - specialize (Hmany (Z.to_nat na)). rewrite Z2Nat.id in Hmany by lia. apply Hmany; [done|lia..|].
    intros i Hi. rewrite Z.mul_0_l, Z.add_0_r. done.
Qed.

(** Loading the object first makes no difference. *)
Lemma burst_result_current d d0 m p a na inc r : kelvin_current (pgraph d0) -> m <> 0 ->
  vram d0 = vram d -> wait_view (pgraph d0) = wait_view (pgraph d) ->
  (forall k, object_method k d 0 m p = k d0) ->
  0x180 <= m < 0x200 \/ ld_le (vram d) 4 a = Ok p ->
  burst_result d0 0 m p a na inc r -> burst_result d 0 m p a na inc r.
Proof.
  intros Hk Hm Ev Ew Ek Hp.
  assert (pgraph_word d0 0 m p = pgraph_word d 0 m p) as Ep.
  { unfold pgraph_word. by rewrite Ek, object_method_kelvin. }
  intros [->|(n & Hn & Hle & Hs & Hst & ->)]; [left; by rewrite Ep|].
  right. exists n. cbv zeta. do 3 (split; [done|]). destruct n as [|n]; [lia|].
  destruct Hp as [Hp|Hp].
  { destruct (Hs 0%nat ltac:(lia)) as [_ []]. right. left. lia. }
  cbn [pgraph_stream stays] in *. rewrite Ev, Hp in *. cbn [mbind res_mbind res_bind] in *.
  rewrite Ep. split; [|done]. intros w d' [= <-] Hw. rewrite <- Ew. apply (Hst p); [done|by rewrite Ep].
Qed.

(** A call of [pgraph_method] takes one word, or does what the words of a burst do one
    after the other. *)
Lemma pgraph_method_burst d s m p a na ml inc :
  0 <= s -> 0 < m < 0x2000 -> m mod 4 = 0 -> m <> NV097_DRAW_ARRAYS \/ ml < 7 -> 1 <= na ->
  0x180 <= m < 0x200 \/ ld_le (vram d) 4 a = Ok p ->
  burst_result d s m p a na inc (pgraph_method d s m p a na ml inc).
Proof.
  intros Hs Hm Ha Hd Hna Hp. unfold pgraph_method.
  destruct (object_method_cases d s m p Hs ltac:(lia)) as [(r & Er & Hr)|(-> & d0 & Hk & Ev & Ew & Ek)].
  - left. rewrite Er. unfold pgraph_word. rewrite Er. destruct r as [[d' n]|]; [|done].
    cbn [mbind res_mbind res_bind]. by rewrite (Hr _ _ eq_refl).
  - rewrite Ek. apply (burst_result_current d d0); [done|lia|done..|].
    unfold kelvin_dispatch. rewrite Z.shiftr_div_pow2 by lia.
    rewrite (proj2 (Z.ltb_lt _ _)) by dlia. rewrite <- Z.shiftr_div_pow2 by lia. cbn [negb].
    destruct (kelvin_method (Z.shiftr m 2)) as [f|] eqn:Ef.
    + assert (forall r : res (NV2AState X * Z), ('(d, c) ← r; b ← can_squash d m a ml;
        if (b : bool) then Ok (d <| pgraph; draw_arrays_prevent_connect := true |>, c + 4)
        else Ok (d, c)) = r) as ->.
      { intros [[d' c]|]; [|done]. cbn [mbind res_mbind res_bind]. unfold can_squash.
        destruct Hd; [by rewrite (proj2 (Z.eqb_neq m _)) by done|].
        by rewrite (proj2 (Z.leb_gt 7 ml)), andb_false_r by done. }
      by apply run_method_burst.
    + left. rewrite pgraph_word_kelvin by (done || lia). unfold kelvin_word.
      rewrite Ef, Z.shiftr_div_pow2 by lia. by rewrite (proj2 (Z.ltb_lt _ _)) by dlia.
Qed.

Lemma object_method_ext k k' d s m p : (forall d, k d = k' d) ->
  object_method k d s m p = object_method k' d s m p.
Proof.
  intros Ek. unfold object_method. do 2 (case_match; [done|]).
  match goal with |- mbind _ ?r = _ => destruct r as [d'|] end; [|done].
  cbn [mbind res_mbind res_bind]. by rewrite Ek.
Qed.

Lemma object_method_one k d s m p : (forall d d' n, k d = Ok (d', n) -> n = 1) ->
  object_method k d s m p = (d' ← ('(d', _) ← object_method k d s m p; Ok d'); Ok (d', 1)).
Proof.
  intros Hk.
  assert (forall r : res (NV2AState X * Z), (forall d' n, r = Ok (d', n) -> n = 1) ->
    r = (d' ← ('(d', _) ← r; Ok d'); Ok (d', 1))) as Hr.
  { intros [[d' n]|] Hr; [|done]. by rewrite (Hr d' n eq_refl). }
  apply Hr. clear Hr. unfold object_method. do 2 (case_match; [done|]).
  intros d' n (d0 & _ & E)%res_bind_Ok. revert d' n E. case_match; [done|].
  apply switch_ind; [|intros d' n [= _ <-]; done].
  repeat apply Forall_cons_2; try apply Forall_nil_2; intros _ d' n; cbn [snd];
    try (intros [= _ <-]; done); [|apply Hk].
  intros (d1 & _ & E)%res_bind_Ok. by injection E.
Qed.

(** An object is bound with one word. *)
Lemma pgraph_method_object d s p a na ml inc :
  pgraph_method d s 0 p a na ml inc = (d' ← pgraph_word d s 0 p; Ok (d', 1)).
Proof.
  unfold pgraph_method, pgraph_word.
  rewrite <- (object_method_one (fun d => kelvin_word d s 0 p)).
  - apply object_method_ext. intros d0. unfold kelvin_dispatch, kelvin_word.
    change (Z.shiftr 0 2) with 0. cbn [negb Z.ltb Z.compare].
    destruct (kelvin_method 0) as [f|] eqn:Ef; [|done].
    pose proof (kelvin_single 0 f (or_introl eq_refl) Ef) as Hf.
    destruct f as [h| |]; [|by destruct Hf..]. cbn [run_method method_handler].
    by destruct (h d0 s 0 p).
  - intros d0 d' n. unfold kelvin_word. case_match; [done|]. case_match; [|by intros [= _ <-]].
    intros (d1 & _ & E)%res_bind_Ok. by injection E.
Qed.

End Burst.

(** ** What PGRAPH sees of the FIFO registers *)

Section FifoRegs.
Context {X : Type} `{RendererLaws X} `{KelvinLaws X}.
Implicit Types d : NV2AState X.

Definition with_regs (r : regfile) d : NV2AState X := d <| pfifo; pfifo_regs := r |>.

(** Register files that look the same to PGRAPH. *)
Definition alike (r : regfile) d : Prop := drained r = drained (pfifo_regs (pfifo d)).

(** An operation that commutes with a change of the FIFO registers to others that look the same. *)
Definition fifo_blind (f : NV2AState X -> res (NV2AState X)) : Prop :=
  forall r d, alike r d -> f (with_regs r d) = (d' ← f d; Ok (with_regs r d')).
Definition fifo_blind2 (f : NV2AState X -> res (NV2AState X * Z)) : Prop :=
  forall r d, alike r d -> f (with_regs r d) = ('(d', n) ← f d; Ok (with_regs r d', n)).

Lemma with_own_regs d : with_regs (pfifo_regs (pfifo d)) d = d.
Proof. by destruct d as [???????[]]. Qed.

(** So it leaves them as they were. *)
Lemma blind_regs f d d' : fifo_blind f -> f d = Ok d' -> pfifo_regs (pfifo d') = pfifo_regs (pfifo d).
Proof.
  intros Hf E. pose proof (Hf (pfifo_regs (pfifo d)) d eq_refl) as Hb. rewrite with_own_regs, E in Hb.
  cbn [mbind res_mbind res_bind] in Hb. injection Hb as Hb. rewrite Hb. reflexivity.
Qed.

Lemma set_object_blind s p : fifo_blind (fun d => set_object d s p).
Proof.
  intros r d _. unfold set_object. change (ramin_size (with_regs r d)) with (ramin_size d).
  change (ramin (with_regs r d)) with (ramin d). case_match; [done|].
  repeat match goal with |- context [ld_le ?m ?n ?a] => destruct (ld_le m n a) end; reflexivity.
Qed.

Lemma beta_blind r d m p : beta_method (with_regs r d) m p = with_regs r (beta_method d m p).
Proof. unfold beta_method. cbn [switch]. by repeat case_match. Qed.

Lemma pattern_blind r d m p : pattern_method (with_regs r d) m p = with_regs r (pattern_method d m p).
Proof. unfold pattern_method. cbn [switch]. by case_match. Qed.

Lemma surfaces_2d_blind r d m p :
  surfaces_2d_method (with_regs r d) m p = with_regs r (surfaces_2d_method d m p).
Proof. unfold surfaces_2d_method. cbn [switch]. by repeat case_match. Qed.

Lemma image_blit_blind m p : fifo_blind (fun d => image_blit_method d m p).
Proof.
  intros r d Hr. unfold image_blit_method. cbv zeta. cbn [switch].
  do 5 (destruct (m =? _); [reflexivity|]).
  destruct (m =? _); [|reflexivity]. destruct (_ && _); [|reflexivity].
  refine (ops_pfifo ImageBlit (d <| pgraph; image_blit :=
            (image_blit (pgraph d)) <| width := lo16 p |> <| height := hi16 p |> |>) r _). exact Hr.
Qed.

Lemma kelvin_word_blind s m p : fifo_blind2 (fun d => kelvin_word d s m p).
Proof.
  intros r d Hr. unfold kelvin_word. case_match; [done|]. case_match; [|done].
  unfold with_regs at 1. rewrite (kelvin_pfifo _ _ _ _ _ _ _ ltac:(eassumption) Hr).
  by destruct (method_handler _ d s m p).
Qed.

Lemma object_method_blind k s m p : fifo_blind2 k ->
  fifo_blind2 (fun d => object_method k d s m p).
Proof.
  intros Hk r d Hr. unfold object_method. change (pgraph (with_regs r d)) with (pgraph d).
  do 2 (case_match; [done|]).
  assert (exists r1, (if m =? NV_SET_OBJECT then set_object d s p else Ok d) = r1
    /\ (if m =? NV_SET_OBJECT then set_object (with_regs r d) s p else Ok (with_regs r d))
       = (d' ← r1; Ok (with_regs r d'))
    /\ (forall d', r1 = Ok d' -> alike r d')) as (r1 & -> & -> & Hr1).
  { eexists. split; [done|]. case_match; [|split; [done|by intros d' [= <-]]].
    split; [by apply set_object_blind|]. intros d' E.
    unfold alike. by rewrite (blind_regs _ _ _ (set_object_blind s p) E). }
  destruct r1 as [d1|]; [|done]. specialize (Hr1 d1 eq_refl). cbn [mbind res_mbind res_bind].
  change (pgraph (with_regs r d1)) with (pgraph d1).
  set (d2 := d1 <| pgraph := load_object (pgraph d1) s |>).
  change ((with_regs r d1) <| pgraph := load_object (pgraph d1) s |>) with (with_regs r d2).
  change (alike r d2) in Hr1.
  change (pgraph (with_regs r d2)) with (pgraph d2). clearbody d2. case_match; [done|].
  generalize (PG_GET_MASK (pgraph d2) NV_PGRAPH_CTX_SWITCH1 NV_PGRAPH_CTX_SWITCH1_GRCLASS) as g.
  intros g. rewrite beta_blind, pattern_blind, surfaces_2d_blind, (Hk r d2 Hr1).
  rewrite (image_blit_blind m p r d2 Hr1). cbn [switch].
  do 3 (case_match; [done|]). case_match; [by destruct (image_blit_method d2 m p)|].
  by case_match.
Qed.

Lemma pgraph_word_blind s m p : fifo_blind (fun d => pgraph_word d s m p).
Proof.
  intros r d Hr. unfold pgraph_word.
  rewrite (object_method_blind _ s m p (kelvin_word_blind s m p) r d Hr).
  by destruct (object_method _ d s m p) as [[]|].
Qed.

Lemma pgraph_word_regs d d' s m p : pgraph_word d s m p = Ok d' ->
  pfifo_regs (pfifo d') = pfifo_regs (pfifo d).
Proof. apply (blind_regs _ _ _ (pgraph_word_blind s m p)). Qed.

End FifoRegs.

End Pgraph.
