(* ===== verification/Kelvin.v ===== *)
(** * The Kelvin 3D methods (pgraph/pgraph.c, methods.h.inc)

    One definition per handler, [NV097_<name>_handler], in the order of the source.
    A handler that only touches the PGRAPH state is a function on it; the others take
    the device.  A [float] is its 32-bit pattern, so [*(float * )&parameter] is the
    parameter.  Profiling counters and traces are left out. *)

From S2P Require Import Prelude Nv2aRegs Nv2aState Float32 Vertex Pgraph.
Import Nv2aState Float32 Vertex Pgraph.

(** The vertex-program interpreter of the nv2a_vsh_cpu library: parsing the words of a
    program, and running it on the input register, the constants and their dirty flags. *)
Class VshEmu := {
  Nv2aVshProgram : Type;
  nv2a_vsh_parse_program : list (list Z) -> option Nv2aVshProgram;
  nv2a_vsh_emu_execute : Nv2aVshProgram -> list Z -> list (list Z) -> list bool ->
    list (list Z) * list bool
}.

Module Kelvin.

(** ** Common pieces *)

(** [(method - base) / stride] *)
Definition slot_of (method base stride : Z) : Z := u32 (method - base) / stride.

(** [PG_SET_MASK] on a register that depends on the method. *)
Definition pg_set_mask (pg : PGRAPHState) (r mask v : Z) : res PGRAPHState :=
  old ← pgraph_reg_r pg r;
  pgraph_reg_w pg r (SET_MASK old mask v).

Definition bit_of (parameter mask : Z) : Z := Z.b2z (tst parameter mask).

(** The value of a case, if there is one. *)
Definition assoc (x : Z) (cases : list (Z * Z)) : option Z :=
  switch x ((fun c => (c.1, Some c.2)) <$> cases) None.
Definition assoc_or_abort (x : Z) (cases : list (Z * Z)) : res Z :=
  match assoc x cases with Some v => Ok v | None => Fault AssertFail end.

(** [switch] with ranges of cases. *)
Fixpoint range_switch {A} (x : Z) (cases : list (Z * Z * A)) (dflt : A) : A :=
  match cases with
  | [] => dflt
  | (lo, hi, e) :: cases => if (lo <=? x) && (x <=? hi) then e else range_switch x cases dflt
  end.

(** A word of a table of constants and the dirty flag of its row. *)
Definition set_word (rows : list (list Z)) (dirty : list bool) (row col v : Z)
  : res (list (list Z) * list bool) :=
  rows ← aset2 rows row col v;
  dirty ← aset dirty row true;
  Ok (rows, dirty).

Definition set_vsh_constant (pg : PGRAPHState) (row col v : Z) : res PGRAPHState :=
  '(rows, dirty) ← set_word (vsh_constants pg) (vsh_constants_dirty pg) row col v;
  Ok (pg <| vsh_constants := rows |> <| vsh_constants_dirty := dirty |>).
Definition set_ltctxa (pg : PGRAPHState) (row col v : Z) : res PGRAPHState :=
  '(rows, dirty) ← set_word (ltctxa pg) (ltctxa_dirty pg) row col v;
  Ok (pg <| ltctxa := rows |> <| ltctxa_dirty := dirty |>).
Definition set_ltctxb (pg : PGRAPHState) (row col v : Z) : res PGRAPHState :=
  '(rows, dirty) ← set_word (ltctxb pg) (ltctxb_dirty pg) row col v;
  Ok (pg <| ltctxb := rows |> <| ltctxb_dirty := dirty |>).
Definition set_ltc1 (pg : PGRAPHState) (row col v : Z) : res PGRAPHState :=
  '(rows, dirty) ← set_word (ltc1 pg) (ltc1_dirty pg) row col v;
  Ok (pg <| ltc1 := rows |> <| ltc1_dirty := dirty |>).

Definition pgraph_color_write_enabled (pg : PGRAPHState) : bool :=
  tst (reg (regs_ pg) NV_PGRAPH_CONTROL_0)
    (Z.lor NV_PGRAPH_CONTROL_0_ALPHA_WRITE_ENABLE
      (Z.lor NV_PGRAPH_CONTROL_0_RED_WRITE_ENABLE
        (Z.lor NV_PGRAPH_CONTROL_0_GREEN_WRITE_ENABLE NV_PGRAPH_CONTROL_0_BLUE_WRITE_ENABLE))).
Definition pgraph_zeta_write_enabled (pg : PGRAPHState) : bool :=
  tst (reg (regs_ pg) NV_PGRAPH_CONTROL_0)
    (Z.lor NV_PGRAPH_CONTROL_0_ZWRITEENABLE NV_PGRAPH_CONTROL_0_STENCIL_WRITE_ENABLE).

Section Device.
Context {X : Type} `{Renderer X}.
Implicit Types d : NV2AState X.

(** The straggling draws are done before the surface changes. *)
Definition surface_update d : res (NV2AState X) := ops (SurfaceUpdate false true true) d.

(** ** Objects, notification and flipping *)

Definition NV097_SET_OBJECT_handler (pg : PGRAPHState) (parameter : Z) : PGRAPHState :=
  pg <| kelvin_object_instance := parameter |>.

(** The trap registers of a software method call. *)
Definition notify (pg : PGRAPHState) (subchannel method parameter : Z) : PGRAPHState :=
  let channel_id := PG_GET_MASK pg NV_PGRAPH_CTX_USER NV_PGRAPH_CTX_USER_CHID in
  let pg := PG_SET_MASK pg NV_PGRAPH_TRAPPED_ADDR NV_PGRAPH_TRAPPED_ADDR_CHID channel_id in
  let pg := PG_SET_MASK pg NV_PGRAPH_TRAPPED_ADDR NV_PGRAPH_TRAPPED_ADDR_SUBCH subchannel in
  let pg := PG_SET_MASK pg NV_PGRAPH_TRAPPED_ADDR NV_PGRAPH_TRAPPED_ADDR_MTHD method in
  let pg := reg_w pg NV_PGRAPH_TRAPPED_DATA_LOW parameter in
  let pg := reg_w pg NV_PGRAPH_NSOURCE NV_PGRAPH_NSOURCE_NOTIFICATION in
  pg <| pg_pending := Z.lor (pg_pending pg) NV_PGRAPH_INTR_ERROR |> <| waiting_for_nop := true |>.

Definition NV097_NO_OPERATION_handler d (subchannel method parameter : Z) : res (NV2AState X) :=
  if parameter =? 0 then Ok d
  else
    _ ← c_assert (negb (tst (pg_pending (pgraph d)) NV_PGRAPH_INTR_ERROR));
    Ok (nv2a_update_irq (d <| pgraph := notify (pgraph d) subchannel method parameter |>)).

Definition NV097_WAIT_FOR_IDLE_handler d (parameter : Z) : res (NV2AState X) := surface_update d.

Definition NV097_SET_FLIP_READ_handler (pg : PGRAPHState) (parameter : Z) : PGRAPHState :=
  PG_SET_MASK pg NV_PGRAPH_SURFACE NV_PGRAPH_SURFACE_READ_3D parameter.

Definition NV097_SET_FLIP_WRITE_handler (pg : PGRAPHState) (parameter : Z) : PGRAPHState :=
  PG_SET_MASK pg NV_PGRAPH_SURFACE NV_PGRAPH_SURFACE_WRITE_3D parameter.

Definition NV097_SET_FLIP_MODULO_handler (pg : PGRAPHState) (parameter : Z) : PGRAPHState :=
  PG_SET_MASK pg NV_PGRAPH_SURFACE NV_PGRAPH_SURFACE_MODULO_3D parameter.

Definition NV097_FLIP_INCREMENT_WRITE_handler (pg : PGRAPHState) (parameter : Z)
  : res PGRAPHState :=
  pg ← flip_next pg NV_PGRAPH_SURFACE_WRITE_3D;
  Ok (pg <| frame_time := s32 (frame_time pg + 1) |>).

Definition NV097_FLIP_STALL_handler d (parameter : Z) : res (NV2AState X) :=
  d ← surface_update d;
  d ← ops FlipStall d;
  Ok (d <| pgraph; waiting_for_flip := true |>).

(** ** DMA objects and surfaces *)

Definition NV097_SET_CONTEXT_DMA_NOTIFIES_handler (pg : PGRAPHState) (parameter : Z)
  : PGRAPHState :=
  pg <| dma_notifies := parameter |>.

Definition NV097_SET_CONTEXT_DMA_A_handler (pg : PGRAPHState) (parameter : Z) : PGRAPHState :=
  pg <| dma_a := parameter |>.

Definition NV097_SET_CONTEXT_DMA_B_handler (pg : PGRAPHState) (parameter : Z) : PGRAPHState :=
  pg <| dma_b := parameter |>.

Definition NV097_SET_CONTEXT_DMA_STATE_handler (pg : PGRAPHState) (parameter : Z) : PGRAPHState :=
  pg <| dma_state := parameter |>.

Definition NV097_SET_CONTEXT_DMA_COLOR_handler d (parameter : Z) : res (NV2AState X) :=
  d ← surface_update d;
  Ok (d <| pgraph ::= fun pg =>
        pg <| dma_color := parameter |> <| surface_color; buffer_dirty := true |> |>).

Definition NV097_SET_CONTEXT_DMA_ZETA_handler (pg : PGRAPHState) (parameter : Z) : PGRAPHState :=
  pg <| dma_zeta := parameter |> <| surface_zeta; buffer_dirty := true |>.

Definition NV097_SET_CONTEXT_DMA_VERTEX_A_handler (pg : PGRAPHState) (parameter : Z)
  : PGRAPHState :=
  pg <| dma_vertex_a := parameter |>.

Definition NV097_SET_CONTEXT_DMA_VERTEX_B_handler (pg : PGRAPHState) (parameter : Z)
  : PGRAPHState :=
  pg <| dma_vertex_b := parameter |>.

Definition NV097_SET_CONTEXT_DMA_SEMAPHORE_handler (pg : PGRAPHState) (parameter : Z)
  : PGRAPHState :=
  pg <| dma_semaphore := parameter |>.

Definition NV097_SET_CONTEXT_DMA_REPORT_handler d (parameter : Z) : res (NV2AState X) :=
  d ← ops ProcessPendingReports d;
  Ok (d <| pgraph; dma_report := parameter |>).

Definition NV097_SET_SURFACE_CLIP_HORIZONTAL_handler d (parameter : Z) : res (NV2AState X) :=
  d ← surface_update d;
  Ok (d <| pgraph ::= fun pg => pg <| surface_shape ::= fun s =>
        s <| clip_x := GET_MASK parameter NV097_SET_SURFACE_CLIP_HORIZONTAL_X |>
          <| clip_width := GET_MASK parameter NV097_SET_SURFACE_CLIP_HORIZONTAL_WIDTH |> |> |>).

Definition NV097_SET_SURFACE_CLIP_VERTICAL_handler d (parameter : Z) : res (NV2AState X) :=
  d ← surface_update d;
  Ok (d <| pgraph ::= fun pg => pg <| surface_shape ::= fun s =>
        s <| clip_y := GET_MASK parameter NV097_SET_SURFACE_CLIP_VERTICAL_Y |>
          <| clip_height := GET_MASK parameter NV097_SET_SURFACE_CLIP_VERTICAL_HEIGHT |> |> |>).

Definition NV097_SET_SURFACE_FORMAT_handler d (parameter : Z) : res (NV2AState X) :=
  d ← surface_update d;
  Ok (d <| pgraph ::= fun pg =>
    let pg := pg <| surface_shape ::= fun s =>
      s <| shape_color_format := GET_MASK parameter NV097_SET_SURFACE_FORMAT_COLOR |>
        <| shape_zeta_format := GET_MASK parameter NV097_SET_SURFACE_FORMAT_ZETA |>
        <| anti_aliasing := GET_MASK parameter NV097_SET_SURFACE_FORMAT_ANTI_ALIASING |>
        <| log_width := GET_MASK parameter NV097_SET_SURFACE_FORMAT_WIDTH |>
        <| log_height := GET_MASK parameter NV097_SET_SURFACE_FORMAT_HEIGHT |> |> in
    let type := GET_MASK parameter NV097_SET_SURFACE_FORMAT_TYPE in
    if type =? surface_type pg then pg
    else pg <| surface_type := type |> <| surface_color; buffer_dirty := true |>
            <| surface_zeta; buffer_dirty := true |> |>).

(** A new pitch or offset makes the buffer of the surface dirty. *)
Definition set_pitch (pitch : Z) (s : Surface) : Surface :=
  s <| buffer_dirty := buffer_dirty s || negb (surf_pitch s =? pitch) |> <| surf_pitch := pitch |>.
Definition set_offset (offset : Z) (s : Surface) : Surface :=
  s <| buffer_dirty := buffer_dirty s || negb (surf_offset s =? offset) |>
    <| surf_offset := offset |>.

Definition NV097_SET_SURFACE_PITCH_handler d (parameter : Z) : res (NV2AState X) :=
  d ← surface_update d;
  let color_pitch := GET_MASK parameter NV097_SET_SURFACE_PITCH_COLOR in
  let zeta_pitch := GET_MASK parameter NV097_SET_SURFACE_PITCH_ZETA in
  Ok (d <| pgraph ::= fun pg => pg <| surface_color ::= set_pitch color_pitch |>
                                   <| surface_zeta ::= set_pitch zeta_pitch |> |>).

Definition NV097_SET_SURFACE_COLOR_OFFSET_handler d (parameter : Z) : res (NV2AState X) :=
  d ← surface_update d;
  Ok (d <| pgraph ::= fun pg => pg <| surface_color ::= set_offset parameter |> |>).

Definition NV097_SET_SURFACE_ZETA_OFFSET_handler d (parameter : Z) : res (NV2AState X) :=
  d ← surface_update d;
  Ok (d <| pgraph ::= fun pg => pg <| surface_zeta ::= set_offset parameter |> |>).

(** ** Fixed-function state *)

Definition NV097_SET_COMBINER_ALPHA_ICW_handler (pg : PGRAPHState) (method parameter : Z)
  : res PGRAPHState :=
  let slot := slot_of method NV097_SET_COMBINER_ALPHA_ICW 4 in
  pgraph_reg_w pg (NV_PGRAPH_COMBINEALPHAI0 + slot * 4) parameter.

Definition NV097_SET_COMBINER_SPECULAR_FOG_CW0_handler (pg : PGRAPHState) (parameter : Z)
  : PGRAPHState :=
  reg_w pg NV_PGRAPH_COMBINESPECFOG0 parameter.

Definition NV097_SET_COMBINER_SPECULAR_FOG_CW1_handler (pg : PGRAPHState) (parameter : Z)
  : PGRAPHState :=
  reg_w pg NV_PGRAPH_COMBINESPECFOG1 parameter.

Definition NV097_SET_TEXTURE_ADDRESS_handler (pg : PGRAPHState) (method parameter : Z)
  : res PGRAPHState :=
  let slot := slot_of method NV097_SET_TEXTURE_ADDRESS 64 in
  pgraph_reg_w pg (NV_PGRAPH_TEXADDRESS0 + slot * 4) parameter.

Definition NV097_SET_CONTROL0_handler d (parameter : Z) : res (NV2AState X) :=
  d ← surface_update d;
  Ok (d <| pgraph ::= fun pg =>
    let pg := PG_SET_MASK pg NV_PGRAPH_CONTROL_0 NV_PGRAPH_CONTROL_0_STENCIL_WRITE_ENABLE
                (bit_of parameter NV097_SET_CONTROL0_STENCIL_WRITE_ENABLE) in
    let pg := PG_SET_MASK pg NV_PGRAPH_SETUPRASTER NV_PGRAPH_SETUPRASTER_Z_FORMAT
                (GET_MASK parameter NV097_SET_CONTROL0_Z_FORMAT) in
    PG_SET_MASK pg NV_PGRAPH_CONTROL_0 NV_PGRAPH_CONTROL_0_Z_PERSPECTIVE_ENABLE
      (bit_of parameter NV097_SET_CONTROL0_Z_PERSPECTIVE_ENABLE) |>).

Definition NV097_SET_LIGHT_CONTROL_handler (pg : PGRAPHState) (parameter : Z) : PGRAPHState :=
  let pg := PG_SET_MASK pg NV_PGRAPH_CSV0_C NV_PGRAPH_CSV0_C_SEPARATE_SPECULAR
              (bit_of parameter NV097_SET_LIGHT_CONTROL_SEPARATE_SPECULAR) in
  let pg := PG_SET_MASK pg NV_PGRAPH_CSV0_C NV_PGRAPH_CSV0_C_LOCALEYE
              (bit_of parameter NV097_SET_LIGHT_CONTROL_LOCALEYE) in
  PG_SET_MASK pg NV_PGRAPH_CSV0_C NV_PGRAPH_CSV0_C_ALPHA_FROM_MATERIAL_SPECULAR
    (bit_of parameter NV097_SET_LIGHT_CONTROL_ALPHA_FROM_MATERIAL_SPECULAR).

Definition NV097_SET_COLOR_MATERIAL_handler (pg : PGRAPHState) (parameter : Z) : PGRAPHState :=
  let part i := Z.land (Z.shiftr parameter i) 3 in
  let pg := PG_SET_MASK pg NV_PGRAPH_CSV0_C NV_PGRAPH_CSV0_C_EMISSION (part 0) in
  let pg := PG_SET_MASK pg NV_PGRAPH_CSV0_C NV_PGRAPH_CSV0_C_AMBIENT (part 2) in
  let pg := PG_SET_MASK pg NV_PGRAPH_CSV0_C NV_PGRAPH_CSV0_C_DIFFUSE (part 4) in
  PG_SET_MASK pg NV_PGRAPH_CSV0_C NV_PGRAPH_CSV0_C_SPECULAR (part 6).

Definition NV097_SET_FOG_MODE_handler (pg : PGRAPHState) (parameter : Z) : res PGRAPHState :=
  mode ← assoc_or_abort parameter
    [(NV097_SET_FOG_MODE_V_LINEAR, NV_PGRAPH_CONTROL_3_FOG_MODE_LINEAR);
     (NV097_SET_FOG_MODE_V_EXP, NV_PGRAPH_CONTROL_3_FOG_MODE_EXP);
     (NV097_SET_FOG_MODE_V_EXP2, NV_PGRAPH_CONTROL_3_FOG_MODE_EXP2);
     (NV097_SET_FOG_MODE_V_EXP_ABS, NV_PGRAPH_CONTROL_3_FOG_MODE_EXP_ABS);
     (NV097_SET_FOG_MODE_V_EXP2_ABS, NV_PGRAPH_CONTROL_3_FOG_MODE_EXP2_ABS);
     (NV097_SET_FOG_MODE_V_LINEAR_ABS, NV_PGRAPH_CONTROL_3_FOG_MODE_LINEAR_ABS)];
  Ok (PG_SET_MASK pg NV_PGRAPH_CONTROL_3 NV_PGRAPH_CONTROL_3_FOG_MODE mode).

Definition NV097_SET_FOG_GEN_MODE_handler (pg : PGRAPHState) (parameter : Z) : res PGRAPHState :=
  mode ← assoc_or_abort parameter
    [(NV097_SET_FOG_GEN_MODE_V_SPEC_ALPHA, NV_PGRAPH_CSV0_D_FOGGENMODE_SPEC_ALPHA);
     (NV097_SET_FOG_GEN_MODE_V_RADIAL, NV_PGRAPH_CSV0_D_FOGGENMODE_RADIAL);
     (NV097_SET_FOG_GEN_MODE_V_PLANAR, NV_PGRAPH_CSV0_D_FOGGENMODE_PLANAR);
     (NV097_SET_FOG_GEN_MODE_V_ABS_PLANAR, NV_PGRAPH_CSV0_D_FOGGENMODE_ABS_PLANAR);
     (NV097_SET_FOG_GEN_MODE_V_FOG_X, NV_PGRAPH_CSV0_D_FOGGENMODE_FOG_X)];
  Ok (PG_SET_MASK pg NV_PGRAPH_CSV0_D NV_PGRAPH_CSV0_D_FOGGENMODE mode).

Definition NV097_SET_FOG_ENABLE_handler (pg : PGRAPHState) (parameter : Z) : PGRAPHState :=
  PG_SET_MASK pg NV_PGRAPH_CONTROL_3 NV_PGRAPH_CONTROL_3_FOGENABLE parameter.

Definition NV097_SET_FOG_COLOR_handler (pg : PGRAPHState) (parameter : Z) : PGRAPHState :=
  let channel m := u8 (GET_MASK parameter m) in
  let pg := PG_SET_MASK pg NV_PGRAPH_FOGCOLOR NV_PGRAPH_FOGCOLOR_RED
              (channel NV097_SET_FOG_COLOR_RED) in
  let pg := PG_SET_MASK pg NV_PGRAPH_FOGCOLOR NV_PGRAPH_FOGCOLOR_GREEN
              (channel NV097_SET_FOG_COLOR_GREEN) in
  let pg := PG_SET_MASK pg NV_PGRAPH_FOGCOLOR NV_PGRAPH_FOGCOLOR_BLUE
              (channel NV097_SET_FOG_COLOR_BLUE) in
  PG_SET_MASK pg NV_PGRAPH_FOGCOLOR NV_PGRAPH_FOGCOLOR_ALPHA (channel NV097_SET_FOG_COLOR_ALPHA).

Definition NV097_SET_WINDOW_CLIP_TYPE_handler (pg : PGRAPHState) (parameter : Z) : PGRAPHState :=
  PG_SET_MASK pg NV_PGRAPH_SETUPRASTER NV_PGRAPH_SETUPRASTER_WINDOWCLIPTYPE parameter.

(** The window of the slot and of those after it. *)
Definition set_windows (pg : PGRAPHState) (base slot parameter : Z) : res PGRAPHState :=
  res_foldl (fun pg slot => pgraph_reg_w pg (base + slot * 4) parameter) pg (seqZ slot (8 - slot)).

Definition NV097_SET_WINDOW_CLIP_HORIZONTAL_handler (pg : PGRAPHState) (method parameter : Z)
  : res PGRAPHState :=
  set_windows pg NV_PGRAPH_WINDOWCLIPX0
    (slot_of method NV097_SET_WINDOW_CLIP_HORIZONTAL 4) parameter.

Definition NV097_SET_WINDOW_CLIP_VERTICAL_handler (pg : PGRAPHState) (method parameter : Z)
  : res PGRAPHState :=
  set_windows pg NV_PGRAPH_WINDOWCLIPY0
    (slot_of method NV097_SET_WINDOW_CLIP_VERTICAL 4) parameter.

Definition NV097_SET_ALPHA_TEST_ENABLE_handler (pg : PGRAPHState) (parameter : Z) : PGRAPHState :=
  PG_SET_MASK pg NV_PGRAPH_CONTROL_0 NV_PGRAPH_CONTROL_0_ALPHATESTENABLE parameter.

Definition NV097_SET_BLEND_ENABLE_handler (pg : PGRAPHState) (parameter : Z) : PGRAPHState :=
  PG_SET_MASK pg NV_PGRAPH_BLEND NV_PGRAPH_BLEND_EN parameter.

Definition NV097_SET_CULL_FACE_ENABLE_handler (pg : PGRAPHState) (parameter : Z) : PGRAPHState :=
  PG_SET_MASK pg NV_PGRAPH_SETUPRASTER NV_PGRAPH_SETUPRASTER_CULLENABLE parameter.

Definition NV097_SET_DEPTH_TEST_ENABLE_handler (pg : PGRAPHState) (parameter : Z) : PGRAPHState :=
  PG_SET_MASK pg NV_PGRAPH_CONTROL_0 NV_PGRAPH_CONTROL_0_ZENABLE parameter.

Definition NV097_SET_DITHER_ENABLE_handler (pg : PGRAPHState) (parameter : Z) : PGRAPHState :=
  PG_SET_MASK pg NV_PGRAPH_CONTROL_0 NV_PGRAPH_CONTROL_0_DITHERENABLE parameter.

Definition NV097_SET_LIGHTING_ENABLE_handler (pg : PGRAPHState) (parameter : Z) : PGRAPHState :=
  PG_SET_MASK pg NV_PGRAPH_CSV0_C NV_PGRAPH_CSV0_C_LIGHTING parameter.

Definition NV097_SET_POINT_PARAMS_ENABLE_handler (pg : PGRAPHState) (parameter : Z)
  : PGRAPHState :=
  let pg := PG_SET_MASK pg NV_PGRAPH_CSV0_D NV_PGRAPH_CSV0_D_POINTPARAMSENABLE parameter in
  PG_SET_MASK pg NV_PGRAPH_CONTROL_3 NV_PGRAPH_CONTROL_3_POINTPARAMSENABLE parameter.

Definition NV097_SET_POINT_SMOOTH_ENABLE_handler (pg : PGRAPHState) (parameter : Z)
  : PGRAPHState :=
  PG_SET_MASK pg NV_PGRAPH_SETUPRASTER NV_PGRAPH_SETUPRASTER_POINTSMOOTHENABLE parameter.

Definition NV097_SET_LINE_SMOOTH_ENABLE_handler (pg : PGRAPHState) (parameter : Z) : PGRAPHState :=
  PG_SET_MASK pg NV_PGRAPH_SETUPRASTER NV_PGRAPH_SETUPRASTER_LINESMOOTHENABLE parameter.

Definition NV097_SET_POLY_SMOOTH_ENABLE_handler (pg : PGRAPHState) (parameter : Z) : PGRAPHState :=
  PG_SET_MASK pg NV_PGRAPH_SETUPRASTER NV_PGRAPH_SETUPRASTER_POLYSMOOTHENABLE parameter.

Definition NV097_SET_SKIN_MODE_handler (pg : PGRAPHState) (parameter : Z) : PGRAPHState :=
  PG_SET_MASK pg NV_PGRAPH_CSV0_D NV_PGRAPH_CSV0_D_SKIN parameter.

Definition NV097_SET_STENCIL_TEST_ENABLE_handler (pg : PGRAPHState) (parameter : Z)
  : PGRAPHState :=
  PG_SET_MASK pg NV_PGRAPH_CONTROL_1 NV_PGRAPH_CONTROL_1_STENCIL_TEST_ENABLE parameter.

Definition NV097_SET_POLY_OFFSET_POINT_ENABLE_handler (pg : PGRAPHState) (parameter : Z)
  : PGRAPHState :=
  PG_SET_MASK pg NV_PGRAPH_SETUPRASTER NV_PGRAPH_SETUPRASTER_POFFSETPOINTENABLE parameter.

Definition NV097_SET_POLY_OFFSET_LINE_ENABLE_handler (pg : PGRAPHState) (parameter : Z)
  : PGRAPHState :=
  PG_SET_MASK pg NV_PGRAPH_SETUPRASTER NV_PGRAPH_SETUPRASTER_POFFSETLINEENABLE parameter.

Definition NV097_SET_POLY_OFFSET_FILL_ENABLE_handler (pg : PGRAPHState) (parameter : Z)
  : PGRAPHState :=
  PG_SET_MASK pg NV_PGRAPH_SETUPRASTER NV_PGRAPH_SETUPRASTER_POFFSETFILLENABLE parameter.

Definition NV097_SET_ALPHA_FUNC_handler (pg : PGRAPHState) (parameter : Z) : PGRAPHState :=
  PG_SET_MASK pg NV_PGRAPH_CONTROL_0 NV_PGRAPH_CONTROL_0_ALPHAFUNC (Z.land parameter 0xF).

Definition NV097_SET_ALPHA_REF_handler (pg : PGRAPHState) (parameter : Z) : PGRAPHState :=
  PG_SET_MASK pg NV_PGRAPH_CONTROL_0 NV_PGRAPH_CONTROL_0_ALPHAREF parameter.

Definition NV097_SET_BLEND_FUNC_SFACTOR_handler (pg : PGRAPHState) (parameter : Z) : PGRAPHState :=
  match assoc parameter
    [(NV097_SET_BLEND_FUNC_SFACTOR_V_ZERO, NV_PGRAPH_BLEND_SFACTOR_ZERO);
     (NV097_SET_BLEND_FUNC_SFACTOR_V_ONE, NV_PGRAPH_BLEND_SFACTOR_ONE);
     (NV097_SET_BLEND_FUNC_SFACTOR_V_SRC_COLOR, NV_PGRAPH_BLEND_SFACTOR_SRC_COLOR);
     (NV097_SET_BLEND_FUNC_SFACTOR_V_ONE_MINUS_SRC_COLOR,
      NV_PGRAPH_BLEND_SFACTOR_ONE_MINUS_SRC_COLOR);
     (NV097_SET_BLEND_FUNC_SFACTOR_V_SRC_ALPHA, NV_PGRAPH_BLEND_SFACTOR_SRC_ALPHA);
     (NV097_SET_BLEND_FUNC_SFACTOR_V_ONE_MINUS_SRC_ALPHA,
      NV_PGRAPH_BLEND_SFACTOR_ONE_MINUS_SRC_ALPHA);
     (NV097_SET_BLEND_FUNC_SFACTOR_V_DST_ALPHA, NV_PGRAPH_BLEND_SFACTOR_DST_ALPHA);
     (NV097_SET_BLEND_FUNC_SFACTOR_V_ONE_MINUS_DST_ALPHA,
      NV_PGRAPH_BLEND_SFACTOR_ONE_MINUS_DST_ALPHA);
     (NV097_SET_BLEND_FUNC_SFACTOR_V_DST_COLOR, NV_PGRAPH_BLEND_SFACTOR_DST_COLOR);
     (NV097_SET_BLEND_FUNC_SFACTOR_V_ONE_MINUS_DST_COLOR,
      NV_PGRAPH_BLEND_SFACTOR_ONE_MINUS_DST_COLOR);
     (NV097_SET_BLEND_FUNC_SFACTOR_V_SRC_ALPHA_SATURATE,
      NV_PGRAPH_BLEND_SFACTOR_SRC_ALPHA_SATURATE);
     (NV097_SET_BLEND_FUNC_SFACTOR_V_CONSTANT_COLOR, NV_PGRAPH_BLEND_SFACTOR_CONSTANT_COLOR);
     (NV097_SET_BLEND_FUNC_SFACTOR_V_ONE_MINUS_CONSTANT_COLOR,
      NV_PGRAPH_BLEND_SFACTOR_ONE_MINUS_CONSTANT_COLOR);
     (NV097_SET_BLEND_FUNC_SFACTOR_V_CONSTANT_ALPHA, NV_PGRAPH_BLEND_SFACTOR_CONSTANT_ALPHA);
     (NV097_SET_BLEND_FUNC_SFACTOR_V_ONE_MINUS_CONSTANT_ALPHA,
      NV_PGRAPH_BLEND_SFACTOR_ONE_MINUS_CONSTANT_ALPHA)] with
  | Some factor => PG_SET_MASK pg NV_PGRAPH_BLEND NV_PGRAPH_BLEND_SFACTOR factor
  | None => pg
  end.

Definition NV097_SET_BLEND_FUNC_DFACTOR_handler (pg : PGRAPHState) (parameter : Z) : PGRAPHState :=
  match assoc parameter
    [(NV097_SET_BLEND_FUNC_DFACTOR_V_ZERO, NV_PGRAPH_BLEND_DFACTOR_ZERO);
     (NV097_SET_BLEND_FUNC_DFACTOR_V_ONE, NV_PGRAPH_BLEND_DFACTOR_ONE);
     (NV097_SET_BLEND_FUNC_DFACTOR_V_SRC_COLOR, NV_PGRAPH_BLEND_DFACTOR_SRC_COLOR);
     (NV097_SET_BLEND_FUNC_DFACTOR_V_ONE_MINUS_SRC_COLOR,
      NV_PGRAPH_BLEND_DFACTOR_ONE_MINUS_SRC_COLOR);
     (NV097_SET_BLEND_FUNC_DFACTOR_V_SRC_ALPHA, NV_PGRAPH_BLEND_DFACTOR_SRC_ALPHA);
     (NV097_SET_BLEND_FUNC_DFACTOR_V_ONE_MINUS_SRC_ALPHA,
      NV_PGRAPH_BLEND_DFACTOR_ONE_MINUS_SRC_ALPHA);
     (NV097_SET_BLEND_FUNC_DFACTOR_V_DST_ALPHA, NV_PGRAPH_BLEND_DFACTOR_DST_ALPHA);
     (NV097_SET_BLEND_FUNC_DFACTOR_V_ONE_MINUS_DST_ALPHA,
      NV_PGRAPH_BLEND_DFACTOR_ONE_MINUS_DST_ALPHA);
     (NV097_SET_BLEND_FUNC_DFACTOR_V_DST_COLOR, NV_PGRAPH_BLEND_DFACTOR_DST_COLOR);
     (NV097_SET_BLEND_FUNC_DFACTOR_V_ONE_MINUS_DST_COLOR,
      NV_PGRAPH_BLEND_DFACTOR_ONE_MINUS_DST_COLOR);
     (NV097_SET_BLEND_FUNC_DFACTOR_V_SRC_ALPHA_SATURATE,
      NV_PGRAPH_BLEND_DFACTOR_SRC_ALPHA_SATURATE);
     (NV097_SET_BLEND_FUNC_DFACTOR_V_CONSTANT_COLOR, NV_PGRAPH_BLEND_DFACTOR_CONSTANT_COLOR);
     (NV097_SET_BLEND_FUNC_DFACTOR_V_ONE_MINUS_CONSTANT_COLOR,
      NV_PGRAPH_BLEND_DFACTOR_ONE_MINUS_CONSTANT_COLOR);
     (NV097_SET_BLEND_FUNC_DFACTOR_V_CONSTANT_ALPHA, NV_PGRAPH_BLEND_DFACTOR_CONSTANT_ALPHA);
     (NV097_SET_BLEND_FUNC_DFACTOR_V_ONE_MINUS_CONSTANT_ALPHA,
      NV_PGRAPH_BLEND_DFACTOR_ONE_MINUS_CONSTANT_ALPHA)] with
  | Some factor => PG_SET_MASK pg NV_PGRAPH_BLEND NV_PGRAPH_BLEND_DFACTOR factor
  | None => pg
  end.

Definition NV097_SET_BLEND_COLOR_handler (pg : PGRAPHState) (parameter : Z) : PGRAPHState :=
  reg_w pg NV_PGRAPH_BLENDCOLOR parameter.

Definition NV097_SET_BLEND_EQUATION_handler (pg : PGRAPHState) (parameter : Z) : PGRAPHState :=
  match assoc parameter
    [(NV097_SET_BLEND_EQUATION_V_FUNC_SUBTRACT, 0);
     (NV097_SET_BLEND_EQUATION_V_FUNC_REVERSE_SUBTRACT, 1);
     (NV097_SET_BLEND_EQUATION_V_FUNC_ADD, 2);
     (NV097_SET_BLEND_EQUATION_V_MIN, 3);
     (NV097_SET_BLEND_EQUATION_V_MAX, 4);
     (NV097_SET_BLEND_EQUATION_V_FUNC_REVERSE_SUBTRACT_SIGNED, 5);
     (NV097_SET_BLEND_EQUATION_V_FUNC_ADD_SIGNED, 6)] with
  | Some equation => PG_SET_MASK pg NV_PGRAPH_BLEND NV_PGRAPH_BLEND_EQN equation
  | None => pg
  end.

Definition NV097_SET_DEPTH_FUNC_handler (pg : PGRAPHState) (parameter : Z) : PGRAPHState :=
  if (0x200 <=? parameter) && (parameter <=? 0x207)
  then PG_SET_MASK pg NV_PGRAPH_CONTROL_0 NV_PGRAPH_CONTROL_0_ZFUNC (Z.land parameter 0xF)
  else pg.

Definition NV097_SET_COLOR_MASK_handler (pg : PGRAPHState) (parameter : Z) : PGRAPHState :=
  let pg := pg <| surface_color ::= fun s =>
    s <| write_enabled_cache := write_enabled_cache s || pgraph_color_write_enabled pg |> |> in
  let pg := PG_SET_MASK pg NV_PGRAPH_CONTROL_0 NV_PGRAPH_CONTROL_0_ALPHA_WRITE_ENABLE
              (bit_of parameter NV097_SET_COLOR_MASK_ALPHA_WRITE_ENABLE) in
  let pg := PG_SET_MASK pg NV_PGRAPH_CONTROL_0 NV_PGRAPH_CONTROL_0_RED_WRITE_ENABLE
              (bit_of parameter NV097_SET_COLOR_MASK_RED_WRITE_ENABLE) in
  let pg := PG_SET_MASK pg NV_PGRAPH_CONTROL_0 NV_PGRAPH_CONTROL_0_GREEN_WRITE_ENABLE
              (bit_of parameter NV097_SET_COLOR_MASK_GREEN_WRITE_ENABLE) in
  PG_SET_MASK pg NV_PGRAPH_CONTROL_0 NV_PGRAPH_CONTROL_0_BLUE_WRITE_ENABLE
    (bit_of parameter NV097_SET_COLOR_MASK_BLUE_WRITE_ENABLE).

Definition NV097_SET_DEPTH_MASK_handler (pg : PGRAPHState) (parameter : Z) : PGRAPHState :=
  let pg := pg <| surface_zeta ::= fun s =>
    s <| write_enabled_cache := write_enabled_cache s || pgraph_zeta_write_enabled pg |> |> in
  PG_SET_MASK pg NV_PGRAPH_CONTROL_0 NV_PGRAPH_CONTROL_0_ZWRITEENABLE parameter.

Definition NV097_SET_STENCIL_MASK_handler (pg : PGRAPHState) (parameter : Z) : PGRAPHState :=
  PG_SET_MASK pg NV_PGRAPH_CONTROL_1 NV_PGRAPH_CONTROL_1_STENCIL_MASK_WRITE parameter.

Definition NV097_SET_STENCIL_FUNC_handler (pg : PGRAPHState) (parameter : Z) : PGRAPHState :=
  PG_SET_MASK pg NV_PGRAPH_CONTROL_1 NV_PGRAPH_CONTROL_1_STENCIL_FUNC (Z.land parameter 0xF).

Definition NV097_SET_STENCIL_FUNC_REF_handler (pg : PGRAPHState) (parameter : Z) : PGRAPHState :=
  PG_SET_MASK pg NV_PGRAPH_CONTROL_1 NV_PGRAPH_CONTROL_1_STENCIL_REF parameter.

Definition NV097_SET_STENCIL_FUNC_MASK_handler (pg : PGRAPHState) (parameter : Z) : PGRAPHState :=
  PG_SET_MASK pg NV_PGRAPH_CONTROL_1 NV_PGRAPH_CONTROL_1_STENCIL_MASK_READ parameter.

Definition kelvin_map_stencil_op (parameter : Z) : res Z :=
  assoc_or_abort parameter
    [(NV097_SET_STENCIL_OP_V_KEEP, NV_PGRAPH_CONTROL_2_STENCIL_OP_V_KEEP);
     (NV097_SET_STENCIL_OP_V_ZERO, NV_PGRAPH_CONTROL_2_STENCIL_OP_V_ZERO);
     (NV097_SET_STENCIL_OP_V_REPLACE, NV_PGRAPH_CONTROL_2_STENCIL_OP_V_REPLACE);
     (NV097_SET_STENCIL_OP_V_INCRSAT, NV_PGRAPH_CONTROL_2_STENCIL_OP_V_INCRSAT);
     (NV097_SET_STENCIL_OP_V_DECRSAT, NV_PGRAPH_CONTROL_2_STENCIL_OP_V_DECRSAT);
     (NV097_SET_STENCIL_OP_V_INVERT, NV_PGRAPH_CONTROL_2_STENCIL_OP_V_INVERT);
     (NV097_SET_STENCIL_OP_V_INCR, NV_PGRAPH_CONTROL_2_STENCIL_OP_V_INCR);
     (NV097_SET_STENCIL_OP_V_DECR, NV_PGRAPH_CONTROL_2_STENCIL_OP_V_DECR)].

Definition NV097_SET_STENCIL_OP_FAIL_handler (pg : PGRAPHState) (parameter : Z)
  : res PGRAPHState :=
  op ← kelvin_map_stencil_op parameter;
  Ok (PG_SET_MASK pg NV_PGRAPH_CONTROL_2 NV_PGRAPH_CONTROL_2_STENCIL_OP_FAIL op).

Definition NV097_SET_STENCIL_OP_ZFAIL_handler (pg : PGRAPHState) (parameter : Z)
  : res PGRAPHState :=
  op ← kelvin_map_stencil_op parameter;
  Ok (PG_SET_MASK pg NV_PGRAPH_CONTROL_2 NV_PGRAPH_CONTROL_2_STENCIL_OP_ZFAIL op).

Definition NV097_SET_STENCIL_OP_ZPASS_handler (pg : PGRAPHState) (parameter : Z)
  : res PGRAPHState :=
  op ← kelvin_map_stencil_op parameter;
  Ok (PG_SET_MASK pg NV_PGRAPH_CONTROL_2 NV_PGRAPH_CONTROL_2_STENCIL_OP_ZPASS op).

Definition NV097_SET_SHADE_MODE_handler (pg : PGRAPHState) (parameter : Z) : PGRAPHState :=
  match assoc parameter
    [(NV097_SET_SHADE_MODE_V_FLAT, NV_PGRAPH_CONTROL_3_SHADEMODE_FLAT);
     (NV097_SET_SHADE_MODE_V_SMOOTH, NV_PGRAPH_CONTROL_3_SHADEMODE_SMOOTH)] with
  | Some mode => PG_SET_MASK pg NV_PGRAPH_CONTROL_3 NV_PGRAPH_CONTROL_3_SHADEMODE mode
  | None => pg
  end.

Definition NV097_SET_PROVOKING_VERTEX_handler (pg : PGRAPHState) (parameter : Z)
  : res PGRAPHState :=
  _ ← c_assert (Z.land parameter (Z.lnot 1) =? 0);
  Ok (PG_SET_MASK pg NV_PGRAPH_CONTROL_3 NV_PGRAPH_CONTROL_3_PROVOKING_VERTEX parameter).

Definition NV097_SET_POLYGON_OFFSET_SCALE_FACTOR_handler (pg : PGRAPHState) (parameter : Z)
  : PGRAPHState :=
  reg_w pg NV_PGRAPH_ZOFFSETFACTOR parameter.

Definition NV097_SET_POLYGON_OFFSET_BIAS_handler (pg : PGRAPHState) (parameter : Z)
  : PGRAPHState :=
  reg_w pg NV_PGRAPH_ZOFFSETBIAS parameter.

Definition kelvin_map_polygon_mode (parameter : Z) : res Z :=
  assoc_or_abort parameter
    [(NV097_SET_FRONT_POLYGON_MODE_V_POINT, NV_PGRAPH_SETUPRASTER_FRONTFACEMODE_POINT);
     (NV097_SET_FRONT_POLYGON_MODE_V_LINE, NV_PGRAPH_SETUPRASTER_FRONTFACEMODE_LINE);
     (NV097_SET_FRONT_POLYGON_MODE_V_FILL, NV_PGRAPH_SETUPRASTER_FRONTFACEMODE_FILL)].

Definition NV097_SET_FRONT_POLYGON_MODE_handler (pg : PGRAPHState) (parameter : Z)
  : res PGRAPHState :=
  mode ← kelvin_map_polygon_mode parameter;
  Ok (PG_SET_MASK pg NV_PGRAPH_SETUPRASTER NV_PGRAPH_SETUPRASTER_FRONTFACEMODE mode).

Definition NV097_SET_BACK_POLYGON_MODE_handler (pg : PGRAPHState) (parameter : Z)
  : res PGRAPHState :=
  mode ← kelvin_map_polygon_mode parameter;
  Ok (PG_SET_MASK pg NV_PGRAPH_SETUPRASTER NV_PGRAPH_SETUPRASTER_BACKFACEMODE mode).

Definition NV097_SET_CLIP_MIN_handler (pg : PGRAPHState) (parameter : Z) : PGRAPHState :=
  reg_w pg NV_PGRAPH_ZCLIPMIN parameter.

Definition NV097_SET_CLIP_MAX_handler (pg : PGRAPHState) (parameter : Z) : PGRAPHState :=
  reg_w pg NV_PGRAPH_ZCLIPMAX parameter.

Definition NV097_SET_CULL_FACE_handler (pg : PGRAPHState) (parameter : Z) : res PGRAPHState :=
  face ← assoc_or_abort parameter
    [(NV097_SET_CULL_FACE_V_FRONT, NV_PGRAPH_SETUPRASTER_CULLCTRL_FRONT);
     (NV097_SET_CULL_FACE_V_BACK, NV_PGRAPH_SETUPRASTER_CULLCTRL_BACK);
     (NV097_SET_CULL_FACE_V_FRONT_AND_BACK, NV_PGRAPH_SETUPRASTER_CULLCTRL_FRONT_AND_BACK)];
  Ok (PG_SET_MASK pg NV_PGRAPH_SETUPRASTER NV_PGRAPH_SETUPRASTER_CULLCTRL face).

Definition NV097_SET_FRONT_FACE_handler (pg : PGRAPHState) (parameter : Z) : PGRAPHState :=
  match assoc parameter
    [(NV097_SET_FRONT_FACE_V_CW, 0); (NV097_SET_FRONT_FACE_V_CCW, 1)] with
  | Some ccw => PG_SET_MASK pg NV_PGRAPH_SETUPRASTER NV_PGRAPH_SETUPRASTER_FRONTFACE ccw
  | None => pg
  end.

Definition NV097_SET_NORMALIZATION_ENABLE_handler (pg : PGRAPHState) (parameter : Z)
  : PGRAPHState :=
  PG_SET_MASK pg NV_PGRAPH_CSV0_C NV_PGRAPH_CSV0_C_NORMALIZATION_ENABLE parameter.

(** ** Transform and lighting *)

Definition NV097_SET_MATERIAL_EMISSION_handler (pg : PGRAPHState) (method parameter : Z)
  : res PGRAPHState :=
  let slot := slot_of method NV097_SET_MATERIAL_EMISSION 4 in
  set_ltctxa pg NV_IGRAPH_XF_LTCTXA_CM_COL slot parameter.

Definition NV097_SET_MATERIAL_ALPHA_handler (pg : PGRAPHState) (parameter : Z) : PGRAPHState :=
  pg <| material_alpha := parameter |>.

Definition NV097_SET_SPECULAR_ENABLE_handler (pg : PGRAPHState) (parameter : Z) : PGRAPHState :=
  PG_SET_MASK pg NV_PGRAPH_CSV0_C NV_PGRAPH_CSV0_C_SPECULAR_ENABLE parameter.

Definition NV097_SET_LIGHT_ENABLE_MASK_handler (pg : PGRAPHState) (parameter : Z) : PGRAPHState :=
  PG_SET_MASK pg NV_PGRAPH_CSV0_D NV_PGRAPH_CSV0_D_LIGHTS parameter.

Definition kelvin_map_texgen (parameter channel : Z) : res Z :=
  _ ← c_assert (channel <? 4);
  switch parameter
    [(NV097_SET_TEXGEN_S_DISABLE, Ok NV_PGRAPH_CSV1_A_T0_S_DISABLE);
     (NV097_SET_TEXGEN_S_EYE_LINEAR, Ok NV_PGRAPH_CSV1_A_T0_S_EYE_LINEAR);
     (NV097_SET_TEXGEN_S_OBJECT_LINEAR, Ok NV_PGRAPH_CSV1_A_T0_S_OBJECT_LINEAR);
     (NV097_SET_TEXGEN_S_SPHERE_MAP,
      _ ← c_assert (channel <? 2); Ok NV_PGRAPH_CSV1_A_T0_S_SPHERE_MAP);
     (NV097_SET_TEXGEN_S_REFLECTION_MAP,
      _ ← c_assert (channel <? 3); Ok NV_PGRAPH_CSV1_A_T0_S_REFLECTION_MAP);
     (NV097_SET_TEXGEN_S_NORMAL_MAP,
      _ ← c_assert (channel <? 3); Ok NV_PGRAPH_CSV1_A_T0_S_NORMAL_MAP)]
    (Fault AssertFail).

(** The generation mode of a coordinate: two textures share a register. *)
Definition set_texgen (pg : PGRAPHState) (slot t1 t0 parameter channel : Z) : res PGRAPHState :=
  let r := if slot <? 2 then NV_PGRAPH_CSV1_A else NV_PGRAPH_CSV1_B in
  let mask := if slot mod 2 =? 0 then t0 else t1 in
  texgen ← kelvin_map_texgen parameter channel;
  Ok (PG_SET_MASK pg r mask texgen).

Definition NV097_SET_TEXGEN_S_handler (pg : PGRAPHState) (method parameter : Z)
  : res PGRAPHState :=
  set_texgen pg (slot_of method NV097_SET_TEXGEN_S 16)
    NV_PGRAPH_CSV1_A_T1_S NV_PGRAPH_CSV1_A_T0_S parameter 0.

Definition NV097_SET_TEXGEN_T_handler (pg : PGRAPHState) (method parameter : Z)
  : res PGRAPHState :=
  set_texgen pg (slot_of method NV097_SET_TEXGEN_T 16)
    NV_PGRAPH_CSV1_A_T1_T NV_PGRAPH_CSV1_A_T0_T parameter 1.

Definition NV097_SET_TEXGEN_R_handler (pg : PGRAPHState) (method parameter : Z)
  : res PGRAPHState :=
  set_texgen pg (slot_of method NV097_SET_TEXGEN_R 16)
    NV_PGRAPH_CSV1_A_T1_R NV_PGRAPH_CSV1_A_T0_R parameter 2.

Definition NV097_SET_TEXGEN_Q_handler (pg : PGRAPHState) (method parameter : Z)
  : res PGRAPHState :=
  set_texgen pg (slot_of method NV097_SET_TEXGEN_Q 16)
    NV_PGRAPH_CSV1_A_T1_Q NV_PGRAPH_CSV1_A_T0_Q parameter 3.

Definition NV097_SET_TEXTURE_MATRIX_ENABLE_handler (pg : PGRAPHState) (method parameter : Z)
  : res PGRAPHState :=
  let slot := slot_of method NV097_SET_TEXTURE_MATRIX_ENABLE 4 in
  l ← aset (texture_matrix_enable pg) slot (negb (parameter =? 0));
  Ok (pg <| texture_matrix_enable := l |>).

Definition NV097_SET_POINT_SIZE_handler (pg : PGRAPHState) (parameter : Z) : PGRAPHState :=
  if NV097_SET_POINT_SIZE_V_MAX <? parameter then pg
  else reg_w pg NV_PGRAPH_POINTSIZE parameter.

Definition NV097_SET_PROJECTION_MATRIX_handler (pg : PGRAPHState) (method parameter : Z)
  : res PGRAPHState :=
  let slot := slot_of method NV097_SET_PROJECTION_MATRIX 4 in
  set_vsh_constant pg (NV_IGRAPH_XF_XFCTX_PMAT0 + slot / 4) (slot mod 4) parameter.

(** A word of one of several 4x4 matrices, eight rows apart. *)
Definition set_matrix_word (pg : PGRAPHState) (base slot parameter : Z) : res PGRAPHState :=
  let matnum := slot / 16 in
  let entry := slot mod 16 in
  set_vsh_constant pg (base + matnum * 8 + entry / 4) (entry mod 4) parameter.

Definition NV097_SET_MODEL_VIEW_MATRIX_handler (pg : PGRAPHState) (method parameter : Z)
  : res PGRAPHState :=
  set_matrix_word pg NV_IGRAPH_XF_XFCTX_MMAT0
    (slot_of method NV097_SET_MODEL_VIEW_MATRIX 4) parameter.

Definition NV097_SET_INVERSE_MODEL_VIEW_MATRIX_handler (pg : PGRAPHState) (method parameter : Z)
  : res PGRAPHState :=
  set_matrix_word pg NV_IGRAPH_XF_XFCTX_IMMAT0
    (slot_of method NV097_SET_INVERSE_MODEL_VIEW_MATRIX 4) parameter.

Definition NV097_SET_COMPOSITE_MATRIX_handler (pg : PGRAPHState) (method parameter : Z)
  : res PGRAPHState :=
  let slot := slot_of method NV097_SET_COMPOSITE_MATRIX 4 in
  set_vsh_constant pg (NV_IGRAPH_XF_XFCTX_CMAT0 + slot / 4) (slot mod 4) parameter.

Definition NV097_SET_TEXTURE_MATRIX_handler (pg : PGRAPHState) (method parameter : Z)
  : res PGRAPHState :=
  set_matrix_word pg NV_IGRAPH_XF_XFCTX_T0MAT (slot_of method NV097_SET_TEXTURE_MATRIX 4) parameter.

Definition NV097_SET_FOG_PARAMS_handler (pg : PGRAPHState) (method parameter : Z)
  : res PGRAPHState :=
  let slot := slot_of method NV097_SET_FOG_PARAMS 4 in
  pg ← (if slot <? 2 then pgraph_reg_w pg (NV_PGRAPH_FOGPARAM0 + slot * 4) parameter else Ok pg);
  set_ltctxa pg NV_IGRAPH_XF_LTCTXA_FOG_K slot parameter.

Definition NV097_SET_TEXGEN_PLANE_S_handler (pg : PGRAPHState) (method parameter : Z)
  : res PGRAPHState :=
  set_matrix_word pg NV_IGRAPH_XF_XFCTX_TG0MAT (slot_of method NV097_SET_TEXGEN_PLANE_S 4) parameter.

Definition NV097_SET_TEXGEN_VIEW_MODEL_handler (pg : PGRAPHState) (parameter : Z) : PGRAPHState :=
  PG_SET_MASK pg NV_PGRAPH_CSV0_D NV_PGRAPH_CSV0_D_TEXGEN_REF parameter.

Definition NV097_SET_FOG_PLANE_handler (pg : PGRAPHState) (method parameter : Z)
  : res PGRAPHState :=
  let slot := slot_of method NV097_SET_FOG_PLANE 4 in
  set_vsh_constant pg NV_IGRAPH_XF_XFCTX_FOG slot parameter.

(** The exponent of the specular highlight, reconstructed from the parameters of the
    curve; the coefficients are the floats of the source. *)
Definition curve_coefficients : list (Z * Z * Z) :=
  [(0x3F80038E, 0xC11D6AEF, 0x425B50FD);
   (0x3F997E38, 0xC052BA05, 0x40F99980);
   (0x410A747F, 0x41E9840B, 0x422E5818);
   (0xC404D3B2, 0x42EACC04, 0x42E24F9C);
   (0xC09534F2, 0x3F9C4D4C, 0x3F9BD27C);
   (0xC2F8DED8, 0x420D9AD9, 0x420DA1E9);
   (0x4B22D9B0, 0x4BA488CA, 0x4B263DCA);
   (0xCC4643AA, 0xCCC6BEE8, 0xCC47396C);
   (0x496D5EE5, 0x49F74CD1, 0x4980C590)].

Definition kCoefficient0StepPoints : list Z :=
  [0xBCB8C314; 0xBED7D3F6; 0xBF2DC04D; 0xBF56C33A; 0xBF76358B; 0xBF7DA350; 0xBF7EAF0D; 0xBF7F1EA0; 0xBF7FE250].

Definition reconstruct_quadratic (c0 : Z) (k : Z * Z * Z) : Z :=
  let '(a, b, c) := k in fadd (fadd a (fmul b c0)) (fmul (fmul c c0) c0).

Definition reconstruct_saturation_growth_rate (c0 : Z) (k : Z * Z * Z) : Z :=
  let '(a, b, c) := k in fdiv (fmul a c0) (fadd b (fmul c c0)).

Definition reconstruct_func_map : list (Z -> Z * Z * Z -> Z) :=
  [reconstruct_quadratic; reconstruct_quadratic; reconstruct_quadratic;
   reconstruct_saturation_growth_rate; reconstruct_saturation_growth_rate;
   reconstruct_saturation_growth_rate;
   reconstruct_quadratic; reconstruct_quadratic; reconstruct_quadratic].

(** The curve of the first step point below the coefficient. *)
Fixpoint reconstruct (c0 : Z) (points : list Z) (funcs : list (Z -> Z * Z * Z -> Z))
    (coefs : list (Z * Z * Z)) : Z :=
  match points, funcs, coefs with
  | p :: points, f :: funcs, k :: coefs =>
      if fgt c0 p then f c0 k else reconstruct c0 points funcs coefs
  | _, _, _ => 0
  end.

Definition reconstruct_specular_power (params : list Z) : res Z :=
  p0 ← aget params 0;
  p1 ← aget params 1;
  p2 ← aget params 2;
  c3 ← aget params 3;
  let power c := reconstruct c kCoefficient0StepPoints reconstruct_func_map curve_coefficients in
  Ok (if fgt p1 0 && flt p2 f_one then fsub p2 (fmul p0 0x40000000)
      else if fgt p0 0 || fgt c3 0 then 0x38D1B717
      else if feq (power p0) 0 || (fgt (power c3) (power p0) && flt p0 0xBDCCCCCD)
      then fmul (power c3) 0x40000000
      else power p0).

Definition NV097_SET_SPECULAR_PARAMS_handler (pg : PGRAPHState) (method parameter : Z)
  : res PGRAPHState :=
  let slot := slot_of method NV097_SET_SPECULAR_PARAMS 4 in
  l ← aset (specular_params pg) slot parameter;
  let pg := pg <| specular_params := l |> in
  if slot =? 5 then
    p ← reconstruct_specular_power l;
    Ok (pg <| specular_power := p |>)
  else Ok pg.

Definition NV097_SET_SCENE_AMBIENT_COLOR_handler (pg : PGRAPHState) (method parameter : Z)
  : res PGRAPHState :=
  let slot := slot_of method NV097_SET_SCENE_AMBIENT_COLOR 4 in
  set_ltctxa pg NV_IGRAPH_XF_LTCTXA_FR_AMB slot parameter.

Definition NV097_SET_VIEWPORT_OFFSET_handler (pg : PGRAPHState) (method parameter : Z)
  : res PGRAPHState :=
  let slot := slot_of method NV097_SET_VIEWPORT_OFFSET 4 in
  set_vsh_constant pg NV_IGRAPH_XF_XFCTX_VPOFF slot parameter.

Definition NV097_SET_POINT_PARAMS_handler (pg : PGRAPHState) (method parameter : Z)
  : res PGRAPHState :=
  let slot := slot_of method NV097_SET_POINT_PARAMS 4 in
  l ← aset (point_params pg) slot parameter;
  Ok (pg <| point_params := l |>).

Definition NV097_SET_EYE_POSITION_handler (pg : PGRAPHState) (method parameter : Z)
  : res PGRAPHState :=
  let slot := slot_of method NV097_SET_EYE_POSITION 4 in
  set_vsh_constant pg NV_IGRAPH_XF_XFCTX_EYEP slot parameter.

Definition NV097_SET_COMBINER_FACTOR0_handler (pg : PGRAPHState) (method parameter : Z)
  : res PGRAPHState :=
  let slot := slot_of method NV097_SET_COMBINER_FACTOR0 4 in
  pgraph_reg_w pg (NV_PGRAPH_COMBINEFACTOR0 + slot * 4) parameter.

Definition NV097_SET_COMBINER_FACTOR1_handler (pg : PGRAPHState) (method parameter : Z)
  : res PGRAPHState :=
  let slot := slot_of method NV097_SET_COMBINER_FACTOR1 4 in
  pgraph_reg_w pg (NV_PGRAPH_COMBINEFACTOR1 + slot * 4) parameter.

Definition NV097_SET_COMBINER_ALPHA_OCW_handler (pg : PGRAPHState) (method parameter : Z)
  : res PGRAPHState :=
  let slot := slot_of method NV097_SET_COMBINER_ALPHA_OCW 4 in
  pgraph_reg_w pg (NV_PGRAPH_COMBINEALPHAO0 + slot * 4) parameter.

Definition NV097_SET_COMBINER_COLOR_ICW_handler (pg : PGRAPHState) (method parameter : Z)
  : res PGRAPHState :=
  let slot := slot_of method NV097_SET_COMBINER_COLOR_ICW 4 in
  pgraph_reg_w pg (NV_PGRAPH_COMBINECOLORI0 + slot * 4) parameter.

Definition NV097_SET_COLOR_KEY_COLOR_handler (pg : PGRAPHState) (method parameter : Z)
  : res PGRAPHState :=
  let slot := slot_of method NV097_SET_COLOR_KEY_COLOR 4 in
  pgraph_reg_w pg (NV_PGRAPH_COLORKEYCOLOR0 + slot * 4) parameter.

Definition NV097_SET_VIEWPORT_SCALE_handler (pg : PGRAPHState) (method parameter : Z)
  : res PGRAPHState :=
  let slot := slot_of method NV097_SET_VIEWPORT_SCALE 4 in
  set_vsh_constant pg NV_IGRAPH_XF_XFCTX_VPSCL slot parameter.

(** ** Vertex programs and their constants *)

Definition NV097_SET_TRANSFORM_PROGRAM_handler (pg : PGRAPHState) (method parameter : Z)
  : res PGRAPHState :=
  let slot := slot_of method NV097_SET_TRANSFORM_PROGRAM 4 in
  let program_load := PG_GET_MASK pg NV_PGRAPH_CHEOPS_OFFSET NV_PGRAPH_CHEOPS_OFFSET_PROG_LD_PTR in
  _ ← c_assert (program_load <? NV2A_MAX_TRANSFORM_PROGRAM_LENGTH);
  rows ← aset2 (program_data pg) program_load (slot mod 4) parameter;
  let pg := pg <| program_data := rows |> <| program_data_dirty := true |> in
  Ok (if slot mod 4 =? 3
      then PG_SET_MASK pg NV_PGRAPH_CHEOPS_OFFSET NV_PGRAPH_CHEOPS_OFFSET_PROG_LD_PTR
             (program_load + 1)
      else pg).

Definition NV097_SET_TRANSFORM_CONSTANT_handler (pg : PGRAPHState) (method parameter : Z)
  : res PGRAPHState :=
  let slot := slot_of method NV097_SET_TRANSFORM_CONSTANT 4 in
  let const_load := PG_GET_MASK pg NV_PGRAPH_CHEOPS_OFFSET NV_PGRAPH_CHEOPS_OFFSET_CONST_LD_PTR in
  _ ← c_assert (const_load <? NV2A_VERTEXSHADER_CONSTANTS);
  row ← aget (vsh_constants pg) const_load;
  old ← aget row (slot mod 4);
  was_dirty ← aget (vsh_constants_dirty pg) const_load;
  dirty ← aset (vsh_constants_dirty pg) const_load (was_dirty || negb (parameter =? old));
  rows ← aset2 (vsh_constants pg) const_load (slot mod 4) parameter;
  let pg := pg <| vsh_constants_dirty := dirty |> <| vsh_constants := rows |> in
  Ok (if slot mod 4 =? 3
      then PG_SET_MASK pg NV_PGRAPH_CHEOPS_OFFSET NV_PGRAPH_CHEOPS_OFFSET_CONST_LD_PTR
             (const_load + 1)
      else pg).

Definition NV097_SET_VERTEX3F_handler (pg : PGRAPHState) (method parameter : Z)
  : res PGRAPHState :=
  let slot := slot_of method NV097_SET_VERTEX3F 4 in
  pg ← set_attribute pg NV2A_VERTEX_ATTR_POSITION [(slot, parameter); (3, f_one)];
  if slot =? 2 then pgraph_finish_inline_buffer_vertex pg else Ok pg.

(** ** Lights *)

Definition NV097_SET_BACK_LIGHT_AMBIENT_COLOR_handler (pg : PGRAPHState) (method parameter : Z)
  : res PGRAPHState :=
  let slot := slot_of method NV097_SET_BACK_LIGHT_AMBIENT_COLOR 4 in
  let part := NV097_SET_BACK_LIGHT_AMBIENT_COLOR / 4 + slot mod 16 in
  let slot := slot / 16 in
  let color base row :=
    (base, base + 8, set_ltctxb pg (row + slot * 6) (part - base / 4) parameter) in
  _ ← c_assert (slot <? 8);
  range_switch (part * 4)
    [color NV097_SET_BACK_LIGHT_AMBIENT_COLOR NV_IGRAPH_XF_LTCTXB_L0_BAMB;
     color NV097_SET_BACK_LIGHT_DIFFUSE_COLOR NV_IGRAPH_XF_LTCTXB_L0_BDIF;
     color NV097_SET_BACK_LIGHT_SPECULAR_COLOR NV_IGRAPH_XF_LTCTXB_L0_BSPC]
    (Fault AssertFail).

Definition NV097_SET_LIGHT_AMBIENT_COLOR_handler (pg : PGRAPHState) (method parameter : Z)
  : res PGRAPHState :=
  let slot := slot_of method NV097_SET_LIGHT_AMBIENT_COLOR 4 in
  let part := NV097_SET_LIGHT_AMBIENT_COLOR / 4 + slot mod 32 in
  let slot := slot / 32 in
  let color base row :=
    (base, base + 8, set_ltctxb pg (row + slot * 6) (part - base / 4) parameter) in
  let spot base size row :=
    (base, base + size, set_ltctxa pg (row + slot * 2) (part - base / 4) parameter) in
  let vector base field (upd : list (list Z) -> PGRAPHState) :=
    (base, base + 8, rows ← aset2 field slot (part - base / 4) parameter; Ok (upd rows)) in
  _ ← c_assert (slot <? 8);
  range_switch (part * 4)
    [color NV097_SET_LIGHT_AMBIENT_COLOR NV_IGRAPH_XF_LTCTXB_L0_AMB;
     color NV097_SET_LIGHT_DIFFUSE_COLOR NV_IGRAPH_XF_LTCTXB_L0_DIF;
     color NV097_SET_LIGHT_SPECULAR_COLOR NV_IGRAPH_XF_LTCTXB_L0_SPC;
     (NV097_SET_LIGHT_LOCAL_RANGE, NV097_SET_LIGHT_LOCAL_RANGE,
      set_ltc1 pg (NV_IGRAPH_XF_LTC1_r0 + slot) 0 parameter);
     vector NV097_SET_LIGHT_INFINITE_HALF_VECTOR (light_infinite_half_vector pg)
       (fun rows => pg <| light_infinite_half_vector := rows |>);
     vector NV097_SET_LIGHT_INFINITE_DIRECTION (light_infinite_direction pg)
       (fun rows => pg <| light_infinite_direction := rows |>);
     spot NV097_SET_LIGHT_SPOT_FALLOFF 8 NV_IGRAPH_XF_LTCTXA_L0_K;
     spot NV097_SET_LIGHT_SPOT_DIRECTION 12 NV_IGRAPH_XF_LTCTXA_L0_SPT;
     vector NV097_SET_LIGHT_LOCAL_POSITION (light_local_position pg)
       (fun rows => pg <| light_local_position := rows |>);
     vector NV097_SET_LIGHT_LOCAL_ATTENUATION (light_local_attenuation pg)
       (fun rows => pg <| light_local_attenuation := rows |>)]
    (Fault AssertFail).

(** ** Immediate-mode vertices *)

Definition NV097_SET_VERTEX4F_handler (pg : PGRAPHState) (method parameter : Z)
  : res PGRAPHState :=
  let slot := slot_of method NV097_SET_VERTEX4F 4 in
  pg ← set_attribute pg NV2A_VERTEX_ATTR_POSITION [(slot, parameter)];
  if slot =? 3 then pgraph_finish_inline_buffer_vertex pg else Ok pg.

Definition NV097_SET_FOG_COORD_handler (pg : PGRAPHState) (parameter : Z) : res PGRAPHState :=
  set_attribute pg NV2A_VERTEX_ATTR_FOG
    [(0, parameter); (1, parameter); (2, parameter); (3, parameter)].

Definition NV097_SET_WEIGHT1F_handler (pg : PGRAPHState) (parameter : Z) : res PGRAPHState :=
  set_attribute pg NV2A_VERTEX_ATTR_WEIGHT [(0, parameter); (1, 0); (2, 0); (3, f_one)].

(** The two halves of the parameter, as [int16_t]. *)
Definition lo_s16 (parameter : Z) : Z := s16 (Z.land parameter 0xFFFF).
Definition hi_s16 (parameter : Z) : Z := s16 (Z.shiftr parameter 16).

Definition NV097_SET_NORMAL3S_handler (pg : PGRAPHState) (method parameter : Z)
  : res PGRAPHState :=
  let part := slot_of method NV097_SET_NORMAL3S 4 mod 2 in
  set_attribute pg NV2A_VERTEX_ATTR_NORMAL
    [(part * 2 + 0, snorm (lo_s16 parameter) 32767); (part * 2 + 1, snorm (hi_s16 parameter) 32767)].

(** [SET_VERTEX_ATTRIBUTE_4S] *)
Definition set_attribute_4s (pg : PGRAPHState) (slot attr_index parameter : Z)
  : res PGRAPHState :=
  let part := slot mod 2 in
  set_attribute pg attr_index
    [(part * 2 + 0, f32_of_Z (lo_s16 parameter)); (part * 2 + 1, f32_of_Z (hi_s16 parameter))].

Definition NV097_SET_TEXCOORD0_4S_handler (pg : PGRAPHState) (method parameter : Z)
  : res PGRAPHState :=
  set_attribute_4s pg (slot_of method NV097_SET_TEXCOORD0_4S 4) NV2A_VERTEX_ATTR_TEXTURE0 parameter.

Definition NV097_SET_TEXCOORD1_4S_handler (pg : PGRAPHState) (method parameter : Z)
  : res PGRAPHState :=
  set_attribute_4s pg (slot_of method NV097_SET_TEXCOORD1_4S 4) NV2A_VERTEX_ATTR_TEXTURE1 parameter.

Definition NV097_SET_TEXCOORD2_4S_handler (pg : PGRAPHState) (method parameter : Z)
  : res PGRAPHState :=
  set_attribute_4s pg (slot_of method NV097_SET_TEXCOORD2_4S 4) NV2A_VERTEX_ATTR_TEXTURE2 parameter.

Definition NV097_SET_TEXCOORD3_4S_handler (pg : PGRAPHState) (method parameter : Z)
  : res PGRAPHState :=
  set_attribute_4s pg (slot_of method NV097_SET_TEXCOORD3_4S 4) NV2A_VERTEX_ATTR_TEXTURE3 parameter.

(** [SET_VERTEX_ATRIBUTE_TEX_2S] *)
Definition set_tex_2s (pg : PGRAPHState) (attr_index parameter : Z) : res PGRAPHState :=
  set_attribute pg attr_index
    [(0, f32_of_Z (lo_s16 parameter)); (1, f32_of_Z (hi_s16 parameter)); (2, 0); (3, f_one)].

Definition NV097_SET_TEXCOORD0_2S_handler (pg : PGRAPHState) (parameter : Z) : res PGRAPHState :=
  set_tex_2s pg NV2A_VERTEX_ATTR_TEXTURE0 parameter.

Definition NV097_SET_TEXCOORD1_2S_handler (pg : PGRAPHState) (parameter : Z) : res PGRAPHState :=
  set_tex_2s pg NV2A_VERTEX_ATTR_TEXTURE1 parameter.

Definition NV097_SET_TEXCOORD2_2S_handler (pg : PGRAPHState) (parameter : Z) : res PGRAPHState :=
  set_tex_2s pg NV2A_VERTEX_ATTR_TEXTURE2 parameter.

Definition NV097_SET_TEXCOORD3_2S_handler (pg : PGRAPHState) (parameter : Z) : res PGRAPHState :=
  set_tex_2s pg NV2A_VERTEX_ATTR_TEXTURE3 parameter.

(** [SET_VERTEX_COLOR_3F] *)
Definition set_color_3f (pg : PGRAPHState) (slot attr_index parameter : Z) : res PGRAPHState :=
  set_attribute pg attr_index [(slot, parameter); (3, f_one)].

Definition NV097_SET_DIFFUSE_COLOR3F_handler (pg : PGRAPHState) (method parameter : Z)
  : res PGRAPHState :=
  set_color_3f pg (slot_of method NV097_SET_DIFFUSE_COLOR3F 4) NV2A_VERTEX_ATTR_DIFFUSE parameter.

Definition NV097_SET_SPECULAR_COLOR3F_handler (pg : PGRAPHState) (method parameter : Z)
  : res PGRAPHState :=
  set_color_3f pg (slot_of method NV097_SET_SPECULAR_COLOR3F 4) NV2A_VERTEX_ATTR_SPECULAR parameter.

(** [SET_VERTEX_ATTRIBUTE_F] *)
Definition set_attribute_f (pg : PGRAPHState) (slot attr_index parameter : Z) : res PGRAPHState :=
  set_attribute pg attr_index [(slot, parameter)].

Definition NV097_SET_NORMAL3F_handler (pg : PGRAPHState) (method parameter : Z)
  : res PGRAPHState :=
  set_attribute_f pg (slot_of method NV097_SET_NORMAL3F 4) NV2A_VERTEX_ATTR_NORMAL parameter.

Definition NV097_SET_DIFFUSE_COLOR4F_handler (pg : PGRAPHState) (method parameter : Z)
  : res PGRAPHState :=
  set_attribute_f pg (slot_of method NV097_SET_DIFFUSE_COLOR4F 4) NV2A_VERTEX_ATTR_DIFFUSE parameter.

Definition NV097_SET_SPECULAR_COLOR4F_handler (pg : PGRAPHState) (method parameter : Z)
  : res PGRAPHState :=
  set_attribute_f pg (slot_of method NV097_SET_SPECULAR_COLOR4F 4) NV2A_VERTEX_ATTR_SPECULAR parameter.

Definition NV097_SET_TEXCOORD0_4F_handler (pg : PGRAPHState) (method parameter : Z)
  : res PGRAPHState :=
  set_attribute_f pg (slot_of method NV097_SET_TEXCOORD0_4F 4) NV2A_VERTEX_ATTR_TEXTURE0 parameter.

Definition NV097_SET_TEXCOORD1_4F_handler (pg : PGRAPHState) (method parameter : Z)
  : res PGRAPHState :=
  set_attribute_f pg (slot_of method NV097_SET_TEXCOORD1_4F 4) NV2A_VERTEX_ATTR_TEXTURE1 parameter.

Definition NV097_SET_TEXCOORD2_4F_handler (pg : PGRAPHState) (method parameter : Z)
  : res PGRAPHState :=
  set_attribute_f pg (slot_of method NV097_SET_TEXCOORD2_4F 4) NV2A_VERTEX_ATTR_TEXTURE2 parameter.

Definition NV097_SET_TEXCOORD3_4F_handler (pg : PGRAPHState) (method parameter : Z)
  : res PGRAPHState :=
  set_attribute_f pg (slot_of method NV097_SET_TEXCOORD3_4F 4) NV2A_VERTEX_ATTR_TEXTURE3 parameter.

Definition NV097_SET_WEIGHT4F_handler (pg : PGRAPHState) (method parameter : Z)
  : res PGRAPHState :=
  set_attribute_f pg (slot_of method NV097_SET_WEIGHT4F 4) NV2A_VERTEX_ATTR_WEIGHT parameter.

Definition NV097_SET_WEIGHT2F_handler (pg : PGRAPHState) (method parameter : Z)
  : res PGRAPHState :=
  let slot := slot_of method NV097_SET_WEIGHT2F 4 in
  set_attribute pg NV2A_VERTEX_ATTR_WEIGHT [(slot, parameter); (2, 0); (3, f_one)].

Definition NV097_SET_WEIGHT3F_handler (pg : PGRAPHState) (method parameter : Z)
  : res PGRAPHState :=
  let slot := slot_of method NV097_SET_WEIGHT3F 4 in
  set_attribute pg NV2A_VERTEX_ATTR_WEIGHT [(slot, parameter); (3, f_one)].

(** [SET_VERTEX_ATRIBUTE_TEX_2F] *)
Definition set_tex_2f (pg : PGRAPHState) (slot attr_index parameter : Z) : res PGRAPHState :=
  set_attribute pg attr_index [(slot, parameter); (2, 0); (3, f_one)].

Definition NV097_SET_TEXCOORD0_2F_handler (pg : PGRAPHState) (method parameter : Z)
  : res PGRAPHState :=
  set_tex_2f pg (slot_of method NV097_SET_TEXCOORD0_2F 4) NV2A_VERTEX_ATTR_TEXTURE0 parameter.

Definition NV097_SET_TEXCOORD1_2F_handler (pg : PGRAPHState) (method parameter : Z)
  : res PGRAPHState :=
  set_tex_2f pg (slot_of method NV097_SET_TEXCOORD1_2F 4) NV2A_VERTEX_ATTR_TEXTURE1 parameter.

Definition NV097_SET_TEXCOORD2_2F_handler (pg : PGRAPHState) (method parameter : Z)
  : res PGRAPHState :=
  set_tex_2f pg (slot_of method NV097_SET_TEXCOORD2_2F 4) NV2A_VERTEX_ATTR_TEXTURE2 parameter.

Definition NV097_SET_TEXCOORD3_2F_handler (pg : PGRAPHState) (method parameter : Z)
  : res PGRAPHState :=
  set_tex_2f pg (slot_of method NV097_SET_TEXCOORD3_2F 4) NV2A_VERTEX_ATTR_TEXTURE3 parameter.

(** [SET_VERTEX_ATTRIBUTE_4UB] *)
Definition channel_8 (parameter i : Z) : Z := Z.land (Z.shiftr parameter (8 * i)) 0xFF.
Definition set_attribute_4ub (pg : PGRAPHState) (attr_index parameter : Z) : res PGRAPHState :=
  set_attribute pg attr_index
    ((fun i => (i, unorm (channel_8 parameter i) 255)) <$> [0; 1; 2; 3]).

Definition NV097_SET_DIFFUSE_COLOR4UB_handler (pg : PGRAPHState) (parameter : Z)
  : res PGRAPHState :=
  set_attribute_4ub pg NV2A_VERTEX_ATTR_DIFFUSE parameter.

Definition NV097_SET_SPECULAR_COLOR4UB_handler (pg : PGRAPHState) (parameter : Z)
  : res PGRAPHState :=
  set_attribute_4ub pg NV2A_VERTEX_ATTR_SPECULAR parameter.

(** ** Vertex arrays *)

Definition NV097_SET_VERTEX_DATA_ARRAY_FORMAT_handler (pg : PGRAPHState) (method parameter : Z)
  : res PGRAPHState :=
  let slot := slot_of method NV097_SET_VERTEX_DATA_ARRAY_FORMAT 4 in
  let format := GET_MASK parameter NV097_SET_VERTEX_DATA_ARRAY_FORMAT_TYPE in
  let count := GET_MASK parameter NV097_SET_VERTEX_DATA_ARRAY_FORMAT_SIZE in
  let stride := GET_MASK parameter NV097_SET_VERTEX_DATA_ARRAY_FORMAT_STRIDE in
  pg ← on_attr pg slot (fun attr =>
    size ← switch format
      [(NV097_SET_VERTEX_DATA_ARRAY_FORMAT_TYPE_UB_D3D, _ ← c_assert (count =? 4); Ok 1);
       (NV097_SET_VERTEX_DATA_ARRAY_FORMAT_TYPE_UB_OGL, Ok 1);
       (NV097_SET_VERTEX_DATA_ARRAY_FORMAT_TYPE_S1, Ok 2);
       (NV097_SET_VERTEX_DATA_ARRAY_FORMAT_TYPE_F, Ok 4);
       (NV097_SET_VERTEX_DATA_ARRAY_FORMAT_TYPE_S32K, Ok 2);
       (NV097_SET_VERTEX_DATA_ARRAY_FORMAT_TYPE_CMP, _ ← c_assert (count =? 1); Ok 4)]
      (Fault AssertFail);
    Ok (attr <| attr_format := format |> <| attr_count := count |> <| attr_stride := stride |>
             <| attr_size := size |>));
  let bit := Z.shiftl 1 slot in
  Ok (pg <| compressed_attrs :=
        if format =? NV097_SET_VERTEX_DATA_ARRAY_FORMAT_TYPE_CMP
        then u16 (Z.lor (compressed_attrs pg) bit)
        else u16 (Z.land (compressed_attrs pg) (Z.lnot bit)) |>).

Definition NV097_SET_VERTEX_DATA_ARRAY_OFFSET_handler (pg : PGRAPHState) (method parameter : Z)
  : res PGRAPHState :=
  let slot := slot_of method NV097_SET_VERTEX_DATA_ARRAY_OFFSET 4 in
  on_attr pg slot (fun attr =>
    Ok (attr <| dma_select := tst parameter 0x80000000 |>
             <| attr_offset := Z.land parameter 0x7fffffff |>)).

Definition NV097_SET_LOGIC_OP_ENABLE_handler (pg : PGRAPHState) (parameter : Z) : PGRAPHState :=
  PG_SET_MASK pg NV_PGRAPH_BLEND NV_PGRAPH_BLEND_LOGICOP_ENABLE parameter.

Definition NV097_SET_LOGIC_OP_handler (pg : PGRAPHState) (parameter : Z) : PGRAPHState :=
  PG_SET_MASK pg NV_PGRAPH_BLEND NV_PGRAPH_BLEND_LOGICOP (Z.land parameter 0xF).

(** ** Reports, batches and textures *)

Definition NV097_CLEAR_REPORT_VALUE_handler d (parameter : Z) : res (NV2AState X) :=
  ops ClearReportValue d.

Definition NV097_SET_ZPASS_PIXEL_COUNT_ENABLE_handler (pg : PGRAPHState) (parameter : Z)
  : PGRAPHState :=
  pg <| zpass_pixel_count_enable := negb (parameter =? 0) |>.

Definition NV097_GET_REPORT_handler d (parameter : Z) : res (NV2AState X) :=
  let type := u8 (GET_MASK parameter NV097_GET_REPORT_TYPE) in
  _ ← c_assert (type =? NV097_GET_REPORT_TYPE_ZPASS_PIXEL_CNT);
  ops (GetReport parameter) d.

Definition NV097_SET_EYE_DIRECTION_handler (pg : PGRAPHState) (method parameter : Z)
  : res PGRAPHState :=
  let slot := slot_of method NV097_SET_EYE_DIRECTION 4 in
  set_ltctxa pg NV_IGRAPH_XF_LTCTXA_EYED slot parameter.

(** [PRIM_TYPE_INVALID] is the first of the primitive types. *)
Definition PRIM_TYPE_INVALID : Z := 0.

Definition NV097_SET_BEGIN_END_handler d (parameter : Z) : res (NV2AState X) :=
  let invalid := primitive_mode (pgraph d) =? PRIM_TYPE_INVALID in
  if parameter =? NV097_SET_BEGIN_END_OP_END then
    if invalid then Ok (d <| pgraph ::= pgraph_reset_inline_buffers |>)
    else
      d ← ops DrawEnd d;
      Ok (d <| pgraph ::= fun pg =>
            (pgraph_reset_inline_buffers pg) <| primitive_mode := PRIM_TYPE_INVALID |> |>)
  else if negb invalid then Ok d
  else
    _ ← c_assert (parameter <=? NV097_SET_BEGIN_END_OP_POLYGON);
    ops DrawBegin (d <| pgraph ::= fun pg =>
      pgraph_reset_inline_buffers (pg <| primitive_mode := parameter |>) |>).

(** [texture_dirty[slot] = true] *)
Definition touch_texture (pg : PGRAPHState) (slot : Z) : res PGRAPHState :=
  l ← aset (texture_dirty pg) slot true;
  Ok (pg <| texture_dirty := l |>).

Definition NV097_SET_TEXTURE_OFFSET_handler (pg : PGRAPHState) (method parameter : Z)
  : res PGRAPHState :=
  let slot := slot_of method NV097_SET_TEXTURE_OFFSET 64 in
  pg ← pgraph_reg_w pg (NV_PGRAPH_TEXOFFSET0 + slot * 4) parameter;
  touch_texture pg slot.

Definition NV097_SET_TEXTURE_FORMAT_handler (pg : PGRAPHState) (method parameter : Z)
  : res PGRAPHState :=
  let slot := slot_of method NV097_SET_TEXTURE_FORMAT 64 in
  let field m := GET_MASK parameter m in
  let r := NV_PGRAPH_TEXFMT0 + slot * 4 in
  pg ← res_foldl (fun pg '(mask, v) => pg_set_mask pg r mask v) pg
    [(NV_PGRAPH_TEXFMT0_CONTEXT_DMA, Z.b2z (field NV097_SET_TEXTURE_FORMAT_CONTEXT_DMA =? 2));
     (NV_PGRAPH_TEXFMT0_CUBEMAPENABLE,
      Z.b2z (negb (field NV097_SET_TEXTURE_FORMAT_CUBEMAP_ENABLE =? 0)));
     (NV_PGRAPH_TEXFMT0_BORDER_SOURCE, field NV097_SET_TEXTURE_FORMAT_BORDER_SOURCE);
     (NV_PGRAPH_TEXFMT0_DIMENSIONALITY, field NV097_SET_TEXTURE_FORMAT_DIMENSIONALITY);
     (NV_PGRAPH_TEXFMT0_COLOR, field NV097_SET_TEXTURE_FORMAT_COLOR);
     (NV_PGRAPH_TEXFMT0_MIPMAP_LEVELS, field NV097_SET_TEXTURE_FORMAT_MIPMAP_LEVELS);
     (NV_PGRAPH_TEXFMT0_BASE_SIZE_U, field NV097_SET_TEXTURE_FORMAT_BASE_SIZE_U);
     (NV_PGRAPH_TEXFMT0_BASE_SIZE_V, field NV097_SET_TEXTURE_FORMAT_BASE_SIZE_V);
     (NV_PGRAPH_TEXFMT0_BASE_SIZE_P, field NV097_SET_TEXTURE_FORMAT_BASE_SIZE_P)];
  touch_texture pg slot.

Definition NV097_SET_TEXTURE_CONTROL0_handler (pg : PGRAPHState) (method parameter : Z)
  : res PGRAPHState :=
  let slot := slot_of method NV097_SET_TEXTURE_CONTROL0 64 in
  pg ← pgraph_reg_w pg (NV_PGRAPH_TEXCTL0_0 + slot * 4) parameter;
  touch_texture pg slot.

Definition NV097_SET_TEXTURE_CONTROL1_handler (pg : PGRAPHState) (method parameter : Z)
  : res PGRAPHState :=
  let slot := slot_of method NV097_SET_TEXTURE_CONTROL1 64 in
  pg ← pgraph_reg_w pg (NV_PGRAPH_TEXCTL1_0 + slot * 4) parameter;
  touch_texture pg slot.

Definition NV097_SET_TEXTURE_FILTER_handler (pg : PGRAPHState) (method parameter : Z)
  : res PGRAPHState :=
  let slot := slot_of method NV097_SET_TEXTURE_FILTER 64 in
  pg ← pgraph_reg_w pg (NV_PGRAPH_TEXFILTER0 + slot * 4) parameter;
  touch_texture pg slot.

Definition NV097_SET_TEXTURE_IMAGE_RECT_handler (pg : PGRAPHState) (method parameter : Z)
  : res PGRAPHState :=
  let slot := slot_of method NV097_SET_TEXTURE_IMAGE_RECT 64 in
  pg ← pgraph_reg_w pg (NV_PGRAPH_TEXIMAGERECT0 + slot * 4) parameter;
  touch_texture pg slot.

Definition NV097_SET_TEXTURE_PALETTE_handler (pg : PGRAPHState) (method parameter : Z)
  : res PGRAPHState :=
  let slot := slot_of method NV097_SET_TEXTURE_PALETTE 64 in
  let field m := GET_MASK parameter m in
  let r := NV_PGRAPH_TEXPALETTE0 + slot * 4 in
  pg ← res_foldl (fun pg '(mask, v) => pg_set_mask pg r mask v) pg
    [(NV_PGRAPH_TEXPALETTE0_CONTEXT_DMA, Z.b2z (field NV097_SET_TEXTURE_PALETTE_CONTEXT_DMA =? 1));
     (NV_PGRAPH_TEXPALETTE0_LENGTH, field NV097_SET_TEXTURE_PALETTE_LENGTH);
     (NV_PGRAPH_TEXPALETTE0_OFFSET, field NV097_SET_TEXTURE_PALETTE_OFFSET)];
  touch_texture pg slot.

Definition NV097_SET_TEXTURE_BORDER_COLOR_handler (pg : PGRAPHState) (method parameter : Z)
  : res PGRAPHState :=
  let slot := slot_of method NV097_SET_TEXTURE_BORDER_COLOR 64 in
  pgraph_reg_w pg (NV_PGRAPH_BORDERCOLOR0 + slot * 4) parameter.

Definition NV097_SET_TEXTURE_SET_BUMP_ENV_MAT_handler (pg : PGRAPHState) (method parameter : Z)
  : res PGRAPHState :=
  let slot := slot_of method NV097_SET_TEXTURE_SET_BUMP_ENV_MAT 4 in
  if slot <? 16 then Ok pg
  else
    let slot := slot - 16 in
    r ← aget [NV_PGRAPH_BUMPMAT00; NV_PGRAPH_BUMPMAT01; NV_PGRAPH_BUMPMAT11; NV_PGRAPH_BUMPMAT10]
          (slot mod 4);
    pgraph_reg_w pg (r + slot / 4) parameter.

Definition NV097_SET_TEXTURE_SET_BUMP_ENV_SCALE_handler (pg : PGRAPHState) (method parameter : Z)
  : res PGRAPHState :=
  let slot := slot_of method NV097_SET_TEXTURE_SET_BUMP_ENV_SCALE 64 in
  if slot =? 0 then Ok pg
  else pgraph_reg_w pg (NV_PGRAPH_BUMPSCALE1 + (slot - 1) * 4) parameter.

Definition NV097_SET_TEXTURE_SET_BUMP_ENV_OFFSET_handler (pg : PGRAPHState) (method parameter : Z)
  : res PGRAPHState :=
  let slot := slot_of method NV097_SET_TEXTURE_SET_BUMP_ENV_OFFSET 64 in
  if slot =? 0 then Ok pg
  else pgraph_reg_w pg (NV_PGRAPH_BUMPOFFSET1 + (slot - 1) * 4) parameter.

(** ** Indices of a batch *)

(** [inline_elements[inline_elements_length++] = v] *)
Definition push_element (pg : PGRAPHState) (v : Z) : res PGRAPHState :=
  let n := inline_elements_length pg in
  l ← reg_write NV2A_MAX_BATCH_LENGTH (inline_elements pg) n v;
  Ok (pg <| inline_elements := l |> <| inline_elements_length := u32 (n + 1) |>).
Definition push_range (pg : PGRAPHState) (start count : Z) : res PGRAPHState :=
  res_foldl (fun pg i => push_element pg (u32 (start + i))) pg (zseq count).

(** The draw calls squashed before are rendered. *)
Definition flush_squashed d : res (NV2AState X) :=
  if 1 <? draw_arrays_length (pgraph d) then
    d ← ops FlushDraw d;
    Ok (d <| pgraph ::= pgraph_reset_inline_buffers |>)
  else Ok d.

(** The vertices of a range become elements. *)
Definition expand_range (pg : PGRAPHState) (start count : Z) : res PGRAPHState :=
  _ ← c_assert (u32 (inline_elements_length pg + count) <? NV2A_MAX_BATCH_LENGTH);
  pg ← push_range pg start count;
  Ok (pgraph_reset_draw_arrays pg).

Definition pgraph_expand_draw_arrays d : res (NV2AState X) :=
  let last := u32 (draw_arrays_length (pgraph d) - 1) in
  start ← reg_read 1250 (draw_arrays_start (pgraph d)) last;
  count ← reg_read 1250 (draw_arrays_count (pgraph d)) last;
  d ← flush_squashed d;
  pg ← expand_range (pgraph d) (u32 start) (u32 count);
  Ok (d <| pgraph := pg |>).

(** The draw calls there are become elements too. *)
Definition expand_if_drawn d : res (NV2AState X) :=
  if negb (draw_arrays_length (pgraph d) =? 0) then pgraph_expand_draw_arrays d else Ok d.

Definition NV097_ARRAY_ELEMENT16_handler d (parameter : Z) : res (NV2AState X) :=
  d ← expand_if_drawn d;
  let pg := pgraph d in
  _ ← c_assert (inline_elements_length pg <? NV2A_MAX_BATCH_LENGTH);
  pg ← push_element pg (Z.land parameter 0xFFFF);
  pg ← push_element pg (Z.shiftr parameter 16);
  Ok (d <| pgraph := pg |>).

Definition NV097_ARRAY_ELEMENT32_handler d (parameter : Z) : res (NV2AState X) :=
  d ← expand_if_drawn d;
  let pg := pgraph d in
  _ ← c_assert (inline_elements_length pg <? NV2A_MAX_BATCH_LENGTH);
  pg ← push_element pg parameter;
  Ok (d <| pgraph := pg |>).

(** The range of the last call, if the new one continues it. *)
Definition connect_draw (pg : PGRAPHState) (start count : Z) : res (option PGRAPHState) :=
  if negb (draw_arrays_prevent_connect pg) && (0 <? draw_arrays_length pg) then
    let last := draw_arrays_length pg - 1 in
    last_start ← reg_read 1250 (draw_arrays_start pg) last;
    last_count ← reg_read 1250 (draw_arrays_count pg) last;
    if start =? u32 (last_start + last_count) then
      counts ← reg_write 1250 (draw_arrays_count pg) last (s32 (last_count + count));
      Ok (Some (pg <| draw_arrays_count := counts |>))
    else Ok None
  else Ok None.

Definition NV097_DRAW_ARRAYS_handler (pg : PGRAPHState) (parameter : Z) : res PGRAPHState :=
  let start := GET_MASK parameter NV097_DRAW_ARRAYS_START_INDEX in
  let count := GET_MASK parameter NV097_DRAW_ARRAYS_COUNT + 1 in
  if negb (inline_elements_length pg =? 0) then
    _ ← c_assert (u32 (inline_elements_length pg + count) <? NV2A_MAX_BATCH_LENGTH);
    _ ← c_assert (negb (draw_arrays_prevent_connect pg));
    push_range pg start count
  else
    let pg := pg <| draw_arrays_min_start := Z.min (draw_arrays_min_start pg) start |>
                 <| draw_arrays_max_count := Z.max (draw_arrays_max_count pg) (start + count) |> in
    _ ← c_assert (draw_arrays_length pg <? 1250);
    connected ← connect_draw pg start count;
    match connected with
    | Some pg => Ok pg
    | None =>
        let n := draw_arrays_length pg in
        starts ← reg_write 1250 (draw_arrays_start pg) n start;
        counts ← reg_write 1250 (draw_arrays_count pg) n count;
        Ok (pg <| draw_arrays_start := starts |> <| draw_arrays_count := counts |>
               <| draw_arrays_length := n + 1 |> <| draw_arrays_prevent_connect := false |>)
    end.

Definition NV097_INLINE_ARRAY_handler (pg : PGRAPHState) (parameter : Z) : res PGRAPHState :=
  let n := inline_array_length pg in
  _ ← c_assert (n <? NV2A_MAX_BATCH_LENGTH);
  l ← reg_write NV2A_MAX_BATCH_LENGTH (inline_array pg) n parameter;
  Ok (pg <| inline_array := l |> <| inline_array_length := n + 1 |>).

Definition NV097_SET_EYE_VECTOR_handler (pg : PGRAPHState) (method parameter : Z)
  : res PGRAPHState :=
  let slot := slot_of method NV097_SET_EYE_VECTOR 4 in
  pgraph_reg_w pg (NV_PGRAPH_EYEVEC0 + slot * 4) parameter.

(** ** Vertex data by attribute number; the position emits the vertex *)

Definition NV097_SET_VERTEX_DATA2F_M_handler (pg : PGRAPHState) (method parameter : Z)
  : res PGRAPHState :=
  let slot := slot_of method NV097_SET_VERTEX_DATA2F_M 4 in
  let part := slot mod 2 in
  let slot := slot / 2 in
  pg ← set_attribute pg slot [(part, parameter); (2, 0); (3, f_one)];
  if (slot =? 0) && (part =? 1) then pgraph_finish_inline_buffer_vertex pg else Ok pg.

Definition NV097_SET_VERTEX_DATA4F_M_handler (pg : PGRAPHState) (method parameter : Z)
  : res PGRAPHState :=
  let slot := slot_of method NV097_SET_VERTEX_DATA4F_M 4 in
  let part := slot mod 4 in
  let slot := slot / 4 in
  pg ← set_attribute pg slot [(part, parameter)];
  if (slot =? 0) && (part =? 3) then pgraph_finish_inline_buffer_vertex pg else Ok pg.

Definition NV097_SET_VERTEX_DATA2S_handler (pg : PGRAPHState) (method parameter : Z)
  : res PGRAPHState :=
  let slot := slot_of method NV097_SET_VERTEX_DATA2S 4 in
  pg ← set_attribute pg slot
         [(0, f32_of_Z (lo_s16 parameter)); (1, f32_of_Z (hi_s16 parameter)); (2, 0); (3, f_one)];
  if slot =? 0 then pgraph_finish_inline_buffer_vertex pg else Ok pg.

Definition NV097_SET_VERTEX_DATA4UB_handler (pg : PGRAPHState) (method parameter : Z)
  : res PGRAPHState :=
  let slot := slot_of method NV097_SET_VERTEX_DATA4UB 4 in
  pg ← set_attribute pg slot
         ((fun i => (i, fdiv_double (channel_8 parameter i) 255)) <$> [0; 1; 2; 3]);
  if slot =? 0 then pgraph_finish_inline_buffer_vertex pg else Ok pg.

Definition NV097_SET_VERTEX_DATA4S_M_handler (pg : PGRAPHState) (method parameter : Z)
  : res PGRAPHState :=
  let slot := slot_of method NV097_SET_VERTEX_DATA4S_M 4 in
  let part := slot mod 2 in
  let slot := slot / 2 in
  pg ← set_attribute pg slot
         [(part * 2 + 0, f32_of_Z (lo_s16 parameter)); (part * 2 + 1, f32_of_Z (hi_s16 parameter))];
  if (slot =? 0) && (part =? 1) then pgraph_finish_inline_buffer_vertex pg else Ok pg.

Definition NV097_SET_SEMAPHORE_OFFSET_handler (pg : PGRAPHState) (parameter : Z) : PGRAPHState :=
  reg_w pg NV_PGRAPH_SEMAPHOREOFFSET parameter.

(** ** Semaphores, clearing and the remaining state *)

Definition NV097_BACK_END_WRITE_SEMAPHORE_RELEASE_handler d (parameter : Z)
  : res (NV2AState X) :=
  d ← surface_update d;
  let pg := pgraph d in
  let semaphore_offset := reg (regs_ pg) NV_PGRAPH_SEMAPHOREOFFSET in
  '(semaphore_data, semaphore_dma_len) ← nv_dma_map d (dma_semaphore pg);
  _ ← c_assert (semaphore_offset <? semaphore_dma_len);
  m ← st_le (vram d) 4 (semaphore_data + semaphore_offset) parameter;
  Ok (d <| vram := m |>).

Definition NV097_SET_ZMIN_MAX_CONTROL_handler (pg : PGRAPHState) (parameter : Z)
  : res PGRAPHState :=
  mode ← assoc_or_abort (GET_MASK parameter NV097_SET_ZMIN_MAX_CONTROL_ZCLAMP_EN)
    [(NV097_SET_ZMIN_MAX_CONTROL_ZCLAMP_EN_CULL, NV_PGRAPH_ZCOMPRESSOCCLUDE_ZCLAMP_EN_CULL);
     (NV097_SET_ZMIN_MAX_CONTROL_ZCLAMP_EN_CLAMP, NV_PGRAPH_ZCOMPRESSOCCLUDE_ZCLAMP_EN_CLAMP)];
  Ok (PG_SET_MASK pg NV_PGRAPH_ZCOMPRESSOCCLUDE NV_PGRAPH_ZCOMPRESSOCCLUDE_ZCLAMP_EN mode).

Definition NV097_SET_ANTI_ALIASING_CONTROL_handler (pg : PGRAPHState) (parameter : Z)
  : PGRAPHState :=
  PG_SET_MASK pg NV_PGRAPH_ANTIALIASING NV_PGRAPH_ANTIALIASING_ENABLE
    (GET_MASK parameter NV097_SET_ANTI_ALIASING_CONTROL_ENABLE).

Definition NV097_SET_ZSTENCIL_CLEAR_VALUE_handler (pg : PGRAPHState) (parameter : Z)
  : PGRAPHState :=
  reg_w pg NV_PGRAPH_ZSTENCILCLEARVALUE parameter.

Definition NV097_SET_COLOR_CLEAR_VALUE_handler (pg : PGRAPHState) (parameter : Z) : PGRAPHState :=
  reg_w pg NV_PGRAPH_COLORCLEARVALUE parameter.

Definition NV097_CLEAR_SURFACE_handler d (parameter : Z) : res (NV2AState X) :=
  ops (ClearSurface parameter) d.

Definition NV097_SET_CLEAR_RECT_HORIZONTAL_handler (pg : PGRAPHState) (parameter : Z)
  : PGRAPHState :=
  reg_w pg NV_PGRAPH_CLEARRECTX parameter.

Definition NV097_SET_CLEAR_RECT_VERTICAL_handler (pg : PGRAPHState) (parameter : Z)
  : PGRAPHState :=
  reg_w pg NV_PGRAPH_CLEARRECTY parameter.

Definition NV097_SET_SPECULAR_FOG_FACTOR_handler (pg : PGRAPHState) (method parameter : Z)
  : res PGRAPHState :=
  let slot := slot_of method NV097_SET_SPECULAR_FOG_FACTOR 4 in
  pgraph_reg_w pg (NV_PGRAPH_SPECFOGFACTOR0 + slot * 4) parameter.

Definition NV097_SET_SPECULAR_PARAMS_BACK_handler (pg : PGRAPHState) (method parameter : Z)
  : res PGRAPHState :=
  let slot := slot_of method NV097_SET_SPECULAR_PARAMS_BACK 4 in
  l ← aset (specular_params_back pg) slot parameter;
  let pg := pg <| specular_params_back := l |> in
  if slot =? 5 then
    p ← reconstruct_specular_power l;
    Ok (pg <| specular_power_back := p |>)
  else Ok pg.

Definition NV097_SET_SHADER_CLIP_PLANE_MODE_handler (pg : PGRAPHState) (parameter : Z)
  : PGRAPHState :=
  reg_w pg NV_PGRAPH_SHADERCLIPMODE parameter.

Definition NV097_SET_COMBINER_COLOR_OCW_handler (pg : PGRAPHState) (method parameter : Z)
  : res PGRAPHState :=
  let slot := slot_of method NV097_SET_COMBINER_COLOR_OCW 4 in
  pgraph_reg_w pg (NV_PGRAPH_COMBINECOLORO0 + slot * 4) parameter.

Definition NV097_SET_COMBINER_CONTROL_handler (pg : PGRAPHState) (parameter : Z) : PGRAPHState :=
  reg_w pg NV_PGRAPH_COMBINECTL parameter.

Definition NV097_SET_SHADOW_ZSLOPE_THRESHOLD_handler (pg : PGRAPHState) (parameter : Z)
  : res PGRAPHState :=
  let pg := reg_w pg NV_PGRAPH_SHADOWZSLOPETHRESHOLD parameter in
  _ ← c_assert (parameter =? 0x7F800000);
  Ok pg.

Definition NV097_SET_SHADOW_DEPTH_FUNC_handler (pg : PGRAPHState) (parameter : Z) : PGRAPHState :=
  PG_SET_MASK pg NV_PGRAPH_SHADOWCTL NV_PGRAPH_SHADOWCTL_SHADOW_ZFUNC parameter.

Definition NV097_SET_SHADER_STAGE_PROGRAM_handler (pg : PGRAPHState) (parameter : Z)
  : PGRAPHState :=
  reg_w pg NV_PGRAPH_SHADERPROG parameter.

Definition NV097_SET_DOT_RGBMAPPING_handler (pg : PGRAPHState) (parameter : Z) : PGRAPHState :=
  PG_SET_MASK pg NV_PGRAPH_SHADERCTL 0xFFF (GET_MASK parameter 0xFFF).

Definition NV097_SET_SHADER_OTHER_STAGE_INPUT_handler (pg : PGRAPHState) (parameter : Z)
  : PGRAPHState :=
  PG_SET_MASK pg NV_PGRAPH_SHADERCTL 0xFFFF000 (GET_MASK parameter 0xFFFF000).

Definition NV097_SET_TRANSFORM_DATA_handler (pg : PGRAPHState) (method parameter : Z)
  : res PGRAPHState :=
  let slot := slot_of method NV097_SET_TRANSFORM_DATA 4 in
  l ← aset (vertex_state_shader_v0 pg) slot parameter;
  Ok (pg <| vertex_state_shader_v0 := l |>).

Definition NV097_LAUNCH_TRANSFORM_PROGRAM_handler `{VshEmu} (pg : PGRAPHState) (parameter : Z)
  : res PGRAPHState :=
  _ ← c_assert (parameter <? NV2A_MAX_TRANSFORM_PROGRAM_LENGTH);
  match nv2a_vsh_parse_program (drop (Z.to_nat parameter) (program_data pg)) with
  | None => Fault AssertFail
  | Some program =>
      let '(constants, dirty) := nv2a_vsh_emu_execute program (vertex_state_shader_v0 pg)
                                   (vsh_constants pg) (vsh_constants_dirty pg) in
      Ok (pg <| vsh_constants := constants |> <| vsh_constants_dirty := dirty |>)
  end.

Definition NV097_SET_TRANSFORM_EXECUTION_MODE_handler (pg : PGRAPHState) (parameter : Z)
  : PGRAPHState :=
  let pg := PG_SET_MASK pg NV_PGRAPH_CSV0_D NV_PGRAPH_CSV0_D_MODE
              (GET_MASK parameter NV097_SET_TRANSFORM_EXECUTION_MODE_MODE) in
  PG_SET_MASK pg NV_PGRAPH_CSV0_D NV_PGRAPH_CSV0_D_RANGE_MODE
    (GET_MASK parameter NV097_SET_TRANSFORM_EXECUTION_MODE_RANGE_MODE).

Definition NV097_SET_TRANSFORM_PROGRAM_CXT_WRITE_EN_handler (pg : PGRAPHState) (parameter : Z)
  : PGRAPHState :=
  pg <| enable_vertex_program_write := negb (parameter =? 0) |>.

Definition NV097_SET_TRANSFORM_PROGRAM_LOAD_handler (pg : PGRAPHState) (parameter : Z)
  : res PGRAPHState :=
  _ ← c_assert (parameter <? NV2A_MAX_TRANSFORM_PROGRAM_LENGTH);
  Ok (PG_SET_MASK pg NV_PGRAPH_CHEOPS_OFFSET NV_PGRAPH_CHEOPS_OFFSET_PROG_LD_PTR parameter).

Definition NV097_SET_TRANSFORM_PROGRAM_START_handler (pg : PGRAPHState) (parameter : Z)
  : res PGRAPHState :=
  _ ← c_assert (parameter <? NV2A_MAX_TRANSFORM_PROGRAM_LENGTH);
  Ok (PG_SET_MASK pg NV_PGRAPH_CSV0_C NV_PGRAPH_CSV0_C_CHEOPS_PROGRAM_START parameter).

Definition NV097_SET_TRANSFORM_CONSTANT_LOAD_handler (pg : PGRAPHState) (parameter : Z)
  : res PGRAPHState :=
  _ ← c_assert (parameter <? NV2A_VERTEXSHADER_CONSTANTS);
  Ok (PG_SET_MASK pg NV_PGRAPH_CHEOPS_OFFSET NV_PGRAPH_CHEOPS_OFFSET_CONST_LD_PTR parameter).

End Device.

End Kelvin.
