(* ===== verification/KelvinTable.v ===== *)
(** * The table of the Kelvin methods (pgraph/methods.h.inc, pgraph/pgraph.c)

    [methods] is methods.h.inc; [pgraph_kelvin_methods] expands it the way the designated
    initialisers of the table do, a later entry overriding an earlier one, and [kelvin]
    makes it the [Kelvin] interface that the dispatcher of [Pgraph] uses.  The second half
    discharges the laws of the interface. *)

From S2P Require Import Prelude Nv2aRegs Nv2aState Float32 Vertex Pgraph Kelvin.
Import Nv2aState Vertex Pgraph Kelvin.

Module KelvinTable.

Inductive KelvinMethod :=
| SET_OBJECT | NO_OPERATION | WAIT_FOR_IDLE | SET_FLIP_READ | SET_FLIP_WRITE
| SET_FLIP_MODULO | FLIP_INCREMENT_WRITE | FLIP_STALL | SET_CONTEXT_DMA_NOTIFIES
| SET_CONTEXT_DMA_A | SET_CONTEXT_DMA_B | SET_CONTEXT_DMA_STATE | SET_CONTEXT_DMA_COLOR
| SET_CONTEXT_DMA_ZETA | SET_CONTEXT_DMA_VERTEX_A | SET_CONTEXT_DMA_VERTEX_B
| SET_CONTEXT_DMA_SEMAPHORE | SET_CONTEXT_DMA_REPORT | SET_SURFACE_CLIP_HORIZONTAL
| SET_SURFACE_CLIP_VERTICAL | SET_SURFACE_FORMAT | SET_SURFACE_PITCH
| SET_SURFACE_COLOR_OFFSET | SET_SURFACE_ZETA_OFFSET | SET_COMBINER_ALPHA_ICW
| SET_COMBINER_SPECULAR_FOG_CW0 | SET_COMBINER_SPECULAR_FOG_CW1 | SET_TEXTURE_ADDRESS
| SET_CONTROL0 | SET_LIGHT_CONTROL | SET_COLOR_MATERIAL | SET_FOG_MODE | SET_FOG_GEN_MODE
| SET_FOG_ENABLE | SET_FOG_COLOR | SET_WINDOW_CLIP_TYPE | SET_WINDOW_CLIP_HORIZONTAL
| SET_WINDOW_CLIP_VERTICAL | SET_ALPHA_TEST_ENABLE | SET_BLEND_ENABLE | SET_CULL_FACE_ENABLE
| SET_DEPTH_TEST_ENABLE | SET_DITHER_ENABLE | SET_LIGHTING_ENABLE | SET_POINT_PARAMS_ENABLE
| SET_POINT_SMOOTH_ENABLE | SET_LINE_SMOOTH_ENABLE | SET_POLY_SMOOTH_ENABLE | SET_SKIN_MODE
| SET_STENCIL_TEST_ENABLE | SET_POLY_OFFSET_POINT_ENABLE | SET_POLY_OFFSET_LINE_ENABLE
| SET_POLY_OFFSET_FILL_ENABLE | SET_ALPHA_FUNC | SET_ALPHA_REF | SET_BLEND_FUNC_SFACTOR
| SET_BLEND_FUNC_DFACTOR | SET_BLEND_COLOR | SET_BLEND_EQUATION | SET_DEPTH_FUNC
| SET_COLOR_MASK | SET_DEPTH_MASK | SET_STENCIL_MASK | SET_STENCIL_FUNC
| SET_STENCIL_FUNC_REF | SET_STENCIL_FUNC_MASK | SET_STENCIL_OP_FAIL | SET_STENCIL_OP_ZFAIL
| SET_STENCIL_OP_ZPASS | SET_SHADE_MODE | SET_PROVOKING_VERTEX
| SET_POLYGON_OFFSET_SCALE_FACTOR | SET_POLYGON_OFFSET_BIAS | SET_FRONT_POLYGON_MODE
| SET_BACK_POLYGON_MODE | SET_CLIP_MIN | SET_CLIP_MAX | SET_CULL_FACE | SET_FRONT_FACE
| SET_NORMALIZATION_ENABLE | SET_MATERIAL_EMISSION | SET_MATERIAL_ALPHA
| SET_SPECULAR_ENABLE | SET_LIGHT_ENABLE_MASK | SET_TEXGEN_S | SET_TEXGEN_T | SET_TEXGEN_R
| SET_TEXGEN_Q | SET_TEXTURE_MATRIX_ENABLE | SET_POINT_SIZE | SET_PROJECTION_MATRIX
| SET_MODEL_VIEW_MATRIX | SET_INVERSE_MODEL_VIEW_MATRIX | SET_COMPOSITE_MATRIX
| SET_TEXTURE_MATRIX | SET_FOG_PARAMS | SET_TEXGEN_PLANE_S | SET_TEXGEN_VIEW_MODEL
| SET_FOG_PLANE | SET_SPECULAR_PARAMS | SET_SCENE_AMBIENT_COLOR | SET_VIEWPORT_OFFSET
| SET_POINT_PARAMS | SET_EYE_POSITION | SET_COMBINER_FACTOR0 | SET_COMBINER_FACTOR1
| SET_COMBINER_ALPHA_OCW | SET_COMBINER_COLOR_ICW | SET_COLOR_KEY_COLOR | SET_VIEWPORT_SCALE
| SET_TRANSFORM_PROGRAM | SET_TRANSFORM_CONSTANT | SET_VERTEX3F
| SET_BACK_LIGHT_AMBIENT_COLOR | SET_LIGHT_AMBIENT_COLOR | SET_VERTEX4F | SET_NORMAL3F
| SET_NORMAL3S | SET_DIFFUSE_COLOR4F | SET_DIFFUSE_COLOR3F | SET_DIFFUSE_COLOR4UB
| SET_SPECULAR_COLOR4F | SET_SPECULAR_COLOR3F | SET_SPECULAR_COLOR4UB | SET_TEXCOORD0_2F
| SET_TEXCOORD0_4F | SET_TEXCOORD0_2S | SET_TEXCOORD0_4S | SET_TEXCOORD1_2F
| SET_TEXCOORD1_4F | SET_TEXCOORD1_2S | SET_TEXCOORD1_4S | SET_TEXCOORD2_2F
| SET_TEXCOORD2_4F | SET_TEXCOORD2_2S | SET_TEXCOORD2_4S | SET_TEXCOORD3_2F
| SET_TEXCOORD3_4F | SET_TEXCOORD3_2S | SET_TEXCOORD3_4S | SET_FOG_COORD | SET_WEIGHT1F
| SET_WEIGHT2F | SET_WEIGHT3F | SET_WEIGHT4F | SET_VERTEX_DATA_ARRAY_FORMAT
| SET_VERTEX_DATA_ARRAY_OFFSET | SET_LOGIC_OP_ENABLE | SET_LOGIC_OP | CLEAR_REPORT_VALUE
| SET_ZPASS_PIXEL_COUNT_ENABLE | GET_REPORT | SET_EYE_DIRECTION | SET_BEGIN_END
| SET_TEXTURE_OFFSET | SET_TEXTURE_FORMAT | SET_TEXTURE_CONTROL0 | SET_TEXTURE_CONTROL1
| SET_TEXTURE_FILTER | SET_TEXTURE_IMAGE_RECT | SET_TEXTURE_PALETTE
| SET_TEXTURE_BORDER_COLOR | SET_TEXTURE_SET_BUMP_ENV_MAT | SET_TEXTURE_SET_BUMP_ENV_SCALE
| SET_TEXTURE_SET_BUMP_ENV_OFFSET | ARRAY_ELEMENT16 | ARRAY_ELEMENT32 | DRAW_ARRAYS
| INLINE_ARRAY | SET_EYE_VECTOR | SET_VERTEX_DATA2F_M | SET_VERTEX_DATA4F_M
| SET_VERTEX_DATA2S | SET_VERTEX_DATA4UB | SET_VERTEX_DATA4S_M | SET_SEMAPHORE_OFFSET
| BACK_END_WRITE_SEMAPHORE_RELEASE | SET_ZMIN_MAX_CONTROL | SET_ANTI_ALIASING_CONTROL
| SET_ZSTENCIL_CLEAR_VALUE | SET_COLOR_CLEAR_VALUE | CLEAR_SURFACE
| SET_CLEAR_RECT_HORIZONTAL | SET_CLEAR_RECT_VERTICAL | SET_SPECULAR_FOG_FACTOR
| SET_SPECULAR_PARAMS_BACK | SET_SHADER_CLIP_PLANE_MODE | SET_COMBINER_COLOR_OCW
| SET_COMBINER_CONTROL | SET_SHADOW_ZSLOPE_THRESHOLD | SET_SHADOW_DEPTH_FUNC
| SET_SHADER_STAGE_PROGRAM | SET_DOT_RGBMAPPING | SET_SHADER_OTHER_STAGE_INPUT
| SET_TRANSFORM_DATA | LAUNCH_TRANSFORM_PROGRAM | SET_TRANSFORM_EXECUTION_MODE
| SET_TRANSFORM_PROGRAM_CXT_WRITE_EN | SET_TRANSFORM_PROGRAM_LOAD
| SET_TRANSFORM_PROGRAM_START | SET_TRANSFORM_CONSTANT_LOAD.

(** [METHOD_ADDR] *)
Definition METHOD_ADDR (k : KelvinMethod) : Z :=
  match k with
  | SET_OBJECT => NV097_SET_OBJECT
  | NO_OPERATION => NV097_NO_OPERATION
  | WAIT_FOR_IDLE => NV097_WAIT_FOR_IDLE
  | SET_FLIP_READ => NV097_SET_FLIP_READ
  | SET_FLIP_WRITE => NV097_SET_FLIP_WRITE
  | SET_FLIP_MODULO => NV097_SET_FLIP_MODULO
  | FLIP_INCREMENT_WRITE => NV097_FLIP_INCREMENT_WRITE
  | FLIP_STALL => NV097_FLIP_STALL
  | SET_CONTEXT_DMA_NOTIFIES => NV097_SET_CONTEXT_DMA_NOTIFIES
  | SET_CONTEXT_DMA_A => NV097_SET_CONTEXT_DMA_A
  | SET_CONTEXT_DMA_B => NV097_SET_CONTEXT_DMA_B
  | SET_CONTEXT_DMA_STATE => NV097_SET_CONTEXT_DMA_STATE
  | SET_CONTEXT_DMA_COLOR => NV097_SET_CONTEXT_DMA_COLOR
  | SET_CONTEXT_DMA_ZETA => NV097_SET_CONTEXT_DMA_ZETA
  | SET_CONTEXT_DMA_VERTEX_A => NV097_SET_CONTEXT_DMA_VERTEX_A
  | SET_CONTEXT_DMA_VERTEX_B => NV097_SET_CONTEXT_DMA_VERTEX_B
  | SET_CONTEXT_DMA_SEMAPHORE => NV097_SET_CONTEXT_DMA_SEMAPHORE
  | SET_CONTEXT_DMA_REPORT => NV097_SET_CONTEXT_DMA_REPORT
  | SET_SURFACE_CLIP_HORIZONTAL => NV097_SET_SURFACE_CLIP_HORIZONTAL
  | SET_SURFACE_CLIP_VERTICAL => NV097_SET_SURFACE_CLIP_VERTICAL
  | SET_SURFACE_FORMAT => NV097_SET_SURFACE_FORMAT
  | SET_SURFACE_PITCH => NV097_SET_SURFACE_PITCH
  | SET_SURFACE_COLOR_OFFSET => NV097_SET_SURFACE_COLOR_OFFSET
  | SET_SURFACE_ZETA_OFFSET => NV097_SET_SURFACE_ZETA_OFFSET
  | SET_COMBINER_ALPHA_ICW => NV097_SET_COMBINER_ALPHA_ICW
  | SET_COMBINER_SPECULAR_FOG_CW0 => NV097_SET_COMBINER_SPECULAR_FOG_CW0
  | SET_COMBINER_SPECULAR_FOG_CW1 => NV097_SET_COMBINER_SPECULAR_FOG_CW1
  | SET_TEXTURE_ADDRESS => NV097_SET_TEXTURE_ADDRESS
  | SET_CONTROL0 => NV097_SET_CONTROL0
  | SET_LIGHT_CONTROL => NV097_SET_LIGHT_CONTROL
  | SET_COLOR_MATERIAL => NV097_SET_COLOR_MATERIAL
  | SET_FOG_MODE => NV097_SET_FOG_MODE
  | SET_FOG_GEN_MODE => NV097_SET_FOG_GEN_MODE
  | SET_FOG_ENABLE => NV097_SET_FOG_ENABLE
  | SET_FOG_COLOR => NV097_SET_FOG_COLOR
  | SET_WINDOW_CLIP_TYPE => NV097_SET_WINDOW_CLIP_TYPE
  | SET_WINDOW_CLIP_HORIZONTAL => NV097_SET_WINDOW_CLIP_HORIZONTAL
  | SET_WINDOW_CLIP_VERTICAL => NV097_SET_WINDOW_CLIP_VERTICAL
  | SET_ALPHA_TEST_ENABLE => NV097_SET_ALPHA_TEST_ENABLE
  | SET_BLEND_ENABLE => NV097_SET_BLEND_ENABLE
  | SET_CULL_FACE_ENABLE => NV097_SET_CULL_FACE_ENABLE
  | SET_DEPTH_TEST_ENABLE => NV097_SET_DEPTH_TEST_ENABLE
  | SET_DITHER_ENABLE => NV097_SET_DITHER_ENABLE
  | SET_LIGHTING_ENABLE => NV097_SET_LIGHTING_ENABLE
  | SET_POINT_PARAMS_ENABLE => NV097_SET_POINT_PARAMS_ENABLE
  | SET_POINT_SMOOTH_ENABLE => NV097_SET_POINT_SMOOTH_ENABLE
  | SET_LINE_SMOOTH_ENABLE => NV097_SET_LINE_SMOOTH_ENABLE
  | SET_POLY_SMOOTH_ENABLE => NV097_SET_POLY_SMOOTH_ENABLE
  | SET_SKIN_MODE => NV097_SET_SKIN_MODE
  | SET_STENCIL_TEST_ENABLE => NV097_SET_STENCIL_TEST_ENABLE
  | SET_POLY_OFFSET_POINT_ENABLE => NV097_SET_POLY_OFFSET_POINT_ENABLE
  | SET_POLY_OFFSET_LINE_ENABLE => NV097_SET_POLY_OFFSET_LINE_ENABLE
  | SET_POLY_OFFSET_FILL_ENABLE => NV097_SET_POLY_OFFSET_FILL_ENABLE
  | SET_ALPHA_FUNC => NV097_SET_ALPHA_FUNC
  | SET_ALPHA_REF => NV097_SET_ALPHA_REF
  | SET_BLEND_FUNC_SFACTOR => NV097_SET_BLEND_FUNC_SFACTOR
  | SET_BLEND_FUNC_DFACTOR => NV097_SET_BLEND_FUNC_DFACTOR
  | SET_BLEND_COLOR => NV097_SET_BLEND_COLOR
  | SET_BLEND_EQUATION => NV097_SET_BLEND_EQUATION
  | SET_DEPTH_FUNC => NV097_SET_DEPTH_FUNC
  | SET_COLOR_MASK => NV097_SET_COLOR_MASK
  | SET_DEPTH_MASK => NV097_SET_DEPTH_MASK
  | SET_STENCIL_MASK => NV097_SET_STENCIL_MASK
  | SET_STENCIL_FUNC => NV097_SET_STENCIL_FUNC
  | SET_STENCIL_FUNC_REF => NV097_SET_STENCIL_FUNC_REF
  | SET_STENCIL_FUNC_MASK => NV097_SET_STENCIL_FUNC_MASK
  | SET_STENCIL_OP_FAIL => NV097_SET_STENCIL_OP_FAIL
  | SET_STENCIL_OP_ZFAIL => NV097_SET_STENCIL_OP_ZFAIL
  | SET_STENCIL_OP_ZPASS => NV097_SET_STENCIL_OP_ZPASS
  | SET_SHADE_MODE => NV097_SET_SHADE_MODE
  | SET_PROVOKING_VERTEX => NV097_SET_PROVOKING_VERTEX
  | SET_POLYGON_OFFSET_SCALE_FACTOR => NV097_SET_POLYGON_OFFSET_SCALE_FACTOR
  | SET_POLYGON_OFFSET_BIAS => NV097_SET_POLYGON_OFFSET_BIAS
  | SET_FRONT_POLYGON_MODE => NV097_SET_FRONT_POLYGON_MODE
  | SET_BACK_POLYGON_MODE => NV097_SET_BACK_POLYGON_MODE
  | SET_CLIP_MIN => NV097_SET_CLIP_MIN
  | SET_CLIP_MAX => NV097_SET_CLIP_MAX
  | SET_CULL_FACE => NV097_SET_CULL_FACE
  | SET_FRONT_FACE => NV097_SET_FRONT_FACE
  | SET_NORMALIZATION_ENABLE => NV097_SET_NORMALIZATION_ENABLE
  | SET_MATERIAL_EMISSION => NV097_SET_MATERIAL_EMISSION
  | SET_MATERIAL_ALPHA => NV097_SET_MATERIAL_ALPHA
  | SET_SPECULAR_ENABLE => NV097_SET_SPECULAR_ENABLE
  | SET_LIGHT_ENABLE_MASK => NV097_SET_LIGHT_ENABLE_MASK
  | SET_TEXGEN_S => NV097_SET_TEXGEN_S
  | SET_TEXGEN_T => NV097_SET_TEXGEN_T
  | SET_TEXGEN_R => NV097_SET_TEXGEN_R
  | SET_TEXGEN_Q => NV097_SET_TEXGEN_Q
  | SET_TEXTURE_MATRIX_ENABLE => NV097_SET_TEXTURE_MATRIX_ENABLE
  | SET_POINT_SIZE => NV097_SET_POINT_SIZE
  | SET_PROJECTION_MATRIX => NV097_SET_PROJECTION_MATRIX
  | SET_MODEL_VIEW_MATRIX => NV097_SET_MODEL_VIEW_MATRIX
  | SET_INVERSE_MODEL_VIEW_MATRIX => NV097_SET_INVERSE_MODEL_VIEW_MATRIX
  | SET_COMPOSITE_MATRIX => NV097_SET_COMPOSITE_MATRIX
  | SET_TEXTURE_MATRIX => NV097_SET_TEXTURE_MATRIX
  | SET_FOG_PARAMS => NV097_SET_FOG_PARAMS
  | SET_TEXGEN_PLANE_S => NV097_SET_TEXGEN_PLANE_S
  | SET_TEXGEN_VIEW_MODEL => NV097_SET_TEXGEN_VIEW_MODEL
  | SET_FOG_PLANE => NV097_SET_FOG_PLANE
  | SET_SPECULAR_PARAMS => NV097_SET_SPECULAR_PARAMS
  | SET_SCENE_AMBIENT_COLOR => NV097_SET_SCENE_AMBIENT_COLOR
  | SET_VIEWPORT_OFFSET => NV097_SET_VIEWPORT_OFFSET
  | SET_POINT_PARAMS => NV097_SET_POINT_PARAMS
  | SET_EYE_POSITION => NV097_SET_EYE_POSITION
  | SET_COMBINER_FACTOR0 => NV097_SET_COMBINER_FACTOR0
  | SET_COMBINER_FACTOR1 => NV097_SET_COMBINER_FACTOR1
  | SET_COMBINER_ALPHA_OCW => NV097_SET_COMBINER_ALPHA_OCW
  | SET_COMBINER_COLOR_ICW => NV097_SET_COMBINER_COLOR_ICW
  | SET_COLOR_KEY_COLOR => NV097_SET_COLOR_KEY_COLOR
  | SET_VIEWPORT_SCALE => NV097_SET_VIEWPORT_SCALE
  | SET_TRANSFORM_PROGRAM => NV097_SET_TRANSFORM_PROGRAM
  | SET_TRANSFORM_CONSTANT => NV097_SET_TRANSFORM_CONSTANT
  | SET_VERTEX3F => NV097_SET_VERTEX3F
  | SET_BACK_LIGHT_AMBIENT_COLOR => NV097_SET_BACK_LIGHT_AMBIENT_COLOR
  | SET_LIGHT_AMBIENT_COLOR => NV097_SET_LIGHT_AMBIENT_COLOR
  | SET_VERTEX4F => NV097_SET_VERTEX4F
  | SET_NORMAL3F => NV097_SET_NORMAL3F
  | SET_NORMAL3S => NV097_SET_NORMAL3S
  | SET_DIFFUSE_COLOR4F => NV097_SET_DIFFUSE_COLOR4F
  | SET_DIFFUSE_COLOR3F => NV097_SET_DIFFUSE_COLOR3F
  | SET_DIFFUSE_COLOR4UB => NV097_SET_DIFFUSE_COLOR4UB
  | SET_SPECULAR_COLOR4F => NV097_SET_SPECULAR_COLOR4F
  | SET_SPECULAR_COLOR3F => NV097_SET_SPECULAR_COLOR3F
  | SET_SPECULAR_COLOR4UB => NV097_SET_SPECULAR_COLOR4UB
  | SET_TEXCOORD0_2F => NV097_SET_TEXCOORD0_2F
  | SET_TEXCOORD0_4F => NV097_SET_TEXCOORD0_4F
  | SET_TEXCOORD0_2S => NV097_SET_TEXCOORD0_2S
  | SET_TEXCOORD0_4S => NV097_SET_TEXCOORD0_4S
  | SET_TEXCOORD1_2F => NV097_SET_TEXCOORD1_2F
  | SET_TEXCOORD1_4F => NV097_SET_TEXCOORD1_4F
  | SET_TEXCOORD1_2S => NV097_SET_TEXCOORD1_2S
  | SET_TEXCOORD1_4S => NV097_SET_TEXCOORD1_4S
  | SET_TEXCOORD2_2F => NV097_SET_TEXCOORD2_2F
  | SET_TEXCOORD2_4F => NV097_SET_TEXCOORD2_4F
  | SET_TEXCOORD2_2S => NV097_SET_TEXCOORD2_2S
  | SET_TEXCOORD2_4S => NV097_SET_TEXCOORD2_4S
  | SET_TEXCOORD3_2F => NV097_SET_TEXCOORD3_2F
  | SET_TEXCOORD3_4F => NV097_SET_TEXCOORD3_4F
  | SET_TEXCOORD3_2S => NV097_SET_TEXCOORD3_2S
  | SET_TEXCOORD3_4S => NV097_SET_TEXCOORD3_4S
  | SET_FOG_COORD => NV097_SET_FOG_COORD
  | SET_WEIGHT1F => NV097_SET_WEIGHT1F
  | SET_WEIGHT2F => NV097_SET_WEIGHT2F
  | SET_WEIGHT3F => NV097_SET_WEIGHT3F
  | SET_WEIGHT4F => NV097_SET_WEIGHT4F
  | SET_VERTEX_DATA_ARRAY_FORMAT => NV097_SET_VERTEX_DATA_ARRAY_FORMAT
  | SET_VERTEX_DATA_ARRAY_OFFSET => NV097_SET_VERTEX_DATA_ARRAY_OFFSET
  | SET_LOGIC_OP_ENABLE => NV097_SET_LOGIC_OP_ENABLE
  | SET_LOGIC_OP => NV097_SET_LOGIC_OP
  | CLEAR_REPORT_VALUE => NV097_CLEAR_REPORT_VALUE
  | SET_ZPASS_PIXEL_COUNT_ENABLE => NV097_SET_ZPASS_PIXEL_COUNT_ENABLE
  | GET_REPORT => NV097_GET_REPORT
  | SET_EYE_DIRECTION => NV097_SET_EYE_DIRECTION
  | SET_BEGIN_END => NV097_SET_BEGIN_END
  | SET_TEXTURE_OFFSET => NV097_SET_TEXTURE_OFFSET
  | SET_TEXTURE_FORMAT => NV097_SET_TEXTURE_FORMAT
  | SET_TEXTURE_CONTROL0 => NV097_SET_TEXTURE_CONTROL0
  | SET_TEXTURE_CONTROL1 => NV097_SET_TEXTURE_CONTROL1
  | SET_TEXTURE_FILTER => NV097_SET_TEXTURE_FILTER
  | SET_TEXTURE_IMAGE_RECT => NV097_SET_TEXTURE_IMAGE_RECT
  | SET_TEXTURE_PALETTE => NV097_SET_TEXTURE_PALETTE
  | SET_TEXTURE_BORDER_COLOR => NV097_SET_TEXTURE_BORDER_COLOR
  | SET_TEXTURE_SET_BUMP_ENV_MAT => NV097_SET_TEXTURE_SET_BUMP_ENV_MAT
  | SET_TEXTURE_SET_BUMP_ENV_SCALE => NV097_SET_TEXTURE_SET_BUMP_ENV_SCALE
  | SET_TEXTURE_SET_BUMP_ENV_OFFSET => NV097_SET_TEXTURE_SET_BUMP_ENV_OFFSET
  | ARRAY_ELEMENT16 => NV097_ARRAY_ELEMENT16
  | ARRAY_ELEMENT32 => NV097_ARRAY_ELEMENT32
  | DRAW_ARRAYS => NV097_DRAW_ARRAYS
  | INLINE_ARRAY => NV097_INLINE_ARRAY
  | SET_EYE_VECTOR => NV097_SET_EYE_VECTOR
  | SET_VERTEX_DATA2F_M => NV097_SET_VERTEX_DATA2F_M
  | SET_VERTEX_DATA4F_M => NV097_SET_VERTEX_DATA4F_M
  | SET_VERTEX_DATA2S => NV097_SET_VERTEX_DATA2S
  | SET_VERTEX_DATA4UB => NV097_SET_VERTEX_DATA4UB
  | SET_VERTEX_DATA4S_M => NV097_SET_VERTEX_DATA4S_M
  | SET_SEMAPHORE_OFFSET => NV097_SET_SEMAPHORE_OFFSET
  | BACK_END_WRITE_SEMAPHORE_RELEASE => NV097_BACK_END_WRITE_SEMAPHORE_RELEASE
  | SET_ZMIN_MAX_CONTROL => NV097_SET_ZMIN_MAX_CONTROL
  | SET_ANTI_ALIASING_CONTROL => NV097_SET_ANTI_ALIASING_CONTROL
  | SET_ZSTENCIL_CLEAR_VALUE => NV097_SET_ZSTENCIL_CLEAR_VALUE
  | SET_COLOR_CLEAR_VALUE => NV097_SET_COLOR_CLEAR_VALUE
  | CLEAR_SURFACE => NV097_CLEAR_SURFACE
  | SET_CLEAR_RECT_HORIZONTAL => NV097_SET_CLEAR_RECT_HORIZONTAL
  | SET_CLEAR_RECT_VERTICAL => NV097_SET_CLEAR_RECT_VERTICAL
  | SET_SPECULAR_FOG_FACTOR => NV097_SET_SPECULAR_FOG_FACTOR
  | SET_SPECULAR_PARAMS_BACK => NV097_SET_SPECULAR_PARAMS_BACK
  | SET_SHADER_CLIP_PLANE_MODE => NV097_SET_SHADER_CLIP_PLANE_MODE
  | SET_COMBINER_COLOR_OCW => NV097_SET_COMBINER_COLOR_OCW
  | SET_COMBINER_CONTROL => NV097_SET_COMBINER_CONTROL
  | SET_SHADOW_ZSLOPE_THRESHOLD => NV097_SET_SHADOW_ZSLOPE_THRESHOLD
  | SET_SHADOW_DEPTH_FUNC => NV097_SET_SHADOW_DEPTH_FUNC
  | SET_SHADER_STAGE_PROGRAM => NV097_SET_SHADER_STAGE_PROGRAM
  | SET_DOT_RGBMAPPING => NV097_SET_DOT_RGBMAPPING
  | SET_SHADER_OTHER_STAGE_INPUT => NV097_SET_SHADER_OTHER_STAGE_INPUT
  | SET_TRANSFORM_DATA => NV097_SET_TRANSFORM_DATA
  | LAUNCH_TRANSFORM_PROGRAM => NV097_LAUNCH_TRANSFORM_PROGRAM
  | SET_TRANSFORM_EXECUTION_MODE => NV097_SET_TRANSFORM_EXECUTION_MODE
  | SET_TRANSFORM_PROGRAM_CXT_WRITE_EN => NV097_SET_TRANSFORM_PROGRAM_CXT_WRITE_EN
  | SET_TRANSFORM_PROGRAM_LOAD => NV097_SET_TRANSFORM_PROGRAM_LOAD
  | SET_TRANSFORM_PROGRAM_START => NV097_SET_TRANSFORM_PROGRAM_START
  | SET_TRANSFORM_CONSTANT_LOAD => NV097_SET_TRANSFORM_CONSTANT_LOAD
  end.

(** The entries of methods.h.inc. *)
Inductive MethodDef :=
| DEF_METHOD (k : KelvinMethod)
| DEF_METHOD_RANGE (k : KelvinMethod) (range : Z)
| DEF_METHOD_CASE_4 (k : KelvinMethod) (stride : Z)
| DEF_METHOD_CASE_4_OFFSET (k : KelvinMethod) (offset stride : Z).

Definition methods : list MethodDef :=
  [DEF_METHOD SET_OBJECT;
   DEF_METHOD NO_OPERATION;
   DEF_METHOD WAIT_FOR_IDLE;
   DEF_METHOD SET_FLIP_READ;
   DEF_METHOD SET_FLIP_WRITE;
   DEF_METHOD SET_FLIP_MODULO;
   DEF_METHOD FLIP_INCREMENT_WRITE;
   DEF_METHOD FLIP_STALL;
   DEF_METHOD SET_CONTEXT_DMA_NOTIFIES;
   DEF_METHOD SET_CONTEXT_DMA_A;
   DEF_METHOD SET_CONTEXT_DMA_B;
   DEF_METHOD SET_CONTEXT_DMA_STATE;
   DEF_METHOD SET_CONTEXT_DMA_COLOR;
   DEF_METHOD SET_CONTEXT_DMA_ZETA;
   DEF_METHOD SET_CONTEXT_DMA_VERTEX_A;
   DEF_METHOD SET_CONTEXT_DMA_VERTEX_B;
   DEF_METHOD SET_CONTEXT_DMA_SEMAPHORE;
   DEF_METHOD SET_CONTEXT_DMA_REPORT;
   DEF_METHOD SET_SURFACE_CLIP_HORIZONTAL;
   DEF_METHOD SET_SURFACE_CLIP_VERTICAL;
   DEF_METHOD SET_SURFACE_FORMAT;
   DEF_METHOD SET_SURFACE_PITCH;
   DEF_METHOD SET_SURFACE_COLOR_OFFSET;
   DEF_METHOD SET_SURFACE_ZETA_OFFSET;
   DEF_METHOD_RANGE SET_COMBINER_ALPHA_ICW 8;
   DEF_METHOD SET_COMBINER_SPECULAR_FOG_CW0;
   DEF_METHOD SET_COMBINER_SPECULAR_FOG_CW1;
   DEF_METHOD_CASE_4 SET_TEXTURE_ADDRESS 64;
   DEF_METHOD SET_CONTROL0;
   DEF_METHOD SET_LIGHT_CONTROL;
   DEF_METHOD SET_COLOR_MATERIAL;
   DEF_METHOD SET_FOG_MODE;
   DEF_METHOD SET_FOG_GEN_MODE;
   DEF_METHOD SET_FOG_ENABLE;
   DEF_METHOD SET_FOG_COLOR;
   DEF_METHOD SET_WINDOW_CLIP_TYPE;
   DEF_METHOD_RANGE SET_WINDOW_CLIP_HORIZONTAL 8;
   DEF_METHOD_RANGE SET_WINDOW_CLIP_VERTICAL 8;
   DEF_METHOD SET_ALPHA_TEST_ENABLE;
   DEF_METHOD SET_BLEND_ENABLE;
   DEF_METHOD SET_CULL_FACE_ENABLE;
   DEF_METHOD SET_DEPTH_TEST_ENABLE;
   DEF_METHOD SET_DITHER_ENABLE;
   DEF_METHOD SET_LIGHTING_ENABLE;
   DEF_METHOD SET_POINT_PARAMS_ENABLE;
   DEF_METHOD SET_POINT_SMOOTH_ENABLE;
   DEF_METHOD SET_LINE_SMOOTH_ENABLE;
   DEF_METHOD SET_POLY_SMOOTH_ENABLE;
   DEF_METHOD SET_SKIN_MODE;
   DEF_METHOD SET_STENCIL_TEST_ENABLE;
   DEF_METHOD SET_POLY_OFFSET_POINT_ENABLE;
   DEF_METHOD SET_POLY_OFFSET_LINE_ENABLE;
   DEF_METHOD SET_POLY_OFFSET_FILL_ENABLE;
   DEF_METHOD SET_ALPHA_FUNC;
   DEF_METHOD SET_ALPHA_REF;
   DEF_METHOD SET_BLEND_FUNC_SFACTOR;
   DEF_METHOD SET_BLEND_FUNC_DFACTOR;
   DEF_METHOD SET_BLEND_COLOR;
   DEF_METHOD SET_BLEND_EQUATION;
   DEF_METHOD SET_DEPTH_FUNC;
   DEF_METHOD SET_COLOR_MASK;
   DEF_METHOD SET_DEPTH_MASK;
   DEF_METHOD SET_STENCIL_MASK;
   DEF_METHOD SET_STENCIL_FUNC;
   DEF_METHOD SET_STENCIL_FUNC_REF;
   DEF_METHOD SET_STENCIL_FUNC_MASK;
   DEF_METHOD SET_STENCIL_OP_FAIL;
   DEF_METHOD SET_STENCIL_OP_ZFAIL;
   DEF_METHOD SET_STENCIL_OP_ZPASS;
   DEF_METHOD SET_SHADE_MODE;
   DEF_METHOD SET_PROVOKING_VERTEX;
   DEF_METHOD SET_POLYGON_OFFSET_SCALE_FACTOR;
   DEF_METHOD SET_POLYGON_OFFSET_BIAS;
   DEF_METHOD SET_FRONT_POLYGON_MODE;
   DEF_METHOD SET_BACK_POLYGON_MODE;
   DEF_METHOD SET_CLIP_MIN;
   DEF_METHOD SET_CLIP_MAX;
   DEF_METHOD SET_CULL_FACE;
   DEF_METHOD SET_FRONT_FACE;
   DEF_METHOD SET_NORMALIZATION_ENABLE;
   DEF_METHOD_RANGE SET_MATERIAL_EMISSION 3;
   DEF_METHOD SET_MATERIAL_ALPHA;
   DEF_METHOD SET_SPECULAR_ENABLE;
   DEF_METHOD SET_LIGHT_ENABLE_MASK;
   DEF_METHOD_CASE_4 SET_TEXGEN_S 16;
   DEF_METHOD_CASE_4 SET_TEXGEN_T 16;
   DEF_METHOD_CASE_4 SET_TEXGEN_R 16;
   DEF_METHOD_CASE_4 SET_TEXGEN_Q 16;
   DEF_METHOD_CASE_4 SET_TEXTURE_MATRIX_ENABLE 4;
   DEF_METHOD SET_POINT_SIZE;
   DEF_METHOD_RANGE SET_PROJECTION_MATRIX 16;
   DEF_METHOD_RANGE SET_MODEL_VIEW_MATRIX (16*4);
   DEF_METHOD_RANGE SET_INVERSE_MODEL_VIEW_MATRIX (16*4);
   DEF_METHOD_RANGE SET_COMPOSITE_MATRIX 16;
   DEF_METHOD_RANGE SET_TEXTURE_MATRIX (16*4);
   DEF_METHOD_RANGE SET_FOG_PARAMS 3;
   DEF_METHOD_RANGE SET_TEXGEN_PLANE_S (4*4*4);
   DEF_METHOD SET_TEXGEN_VIEW_MODEL;
   DEF_METHOD_RANGE SET_FOG_PLANE 4;
   DEF_METHOD_RANGE SET_SPECULAR_PARAMS 6;
   DEF_METHOD_RANGE SET_SCENE_AMBIENT_COLOR 3;
   DEF_METHOD_RANGE SET_VIEWPORT_OFFSET 4;
   DEF_METHOD_RANGE SET_POINT_PARAMS 8;
   DEF_METHOD_RANGE SET_EYE_POSITION 4;
   DEF_METHOD_RANGE SET_COMBINER_FACTOR0 8;
   DEF_METHOD_RANGE SET_COMBINER_FACTOR1 8;
   DEF_METHOD_RANGE SET_COMBINER_ALPHA_OCW 8;
   DEF_METHOD_RANGE SET_COMBINER_COLOR_ICW 8;
   DEF_METHOD_RANGE SET_COLOR_KEY_COLOR 4;
   DEF_METHOD_RANGE SET_VIEWPORT_SCALE 4;
   DEF_METHOD_RANGE SET_TRANSFORM_PROGRAM 32;
   DEF_METHOD_RANGE SET_TRANSFORM_CONSTANT 32;
   DEF_METHOD_RANGE SET_VERTEX3F 3;
   DEF_METHOD_RANGE SET_BACK_LIGHT_AMBIENT_COLOR (8*16);
   DEF_METHOD_RANGE SET_LIGHT_AMBIENT_COLOR (8*32);
   DEF_METHOD_RANGE SET_VERTEX4F 4;
   DEF_METHOD_RANGE SET_NORMAL3F 3;
   DEF_METHOD_RANGE SET_NORMAL3S 3;
   DEF_METHOD_RANGE SET_DIFFUSE_COLOR4F 4;
   DEF_METHOD_RANGE SET_DIFFUSE_COLOR3F 3;
   DEF_METHOD_RANGE SET_DIFFUSE_COLOR4UB 1;
   DEF_METHOD_RANGE SET_SPECULAR_COLOR4F 4;
   DEF_METHOD_RANGE SET_SPECULAR_COLOR3F 3;
   DEF_METHOD_RANGE SET_SPECULAR_COLOR4UB 1;
   DEF_METHOD_RANGE SET_TEXCOORD0_2F 2;
   DEF_METHOD_RANGE SET_TEXCOORD0_4F 4;
   DEF_METHOD_RANGE SET_TEXCOORD0_2S 1;
   DEF_METHOD_RANGE SET_TEXCOORD0_4S 2;
   DEF_METHOD_RANGE SET_TEXCOORD1_2F 2;
   DEF_METHOD_RANGE SET_TEXCOORD1_4F 4;
   DEF_METHOD_RANGE SET_TEXCOORD1_2S 1;
   DEF_METHOD_RANGE SET_TEXCOORD1_4S 2;
   DEF_METHOD_RANGE SET_TEXCOORD2_2F 2;
   DEF_METHOD_RANGE SET_TEXCOORD2_4F 4;
   DEF_METHOD_RANGE SET_TEXCOORD2_2S 1;
   DEF_METHOD_RANGE SET_TEXCOORD2_4S 2;
   DEF_METHOD_RANGE SET_TEXCOORD3_2F 2;
   DEF_METHOD_RANGE SET_TEXCOORD3_4F 4;
   DEF_METHOD_RANGE SET_TEXCOORD3_2S 1;
   DEF_METHOD_RANGE SET_TEXCOORD3_4S 2;
   DEF_METHOD SET_FOG_COORD;
   DEF_METHOD SET_WEIGHT1F;
   DEF_METHOD_RANGE SET_WEIGHT2F 2;
   DEF_METHOD_RANGE SET_WEIGHT3F 3;
   DEF_METHOD_RANGE SET_WEIGHT4F 4;
   DEF_METHOD_RANGE SET_VERTEX_DATA_ARRAY_FORMAT 16;
   DEF_METHOD_RANGE SET_VERTEX_DATA_ARRAY_OFFSET 16;
   DEF_METHOD SET_LOGIC_OP_ENABLE;
   DEF_METHOD SET_LOGIC_OP;
   DEF_METHOD CLEAR_REPORT_VALUE;
   DEF_METHOD SET_ZPASS_PIXEL_COUNT_ENABLE;
   DEF_METHOD GET_REPORT;
   DEF_METHOD_RANGE SET_EYE_DIRECTION 3;
   DEF_METHOD SET_BEGIN_END;
   DEF_METHOD_CASE_4 SET_TEXTURE_OFFSET 64;
   DEF_METHOD_CASE_4 SET_TEXTURE_FORMAT 64;
   DEF_METHOD_CASE_4 SET_TEXTURE_CONTROL0 64;
   DEF_METHOD_CASE_4 SET_TEXTURE_CONTROL1 64;
   DEF_METHOD_CASE_4 SET_TEXTURE_FILTER 64;
   DEF_METHOD_CASE_4 SET_TEXTURE_IMAGE_RECT 64;
   DEF_METHOD_CASE_4 SET_TEXTURE_PALETTE 64;
   DEF_METHOD_CASE_4 SET_TEXTURE_BORDER_COLOR 64;
   DEF_METHOD_CASE_4 SET_TEXTURE_SET_BUMP_ENV_MAT 64;
   DEF_METHOD_CASE_4_OFFSET SET_TEXTURE_SET_BUMP_ENV_MAT 4 64;
   DEF_METHOD_CASE_4_OFFSET SET_TEXTURE_SET_BUMP_ENV_MAT 8 64;
   DEF_METHOD_CASE_4_OFFSET SET_TEXTURE_SET_BUMP_ENV_MAT 12 64;
   DEF_METHOD_CASE_4 SET_TEXTURE_SET_BUMP_ENV_SCALE 64;
   DEF_METHOD_CASE_4 SET_TEXTURE_SET_BUMP_ENV_OFFSET 64;
   DEF_METHOD ARRAY_ELEMENT16;
   DEF_METHOD ARRAY_ELEMENT32;
   DEF_METHOD DRAW_ARRAYS;
   DEF_METHOD INLINE_ARRAY;
   DEF_METHOD_RANGE SET_EYE_VECTOR 3;
   DEF_METHOD_RANGE SET_VERTEX_DATA2F_M 32;
   DEF_METHOD_RANGE SET_VERTEX_DATA4F_M 64;
   DEF_METHOD_RANGE SET_VERTEX_DATA2S 16;
   DEF_METHOD_RANGE SET_VERTEX_DATA4UB 16;
   DEF_METHOD_RANGE SET_VERTEX_DATA4S_M 32;
   DEF_METHOD SET_SEMAPHORE_OFFSET;
   DEF_METHOD BACK_END_WRITE_SEMAPHORE_RELEASE;
   DEF_METHOD SET_ZMIN_MAX_CONTROL;
   DEF_METHOD SET_ANTI_ALIASING_CONTROL;
   DEF_METHOD SET_ZSTENCIL_CLEAR_VALUE;
   DEF_METHOD SET_COLOR_CLEAR_VALUE;
   DEF_METHOD CLEAR_SURFACE;
   DEF_METHOD SET_CLEAR_RECT_HORIZONTAL;
   DEF_METHOD SET_CLEAR_RECT_VERTICAL;
   DEF_METHOD_RANGE SET_SPECULAR_FOG_FACTOR 2;
   DEF_METHOD_RANGE SET_SPECULAR_PARAMS_BACK 6;
   DEF_METHOD SET_SHADER_CLIP_PLANE_MODE;
   DEF_METHOD_RANGE SET_COMBINER_COLOR_OCW 8;
   DEF_METHOD SET_COMBINER_CONTROL;
   DEF_METHOD SET_SHADOW_ZSLOPE_THRESHOLD;
   DEF_METHOD SET_SHADOW_DEPTH_FUNC;
   DEF_METHOD SET_SHADER_STAGE_PROGRAM;
   DEF_METHOD SET_DOT_RGBMAPPING;
   DEF_METHOD SET_SHADER_OTHER_STAGE_INPUT;
   DEF_METHOD_RANGE SET_TRANSFORM_DATA 4;
   DEF_METHOD LAUNCH_TRANSFORM_PROGRAM;
   DEF_METHOD SET_TRANSFORM_EXECUTION_MODE;
   DEF_METHOD SET_TRANSFORM_PROGRAM_CXT_WRITE_EN;
   DEF_METHOD SET_TRANSFORM_PROGRAM_LOAD;
   DEF_METHOD SET_TRANSFORM_PROGRAM_START;
   DEF_METHOD SET_TRANSFORM_CONSTANT_LOAD].

(** The part of the table an entry initialises. *)
Definition covers (def : MethodDef) (i : Z) : bool :=
  let case_4 k offset stride :=
    existsb (fun j => i =? Z.shiftr (METHOD_ADDR k + offset + stride * j) 2) [0; 1; 2; 3] in
  match def with
  | DEF_METHOD k => i =? Z.shiftr (METHOD_ADDR k) 2
  | DEF_METHOD_RANGE k range =>
      (Z.shiftr (METHOD_ADDR k) 2 <=? i) && (i <=? Z.shiftr (METHOD_ADDR k + 4 * range - 1) 2)
  | DEF_METHOD_CASE_4 k stride => case_4 k 0 stride
  | DEF_METHOD_CASE_4_OFFSET k offset stride => case_4 k offset stride
  end.

Definition def_method (def : MethodDef) : KelvinMethod :=
  match def with
  | DEF_METHOD k | DEF_METHOD_RANGE k _ | DEF_METHOD_CASE_4 k _ | DEF_METHOD_CASE_4_OFFSET k _ _ => k
  end.

Definition pgraph_kelvin_methods (i : Z) : option KelvinMethod :=
  foldl (fun m def => if covers def i then Some (def_method def) else m) None methods.

(** The [__END] constants, which [DEF_METHOD_CASE_4_OFFSET] does not define. *)
Definition def_end (def : MethodDef) : option Z :=
  match def with
  | DEF_METHOD k => Some (METHOD_ADDR k + 4)
  | DEF_METHOD_RANGE k range => Some (METHOD_ADDR k + 4 * range)
  | DEF_METHOD_CASE_4 k stride => Some (METHOD_ADDR k + 4 * stride)
  | DEF_METHOD_CASE_4_OFFSET _ _ _ => None
  end.
Definition METHOD_RANGE_END (k : KelvinMethod) : Z :=
  default 0 (head (omap (fun def =>
    if METHOD_ADDR (def_method def) =? METHOD_ADDR k then def_end def else None) methods)).

Section Table.
Context {X : Type} `{Renderer X} `{VshEmu}.

(** Handlers on the PGRAPH state, with and without the method, and on the device. *)
Definition on_pg (f : PGRAPHState -> Z -> PGRAPHState) : handler X :=
  fun d _ _ parameter => Ok (d <| pgraph := f (pgraph d) parameter |>).
Definition on_pg_res (f : PGRAPHState -> Z -> res PGRAPHState) : handler X :=
  fun d _ _ parameter => pg ← f (pgraph d) parameter; Ok (d <| pgraph := pg |>).
Definition on_pg_method (f : PGRAPHState -> Z -> Z -> res PGRAPHState) : handler X :=
  fun d _ method parameter => pg ← f (pgraph d) method parameter; Ok (d <| pgraph := pg |>).
Definition on_dev (f : NV2AState X -> Z -> res (NV2AState X)) : handler X :=
  fun d _ _ parameter => f d parameter.

(** The handlers, and whether [DEF_METHOD], [DEF_METHOD_INC] or [DEF_METHOD_NON_INC]
    defines them. *)
Definition method_func (k : KelvinMethod) : MethodFunc X :=
  let inc := MethodInc (METHOD_RANGE_END k) in
  match k with
  | SET_OBJECT => Method (on_pg NV097_SET_OBJECT_handler)
  | NO_OPERATION => Method NV097_NO_OPERATION_handler
  | WAIT_FOR_IDLE => Method (on_dev NV097_WAIT_FOR_IDLE_handler)
  | SET_FLIP_READ => Method (on_pg NV097_SET_FLIP_READ_handler)
  | SET_FLIP_WRITE => Method (on_pg NV097_SET_FLIP_WRITE_handler)
  | SET_FLIP_MODULO => Method (on_pg NV097_SET_FLIP_MODULO_handler)
  | FLIP_INCREMENT_WRITE => Method (on_pg_res NV097_FLIP_INCREMENT_WRITE_handler)
  | FLIP_STALL => Method (on_dev NV097_FLIP_STALL_handler)
  | SET_CONTEXT_DMA_NOTIFIES => Method (on_pg NV097_SET_CONTEXT_DMA_NOTIFIES_handler)
  | SET_CONTEXT_DMA_A => Method (on_pg NV097_SET_CONTEXT_DMA_A_handler)
  | SET_CONTEXT_DMA_B => Method (on_pg NV097_SET_CONTEXT_DMA_B_handler)
  | SET_CONTEXT_DMA_STATE => Method (on_pg NV097_SET_CONTEXT_DMA_STATE_handler)
  | SET_CONTEXT_DMA_COLOR => Method (on_dev NV097_SET_CONTEXT_DMA_COLOR_handler)
  | SET_CONTEXT_DMA_ZETA => Method (on_pg NV097_SET_CONTEXT_DMA_ZETA_handler)
  | SET_CONTEXT_DMA_VERTEX_A => Method (on_pg NV097_SET_CONTEXT_DMA_VERTEX_A_handler)
  | SET_CONTEXT_DMA_VERTEX_B => Method (on_pg NV097_SET_CONTEXT_DMA_VERTEX_B_handler)
  | SET_CONTEXT_DMA_SEMAPHORE => Method (on_pg NV097_SET_CONTEXT_DMA_SEMAPHORE_handler)
  | SET_CONTEXT_DMA_REPORT => Method (on_dev NV097_SET_CONTEXT_DMA_REPORT_handler)
  | SET_SURFACE_CLIP_HORIZONTAL => Method (on_dev NV097_SET_SURFACE_CLIP_HORIZONTAL_handler)
  | SET_SURFACE_CLIP_VERTICAL => Method (on_dev NV097_SET_SURFACE_CLIP_VERTICAL_handler)
  | SET_SURFACE_FORMAT => Method (on_dev NV097_SET_SURFACE_FORMAT_handler)
  | SET_SURFACE_PITCH => Method (on_dev NV097_SET_SURFACE_PITCH_handler)
  | SET_SURFACE_COLOR_OFFSET => Method (on_dev NV097_SET_SURFACE_COLOR_OFFSET_handler)
  | SET_SURFACE_ZETA_OFFSET => Method (on_dev NV097_SET_SURFACE_ZETA_OFFSET_handler)
  | SET_COMBINER_ALPHA_ICW => inc (on_pg_method NV097_SET_COMBINER_ALPHA_ICW_handler)
  | SET_COMBINER_SPECULAR_FOG_CW0 => Method (on_pg NV097_SET_COMBINER_SPECULAR_FOG_CW0_handler)
  | SET_COMBINER_SPECULAR_FOG_CW1 => Method (on_pg NV097_SET_COMBINER_SPECULAR_FOG_CW1_handler)
  | SET_TEXTURE_ADDRESS => Method (on_pg_method NV097_SET_TEXTURE_ADDRESS_handler)
  | SET_CONTROL0 => Method (on_dev NV097_SET_CONTROL0_handler)
  | SET_LIGHT_CONTROL => Method (on_pg NV097_SET_LIGHT_CONTROL_handler)
  | SET_COLOR_MATERIAL => Method (on_pg NV097_SET_COLOR_MATERIAL_handler)
  | SET_FOG_MODE => Method (on_pg_res NV097_SET_FOG_MODE_handler)
  | SET_FOG_GEN_MODE => Method (on_pg_res NV097_SET_FOG_GEN_MODE_handler)
  | SET_FOG_ENABLE => Method (on_pg NV097_SET_FOG_ENABLE_handler)
  | SET_FOG_COLOR => Method (on_pg NV097_SET_FOG_COLOR_handler)
  | SET_WINDOW_CLIP_TYPE => Method (on_pg NV097_SET_WINDOW_CLIP_TYPE_handler)
  | SET_WINDOW_CLIP_HORIZONTAL => inc (on_pg_method NV097_SET_WINDOW_CLIP_HORIZONTAL_handler)
  | SET_WINDOW_CLIP_VERTICAL => inc (on_pg_method NV097_SET_WINDOW_CLIP_VERTICAL_handler)
  | SET_ALPHA_TEST_ENABLE => Method (on_pg NV097_SET_ALPHA_TEST_ENABLE_handler)
  | SET_BLEND_ENABLE => Method (on_pg NV097_SET_BLEND_ENABLE_handler)
  | SET_CULL_FACE_ENABLE => Method (on_pg NV097_SET_CULL_FACE_ENABLE_handler)
  | SET_DEPTH_TEST_ENABLE => Method (on_pg NV097_SET_DEPTH_TEST_ENABLE_handler)
  | SET_DITHER_ENABLE => Method (on_pg NV097_SET_DITHER_ENABLE_handler)
  | SET_LIGHTING_ENABLE => Method (on_pg NV097_SET_LIGHTING_ENABLE_handler)
  | SET_POINT_PARAMS_ENABLE => Method (on_pg NV097_SET_POINT_PARAMS_ENABLE_handler)
  | SET_POINT_SMOOTH_ENABLE => Method (on_pg NV097_SET_POINT_SMOOTH_ENABLE_handler)
  | SET_LINE_SMOOTH_ENABLE => Method (on_pg NV097_SET_LINE_SMOOTH_ENABLE_handler)
  | SET_POLY_SMOOTH_ENABLE => Method (on_pg NV097_SET_POLY_SMOOTH_ENABLE_handler)
  | SET_SKIN_MODE => Method (on_pg NV097_SET_SKIN_MODE_handler)
  | SET_STENCIL_TEST_ENABLE => Method (on_pg NV097_SET_STENCIL_TEST_ENABLE_handler)
  | SET_POLY_OFFSET_POINT_ENABLE => Method (on_pg NV097_SET_POLY_OFFSET_POINT_ENABLE_handler)
  | SET_POLY_OFFSET_LINE_ENABLE => Method (on_pg NV097_SET_POLY_OFFSET_LINE_ENABLE_handler)
  | SET_POLY_OFFSET_FILL_ENABLE => Method (on_pg NV097_SET_POLY_OFFSET_FILL_ENABLE_handler)
  | SET_ALPHA_FUNC => Method (on_pg NV097_SET_ALPHA_FUNC_handler)
  | SET_ALPHA_REF => Method (on_pg NV097_SET_ALPHA_REF_handler)
  | SET_BLEND_FUNC_SFACTOR => Method (on_pg NV097_SET_BLEND_FUNC_SFACTOR_handler)
  | SET_BLEND_FUNC_DFACTOR => Method (on_pg NV097_SET_BLEND_FUNC_DFACTOR_handler)
  | SET_BLEND_COLOR => Method (on_pg NV097_SET_BLEND_COLOR_handler)
  | SET_BLEND_EQUATION => Method (on_pg NV097_SET_BLEND_EQUATION_handler)
  | SET_DEPTH_FUNC => Method (on_pg NV097_SET_DEPTH_FUNC_handler)
  | SET_COLOR_MASK => Method (on_pg NV097_SET_COLOR_MASK_handler)
  | SET_DEPTH_MASK => Method (on_pg NV097_SET_DEPTH_MASK_handler)
  | SET_STENCIL_MASK => Method (on_pg NV097_SET_STENCIL_MASK_handler)
  | SET_STENCIL_FUNC => Method (on_pg NV097_SET_STENCIL_FUNC_handler)
  | SET_STENCIL_FUNC_REF => Method (on_pg NV097_SET_STENCIL_FUNC_REF_handler)
  | SET_STENCIL_FUNC_MASK => Method (on_pg NV097_SET_STENCIL_FUNC_MASK_handler)
  | SET_STENCIL_OP_FAIL => Method (on_pg_res NV097_SET_STENCIL_OP_FAIL_handler)
  | SET_STENCIL_OP_ZFAIL => Method (on_pg_res NV097_SET_STENCIL_OP_ZFAIL_handler)
  | SET_STENCIL_OP_ZPASS => Method (on_pg_res NV097_SET_STENCIL_OP_ZPASS_handler)
  | SET_SHADE_MODE => Method (on_pg NV097_SET_SHADE_MODE_handler)
  | SET_PROVOKING_VERTEX => Method (on_pg_res NV097_SET_PROVOKING_VERTEX_handler)
  | SET_POLYGON_OFFSET_SCALE_FACTOR => Method (on_pg NV097_SET_POLYGON_OFFSET_SCALE_FACTOR_handler)
  | SET_POLYGON_OFFSET_BIAS => Method (on_pg NV097_SET_POLYGON_OFFSET_BIAS_handler)
  | SET_FRONT_POLYGON_MODE => Method (on_pg_res NV097_SET_FRONT_POLYGON_MODE_handler)
  | SET_BACK_POLYGON_MODE => Method (on_pg_res NV097_SET_BACK_POLYGON_MODE_handler)
  | SET_CLIP_MIN => Method (on_pg NV097_SET_CLIP_MIN_handler)
  | SET_CLIP_MAX => Method (on_pg NV097_SET_CLIP_MAX_handler)
  | SET_CULL_FACE => Method (on_pg_res NV097_SET_CULL_FACE_handler)
  | SET_FRONT_FACE => Method (on_pg NV097_SET_FRONT_FACE_handler)
  | SET_NORMALIZATION_ENABLE => Method (on_pg NV097_SET_NORMALIZATION_ENABLE_handler)
  | SET_MATERIAL_EMISSION => inc (on_pg_method NV097_SET_MATERIAL_EMISSION_handler)
  | SET_MATERIAL_ALPHA => Method (on_pg NV097_SET_MATERIAL_ALPHA_handler)
  | SET_SPECULAR_ENABLE => Method (on_pg NV097_SET_SPECULAR_ENABLE_handler)
  | SET_LIGHT_ENABLE_MASK => Method (on_pg NV097_SET_LIGHT_ENABLE_MASK_handler)
  | SET_TEXGEN_S => Method (on_pg_method NV097_SET_TEXGEN_S_handler)
  | SET_TEXGEN_T => Method (on_pg_method NV097_SET_TEXGEN_T_handler)
  | SET_TEXGEN_R => Method (on_pg_method NV097_SET_TEXGEN_R_handler)
  | SET_TEXGEN_Q => Method (on_pg_method NV097_SET_TEXGEN_Q_handler)
  | SET_TEXTURE_MATRIX_ENABLE => inc (on_pg_method NV097_SET_TEXTURE_MATRIX_ENABLE_handler)
  | SET_POINT_SIZE => Method (on_pg NV097_SET_POINT_SIZE_handler)
  | SET_PROJECTION_MATRIX => inc (on_pg_method NV097_SET_PROJECTION_MATRIX_handler)
  | SET_MODEL_VIEW_MATRIX => inc (on_pg_method NV097_SET_MODEL_VIEW_MATRIX_handler)
  | SET_INVERSE_MODEL_VIEW_MATRIX => inc (on_pg_method NV097_SET_INVERSE_MODEL_VIEW_MATRIX_handler)
  | SET_COMPOSITE_MATRIX => inc (on_pg_method NV097_SET_COMPOSITE_MATRIX_handler)
  | SET_TEXTURE_MATRIX => inc (on_pg_method NV097_SET_TEXTURE_MATRIX_handler)
  | SET_FOG_PARAMS => inc (on_pg_method NV097_SET_FOG_PARAMS_handler)
  | SET_TEXGEN_PLANE_S => inc (on_pg_method NV097_SET_TEXGEN_PLANE_S_handler)
  | SET_TEXGEN_VIEW_MODEL => Method (on_pg NV097_SET_TEXGEN_VIEW_MODEL_handler)
  | SET_FOG_PLANE => inc (on_pg_method NV097_SET_FOG_PLANE_handler)
  | SET_SPECULAR_PARAMS => inc (on_pg_method NV097_SET_SPECULAR_PARAMS_handler)
  | SET_SCENE_AMBIENT_COLOR => inc (on_pg_method NV097_SET_SCENE_AMBIENT_COLOR_handler)
  | SET_VIEWPORT_OFFSET => inc (on_pg_method NV097_SET_VIEWPORT_OFFSET_handler)
  | SET_POINT_PARAMS => inc (on_pg_method NV097_SET_POINT_PARAMS_handler)
  | SET_EYE_POSITION => inc (on_pg_method NV097_SET_EYE_POSITION_handler)
  | SET_COMBINER_FACTOR0 => inc (on_pg_method NV097_SET_COMBINER_FACTOR0_handler)
  | SET_COMBINER_FACTOR1 => inc (on_pg_method NV097_SET_COMBINER_FACTOR1_handler)
  | SET_COMBINER_ALPHA_OCW => inc (on_pg_method NV097_SET_COMBINER_ALPHA_OCW_handler)
  | SET_COMBINER_COLOR_ICW => inc (on_pg_method NV097_SET_COMBINER_COLOR_ICW_handler)
  | SET_COLOR_KEY_COLOR => inc (on_pg_method NV097_SET_COLOR_KEY_COLOR_handler)
  | SET_VIEWPORT_SCALE => inc (on_pg_method NV097_SET_VIEWPORT_SCALE_handler)
  | SET_TRANSFORM_PROGRAM => inc (on_pg_method NV097_SET_TRANSFORM_PROGRAM_handler)
  | SET_TRANSFORM_CONSTANT => inc (on_pg_method NV097_SET_TRANSFORM_CONSTANT_handler)
  | SET_VERTEX3F => inc (on_pg_method NV097_SET_VERTEX3F_handler)
  | SET_BACK_LIGHT_AMBIENT_COLOR => inc (on_pg_method NV097_SET_BACK_LIGHT_AMBIENT_COLOR_handler)
  | SET_LIGHT_AMBIENT_COLOR => inc (on_pg_method NV097_SET_LIGHT_AMBIENT_COLOR_handler)
  | SET_VERTEX4F => inc (on_pg_method NV097_SET_VERTEX4F_handler)
  | SET_NORMAL3F => inc (on_pg_method NV097_SET_NORMAL3F_handler)
  | SET_NORMAL3S => inc (on_pg_method NV097_SET_NORMAL3S_handler)
  | SET_DIFFUSE_COLOR4F => inc (on_pg_method NV097_SET_DIFFUSE_COLOR4F_handler)
  | SET_DIFFUSE_COLOR3F => inc (on_pg_method NV097_SET_DIFFUSE_COLOR3F_handler)
  | SET_DIFFUSE_COLOR4UB => inc (on_pg_res NV097_SET_DIFFUSE_COLOR4UB_handler)
  | SET_SPECULAR_COLOR4F => inc (on_pg_method NV097_SET_SPECULAR_COLOR4F_handler)
  | SET_SPECULAR_COLOR3F => inc (on_pg_method NV097_SET_SPECULAR_COLOR3F_handler)
  | SET_SPECULAR_COLOR4UB => inc (on_pg_res NV097_SET_SPECULAR_COLOR4UB_handler)
  | SET_TEXCOORD0_2F => inc (on_pg_method NV097_SET_TEXCOORD0_2F_handler)
  | SET_TEXCOORD0_4F => inc (on_pg_method NV097_SET_TEXCOORD0_4F_handler)
  | SET_TEXCOORD0_2S => inc (on_pg_res NV097_SET_TEXCOORD0_2S_handler)
  | SET_TEXCOORD0_4S => inc (on_pg_method NV097_SET_TEXCOORD0_4S_handler)
  | SET_TEXCOORD1_2F => inc (on_pg_method NV097_SET_TEXCOORD1_2F_handler)
  | SET_TEXCOORD1_4F => inc (on_pg_method NV097_SET_TEXCOORD1_4F_handler)
  | SET_TEXCOORD1_2S => inc (on_pg_res NV097_SET_TEXCOORD1_2S_handler)
  | SET_TEXCOORD1_4S => inc (on_pg_method NV097_SET_TEXCOORD1_4S_handler)
  | SET_TEXCOORD2_2F => inc (on_pg_method NV097_SET_TEXCOORD2_2F_handler)
  | SET_TEXCOORD2_4F => inc (on_pg_method NV097_SET_TEXCOORD2_4F_handler)
  | SET_TEXCOORD2_2S => inc (on_pg_res NV097_SET_TEXCOORD2_2S_handler)
  | SET_TEXCOORD2_4S => inc (on_pg_method NV097_SET_TEXCOORD2_4S_handler)
  | SET_TEXCOORD3_2F => inc (on_pg_method NV097_SET_TEXCOORD3_2F_handler)
  | SET_TEXCOORD3_4F => inc (on_pg_method NV097_SET_TEXCOORD3_4F_handler)
  | SET_TEXCOORD3_2S => inc (on_pg_res NV097_SET_TEXCOORD3_2S_handler)
  | SET_TEXCOORD3_4S => inc (on_pg_method NV097_SET_TEXCOORD3_4S_handler)
  | SET_FOG_COORD => Method (on_pg_res NV097_SET_FOG_COORD_handler)
  | SET_WEIGHT1F => Method (on_pg_res NV097_SET_WEIGHT1F_handler)
  | SET_WEIGHT2F => inc (on_pg_method NV097_SET_WEIGHT2F_handler)
  | SET_WEIGHT3F => inc (on_pg_method NV097_SET_WEIGHT3F_handler)
  | SET_WEIGHT4F => inc (on_pg_method NV097_SET_WEIGHT4F_handler)
  | SET_VERTEX_DATA_ARRAY_FORMAT => inc (on_pg_method NV097_SET_VERTEX_DATA_ARRAY_FORMAT_handler)
  | SET_VERTEX_DATA_ARRAY_OFFSET => inc (on_pg_method NV097_SET_VERTEX_DATA_ARRAY_OFFSET_handler)
  | SET_LOGIC_OP_ENABLE => Method (on_pg NV097_SET_LOGIC_OP_ENABLE_handler)
  | SET_LOGIC_OP => Method (on_pg NV097_SET_LOGIC_OP_handler)
  | CLEAR_REPORT_VALUE => Method (on_dev NV097_CLEAR_REPORT_VALUE_handler)
  | SET_ZPASS_PIXEL_COUNT_ENABLE => Method (on_pg NV097_SET_ZPASS_PIXEL_COUNT_ENABLE_handler)
  | GET_REPORT => Method (on_dev NV097_GET_REPORT_handler)
  | SET_EYE_DIRECTION => inc (on_pg_method NV097_SET_EYE_DIRECTION_handler)
  | SET_BEGIN_END => Method (on_dev NV097_SET_BEGIN_END_handler)
  | SET_TEXTURE_OFFSET => Method (on_pg_method NV097_SET_TEXTURE_OFFSET_handler)
  | SET_TEXTURE_FORMAT => Method (on_pg_method NV097_SET_TEXTURE_FORMAT_handler)
  | SET_TEXTURE_CONTROL0 => Method (on_pg_method NV097_SET_TEXTURE_CONTROL0_handler)
  | SET_TEXTURE_CONTROL1 => Method (on_pg_method NV097_SET_TEXTURE_CONTROL1_handler)
  | SET_TEXTURE_FILTER => Method (on_pg_method NV097_SET_TEXTURE_FILTER_handler)
  | SET_TEXTURE_IMAGE_RECT => Method (on_pg_method NV097_SET_TEXTURE_IMAGE_RECT_handler)
  | SET_TEXTURE_PALETTE => Method (on_pg_method NV097_SET_TEXTURE_PALETTE_handler)
  | SET_TEXTURE_BORDER_COLOR => Method (on_pg_method NV097_SET_TEXTURE_BORDER_COLOR_handler)
  | SET_TEXTURE_SET_BUMP_ENV_MAT => Method (on_pg_method NV097_SET_TEXTURE_SET_BUMP_ENV_MAT_handler)
  | SET_TEXTURE_SET_BUMP_ENV_SCALE => Method (on_pg_method NV097_SET_TEXTURE_SET_BUMP_ENV_SCALE_handler)
  | SET_TEXTURE_SET_BUMP_ENV_OFFSET => Method (on_pg_method NV097_SET_TEXTURE_SET_BUMP_ENV_OFFSET_handler)
  | ARRAY_ELEMENT16 => MethodNonInc (on_dev NV097_ARRAY_ELEMENT16_handler)
  | ARRAY_ELEMENT32 => MethodNonInc (on_dev NV097_ARRAY_ELEMENT32_handler)
  | DRAW_ARRAYS => Method (on_pg_res NV097_DRAW_ARRAYS_handler)
  | INLINE_ARRAY => MethodNonInc (on_pg_res NV097_INLINE_ARRAY_handler)
  | SET_EYE_VECTOR => inc (on_pg_method NV097_SET_EYE_VECTOR_handler)
  | SET_VERTEX_DATA2F_M => inc (on_pg_method NV097_SET_VERTEX_DATA2F_M_handler)
  | SET_VERTEX_DATA4F_M => inc (on_pg_method NV097_SET_VERTEX_DATA4F_M_handler)
  | SET_VERTEX_DATA2S => inc (on_pg_method NV097_SET_VERTEX_DATA2S_handler)
  | SET_VERTEX_DATA4UB => inc (on_pg_method NV097_SET_VERTEX_DATA4UB_handler)
  | SET_VERTEX_DATA4S_M => inc (on_pg_method NV097_SET_VERTEX_DATA4S_M_handler)
  | SET_SEMAPHORE_OFFSET => Method (on_pg NV097_SET_SEMAPHORE_OFFSET_handler)
  | BACK_END_WRITE_SEMAPHORE_RELEASE => Method (on_dev NV097_BACK_END_WRITE_SEMAPHORE_RELEASE_handler)
  | SET_ZMIN_MAX_CONTROL => Method (on_pg_res NV097_SET_ZMIN_MAX_CONTROL_handler)
  | SET_ANTI_ALIASING_CONTROL => Method (on_pg NV097_SET_ANTI_ALIASING_CONTROL_handler)
  | SET_ZSTENCIL_CLEAR_VALUE => Method (on_pg NV097_SET_ZSTENCIL_CLEAR_VALUE_handler)
  | SET_COLOR_CLEAR_VALUE => Method (on_pg NV097_SET_COLOR_CLEAR_VALUE_handler)
  | CLEAR_SURFACE => Method (on_dev NV097_CLEAR_SURFACE_handler)
  | SET_CLEAR_RECT_HORIZONTAL => Method (on_pg NV097_SET_CLEAR_RECT_HORIZONTAL_handler)
  | SET_CLEAR_RECT_VERTICAL => Method (on_pg NV097_SET_CLEAR_RECT_VERTICAL_handler)
  | SET_SPECULAR_FOG_FACTOR => inc (on_pg_method NV097_SET_SPECULAR_FOG_FACTOR_handler)
  | SET_SPECULAR_PARAMS_BACK => inc (on_pg_method NV097_SET_SPECULAR_PARAMS_BACK_handler)
  | SET_SHADER_CLIP_PLANE_MODE => Method (on_pg NV097_SET_SHADER_CLIP_PLANE_MODE_handler)
  | SET_COMBINER_COLOR_OCW => inc (on_pg_method NV097_SET_COMBINER_COLOR_OCW_handler)
  | SET_COMBINER_CONTROL => Method (on_pg NV097_SET_COMBINER_CONTROL_handler)
  | SET_SHADOW_ZSLOPE_THRESHOLD => Method (on_pg_res NV097_SET_SHADOW_ZSLOPE_THRESHOLD_handler)
  | SET_SHADOW_DEPTH_FUNC => Method (on_pg NV097_SET_SHADOW_DEPTH_FUNC_handler)
  | SET_SHADER_STAGE_PROGRAM => Method (on_pg NV097_SET_SHADER_STAGE_PROGRAM_handler)
  | SET_DOT_RGBMAPPING => Method (on_pg NV097_SET_DOT_RGBMAPPING_handler)
  | SET_SHADER_OTHER_STAGE_INPUT => Method (on_pg NV097_SET_SHADER_OTHER_STAGE_INPUT_handler)
  | SET_TRANSFORM_DATA => inc (on_pg_method NV097_SET_TRANSFORM_DATA_handler)
  | LAUNCH_TRANSFORM_PROGRAM => Method (on_pg_res NV097_LAUNCH_TRANSFORM_PROGRAM_handler)
  | SET_TRANSFORM_EXECUTION_MODE => Method (on_pg NV097_SET_TRANSFORM_EXECUTION_MODE_handler)
  | SET_TRANSFORM_PROGRAM_CXT_WRITE_EN => Method (on_pg NV097_SET_TRANSFORM_PROGRAM_CXT_WRITE_EN_handler)
  | SET_TRANSFORM_PROGRAM_LOAD => Method (on_pg_res NV097_SET_TRANSFORM_PROGRAM_LOAD_handler)
  | SET_TRANSFORM_PROGRAM_START => Method (on_pg_res NV097_SET_TRANSFORM_PROGRAM_START_handler)
  | SET_TRANSFORM_CONSTANT_LOAD => Method (on_pg_res NV097_SET_TRANSFORM_CONSTANT_LOAD_handler)
  end.

#[export] Instance kelvin : Kelvin X := {|
  kelvin_method i := if (0 <=? i) && (i <? 0x800) then method_func <$> pgraph_kelvin_methods i
                     else None
|}.

End Table.

(** ** The laws of the table *)

(** Every method has its own entry at its address. *)
Lemma lookup_base k : pgraph_kelvin_methods (Z.shiftr (METHOD_ADDR k) 2) = Some k.
Proof. destruct k; vm_compute; reflexivity. Qed.

Lemma METHOD_ADDR_inj k k' : METHOD_ADDR k = METHOD_ADDR k' -> k = k'.
Proof.
  intros E. pose proof (lookup_base k) as Hk. rewrite E, lookup_base in Hk. by injection Hk.
Qed.

Section Laws.
Context {X : Type} `{Renderer X} `{VshEmu}.
Implicit Types d : NV2AState X.

Definition is_inc (f : MethodFunc X) : bool := match f with MethodInc _ _ => true | _ => false end.
Definition is_single (f : MethodFunc X) : bool := match f with Method _ => true | _ => false end.

(** What an entry has to satisfy: [inc] and [single] say how it is defined, [next] that
    the next entry has the same handler. *)
Definition entry_check (i addr e : Z) (inc single next : bool) : bool :=
  (addr <=? 4 * i) && (4 * i <? e)
  && (negb inc || (e <=? 0x2000) && (e mod 4 =? 0) && ((e <=? 4 * i + 4) || next))
  && (negb ((i =? 0) || (0x60 <=? i) && (i <? 0x80) || (4 * i =? NV097_DRAW_ARRAYS)) || single).

Lemma entry_check_spec i addr e inc single next : entry_check i addr e inc single next = true ->
  addr <= 4 * i < e
  /\ (inc = true -> e <= 0x2000 /\ e mod 4 = 0 /\ (4 * i + 4 < e -> next = true))
  /\ (single_method (4 * i) -> single = true).
Proof.
  unfold entry_check, single_method. intros Ho. rewrite !andb_true_iff in Ho.
  destruct Ho as [[[H1%Z.leb_le H2%Z.ltb_lt] H3] H4]. split; [lia|]. split.
  - intros ->. cbn [negb orb] in H3. rewrite !andb_true_iff in H3.
    destruct H3 as [[H5%Z.leb_le H6%Z.eqb_eq] H7]. split; [done|]. split; [done|]. intros Hlt.
    apply orb_true_iff in H7 as [H7%Z.leb_le|H7]; [lia|done].
  - intros Hs. apply orb_true_iff in H4 as [H4|H4]; [|done]. exfalso.
    apply negb_true_iff, orb_false_iff in H4 as [[H5 H6]%orb_false_iff H7].
    apply Z.eqb_neq in H5, H7. destruct Hs as [Hs|[Hs|Hs]]; [lia| |done].
    rewrite (proj2 (Z.leb_le _ _)), (proj2 (Z.ltb_lt _ _)) in H6 by lia. done.
Qed.

Definition next_same (i : Z) (k : KelvinMethod) : bool :=
  match pgraph_kelvin_methods (i + 1) with
  | Some k' => METHOD_ADDR k' =? METHOD_ADDR k
  | None => false
  end.

Lemma next_same_spec i k : next_same i k = true -> pgraph_kelvin_methods (i + 1) = Some k.
Proof.
  unfold next_same. destruct (pgraph_kelvin_methods (i + 1)); [|done].
  intros E%Z.eqb_eq. f_equal. by apply METHOD_ADDR_inj.
Qed.

Definition entry_ok (i : Z) (k : KelvinMethod) : bool :=
  entry_check i (METHOD_ADDR k) (METHOD_RANGE_END k) (is_inc (method_func k))
    (is_single (method_func k)) (next_same i k).

Lemma table_ok i k : 0 <= i < 0x800 -> pgraph_kelvin_methods i = Some k -> entry_ok i k = true.
Proof.
  intros Hi Ek.
  assert (forallb (fun i => match pgraph_kelvin_methods i with
    | Some k => entry_ok i k | None => true end) (zseq 0x800) = true) as Hall
    by (vm_compute; reflexivity).
  rewrite forallb_forall in Hall. specialize (Hall i). rewrite Ek in Hall. apply Hall.
  apply list_elem_of_In, elem_of_zseq. lia.
Qed.

(** The methods of an entry lie between its address and its end. *)
Lemma table_bounds i k : 0 <= i < 0x800 -> pgraph_kelvin_methods i = Some k ->
  METHOD_ADDR k <= 4 * i < METHOD_RANGE_END k.
Proof. intros Hi Ek. apply (entry_check_spec _ _ _ _ _ _ (table_ok i k Hi Ek)). Qed.

Lemma kelvin_method_Some i f : kelvin_method i = Some f ->
  0 <= i < 0x800 /\ exists k, pgraph_kelvin_methods i = Some k /\ f = method_func k.
Proof.
  cbn [kelvin_method kelvin]. destruct (Z.leb_spec 0 i), (Z.ltb_spec i 0x800); cbn [andb]; try done.
  intros (k & -> & Ek)%fmap_Some. split; [lia|eauto].
Qed.

Lemma kelvin_method_at i k : 0 <= i < 0x800 -> pgraph_kelvin_methods i = Some k ->
  kelvin_method (X := X) i = Some (method_func k).
Proof.
  intros Hi Ek. cbn [kelvin_method kelvin].
  rewrite (proj2 (Z.leb_le _ _)), (proj2 (Z.ltb_lt _ _)) by lia. by rewrite Ek.
Qed.

Lemma inc_end k e h : method_func k = MethodInc e h -> e = METHOD_RANGE_END k.
Proof. destruct k; cbn [method_func]; try done; by intros [= <- _]. Qed.

Lemma table_step i k e h : 0 <= i < 0x800 -> pgraph_kelvin_methods i = Some k ->
  method_func k = MethodInc (X := X) e h ->
  4 * i < e <= 0x2000 /\ e mod 4 = 0
  /\ (4 * i + 4 < e -> pgraph_kelvin_methods (i + 1) = Some k).
Proof.
  intros Hi Ek Ef. destruct (entry_check_spec _ _ _ _ _ _ (table_ok i k Hi Ek)) as (Hb & Hinc & _).
  rewrite (inc_end k e h Ef). destruct Hinc as (H1 & H2 & H3); [by rewrite Ef|].
  split; [lia|]. split; [done|]. intros Hl. by apply next_same_spec, H3.
Qed.

Lemma table_range i e h : kelvin_method i = Some (MethodInc (X := X) e h) ->
  4 * i < e <= 0x2000 /\ e mod 4 = 0
  /\ forall j, i <= j -> 4 * j < e -> kelvin_method j = Some (MethodInc e h).
Proof.
  intros E. destruct (kelvin_method_Some i _ E) as (Hi & k & Ek & Ef). symmetry in Ef.
  destruct (table_step i k e h Hi Ek Ef) as (He & He4 & _). split; [done|]. split; [done|].
  assert (forall n : nat, 4 * (i + Z.of_nat n) < e -> pgraph_kelvin_methods (i + Z.of_nat n) = Some k)
    as Hn.
  { induction n as [|n IH]; intros Hl; [by rewrite Z.add_0_r|].
    destruct (table_step (i + Z.of_nat n) k e h ltac:(lia) (IH ltac:(lia)) Ef) as (_ & _ & Hs).
    replace (i + Z.of_nat (S n)) with (i + Z.of_nat n + 1) by lia. apply Hs. lia. }
  intros j Hj Hl. rewrite <- Ef. apply kelvin_method_at; [lia|].
  replace j with (i + Z.of_nat (Z.to_nat (j - i))) by lia. apply Hn. lia.
Qed.

Lemma table_single i f : single_method (4 * i) -> kelvin_method (X := X) i = Some f -> ~ bursts f.
Proof.
  intros Hs E. destruct (kelvin_method_Some i f E) as (Hi & k & Ek & ->).
  destruct (entry_check_spec _ _ _ _ _ _ (table_ok i k Hi Ek)) as (_ & _ & H1).
  intros Hb. specialize (H1 Hs). by destruct (method_func k).
Qed.

End Laws.

End KelvinTable.
