(* ===== verification/KelvinLaws.v ===== *)
(** * The Kelvin handlers satisfy the laws of the dispatcher

    A handler that takes several words at once leaves the current object and the
    conditions the FIFO waits for alone, and no handler looks at the FIFO registers: the
    [KelvinLaws] instance of the table, against which the FIFO theorems are proved. *)

From S2P Require Import Prelude Nv2aRegs Nv2aState Float32 Vertex Pgraph Kelvin KelvinTable.
Import Nv2aState Vertex Pgraph Kelvin KelvinTable.

Module KelvinLaws.

Definition quiet (pg pg' : PGRAPHState) : Prop :=
  same_context pg pg' /\ wait_view pg' = wait_view pg.

#[export] Instance quiet_preorder : PreOrder quiet.
Proof.
  split.
  - by split.
  - intros x y z [H1 H2] [H3 H4]. split; [|congruence].
    intros r Hr. by rewrite (H3 r Hr), (H1 r Hr).
Qed.

(** The result of an operation, if there is one, is quiet. *)
Definition quiet_res (pg : PGRAPHState) (r : res PGRAPHState) : Prop :=
  forall pg', r = Ok pg' -> quiet pg pg'.

Create HintDb quiet.

Lemma quiet_ok pg pg' : quiet pg pg' -> quiet_res pg (Ok pg').
Proof. by intros Hq p [= <-]. Qed.

Lemma quiet_fault pg f : quiet_res pg (Fault f).
Proof. done. Qed.

Lemma quiet_bind {A} pg (m : res A) k : (forall a, quiet_res pg (k a)) -> quiet_res pg (m ≫= k).
Proof. intros Hk pg' (a & _ & E)%res_bind_Ok. by apply (Hk a). Qed.

Lemma quiet_seq pg m (k : PGRAPHState -> res PGRAPHState) : quiet_res pg m ->
  (forall pg1, quiet_res pg1 (k pg1)) -> quiet_res pg (m ≫= k).
Proof.
  intros Hm Hk pg' (pg1 & E1 & E)%res_bind_Ok. transitivity pg1; [by apply Hm|by apply (Hk pg1)].
Qed.

Lemma quiet_if pg (b : bool) r1 r2 : quiet_res pg r1 -> quiet_res pg r2 ->
  quiet_res pg (if b then r1 else r2).
Proof. by destruct b. Qed.

(** Registers outside the context and the FIFO control. *)
Definition quiet_reg (r : Z) : Prop := 0x200 <= r /\ r <> NV_PGRAPH_FIFO.

Lemma reg_w_quiet pg r v : quiet_reg r -> quiet pg (reg_w pg r v).
Proof.
  intros [Hr Hf]. split.
  - intros i Hi. rewrite regs_reg_w, lookup_insert_ne by lia. done.
  - unfold wait_view. rewrite regs_reg_w, reg_insert_ne by done. unfold reg_w. by case_match.
Qed.

Lemma set_mask_quiet pg r mask v : quiet_reg r -> quiet pg (PG_SET_MASK pg r mask v).
Proof. apply reg_w_quiet. Qed.

Lemma pgraph_reg_w_quiet pg r v : quiet_reg r -> quiet_res pg (pgraph_reg_w pg r v).
Proof.
  intros Hr. unfold pgraph_reg_w. repeat case_match; auto using quiet_fault, quiet_ok, reg_w_quiet.
Qed.

Lemma res_foldl_quiet {A} (f : PGRAPHState -> A -> res PGRAPHState) pg l :
  (forall pg a, a ∈ l -> quiet_res pg (f pg a)) -> quiet_res pg (res_foldl f pg l).
Proof.
  induction l as [|a l IH] in pg |- *; intros Hf; cbn [res_foldl].
  - by apply quiet_ok.
  - intros pg' (pg1 & E1 & E)%res_bind_Ok. transitivity pg1.
    + apply (Hf pg a); [by left|done].
    + apply (IH pg1); [|done]. intros pg2 b Hb. apply Hf. by right.
Qed.

#[export] Hint Resolve quiet_ok quiet_fault quiet_if pgraph_reg_w_quiet set_mask_quiet reg_w_quiet
  : quiet.

(** A few fields changed, none of them looked at. *)
Ltac quiet_fields := solve [apply quiet_ok; done | done].

(** ** The helpers *)

Lemma set_vsh_constant_quiet pg row col v : quiet_res pg (set_vsh_constant pg row col v).
Proof. apply quiet_bind. intros [rows dirty]. by apply quiet_ok. Qed.
Lemma set_ltctxa_quiet pg row col v : quiet_res pg (set_ltctxa pg row col v).
Proof. apply quiet_bind. intros [rows dirty]. by apply quiet_ok. Qed.
Lemma set_ltctxb_quiet pg row col v : quiet_res pg (set_ltctxb pg row col v).
Proof. apply quiet_bind. intros [rows dirty]. by apply quiet_ok. Qed.
Lemma set_ltc1_quiet pg row col v : quiet_res pg (set_ltc1 pg row col v).
Proof. apply quiet_bind. intros [rows dirty]. by apply quiet_ok. Qed.

Lemma on_attr_quiet pg i f : quiet_res pg (on_attr pg i f).
Proof. unfold on_attr. do 3 (apply quiet_bind; intros ?). by apply quiet_ok. Qed.

Lemma set_attribute_quiet pg i ws : quiet_res pg (set_attribute pg i ws).
Proof.
  unfold set_attribute, pgraph_allocate_inline_buffer_vertices.
  apply quiet_seq; intros; apply on_attr_quiet.
Qed.

Lemma finish_quiet pg : quiet_res pg (pgraph_finish_inline_buffer_vertex pg).
Proof.
  unfold pgraph_finish_inline_buffer_vertex. do 2 (apply quiet_bind; intros ?). by apply quiet_ok.
Qed.

Lemma push_element_quiet pg v : quiet_res pg (push_element pg v).
Proof. unfold push_element. apply quiet_bind. intros l. by apply quiet_ok. Qed.

Lemma push_range_quiet pg start count : quiet_res pg (push_range pg start count).
Proof. apply res_foldl_quiet. intros. apply push_element_quiet. Qed.

#[export] Hint Resolve set_vsh_constant_quiet set_ltctxa_quiet set_ltctxb_quiet set_ltc1_quiet
  on_attr_quiet set_attribute_quiet finish_quiet push_element_quiet push_range_quiet : quiet.

(** ** Registers *)

Lemma quiet_reg_const r : (0x200 <=? r) && negb (r =? NV_PGRAPH_FIFO) = true -> quiet_reg r.
Proof. intros [H1%Z.leb_le H2%negb_true_iff%Z.eqb_neq]%andb_true_iff. by split. Qed.

Lemma quiet_reg_above b x : (NV_PGRAPH_FIFO <? b) = true -> 0 <= x -> quiet_reg (b + x).
Proof. intros Hb%Z.ltb_lt Hx. unfold quiet_reg, NV_PGRAPH_FIFO in *. lia. Qed.

Lemma slot_of_nonneg m b s : 0 < s -> 0 <= slot_of m b s.
Proof. intros Hs. unfold slot_of, uwrap. apply Z.div_pos; [|done]. by apply Z.mod_pos_bound. Qed.

Lemma quiet_reg_slot b m a s : (NV_PGRAPH_FIFO <? b) = true -> 0 < s ->
  quiet_reg (b + slot_of m a s * 4).
Proof. intros Hb Hs. apply quiet_reg_above; [done|]. pose proof (slot_of_nonneg m a s Hs). lia. Qed.

#[export] Hint Extern 1 (quiet_reg _) =>
  first [by apply quiet_reg_const | by apply quiet_reg_slot] : quiet.

Lemma set_windows_quiet pg base slot p : (NV_PGRAPH_FIFO <? base) = true -> 0 <= slot ->
  quiet_res pg (set_windows pg base slot p).
Proof.
  intros Hb Hs. apply res_foldl_quiet. intros pg1 i Hi. apply pgraph_reg_w_quiet, quiet_reg_above.
  { done. }
  apply elem_of_seqZ in Hi. lia.
Qed.

Lemma quiet_range_switch pg x cases dflt : Forall (fun c => quiet_res pg c.2) cases ->
  quiet_res pg dflt -> quiet_res pg (range_switch x cases dflt).
Proof.
  intros Hc Hd. induction Hc as [|[[lo hi] e] l He _ IH]; [done|]. cbn [range_switch]. by case_match.
Qed.

Lemma quiet_set_if pg pg1 (b : bool) r mask v : quiet pg pg1 -> quiet_reg r ->
  quiet pg (if b then PG_SET_MASK pg1 r mask v else pg1).
Proof. intros Hq Hr. destruct b; [|done]. transitivity pg1; [done|]. by apply set_mask_quiet. Qed.

(** ** The handlers *)

Ltac quiet_step :=
  first
  [ by apply quiet_ok
  | solve [auto 2 with quiet]
  | apply quiet_if
  | apply quiet_ok, quiet_set_if; [done|by apply quiet_reg_const]
  | apply quiet_range_switch; [repeat constructor; cbn [snd]|]
  | apply set_windows_quiet; [done|by apply slot_of_nonneg]
  | apply quiet_seq; [|intros ?]
  | apply quiet_bind; intros ? ].

Ltac quiet_handler :=
  match goal with
  | |- quiet_res _ (?h _ _ _) => unfold h
  | |- quiet_res _ (?h _ _) => unfold h
  end;
  unfold set_matrix_word, set_attribute_4s, set_tex_2s, set_color_3f, set_attribute_f, set_tex_2f,
    set_attribute_4ub, touch_texture;
  cbv zeta; repeat quiet_step.

Section Laws.
Context {X : Type} `{RendererLaws X} `{VshEmu}.
Implicit Types d : NV2AState X.

Lemma on_pg_method_quiet f d s m p d' : quiet_res (pgraph d) (f (pgraph d) m p) ->
  on_pg_method f d s m p = Ok d' -> quiet (pgraph d) (pgraph d').
Proof. intros Hq (pg & E & [= <-])%res_bind_Ok. by apply Hq. Qed.

Lemma on_pg_res_quiet f d s m p d' : quiet_res (pgraph d) (f (pgraph d) p) ->
  on_pg_res f d s m p = Ok d' -> quiet (pgraph d) (pgraph d').
Proof. intros Hq (pg & E & [= <-])%res_bind_Ok. by apply Hq. Qed.

Lemma inc_quiet k d s m p d' : is_inc (X := X) (method_func k) = true ->
  method_handler (method_func k) d s m p = Ok d' -> quiet (pgraph d) (pgraph d').
Proof.
  destruct k; cbn [method_func is_inc method_handler]; try (intros [=]; fail); intros _;
    (apply on_pg_method_quiet || apply on_pg_res_quiet); quiet_handler.
Qed.

(** Expanding the draw calls of a batch may draw it. *)
Lemma flush_squashed_quiet d d' : flush_squashed d = Ok d' -> quiet (pgraph d) (pgraph d').
Proof.
  unfold flush_squashed. case_match; [|by intros [= <-]].
  intros (d1 & E1 & [= <-])%res_bind_Ok. transitivity (pgraph d1); [by apply flush_quiet|done].
Qed.

Lemma expand_range_quiet pg start count : quiet_res pg (expand_range pg start count).
Proof.
  unfold expand_range. apply quiet_bind. intros _. apply quiet_seq; [apply push_range_quiet|].
  intros pg1. by apply quiet_ok.
Qed.

Lemma expand_quiet d d' : expand_if_drawn d = Ok d' -> quiet (pgraph d) (pgraph d').
Proof.
  unfold expand_if_drawn. case_match; [|by intros [= <-]]. unfold pgraph_expand_draw_arrays.
  intros (start & _ & (count & _ & (d1 & E1 & (pg & Epg & [= <-])%res_bind_Ok)%res_bind_Ok
    )%res_bind_Ok)%res_bind_Ok.
  transitivity (pgraph d1); [by apply flush_squashed_quiet|by eapply expand_range_quiet].
Qed.

Lemma element_quiet d d' (k : NV2AState X -> res PGRAPHState) :
  (forall d, quiet_res (pgraph d) (k d)) ->
  (d ← expand_if_drawn d;
   _ ← c_assert (inline_elements_length (pgraph d) <? NV2A_MAX_BATCH_LENGTH);
   pg ← k d; Ok (d <| pgraph := pg |>)) = Ok d' -> quiet (pgraph d) (pgraph d').
Proof.
  intros Hk (d1 & E1 & (u & _ & (pg & Epg & [= <-])%res_bind_Ok)%res_bind_Ok)%res_bind_Ok.
  transitivity (pgraph d1); [by apply expand_quiet|by apply Hk].
Qed.

Lemma bursts_quiet k d s m p d' : bursts (X := X) (method_func k) ->
  method_handler (method_func k) d s m p = Ok d' -> quiet (pgraph d) (pgraph d').
Proof.
  intros Hb E. destruct (is_inc (X := X) (method_func k)) eqn:Ei; [by eapply inc_quiet|].
  destruct k; cbn [method_func bursts is_inc] in *; try done; revert E;
    cbn [method_handler]; unfold on_dev.
  - unfold NV097_ARRAY_ELEMENT16_handler. cbv zeta. intros E.
    apply (element_quiet d d' (fun d => pg ← push_element (pgraph d) (Z.land p 0xFFFF);
      push_element pg (Z.shiftr p 16))).
    { intros d0. apply quiet_seq; intros; apply push_element_quiet. }
    rewrite <- E. destruct (expand_if_drawn d) as [d1|]; [|done]. cbn [mbind res_mbind res_bind].
    destruct (c_assert _); [|done]. cbn [mbind res_mbind res_bind].
    by destruct (push_element (pgraph d1) _).
  - apply (element_quiet d d' (fun d => push_element (pgraph d) p)).
    intros d0. apply push_element_quiet.
  - apply on_pg_res_quiet. quiet_handler.
Qed.

(** ** What the handlers see of the FIFO registers *)

Lemma blind_ok (g : NV2AState X -> NV2AState X) :
  (forall r d, g (with_regs r d) = with_regs r (g d)) -> fifo_blind (fun d => Ok (g d)).
Proof. intros Hg r d _. cbn. by rewrite Hg. Qed.

Lemma blind_seq f g : fifo_blind f -> fifo_blind g -> fifo_blind (X := X) (fun d => d ← f d; g d).
Proof.
  intros Hf Hg r d Hr. rewrite (Hf r d Hr). destruct (f d) as [d1|] eqn:E; [|done].
  cbn [mbind res_mbind res_bind]. apply (Hg r d1). unfold alike. by rewrite (blind_regs _ _ _ Hf E).
Qed.

Lemma blind_after f (g : NV2AState X -> NV2AState X) : fifo_blind f ->
  (forall r d, g (with_regs r d) = with_regs r (g d)) -> fifo_blind (fun d => f (g d)).
Proof.
  intros Hf Hg r d Hr. rewrite Hg. apply Hf. unfold alike.
  by rewrite <- (with_own_regs d), Hg.
Qed.

Lemma blind_ops c : fifo_blind (X := X) (ops c).
Proof. intros r d Hr. by apply ops_pfifo. Qed.

Lemma blind_pg (f : PGRAPHState -> res PGRAPHState) :
  fifo_blind (X := X) (fun d => pg ← f (pgraph d); Ok (d <| pgraph := pg |>)).
Proof. intros r d _. change (pgraph (with_regs r d)) with (pgraph d). by destruct (f (pgraph d)). Qed.

Lemma blind_if (b : NV2AState X -> bool) f g : (forall r d, b (with_regs r d) = b d) ->
  fifo_blind f -> fifo_blind g -> fifo_blind (fun d => if b d then f d else g d).
Proof. intros Hb Hf Hg r d Hr. rewrite Hb. destruct (b d); auto. Qed.

Lemma blind_assert b f : (forall r d, b (with_regs r d) = b d) ->
  fifo_blind f -> fifo_blind (X := X) (fun d => _ ← c_assert (b d); f d).
Proof. intros Hb Hf r d Hr. rewrite Hb. destruct (c_assert (b d)); [by apply Hf|done]. Qed.

(** An update of the device that does not look at the FIFO. *)
Ltac blind_update := apply blind_ok; intros ? ?; reflexivity.

Lemma blind_irq (f : PGRAPHState -> PGRAPHState) :
  fifo_blind (X := X) (fun d => Ok (nv2a_update_irq (d <| pgraph := f (pgraph d) |>))).
Proof. by intros r d _. Qed.

Lemma no_operation_blind s m p : fifo_blind (X := X) (fun d => NV097_NO_OPERATION_handler d s m p).
Proof.
  unfold NV097_NO_OPERATION_handler. destruct (p =? 0); [by apply blind_ok|].
  apply blind_assert; [done|]. apply (blind_irq (fun pg => notify pg s m p)).
Qed.

(** What is read from the PGRAPH state does not depend on the FIFO either. *)
Lemma blind_read {A} (f : PGRAPHState -> res A) (k : A -> NV2AState X -> res (NV2AState X)) :
  (forall a, fifo_blind (k a)) -> fifo_blind (fun d => a ← f (pgraph d); k a d).
Proof.
  intros Hk r d Hr. change (pgraph (with_regs r d)) with (pgraph d).
  destruct (f (pgraph d)) as [a|]; [by apply (Hk a r d)|done].
Qed.

Lemma flush_squashed_blind : fifo_blind (X := X) flush_squashed.
Proof.
  apply blind_if; [done| |by apply blind_ok]. apply blind_seq; [apply blind_ops|blind_update].
Qed.

Lemma expand_blind : fifo_blind (X := X) expand_if_drawn.
Proof.
  apply blind_if; [done| |by apply blind_ok]. unfold pgraph_expand_draw_arrays. cbv zeta.
  apply (blind_read (fun pg => reg_read 1250 (draw_arrays_start pg) (u32 (draw_arrays_length pg - 1)))).
  intros start.
  apply (blind_read (fun pg => reg_read 1250 (draw_arrays_count pg) (u32 (draw_arrays_length pg - 1)))).
  intros count. apply blind_seq; [apply flush_squashed_blind|].
  apply (blind_pg (fun pg => expand_range pg (u32 start) (u32 count))).
Qed.

Lemma element_blind f : fifo_blind (X := X) (fun d =>
  d ← expand_if_drawn d;
  _ ← c_assert (inline_elements_length (pgraph d) <? NV2A_MAX_BATCH_LENGTH);
  pg ← f (pgraph d); Ok (d <| pgraph := pg |>)).
Proof.
  apply blind_seq; [apply expand_blind|]. apply blind_assert; [done|apply blind_pg].
Qed.

Lemma begin_end_blind p : fifo_blind (X := X) (fun d => NV097_SET_BEGIN_END_handler d p).
Proof.
  unfold NV097_SET_BEGIN_END_handler. cbv zeta. case_match.
  - apply blind_if; [done|blind_update|]. apply blind_seq; [apply blind_ops|blind_update].
  - apply blind_if; [done|by apply blind_ok|]. apply blind_assert; [done|].
    apply (blind_after (ops DrawBegin) (fun d => d <| pgraph ::= fun pg =>
      pgraph_reset_inline_buffers (pg <| primitive_mode := p |>) |>)); [apply blind_ops|done].
Qed.

Lemma semaphore_blind p :
  fifo_blind (X := X) (fun d => NV097_BACK_END_WRITE_SEMAPHORE_RELEASE_handler d p).
Proof.
  apply blind_seq; [apply blind_ops|]. intros r d _. cbv zeta.
  change (pgraph (with_regs r d)) with (pgraph d). change (vram (with_regs r d)) with (vram d).
  change (nv_dma_map (with_regs r d)) with (nv_dma_map d).
  destruct (nv_dma_map d _) as [[a n]|]; [|done]. cbn [mbind res_mbind res_bind].
  destruct (c_assert _); [|done]. cbn [mbind res_mbind res_bind].
  by destruct (st_le (vram d) _ _ _).
Qed.

Lemma on_pg_blind f s m p : fifo_blind (X := X) (fun d => on_pg f d s m p).
Proof. by intros r d _. Qed.

Lemma on_pg_res_blind f s m p : fifo_blind (X := X) (fun d => on_pg_res f d s m p).
Proof. apply (blind_pg (fun pg => f pg p)). Qed.

Lemma on_pg_method_blind f s m p : fifo_blind (X := X) (fun d => on_pg_method f d s m p).
Proof. apply (blind_pg (fun pg => f pg m p)). Qed.

Lemma blind_upd (F : PGRAPHState -> PGRAPHState) :
  fifo_blind (X := X) (fun d => Ok (d <| pgraph ::= F |>)).
Proof. by intros r d _. Qed.

Lemma on_dev_blind f s m p : fifo_blind (fun d => f d p) ->
  fifo_blind (X := X) (fun d => on_dev f d s m p).
Proof. done. Qed.

Lemma surface_then_blind F :
  fifo_blind (X := X) (fun d => d ← surface_update d; Ok (d <| pgraph ::= F |>)).
Proof. apply blind_seq; [apply blind_ops|apply blind_upd]. Qed.

Lemma array_element16_blind p : fifo_blind (X := X) (fun d => NV097_ARRAY_ELEMENT16_handler d p).
Proof.
  unfold NV097_ARRAY_ELEMENT16_handler. cbv zeta. apply blind_seq; [apply expand_blind|].
  apply blind_assert; [done|]. apply (blind_read (fun pg => push_element pg (Z.land p 0xFFFF))).
  intros pg. apply (blind_read (fun _ => push_element pg (Z.shiftr p 16))). intros pg'.
  apply (blind_upd (fun _ => pg')).
Qed.

Lemma method_blind k s m p :
  fifo_blind (X := X) (fun d => method_handler (method_func k) d s m p).
Proof.
  destruct k; cbn [method_func method_handler];
    first [ apply on_pg_blind | apply on_pg_res_blind | apply on_pg_method_blind
          | apply no_operation_blind | apply on_dev_blind ];
    first [ apply begin_end_blind | apply semaphore_blind | apply array_element16_blind
          | apply (element_blind (fun pg => push_element pg p))
          | apply blind_ops | apply surface_then_blind | idtac ].
  - apply blind_seq; [apply blind_ops|]. apply blind_seq; [apply blind_ops|apply blind_upd].
  - apply blind_seq; [apply blind_ops|apply blind_upd].
  - apply blind_assert; [done|apply blind_ops].
Qed.

#[export] Instance kelvin_laws : Pgraph.KelvinLaws X.
Proof.
  constructor.
  - apply table_range.
  - intros f d s m p d' _ _ Ef Hb E. destruct (kelvin_method_Some _ _ Ef) as (_ & k & _ & ->).
    by apply (bursts_quiet k d s m p).
  - apply table_single.
  - intros i f d s m p r Ef Hr. destruct (kelvin_method_Some _ _ Ef) as (_ & k & _ & ->).
    by apply (method_blind k s m p r d).
Qed.

End Laws.

End KelvinLaws.
