(* ===== verification/KelvinBatch.v ===== *)
(** * Batches of indexed vertices (pgraph/pgraph.c)

    [DRAW_ARRAYS] collects ranges of vertices and joins a range to the one it continues;
    [ARRAY_ELEMENT16] and [ARRAY_ELEMENT32] collect indices, turning the ranges there are
    into indices first.  Whatever the mixture, the batch is the sequence of vertices the
    game asked for; the exception is a batch whose ranges could not be joined, whose last
    range is drawn twice. *)

From S2P Require Import Prelude Nv2aRegs Nv2aState Vertex Pgraph Kelvin.
Import Nv2aState Vertex Pgraph Kelvin.

Module KelvinBatch.

(** ** What a draw gets *)

Definition elements (pg : PGRAPHState) : list Z :=
  (fun i => reg (inline_elements pg) i) <$> zseq (inline_elements_length pg).
Definition draw_range (pg : PGRAPHState) (i : Z) : list Z :=
  seqZ (reg (draw_arrays_start pg) i) (reg (draw_arrays_count pg) i).
Definition draw_arrays (pg : PGRAPHState) : list Z :=
  zseq (draw_arrays_length pg) ≫= draw_range pg.

(** The renderers draw the elements if there are any, else the ranges. *)
Definition batch (pg : PGRAPHState) : list Z := elements pg ++ draw_arrays pg.

(** ** Elements *)

(** The state with [n] more elements [vs]. *)
Definition with_elements (pg : PGRAPHState) (m : regfile) (n : Z) : PGRAPHState :=
  pg <| inline_elements := m |> <| inline_elements_length := n |>.

Lemma elements_with pg m n : elements (with_elements pg m n) = (fun i => reg m i) <$> zseq n.
Proof. done. Qed.

Lemma elements_reset pg : elements (pgraph_reset_draw_arrays pg) = elements pg.
Proof. done. Qed.

Lemma push_element_ok pg v : 0 <= inline_elements_length pg < NV2A_MAX_BATCH_LENGTH ->
  exists m, push_element pg v = Ok (with_elements pg m (inline_elements_length pg + 1))
    /\ elements (with_elements pg m (inline_elements_length pg + 1)) = elements pg ++ [v].
Proof.
  intros Hn. exists (<[inline_elements_length pg := v]> (inline_elements pg)).
  unfold push_element, reg_write.
  rewrite (proj2 (Z.leb_le _ _)), (proj2 (Z.ltb_lt _ _)) by lia. cbn [andb mbind res_mbind res_bind].
  rewrite uwrap_id by (unfold NV2A_MAX_BATCH_LENGTH in *; lia). split; [done|].
  rewrite elements_with. rewrite zseq_S, fmap_app by lia. f_equal.
  - apply list_fmap_ext. intros _ i Hi%list_elem_of_lookup_2. apply elem_of_zseq in Hi.
    apply reg_insert_ne. lia.
  - cbn. by rewrite reg_insert.
Qed.

Lemma with_elements_twice pg m n m' n' :
  with_elements (with_elements pg m n) m' n' = with_elements pg m' n'.
Proof. done. Qed.

Lemma push_all_ok pg vs :
  0 <= inline_elements_length pg -> inline_elements_length pg + Z.of_nat (length vs) <= NV2A_MAX_BATCH_LENGTH ->
  exists m, res_foldl push_element pg vs
    = Ok (with_elements pg m (inline_elements_length pg + Z.of_nat (length vs)))
    /\ elements (with_elements pg m (inline_elements_length pg + Z.of_nat (length vs)))
       = elements pg ++ vs.
Proof.
  induction vs as [|v vs IH] in pg |- *; intros Hn Hl; cbn [length] in *.
  { exists (inline_elements pg). rewrite Z.add_0_r, app_nil_r. split; [by destruct pg|done]. }
  destruct (push_element_ok pg v) as (m & E & Ee); [lia|]. cbn [res_foldl]. rewrite E.
  cbn [mbind res_mbind res_bind]. set (pg1 := with_elements pg m _) in *.
  assert (inline_elements_length pg1 = inline_elements_length pg + 1) as En by done.
  destruct (IH pg1) as (m2 & E2 & Ee2); [lia..|]. exists m2. rewrite E2. rewrite En in *.
  rewrite Nat2Z.inj_succ.
  replace (inline_elements_length pg + Z.succ (Z.of_nat (length vs)))
    with (inline_elements_length pg + 1 + Z.of_nat (length vs)) by lia.
  split; [done|]. change (with_elements pg m2 ?n) with (with_elements pg1 m2 n).
  by rewrite Ee2, Ee, <- app_assoc.
Qed.

Lemma push_range_all pg start count :
  push_range pg start count = res_foldl push_element pg ((fun i => u32 (start + i)) <$> zseq count).
Proof. unfold push_range. apply res_foldl_fmap. Qed.

Lemma push_range_ok pg start count : 0 <= inline_elements_length pg -> 0 <= count ->
  0 <= start -> start + count <= 2 ^ 32 ->
  inline_elements_length pg + count <= NV2A_MAX_BATCH_LENGTH ->
  exists m, push_range pg start count = Ok (with_elements pg m (inline_elements_length pg + count))
    /\ elements (with_elements pg m (inline_elements_length pg + count))
       = elements pg ++ seqZ start count.
Proof.
  intros Hn Hc Hs Hsc Hl. rewrite push_range_all.
  assert ((fun i => u32 (start + i)) <$> zseq count = seqZ start count) as ->.
  { unfold zseq. transitivity (Z.add start <$> seqZ 0 count);
      [|by rewrite fmap_add_seqZ, Z.add_0_r].
    apply list_fmap_ext. intros _ i Hi%list_elem_of_lookup_2. apply elem_of_seqZ in Hi.
    apply uwrap_id. lia. }
  destruct (push_all_ok pg (seqZ start count) Hn) as (m & E & Ee); rewrite length_seqZ in *;
    [lia|]. rewrite Z2Nat.id in * by lia. eauto.
Qed.

(** ** Ranges *)

(** 24-bit starts, and at most 256 vertices beyond. *)
Definition draws_wf (n : Z) (starts counts : regfile) : Prop :=
  forall i, 0 <= i < n ->
    0 <= reg starts i /\ 1 <= reg counts i /\ reg starts i + reg counts i <= 2 ^ 24 + 255.

Record batch_wf (pg : PGRAPHState) : Prop := {
  bw_elements : 0 <= inline_elements_length pg <= NV2A_MAX_BATCH_LENGTH;
  bw_draws : 0 <= draw_arrays_length pg <= 1250;
  bw_ranges : draws_wf (draw_arrays_length pg) (draw_arrays_start pg) (draw_arrays_count pg);
  (** Ranges and elements do not mix. *)
  bw_one : inline_elements_length pg = 0 \/ draw_arrays_length pg = 0
}.

Definition draw_start (parameter : Z) : Z := GET_MASK parameter NV097_DRAW_ARRAYS_START_INDEX.
Definition draw_count (parameter : Z) : Z := GET_MASK parameter NV097_DRAW_ARRAYS_COUNT + 1.

#[local] Instance bf_start : BitField NV097_DRAW_ARRAYS_START_INDEX 0 24.
Proof. bitfield. Qed.
#[local] Instance bf_count : BitField NV097_DRAW_ARRAYS_COUNT 24 8.
Proof. bitfield. Qed.

Lemma draw_bounds p : 0 <= draw_start p < 2 ^ 24 /\ 1 <= draw_count p <= 256.
Proof.
  unfold draw_start, draw_count.
  pose proof (GET_MASK_range p NV097_DRAW_ARRAYS_START_INDEX 0 24).
  pose proof (GET_MASK_range p NV097_DRAW_ARRAYS_COUNT 24 8). lia.
Qed.

(** The ranges before [n] do not change when the one at [n] does. *)
Lemma ranges_frame n pg pg' :
  (forall i, 0 <= i < n -> draw_range pg' i = draw_range pg i) ->
  zseq n ≫= draw_range pg' = zseq n ≫= draw_range pg.
Proof.
  intros Hr. assert (forall i, i ∈ zseq n -> draw_range pg' i = draw_range pg i) as Hl.
  { intros i Hi. by apply Hr, elem_of_zseq. }
  revert Hl. generalize (zseq n) as l. clear. induction l as [|i l IH]; intros Hl; [done|].
  cbn. rewrite (Hl i) by left. f_equal. apply IH. intros j Hj. apply Hl. by right.
Qed.

Lemma draw_arrays_S pg n : 0 <= n -> draw_arrays_length pg = n + 1 ->
  draw_arrays pg = (zseq n ≫= draw_range pg) ++ draw_range pg n.
Proof.
  intros Hn E. unfold draw_arrays. rewrite E, zseq_S, bind_app by done. cbn. by rewrite app_nil_r.
Qed.

(** A new range at the end. *)
Definition add_range (pg : PGRAPHState) (start count : Z) : PGRAPHState :=
  let n := draw_arrays_length pg in
  pg <| draw_arrays_start := <[n := start]> (draw_arrays_start pg) |>
     <| draw_arrays_count := <[n := count]> (draw_arrays_count pg) |>
     <| draw_arrays_length := n + 1 |> <| draw_arrays_prevent_connect := false |>.

Lemma add_range_batch pg start count : batch_wf pg -> inline_elements_length pg = 0 ->
  draw_arrays_length pg < 1250 -> 0 <= start < 2 ^ 24 -> 1 <= count <= 256 ->
  batch_wf (add_range pg start count)
  /\ batch (add_range pg start count) = batch pg ++ seqZ start count.
Proof.
  intros [He Hd Hr _] E0 Hn Hs Hc. set (n := draw_arrays_length pg) in *. split.
  - constructor; [done|change (0 <= n + 1 <= 1250); lia| |by left]. intros i Hi.
    change (0 <= i < n + 1) in Hi.
    change (0 <= reg (<[n := start]> (draw_arrays_start pg)) i
      /\ 1 <= reg (<[n := count]> (draw_arrays_count pg)) i
      /\ reg (<[n := start]> (draw_arrays_start pg)) i + reg (<[n := count]> (draw_arrays_count pg)) i
         <= 2 ^ 24 + 255).
    destruct (decide (i = n)) as [->|]; [rewrite !reg_insert; lia|].
    rewrite !reg_insert_ne by lia. apply Hr. lia.
  - unfold batch. change (elements (add_range pg start count)) with (elements pg).
    rewrite <- app_assoc. f_equal. rewrite (draw_arrays_S _ n) by (done || lia). f_equal.
    + unfold draw_arrays. fold n. apply ranges_frame. intros i Hi. unfold draw_range.
      change (seqZ (reg (<[n := start]> (draw_arrays_start pg)) i)
        (reg (<[n := count]> (draw_arrays_count pg)) i) = draw_range pg i).
      by rewrite !reg_insert_ne by lia.
    + change (seqZ (reg (<[n := start]> (draw_arrays_start pg)) n)
        (reg (<[n := count]> (draw_arrays_count pg)) n) = seqZ start count).
      by rewrite !reg_insert.
Qed.

(** The last range gets longer. *)
Definition extend_range (pg : PGRAPHState) (count : Z) : PGRAPHState :=
  let last := draw_arrays_length pg - 1 in
  pg <| draw_arrays_count :=
          <[last := reg (draw_arrays_count pg) last + count]> (draw_arrays_count pg) |>.

Definition range_end (pg : PGRAPHState) (i : Z) : Z :=
  reg (draw_arrays_start pg) i + reg (draw_arrays_count pg) i.

Lemma extend_range_batch pg count : batch_wf pg -> 0 < draw_arrays_length pg ->
  range_end pg (draw_arrays_length pg - 1) < 2 ^ 24 -> 1 <= count <= 256 ->
  batch_wf (extend_range pg count)
  /\ batch (extend_range pg count)
     = batch pg ++ seqZ (range_end pg (draw_arrays_length pg - 1)) count.
Proof.
  intros [He Hd Hr Ho] Hn Hs Hc. set (n := draw_arrays_length pg - 1) in *.
  set (counts := <[n := reg (draw_arrays_count pg) n + count]> (draw_arrays_count pg)).
  assert (draw_arrays_length pg = n + 1) as En by lia.
  pose proof (Hr n ltac:(lia)) as Hl. unfold range_end in *. split.
  - constructor; [done..| |done]. intros i Hi.
    change (0 <= reg (draw_arrays_start pg) i /\ 1 <= reg counts i
      /\ reg (draw_arrays_start pg) i + reg counts i <= 2 ^ 24 + 255).
    pose proof (Hr i Hi). unfold counts.
    destruct (decide (i = n)) as [->|]; [rewrite reg_insert; lia|by rewrite reg_insert_ne by lia].
  - unfold batch. change (elements (extend_range pg count)) with (elements pg).
    rewrite <- app_assoc. f_equal. rewrite !(draw_arrays_S _ n) by (done || lia).
    rewrite <- app_assoc. f_equal.
    + apply ranges_frame. intros i Hi.
      change (seqZ (reg (draw_arrays_start pg) i) (reg counts i) = draw_range pg i).
      unfold counts. by rewrite reg_insert_ne by lia.
    + change (seqZ (reg (draw_arrays_start pg) n) (reg counts n) = draw_range pg n
        ++ seqZ (reg (draw_arrays_start pg) n + reg (draw_arrays_count pg) n) count).
      unfold counts, draw_range. rewrite reg_insert, seqZ_app by lia. done.
Qed.

(** ** DRAW_ARRAYS *)

(** The bounds of the vertices used, which only the renderers look at. *)
Definition noted (pg : PGRAPHState) (start count : Z) : PGRAPHState :=
  pg <| draw_arrays_min_start := Z.min (draw_arrays_min_start pg) start |>
     <| draw_arrays_max_count := Z.max (draw_arrays_max_count pg) (start + count) |>.

(** Whether the new range continues the last one. *)
Definition connects (pg : PGRAPHState) (start : Z) : bool :=
  negb (draw_arrays_prevent_connect pg) && (0 <? draw_arrays_length pg)
  && (start =? range_end pg (draw_arrays_length pg - 1)).

Lemma connect_draw_spec pg start count : batch_wf pg -> 1 <= count <= 256 ->
  connect_draw pg start count
  = Ok (if connects pg start then Some (extend_range pg count) else None).
Proof.
  intros [_ Hd Hr _] Hc. unfold connect_draw, connects.
  destruct (negb (draw_arrays_prevent_connect pg)); [|done]. cbn [andb].
  destruct (Z.ltb_spec 0 (draw_arrays_length pg)); [|done]. cbn [andb].
  pose proof (Hr (draw_arrays_length pg - 1) ltac:(lia)) as Hl.
  rewrite !reg_read_ok by lia. cbn [mbind res_mbind res_bind].
  rewrite uwrap_id by lia. unfold range_end. case_match; [|done].
  rewrite swrap_small by lia. by rewrite reg_write_ok by lia.
Qed.

(** A call without elements either extends the last range or adds one. *)
Lemma draw_arrays_ranges pg p : batch_wf pg -> inline_elements_length pg = 0 ->
  draw_arrays_length pg < 1250 ->
  NV097_DRAW_ARRAYS_handler pg p
  = let pg1 := noted pg (draw_start p) (draw_count p) in
    Ok (if connects pg (draw_start p) then extend_range pg1 (draw_count p)
        else add_range pg1 (draw_start p) (draw_count p)).
Proof.
  intros Hw E0 Hn. destruct (draw_bounds p) as [Hs Hc].
  unfold NV097_DRAW_ARRAYS_handler. cbv zeta. fold (draw_start p) (draw_count p).
  rewrite E0. cbn [Z.eqb negb].
  fold (noted pg (draw_start p) (draw_count p)). set (pg1 := noted pg _ _).
  change (draw_arrays_length pg1) with (draw_arrays_length pg).
  rewrite (proj2 (Z.ltb_lt _ _)) by done. cbn [c_assert mbind res_mbind res_bind].
  assert (batch_wf pg1) as Hw1 by (destruct Hw; by constructor).
  rewrite (connect_draw_spec pg1) by done. cbn [mbind res_mbind res_bind].
  change (connects pg1 (draw_start p)) with (connects pg (draw_start p)).
  destruct (connects pg (draw_start p)); [done|]. destruct Hw as [_ Hd _ _].
  by rewrite !reg_write_ok by lia.
Qed.

(** A call after elements adds the vertices of the range to them. *)
Lemma draw_arrays_elements pg p : batch_wf pg -> inline_elements_length pg <> 0 ->
  inline_elements_length pg + draw_count p < NV2A_MAX_BATCH_LENGTH ->
  draw_arrays_prevent_connect pg = false ->
  exists m, NV097_DRAW_ARRAYS_handler pg p
    = Ok (with_elements pg m (inline_elements_length pg + draw_count p))
    /\ elements (with_elements pg m (inline_elements_length pg + draw_count p))
       = elements pg ++ seqZ (draw_start p) (draw_count p).
Proof.
  intros [He Hd Hr Ho] E0 Hn Hp. destruct (draw_bounds p) as [Hs Hc].
  unfold NV097_DRAW_ARRAYS_handler. cbv zeta. fold (draw_start p) (draw_count p).
  rewrite (proj2 (Z.eqb_neq _ _)) by done. cbn [negb].
  rewrite uwrap_id by (unfold NV2A_MAX_BATCH_LENGTH in *; lia).
  rewrite (proj2 (Z.ltb_lt _ _)), Hp by done. cbn [negb c_assert mbind res_mbind res_bind].
  apply push_range_ok; lia.
Qed.

Lemma with_elements_wf pg m n : batch_wf pg -> draw_arrays_length pg = 0 ->
  0 <= n <= NV2A_MAX_BATCH_LENGTH -> batch_wf (with_elements pg m n).
Proof. intros [He Hd Hr Ho] E0 Hn. constructor; [done..|by right]. Qed.

Lemma batch_elements pg : draw_arrays_length pg = 0 -> batch pg = elements pg.
Proof. intros E. unfold batch, draw_arrays. rewrite E. cbn. by rewrite app_nil_r. Qed.

(** ** Elements after ranges *)

(** The batches a renderer has been asked to draw.  A flush draws the batch there is; the
    rest of PGRAPH's state is not what the renderer keeps. *)
Class DrawLog (X : Type) `{Renderer X} := {
  drawn : NV2AState X -> list (list Z);
  drawn_flush d d1 : ops FlushDraw d = Ok d1 -> drawn d1 = drawn d ++ [batch (pgraph d)];
  drawn_pgraph d F : drawn (d <| pgraph ::= F |>) = drawn d
}.

Section Device.
Context {X : Type} `{Renderer X}.
Implicit Types d : NV2AState X.

(** Rewriting with these keeps the nested updates of the state folded. *)
Lemma pgraph_upd d F : pgraph (d <| pgraph ::= F |>) = F (pgraph d).
Proof. done. Qed.
Lemma pgraph_set d pg : pgraph (d <| pgraph := pg |>) = pg.
Proof. done. Qed.

(** The only range there is becomes elements. *)
Lemma expand_range_ok pg start count : inline_elements_length pg = 0 ->
  0 <= start -> 0 <= count -> start + count <= 2 ^ 32 -> count < NV2A_MAX_BATCH_LENGTH ->
  exists m, expand_range pg start count = Ok (pgraph_reset_draw_arrays (with_elements pg m count))
    /\ elements (with_elements pg m count) = seqZ start count.
Proof.
  intros E0 Hs Hc Hsc Hm. unfold expand_range.
  rewrite E0, Z.add_0_l, uwrap_id by (unfold NV2A_MAX_BATCH_LENGTH in *; lia).
  rewrite (proj2 (Z.ltb_lt _ _)) by done. cbn [c_assert mbind res_mbind res_bind].
  destruct (push_range_ok pg start count) as (m & -> & Ee); [lia..|].
  rewrite E0, Z.add_0_l in *. exists m. split; [done|]. rewrite Ee. unfold elements. by rewrite E0.
Qed.

(** The range that is expanded is the last; [d1] is the device after the flush. *)
Lemma expand_last d d1 : batch_wf (pgraph d) -> 0 < draw_arrays_length (pgraph d) ->
  let n := draw_arrays_length (pgraph d) - 1 in
  reg (draw_arrays_count (pgraph d)) n < NV2A_MAX_BATCH_LENGTH ->
  flush_squashed d = Ok d1 -> inline_elements_length (pgraph d1) = 0 ->
  exists m, pgraph_expand_draw_arrays d
    = Ok (d1 <| pgraph := pgraph_reset_draw_arrays
            (with_elements (pgraph d1) m (reg (draw_arrays_count (pgraph d)) n)) |>)
    /\ elements (with_elements (pgraph d1) m (reg (draw_arrays_count (pgraph d)) n))
       = draw_range (pgraph d) n.
Proof.
  intros [He Hd Hr Ho] Hn n Hc Ef E0. pose proof (Hr n ltac:(lia)) as Hl.
  unfold pgraph_expand_draw_arrays. fold n. rewrite (uwrap_id 32 n), !reg_read_ok by lia.
  cbn [mbind res_mbind res_bind]. rewrite Ef. cbn [mbind res_mbind res_bind].
  rewrite !(uwrap_id 32 (reg _ n)) by lia.
  destruct (expand_range_ok (pgraph d1) (reg (draw_arrays_start (pgraph d)) n)
    (reg (draw_arrays_count (pgraph d)) n)) as (m & -> & Ee); [done|lia..|]. eauto.
Qed.

Lemma expand_one d : batch_wf (pgraph d) -> draw_arrays_length (pgraph d) = 1 ->
  reg (draw_arrays_count (pgraph d)) 0 < NV2A_MAX_BATCH_LENGTH ->
  exists m, pgraph_expand_draw_arrays d
    = Ok (d <| pgraph := pgraph_reset_draw_arrays
            (with_elements (pgraph d) m (reg (draw_arrays_count (pgraph d)) 0)) |>)
    /\ elements (with_elements (pgraph d) m (reg (draw_arrays_count (pgraph d)) 0))
       = draw_range (pgraph d) 0.
Proof.
  intros Hw E1 Hc. pose proof Hw as [He Hd Hr Ho].
  pose proof (expand_last d d Hw ltac:(lia)) as Hx. cbv zeta in Hx. rewrite E1 in Hx.
  apply Hx; [done| |lia]. unfold flush_squashed. by rewrite E1.
Qed.

(** ** Sequences of requests *)

Inductive Request :=
| DrawArrays (parameter : Z)
| Element16 (parameter : Z)
| Element32 (parameter : Z).

Definition request d (r : Request) : res (NV2AState X) :=
  match r with
  | DrawArrays p => pg ← NV097_DRAW_ARRAYS_handler (pgraph d) p; Ok (d <| pgraph := pg |>)
  | Element16 p => NV097_ARRAY_ELEMENT16_handler d p
  | Element32 p => NV097_ARRAY_ELEMENT32_handler d p
  end.

(** The vertices a request asks for. *)
Definition requested (r : Request) : list Z :=
  match r with
  | DrawArrays p => seqZ (draw_start p) (draw_count p)
  | Element16 p => [Z.land p 0xFFFF; Z.shiftr p 16]
  | Element32 p => [p]
  end.

Definition is_draw (r : Request) : Prop := match r with DrawArrays _ => True | _ => False end.

(** The ranges that come before the first element continue each other. *)
Fixpoint joinable (next : option Z) (l : list Request) : Prop :=
  match l with
  | DrawArrays p :: l =>
      (next = None \/ next = Some (draw_start p)) /\ joinable (Some (draw_start p + draw_count p)) l
  | _ => True
  end.

Definition next_start (pg : PGRAPHState) : option Z :=
  if draw_arrays_length pg =? 1 then Some (range_end pg 0) else None.

Definition batch_size (pg : PGRAPHState) (l : list Request) : Z :=
  Z.of_nat (length (batch pg)) + Z.of_nat (length (l ≫= requested)).

(** A state that can take the requests: there is room, and if elements follow ranges,
    the ranges are one. *)
Record ready (pg : PGRAPHState) (l : list Request) : Prop := {
  ry_wf : batch_wf pg;
  ry_connect : draw_arrays_prevent_connect pg = false;
  ry_room : batch_size pg l < NV2A_MAX_BATCH_LENGTH;
  ry_mode : inline_elements_length pg <> 0
            \/ Forall is_draw l /\ draw_arrays_length pg + Z.of_nat (length l) <= 1250
            \/ draw_arrays_length pg <= 1 /\ joinable (next_start pg) l
}.

Lemma length_elements pg : 0 <= inline_elements_length pg ->
  Z.of_nat (length (elements pg)) = inline_elements_length pg.
Proof. intros Hn. unfold elements, zseq. rewrite length_fmap, length_seqZ. lia. Qed.

Lemma batch_size_S pg pg' r l : batch pg' = batch pg ++ requested r ->
  batch_size pg' l = batch_size pg (r :: l).
Proof. intros E. unfold batch_size. rewrite E. cbn. rewrite !length_app. lia. Qed.

Lemma batch_size_bound pg r l : 0 <= inline_elements_length pg ->
  inline_elements_length pg + Z.of_nat (length (requested r)) <= batch_size pg (r :: l).
Proof.
  intros Hn. unfold batch_size, batch. cbn. rewrite !length_app, !Nat2Z.inj_add, length_elements by done.
  lia.
Qed.

(** Elements: the range there may be becomes elements, then the new ones follow. *)
Lemma element_step d vs r l : ready (pgraph d) (r :: l) -> ~ is_draw r -> requested r = vs ->
  vs <> [] -> exists d', (d ← expand_if_drawn d;
    _ ← c_assert (inline_elements_length (pgraph d) <? NV2A_MAX_BATCH_LENGTH);
    pg ← res_foldl push_element (pgraph d) vs; Ok (d <| pgraph := pg |>)) = Ok d'
  /\ batch (pgraph d') = batch (pgraph d) ++ vs /\ ready (pgraph d') l.
Proof.
  intros [Hw Hp Hr Hj] Hnd Ev Hvs. pose proof Hw as [He Hdl Hrg Ho].
  assert (exists pg1, expand_if_drawn d = Ok (d <| pgraph := pg1 |>) /\ batch_wf pg1
    /\ draw_arrays_length pg1 = 0 /\ batch pg1 = batch (pgraph d)
    /\ draw_arrays_prevent_connect pg1 = false) as (pg1 & E1 & Hw1 & Hd1 & Eb1 & Hp1).
  { unfold expand_if_drawn. destruct (Z.eqb_spec (draw_arrays_length (pgraph d)) 0) as [E0|Hn].
    { exists (pgraph d). split; [by destruct d|done]. }
    assert (draw_arrays_length (pgraph d) = 1) as E1.
    { destruct Hj as [?|[[[Hdr _]%Forall_cons_1 _]|[? _]]]; [lia|by destruct (Hnd Hdr)|lia]. }
    assert (batch (pgraph d) = draw_range (pgraph d) 0) as Eb.
    { unfold batch, elements. rewrite (draw_arrays_S _ 0) by (done || lia).
      replace (inline_elements_length (pgraph d)) with 0 by lia. done. }
    pose proof (Hrg 0 ltac:(lia)) as Hl.
    assert (reg (draw_arrays_count (pgraph d)) 0 < NV2A_MAX_BATCH_LENGTH) as Hc.
    { unfold batch_size in Hr. rewrite Eb in Hr. unfold draw_range in Hr.
      rewrite length_seqZ in Hr. lia. }
    destruct (expand_one d Hw E1 Hc) as (m & E & Ee). cbn [negb]. rewrite E.
    eexists. split; [done|]. split; [constructor; cbn; [lia|lia|intros i Hi; lia|by right]|].
    split; [done|]. split; [|done]. rewrite batch_elements by done. by rewrite Eb, <- Ee. }
  rewrite E1. cbn [mbind res_mbind res_bind]. change (pgraph (d <| pgraph := pg1 |>)) with pg1.
  pose proof Hw1 as [He1 _ _ _].
  pose proof (batch_size_bound pg1 r l ltac:(lia)) as Hb. rewrite Ev in Hb.
  assert (batch_size pg1 (r :: l) = batch_size (pgraph d) (r :: l)) as Es
    by (unfold batch_size; by rewrite Eb1). rewrite Es in Hb.
  rewrite (proj2 (Z.ltb_lt _ _)) by (destruct vs; [done|cbn [length] in Hb; lia]).
  cbn [c_assert mbind res_mbind res_bind].
  destruct (push_all_ok pg1 vs) as (m & -> & Ee); [lia..|]. cbn [mbind res_mbind res_bind].
  set (n := inline_elements_length pg1 + Z.of_nat (length vs)) in *.
  assert (batch (with_elements pg1 m n) = batch (pgraph d) ++ vs) as Ebn.
  { rewrite batch_elements, Ee by done. f_equal. by rewrite <- Eb1, batch_elements. }
  eexists. split; [done|]. split; [exact Ebn|].
  assert (n <> 0) as Hn0 by (destruct vs; [done|unfold n; cbn [length]; lia]).
  constructor; [apply with_elements_wf; [done..|lia]|done| |by left].
  by rewrite (batch_size_S (pgraph d) _ r) by (by rewrite Ev).
Qed.

(** A range that extends the last one. *)
Lemma extend_step pg p l : ready pg (DrawArrays p :: l) -> inline_elements_length pg = 0 ->
  connects pg (draw_start p) = true ->
  let pg' := extend_range (noted pg (draw_start p) (draw_count p)) (draw_count p) in
  batch pg' = batch pg ++ requested (DrawArrays p) /\ ready pg' l.
Proof.
  intros [Hw Hp Hr Hm] E0 Hcn. destruct (draw_bounds p) as [Hs Hc]. cbv zeta.
  set (pg1 := noted pg _ _). assert (batch_wf pg1) as Hw1 by (destruct Hw; by constructor).
  unfold connects in Hcn. rewrite Hp in Hcn. cbn [negb andb] in Hcn.
  apply andb_true_iff in Hcn as [Hn%Z.ltb_lt Es%Z.eqb_eq].
  destruct (extend_range_batch pg1 (draw_count p) Hw1 Hn) as [Hw2 Eb];
    [change (range_end pg (draw_arrays_length pg - 1) < 2 ^ 24); lia|done|].
  change (range_end pg1 (draw_arrays_length pg1 - 1))
    with (range_end pg (draw_arrays_length pg - 1)) in Eb. rewrite <- Es in Eb.
  split; [exact Eb|]. constructor; [done|done|by rewrite (batch_size_S pg _ (DrawArrays p))|].
  right. destruct Hm as [|[[Hf Hl]|[Hl [_ Hj]]]]; [done| |].
  - left. apply Forall_cons_1 in Hf as [_ Hf]. split; [done|].
    change (draw_arrays_length pg + Z.of_nat (length l) <= 1250). cbn in Hl. lia.
  - right. split; [done|]. unfold next_start.
    change (draw_arrays_length (extend_range pg1 (draw_count p))) with (draw_arrays_length pg).
    assert (draw_arrays_length pg = 1) as E1 by lia. rewrite E1 in *. cbn [Z.eqb Pos.eqb].
    replace (range_end (extend_range pg1 (draw_count p)) 0) with (draw_start p + draw_count p); [done|].
    rewrite Es. unfold range_end at 2, extend_range.
    change (draw_arrays_length pg1) with (draw_arrays_length pg). rewrite E1. change (1 - 1) with 0.
    change (draw_arrays_count (pg1 <| draw_arrays_count := ?c |>)) with c. rewrite reg_insert.
    change (draw_arrays_start (pg1 <| draw_arrays_count := ?c |>)) with (draw_arrays_start pg).
    change (draw_arrays_count pg1) with (draw_arrays_count pg). unfold range_end. lia.
Qed.

(** A new range. *)
Lemma add_step pg p l : ready pg (DrawArrays p :: l) -> inline_elements_length pg = 0 ->
  connects pg (draw_start p) = false ->
  let pg' := add_range (noted pg (draw_start p) (draw_count p)) (draw_start p) (draw_count p) in
  batch pg' = batch pg ++ requested (DrawArrays p) /\ ready pg' l.
Proof.
  intros [Hw Hp Hr Hm] E0 Hcn. destruct (draw_bounds p) as [Hs Hc]. cbv zeta.
  set (pg1 := noted pg _ _). assert (batch_wf pg1) as Hw1 by (destruct Hw; by constructor).
  unfold connects in Hcn. rewrite Hp in Hcn. cbn [negb andb] in Hcn.
  assert (draw_arrays_length pg < 1250) as Hn.
  { destruct Hm as [|[[_ Hl]|[Hl _]]]; [done|cbn in Hl; lia|lia]. }
  destruct (add_range_batch pg1 (draw_start p) (draw_count p) Hw1 E0 Hn Hs Hc) as [Hw2 Eb].
  split; [exact Eb|]. constructor; [done|done|by rewrite (batch_size_S pg _ (DrawArrays p))|].
  right. destruct Hm as [|[[Hf Hl]|[Hl [Hnx Hj]]]]; [done| |].
  - left. apply Forall_cons_1 in Hf as [_ Hf]. split; [done|].
    change (draw_arrays_length pg + 1 + Z.of_nat (length l) <= 1250). cbn in Hl. lia.
  - right. destruct Hw as [_ Hd _ _].
    assert (draw_arrays_length pg = 0) as Ed.
    { destruct (decide (draw_arrays_length pg = 1)) as [E1|]; [|lia]. exfalso.
      unfold next_start in Hnx. rewrite E1 in *. cbn [Z.eqb Pos.eqb Z.ltb Z.compare] in *.
      destruct Hnx as [|[= Hnx]]; [done|]. change (1 - 1) with 0 in Hcn. rewrite Hnx in Hcn.
      cbn [andb] in Hcn. by rewrite Z.eqb_refl in Hcn. }
    split; [change (draw_arrays_length pg + 1 <= 1); lia|]. unfold next_start.
    change (draw_arrays_length (add_range pg1 _ _)) with (draw_arrays_length pg + 1).
    rewrite Ed. cbn [Z.add Z.eqb Pos.eqb].
    replace (range_end _ 0) with (draw_start p + draw_count p); [done|].
    unfold range_end. change (draw_start p + draw_count p
      = reg (<[draw_arrays_length pg := draw_start p]> (draw_arrays_start pg)) 0
        + reg (<[draw_arrays_length pg := draw_count p]> (draw_arrays_count pg)) 0).
    by rewrite Ed, !reg_insert.
Qed.

(** A range: extends the last one, is a new one, or becomes elements. *)
Lemma draw_step d p l : ready (pgraph d) (DrawArrays p :: l) ->
  exists d', request d (DrawArrays p) = Ok d'
  /\ batch (pgraph d') = batch (pgraph d) ++ requested (DrawArrays p) /\ ready (pgraph d') l.
Proof.
  intros Hrd. pose proof Hrd as [Hw Hp Hr Hm]. pose proof Hw as [He Hdl Hrg Ho].
  destruct (draw_bounds p) as [Hs Hc].
  pose proof (batch_size_bound (pgraph d) (DrawArrays p) l ltac:(lia)) as Hb.
  cbn [request]. cbn [requested] in Hb. rewrite length_seqZ, Z2Nat.id in Hb by lia.
  destruct (decide (inline_elements_length (pgraph d) = 0)) as [E0|Hn].
  - rewrite draw_arrays_ranges by (done || (destruct Hm as [|[[_ Hl]|[Hl _]]]; [done|cbn in Hl; lia|lia])).
    cbv zeta. cbn [mbind res_mbind res_bind]. eexists. split; [done|].
    destruct (connects (pgraph d) (draw_start p)) eqn:Ec; [by apply extend_step|by apply add_step].
  - destruct (draw_arrays_elements (pgraph d) p Hw Hn ltac:(lia) Hp) as (m & -> & Ee).
    cbn [mbind res_mbind res_bind]. eexists. split; [done|].
    assert (draw_arrays_length (pgraph d) = 0) as Ed by lia.
    set (pg1 := with_elements _ _ _) in *.
    assert (batch pg1 = batch (pgraph d) ++ seqZ (draw_start p) (draw_count p)) as Eb
      by (by rewrite !batch_elements).
    split; [exact Eb|].
    constructor; [apply with_elements_wf; [done..|lia]|done| |left].
    + by rewrite (batch_size_S (pgraph d) _ (DrawArrays p)).
    + change (inline_elements_length (pgraph d) + draw_count p <> 0). lia.
Qed.

Lemma element16_vs d p : NV097_ARRAY_ELEMENT16_handler d p
  = (d ← expand_if_drawn d;
     _ ← c_assert (inline_elements_length (pgraph d) <? NV2A_MAX_BATCH_LENGTH);
     pg ← res_foldl push_element (pgraph d) (requested (Element16 p)); Ok (d <| pgraph := pg |>)).
Proof.
  unfold NV097_ARRAY_ELEMENT16_handler. destruct (expand_if_drawn d) as [d1|]; [|done].
  cbn [mbind res_mbind res_bind]. cbv zeta. destruct (c_assert _); [|done].
  cbn [mbind res_mbind res_bind requested res_foldl]. destruct (push_element (pgraph d1) _) as [pg|];
    [|done]. cbn [mbind res_mbind res_bind]. by destruct (push_element pg _).
Qed.

Lemma element32_vs d p : NV097_ARRAY_ELEMENT32_handler d p
  = (d ← expand_if_drawn d;
     _ ← c_assert (inline_elements_length (pgraph d) <? NV2A_MAX_BATCH_LENGTH);
     pg ← res_foldl push_element (pgraph d) (requested (Element32 p)); Ok (d <| pgraph := pg |>)).
Proof.
  unfold NV097_ARRAY_ELEMENT32_handler. destruct (expand_if_drawn d) as [d1|]; [|done].
  cbn [mbind res_mbind res_bind]. cbv zeta. destruct (c_assert _); [|done].
  cbn [mbind res_mbind res_bind requested res_foldl]. by destruct (push_element (pgraph d1) _).
Qed.

(** C11. A batch is what the game asked for: from a state that is ready for them,
    DRAW_ARRAYS, ARRAY_ELEMENT16 and ARRAY_ELEMENT32 calls succeed, and the
    vertices a draw then gets are those of the batch so far followed by those of each
    request in order, although ranges were joined and turned into elements.  Ready is a state
    with room for all the vertices, in which joining is not prevented (no draw call has been squashed
    since the last range), and in which there are elements already, or only ranges
    follow and the array of ranges has room for them, or the ranges before the first element
    continue each other. *)
Theorem batch_requests d l : ready (pgraph d) l ->
  exists d', res_foldl request d l = Ok d'
    /\ batch (pgraph d') = batch (pgraph d) ++ (l ≫= requested).
Proof.
  induction l as [|r l IH] in d |- *; intros Hr; [exists d; by rewrite app_nil_r|].
  assert (exists d1, request d r = Ok d1 /\ batch (pgraph d1) = batch (pgraph d) ++ requested r
    /\ ready (pgraph d1) l) as (d1 & E & Eb & Hr1).
  { destruct r as [p|p|p]; [by apply draw_step| |]; cbn [request].
    - rewrite element16_vs. by apply (element_step d _ (Element16 p)); [|intros []| |].
    - rewrite element32_vs. by apply (element_step d _ (Element32 p)); [|intros []| |]. }
  destruct (IH d1 Hr1) as (d2 & E2 & Eb2). exists d2. cbn [res_foldl]. rewrite E. split; [done|].
  rewrite Eb2, Eb. by rewrite <- app_assoc.
Qed.

(** ** Where the batch is not what was asked for *)

(** C36. When elements follow ranges that could not be joined, the renderer is handed the
    batch with all its ranges, and the last of them is then turned into elements of the next
    batch: its vertices are drawn twice. *)
Theorem last_range_twice `{!DrawLog X} d d1 :
  batch_wf (pgraph d) -> 1 < draw_arrays_length (pgraph d) ->
  reg (draw_arrays_count (pgraph d)) (draw_arrays_length (pgraph d) - 1) < NV2A_MAX_BATCH_LENGTH ->
  ops FlushDraw d = Ok d1 ->
  let last := draw_range (pgraph d) (draw_arrays_length (pgraph d) - 1) in
  exists d' earlier, pgraph_expand_draw_arrays d = Ok d' /\ batch (pgraph d) = earlier ++ last
    /\ drawn d' ++ [batch (pgraph d')] = drawn d ++ [earlier ++ last; last].
Proof.
  intros Hw Hn Hc Ef last.
  destruct (expand_last d (d1 <| pgraph ::= pgraph_reset_inline_buffers |>) Hw) as (m & E & Ee);
    [lia|done|unfold flush_squashed; by rewrite (proj2 (Z.ltb_lt 1 _)), Ef|done|].
  assert (exists earlier, batch (pgraph d) = earlier ++ last) as [earlier Eb].
  { destruct Hw as [_ Hd _ _]. unfold batch.
    rewrite (draw_arrays_S _ (draw_arrays_length (pgraph d) - 1)) by lia. rewrite app_assoc. eauto. }
  rewrite E. eexists _, earlier. split; [done|]. split; [done|].
  rewrite !drawn_pgraph, (drawn_flush d d1 Ef), Eb, <- app_assoc, pgraph_set.
  rewrite batch_elements, elements_reset by done. by rewrite Ee.
Qed.

(** C37. ARRAY_ELEMENT16 makes sure that there is room for one index and stores two: with
    one element left, the second is written past the end of the array. *)
Theorem array_element16_overflow d p : draw_arrays_length (pgraph d) = 0 ->
  inline_elements_length (pgraph d) = NV2A_MAX_BATCH_LENGTH - 1 ->
  request d (Element16 p) = Fault OutOfBounds.
Proof.
  intros Ed En. unfold request, NV097_ARRAY_ELEMENT16_handler, expand_if_drawn. rewrite Ed.
  cbn [Z.eqb negb mbind res_mbind res_bind]. cbv zeta.
  rewrite En. cbn [mbind res_mbind res_bind].
  change (NV2A_MAX_BATCH_LENGTH - 1 <? NV2A_MAX_BATCH_LENGTH) with true.
  cbn [c_assert mbind res_mbind res_bind].
  destruct (push_element_ok (pgraph d) (Z.land p 0xFFFF)) as (m & -> & _); [by rewrite En|].
  cbn [mbind res_mbind res_bind]. unfold push_element at 1. cbv zeta.
  change (inline_elements_length (with_elements (pgraph d) m ?n)) with n. rewrite En. done.
Qed.

End Device.

End KelvinBatch.
