(* ===== verification/KelvinSafety.v ===== *)
(** * Memory safety of the Kelvin methods

    The arrays of the PGRAPH state have the sizes of pgraph.h, and stay that way: a
    handler called with a method of its range returns a well-formed state or stops at an
    assertion (or divides by a zero flip modulo), but never leaves an array.  The one
    exception is [ARRAY_ELEMENT16], which checks room for one index and stores two. *)

From S2P Require Import Prelude Nv2aRegs Nv2aState Float32 Vertex Pgraph Kelvin KelvinTable.
From S2P Require Import KelvinBatch.
Import Nv2aState Vertex Pgraph Kelvin KelvinTable KelvinBatch.

Module KelvinSafety.

Definition matrix (n m : nat) (l : list (list Z)) : Prop :=
  length l = n /\ Forall (fun r => length r = m) l.

Definition kelvin_wf (pg : PGRAPHState) : Prop :=
  length (texture_dirty pg) = 4%nat
  /\ length (texture_matrix_enable pg) = 4%nat
  /\ length (vertex_state_shader_v0 pg) = 4%nat
  /\ matrix 136 4 (program_data pg)
  /\ matrix 192 4 (vsh_constants pg) /\ length (vsh_constants_dirty pg) = 192%nat
  /\ matrix 26 4 (ltctxa pg) /\ length (ltctxa_dirty pg) = 26%nat
  /\ matrix 52 4 (ltctxb pg) /\ length (ltctxb_dirty pg) = 52%nat
  /\ matrix 20 4 (ltc1 pg) /\ length (ltc1_dirty pg) = 20%nat
  /\ matrix 8 3 (light_infinite_half_vector pg) /\ matrix 8 3 (light_infinite_direction pg)
  /\ matrix 8 3 (light_local_position pg) /\ matrix 8 3 (light_local_attenuation pg)
  /\ length (specular_params pg) = 6%nat /\ length (specular_params_back pg) = 6%nat
  /\ length (point_params pg) = 8%nat
  /\ length (vertex_attributes pg) = 16%nat
  /\ Forall (fun a => length (inline_value a) = 4%nat) (vertex_attributes pg)
  /\ 0 <= inline_buffer_length pg <= NV2A_MAX_BATCH_LENGTH
  /\ 0 <= inline_array_length pg <= NV2A_MAX_BATCH_LENGTH
  /\ 0 <= inline_elements_length pg <= NV2A_MAX_BATCH_LENGTH
  /\ 0 <= draw_arrays_length pg <= 1250
  /\ draws_wf (draw_arrays_length pg) (draw_arrays_start pg) (draw_arrays_count pg)
  /\ (inline_elements_length pg = 0 \/ draw_arrays_length pg = 0).

(** A result that is well-formed, or an assertion, or a division. *)
Definition safe_fault (f : fault) : Prop := f = AssertFail \/ f = DivByZero.
Definition good (r : res PGRAPHState) : Prop :=
  match r with Ok pg => kelvin_wf pg | Fault f => safe_fault f end.

Lemma good_seq m k : good m -> (forall pg, kelvin_wf pg -> good (k pg)) -> good (m ≫= k).
Proof. destruct m; cbn; auto. Qed.

Lemma good_assert b k : (b = true -> good k) -> good (_ ← c_assert b; k).
Proof. destruct b; cbn; [auto|]. by left. Qed.

Lemma good_abort {A} (o : option A) k : (forall a, o = Some a -> good (k a)) ->
  good (a ← match o with Some a => Ok a | None => Fault AssertFail end; k a).
Proof. destruct o; cbn; [auto|]. by left. Qed.

Lemma good_if (b : bool) r1 r2 : good r1 -> good r2 -> good (if b then r1 else r2).
Proof. by destruct b. Qed.

(** One component of the invariant changes. *)
Ltac wf_update :=
  match goal with
  | H : kelvin_wf _ |- _ =>
      unfold good, kelvin_wf in *; destruct_and? H; split_and!; first [done | idtac]
  end.

Lemma reg_w_wf pg r v : kelvin_wf pg -> kelvin_wf (reg_w pg r v).
Proof. intros Hw. unfold reg_w. by case_match. Qed.

Lemma set_mask_wf pg r mask v : kelvin_wf pg -> kelvin_wf (PG_SET_MASK pg r mask v).
Proof. apply reg_w_wf. Qed.

Lemma pgraph_reg_w_good pg r v : kelvin_wf pg -> 0 <= r < 0x2000 -> good (pgraph_reg_w pg r v).
Proof.
  intros Hw Hr. unfold pgraph_reg_w. case_match; [by left|].
  rewrite (proj2 (Z.leb_le _ _)), (proj2 (Z.ltb_lt _ _)) by lia. by apply reg_w_wf.
Qed.

Lemma pg_set_mask_good pg r mask v : kelvin_wf pg -> 0 <= r < 0x2000 ->
  good (pg_set_mask pg r mask v).
Proof.
  intros Hw Hr. unfold pg_set_mask, pgraph_reg_r. case_match; [by left|]. unfold reg_read.
  rewrite (proj2 (Z.leb_le _ _)), (proj2 (Z.ltb_lt _ _)) by lia. by apply pgraph_reg_w_good.
Qed.

(** ** Tables *)

Lemma aset2_ok n m l i j v : matrix n m l -> 0 <= i < Z.of_nat n -> 0 <= j < Z.of_nat m ->
  exists l', aset2 l i j v = Ok l' /\ matrix n m l'.
Proof.
  intros [Hn Hm] Hi Hj. unfold aset2. destruct (aget_ok l i) as (row & -> & Er); [lia|].
  pose proof (Forall_lookup_1 _ _ _ _ Hm Er) as Hrow. cbv beta in Hrow.
  cbn [mbind res_mbind res_bind]. rewrite aset_ok by lia. cbn [mbind res_mbind res_bind].
  rewrite aset_ok by lia. eexists. split; [done|]. split; [by rewrite length_insert|].
  apply Forall_insert; [done|]. by rewrite length_insert.
Qed.

Lemma aset_len {A} (l : list A) i v n : length l = n -> 0 <= i < Z.of_nat n ->
  exists l', aset l i v = Ok l' /\ length l' = n.
Proof.
  intros Hl Hi. rewrite aset_ok by lia. eexists. split; [done|]. by rewrite length_insert.
Qed.

Lemma set_word_ok n rows dirty row col v : matrix n 4 rows -> length dirty = n ->
  0 <= row < Z.of_nat n -> 0 <= col < 4 ->
  exists rows' dirty', set_word rows dirty row col v = Ok (rows', dirty')
    /\ matrix n 4 rows' /\ length dirty' = n.
Proof.
  intros Hr Hd Hrow Hcol. unfold set_word.
  destruct (aset2_ok n 4 rows row col v Hr Hrow Hcol) as (rows' & -> & Hr').
  cbn [mbind res_mbind res_bind]. destruct (aset_len dirty row true n Hd Hrow) as (dirty' & -> & Hd').
  eauto.
Qed.

Ltac set_word_good field n :=
  intros Hw Hrow Hcol; pose proof Hw as Hw'; unfold kelvin_wf in Hw'; destruct_and? Hw';
  match goal with
  | |- good (?f ?pg ?row ?col ?v) => unfold f;
      destruct (set_word_ok n (field pg) _ row col v ltac:(done) ltac:(eassumption) Hrow Hcol)
        as (? & ? & -> & ? & ?); cbn [mbind res_mbind res_bind]; wf_update
  end.

Lemma set_vsh_constant_good pg row col v : kelvin_wf pg -> 0 <= row < 192 -> 0 <= col < 4 ->
  good (set_vsh_constant pg row col v).
Proof. set_word_good vsh_constants 192%nat. Qed.
Lemma set_ltctxa_good pg row col v : kelvin_wf pg -> 0 <= row < 26 -> 0 <= col < 4 ->
  good (set_ltctxa pg row col v).
Proof. set_word_good ltctxa 26%nat. Qed.
Lemma set_ltctxb_good pg row col v : kelvin_wf pg -> 0 <= row < 52 -> 0 <= col < 4 ->
  good (set_ltctxb pg row col v).
Proof. set_word_good ltctxb 52%nat. Qed.
Lemma set_ltc1_good pg row col v : kelvin_wf pg -> 0 <= row < 20 -> 0 <= col < 4 ->
  good (set_ltc1 pg row col v).
Proof. set_word_good ltc1 20%nat. Qed.

(** A word of a fixed-size array of the state. *)
Lemma good_aset {A} n (l : list A) i v k : length l = n -> 0 <= i < Z.of_nat n ->
  (forall l', length l' = n -> good (k l')) -> good (l' ← aset l i v; k l').
Proof. intros Hl Hi Hk. destruct (aset_len l i v n Hl Hi) as (l' & -> & Hl'). by apply Hk. Qed.

Lemma good_aset2 n m l i j v k : matrix n m l -> 0 <= i < Z.of_nat n -> 0 <= j < Z.of_nat m ->
  (forall l', matrix n m l' -> good (k l')) -> good (l' ← aset2 l i j v; k l').
Proof. intros Hl Hi Hj Hk. destruct (aset2_ok n m l i j v Hl Hi Hj) as (l' & -> & Hl'). by apply Hk. Qed.

Lemma good_aget {A} (l : list A) i k : 0 <= i < Z.of_nat (length l) ->
  (forall a, l !! Z.to_nat i = Some a -> good (k a)) -> good (a ← aget l i; k a).
Proof. intros Hi Hk. destruct (aget_ok l i Hi) as (a & -> & Ea). by apply Hk. Qed.

(** ** Attributes *)

Lemma wf_attrs pg : kelvin_wf pg -> attrs_wf pg.
Proof. intros Hw. unfold kelvin_wf in Hw. destruct_and? Hw. by constructor. Qed.

Lemma on_attr_good pg i f : kelvin_wf pg -> 0 <= i < 16 ->
  (forall a, length (inline_value a) = 4%nat ->
    match f a with Ok a' => length (inline_value a') = 4%nat | Fault f => safe_fault f end) ->
  good (on_attr pg i f).
Proof.
  intros Hw Hi Hf. destruct (wf_attrs pg Hw) as [Hc Hv _]. unfold on_attr.
  apply good_aget; [rewrite Hc; lia|]. intros a Ea.
  specialize (Hf a (Forall_lookup_1 _ _ _ _ Hv Ea)). destruct (f a) as [a'|]; [|done].
  cbn [mbind res_mbind res_bind]. rewrite aset_ok by (rewrite Hc; lia).
  cbn [mbind res_mbind res_bind]. wf_update.
  - change (length (<[Z.to_nat i := a']> (vertex_attributes pg)) = 16%nat). by rewrite length_insert.
  - by apply Forall_insert.
Qed.

Lemma allocate_good pg i : kelvin_wf pg -> 0 <= i < 16 ->
  good (pgraph_allocate_inline_buffer_vertices pg i).
Proof.
  intros Hw Hi. apply on_attr_good; [done..|]. intros a Ha.
  destruct (allocate_attribute_ok (inline_buffer_length pg) a Ha) as (a' & -> & -> & _); [|done].
  by apply wf_attrs.
Qed.

Lemma set_attribute_good pg i ws : kelvin_wf pg -> 0 <= i < 16 ->
  Forall (fun w => 0 <= w.1 < 4) ws -> good (set_attribute pg i ws).
Proof.
  intros Hw Hi Hws. unfold set_attribute. apply good_seq; [by apply allocate_good|].
  intros pg1 Hw1. apply on_attr_good; [done..|]. intros a Ha.
  by destruct (write_values_ok (inline_value a) ws Ha Hws) as [-> Hl].
Qed.

Lemma finish_good pg : kelvin_wf pg -> good (pgraph_finish_inline_buffer_vertex pg).
Proof.
  intros Hw. destruct (Z.ltb_spec (inline_buffer_length pg) NV2A_MAX_BATCH_LENGTH) as [Hn|Hn].
  - destruct (finish_ok pg (wf_attrs pg Hw) Hn) as (pg' & E & [Hc Hv [Hl1 Hl2]] & _).
    rewrite E. cbn [good]. revert E. unfold pgraph_finish_inline_buffer_vertex.
    intros (u & _ & (l & _ & [= <-])%res_bind_Ok)%res_bind_Ok. wf_update.
  - unfold pgraph_finish_inline_buffer_vertex. apply good_assert. intros ?%Z.ltb_lt. lia.
Qed.

(** ** Batches *)

Lemma wf_batch pg : kelvin_wf pg -> batch_wf pg.
Proof. intros Hw. unfold kelvin_wf in Hw. destruct_and? Hw. by constructor. Qed.

(** A new batch in an otherwise unchanged state. *)
Lemma wf_with_elements pg m n : kelvin_wf pg -> draw_arrays_length pg = 0 ->
  0 <= n <= NV2A_MAX_BATCH_LENGTH -> kelvin_wf (with_elements pg m n).
Proof. intros Hw E [H1 H2]. wf_update. by right. Qed.

Lemma wf_reset_draws pg : kelvin_wf pg -> kelvin_wf (pgraph_reset_draw_arrays pg).
Proof. intros Hw. wf_update; [intros i Hi; exfalso; cbn in Hi; lia|by right]. Qed.

Lemma wf_reset pg : kelvin_wf pg -> kelvin_wf (pgraph_reset_inline_buffers pg).
Proof. intros Hw. apply wf_reset_draws. wf_update. by left. Qed.

Lemma push_element_good pg v : kelvin_wf pg -> draw_arrays_length pg = 0 ->
  inline_elements_length pg < NV2A_MAX_BATCH_LENGTH ->
  match push_element pg v with
  | Ok pg' => kelvin_wf pg' /\ draw_arrays_length pg' = 0
              /\ inline_elements_length pg' = inline_elements_length pg + 1
  | Fault _ => False
  end.
Proof.
  intros Hw E Hn. destruct (wf_batch pg Hw) as [He _ _ _].
  destruct (push_element_ok pg v) as (m & -> & _); [lia|].
  split; [apply wf_with_elements; [done..|lia]|done].
Qed.

(** The ranges have been stored with their bounds, so adding a count does not wrap. *)
Lemma push_range_good pg start count : kelvin_wf pg -> draw_arrays_length pg = 0 ->
  0 <= start -> 0 <= count -> start + count <= 2 ^ 24 + 255 ->
  good (_ ← c_assert (u32 (inline_elements_length pg + count) <? NV2A_MAX_BATCH_LENGTH);
        push_range pg start count).
Proof.
  intros Hw E Hs Hc Hsc. destruct (wf_batch pg Hw) as [He _ _ _].
  apply good_assert. rewrite uwrap_id by (unfold NV2A_MAX_BATCH_LENGTH in *; lia).
  intros Hn%Z.ltb_lt. destruct (push_range_ok pg start count) as (m & -> & _); [lia..|].
  cbn [good]. apply wf_with_elements; [done..|lia].
Qed.

Lemma extend_range_wf pg count : kelvin_wf pg -> batch_wf (extend_range pg count) ->
  kelvin_wf (extend_range pg count).
Proof. intros Hw [[H1 H2] [H3 H4] H5 H6]. wf_update. Qed.

Lemma add_range_wf pg start count : kelvin_wf pg -> batch_wf (add_range pg start count) ->
  kelvin_wf (add_range pg start count).
Proof. intros Hw [[H1 H2] [H3 H4] H5 H6]. wf_update. Qed.

Lemma draw_arrays_good pg p : kelvin_wf pg -> good (NV097_DRAW_ARRAYS_handler pg p).
Proof.
  intros Hw. pose proof (wf_batch pg Hw) as Hb. pose proof Hb as [He Hd Hr Ho].
  destruct (draw_bounds p) as [Hs Hc].
  destruct (decide (inline_elements_length pg = 0)) as [E0|Hn].
  - destruct (decide (draw_arrays_length pg = 1250)) as [E1|H1].
    { unfold NV097_DRAW_ARRAYS_handler. rewrite E0. cbn [Z.eqb negb]. cbv zeta.
      apply good_assert. intros Hl%Z.ltb_lt.
      change (draw_arrays_length pg < 1250) in Hl. lia. }
    rewrite draw_arrays_ranges by (done || lia). cbv zeta. cbn [good].
    set (pg1 := noted pg _ _).
    assert (kelvin_wf pg1) as Hw1 by wf_update.
    assert (connects pg1 (draw_start p) = connects pg (draw_start p)) as Ec by done.
    assert (inline_elements_length pg1 = 0 /\ draw_arrays_length pg1 < 1250) as [E2 H2]
      by (split; [done|change (draw_arrays_length pg < 1250); lia]).
    rewrite <- Ec. clearbody pg1. destruct (connects pg1 (draw_start p)) eqn:Ecn.
    + unfold connects in Ecn. rewrite !andb_true_iff in Ecn.
      destruct Ecn as [[_ Hn%Z.ltb_lt] Es%Z.eqb_eq]. apply extend_range_wf; [done|].
      apply extend_range_batch; [by apply wf_batch|done|lia|done].
    + apply add_range_wf; [done|]. by apply add_range_batch; [apply wf_batch|..].
  - unfold NV097_DRAW_ARRAYS_handler. cbv zeta. rewrite (proj2 (Z.eqb_neq _ _)) by done. cbn [negb].
    fold (draw_start p) (draw_count p). pose proof (push_range_good pg (draw_start p) (draw_count p) Hw)
      as Hp. destruct (_ <? NV2A_MAX_BATCH_LENGTH); [|by left].
    cbn [c_assert mbind res_mbind res_bind] in *.
    apply good_assert. intros _. apply Hp; lia.
Qed.

Lemma inline_array_good pg p : kelvin_wf pg -> good (NV097_INLINE_ARRAY_handler pg p).
Proof.
  intros Hw. unfold NV097_INLINE_ARRAY_handler. cbv zeta. apply good_assert. intros Hn%Z.ltb_lt.
  pose proof Hw as Hw'. unfold kelvin_wf in Hw'. destruct_and? Hw'.
  rewrite reg_write_ok by lia. cbn [mbind res_mbind res_bind]. wf_update.
  - change (0 <= inline_array_length pg + 1). lia.
  - change (inline_array_length pg + 1 <= NV2A_MAX_BATCH_LENGTH). lia.
Qed.

(** ** Methods in their range *)

Lemma slot_of_bounds m b s e : 0 <= b <= m -> m < e -> e <= 0x2000 -> 0 < s ->
  0 <= slot_of m b s < (e - b + s - 1) / s.
Proof.
  intros Hb Hm He Hs. unfold slot_of. rewrite uwrap_id by lia. split; [apply Z.div_pos; lia|].
  apply Z.div_lt_upper_bound; [done|].
  pose proof (Z.div_mod (e - b + s - 1) s ltac:(lia)). pose proof (Z.mod_pos_bound (e - b + s - 1) s Hs).
  nia.
Qed.

Lemma good_range_switch x cases dflt : Forall (fun c => c.1.1 <= x <= c.1.2 -> good c.2) cases ->
  good dflt -> good (range_switch x cases dflt).
Proof.
  intros Hc Hd. induction Hc as [|[[lo hi] e] l He _ IH]; [done|]. cbn [range_switch fst snd] in *.
  destruct (Z.leb_spec lo x), (Z.leb_spec x hi); cbn [andb]; auto.
Qed.

Lemma good_foldl {A} (f : PGRAPHState -> A -> res PGRAPHState) pg l : kelvin_wf pg ->
  Forall (fun a => forall pg, kelvin_wf pg -> good (f pg a)) l -> good (res_foldl f pg l).
Proof.
  intros Hw Hl. induction Hl as [|a l Ha _ IH] in pg, Hw |- *; [done|]. cbn [res_foldl].
  apply good_seq; [by apply Ha|done].
Qed.

Lemma set_windows_good pg base slot p : kelvin_wf pg -> 0 <= base -> base + 32 <= 0x2000 ->
  0 <= slot -> good (set_windows pg base slot p).
Proof.
  intros Hw H1 H2 H3. apply good_foldl; [done|]. apply Forall_forall. intros i Hi%elem_of_seqZ pg1 Hw1.
  apply pgraph_reg_w_good; [done|lia].
Qed.

Lemma texgen_good pg slot t1 t0 p c : kelvin_wf pg -> good (set_texgen pg slot t1 t0 p c).
Proof.
  intros Hw. unfold set_texgen. cbv zeta.
  assert (forall r : res Z, (exists v, r = Ok v) \/ r = Fault AssertFail ->
    good (texgen ← r; Ok (PG_SET_MASK pg (if slot <? 2 then NV_PGRAPH_CSV1_A else NV_PGRAPH_CSV1_B)
      (if slot mod 2 =? 0 then t0 else t1) texgen))) as Hr.
  { intros r [[v ->]| ->]; [by apply set_mask_wf|by left]. }
  apply Hr. unfold kelvin_map_texgen. destruct (c <? 4), (c <? 2), (c <? 3);
    cbn [c_assert mbind res_mbind res_bind]; try (by right);
    apply (switch_ind (fun r : res Z => (exists v, r = Ok v) \/ r = Fault AssertFail));
    repeat first [apply Forall_cons_2 | apply Forall_nil_2]; cbn [snd]; eauto.
Qed.

Lemma specular_power_ok l : length l = 6%nat -> exists p, reconstruct_specular_power l = Ok p.
Proof. do 7 (destruct l as [|? l]; try done). intros _. eexists. reflexivity. Qed.

(** ** The handlers on the PGRAPH state *)

Lemma get_mask_nonneg pg r m : 0 <= m -> 0 <= PG_GET_MASK pg r m.
Proof.
  intros Hm. unfold PG_GET_MASK, GET_MASK. apply Z.shiftr_nonneg, Z.land_nonneg. by right.
Qed.

Lemma transform_program_good pg m p : kelvin_wf pg ->
  good (NV097_SET_TRANSFORM_PROGRAM_handler pg m p).
Proof.
  intros Hw. unfold NV097_SET_TRANSFORM_PROGRAM_handler. cbv zeta.
  pose proof (get_mask_nonneg pg NV_PGRAPH_CHEOPS_OFFSET NV_PGRAPH_CHEOPS_OFFSET_PROG_LD_PTR
    ltac:(done)) as Hn.
  apply good_assert. intros Hl%Z.ltb_lt. eapply (good_aset2 136 4).
  - unfold kelvin_wf in Hw. by destruct_and? Hw.
  - by split.
  - apply Z.mod_pos_bound. done.
  - intros l' Hl'. cbn [good]. destruct (_ =? 3); [apply set_mask_wf|]; wf_update.
Qed.

Lemma transform_constant_good pg m p : kelvin_wf pg ->
  good (NV097_SET_TRANSFORM_CONSTANT_handler pg m p).
Proof.
  intros Hw. unfold NV097_SET_TRANSFORM_CONSTANT_handler. cbv zeta.
  pose proof (get_mask_nonneg pg NV_PGRAPH_CHEOPS_OFFSET NV_PGRAPH_CHEOPS_OFFSET_CONST_LD_PTR
    ltac:(done)) as Hn.
  apply good_assert. intros Hl%Z.ltb_lt. change (NV2A_VERTEXSHADER_CONSTANTS) with 192 in Hl.
  assert (matrix 192 4 (vsh_constants pg) /\ length (vsh_constants_dirty pg) = 192%nat) as [Hv Hd]
    by (unfold kelvin_wf in Hw; by destruct_and? Hw).
  pose proof (Z.mod_pos_bound (slot_of m NV097_SET_TRANSFORM_CONSTANT 4) 4 ltac:(done)) as Hs.
  apply good_aget; [rewrite (proj1 Hv); lia|]. intros row Er.
  apply good_aget; [rewrite (Forall_lookup_1 _ _ _ _ (proj2 Hv) Er); lia|]. intros old _.
  apply good_aget; [rewrite Hd; lia|]. intros was _.
  apply (good_aset 192); [done|lia|]. intros dirty Hd'.
  apply (good_aset2 192 4); [done|lia..|]. intros rows Hr'.
  cbn [good]. destruct (_ =? 3); [apply set_mask_wf|]; wf_update.
Qed.

Lemma bump_env_mat_good pg m p : kelvin_wf pg ->
  0 <= slot_of m NV097_SET_TEXTURE_SET_BUMP_ENV_MAT 4 < 64 ->
  good (NV097_SET_TEXTURE_SET_BUMP_ENV_MAT_handler pg m p).
Proof.
  intros Hw. unfold NV097_SET_TEXTURE_SET_BUMP_ENV_MAT_handler. cbv zeta.
  generalize (slot_of m NV097_SET_TEXTURE_SET_BUMP_ENV_MAT 4) as slot. intros slot [Hs1 Hs2].
  destruct (Z.ltb_spec slot 16) as [|Hs]; [done|].
  apply good_aget; [change (0 <= (slot - 16) mod 4 < 4); by apply Z.mod_pos_bound|].
  intros r Hr%list_elem_of_lookup_2. apply pgraph_reg_w_good; [done|].
  enough (0x181C <= r <= 0x1840) by dlia. revert r Hr. apply Forall_forall.
  repeat constructor; done.
Qed.

Lemma array_format_good pg m p : kelvin_wf pg ->
  0 <= slot_of m NV097_SET_VERTEX_DATA_ARRAY_FORMAT 4 < 16 ->
  good (NV097_SET_VERTEX_DATA_ARRAY_FORMAT_handler pg m p).
Proof.
  intros Hw Hs. unfold NV097_SET_VERTEX_DATA_ARRAY_FORMAT_handler. cbv zeta.
  apply good_seq.
  - apply on_attr_good; [done|exact Hs|]. intros a Ha.
    match goal with |- match (size ← ?r; _) with _ => _ end =>
      assert ((exists v, r = Ok v) \/ r = Fault AssertFail) as [[v ->]| ->] end; [|done|by left].
    apply (switch_ind (fun r : res Z => (exists v, r = Ok v) \/ r = Fault AssertFail));
      repeat first [apply Forall_cons_2 | apply Forall_nil_2]; cbn [snd]; eauto;
      destruct (_ =? _); cbn [c_assert mbind res_mbind res_bind]; eauto.
  - intros pg1 Hw1. cbn [good]. repeat first [case_match | assumption | wf_update].
Qed.

(** The numbers behind the names of registers, rows and methods. *)
Ltac konst :=
  repeat match goal with
  | |- context [?c] => is_const c; match type of c with Z => unfold c end
  end.
Ltac side := konst; first [lia | dlia].

(** The slot of the method, from the bounds of the method. *)
Ltac slots :=
  repeat match goal with
  | Hm : _ <= ?m < ?e |- context [slot_of ?m ?b ?s] =>
      let Hs := fresh "Hs" in
      assert (0 <= slot_of m b s < (e - b + s - 1) / s) as Hs
        by (apply slot_of_bounds; [split; [by vm_compute|apply Hm]|apply Hm|by vm_compute|done]);
      let v := eval vm_compute in ((e - b + s - 1) / s) in
      change ((e - b + s - 1) / s) with v in Hs;
      generalize dependent (slot_of m b s); intros
  end.

Ltac wf_field :=
  match goal with
  | Hw : kelvin_wf ?pg |- _ = _ => unfold kelvin_wf in Hw; destruct_and? Hw; eassumption
  | Hw : kelvin_wf ?pg |- matrix _ _ _ => unfold kelvin_wf in Hw; destruct_and? Hw; eassumption
  end.

Ltac good_step :=
  lazymatch goal with
  | |- kelvin_wf (PG_SET_MASK _ _ _ _) => apply set_mask_wf
  | |- kelvin_wf (reg_w _ _ _) => apply reg_w_wf
  | |- kelvin_wf (match ?x with _ => _ end) => destruct x
  | |- kelvin_wf _ => first [assumption | solve [wf_update]]
  | |- good (Ok _) => cbn [good]
  | |- good (Fault _) => first [by left | by right]
  | |- good (if _ then _ else _) => apply good_if
  | |- good (set_vsh_constant _ _ _ _) => apply set_vsh_constant_good; [|side|side]
  | |- good (set_ltctxa _ _ _ _) => apply set_ltctxa_good; [|side|side]
  | |- good (set_ltctxb _ _ _ _) => apply set_ltctxb_good; [|side|side]
  | |- good (set_ltc1 _ _ _ _) => apply set_ltc1_good; [|side|side]
  | |- good (pgraph_reg_w _ _ _) => apply pgraph_reg_w_good; [|side]
  | |- good (pg_set_mask _ _ _ _) => apply pg_set_mask_good; [|side]
  | |- good (set_windows _ _ _ _) => apply set_windows_good; [|side|side|side]
  | |- good (set_texgen _ _ _ _ _ _) => apply texgen_good
  | |- good (set_attribute _ _ _) =>
      apply set_attribute_good; [|side|repeat constructor; cbn [fst]; side]
  | |- good (on_attr _ _ _) => apply on_attr_good; [|side|by intros ? ?]
  | |- good (pgraph_finish_inline_buffer_vertex _) => apply finish_good
  | |- good (range_switch _ _ _) =>
      apply good_range_switch; [repeat constructor; cbn [fst snd]; konst; intros ?|]
  | |- good (res_foldl _ _ _) =>
      apply good_foldl; [|apply Forall_forall; intros [??] _ ? ?; apply pg_set_mask_good; [|side]]
  | |- good (aset _ _ _ ≫= _) => eapply good_aset; [wf_field|side|intros ? ?]
  | |- good (aset2 _ _ _ _ ≫= _) => eapply good_aset2; [wf_field|side|side|intros ? ?]
  | |- good (c_assert _ ≫= _) => apply good_assert; intros ?
  | |- good (match _ with Some _ => _ | None => _ end ≫= _) => apply good_abort; intros ? _
  | Hl : length ?l = _ |- good (reconstruct_specular_power ?l ≫= _) =>
      destruct (specular_power_ok l Hl) as [? ->]; cbn [mbind res_mbind res_bind]
  | |- good (_ ≫= _) => apply good_seq; [|intros ? ?]
  end.

Ltac good_handler :=
  try match goal with
  | |- good (NV097_SET_TRANSFORM_PROGRAM_handler _ _ _) => apply transform_program_good; assumption
  | |- good (NV097_SET_TRANSFORM_CONSTANT_handler _ _ _) => apply transform_constant_good; assumption
  | |- good (NV097_SET_TEXTURE_SET_BUMP_ENV_MAT_handler _ _ _) =>
      apply bump_env_mat_good; [assumption|slots; side]
  | |- good (NV097_SET_VERTEX_DATA_ARRAY_FORMAT_handler _ _ _) =>
      apply array_format_good; [assumption|slots; side]
  | |- good (NV097_DRAW_ARRAYS_handler _ _) => apply draw_arrays_good; assumption
  | |- good (NV097_INLINE_ARRAY_handler _ _) => apply inline_array_good; assumption
  | |- good (?h _ _ _) => unfold h
  | |- good (?h _ _) => unfold h
  | |- kelvin_wf (?h _ _) => unfold h
  end;
  unfold set_matrix_word, set_attribute_4s, set_tex_2s, set_color_3f, set_attribute_f, set_tex_2f,
    set_attribute_4ub, touch_texture, kelvin_map_stencil_op, kelvin_map_polygon_mode, flip_next,
    assoc_or_abort;
  cbv zeta; slots; repeat good_step.

(** What the methods rely on: the renderer keeps the sizes of the arrays, and so does the
    interpreter of vertex programs.  Reports go to guest memory, whose bounds are not checked
    here. *)
Class RendererSafe (X : Type) `{Renderer X} : Prop :=
  ops_safe : forall c d, kelvin_wf (pgraph d) ->
    match ops c d with
    | Ok d' => kelvin_wf (pgraph d')
    | Fault f => safe_fault f \/ exists p, c = GetReport p
    end.
Class VshSafe `{VshEmu} : Prop :=
  execute_safe : forall program v0 constants dirty,
    matrix 192 4 constants -> length dirty = 192%nat ->
    let '(constants, dirty) := nv2a_vsh_emu_execute program v0 constants dirty in
    matrix 192 4 constants /\ length dirty = 192%nat.

Section Methods.
Context {X : Type} `{RendererSafe X} `{VshSafe}.
Implicit Types d : NV2AState X.

Definition dgood (r : res (NV2AState X)) : Prop :=
  match r with Ok d => kelvin_wf (pgraph d) | Fault f => safe_fault f end.

Lemma on_pg_good f d s m p : kelvin_wf (f (pgraph d) p) -> dgood (on_pg f d s m p).
Proof. done. Qed.
Lemma on_pg_res_good f d s m p : good (f (pgraph d) p) -> dgood (on_pg_res f d s m p).
Proof. unfold on_pg_res. by destruct (f (pgraph d) p). Qed.
Lemma on_pg_method_good f d s m p : good (f (pgraph d) m p) -> dgood (on_pg_method f d s m p).
Proof. unfold on_pg_method. by destruct (f (pgraph d) m p). Qed.

Lemma launch_good pg p : kelvin_wf pg -> good (NV097_LAUNCH_TRANSFORM_PROGRAM_handler pg p).
Proof.
  intros Hw. unfold NV097_LAUNCH_TRANSFORM_PROGRAM_handler. apply good_assert. intros _.
  destruct (nv2a_vsh_parse_program _) as [program|]; [|by left].
  pose proof (execute_safe program (vertex_state_shader_v0 pg) (vsh_constants pg)
    (vsh_constants_dirty pg)) as He.
  destruct (nv2a_vsh_emu_execute _ _ _ _) as [constants dirty].
  destruct He as [Hc Hd]; [unfold kelvin_wf in Hw; by destruct_and? Hw..|]. cbn [good]. wf_update.
Qed.

(** *** Handlers on the device *)

Lemma dgood_ops c d : (forall p, c <> GetReport p) -> kelvin_wf (pgraph d) -> dgood (ops c d).
Proof.
  intros Hc Hw. pose proof (ops_safe c d Hw) as Hs. unfold dgood.
  destruct (ops c d); [done|]. destruct Hs as [|[p ->]]; [done|]. by destruct (Hc p).
Qed.

Lemma dgood_seq r k : dgood r -> (forall d, kelvin_wf (pgraph d) -> dgood (k d)) -> dgood (r ≫= k).
Proof. destruct r; cbn; auto. Qed.

Lemma dgood_after r F : dgood r -> (forall pg, kelvin_wf pg -> kelvin_wf (F pg)) ->
  dgood (d ← r; Ok (d <| pgraph ::= F |>)).
Proof. intros Hr HF. apply dgood_seq; [done|]. intros d Hw. by apply HF. Qed.

Lemma surface_update_good d : kelvin_wf (pgraph d) -> dgood (surface_update d).
Proof. by apply dgood_ops. Qed.

Lemma pgraph_irq d : pgraph (nv2a_update_irq d) = pgraph d.
Proof. done. Qed.

Lemma no_operation_good d s m p : kelvin_wf (pgraph d) -> dgood (NV097_NO_OPERATION_handler d s m p).
Proof.
  intros Hw. unfold NV097_NO_OPERATION_handler. destruct (p =? 0); [done|].
  destruct (tst _ _); cbn [negb c_assert mbind res_mbind res_bind]; [by left|].
  assert (forall pg, kelvin_wf pg -> kelvin_wf (notify pg s m p)) as Hn.
  { intros pg Hp. assert (forall pg b c, kelvin_wf pg ->
      kelvin_wf (pg <| pg_pending := b |> <| waiting_for_nop := c |>)) as Hu by done.
    unfold notify. cbv zeta. apply Hu. repeat first [apply reg_w_wf | apply set_mask_wf]. done. }
  unfold dgood. rewrite pgraph_irq, pgraph_set. auto.
Qed.

Lemma begin_end_good d p : kelvin_wf (pgraph d) -> dgood (NV097_SET_BEGIN_END_handler d p).
Proof.
  intros Hw. unfold NV097_SET_BEGIN_END_handler. cbv zeta. destruct (p =? _).
  - destruct (_ =? _); [by apply wf_reset|].
    apply dgood_after; [by apply dgood_ops|]. intros pg Hp.
    assert (forall pg v, kelvin_wf pg -> kelvin_wf (pg <| primitive_mode := v |>)) as Hu by done.
    by apply Hu, wf_reset.
  - destruct (negb _); [done|]. destruct (p <=? _); [|by left].
    cbn [c_assert mbind res_mbind res_bind]. apply dgood_ops; [done|]. by apply wf_reset.
Qed.

(** *** Elements *)

Lemma wf_expanded pg m n : kelvin_wf pg -> 0 <= n <= NV2A_MAX_BATCH_LENGTH ->
  kelvin_wf (pgraph_reset_draw_arrays (with_elements pg m n)).
Proof. intros Hw [Hn1 Hn2]. wf_update; [intros i Hi; exfalso; cbn in Hi; lia|by right]. Qed.

(** The batch is elements, and the state is still well-formed. *)
Definition egood (r : res (NV2AState X)) : Prop :=
  match r with
  | Ok d => kelvin_wf (pgraph d) /\ draw_arrays_length (pgraph d) = 0
  | Fault f => safe_fault f
  end.

Lemma expand_range_good pg start count : kelvin_wf pg -> inline_elements_length pg = 0 ->
  0 <= start -> 1 <= count -> start + count <= 2 ^ 24 + 255 ->
  match expand_range pg start count with
  | Ok pg' => kelvin_wf pg' /\ draw_arrays_length pg' = 0
  | Fault f => safe_fault f
  end.
Proof.
  intros Hw E Hs Hc Hsc. destruct (Z.ltb_spec count NV2A_MAX_BATCH_LENGTH) as [Hn|Hn].
  - destruct (expand_range_ok pg start count) as (m & -> & _); [done|lia..|].
    split; [apply wf_expanded; [done|lia]|done].
  - unfold expand_range. rewrite E, Z.add_0_l, uwrap_id by lia.
    rewrite (proj2 (Z.ltb_ge _ _)) by done. by left.
Qed.

Lemma flush_squashed_good d : kelvin_wf (pgraph d) -> 0 < draw_arrays_length (pgraph d) ->
  match flush_squashed d with
  | Ok d' => kelvin_wf (pgraph d') /\ inline_elements_length (pgraph d') = 0
  | Fault f => safe_fault f
  end.
Proof.
  intros Hw Hn. unfold flush_squashed. destruct (_ <? _).
  - pose proof (dgood_ops FlushDraw d ltac:(done) Hw) as Hf. destruct (ops FlushDraw d); [|done].
    split; [by apply wf_reset|done].
  - split; [done|]. destruct (bw_one _ (wf_batch _ Hw)); [done|lia].
Qed.

Lemma expand_good d : kelvin_wf (pgraph d) -> egood (expand_if_drawn d).
Proof.
  intros Hw. unfold expand_if_drawn. destruct (Z.eqb_spec (draw_arrays_length (pgraph d)) 0) as [E|Hn];
    [done|]. cbn [negb]. destruct (wf_batch _ Hw) as [He Hd Hr Ho].
  unfold pgraph_expand_draw_arrays. cbv zeta.
  set (last := draw_arrays_length (pgraph d) - 1). rewrite (uwrap_id 32 last) by lia.
  destruct (Hr last ltac:(lia)) as (Hs1 & Hs2 & Hs3). rewrite !reg_read_ok by lia.
  cbn [mbind res_mbind res_bind]. rewrite !(uwrap_id 32 (reg _ last)) by lia.
  pose proof (flush_squashed_good d Hw ltac:(lia)) as Hf.
  destruct (flush_squashed d) as [d1|]; [|done]. destruct Hf as [Hw1 E1].
  cbn [mbind res_mbind res_bind].
  pose proof (expand_range_good (pgraph d1) _ _ Hw1 E1 Hs1 Hs2 Hs3) as Hx.
  by destruct (expand_range _ _ _).
Qed.

Lemma element32_good d p : kelvin_wf (pgraph d) -> dgood (NV097_ARRAY_ELEMENT32_handler d p).
Proof.
  intros Hw. unfold NV097_ARRAY_ELEMENT32_handler. pose proof (expand_good d Hw) as Hx.
  destruct (expand_if_drawn d) as [d1|]; [|done]. destruct Hx as [Hw1 E1].
  cbn [mbind res_mbind res_bind]. destruct (Z.ltb_spec (inline_elements_length (pgraph d1))
    NV2A_MAX_BATCH_LENGTH) as [Hn|]; [|by left]. cbn [c_assert mbind res_mbind res_bind].
  pose proof (push_element_good (pgraph d1) p Hw1 E1 Hn) as Hp.
  destruct (push_element _ _); [apply Hp|done].
Qed.

(** There is room for both indices. *)
Definition room16 (pg : PGRAPHState) : Prop :=
  draw_arrays_length pg = 0 /\ inline_elements_length pg + 2 <= NV2A_MAX_BATCH_LENGTH.

Lemma element16_good d p : kelvin_wf (pgraph d) ->
  match NV097_ARRAY_ELEMENT16_handler d p with
  | Ok d' => kelvin_wf (pgraph d')
  | Fault f => room16 (pgraph d) -> safe_fault f
  end.
Proof.
  intros Hw. unfold NV097_ARRAY_ELEMENT16_handler. pose proof (expand_good d Hw) as Hx.
  assert (room16 (pgraph d) -> expand_if_drawn d = Ok d) as Hr.
  { intros [E _]. unfold expand_if_drawn. by rewrite E. }
  destruct (expand_if_drawn d) as [d1|]; [|intros _; exact Hx]. destruct Hx as [Hw1 E1].
  cbn [mbind res_mbind res_bind]. destruct (Z.ltb_spec (inline_elements_length (pgraph d1))
    NV2A_MAX_BATCH_LENGTH) as [Hn|]; [|intros _; by left]. cbn [c_assert mbind res_mbind res_bind].
  pose proof (push_element_good (pgraph d1) (Z.land p 0xFFFF) Hw1 E1 Hn) as Hp.
  destruct (push_element (pgraph d1) _) as [pg2|]; [|done]. destruct Hp as (Hw2 & E2 & E3).
  cbn [mbind res_mbind res_bind]. pose proof (push_element_good pg2 (Z.shiftr p 16) Hw2 E2) as Hp.
  destruct (Z.ltb_spec (inline_elements_length pg2) NV2A_MAX_BATCH_LENGTH) as [Hn2|Hn2].
  - specialize (Hp Hn2). destruct (push_element pg2 _); [apply Hp|done].
  - unfold push_element. destruct (wf_batch _ Hw2) as [He _ _ _]. unfold reg_write.
    rewrite (proj2 (Z.ltb_ge (inline_elements_length pg2) _)), andb_false_r by lia. cbn.
    intros Hroom. destruct (Hroom) as [_ Hl]. specialize (Hr Hroom). simplify_eq. lia.
Qed.

Lemma semaphore_good d p d' : kelvin_wf (pgraph d) ->
  NV097_BACK_END_WRITE_SEMAPHORE_RELEASE_handler d p = Ok d' -> kelvin_wf (pgraph d').
Proof.
  intros Hw. unfold NV097_BACK_END_WRITE_SEMAPHORE_RELEASE_handler.
  pose proof (surface_update_good d Hw) as Hs. destruct (surface_update d) as [d1|]; [|done].
  cbn [mbind res_mbind res_bind].
  intros ([data len] & _ & (u & _ & (v & _ & [= <-])%res_bind_Ok)%res_bind_Ok)%res_bind_Ok. done.
Qed.

(** *** All the methods *)

(** The bounds of the method as numbers. *)
Ltac method_bounds :=
  match goal with
  | Hm : METHOD_ADDR ?k <= _ < METHOD_RANGE_END ?k |- _ =>
      let e := eval vm_compute in (METHOD_RANGE_END k) in
      replace (METHOD_RANGE_END k) with e in Hm by (vm_compute; reflexivity);
      let b := eval cbn [METHOD_ADDR] in (METHOD_ADDR k) in change (METHOD_ADDR k) with b in Hm
  end.

Definition on_device (k : KelvinMethod) : bool :=
  match k with
  | NO_OPERATION | WAIT_FOR_IDLE | FLIP_STALL | SET_CONTEXT_DMA_COLOR | SET_CONTEXT_DMA_REPORT
  | SET_SURFACE_CLIP_HORIZONTAL | SET_SURFACE_CLIP_VERTICAL | SET_SURFACE_FORMAT
  | SET_SURFACE_PITCH | SET_SURFACE_COLOR_OFFSET | SET_SURFACE_ZETA_OFFSET | SET_CONTROL0
  | CLEAR_REPORT_VALUE | GET_REPORT | SET_BEGIN_END | ARRAY_ELEMENT16 | ARRAY_ELEMENT32
  | BACK_END_WRITE_SEMAPHORE_RELEASE | CLEAR_SURFACE => true
  | _ => false
  end.

Lemma pg_methods_good k d s m p : on_device k = false -> kelvin_wf (pgraph d) ->
  METHOD_ADDR k <= m < METHOD_RANGE_END k -> dgood (method_handler (method_func k) d s m p).
Proof.
  intros Hk Hw Hm. destruct k; try discriminate Hk; clear Hk; cbn [method_func method_handler];
  first [apply on_pg_good | apply on_pg_res_good | apply on_pg_method_good];
  revert Hw; generalize (pgraph d) as pg; intros pg Hw; method_bounds;
  first [by apply launch_good | good_handler].
Qed.

(** The methods that write to guest memory. *)
Definition to_memory (k : KelvinMethod) : bool :=
  match k with GET_REPORT | BACK_END_WRITE_SEMAPHORE_RELEASE => true | _ => false end.

Lemma device_methods_good k d s m p : on_device k = true -> to_memory k = false ->
  k <> ARRAY_ELEMENT16 -> kelvin_wf (pgraph d) -> dgood (method_handler (method_func k) d s m p).
Proof.
  intros Hk Hm Hn Hw. destruct k; try discriminate Hk; try discriminate Hm; clear Hk Hm;
    cbn [method_func method_handler]; unfold on_dev;
    first [by apply no_operation_good | by apply begin_end_good | by apply element32_good
          | by apply dgood_ops | idtac].
  - unfold NV097_FLIP_STALL_handler. apply dgood_seq; [by apply surface_update_good|].
    intros d1 Hw1. by apply (dgood_after _ (fun pg => pg <| waiting_for_flip := true |>));
      [apply dgood_ops|].
  - by apply dgood_after; [apply surface_update_good|].
  - by apply (dgood_after _ (fun pg => pg <| dma_report := p |>)); [apply dgood_ops|].
  - by apply dgood_after; [apply surface_update_good|].
  - by apply dgood_after; [apply surface_update_good|].
  - apply dgood_after; [by apply surface_update_good|]. intros pg Hp. cbv zeta. by destruct (_ =? _).
  - by apply dgood_after; [apply surface_update_good|].
  - by apply dgood_after; [apply surface_update_good|].
  - by apply dgood_after; [apply surface_update_good|].
  - apply dgood_after; [by apply surface_update_good|]. intros pg Hp. by repeat apply set_mask_wf.
  - by destruct Hn.
Qed.

Definition method_safe (k : KelvinMethod) d (r : res (NV2AState X)) : Prop :=
  match r with
  | Ok d' => kelvin_wf (pgraph d')
  | Fault f => safe_fault f \/ to_memory k = true \/ k = ARRAY_ELEMENT16 /\ ~ room16 (pgraph d)
  end.

Lemma dgood_safe k d r : dgood r -> method_safe k d r.
Proof. unfold method_safe. destruct r; [done|]. by left. Qed.

Lemma to_memory_safe k d s m p : to_memory k = true -> kelvin_wf (pgraph d) ->
  method_safe k d (method_handler (method_func k) d s m p).
Proof.
  intros Hk Hw. destruct (method_handler _ _ _ _ _) as [d'|f] eqn:E; [|by right; left].
  destruct k; try discriminate Hk; cbn [method_func method_handler] in E; unfold on_dev in E.
  - revert E. unfold NV097_GET_REPORT_handler. intros (u & _ & E)%res_bind_Ok.
    pose proof (ops_safe (GetReport p) d Hw) as Ho. by rewrite E in Ho.
  - by eapply semaphore_good.
Qed.

Lemma element16_safe d s m p : kelvin_wf (pgraph d) ->
  method_safe ARRAY_ELEMENT16 d (method_handler (method_func ARRAY_ELEMENT16) d s m p).
Proof.
  intros Hw. cbn [method_func method_handler]. unfold on_dev.
  pose proof (element16_good d p Hw) as He. destruct (NV097_ARRAY_ELEMENT16_handler d p); [done|].
  unfold method_safe. destruct (decide (draw_arrays_length (pgraph d) = 0
    /\ inline_elements_length (pgraph d) + 2 <= NV2A_MAX_BATCH_LENGTH)) as [Hr|Hr]; auto.
Qed.

Lemma method_good k d s m p : kelvin_wf (pgraph d) -> METHOD_ADDR k <= m < METHOD_RANGE_END k ->
  method_safe k d (method_handler (method_func k) d s m p).
Proof.
  intros Hw Hm. destruct (on_device k) eqn:Hk; [|by apply dgood_safe, pg_methods_good].
  destruct (to_memory k) eqn:Ht; [by apply to_memory_safe|].
  destruct (decide (METHOD_ADDR k = METHOD_ADDR ARRAY_ELEMENT16)) as [->%METHOD_ADDR_inj|Hn];
    [by apply element16_safe|].
  apply dgood_safe, device_methods_good; try done. by intros ->.
Qed.

(** A method the table knows lies in the range of its handler, aligned or not. *)
Lemma method_range m k : 0 <= m < 0x2000 -> pgraph_kelvin_methods (Z.shiftr m 2) = Some k ->
  METHOD_ADDR k <= m < METHOD_RANGE_END k.
Proof.
  intros Hm Ek. rewrite Z.shiftr_div_pow2 in Ek by done. change (2 ^ 2) with 4 in Ek.
  pose proof (table_bounds (m / 4) k ltac:(dlia) Ek) as Hb.
  assert (METHOD_RANGE_END k mod 4 = 0) as He.
  { clear. destruct k; vm_compute; reflexivity. }
  dlia.
Qed.

(** C3. A word sent to the Kelvin object of a well-formed PGRAPH either leaves every array
    within its bounds, with every count within its capacity and the batch consistent, or stops
    at an assertion or at a division by a zero flip modulo: no method and no parameter makes a
    handler leave an array of the state.  The exceptions are [ARRAY_ELEMENT16] without room
    for two indices, and the reports and semaphores that go to guest memory. *)
Theorem kelvin_word_safe d s m p : kelvin_wf (pgraph d) -> 0 <= m < 0x2000 ->
  match kelvin_word d s m p with
  | Ok (d', _) => kelvin_wf (pgraph d')
  | Fault f => safe_fault f \/ exists k, pgraph_kelvin_methods (Z.shiftr m 2) = Some k
      /\ (to_memory k = true \/ k = ARRAY_ELEMENT16 /\ ~ room16 (pgraph d))
  end.
Proof.
  intros Hw Hm. unfold kelvin_word.
  rewrite (proj2 (Z.ltb_lt (Z.shiftr m 2) _)) by (rewrite Z.shiftr_div_pow2 by done; dlia).
  cbn [negb]. destruct (kelvin_method (Z.shiftr m 2)) as [f|] eqn:Ef; [|done].
  destruct (kelvin_method_Some _ _ Ef) as (_ & k & Ek & ->).
  pose proof (method_good k d s m p Hw (method_range m k Hm Ek)) as Hg.
  destruct (method_handler _ _ _ _ _) as [d'|]; [done|].
  destruct Hg as [|]; [by left|]. right. eauto.
Qed.

End Methods.

End KelvinSafety.
