(* ===== verification/Pfifo.v ===== *)
(** * PFIFO: the DMA pusher and the puller (hw/xbox/nv2a/pfifo.c)

    The pusher reads 32-bit words between [DMA_GET] and [DMA_PUT] of the push buffer
    and decodes them; the state of the decoder is packed in the register [DMA_STATE].
    Data words go to the puller, which binds objects to subchannels through the RAMHT
    and hands methods to PGRAPH.  The handlers and one turn of the FIFO thread run
    with [pfifo.lock] held; what other threads do while the puller has dropped it is
    not modelled. *)

From S2P Require Import Prelude Nv2aRegs Nv2aState Pgraph.
Import Nv2aState Pgraph.

Module Pfifo.

Definition ENGINE_SOFTWARE : Z := 0.
Definition ENGINE_GRAPHICS : Z := 1.
Definition ENGINE_DVD : Z := 2.

Record RAMHTEntry := {
  re_handle : Z;
  re_instance : Z;
  re_engine : Z;
  re_channel_id : Z;
  re_valid : bool
}.

Section Pfifo.
Context {X : Type} `{Renderer X} `{Kelvin X}.
Implicit Types d : NV2AState X.

Definition getr d (r : Z) : Z := reg (pfifo_regs (pfifo d)) r.
Definition setr d (r v : Z) : NV2AState X :=
  d <| pfifo; pfifo_regs := <[r := v]> (pfifo_regs (pfifo d)) |>.

(** ** MMIO *)

Definition pfifo_read d (addr size : Z) : res (NV2AState X * Z) :=
  r ← switch addr
    [(NV_PFIFO_INTR_0, Ok (pfifo_pending (pfifo d)));
     (NV_PFIFO_INTR_EN_0, Ok (pfifo_enabled (pfifo d)));
     (NV_PFIFO_RUNOUT_STATUS, Ok NV_PFIFO_RUNOUT_STATUS_LOW_MARK)]
    (reg_read 0x2000 (pfifo_regs (pfifo d)) addr);
  Ok (d, r).

Definition pfifo_write d (addr val size : Z) : res (NV2AState X) :=
  d ← switch addr
    [(NV_PFIFO_INTR_0,
      Ok (nv2a_update_irq
        (d <| pfifo; pfifo_pending := Z.land (pfifo_pending (pfifo d)) (Z.lnot val) |>)));
     (NV_PFIFO_INTR_EN_0, Ok (nv2a_update_irq (d <| pfifo; pfifo_enabled := u32 val |>)))]
    (r ← reg_write 0x2000 (pfifo_regs (pfifo d)) addr (u32 val);
     Ok (d <| pfifo; pfifo_regs := r |>));
  Ok (pfifo_kick d).

(** ** The RAMHT *)

(** The fold of the handle; at most 32 bits are shifted out, 11 or more at a time. *)
Fixpoint hash_loop (fuel : nat) (bits handle hash : Z) : res Z :=
  if handle =? 0 then Ok hash
  else match fuel with
  | O => Fault OutOfFuel
  | S fuel =>
      hash_loop fuel bits (Z.shiftr handle bits)
        (Z.lxor hash (Z.land handle (Z.shiftl 1 bits - 1)))
  end.

Definition ramht_size d : Z :=
  Z.shiftl 1 (GET_MASK (getr d NV_PFIFO_RAMHT) NV_PFIFO_RAMHT_SIZE + 12).

Definition ramht_hash d (handle : Z) : res Z :=
  let bits := ctz32 (ramht_size d) - 1 in
  hash ← hash_loop 32 bits handle 0;
  let channel_id := GET_MASK (getr d NV_PFIFO_CACHE1_PUSH1) NV_PFIFO_CACHE1_PUSH1_CHID in
  Ok (Z.lxor hash (Z.shiftl channel_id (bits - 4))).

Definition ramht_lookup d (handle : Z) : res RAMHTEntry :=
  hash ← ramht_hash d handle;
  if negb (hash * 8 <? ramht_size d) then Fault AssertFail
  else
    let ramht_address :=
      Z.shiftl (GET_MASK (getr d NV_PFIFO_RAMHT) NV_PFIFO_RAMHT_BASE_ADDRESS) 12 in
    if negb (ramht_address + hash * 8 <? ramin_size d) then Fault AssertFail
    else
      entry_handle ← ld_le (ramin d) 4 (ramht_address + hash * 8);
      entry_context ← ld_le (ramin d) 4 (ramht_address + hash * 8 + 4);
      Ok {| re_handle := entry_handle;
            re_instance := Z.shiftl (Z.land entry_context NV_RAMHT_INSTANCE) 4;
            re_engine := Z.shiftr (Z.land entry_context NV_RAMHT_ENGINE) 16;
            re_channel_id := Z.shiftr (Z.land entry_context NV_RAMHT_CHID) 24;
            re_valid := tst entry_context NV_RAMHT_STATUS |}.

(** ** Stalls *)

Definition can_fifo_access d : bool :=
  tst (reg (regs_ (pgraph d)) NV_PGRAPH_FIFO) NV_PGRAPH_FIFO_ACCESS.

Definition is_flip_stall_complete d : bool :=
  negb (PG_GET_MASK (pgraph d) NV_PGRAPH_SURFACE NV_PGRAPH_SURFACE_READ_3D
        =? PG_GET_MASK (pgraph d) NV_PGRAPH_SURFACE NV_PGRAPH_SURFACE_WRITE_3D).

Definition pfifo_stall_for_flip d : NV2AState X * bool :=
  if waiting_for_flip (pgraph d) then
    if negb (is_flip_stall_complete d) then (d, true)
    else (d <| pgraph; waiting_for_flip := false |>, false)
  else (d, false).

Definition pfifo_puller_should_stall d : NV2AState X * bool :=
  let '(d, stall) := pfifo_stall_for_flip d in
  (d, stall || waiting_for_nop (pgraph d) || waiting_for_context_switch (pgraph d)
      || negb (can_fifo_access d)).

Definition pfifo_pusher_should_stall d : bool :=
  negb (can_fifo_access d) || waiting_for_nop (pgraph d).

(** ** The puller; the result is the words consumed, or -1 *)

(** Method 0: the object is looked up, its engine bound to the subchannel. *)
Definition puller_bind d (subchannel parameter parameters num_words_available
    max_lookahead_words : Z) (inc : bool) : res (NV2AState X * Z) :=
  entry ← ramht_lookup d parameter;
  if negb (re_valid entry) then Fault AssertFail
  else if negb (re_engine entry =? ENGINE_GRAPHICS) then Fault AssertFail
  else if negb (subchannel <? 8) then Fault AssertFail
  else
    let d := setr d NV_PFIFO_CACHE1_ENGINE
               (SET_MASK (getr d NV_PFIFO_CACHE1_ENGINE) (Z.shiftl 3 (4 * subchannel))
                         (re_engine entry)) in
    let d := setr d NV_PFIFO_CACHE1_PULL1
               (SET_MASK (getr d NV_PFIFO_CACHE1_PULL1) NV_PFIFO_CACHE1_PULL1_ENGINE
                         (re_engine entry)) in
    if can_fifo_access d then
      d ← pgraph_context_switch d (re_channel_id entry);
      if negb (waiting_for_context_switch (pgraph d)) then
        pgraph_method d subchannel 0 (re_instance entry) parameters num_words_available
          max_lookahead_words inc
      else Ok (d, -1)
    else Ok (d, -1).

(** Other methods go to the engine of the subchannel, object handles resolved. *)
Definition puller_method d (subchannel method parameter parameters num_words_available
    max_lookahead_words : Z) (inc : bool) : res (NV2AState X * Z) :=
  parameter ← (if (0x180 <=? method) && (method <? 0x200) then
                 entry ← ramht_lookup d parameter;
                 if negb (re_valid entry) then Fault AssertFail else Ok (re_instance entry)
               else Ok parameter);
  let engine := GET_MASK (getr d NV_PFIFO_CACHE1_ENGINE) (Z.shiftl 3 (4 * subchannel)) in
  if negb (engine =? ENGINE_GRAPHICS) then Fault AssertFail
  else
    let d := setr d NV_PFIFO_CACHE1_PULL1
               (SET_MASK (getr d NV_PFIFO_CACHE1_PULL1) NV_PFIFO_CACHE1_PULL1_ENGINE engine) in
    if can_fifo_access d then
      pgraph_method d subchannel method parameter parameters num_words_available
        max_lookahead_words inc
    else Ok (d, -1).

Definition pfifo_run_puller d (method_entry parameter parameters num_words_available
    max_lookahead_words : Z) : res (NV2AState X * Z) :=
  let '(d, stall) := pfifo_puller_should_stall d in
  if stall then Ok (d, -1)
  else if (GET_MASK (getr d NV_PFIFO_CACHE1_PULL0) NV_PFIFO_CACHE1_PULL0_ACCESS =? 0)
          || tst (getr d NV_PFIFO_CACHE1_STATUS) NV_PFIFO_CACHE1_STATUS_LOW_MARK
  then Ok (d, -1)
  else
    let method := Z.land method_entry 0x1FFC in
    let subchannel := GET_MASK method_entry NV_PFIFO_CACHE1_METHOD_SUBCHANNEL in
    let inc := GET_MASK method_entry NV_PFIFO_CACHE1_METHOD_TYPE =? 0 in
    '(d, num_proc) ←
      (if method =? 0 then
         puller_bind d subchannel parameter parameters num_words_available
           max_lookahead_words inc
       else if 0x100 <=? method then
         puller_method d subchannel method parameter parameters num_words_available
           max_lookahead_words inc
       else Fault AssertFail);
    if 0 <? num_proc then
      Ok (setr d NV_PFIFO_CACHE1_STATUS
            (Z.lor (getr d NV_PFIFO_CACHE1_STATUS) NV_PFIFO_CACHE1_STATUS_LOW_MARK), num_proc)
    else Ok (d, num_proc).

(** ** The pusher *)

Definition dma_state_get d (field : Z) : Z := GET_MASK (getr d NV_PFIFO_CACHE1_DMA_STATE) field.
Definition dma_state_set d (field v : Z) : NV2AState X :=
  setr d NV_PFIFO_CACHE1_DMA_STATE (SET_MASK (getr d NV_PFIFO_CACHE1_DMA_STATE) field v).

(** A data word; [None] when the puller stalls, else the new value of [dma_get_v]. *)
Definition pusher_data d (dma get_v word num_words_available : Z)
  : res (NV2AState X * option Z) :=
  let method_type := dma_state_get d NV_PFIFO_CACHE1_DMA_STATE_METHOD_TYPE in
  let method_subchannel := dma_state_get d NV_PFIFO_CACHE1_DMA_STATE_SUBCHANNEL in
  let method := Z.shiftl (dma_state_get d NV_PFIFO_CACHE1_DMA_STATE_METHOD) 2 in
  let method_count := dma_state_get d NV_PFIFO_CACHE1_DMA_STATE_METHOD_COUNT in
  let d := setr d NV_PFIFO_CACHE1_DMA_DATA_SHADOW word in
  let method_entry := SET_MASK 0 NV_PFIFO_CACHE1_METHOD_ADDRESS (Z.shiftr method 2) in
  let method_entry := SET_MASK method_entry NV_PFIFO_CACHE1_METHOD_TYPE method_type in
  let method_entry := SET_MASK method_entry NV_PFIFO_CACHE1_METHOD_SUBCHANNEL method_subchannel in
  let d := setr d NV_PFIFO_CACHE1_STATUS
             (Z.land (getr d NV_PFIFO_CACHE1_STATUS) (Z.lnot NV_PFIFO_CACHE1_STATUS_LOW_MARK)) in
  '(d, n) ← pfifo_run_puller d method_entry word (dma + get_v)
              (Z.min method_count num_words_available) num_words_available;
  if n <? 0 then Ok (d, None)
  else
    let d := if method_type =? NV_PFIFO_CACHE1_DMA_STATE_METHOD_TYPE_INC
             then dma_state_set d NV_PFIFO_CACHE1_DMA_STATE_METHOD (Z.shiftr (method + 4 * n) 2)
             else d in
    let d := dma_state_set d NV_PFIFO_CACHE1_DMA_STATE_METHOD_COUNT
               (method_count - Z.min method_count n) in
    let d := setr d NV_PFIFO_CACHE1_DMA_DCOUNT (u32 (getr d NV_PFIFO_CACHE1_DMA_DCOUNT + n)) in
    Ok (d, Some (u32 (u32 (get_v + 4) + (n - 1) * 4))).

(** A method header. *)
Definition pusher_header d (word type : Z) : NV2AState X :=
  let d := dma_state_set d NV_PFIFO_CACHE1_DMA_STATE_METHOD (Z.shiftr (Z.land word 0x1fff) 2) in
  let d := dma_state_set d NV_PFIFO_CACHE1_DMA_STATE_SUBCHANNEL (Z.land (Z.shiftr word 13) 7) in
  let d := dma_state_set d NV_PFIFO_CACHE1_DMA_STATE_METHOD_COUNT
             (Z.land (Z.shiftr word 18) 0x7ff) in
  let d := dma_state_set d NV_PFIFO_CACHE1_DMA_STATE_METHOD_TYPE type in
  setr d NV_PFIFO_CACHE1_DMA_DCOUNT 0.

(** The first word of a command; [get_v] is already past it. *)
Definition pusher_command d (get_v word : Z) : res (NV2AState X * option Z) :=
  let sub := getr d NV_PFIFO_CACHE1_DMA_SUBROUTINE in
  let subroutine_state := GET_MASK sub NV_PFIFO_CACHE1_DMA_SUBROUTINE_STATE in
  let d := setr d NV_PFIFO_CACHE1_DMA_RSVD_SHADOW word in
  if Z.land word 0xe0000003 =? 0x20000000 then
    Ok (setr d NV_PFIFO_CACHE1_DMA_GET_JMP_SHADOW get_v, Some (Z.land word 0x1fffffff))
  else if Z.land word 3 =? 1 then
    Ok (setr d NV_PFIFO_CACHE1_DMA_GET_JMP_SHADOW get_v, Some (Z.land word 0xfffffffc))
  else if Z.land word 3 =? 2 then
    if negb (subroutine_state =? 0) then
      Ok (dma_state_set d NV_PFIFO_CACHE1_DMA_STATE_ERROR NV_PFIFO_CACHE1_DMA_STATE_ERROR_CALL,
          None)
    else
      Ok (setr d NV_PFIFO_CACHE1_DMA_SUBROUTINE
            (SET_MASK get_v NV_PFIFO_CACHE1_DMA_SUBROUTINE_STATE 1),
          Some (Z.land word 0xfffffffc))
  else if word =? 0x00020000 then
    if subroutine_state =? 0 then
      Ok (dma_state_set d NV_PFIFO_CACHE1_DMA_STATE_ERROR NV_PFIFO_CACHE1_DMA_STATE_ERROR_RETURN,
          Some get_v)
    else
      Ok (setr d NV_PFIFO_CACHE1_DMA_SUBROUTINE
            (SET_MASK sub NV_PFIFO_CACHE1_DMA_SUBROUTINE_STATE 0),
          Some (Z.land sub 0xfffffffc))
  else if Z.land word 0xe0030003 =? 0 then
    Ok (pusher_header d word NV_PFIFO_CACHE1_DMA_STATE_METHOD_TYPE_INC, Some get_v)
  else if Z.land word 0xe0030003 =? 0x40000000 then
    Ok (pusher_header d word NV_PFIFO_CACHE1_DMA_STATE_METHOD_TYPE_NON_INC, Some get_v)
  else Fault AssertFail.

(** One turn of the loop of [pfifo_run_pusher]; [false] leaves it. *)
Definition pusher_step d (dma dma_len : Z) : res (NV2AState X * bool) :=
  if pfifo_pusher_should_stall d then Ok (d, false)
  else
    let dma_get_v := getr d NV_PFIFO_CACHE1_DMA_GET in
    let dma_put_v := getr d NV_PFIFO_CACHE1_DMA_PUT in
    if dma_get_v =? dma_put_v then Ok (d, false)
    else if dma_len <=? dma_get_v then Fault AssertFail
    else
      let num_bytes := u32 (dma_put_v - dma_get_v) in
      if negb (num_bytes mod 4 =? 0) then Fault AssertFail
      else
        word ← ld_le (vram d) 4 (dma + dma_get_v);
        '(d, next) ←
          (if negb (dma_state_get d NV_PFIFO_CACHE1_DMA_STATE_METHOD_COUNT =? 0)
           then pusher_data d dma dma_get_v word (num_bytes / 4)
           else pusher_command d (u32 (dma_get_v + 4)) word);
        match next with
        | None => Ok (d, false)
        | Some v =>
            let d := setr d NV_PFIFO_CACHE1_DMA_GET v in
            Ok (d, dma_state_get d NV_PFIFO_CACHE1_DMA_STATE_ERROR =? 0)
        end.

Fixpoint pusher_loop (fuel : nat) d (dma dma_len : Z) : res (NV2AState X) :=
  match fuel with
  | O => Fault OutOfFuel
  | S fuel =>
      '(d, continue) ← pusher_step d dma dma_len;
      if (continue : bool) then pusher_loop fuel d dma dma_len else Ok d
  end.

(** The guards at the top of [pfifo_run_pusher]. *)
Definition pusher_enabled d : bool :=
  negb (GET_MASK (getr d NV_PFIFO_CACHE1_PUSH0) NV_PFIFO_CACHE1_PUSH0_ACCESS =? 0)
  && negb (GET_MASK (getr d NV_PFIFO_CACHE1_DMA_PUSH) NV_PFIFO_CACHE1_DMA_PUSH_ACCESS =? 0)
  && (GET_MASK (getr d NV_PFIFO_CACHE1_DMA_PUSH) NV_PFIFO_CACHE1_DMA_PUSH_STATUS =? 0).

Definition pusher_asserts d : bool :=
  let push1 := getr d NV_PFIFO_CACHE1_PUSH1 in
  tst (getr d NV_PFIFO_MODE) (Z.shiftl 1 (GET_MASK push1 NV_PFIFO_CACHE1_PUSH1_CHID))
  && (GET_MASK push1 NV_PFIFO_CACHE1_PUSH1_MODE =? NV_PFIFO_CACHE1_PUSH1_MODE_DMA)
  && (dma_state_get d NV_PFIFO_CACHE1_DMA_STATE_ERROR =? NV_PFIFO_CACHE1_DMA_STATE_ERROR_NONE).

Definition pfifo_run_pusher (fuel : nat) d : res (NV2AState X) :=
  if negb (pusher_enabled d) then Ok d
  else if negb (pusher_asserts d) then Fault AssertFail
  else
    let dma_instance :=
      Z.shiftl (GET_MASK (getr d NV_PFIFO_CACHE1_DMA_INSTANCE)
                         NV_PFIFO_CACHE1_DMA_INSTANCE_ADDRESS) 4 in
    '(dma, dma_len) ← nv_dma_map d dma_instance;
    d ← pusher_loop fuel d dma dma_len;
    if negb (dma_state_get d NV_PFIFO_CACHE1_DMA_STATE_ERROR =? 0) then Fault AssertFail
    else Ok d.

(** One turn of [pfifo_thread]; the result tells whether the thread then waits. *)
Definition pfifo_thread_turn (fuel : nat) (process_pending process_reports : NV2AState X -> NV2AState X)
    d : res (NV2AState X * bool) :=
  let d := process_pending (d <| pfifo; fifo_kick := false |>) in
  d ← (if negb (halt (pfifo d)) then pfifo_run_pusher fuel d else Ok d);
  let d := process_reports d in
  Ok (d, negb (fifo_kick (pfifo d))).

End Pfifo.

End Pfifo.
