(* ===== verification/PfifoStream.v ===== *)
(** * What the FIFO does, word by word

    An abstract machine for the push buffer of pfifo.c: its decoder is a record, not
    the packed register [DMA_STATE]; commands are a data type; data words are delivered
    one at a time, with no bursts.  [pusher_refines] shows that [pfifo_run_pusher]
    does what this machine does, and [stream_delivery] what the machine does with a
    buffer that holds the encoding of a list of commands. *)

From S2P Require Import Prelude Nv2aRegs Nv2aState Pgraph Pfifo.
Import Nv2aState Pgraph Pfifo.

Module PfifoStream.

(** ** Commands *)

Inductive Command :=
| Jump (target : Z)
| Call (target : Z)
| Return
| Methods (inc : bool) (subchannel method count : Z).

(** [None] is a reserved command. *)
Definition decode (w : Z) : option Command :=
  let methods inc :=
    Methods inc (w / 2 ^ 13 mod 2 ^ 3) (4 * (w / 4 mod 2 ^ 11)) (w / 2 ^ 18 mod 2 ^ 11) in
  if Z.land w 0xe0000003 =? 0x20000000 then Some (Jump (Z.land w 0x1fffffff))
  else if Z.land w 3 =? 1 then Some (Jump (Z.land w 0xfffffffc))
  else if Z.land w 3 =? 2 then Some (Call (Z.land w 0xfffffffc))
  else if w =? 0x00020000 then Some Return
  else if Z.land w 0xe0030003 =? 0 then Some (methods true)
  else if Z.land w 0xe0030003 =? 0x40000000 then Some (methods false)
  else None.

(** ** The machine *)

(** [d_count] words of a command are still to come, for [d_method] of [d_subchannel];
    [d_return] is where a subroutine returns to. *)
Record Decoder := {
  d_get : Z;
  d_inc : bool;
  d_subchannel : Z;
  d_method : Z;
  d_count : Z;
  d_return : option Z
}.
#[global] Instance eta_Decoder : Eta Decoder := fun r =>
  Build_Decoder (d_get r) (d_inc r) (d_subchannel r) (d_method r) (d_count r) (d_return r).

(** [n] words of the command are done. *)
Definition advance (n : Z) (D : Decoder) : Decoder :=
  D <| d_get := u32 (d_get D + 4 * n) |>
    <| d_method := if d_inc D then (d_method D + 4 * n) mod 0x2000 else d_method D |>
    <| d_count := d_count D - n |>.

(** A subroutine calls no other; both errors end in a failed assertion. *)
Definition fifo_command (D : Decoder) (c : Command) : res Decoder :=
  let next := u32 (d_get D + 4) in
  match c with
  | Jump a => Ok (D <| d_get := a |>)
  | Call a =>
      match d_return D with
      | Some _ => Fault AssertFail
      | None => Ok (D <| d_get := a |> <| d_return := Some (Z.land next 0xfffffffc) |>)
      end
  | Return =>
      match d_return D with
      | Some a => Ok (D <| d_get := a |> <| d_return := None |>)
      | None => Fault AssertFail
      end
  | Methods inc s m n =>
      Ok {| d_get := next; d_inc := inc; d_subchannel := s; d_method := m; d_count := n;
            d_return := d_return D |}
  end.

Section Machine.
Context {X : Type} `{Renderer X} `{Kelvin X}.
Implicit Types d e : NV2AState X.

Definition engine_of d (subchannel : Z) : Z :=
  GET_MASK (getr d NV_PFIFO_CACHE1_ENGINE) (Z.shiftl 3 (4 * subchannel)).

(** A handle is bound: its object is looked up and its engine given to the subchannel;
    the word waits when PGRAPH has to switch channels first. *)
Definition bind_word e (s handle : Z) : res (NV2AState X * bool) :=
  entry ← ramht_lookup e handle;
  if negb (re_valid entry) || negb (re_engine entry =? ENGINE_GRAPHICS) || negb (s <? 8)
  then Fault AssertFail
  else
    let e := setr e NV_PFIFO_CACHE1_ENGINE
               (SET_MASK (getr e NV_PFIFO_CACHE1_ENGINE) (Z.shiftl 3 (4 * s)) (re_engine entry)) in
    e ← pgraph_context_switch e (re_channel_id entry);
    if waiting_for_context_switch (pgraph e) then Ok (e, false)
    else e ← pgraph_word e s 0 (re_instance entry); Ok (e, true).

(** Methods that take objects get the instance of the handle. *)
Definition resolve e (m w : Z) : res Z :=
  if (0x180 <=? m) && (m <? 0x200) then
    entry ← ramht_lookup e w;
    if negb (re_valid entry) then Fault AssertFail else Ok (re_instance entry)
  else Ok w.

Definition method_word e (s m w : Z) : res (NV2AState X * bool) :=
  p ← resolve e m w;
  if negb (engine_of e s =? ENGINE_GRAPHICS) then Fault AssertFail
  else e ← pgraph_word e s m p; Ok (e, true).

(** One data word; [false] when it has to wait. *)
Definition fifo_word e (s m w : Z) : res (NV2AState X * bool) :=
  let '(e, stall) := pfifo_puller_should_stall e in
  if stall || (GET_MASK (getr e NV_PFIFO_CACHE1_PULL0) NV_PFIFO_CACHE1_PULL0_ACCESS =? 0)
  then Ok (e, false)
  else if m =? 0 then bind_word e s w
  else if 0x100 <=? m then method_word e s m w
  else Fault AssertFail.

(** One step; [false] when the machine rests.  A command whose words cross the end of
    the DMA object, and draw calls that may be squashed with their successors, are not
    described. *)
Definition fifo_step (dma len : Z) (D : Decoder) e : res (Decoder * NV2AState X * bool) :=
  let put := getr e NV_PFIFO_CACHE1_DMA_PUT in
  let bytes := u32 (put - d_get D) in
  if pfifo_pusher_should_stall e || (d_get D =? put) then Ok (D, e, false)
  else if (len <=? d_get D) || negb (bytes mod 4 =? 0) then Fault AssertFail
  else
    w ← ld_le (vram e) 4 (dma + d_get D);
    if d_count D =? 0 then
      match decode w with
      | None => Fault AssertFail
      | Some c => D ← fifo_command D c; Ok (D, e, true)
      end
    else if (len <? d_get D + 4 * Z.min (d_count D) (bytes / 4))
            || (d_method D =? NV097_DRAW_ARRAYS) && (7 <=? bytes / 4) then Fault OutOfBounds
    else
      '(e, delivered) ← fifo_word e (d_subchannel D) (d_method D) w;
      Ok (if (delivered : bool) then advance 1 D else D, e, delivered).

Fixpoint fifo_run (fuel : nat) (dma len : Z) (D : Decoder) e : res (Decoder * NV2AState X) :=
  match fuel with
  | O => Fault OutOfFuel
  | S fuel =>
      '(D, e, continue) ← fifo_step dma len D e;
      if (continue : bool) then fifo_run fuel dma len D e else Ok (D, e)
  end.

End Machine.

(** ** How the registers encode the machine *)

(** Registers that only the FIFO itself looks at. *)
Definition private_regs : list Z :=
  [NV_PFIFO_CACHE1_DMA_GET; NV_PFIFO_CACHE1_DMA_STATE; NV_PFIFO_CACHE1_DMA_DCOUNT;
   NV_PFIFO_CACHE1_DMA_SUBROUTINE; NV_PFIFO_CACHE1_DMA_DATA_SHADOW;
   NV_PFIFO_CACHE1_DMA_RSVD_SHADOW; NV_PFIFO_CACHE1_DMA_GET_JMP_SHADOW;
   NV_PFIFO_CACHE1_STATUS; NV_PFIFO_CACHE1_PULL1].

(** Register files that differ in the registers of a list only. *)
Definition differ (l : list Z) (r r' : regfile) : Prop := forall a, a ∉ l -> r' !! a = r !! a.

#[global] Instance differ_equivalence l : Equivalence (differ l).
Proof.
  split; [done|intros r r' Hd a Ha; by rewrite Hd|].
  intros r1 r2 r3 H12 H23 a Ha. by rewrite H23, H12.
Qed.

Lemma differ_insert l r a v : a ∈ l -> differ l r (<[a := v]> r).
Proof. intros Ha b Hb. apply lookup_insert_ne. congruence. Qed.

Lemma differ_insert2 l r r' a v : differ l r r' -> differ l (<[a := v]> r) (<[a := v]> r').
Proof.
  intros Hd b Hb. destruct (decide (a = b)) as [->|].
  - by rewrite !lookup_insert_eq.
  - rewrite !lookup_insert_ne by done. by apply Hd.
Qed.

Lemma differ_reg l r r' a : differ l r r' -> a ∉ l -> reg r' a = reg r a.
Proof. intros Hd Ha. unfold reg. by rewrite Hd. Qed.

(** The registers the puller writes. *)
Definition puller_regs : list Z :=
  [NV_PFIFO_CACHE1_PULL1; NV_PFIFO_CACHE1_ENGINE; NV_PFIFO_CACHE1_STATUS].

Definition field (r : regfile) (f : Z) : Z := GET_MASK (reg r NV_PFIFO_CACHE1_DMA_STATE) f.

Definition decoder_of (r : regfile) : Decoder := {|
  d_get := reg r NV_PFIFO_CACHE1_DMA_GET;
  d_inc := field r NV_PFIFO_CACHE1_DMA_STATE_METHOD_TYPE =? 0;
  d_subchannel := field r NV_PFIFO_CACHE1_DMA_STATE_SUBCHANNEL;
  d_method := 4 * field r NV_PFIFO_CACHE1_DMA_STATE_METHOD;
  d_count := field r NV_PFIFO_CACHE1_DMA_STATE_METHOD_COUNT;
  d_return :=
    let sub := reg r NV_PFIFO_CACHE1_DMA_SUBROUTINE in
    if GET_MASK sub NV_PFIFO_CACHE1_DMA_SUBROUTINE_STATE =? 0 then None
    else Some (Z.land sub 0xfffffffc)
|}.

Definition put_field (r : regfile) (f v : Z) : regfile :=
  <[NV_PFIFO_CACHE1_DMA_STATE := SET_MASK (reg r NV_PFIFO_CACHE1_DMA_STATE) f v]> r.

Lemma field_put r f v a k `{BitField f a k} : field (put_field r f v) f = v mod 2 ^ k.
Proof. unfold field, put_field. rewrite reg_insert. by apply (GET_SET_MASK _ f a k). Qed.

Lemma field_put_ne r f g v : Z.land f g = 0 -> field (put_field r f v) g = field r g.
Proof. intros Hd. unfold field, put_field. rewrite reg_insert. by apply GET_SET_MASK_ne. Qed.

Lemma reg_put r f v a : a <> NV_PFIFO_CACHE1_DMA_STATE -> reg (put_field r f v) a = reg r a.
Proof. intros Ha. unfold put_field. by rewrite reg_insert_ne. Qed.

Lemma field_other r a v f : a <> NV_PFIFO_CACHE1_DMA_STATE -> field (<[a := v]> r) f = field r f.
Proof. intros Ha. unfold field. by rewrite reg_insert_ne. Qed.

(** Reads a register or a field through writes of others. *)
Ltac fields := repeat match goal with
  | |- context [reg (<[?a := ?v]> ?r) ?a] => rewrite (reg_insert r a v)
  | |- context [reg (<[?a := ?v]> ?r) ?b] => rewrite (reg_insert_ne r a b v) by done
  | |- context [reg (put_field ?r ?f ?v) ?a] => rewrite (reg_put r f v a) by done
  | |- context [field (<[?a := ?v]> ?r) ?f] => rewrite (field_other r a v f) by done
  | |- context [field (put_field ?r ?f ?v) ?g] => rewrite (field_put_ne r f g v) by done
  end.

Lemma dma_field_range r f a k `{BitField f a k} : 0 <= field r f < 2 ^ k.
Proof. by apply (GET_MASK_range _ f a k). Qed.

(** The method entry of the cache holds the three fields of the decoder. *)
Lemma method_entry_fields m t s : 0 <= m < 2 ^ 11 -> 0 <= t < 2 -> 0 <= s < 8 ->
  let entry := SET_MASK (SET_MASK (SET_MASK 0 NV_PFIFO_CACHE1_METHOD_ADDRESS m)
                 NV_PFIFO_CACHE1_METHOD_TYPE t) NV_PFIFO_CACHE1_METHOD_SUBCHANNEL s in
  Z.land entry 0x1FFC = 4 * m
  /\ GET_MASK entry NV_PFIFO_CACHE1_METHOD_SUBCHANNEL = s
  /\ GET_MASK entry NV_PFIFO_CACHE1_METHOD_TYPE = t.
Proof.
  intros Hm Ht Hs. cbv zeta.
  rewrite (land_GET_MASK _ 0x1FFC 2 11). change 0x1FFC with NV_PFIFO_CACHE1_METHOD_ADDRESS.
  split; [|split].
  - rewrite !GET_SET_MASK_ne, (GET_SET_MASK _ NV_PFIFO_CACHE1_METHOD_ADDRESS 2 11 m) by done.
    rewrite Z.mod_small by lia. lia.
  - rewrite (GET_SET_MASK _ NV_PFIFO_CACHE1_METHOD_SUBCHANNEL 13 3 s). apply Z.mod_small. lia.
  - rewrite GET_SET_MASK_ne, (GET_SET_MASK _ NV_PFIFO_CACHE1_METHOD_TYPE 0 1 t) by done.
    apply Z.mod_small. lia.
Qed.

(** The registers of the decoder are not those of the puller. *)
Lemma decoder_puller r r' : differ puller_regs r r' -> decoder_of r' = decoder_of r.
Proof.
  intros Hd. unfold decoder_of, field.
  by rewrite !(differ_reg _ _ _ NV_PFIFO_CACHE1_DMA_STATE Hd),
    !(differ_reg _ _ _ NV_PFIFO_CACHE1_DMA_GET Hd),
    !(differ_reg _ _ _ NV_PFIFO_CACHE1_DMA_SUBROUTINE Hd) by (vm_compute; set_solver).
Qed.

(** The bookkeeping of [pusher_data] for [n] words. *)
Definition data_done (n : Z) (r : regfile) : regfile :=
  let D := decoder_of r in
  let r := if d_inc D
           then put_field r NV_PFIFO_CACHE1_DMA_STATE_METHOD (Z.shiftr (d_method D + 4 * n) 2)
           else r in
  let r := put_field r NV_PFIFO_CACHE1_DMA_STATE_METHOD_COUNT (d_count D - Z.min (d_count D) n) in
  let r := <[NV_PFIFO_CACHE1_DMA_DCOUNT := u32 (reg r NV_PFIFO_CACHE1_DMA_DCOUNT + n)]> r in
  <[NV_PFIFO_CACHE1_DMA_GET := u32 (u32 (d_get D + 4) + (n - 1) * 4)]> r.

(** Writes of private registers. *)
Ltac private := unfold put_field; repeat (etransitivity; [|apply differ_insert; vm_compute; set_solver]).

Lemma data_done_private n r : differ private_regs r (data_done n r).
Proof.
  unfold data_done. cbv zeta. by destruct (d_inc _); private.
Qed.

Lemma data_done_error n r :
  field (data_done n r) NV_PFIFO_CACHE1_DMA_STATE_ERROR = field r NV_PFIFO_CACHE1_DMA_STATE_ERROR.
Proof.
  unfold data_done. cbv zeta. fields. by destruct (d_inc _); fields.
Qed.

Lemma data_done_decoder n r : 0 <= n <= d_count (decoder_of r) ->
  decoder_of (data_done n r) = advance n (decoder_of r).
Proof.
  intros Hn.
  pose proof (dma_field_range r NV_PFIFO_CACHE1_DMA_STATE_METHOD_COUNT 18 11) as Hc.
  assert (Hg : u32 (u32 (reg r NV_PFIFO_CACHE1_DMA_GET + 4) + (n - 1) * 4)
               = u32 (reg r NV_PFIFO_CACHE1_DMA_GET + 4 * n)).
  { unfold uwrap. rewrite Z.add_mod_idemp_l by lia. f_equal. lia. }
  assert (Hm : d_method (decoder_of r) = 4 * field r NV_PFIFO_CACHE1_DMA_STATE_METHOD) by done.
  change (d_count (decoder_of r)) with (field r NV_PFIFO_CACHE1_DMA_STATE_METHOD_COUNT) in Hn.
  unfold data_done, advance. cbv zeta. set (D := decoder_of r) in *. unfold decoder_of.
  change (d_count D) with (field r NV_PFIFO_CACHE1_DMA_STATE_METHOD_COUNT).
  change (d_get D) with (reg r NV_PFIFO_CACHE1_DMA_GET).
  fields. rewrite Hg.
  rewrite (field_put _ NV_PFIFO_CACHE1_DMA_STATE_METHOD_COUNT _ 18 11).
  rewrite Z.min_r, (Z.mod_small (_ - _)) by lia.
  destruct (d_inc D) eqn:Ei; [|reflexivity]. fields.
  rewrite (field_put _ NV_PFIFO_CACHE1_DMA_STATE_METHOD _ 2 11), Z.shiftr_div_pow2 by lia.
  replace (4 * ((d_method D + 4 * n) / 2 ^ 2 mod 2 ^ 11)) with ((d_method D + 4 * n) mod 0x2000)
    by (rewrite Hm; dlia).
  reflexivity.
Qed.

(** Decoders whose position and method are in range. *)
Definition in_range (D : Decoder) : Prop := 0 <= d_get D < 2 ^ 32 /\ 0 <= d_method D < 0x2000.

Lemma advance_range n D : in_range D -> in_range (advance n D).
Proof.
  intros [_ Hm]. split; cbn; [by apply uwrap_range|]. destruct (d_inc D); [|done].
  apply Z.mod_pos_bound. lia.
Qed.

Lemma advance_0 D : in_range D -> advance 0 D = D.
Proof.
  intros [Hg Hm]. unfold advance. rewrite !Z.mul_0_r, !Z.add_0_r, Z.sub_0_r.
  rewrite uwrap_id, Z.mod_small by done. by destruct D as [? [] ????].
Qed.

Lemma advance_add n n' D : advance n (advance n' D) = advance (n' + n) D.
Proof.
  assert (forall k x, k <> 0 -> ((x + 4 * n') mod k + 4 * n) mod k = (x + 4 * (n' + n)) mod k) as Hm.
  { intros k x Hk. rewrite Z.add_mod_idemp_l by done. f_equal. lia. }
  destruct D as [g inc s m c ret]. unfold advance, uwrap. cbn [d_get d_inc d_method d_count update].
  cbn -[Z.pow Z.modulo Z.mul Z.add]. rewrite Hm by done. rewrite <- Z.sub_add_distr.
  destruct inc; [by rewrite Hm|done].
Qed.

Lemma bytes_next put g : 4 <= u32 (put - g) -> u32 (put - u32 (g + 4)) = u32 (put - g) - 4.
Proof.
  unfold uwrap. rewrite Zminus_mod_idemp_r. replace (put - (g + 4)) with (put - g - 4) by lia.
  generalize (put - g). intros x. dlia.
Qed.

Section Simulation.
Context {X : Type} `{RendererLaws X} `{KelvinLaws X}.
Implicit Types d e : NV2AState X.

Abbreviation regs_of e := (pfifo_regs (pfifo e)).
Abbreviation agree := (differ private_regs).

(** Whether the buffer is drained is seen in two registers. *)
Lemma drained_differ l r r' : differ l r r' -> NV_PFIFO_CACHE1_DMA_GET ∉ l ->
  NV_PFIFO_CACHE1_DMA_PUT ∉ l -> drained r' = drained r.
Proof. intros Hd Hg Hp. unfold drained. by rewrite !(differ_reg _ _ _ _ Hd). Qed.

Lemma drained_puller r r' : differ puller_regs r r' -> drained r' = drained r.
Proof. intros Hd. by apply (drained_differ _ _ _ Hd); vm_compute; set_solver. Qed.

Lemma getr_with r e a : getr (with_regs r e) a = reg r a.
Proof. done. Qed.

Lemma setr_with r e a v : setr (with_regs r e) a v = with_regs (<[a := v]> r) e.
Proof. done. Qed.

Lemma ramht_lookup_agree r e h : agree (regs_of e) r ->
  ramht_lookup (with_regs r e) h = ramht_lookup e h.
Proof.
  intros Ha. unfold ramht_lookup, ramht_hash, ramht_size, getr.
  change (pfifo_regs (pfifo (with_regs r e))) with r.
  rewrite !(differ_reg _ _ _ NV_PFIFO_RAMHT Ha), (differ_reg _ _ _ NV_PFIFO_CACHE1_PUSH1 Ha)
    by (vm_compute; set_solver).
  done.
Qed.

Lemma should_stall_with r e : pfifo_puller_should_stall (with_regs r e)
  = let '(e', b) := pfifo_puller_should_stall e in (with_regs r e', b).
Proof.
  unfold pfifo_puller_should_stall, pfifo_stall_for_flip.
  change (pgraph (with_regs r e)) with (pgraph e).
  change (is_flip_stall_complete (with_regs r e)) with (is_flip_stall_complete e).
  destruct (waiting_for_flip (pgraph e)); [destruct (negb (is_flip_stall_complete e))|]; reflexivity.
Qed.

(** Nothing makes the FIFO wait. *)
Definition ready (pg : PGRAPHState) : Prop :=
  waiting_for_nop pg = false /\ waiting_for_flip pg = false
  /\ waiting_for_context_switch pg = false
  /\ tst (reg (regs_ pg) NV_PGRAPH_FIFO) NV_PGRAPH_FIFO_ACCESS = true.

Lemma ready_wait pg pg' : wait_view pg' = wait_view pg -> ready pg -> ready pg'.
Proof. unfold ready, wait_view. intros [= -> -> -> ->]. done. Qed.

Lemma ready_should_stall e : ready (pgraph e) -> pfifo_puller_should_stall e = (e, false).
Proof.
  intros (Hn & Hf & Hc & Ha). unfold pfifo_puller_should_stall, pfifo_stall_for_flip, can_fifo_access.
  by rewrite Hf, Hn, Hc, Ha.
Qed.

Lemma should_stall_regs e e' b : pfifo_puller_should_stall e = (e', b) -> regs_of e' = regs_of e.
Proof.
  unfold pfifo_puller_should_stall, pfifo_stall_for_flip.
  destruct (waiting_for_flip (pgraph e)); [destruct (negb (is_flip_stall_complete e))|];
    by intros [= <- _].
Qed.

Lemma should_stall_ready e e' : pfifo_puller_should_stall e = (e', false) ->
  ready (pgraph e') /\ regs_of e' = regs_of e /\ vram e' = vram e.
Proof.
  unfold pfifo_puller_should_stall, pfifo_stall_for_flip, can_fifo_access.
  destruct (waiting_for_flip (pgraph e)) eqn:Hf; [destruct (negb (is_flip_stall_complete e))|];
    cbn [orb]; intros [= <- Hs]; try done.
  - apply orb_false_iff in Hs as [[Hn Hc]%orb_false_iff Ha%negb_false_iff]. done.
  - apply orb_false_iff in Hs as [[Hn Hc]%orb_false_iff Ha%negb_false_iff]. done.
Qed.

(** ** The puller *)

Lemma context_switch_blind c : fifo_blind (fun e => pgraph_context_switch e c).
Proof.
  intros r e _. unfold pgraph_context_switch. change (pgraph (with_regs r e)) with (pgraph e).
  by repeat case_match.
Qed.

Lemma context_switch_regs e e' c : pgraph_context_switch e c = Ok e' ->
  regs_of e' = regs_of e.
Proof. unfold pgraph_context_switch. repeat case_match; intros [= <-]; done. Qed.

(** The state [e] seen with the registers [r'] of a step that took [n] words. *)
Definition pulled (r : regfile) e (n : Z) (x : NV2AState X * Z) : Prop :=
  exists r', x = (with_regs r' e, n) /\ agree (regs_of e) r' /\ differ puller_regs r r'.

Lemma puller_bind_sim r e s w a na ml inc e' b :
  agree (regs_of e) r -> alike r e -> can_fifo_access e = true -> bind_word e s w = Ok (e', b) ->
  exists x, puller_bind (with_regs r e) s w a na ml inc = Ok x
    /\ pulled r e' (if b then 1 else -1) x.
Proof.
  intros Ha Hk Hf Hb. unfold bind_word in Hb. unfold puller_bind.
  rewrite ramht_lookup_agree by done.
  destruct (ramht_lookup e w) as [entry|]; [|done]. cbn [mbind res_mbind res_bind] in *.
  destruct (negb (re_valid entry)); [done|]. destruct (negb (re_engine entry =? _)); [done|].
  destruct (negb (s <? 8)); [done|]. cbn [orb] in Hb. rewrite !setr_with, !getr_with.
  rewrite (differ_reg _ _ _ NV_PFIFO_CACHE1_ENGINE Ha) by (vm_compute; set_solver).
  change (getr e ?x) with (reg (regs_of e) x) in Hb.
  set (v := SET_MASK (reg (regs_of e) NV_PFIFO_CACHE1_ENGINE) _ _) in *.
  set (e1 := setr e NV_PFIFO_CACHE1_ENGINE v) in *.
  set (r1 := <[NV_PFIFO_CACHE1_PULL1 := _]> _).
  assert (agree (regs_of e1) r1) as Ha1.
  { etransitivity; [|apply differ_insert; vm_compute; set_solver]. by apply differ_insert2. }
  assert (differ puller_regs r r1) as Hr1.
  { etransitivity; apply differ_insert; vm_compute; set_solver. }
  assert (alike r1 e1) as Hk1.
  { unfold alike. rewrite (drained_puller _ _ Hr1), Hk. symmetry.
    apply drained_puller, differ_insert. vm_compute; set_solver. }
  change (with_regs r1 e) with (with_regs r1 e1). clearbody r1.
  change (can_fifo_access (with_regs r1 e1)) with (can_fifo_access e). rewrite Hf.
  rewrite (context_switch_blind (re_channel_id entry) r1 e1 Hk1).
  destruct (pgraph_context_switch e1 (re_channel_id entry)) as [e2|] eqn:E2; [|done].
  cbn [mbind res_mbind res_bind] in *. unfold alike in Hk1.
  rewrite <- (context_switch_regs _ _ _ E2) in Ha1, Hk1.
  change (pgraph (with_regs r1 e2)) with (pgraph e2).
  destruct (waiting_for_context_switch (pgraph e2)); cbn [negb].
  - injection Hb as <- <-. eexists. split; [done|]. by exists r1.
  - rewrite pgraph_method_object, (pgraph_word_blind s 0 (re_instance entry) r1 e2 Hk1).
    destruct (pgraph_word e2 s 0 (re_instance entry)) as [e3|] eqn:E3; [|done].
    injection Hb as <- <-. eexists. split; [done|]. exists r1.
    by rewrite (pgraph_word_regs _ _ _ _ _ E3).
Qed.

Lemma pgraph_stream_blind step n s m a : fifo_blind (fun e => pgraph_stream step n e s m a).
Proof.
  intros r. induction n as [|n IH] in m, a |- *; intros e Hk; [done|]. cbn [pgraph_stream].
  change (vram (with_regs r e)) with (vram e). destruct (ld_le (vram e) 4 a) as [w|]; [|done].
  cbn [mbind res_mbind res_bind]. rewrite (pgraph_word_blind s m w r e Hk).
  destruct (pgraph_word e s m w) as [e'|] eqn:E; [|done]. cbn [mbind res_mbind res_bind]. apply IH.
  unfold alike. by rewrite (pgraph_word_regs _ _ _ _ _ E).
Qed.

Lemma pgraph_stream_regs step n e e' s m a : pgraph_stream step n e s m a = Ok e' ->
  regs_of e' = regs_of e.
Proof.
  induction n as [|n IH] in e, m, a |- *; cbn [pgraph_stream]; [by intros [= <-]|].
  intros (w & _ & (e1 & E1 & E2)%res_bind_Ok)%res_bind_Ok.
  rewrite <- (pgraph_word_regs _ _ _ _ _ E1). by eapply IH.
Qed.

Lemma stays_with r step n e s m a : alike r e ->
  stays step n (with_regs r e) s m a -> stays step n e s m a.
Proof.
  induction n as [|n IH] in e, m, a |- *; [done|]. cbn [stays]. intros Hk Hs w e' Hw He.
  pose proof (pgraph_word_blind s m w r e Hk) as Hb. cbv beta in Hb. rewrite He in Hb.
  destruct (Hs w (with_regs r e') Hw Hb) as [Hv Hs']. split; [done|]. apply IH; [|done].
  unfold alike. by rewrite (pgraph_word_regs _ _ _ _ _ He).
Qed.

(** What a data word comes to in the puller: it alone, or a burst that starts with it. *)
Definition pulled_burst (r : regfile) e (s m a na : Z) (inc : bool)
    (x : res (NV2AState X * Z)) : Prop :=
  exists n r', let step := if inc then 4 else 0 in
    (0 < n)%nat /\ Z.of_nat n <= na
    /\ (forall i, (i < n)%nat -> m + step * Z.of_nat i < 0x2000
         /\ ~ single_method (m + step * Z.of_nat i))
    /\ stays step n e s m a
    /\ x = (e' ← pgraph_stream step n e s m a; Ok (with_regs r' e', Z.of_nat n))
    /\ agree (regs_of e) r' /\ differ puller_regs r r'.

Lemma puller_method_sim r e s m w a na ml inc e' b :
  agree (regs_of e) r -> alike r e -> can_fifo_access e = true ->
  0 <= s -> 0x100 <= m < 0x2000 -> m mod 4 = 0 -> m <> NV097_DRAW_ARRAYS \/ ml < 7 -> 1 <= na ->
  ld_le (vram e) 4 a = Ok w -> method_word e s m w = Ok (e', b) ->
  b = true /\
  let x := puller_method (with_regs r e) s m w a na ml inc in
  (exists y, x = Ok y /\ pulled r e' 1 y) \/ pulled_burst r e s m a na inc x.
Proof.
  intros Ha Hk Hf Hs Hm H4 Hd Hna Hw Hb. unfold method_word in Hb. unfold puller_method.
  rewrite ramht_lookup_agree by done. fold (resolve e m w).
  assert (Hp : forall p, resolve e m w = Ok p -> 0x180 <= m < 0x200 \/ ld_le (vram e) 4 a = Ok p).
  { unfold resolve. intros p. destruct (_ && _) eqn:Em; [|intros [= <-]; by right].
    apply andb_true_iff in Em as [Hlo%Z.leb_le Hhi%Z.ltb_lt]. by left. }
  destruct (resolve e m w) as [p|]; [|done]. cbn [mbind res_mbind res_bind] in *.
  specialize (Hp p eq_refl). unfold engine_of in Hb. rewrite !getr_with.
  rewrite (differ_reg _ _ _ NV_PFIFO_CACHE1_ENGINE Ha) by (vm_compute; set_solver).
  change (getr e ?x) with (reg (regs_of e) x) in Hb.
  destruct (negb (_ =? ENGINE_GRAPHICS)); [done|]. rewrite setr_with.
  set (r1 := <[NV_PFIFO_CACHE1_PULL1 := _]> _).
  assert (agree (regs_of e) r1) as Ha1.
  { etransitivity; [done|]. apply differ_insert; vm_compute; set_solver. }
  assert (differ puller_regs r r1) as Hr1 by (apply differ_insert; vm_compute; set_solver).
  assert (alike r1 e) as Hk1 by (unfold alike; by rewrite (drained_puller _ _ Hr1)).
  clearbody r1. change (can_fifo_access (with_regs r1 e)) with (can_fifo_access e). rewrite Hf.
  destruct (pgraph_word e s m p) as [e1|] eqn:E1; [|done]. injection Hb as <- <-. split; [done|].
  destruct (pgraph_method_burst (with_regs r1 e) s m p a na ml inc) as [->|(n & Hn & Hle & Hi & Hst & ->)];
    [done|lia|done..| |].
  - left. rewrite (pgraph_word_blind s m p r1 e Hk1), E1. eexists. split; [done|]. exists r1.
    by rewrite (pgraph_word_regs _ _ _ _ _ E1).
  - right. exists n, r1. cbv zeta. do 3 (split; [done|]). split; [by eapply stays_with|].
    split; [|done]. rewrite (pgraph_stream_blind _ n s m a r1 e Hk1). by destruct (pgraph_stream _ n e s m a).
Qed.

(** The puller marks the cache empty again when it took a word. *)
Definition mark_empty (x : NV2AState X * Z) : res (NV2AState X * Z) :=
  let '(d, n) := x in
  if 0 <? n then
    Ok (setr d NV_PFIFO_CACHE1_STATUS
          (Z.lor (getr d NV_PFIFO_CACHE1_STATUS) NV_PFIFO_CACHE1_STATUS_LOW_MARK), n)
  else Ok (d, n).

Lemma differ_status r r0 l v : NV_PFIFO_CACHE1_STATUS ∈ l -> differ l r0 r ->
  differ l r0 (<[NV_PFIFO_CACHE1_STATUS := v]> r).
Proof. intros Hl Hd. etransitivity; [done|]. by apply differ_insert. Qed.

Lemma pulled_mark r e n x : pulled r e n x -> exists y, mark_empty x = Ok y /\ pulled r e n y.
Proof.
  intros (r' & -> & Ha & Hd). unfold mark_empty. case_match; eexists; (split; [done|]); [|by exists r'].
  rewrite setr_with. eexists. split; [done|].
  split; apply differ_status; done || (vm_compute; set_solver).
Qed.

Lemma pulled_burst_mark r e s m a na inc x : pulled_burst r e s m a na inc x ->
  pulled_burst r e s m a na inc (y ← x; mark_empty y).
Proof.
  intros (n & r' & Hn & Hle & Hi & Hs & -> & Ha & Hd).
  exists n, (<[NV_PFIFO_CACHE1_STATUS := Z.lor (reg r' NV_PFIFO_CACHE1_STATUS)
               NV_PFIFO_CACHE1_STATUS_LOW_MARK]> r').
  cbv zeta. do 4 (split; [done|]). split; [|split; apply differ_status; done || (vm_compute; set_solver)].
  destruct (pgraph_stream _ n e s m a) as [e'|]; [|done]. cbn [mbind res_mbind res_bind].
  unfold mark_empty. by rewrite (proj2 (Z.ltb_lt 0 (Z.of_nat n))) by lia.
Qed.

Lemma run_puller_sim r e entry s m w a na ml e' b :
  let inc := GET_MASK entry NV_PFIFO_CACHE1_METHOD_TYPE =? 0 in
  let x := pfifo_run_puller (with_regs r e) entry w a na ml in
  agree (regs_of e) r -> alike r e ->
  tst (reg r NV_PFIFO_CACHE1_STATUS) NV_PFIFO_CACHE1_STATUS_LOW_MARK = false ->
  Z.land entry 0x1FFC = m -> GET_MASK entry NV_PFIFO_CACHE1_METHOD_SUBCHANNEL = s ->
  0 <= s -> 0 <= m < 0x2000 -> m mod 4 = 0 -> m <> NV097_DRAW_ARRAYS \/ ml < 7 -> 1 <= na ->
  ld_le (vram e) 4 a = Ok w -> fifo_word e s m w = Ok (e', b) ->
  (exists y, x = Ok y /\ pulled r e' (if b then 1 else -1) y)
  \/ b = true /\ exists e0, pfifo_puller_should_stall e = (e0, false)
       /\ pulled_burst r e0 s m a na inc x.
Proof.
  intros inc x Ha Hk Hl Em Es Hs Hm H4 Hd Hna Hw Hb. subst x. unfold pfifo_run_puller.
  rewrite should_stall_with, Em, Es. fold inc. unfold fifo_word in Hb.
  destruct (pfifo_puller_should_stall e) as [e0 stall] eqn:E0.
  assert (regs_of e0 = regs_of e /\ vram e0 = vram e) as [Er Ev].
  { revert E0. unfold pfifo_puller_should_stall, pfifo_stall_for_flip.
    destruct (waiting_for_flip (pgraph e)); [destruct (negb (is_flip_stall_complete e))|];
      by intros [= <- _]. }
  unfold alike in Hk. rewrite <- Er in Ha, Hk. rewrite <- Ev in Hw.
  destruct stall; [left; injection Hb as <- <-; eexists; split; [done|]; by exists r|].
  cbn [orb] in Hb. rewrite !getr_with, Hl, orb_false_r.
  rewrite (differ_reg _ _ _ NV_PFIFO_CACHE1_PULL0 Ha) by (vm_compute; set_solver).
  change (getr e0 ?y) with (reg (regs_of e0) y) in Hb.
  destruct (GET_MASK (reg (regs_of e0) NV_PFIFO_CACHE1_PULL0) _ =? 0); [left; injection Hb as <- <-; eexists; split; [done|]; by exists r|].
  destruct (should_stall_ready _ _ E0) as ((_ & _ & _ & Hf) & _ & _).
  destruct (m =? 0) eqn:Em0.
  - left. destruct (puller_bind_sim r e0 s w a na ml inc e' b) as (x & -> & Hx); [done..|].
    by apply pulled_mark.
  - destruct (Z.leb_spec 0x100 m); [|done].
    destruct (puller_method_sim r e0 s m w a na ml inc e' b) as (-> & [(y & -> & Hy)|Hy]);
      [done || lia..|left; by apply pulled_mark|].
    right. split; [done|]. exists e0. split; [done|]. by apply pulled_burst_mark.
Qed.

(** ** Bursts of the machine *)

(** The puller takes words, and the engine of the subchannel is PGRAPH. *)
Definition bound e (s : Z) : Prop :=
  GET_MASK (getr e NV_PFIFO_CACHE1_PULL0) NV_PFIFO_CACHE1_PULL0_ACCESS <> 0
  /\ engine_of e s = ENGINE_GRAPHICS.

Lemma fifo_word_bound e e0 s m w e' : pfifo_puller_should_stall e = (e0, false) ->
  fifo_word e s m w = Ok (e', true) -> m <> 0 -> bound e0 s /\ 0x100 <= m.
Proof.
  intros E0. unfold fifo_word. rewrite E0. cbn [orb].
  destruct (Z.eqb_spec (GET_MASK (getr e0 NV_PFIFO_CACHE1_PULL0) NV_PFIFO_CACHE1_PULL0_ACCESS) 0);
    [done|].
  intros Hw Hm. rewrite (proj2 (Z.eqb_neq m 0)) in Hw by done.
  destruct (Z.leb_spec 0x100 m); [|done]. unfold method_word in Hw.
  destruct (resolve e0 m w); [|done]. cbn [mbind res_mbind res_bind] in Hw.
  by destruct (Z.eqb_spec (engine_of e0 s) ENGINE_GRAPHICS).
Qed.

Lemma fifo_word_ready e s m w : ready (pgraph e) -> bound e s -> 0x100 <= m ->
  ~ single_method m -> fifo_word e s m w = (e' ← pgraph_word e s m w; Ok (e', true)).
Proof.
  intros Hr [Hp He] Hm Hs. unfold fifo_word, method_word, resolve, single_method in *.
  rewrite ready_should_stall by done. cbn [orb].
  rewrite (proj2 (Z.eqb_neq (GET_MASK _ _) 0)), (proj2 (Z.eqb_neq m 0)), (proj2 (Z.leb_le 0x100 m)) by lia.
  assert ((0x180 <=? m) && (m <? 0x200) = false) as ->.
  { apply andb_false_iff. destruct (Z.leb_spec 0x180 m), (Z.ltb_spec m 0x200); naive_solver lia. }
  cbn [mbind res_mbind res_bind]. by rewrite He.
Qed.

Lemma fifo_step_ready dma len D e : ready (pgraph e) ->
  let bytes := u32 (getr e NV_PFIFO_CACHE1_DMA_PUT - d_get D) in
  0 <= d_get D -> 0 < Z.min (d_count D) (bytes / 4) -> bytes mod 4 = 0 ->
  d_get D + 4 * Z.min (d_count D) (bytes / 4) <= len -> d_method D <> NV097_DRAW_ARRAYS ->
  fifo_step dma len D e
  = (w ← ld_le (vram e) 4 (dma + d_get D);
     '(e, b) ← fifo_word e (d_subchannel D) (d_method D) w;
     Ok (if (b : bool) then advance 1 D else D, e, b)).
Proof.
  intros (Hn & Hf & Hc & Ha) bytes Hg Hmin H4 Hlen Hd. unfold fifo_step. fold bytes.
  unfold pfifo_pusher_should_stall, can_fifo_access. rewrite Hn, Ha. cbn [negb orb].
  destruct (Z.eqb_spec (d_get D) (getr e NV_PFIFO_CACHE1_DMA_PUT)) as [E|_].
  { assert (bytes = 0) as Hb by (unfold bytes; by rewrite <- E, Z.sub_diag).
    rewrite Hb in Hmin. change (0 / 4) with 0 in Hmin. lia. }
  rewrite (proj2 (Z.leb_gt len (d_get D))), H4 by lia. cbn [Z.eqb negb orb].
  destruct (ld_le (vram e) 4 (dma + d_get D)) as [w|]; [|done]. cbn [mbind res_mbind res_bind].
  rewrite (proj2 (Z.eqb_neq (d_count D) 0)), (proj2 (Z.ltb_ge len _)) by lia.
  by rewrite (proj2 (Z.eqb_neq (d_method D) _)) by done.
Qed.

(** The machine takes the words of a burst one by one, and does not stop in between. *)
Lemma fifo_burst dma len n k e D R :
  let step := if d_inc D then 4 else 0 in
  let bytes := u32 (getr e NV_PFIFO_CACHE1_DMA_PUT - d_get D) in
  let s := d_subchannel D in
  ready (pgraph e) -> bound e s -> in_range D -> 0x100 <= d_method D -> len <= 2 ^ 32 ->
  (forall i, (i < n)%nat -> d_method D + step * Z.of_nat i < 0x2000
     /\ ~ single_method (d_method D + step * Z.of_nat i)) ->
  stays step n e s (d_method D) (dma + d_get D) ->
  Z.of_nat n <= Z.min (d_count D) (bytes / 4) -> bytes mod 4 = 0 ->
  d_get D + 4 * Z.min (d_count D) (bytes / 4) <= len ->
  fifo_run k dma len D e = Ok R ->
  exists e', pgraph_stream step n e s (d_method D) (dma + d_get D) = Ok e'
    /\ (n <= k)%nat /\ fifo_run (k - n) dma len (advance (Z.of_nat n) D) e' = Ok R.
Proof.
  cbv zeta. induction n as [|n IH] in k, e, D |- *; intros Hr Hb HD Hm Hl Hi Hst Hn H4 Hlen Hrun.
  { exists e. rewrite advance_0, Nat.sub_0_r by done. split; [done|]. split; [lia|done]. }
  destruct k as [|k]; [done|]. cbn [fifo_run pgraph_stream stays] in *.
  destruct (Hi 0%nat ltac:(lia)) as [_ Hs0]. rewrite Z.mul_0_r, Z.add_0_r in Hs0.
  assert (d_method D <> NV097_DRAW_ARRAYS) by (intros E; apply Hs0; by do 2 right).
  destruct HD as [Hg HmD]. rewrite fifo_step_ready in Hrun by (done || lia).
  destruct (ld_le (vram e) 4 (dma + d_get D)) as [w|] eqn:Ew; [|done].
  cbn [mbind res_mbind res_bind] in *. rewrite fifo_word_ready in Hrun by done.
  destruct (pgraph_word e (d_subchannel D) (d_method D) w) as [e1|] eqn:E1; [|done].
  cbn [mbind res_mbind res_bind] in *.
  destruct (Hst w e1 eq_refl E1) as [Hv Hst1].
  pose proof (pgraph_word_regs _ _ _ _ _ E1) as Er.
  assert (getr e1 NV_PFIFO_CACHE1_DMA_PUT = getr e NV_PFIFO_CACHE1_DMA_PUT) as Ep
    by (unfold getr; by rewrite Er).
  set (put := getr e NV_PFIFO_CACHE1_DMA_PUT) in *.
  destruct n as [|n].
  { exists e1. replace (S k - 1)%nat with k by lia. split; [done|]. split; [lia|done]. }
  assert (4 <= u32 (put - d_get D)) as Hb4 by dlia.
  pose proof (bytes_next put (d_get D) Hb4) as Eb.
  set (bytes := u32 (put - d_get D)) in *.
  assert (Eg : u32 (d_get D + 4) = d_get D + 4) by (apply uwrap_id; lia).
  destruct (Hi 1%nat ltac:(lia)) as [Hi1 _].
  assert (Em : d_method (advance 1 D) = d_method D + (if d_inc D then 4 else 0)).
  { cbn. destruct (d_inc D); [|lia]. rewrite Z.mod_small by lia. lia. }
  assert (Ea : d_get (advance 1 D) = d_get D + 4) by exact Eg.
  rewrite Eg in Eb. specialize (IH k e1 (advance 1 D)). rewrite Em, Ea, Ep in IH.
  change (d_inc (advance 1 D)) with (d_inc D) in IH.
  change (d_subchannel (advance 1 D)) with (d_subchannel D) in IH.
  change (d_count (advance 1 D)) with (d_count D - 1) in IH. rewrite Eb in IH.
  replace (dma + (d_get D + 4)) with (dma + d_get D + 4) in IH by lia.
  destruct IH as (e' & Es & Hk & Hrun').
  - by apply (ready_wait (pgraph e)).
  - unfold bound, engine_of, getr in *. by rewrite Er.
  - by apply advance_range.
  - destruct (d_inc D); lia.
  - done.
  - intros i Hin. destruct (Hi (S i) ltac:(lia)) as [HiS HsS].
    by replace (d_method D + (if d_inc D then 4 else 0) + (if d_inc D then 4 else 0) * Z.of_nat i)
      with (d_method D + (if d_inc D then 4 else 0) * Z.of_nat (S i)) by lia.
  - done.
  - dlia.
  - dlia.
  - dlia.
  - done.
  - exists e'. split; [done|]. split; [lia|].
    rewrite advance_add in Hrun'. by replace (Z.of_nat (S (S n))) with (1 + Z.of_nat (S n)) by lia.
Qed.


(** ** The pusher *)

(** The result of a step of the pusher that took [n] words and left the state [e]. *)
Definition pushed (r : regfile) e (n : Z) (x : NV2AState X * option Z) : Prop :=
  exists r' v, x = (with_regs r' e, Some v)
    /\ let r'' := <[NV_PFIFO_CACHE1_DMA_GET := v]> r' in
       agree (regs_of e) r'' /\ decoder_of r'' = advance n (decoder_of r)
       /\ field r'' NV_PFIFO_CACHE1_DMA_STATE_ERROR = field r NV_PFIFO_CACHE1_DMA_STATE_ERROR.

(** The registers before the puller runs. *)
Definition data_regs (w : Z) (r : regfile) : regfile :=
  let r := <[NV_PFIFO_CACHE1_DMA_DATA_SHADOW := w]> r in
  <[NV_PFIFO_CACHE1_STATUS := Z.land (reg r NV_PFIFO_CACHE1_STATUS)
                                (Z.lnot NV_PFIFO_CACHE1_STATUS_LOW_MARK)]> r.

Lemma data_regs_private w r : agree r (data_regs w r).
Proof. unfold data_regs. etransitivity; apply differ_insert; vm_compute; set_solver. Qed.

Lemma data_regs_drained w r : drained (data_regs w r) = drained r.
Proof.
  apply (drained_differ [NV_PFIFO_CACHE1_DMA_DATA_SHADOW; NV_PFIFO_CACHE1_STATUS]); [|set_solver..].
  unfold data_regs. etransitivity; apply differ_insert; set_solver.
Qed.

Lemma data_regs_decoder w r r' : differ puller_regs (data_regs w r) r' ->
  decoder_of r' = decoder_of r
  /\ field r' NV_PFIFO_CACHE1_DMA_STATE_ERROR = field r NV_PFIFO_CACHE1_DMA_STATE_ERROR.
Proof.
  intros Hd. split.
  - rewrite (decoder_puller _ _ Hd). unfold decoder_of, data_regs. cbv zeta. by fields.
  - unfold field. rewrite (differ_reg _ _ _ NV_PFIFO_CACHE1_DMA_STATE Hd) by (vm_compute; set_solver).
    unfold data_regs. cbv zeta. by fields.
Qed.

Lemma data_regs_mark w r :
  tst (reg (data_regs w r) NV_PFIFO_CACHE1_STATUS) NV_PFIFO_CACHE1_STATUS_LOW_MARK = false.
Proof.
  unfold data_regs, tst. cbv zeta. rewrite reg_insert. rewrite <- Z.land_assoc.
  change (Z.land (Z.lnot _) _) with 0. by rewrite Z.land_0_r.
Qed.

(** What follows the puller in [pusher_data]. *)
Definition data_tail (D : Decoder) (x : NV2AState X * Z) : res (NV2AState X * option Z) :=
  let '(d, n) := x in
  if n <? 0 then Ok (d, None)
  else
    let d := if d_inc D
             then dma_state_set d NV_PFIFO_CACHE1_DMA_STATE_METHOD (Z.shiftr (d_method D + 4 * n) 2)
             else d in
    let d := dma_state_set d NV_PFIFO_CACHE1_DMA_STATE_METHOD_COUNT
               (d_count D - Z.min (d_count D) n) in
    let d := setr d NV_PFIFO_CACHE1_DMA_DCOUNT (u32 (getr d NV_PFIFO_CACHE1_DMA_DCOUNT + n)) in
    Ok (d, Some (u32 (u32 (d_get D + 4) + (n - 1) * 4))).

Lemma pusher_data_eq r e dma w na :
  let D := decoder_of r in
  let entry := SET_MASK (SET_MASK (SET_MASK 0 NV_PFIFO_CACHE1_METHOD_ADDRESS
                   (field r NV_PFIFO_CACHE1_DMA_STATE_METHOD))
                   NV_PFIFO_CACHE1_METHOD_TYPE (field r NV_PFIFO_CACHE1_DMA_STATE_METHOD_TYPE))
                 NV_PFIFO_CACHE1_METHOD_SUBCHANNEL (d_subchannel D) in
  pusher_data (with_regs r e) dma (d_get D) w na
  = (x ← pfifo_run_puller (with_regs (data_regs w r) e) entry w (dma + d_get D)
           (Z.min (d_count D) na) na;
     data_tail D x).
Proof.
  cbv zeta. unfold pusher_data, data_tail. cbv zeta.
  rewrite !setr_with, !getr_with. fold (data_regs w r).
  change (dma_state_get (with_regs r e) ?f) with (field r f).
  assert (Z.shiftl (field r NV_PFIFO_CACHE1_DMA_STATE_METHOD) 2 = d_method (decoder_of r)) as Em.
  { rewrite Z.shiftl_mul_pow2 by lia. cbn [d_method decoder_of]. lia. }
  rewrite Em.
  replace (Z.shiftr (d_method (decoder_of r)) 2) with (field r NV_PFIFO_CACHE1_DMA_STATE_METHOD)
    by (rewrite <- Em, Z.shiftr_shiftl_l by lia; by rewrite Z.shiftl_0_r).
  reflexivity.
Qed.

Lemma data_tail_pushed r w r1 e n : agree (regs_of e) r1 -> differ puller_regs (data_regs w r) r1 ->
  0 < n <= d_count (decoder_of r) ->
  exists y, data_tail (decoder_of r) (with_regs r1 e, n) = Ok y /\ pushed r e n y.
Proof.
  intros Ha Hd Hn. destruct (data_regs_decoder w r r1 Hd) as [ED EE].
  unfold data_tail. rewrite (proj2 (Z.ltb_ge n 0)) by lia. eexists. split; [done|].
  assert (Hdone : agree (regs_of e) (data_done n r1) /\ decoder_of (data_done n r1) = advance n (decoder_of r)
    /\ field (data_done n r1) NV_PFIFO_CACHE1_DMA_STATE_ERROR = field r NV_PFIFO_CACHE1_DMA_STATE_ERROR).
  { split; [etransitivity; [done|apply data_done_private]|].
    split; [rewrite data_done_decoder, ED; [done|rewrite ED; lia]|by rewrite data_done_error]. }
  unfold data_done in Hdone. rewrite ED in Hdone. cbv zeta in Hdone.
  destruct (d_inc (decoder_of r)); do 2 eexists; (split; [reflexivity|exact Hdone]).
Qed.

Lemma pusher_data_sim r e dma w na e' b :
  let D := decoder_of r in
  let step := if d_inc D then 4 else 0 in
  let x := pusher_data (with_regs r e) dma (d_get D) w na in
  agree (regs_of e) r -> alike r e -> d_count D <> 0 -> 1 <= na ->
  d_method D <> NV097_DRAW_ARRAYS \/ na < 7 -> ld_le (vram e) 4 (dma + d_get D) = Ok w ->
  fifo_word e (d_subchannel D) (d_method D) w = Ok (e', b) ->
  (b = false /\ exists r', x = Ok (with_regs r' e', None) /\ agree (regs_of e') r'
     /\ decoder_of r' = D
     /\ field r' NV_PFIFO_CACHE1_DMA_STATE_ERROR = field r NV_PFIFO_CACHE1_DMA_STATE_ERROR)
  \/ (b = true /\ exists y, x = Ok y /\ pushed r e' 1 y)
  \/ (b = true /\ exists e0 n, pfifo_puller_should_stall e = (e0, false) /\ (0 < n)%nat
      /\ Z.of_nat n <= Z.min (d_count D) na
      /\ (forall i, (i < n)%nat -> d_method D + step * Z.of_nat i < 0x2000
           /\ ~ single_method (d_method D + step * Z.of_nat i))
      /\ stays step n e0 (d_subchannel D) (d_method D) (dma + d_get D)
      /\ forall e1, pgraph_stream step n e0 (d_subchannel D) (d_method D) (dma + d_get D) = Ok e1 ->
         exists y, x = Ok y /\ pushed r e1 (Z.of_nat n) y).
Proof.
  intros D step x Ha Hk Hc Hna Hd Hw Hb. subst x. unfold D. rewrite pusher_data_eq. fold D.
  pose proof (dma_field_range r NV_PFIFO_CACHE1_DMA_STATE_METHOD 2 11) as Hm.
  pose proof (dma_field_range r NV_PFIFO_CACHE1_DMA_STATE_METHOD_COUNT 18 11) as Hcr.
  pose proof (dma_field_range r NV_PFIFO_CACHE1_DMA_STATE_METHOD_TYPE 0 1) as Ht.
  pose proof (dma_field_range r NV_PFIFO_CACHE1_DMA_STATE_SUBCHANNEL 13 3) as Hs.
  change (field r NV_PFIFO_CACHE1_DMA_STATE_METHOD_COUNT) with (d_count D) in Hcr.
  destruct (method_entry_fields _ _ _ Hm Ht Hs) as (E1 & E2 & E3).
  change (field r NV_PFIFO_CACHE1_DMA_STATE_SUBCHANNEL) with (d_subchannel D) in *.
  set (entry := SET_MASK _ _ (d_subchannel D)) in *.
  assert (GET_MASK entry NV_PFIFO_CACHE1_METHOD_TYPE =? 0 = d_inc D) as Ei by (by rewrite E3).
  destruct (run_puller_sim (data_regs w r) e entry (d_subchannel D) (d_method D) w (dma + d_get D)
              (Z.min (d_count D) na) na e' b) as [(y & -> & r1 & -> & Ha1 & Hd1)|(-> & e0 & E0 & Hbu)].
  all: try (done || lia || apply data_regs_mark).
  { etransitivity; [done|apply data_regs_private]. }
  { unfold alike. by rewrite data_regs_drained. }
  { cbn [d_method D decoder_of]. lia. }
  { cbn [d_method D decoder_of]. dlia. }
  - destruct b; [right; left|left]; (split; [done|]).
    + apply (data_tail_pushed r w); [done..|]. fold D. lia.
    + exists r1. split; [done|]. split; [done|]. by apply (data_regs_decoder w).
  - right. right. split; [done|]. rewrite Ei in Hbu. fold step in Hbu.
    destruct Hbu as (n & r1 & Hn & Hle & Hi & Hst & -> & Ha1 & Hd1).
    exists e0, n. do 5 (split; [done|]). intros e1 Hs1. fold step. rewrite Hs1.
    cbn [mbind res_mbind res_bind]. apply (data_tail_pushed r w); [|done|fold D; lia].
    assert (regs_of e1 = regs_of e0) as ->; [|done]. by eapply pgraph_stream_regs.
Qed.

(** A command leaves the state of the device alone. *)
Definition commanded (r : regfile) e (D : Decoder) (x : res (NV2AState X * option Z)) : Prop :=
  exists r' v, x = Ok (with_regs r' e, Some v)
    /\ let r'' := <[NV_PFIFO_CACHE1_DMA_GET := v]> r' in
       agree r r'' /\ decoder_of r'' = D
       /\ field r'' NV_PFIFO_CACHE1_DMA_STATE_ERROR = field r NV_PFIFO_CACHE1_DMA_STATE_ERROR.

Lemma header_fields w :
  Z.shiftr (Z.land w 0x1fff) 2 mod 2 ^ 11 = w / 4 mod 2 ^ 11
  /\ Z.land (Z.shiftr w 13) 7 mod 2 ^ 3 = w / 2 ^ 13 mod 2 ^ 3
  /\ Z.land (Z.shiftr w 18) 0x7ff mod 2 ^ 11 = w / 2 ^ 18 mod 2 ^ 11.
Proof.
  change 0x1fff with (Z.ones 13). change 7 with (Z.ones 3). change 0x7ff with (Z.ones 11).
  rewrite !Z.land_ones, !Z.shiftr_div_pow2 by lia.
  rewrite !Z.mod_mod by lia. split; [|done]. dlia.
Qed.

Lemma pusher_header_sim r e w t :
  let r0 := <[NV_PFIFO_CACHE1_DMA_RSVD_SHADOW := w]> r in
  let D := decoder_of r in 0 <= t < 2 ->
  commanded r e
    {| d_get := u32 (d_get D + 4); d_inc := t =? 0; d_subchannel := w / 2 ^ 13 mod 2 ^ 3;
       d_method := 4 * (w / 4 mod 2 ^ 11); d_count := w / 2 ^ 18 mod 2 ^ 11;
       d_return := d_return D |}
    (Ok (pusher_header (with_regs r0 e) w t, Some (u32 (d_get D + 4)))).
Proof.
  intros r0 D Ht. destruct (header_fields w) as (Em & Es & Ec).
  set (r1 := put_field (put_field (put_field (put_field r0
         NV_PFIFO_CACHE1_DMA_STATE_METHOD (Z.shiftr (Z.land w 0x1fff) 2))
         NV_PFIFO_CACHE1_DMA_STATE_SUBCHANNEL (Z.land (Z.shiftr w 13) 7))
         NV_PFIFO_CACHE1_DMA_STATE_METHOD_COUNT (Z.land (Z.shiftr w 18) 0x7ff))
         NV_PFIFO_CACHE1_DMA_STATE_METHOD_TYPE t).
  exists (<[NV_PFIFO_CACHE1_DMA_DCOUNT := 0]> r1), (u32 (d_get D + 4)).
  split; [reflexivity|]. cbv zeta. split; [unfold r1, r0; by private|].
  unfold decoder_of. fields. unfold r1.
  rewrite (field_put _ NV_PFIFO_CACHE1_DMA_STATE_METHOD_TYPE t 0 1), (Z.mod_small t) by done.
  fields. rewrite (field_put _ NV_PFIFO_CACHE1_DMA_STATE_METHOD_COUNT _ 18 11), Ec.
  rewrite (field_put _ NV_PFIFO_CACHE1_DMA_STATE_SUBCHANNEL _ 13 3), Es.
  rewrite (field_put _ NV_PFIFO_CACHE1_DMA_STATE_METHOD _ 2 11), Em.
  unfold r0. by fields.
Qed.

Lemma return_address v : Z.land (SET_MASK v NV_PFIFO_CACHE1_DMA_SUBROUTINE_STATE 1) 0xfffffffc
  = Z.land v 0xfffffffc.
Proof.
  unfold SET_MASK. change (Z.land (u32 _) _) with 1. rewrite Z.land_lor_distr_l, <- Z.land_assoc.
  change (Z.land 1 0xfffffffc) with 0. by rewrite Z.lor_0_r.
Qed.

Lemma pusher_command_sim r e w c D' :
  let D := decoder_of r in
  decode w = Some c -> fifo_command D c = Ok D' ->
  commanded r e D' (pusher_command (with_regs r e) (u32 (d_get D + 4)) w).
Proof.
  intros D Ew HD. unfold decode in Ew. unfold pusher_command. rewrite !setr_with, !getr_with.
  set (r0 := <[NV_PFIFO_CACHE1_DMA_RSVD_SHADOW := w]> r). set (next := u32 (d_get D + 4)) in *.
  unfold commanded. cbv zeta.
  destruct (Z.land w 0xe0000003 =? 0x20000000); [|destruct (Z.land w 3 =? 1)].
  1,2: injection Ew as <-; injection HD as <-; do 2 eexists; (split; [reflexivity|]);
    (split; [unfold r0; by private|]); unfold decoder_of, r0; by fields.
  destruct (Z.land w 3 =? 2); [|destruct (w =? 0x00020000)].
  - injection Ew as <-. cbn [fifo_command] in HD. change (d_return D) with
      (if GET_MASK (reg r NV_PFIFO_CACHE1_DMA_SUBROUTINE) NV_PFIFO_CACHE1_DMA_SUBROUTINE_STATE =? 0
       then None else Some (Z.land (reg r NV_PFIFO_CACHE1_DMA_SUBROUTINE) 0xfffffffc)) in HD.
    destruct (GET_MASK _ _ =? 0); [|done]. injection HD as <-.
    do 2 eexists. split; [reflexivity|]. split; [unfold r0; by private|].
    unfold decoder_of. fields. rewrite (GET_SET_MASK _ NV_PFIFO_CACHE1_DMA_SUBROUTINE_STATE 0 1 1).
    rewrite return_address. unfold r0. by fields.
  - injection Ew as <-. cbn [fifo_command] in HD. change (d_return D) with
      (if GET_MASK (reg r NV_PFIFO_CACHE1_DMA_SUBROUTINE) NV_PFIFO_CACHE1_DMA_SUBROUTINE_STATE =? 0
       then None else Some (Z.land (reg r NV_PFIFO_CACHE1_DMA_SUBROUTINE) 0xfffffffc)) in HD.
    destruct (GET_MASK _ _ =? 0); [done|]. injection HD as <-.
    do 2 eexists. split; [reflexivity|]. split; [unfold r0; by private|].
    unfold decoder_of. fields. rewrite (GET_SET_MASK _ NV_PFIFO_CACHE1_DMA_SUBROUTINE_STATE 0 1 0).
    unfold r0. by fields.
  - destruct (Z.land w 0xe0030003 =? 0); [|destruct (Z.land w 0xe0030003 =? 0x40000000); [|done]].
    + injection Ew as <-. injection HD as <-.
      exact (pusher_header_sim r e w NV_PFIFO_CACHE1_DMA_STATE_METHOD_TYPE_INC ltac:(done)).
    + injection Ew as <-. injection HD as <-.
      exact (pusher_header_sim r e w NV_PFIFO_CACHE1_DMA_STATE_METHOD_TYPE_NON_INC ltac:(done)).
Qed.

(** ** The simulation *)

(** The registers [r] encode the decoder [D], and [e] has the other registers.  The machine keeps
    the position in [D]; to PGRAPH its registers look like those of a buffer that is not drained. *)
Record linked (r : regfile) e (D : Decoder) : Prop := {
  l_agree : agree (regs_of e) r;
  l_decoder : decoder_of r = D;
  l_error : field r NV_PFIFO_CACHE1_DMA_STATE_ERROR = 0;
  l_get : 0 <= d_get D;
  l_put : is_u32 (getr e NV_PFIFO_CACHE1_DMA_PUT);
  l_live : drained (regs_of e) = false
}.

(** Data words change no register of the FIFO that others look at, but the engine of a
    subchannel. *)
Lemma fifo_word_regs e s m w e' b : fifo_word e s m w = Ok (e', b) ->
  differ [NV_PFIFO_CACHE1_ENGINE] (regs_of e) (regs_of e').
Proof.
  unfold fifo_word. destruct (pfifo_puller_should_stall e) as [e0 stall] eqn:E0.
  rewrite <- (should_stall_regs _ _ _ E0). destruct (stall || _); [by intros [= <- _]|].
  destruct (m =? 0); [|destruct (0x100 <=? m); [|done]].
  - unfold bind_word. intros (entry & _ & Hb)%res_bind_Ok. case_match; [done|]. cbv zeta in Hb.
    apply res_bind_Ok in Hb as (e1 & E1 & Hb). apply context_switch_regs in E1.
    assert (differ [NV_PFIFO_CACHE1_ENGINE] (regs_of e0) (regs_of e1)) as H01.
    { rewrite E1. apply differ_insert. set_solver. }
    case_match; [by injection Hb as <- _|]. apply res_bind_Ok in Hb as (e2 & E2 & Hb).
    injection Hb as <- _. by rewrite (pgraph_word_regs _ _ _ _ _ E2).
  - unfold method_word. intros (p & _ & Hb)%res_bind_Ok. case_match; [done|].
    apply res_bind_Ok in Hb as (e2 & E2 & Hb). injection Hb as <- _.
    by rewrite (pgraph_word_regs _ _ _ _ _ E2).
Qed.

Lemma linked_range r e D : linked r e D -> d_get D < 2 ^ 32 -> in_range D.
Proof.
  intros [_ <- _ Hg _ _] Hl. split; [done|].
  pose proof (dma_field_range r NV_PFIFO_CACHE1_DMA_STATE_METHOD 2 11) as Hm. cbn [d_method decoder_of]. lia.
Qed.

Lemma fifo_command_get r w c D' : decode w = Some c -> fifo_command (decoder_of r) c = Ok D' ->
  0 <= d_get D'.
Proof.
  intros Ew. assert (forall a b, 0 <= b -> 0 <= Z.land a b) as Hland by (intros; apply Z.land_nonneg; lia).
  assert (forall a, 0 <= u32 a) as Hu by (intros a; apply (uwrap_range 32 a); lia).
  destruct c as [a|a| |inc s m n]; cbn [fifo_command].
  - intros [= <-]. cbn. revert Ew. unfold decode. repeat case_match; intros [= <-]; by apply Hland.
  - destruct (d_return _); [done|]. intros [= <-]. cbn. revert Ew. unfold decode.
    repeat case_match; intros [= <-]; by apply Hland.
  - unfold decoder_of. cbn [d_return]. destruct (GET_MASK _ _ =? 0); [done|]. intros [= <-]. by apply Hland.
  - intros [= <-]. apply Hu.
Qed.

(** The pusher's way into the data or command branch is the machine's. *)
Lemma pusher_step_eq dma len r e D : linked r e D ->
  let put := getr e NV_PFIFO_CACHE1_DMA_PUT in
  let bytes := u32 (put - d_get D) in
  pusher_step (with_regs r e) dma len
  = if pfifo_pusher_should_stall e || (d_get D =? put) then Ok (with_regs r e, false)
    else if (len <=? d_get D) || negb (bytes mod 4 =? 0) then Fault AssertFail
    else
      w ← ld_le (vram e) 4 (dma + d_get D);
      '(d, next) ← (if negb (d_count D =? 0)
                    then pusher_data (with_regs r e) dma (d_get D) w (bytes / 4)
                    else pusher_command (with_regs r e) (u32 (d_get D + 4)) w);
      match next with
      | None => Ok (d, false)
      | Some v => let d := setr d NV_PFIFO_CACHE1_DMA_GET v in
                  Ok (d, dma_state_get d NV_PFIFO_CACHE1_DMA_STATE_ERROR =? 0)
      end.
Proof.
  intros [Ha <- _ _ _ _]. cbv zeta. unfold pusher_step. rewrite !getr_with.
  rewrite (differ_reg _ _ _ NV_PFIFO_CACHE1_DMA_PUT Ha) by (vm_compute; set_solver).
  change (pfifo_pusher_should_stall (with_regs r e)) with (pfifo_pusher_should_stall e).
  change (reg r NV_PFIFO_CACHE1_DMA_GET) with (d_get (decoder_of r)).
  change (reg (regs_of e) NV_PFIFO_CACHE1_DMA_PUT) with (getr e NV_PFIFO_CACHE1_DMA_PUT).
  destruct (pfifo_pusher_should_stall e); [done|]. cbn [orb].
  destruct (d_get (decoder_of r) =? _); [done|].
  destruct (len <=? d_get (decoder_of r)); [done|]. cbn [orb].
  destruct (negb (_ mod 4 =? 0)); reflexivity.
Qed.

(** What happens after the word is read. *)
Definition step_tail (x : NV2AState X * option Z) : res (NV2AState X * bool) :=
  let '(d, next) := x in
  match next with
  | None => Ok (d, false)
  | Some v => let d := setr d NV_PFIFO_CACHE1_DMA_GET v in
              Ok (d, dma_state_get d NV_PFIFO_CACHE1_DMA_STATE_ERROR =? 0)
  end.

(** The pusher stops where the machine does, or goes on for some of its steps. *)
Definition simulates dma len k (x : res (NV2AState X * bool)) (R : Decoder * NV2AState X) : Prop :=
  (exists r1, x = Ok (with_regs r1 R.2, false) /\ linked r1 R.2 R.1)
  \/ exists r1 e1 D1 n, (0 < n <= k)%nat /\ x = Ok (with_regs r1 e1, true) /\ linked r1 e1 D1
     /\ fifo_run (k - n) dma len D1 e1 = Ok R.

Lemma pushed_linked r e e1 n D y : linked r e D -> is_u32 (getr e1 NV_PFIFO_CACHE1_DMA_PUT) ->
  drained (regs_of e1) = false -> pushed r e1 n y ->
  exists r1, step_tail y = Ok (with_regs r1 e1, true) /\ linked r1 e1 (advance n D).
Proof.
  intros [_ <- HE _ _ _] Hp Hv (r1 & v & -> & Ha1 & ED1 & EE1). unfold step_tail.
  exists (<[NV_PFIFO_CACHE1_DMA_GET := v]> r1). cbv zeta. rewrite setr_with.
  change (dma_state_get (with_regs ?r e1) ?f) with (field r f). rewrite EE1, HE. split; [done|].
  constructor; [done|done|by rewrite EE1| |done|done]. apply (uwrap_range 32). lia.
Qed.

Lemma command_step_sim k dma len r e D R w c D1 : linked r e D -> decode w = Some c ->
  fifo_command D c = Ok D1 -> fifo_run k dma len D1 e = Ok R ->
  simulates dma len (S k) (x ← pusher_command (with_regs r e) (u32 (d_get D + 4)) w; step_tail x) R.
Proof.
  intros [Ha <- HE Hg Hp Hv] Edec ED1 Hrun. right.
  destruct (pusher_command_sim r e w c D1 Edec ED1) as (r1 & v & -> & Ha1 & HD1 & HE1).
  exists (<[NV_PFIFO_CACHE1_DMA_GET := v]> r1), e, D1, 1%nat.
  split; [lia|]. cbn [mbind res_mbind res_bind step_tail]. rewrite setr_with.
  change (dma_state_get (with_regs ?r e) ?f) with (field r f). rewrite HE1, HE. split; [done|].
  replace (S k - 1)%nat with k by lia. split; [|done].
  constructor; [by etransitivity|done|by rewrite HE1|by eapply fifo_command_get|done|done].
Qed.

(** A flip that is over does not change what the machine does. *)
Lemma fifo_run_flip k dma len D e e0 : pfifo_puller_should_stall e = (e0, false) ->
  pfifo_pusher_should_stall e || (d_get D =? getr e NV_PFIFO_CACHE1_DMA_PUT) = false ->
  d_count D <> 0 -> fifo_run k dma len D e = fifo_run k dma len D e0.
Proof.
  intros E0 Hs Hc. destruct k as [|k]; [done|]. cbn [fifo_run]. f_equal. unfold fifo_step.
  destruct (should_stall_ready _ _ E0) as (Hr & Er & Ev).
  assert (pfifo_pusher_should_stall e0 = false) as Hp0.
  { destruct Hr as (Hn & _ & _ & Hf). unfold pfifo_pusher_should_stall, can_fifo_access. by rewrite Hn, Hf. }
  assert (getr e0 NV_PFIFO_CACHE1_DMA_PUT = getr e NV_PFIFO_CACHE1_DMA_PUT) as Ep by (unfold getr; by rewrite Er).
  rewrite Ep, Ev, Hs, Hp0. apply orb_false_iff in Hs as [_ ->]. cbn [orb].
  rewrite (proj2 (Z.eqb_neq (d_count D) 0)) by done.
  assert (forall s m w, fifo_word e s m w = fifo_word e0 s m w) as Ew.
  { intros s m w. unfold fifo_word. by rewrite E0, (ready_should_stall e0). }
  case_match; [done|]. destruct (ld_le _ _ _) as [w|]; [|done]. cbn [mbind res_mbind res_bind].
  by rewrite Ew.
Qed.

Lemma data_step_sim k dma len r e D R w e' b : linked r e D -> len <= 2 ^ 32 ->
  let bytes := u32 (getr e NV_PFIFO_CACHE1_DMA_PUT - d_get D) in
  pfifo_pusher_should_stall e || (d_get D =? getr e NV_PFIFO_CACHE1_DMA_PUT) = false ->
  d_get D < len -> bytes mod 4 = 0 -> ld_le (vram e) 4 (dma + d_get D) = Ok w ->
  d_count D <> 0 -> d_get D + 4 * Z.min (d_count D) (bytes / 4) <= len ->
  d_method D <> NV097_DRAW_ARRAYS \/ bytes / 4 < 7 ->
  fifo_word e (d_subchannel D) (d_method D) w = Ok (e', b) ->
  fifo_run (S k) dma len D e = Ok R ->
  (if b then fifo_run k dma len (advance 1 D) e' else Ok (D, e')) = Ok R ->
  simulates dma len (S k)
    (x ← pusher_data (with_regs r e) dma (d_get D) w (bytes / 4); step_tail x) R.
Proof.
  intros HL Hlen bytes Hs Hgl H4 Hw Hc Hwin Hd Hfw Hrun Hb.
  assert (HD : in_range D) by (eapply linked_range; [done|lia]).
  pose proof HL as [Ha ED HE Hg Hp Hv]. subst D.
  assert (Hk : alike r e).
  { unfold alike. rewrite Hv. apply orb_false_iff in Hs as [_ Hne]. unfold drained, getr in *.
    by rewrite (differ_reg _ _ _ NV_PFIFO_CACHE1_DMA_PUT Ha) by (vm_compute; set_solver). }
  assert (Hby : 1 <= bytes / 4).
  { apply orb_false_iff in Hs as [_ Hne%Z.eqb_neq]. unfold bytes, uwrap, in_uw in *. destruct HD. dlia. }
  assert (is_u32 (getr e' NV_PFIFO_CACHE1_DMA_PUT)) as Hp'.
  { unfold getr. by rewrite (differ_reg _ _ _ _ (fifo_word_regs _ _ _ _ _ _ Hfw)) by set_solver. }
  assert (drained (regs_of e') = false) as Hv'.
  { rewrite <- Hv. by apply (drained_differ _ _ _ (fifo_word_regs _ _ _ _ _ _ Hfw)); set_solver. }
  destruct (pusher_data_sim r e dma w (bytes / 4) e' b) as
    [(-> & r' & -> & Ha' & HD' & HE')|[(-> & y & -> & Hy)|(-> & e0 & n & E0 & Hn & Hle & Hi & Hst & Hx)]];
    [done..| | |].
  - left. injection Hb as <-. exists r'. split; [done|]. constructor; [done|done|by rewrite HE'|done..].
  - right. destruct (pushed_linked r e e' 1 _ y HL Hp' Hv' Hy) as (r1 & HT & HL1).
    exists r1, e', (advance 1 (decoder_of r)), 1%nat. split; [lia|]. split; [exact HT|].
    by replace (S k - 1)%nat with k by lia.
  - rewrite (fifo_run_flip _ _ _ _ _ _ E0) in Hrun by done.
    destruct (should_stall_ready _ _ E0) as (Hr & Er & Ev).
    destruct (fifo_word_bound _ _ _ _ _ _ E0 Hfw) as [Hbo Hm].
    { destruct (Hi 0%nat ltac:(lia)) as [_ Hs0]. intros Em. apply Hs0. rewrite Em, Z.mul_0_r. by left. }
    assert (getr e0 NV_PFIFO_CACHE1_DMA_PUT = getr e NV_PFIFO_CACHE1_DMA_PUT) as Ep by (unfold getr; by rewrite Er).
    destruct (fifo_burst dma len n (S k) e0 (decoder_of r) R) as (e1 & Es & Hkn & Hrun1);
      [rewrite ?Ep; done..|].
    destruct (Hx e1 Es) as (y & -> & Hy). right.
    assert (is_u32 (getr e1 NV_PFIFO_CACHE1_DMA_PUT)) as Hp1.
    { unfold getr. rewrite (pgraph_stream_regs _ _ _ _ _ _ _ Es). by rewrite <- Ep in Hp. }
    assert (drained (regs_of e1) = false) as Hv1
      by (by rewrite (pgraph_stream_regs _ _ _ _ _ _ _ Es), Er).
    destruct (pushed_linked r e e1 _ _ y HL Hp1 Hv1 Hy) as (r1 & HT & HL1).
    exists r1, e1, (advance (Z.of_nat n) (decoder_of r)), n. split; [lia|]. done.
Qed.

Lemma pusher_step_sim k dma len r e D R : linked r e D -> len <= 2 ^ 32 ->
  fifo_run k dma len D e = Ok R -> simulates dma len k (pusher_step (with_regs r e) dma len) R.
Proof.
  intros HL Hlen Hrun. rewrite (pusher_step_eq _ _ _ _ _ HL). cbv zeta. fold step_tail.
  destruct k as [|k]; [done|].
  pose proof Hrun as Hrun0. cbn [fifo_run] in Hrun. unfold fifo_step in Hrun.
  set (bytes := u32 (getr e NV_PFIFO_CACHE1_DMA_PUT - d_get D)) in *.
  destruct (pfifo_pusher_should_stall e || _) eqn:Estall.
  { injection Hrun as <-. left. by exists r. }
  destruct (len <=? d_get D) eqn:El; [done|]. apply Z.leb_gt in El. cbn [orb] in *.
  destruct (negb (bytes mod 4 =? 0)) eqn:E4; [done|]. apply negb_false_iff, Z.eqb_eq in E4.
  destruct (ld_le (vram e) 4 (dma + d_get D)) as [w|] eqn:Ew; [|done].
  cbn [mbind res_mbind res_bind] in Hrun |- *.
  destruct (d_count D =? 0) eqn:Ec; cbn [negb].
  - destruct (decode w) as [c|] eqn:Edec; [|done].
    destruct (fifo_command D c) as [D1|] eqn:ED1; [|done]. by eapply command_step_sim.
  - destruct ((len <? _) || _) eqn:Eg; [done|].
    apply orb_false_iff in Eg as [Eg%Z.ltb_ge Ed]. apply Z.eqb_neq in Ec.
    destruct (fifo_word e (d_subchannel D) (d_method D) w) as [[e' b]|] eqn:Efw; [|done].
    cbn [mbind res_mbind res_bind] in Hrun. apply (data_step_sim k dma len r e D R w e' b); try done.
    + apply andb_false_iff in Ed as [Ed%Z.eqb_neq|Ed%Z.leb_gt]; [by left|by right].
    + by destruct b.
Qed.

Lemma pusher_loop_sim k fuel dma len r e D R : (k <= fuel)%nat -> linked r e D -> len <= 2 ^ 32 ->
  fifo_run k dma len D e = Ok R ->
  exists r', pusher_loop fuel (with_regs r e) dma len = Ok (with_regs r' R.2) /\ linked r' R.2 R.1.
Proof.
  revert fuel r e D. induction k as [k IH] using lt_wf_ind. intros fuel r e D Hk HL Hlen Hrun.
  destruct k as [|k]; [done|]. destruct fuel as [|fuel]; [lia|]. cbn [pusher_loop].
  destruct (pusher_step_sim (S k) dma len r e D R HL Hlen Hrun)
    as [(r1 & -> & HL1)|(r1 & e1 & D1 & n & Hn & -> & HL1 & Hrun1)]; cbn [mbind res_mbind res_bind].
  - by exists r1.
  - by apply (IH (S k - n)%nat ltac:(lia) fuel r1 e1 D1 ltac:(lia) HL1).
Qed.

(** The device before the pusher runs: the guards pass, and the position is in range. *)
Record pusher_ready d (dma len : Z) : Prop := {
  pr_enabled : pusher_enabled d = true;
  pr_asserts : pusher_asserts d = true;
  pr_map : nv_dma_map d (Z.shiftl (GET_MASK (getr d NV_PFIFO_CACHE1_DMA_INSTANCE)
                                     NV_PFIFO_CACHE1_DMA_INSTANCE_ADDRESS) 4) = Ok (dma, len);
  pr_len : len <= 2 ^ 32;
  pr_get : 0 <= getr d NV_PFIFO_CACHE1_DMA_GET;
  pr_put : is_u32 (getr d NV_PFIFO_CACHE1_DMA_PUT)
}.

(** A buffer that is drained from the start. *)
Lemma drained_rest k d dma len D' e' : drained (regs_of d) = true ->
  fifo_run k dma len (decoder_of (regs_of d)) d = Ok (D', e') ->
  D' = decoder_of (regs_of d) /\ e' = d /\ pusher_loop k d dma len = Ok d.
Proof.
  intros Hv. destruct k as [|k]; [done|]. cbn [fifo_run pusher_loop].
  unfold fifo_step, pusher_step, getr. change (d_get (decoder_of (regs_of d)))
    with (reg (regs_of d) NV_PFIFO_CACHE1_DMA_GET). unfold drained in Hv. rewrite Hv, orb_true_r.
  cbn [mbind res_mbind res_bind]. intros [= <- <-]. split; [done|]. split; [done|]. by case_match.
Qed.

Lemma run_pusher_sim k d dma len D' e' : pusher_ready d dma len ->
  fifo_run k dma len (decoder_of (regs_of d)) d = Ok (D', e') ->
  exists r', pfifo_run_pusher k d = Ok (with_regs r' e') /\ decoder_of r' = D' /\ agree (regs_of e') r'.
Proof.
  intros [He Ha Hm Hlen Hg Hp] Hrun. unfold pfifo_run_pusher. rewrite He, Ha, Hm.
  cbn [negb mbind res_mbind res_bind].
  assert (field (regs_of d) NV_PFIFO_CACHE1_DMA_STATE_ERROR = 0) as HE.
  { unfold pusher_asserts in Ha. apply andb_true_iff in Ha as [_ Ha%Z.eqb_eq]. exact Ha. }
  destruct (drained (regs_of d)) eqn:Hv.
  { destruct (drained_rest _ _ _ _ _ _ Hv Hrun) as (-> & -> & ->). exists (regs_of d).
    rewrite with_own_regs. cbn [mbind res_mbind res_bind].
    change (dma_state_get d ?f) with (field (regs_of d) f). by rewrite HE. }
  assert (linked (regs_of d) d (decoder_of (regs_of d))) as HL0 by (by constructor).
  destruct (pusher_loop_sim k k dma len _ d _ (D', e') ltac:(lia) HL0 Hlen Hrun) as (r' & El & HL).
  rewrite with_own_regs in El. cbn [fst snd] in *. exists r'. rewrite El. cbn [mbind res_mbind res_bind].
  change (dma_state_get (with_regs r' e') ?f) with (field r' f). rewrite (l_error _ _ _ HL).
  split; [done|]. by destruct HL.
Qed.

End Simulation.

(** ** Command streams *)

Record MethodCall := {
  c_inc : bool;
  c_subchannel : Z;
  c_method : Z;
  c_data : list Z
}.

Definition header (c : MethodCall) : Z :=
  2 ^ 30 * (if c_inc c then 0 else 1) + 2 ^ 18 * Z.of_nat (length (c_data c))
  + 2 ^ 13 * c_subchannel c + c_method c.

Definition encode (c : MethodCall) : list Z := header c :: c_data c.

Definition next_method (inc : bool) (m : Z) : Z := if inc then (m + 4) mod 0x2000 else m.

(** The subchannel, method and parameter of every word. *)
Fixpoint words_from (inc : bool) (s m : Z) (ws : list Z) : list (Z * Z * Z) :=
  match ws with
  | [] => []
  | w :: ws => (s, m, w) :: words_from inc s (next_method inc m) ws
  end.

Definition call_words (c : MethodCall) : list (Z * Z * Z) :=
  words_from (c_inc c) (c_subchannel c) (c_method c) (c_data c).

Record call_wf (c : MethodCall) : Prop := {
  cw_sub : 0 <= c_subchannel c < 8;
  cw_method : 0 <= c_method c < 0x2000 /\ c_method c mod 4 = 0;
  cw_count : (0 < length (c_data c) < 2048)%nat;
  cw_draw : Forall (fun '(_, m, _) => m <> NV097_DRAW_ARRAYS) (call_words c)
}.

Definition words_at (m : mem) (a : Z) (ws : list Z) : Prop :=
  forall i w, ws !! i = Some w -> ld_le m 4 (a + 4 * Z.of_nat i) = Ok w.

Lemma words_at_cons m a w ws : words_at m a (w :: ws) <-> ld_le m 4 a = Ok w /\ words_at m (a + 4) ws.
Proof.
  split.
  - intros Hw. split.
    + specialize (Hw 0%nat w eq_refl). by rewrite Z.mul_0_r, Z.add_0_r in Hw.
    + intros i v Hi. specialize (Hw (S i) v Hi).
      by replace (a + 4 + 4 * Z.of_nat i) with (a + 4 * Z.of_nat (S i)) by lia.
  - intros [H0 Hw] [|i] v Hi; [injection Hi as <-; by rewrite Z.mul_0_r, Z.add_0_r|].
    specialize (Hw i v Hi). by replace (a + 4 * Z.of_nat (S i)) with (a + 4 + 4 * Z.of_nat i) by lia.
Qed.

(** The header of a call decodes to the call. *)
Lemma decode_header c : call_wf c ->
  decode (header c)
  = Some (Methods (c_inc c) (c_subchannel c) (c_method c) (Z.of_nat (length (c_data c)))).
Proof.
  intros [Hs [Hm H4] Hn _]. set (n := Z.of_nat (length (c_data c))).
  assert (0 < n < 2048) as Hn' by lia. set (f := if c_inc c then 0 else 1).
  assert (0 <= f <= 1) as Hf by (unfold f; destruct (c_inc c); lia).
  assert (header c = 2 ^ 30 * f + 2 ^ 18 * n + 2 ^ 13 * c_subchannel c + c_method c) as Eh by done.
  set (s := c_subchannel c) in *. set (m := c_method c) in *. set (w := header c) in *. clearbody w n.
  assert (E3 : Z.land w 3 = 0).
  { rewrite (land_GET_MASK w 3 0 2), (GET_MASK_arith w 3 0 2). dlia. }
  assert (Et : Z.land w 0xe0000000 = 2 ^ 30 * f).
  { rewrite (land_GET_MASK w 0xe0000000 29 3), (GET_MASK_arith w 0xe0000000 29 3). dlia. }
  assert (Eu : Z.land w 0x30000 = 0).
  { rewrite (land_GET_MASK w 0x30000 16 2), (GET_MASK_arith w 0x30000 16 2). dlia. }
  assert (E1 : Z.land w 0xe0000003 = 2 ^ 30 * f).
  { change 0xe0000003 with (Z.lor 0xe0000000 3). by rewrite Z.land_lor_distr_r, Et, E3, Z.lor_0_r. }
  assert (E2 : Z.land w 0xe0030003 = 2 ^ 30 * f).
  { change 0xe0030003 with (Z.lor 0xe0000003 0x30000). by rewrite Z.land_lor_distr_r, E1, Eu, Z.lor_0_r. }
  unfold decode. rewrite E1, E2, E3. rewrite (proj2 (Z.eqb_neq _ 0x20000000)) by lia.
  cbn [Z.eqb]. rewrite (proj2 (Z.eqb_neq w 0x00020000)) by lia.
  replace (w / 2 ^ 13 mod 2 ^ 3) with s by dlia. replace (4 * (w / 4 mod 2 ^ 11)) with m by dlia.
  replace (w / 2 ^ 18 mod 2 ^ 11) with n by dlia.
  unfold f. by destruct (c_inc c).
Qed.

Section Stream.
Context {X : Type} `{RendererLaws X} `{KelvinLaws X}.
Implicit Types d e : NV2AState X.

(** The words are taken one after the other, the FIFO never has to wait, and every state
    is [intact]: the push buffer is not overwritten. *)
Inductive delivers (intact : NV2AState X -> Prop) : NV2AState X -> list (Z * Z * Z) -> NV2AState X -> Prop :=
| delivers_nil e : delivers intact e [] e
| delivers_cons e s m w e1 l e2 :
    pfifo_pusher_should_stall e = false -> fifo_word e s m w = Ok (e1, true) -> intact e1 ->
    delivers intact e1 l e2 -> delivers intact e ((s, m, w) :: l) e2.

Lemma delivers_app intact e l l' e' : delivers intact e (l ++ l') e' ->
  exists e1, delivers intact e l e1 /\ delivers intact e1 l' e'.
Proof.
  induction l as [|[[s m] w] l IH] in e |- *; [intros Hd; exists e; split; [constructor|done]|].
  intros Hd. inversion Hd as [|? ? ? ? e1 ? ? Hs Hw Hi Hd']; subst.
  destruct (IH e1 Hd') as (e2 & H1' & H2'). exists e2. split; [|done]. by econstructor.
Qed.

Lemma delivers_intact (intact : NV2AState X -> Prop) e l e' : intact e -> delivers intact e l e' -> intact e'.
Proof. intros Hi Hd. induction Hd as [|e s m w e1 l e2 Hs Hw Hi1 Hd IH]; [done|]. by apply IH. Qed.

Lemma fifo_word_put e s m w e' b : fifo_word e s m w = Ok (e', b) ->
  getr e' NV_PFIFO_CACHE1_DMA_PUT = getr e NV_PFIFO_CACHE1_DMA_PUT.
Proof. intros Hw. unfold getr. by rewrite (differ_reg _ _ _ _ (fifo_word_regs _ _ _ _ _ _ Hw)) by set_solver. Qed.

Lemma delivers_put intact e l e' : delivers intact e l e' ->
  getr e' NV_PFIFO_CACHE1_DMA_PUT = getr e NV_PFIFO_CACHE1_DMA_PUT.
Proof.
  induction 1 as [|e s m w e1 l e2 Hs Hw Hi1 Hd IH]; [done|]. rewrite IH. by eapply fifo_word_put.
Qed.

(** [n] words are left between the position and the end of the buffer. *)
Definition words_left e (D : Decoder) (len n : Z) : Prop :=
  getr e NV_PFIFO_CACHE1_DMA_PUT = d_get D + 4 * n /\ d_get D + 4 * n <= len
  /\ d_get D + 4 * n < 2 ^ 32 /\ 0 <= d_get D.

Lemma words_left_bytes e D len n : words_left e D len n -> 0 < n ->
  u32 (getr e NV_PFIFO_CACHE1_DMA_PUT - d_get D) = 4 * n
  /\ (d_get D =? getr e NV_PFIFO_CACHE1_DMA_PUT) = false /\ (len <=? d_get D) = false
  /\ u32 (d_get D + 4) = d_get D + 4.
Proof.
  intros (-> & Hl & Hb & Hg) Hn. split; [rewrite uwrap_id; lia|].
  split; [apply Z.eqb_neq; lia|]. split; [apply Z.leb_gt; lia|]. apply uwrap_id. lia.
Qed.

(** One data word of the stream. *)
Lemma fifo_step_word dma len D e w e1 n : words_left e D len n -> 0 < d_count D <= n ->
  ld_le (vram e) 4 (dma + d_get D) = Ok w -> d_method D <> NV097_DRAW_ARRAYS ->
  pfifo_pusher_should_stall e = false ->
  fifo_word e (d_subchannel D) (d_method D) w = Ok (e1, true) ->
  fifo_step dma len D e = Ok (advance 1 D, e1, true).
Proof.
  intros Hl Hc Hw Hd Hs Hf. destruct (words_left_bytes e D len n Hl ltac:(lia)) as (Eb & Ep & El & _).
  destruct Hl as (_ & Hl & _ & Hg). unfold fifo_step. rewrite Eb, Ep, El, Hs. cbn [orb].
  rewrite (Z.mul_comm 4 n), Z.mod_mul, Z.div_mul by lia. cbn [negb Z.eqb].
  rewrite Hw. cbn [mbind res_mbind res_bind].
  rewrite (proj2 (Z.eqb_neq (d_count D) 0)), (proj2 (Z.ltb_ge len _)) by lia.
  rewrite (proj2 (Z.eqb_neq (d_method D) _)) by done. cbn [orb andb]. by rewrite Hf.
Qed.

(** The header of a call. *)
Lemma fifo_step_header dma len D e c n : words_left e D len n -> 0 < n -> d_count D = 0 ->
  ld_le (vram e) 4 (dma + d_get D) = Ok (header c) -> call_wf c ->
  pfifo_pusher_should_stall e = false ->
  fifo_step dma len D e
  = Ok ({| d_get := d_get D + 4; d_inc := c_inc c; d_subchannel := c_subchannel c;
           d_method := c_method c; d_count := Z.of_nat (length (c_data c));
           d_return := d_return D |}, e, true).
Proof.
  intros Hl Hn Hc Hw Hwf Hs. destruct (words_left_bytes e D len n Hl Hn) as (Eb & Ep & El & Eg).
  unfold fifo_step. rewrite Eb, Ep, El, Hs. cbn [orb].
  rewrite (Z.mul_comm 4 n), Z.mod_mul by lia. cbn [negb Z.eqb]. rewrite Hw, Hc. cbn [mbind res_mbind res_bind Z.eqb].
  rewrite decode_header by done. cbn [fifo_command]. by rewrite Eg.
Qed.

Lemma fifo_run_words dma len k rest ws intact e e' D : in_range D ->
  d_count D = Z.of_nat (length ws) ->
  delivers intact e (words_from (d_inc D) (d_subchannel D) (d_method D) ws) e' ->
  Forall (fun '(_, m, _) => m <> NV097_DRAW_ARRAYS)
    (words_from (d_inc D) (d_subchannel D) (d_method D) ws) ->
  (forall e, intact e -> words_at (vram e) (dma + d_get D) (ws ++ rest)) -> intact e ->
  words_left e D len (Z.of_nat (length ws + length rest)) ->
  fifo_run (length ws + k) dma len D e
  = fifo_run k dma len (advance (Z.of_nat (length ws)) D) e'.
Proof.
  induction ws as [|w ws IH] in e, D |- *; intros HD Hc Hd Hnd Hw Hi Hl.
  { inversion Hd; subst. cbn [length]. by rewrite advance_0. }
  cbn [words_from] in Hd, Hnd.
  inversion Hd as [|? ? ? ? e1 ? ? Hs Hf Hi1 Hd1]; subst. inversion Hnd as [|? ? Hm Hnd1]; subst.
  destruct (proj1 (words_at_cons _ _ _ _) (Hw e Hi)) as [H0w _]. cbn [length] in *.
  cbn [Nat.add fifo_run].
  rewrite (fifo_step_word dma len D e w e1 _ Hl) by (done || lia). cbn [mbind res_mbind res_bind].
  destruct (words_left_bytes _ _ _ _ Hl ltac:(lia)) as (_ & _ & _ & Eg).
  assert (Ea : d_get (advance 1 D) = d_get D + 4) by exact Eg.
  rewrite (IH e1 (advance 1 D)).
  - rewrite advance_add. f_equal. f_equal. lia.
  - by apply advance_range.
  - cbn. lia.
  - done.
  - done.
  - intros e2 Hi2. rewrite Ea, Z.add_assoc. by apply (words_at_cons _ _ w), Hw.
  - done.
  - destruct Hl as (Hl1 & Hl2 & Hl3 & Hl4). unfold words_left. rewrite Ea, (fifo_word_put _ _ _ _ _ _ Hf). lia.
Qed.

Lemma fifo_run_S k dma len D e : fifo_run (S k) dma len D e
  = ('(D, e, continue) ← fifo_step dma len D e;
     if (continue : bool) then fifo_run k dma len D e else Ok (D, e)).
Proof. done. Qed.

Lemma delivers_start intact e c l e' : (0 < length (c_data c))%nat ->
  delivers intact e (call_words c ++ l) e' -> pfifo_pusher_should_stall e = false.
Proof.
  unfold call_words. destruct (c_data c) as [|w ws]; [cbn; lia|]. intros _ Hd. by inversion Hd.
Qed.

(** The machine works through a buffer of calls and rests at its end. *)
Lemma fifo_run_calls dma len cs intact e e' D : len <= 2 ^ 32 -> in_range D -> d_count D = 0 ->
  Forall call_wf cs -> delivers intact e (cs ≫= call_words) e' ->
  (forall e, intact e -> words_at (vram e) (dma + d_get D) (cs ≫= encode)) -> intact e ->
  words_left e D len (Z.of_nat (length (cs ≫= encode))) ->
  exists D', fifo_run (S (length (cs ≫= encode))) dma len D e = Ok (D', e')
    /\ d_get D' = getr e NV_PFIFO_CACHE1_DMA_PUT /\ d_count D' = 0 /\ d_return D' = d_return D.
Proof.
  intros Hlen. induction cs as [|c cs IH] in e, D |- *; intros HD Hc Hwf Hd Hw Hi Hl.
  { inversion Hd; subst. exists D. destruct Hl as (Ep & _). cbn in Ep.
    split; [|split; [by rewrite Ep, Z.add_0_r|done]]. cbn [length fifo_run]. unfold fifo_step.
    rewrite Ep, Z.add_0_r, Z.eqb_refl, orb_true_r. done. }
  change ((c :: cs) ≫= encode) with (header c :: c_data c ++ (cs ≫= encode)) in *.
  change ((c :: cs) ≫= call_words) with (call_words c ++ (cs ≫= call_words)) in *.
  inversion Hwf as [|? ? Hwc Hwcs]; subst. destruct Hwc as [Hsub [Hm Hm4] Hn Hdr] eqn:Ewc.
  destruct (proj1 (words_at_cons _ _ _ _) (Hw e Hi)) as [H0w _].
  assert (pfifo_pusher_should_stall e = false) as Hs by (eapply delivers_start; [|done]; lia).
  cbn [length] in *. rewrite fifo_run_S, (fifo_step_header dma len D e c _ Hl) by (done || lia). cbn [mbind res_mbind res_bind].
  set (D1 := Build_Decoder _ _ _ _ _ _).
  destruct (delivers_app _ _ _ _ _ Hd) as (e1 & Hd1 & Hd2).
  assert (HD1 : in_range D1) by (destruct Hl as (? & ? & ? & ?); split; cbn; lia).
  rewrite length_app in *.
  replace (S (length (c_data c) + length (cs ≫= encode)))
    with (length (c_data c) + S (length (cs ≫= encode)))%nat by lia.
  rewrite (fifo_run_words dma len _ (cs ≫= encode) (c_data c) intact e e1 D1); try done.
  - set (D2 := advance (Z.of_nat (length (c_data c))) D1).
    assert (Eg2 : d_get D2 = d_get D + 4 * Z.of_nat (S (length (c_data c)))).
    { destruct Hl as (? & ? & ? & ?). cbn. rewrite uwrap_id by lia. lia. }
    destruct (IH e1 D2) as (D' & Hr & Hg & Hc' & Hret).
    + by apply advance_range.
    + cbn. lia.
    + done.
    + done.
    + intros e2 Hi2. rewrite Eg2. pose proof (Hw e2 Hi2) as Hw2.
      intros j w Hj. specialize (Hw2 (S (length (c_data c)) + j)%nat w).
      cbn [Nat.add] in Hw2. rewrite lookup_cons, lookup_app_r in Hw2 by lia.
      replace (length (c_data c) + j - length (c_data c))%nat with j in Hw2 by lia.
      specialize (Hw2 Hj).
      by replace (dma + (d_get D + 4 * Z.of_nat (S (length (c_data c)))) + 4 * Z.of_nat j)
        with (dma + d_get D + 4 * Z.of_nat (S (length (c_data c) + j))) by lia.
    + by eapply delivers_intact.
    + destruct Hl as (? & ? & ? & ?). unfold words_left. rewrite Eg2, (delivers_put _ _ _ _ Hd1). lia.
    + exists D'. split; [done|]. by rewrite Hg, (delivers_put _ _ _ _ Hd1).
  - intros e2 Hi2. change (d_get D1) with (d_get D + 4). rewrite Z.add_assoc.
    by apply (words_at_cons _ _ (header c)), Hw.
  - destruct Hl as (? & ? & ? & ?). unfold words_left, D1. cbn [d_get]. lia.
Qed.

(** C1. The DMA pusher implements the machine.  When the machine, started in the state
    the registers encode, comes to rest, [pfifo_run_pusher] returns; the device is in the
    machine's state, the registers encode its decoder, and no other register of the FIFO
    differs but those it keeps for itself.  The pusher may take several words of a
    command in one step, the machine takes them one at a time.  The machine does not come
    to rest, and the theorem says nothing, where a DRAW_ARRAYS word has six or more words
    after it, so that its successors may be squashed into it, and where the words of a command
    cross the end of the DMA object.  Of the renderer it is assumed that what it does depends
    on the registers of the FIFO at most by whether [DMA_GET] has met [DMA_PUT], and that a flush
    leaves the context and what PGRAPH waits for ([RendererLaws]). *)
Theorem pusher_refines k d dma len D' e' : pusher_ready d dma len ->
  fifo_run k dma len (decoder_of (pfifo_regs (pfifo d))) d = Ok (D', e') ->
  exists r', pfifo_run_pusher k d = Ok (with_regs r' e') /\ decoder_of r' = D'
    /\ differ private_regs (pfifo_regs (pfifo e')) r'.
Proof.
  intros Hd Hrun. destruct (run_pusher_sim k d dma len D' e' Hd Hrun) as (r' & Hp & HD & Ha).
  by exists r'.
Qed.

(** C16. Every word of a push buffer is delivered, once and in order.  When the words
    between [DMA_GET] and [DMA_PUT] are the encoding of a list of method calls, none of them of
    DRAW_ARRAYS (whose successors PGRAPH may squash), and the FIFO can take them all, [pfifo_run_pusher] leaves the device as the words of
    the calls do when they are handed to PGRAPH one after the other, [DMA_GET] meets
    [DMA_PUT], and no command is left unfinished. *)
Theorem push_buffer_delivered d dma len cs e' :
  let n := length (cs ≫= encode) in
  let get := getr d NV_PFIFO_CACHE1_DMA_GET in
  let put := getr d NV_PFIFO_CACHE1_DMA_PUT in
  let intact e := words_at (vram e) (dma + get) (cs ≫= encode) in
  pusher_ready d dma len -> d_count (decoder_of (pfifo_regs (pfifo d))) = 0 ->
  Forall call_wf cs -> put = get + 4 * Z.of_nat n -> put <= len -> intact d ->
  delivers intact d (cs ≫= call_words) e' ->
  exists r', pfifo_run_pusher (S n) d = Ok (with_regs r' e')
    /\ reg r' NV_PFIFO_CACHE1_DMA_GET = put /\ d_count (decoder_of r') = 0
    /\ differ private_regs (pfifo_regs (pfifo e')) r'.
Proof.
  intros n get put intact Hd Hc Hwf Ep El Hi Hdel. unfold n, get, put in *. pose proof Hd as [_ _ _ Hlen Hg [_ Hp]].
  destruct (fifo_run_calls dma len cs intact d e' (decoder_of (pfifo_regs (pfifo d))) Hlen)
    as (D' & Hrun & HD1 & HD2 & _); [|done..| |].
  - split; [cbn; unfold getr in *; lia|].
    pose proof (dma_field_range (pfifo_regs (pfifo d)) NV_PFIFO_CACHE1_DMA_STATE_METHOD 2 11). cbn. lia.
  - unfold words_left. cbn [d_get decoder_of]. unfold getr in *. lia.
  - destruct (run_pusher_sim _ d dma len D' e' Hd Hrun) as (r' & Hpu & HD & Ha).
    exists r'. split; [done|]. rewrite <- HD in HD1, HD2. done.
Qed.

End Stream.

End PfifoStream.
