(* ===== verification/Nv2a.v ===== *)
(** * The NV2A device: MMIO map, reset and vertical blank (hw/xbox/nv2a/nv2a.c)

    The block table that dispatches guest accesses to the units, the device reset
    and the vertical blank; the invariant of the whole device and what any MMIO
    access does to it. *)

From S2P Require Import Prelude Nv2aRegs Nv2aState Nv2aBlocks Pgraph Pfifo.
Import Nv2aState Nv2aBlocks Pgraph Pfifo.

Module Nv2a.

Section Device.
Context {X : Type} `{VgaOps X} `{Renderer X} `{Kelvin X}.
Implicit Types d : NV2AState X.

(** ** The MMIO map *)

(** [now] is the virtual clock, [straps] the override of the straps register. *)
Record NV2ABlockInfo := {
  bi_offset : Z;
  bi_size : Z;
  bi_read : Z -> option Z -> NV2AState X -> Z -> Z -> res (NV2AState X * Z);
  bi_write : NV2AState X -> Z -> Z -> Z -> res (NV2AState X)
}.

Definition ENTRY (offset size : Z) (read : NV2AState X -> Z -> Z -> res (NV2AState X * Z))
    (write : NV2AState X -> Z -> Z -> Z -> res (NV2AState X)) : NV2ABlockInfo :=
  {| bi_offset := offset; bi_size := size; bi_read := fun _ _ => read; bi_write := write |}.

Definition blocktable : list NV2ABlockInfo := [
  ENTRY 0x000000 0x001000 pmc_read pmc_write;
  ENTRY 0x001000 0x001000 pbus_read pbus_write;
  ENTRY 0x002000 0x002000 pfifo_read pfifo_write;
  ENTRY 0x007000 0x001000 stub_read stub_write;
  ENTRY 0x008000 0x001000 pvideo_read pvideo_write;
  {| bi_offset := 0x009000; bi_size := 0x001000;
     bi_read := fun now _ => ptimer_read now; bi_write := ptimer_write |};
  ENTRY 0x00a000 0x001000 stub_read stub_write;
  ENTRY 0x00b000 0x001000 stub_read stub_write;
  ENTRY 0x00d000 0x001000 stub_read stub_write;
  ENTRY 0x0a0000 0x020000 stub_read stub_write;
  ENTRY 0x0c0000 0x001000 prmvio_read prmvio_write;
  ENTRY 0x100000 0x001000 pfb_read pfb_write;
  {| bi_offset := 0x101000; bi_size := 0x001000;
     bi_read := fun _ straps => pstraps_read straps; bi_write := pstraps_write |};
  ENTRY 0x400000 0x002000 pgraph_read pgraph_write;
  ENTRY 0x600000 0x001000 pcrtc_read pcrtc_write;
  ENTRY 0x601000 0x001000 prmcio_read prmcio_write;
  ENTRY 0x680000 0x001000 pramdac_read pramdac_write;
  ENTRY 0x681000 0x001000 prmdio_read prmdio_write;
  ENTRY 0x800000 0x800000 user_read user_write
].

(** The instance memory, which [nv2a_init_memory] maps between the blocks. *)
Definition ramin_read d (addr size : Z) : res (NV2AState X * Z) :=
  v ← ld_le (ramin d) (Z.to_nat size) addr; Ok (d, v).
Definition ramin_write d (addr val size : Z) : res (NV2AState X) :=
  m ← st_le (ramin d) (Z.to_nat size) addr val; Ok (d <| ramin := m |>).

Definition regions : list NV2ABlockInfo :=
  blocktable ++ [ENTRY 0x700000 0x100000 ramin_read ramin_write].

Definition in_block (a : Z) (b : NV2ABlockInfo) : bool :=
  (bi_offset b <=? a) && (a <? bi_offset b + bi_size b).

Definition block_at (a : Z) : option NV2ABlockInfo := head (filter (fun b => in_block a b) regions).

(** An access of [size] bytes at [a] in the register BAR.  Nothing answers outside
    the blocks and the instance memory. *)
Definition mmio_read (now : Z) (straps : option Z) d (a size : Z) : res (NV2AState X * Z) :=
  match block_at a with
  | Some b => '(d, r) ← bi_read b now straps d (a - bi_offset b) size; Ok (d, uwrap (8 * size) r)
  | None => Ok (d, 0)
  end.

Definition mmio_write d (a val size : Z) : res (NV2AState X) :=
  match block_at a with
  | Some b => bi_write b d (a - bi_offset b) val size
  | None => Ok d
  end.

(** ** Vertical blank and reset *)

(** [nv2a_vga_gfx_update] after the update of the VGA surface. *)
Definition nv2a_vga_gfx_update d : NV2AState X :=
  nv2a_update_irq
    (d <| pcrtc; pcrtc_pending := Z.lor (pcrtc_pending (pcrtc d)) NV_PCRTC_INTR_0_VBLANK |>
       <| pcrtc; raster := 0 |>).

Definition reset_palette : list Z := zseq 256 ≫= fun i => [i; i; i].

(** The part of [nv2a_reset] after the FIFO was halted and flushed. *)
Definition nv2a_reset d : NV2AState X :=
  let d := d <| pfifo; pfifo_regs :=
                  {[ NV_PFIFO_CACHE1_STATUS := NV_PFIFO_CACHE1_STATUS_LOW_MARK ]} |>
             <| pgraph; regs_ := ∅ |>
             <| pvideo_regs := ∅ |>
             <| pcrtc; pcrtc_start := 0 |>
             <| pramdac; core_clock_coeff := 0x00011C01 |>
             <| pramdac; core_clock_freq := 233333324 |>
             <| pramdac; memory_clock_coeff := 0 |>
             <| pramdac; video_clock_coeff := 0x0003C20D |>
             <| ext := vga_reset (ext d) |>
             <| pgraph; waiting_for_nop := false |>
             <| pgraph; waiting_for_flip := false |>
             <| pgraph; waiting_for_context_switch := false |>
             <| pmc; pmc_pending := 0 |>
             <| pfifo; pfifo_pending := 0 |>
             <| ptimer; ptimer_pending := 0 |>
             <| pcrtc; pcrtc_pending := 0 |>
             <| puserdac; palette := reset_palette |> in
  pfifo_kick d.

(** ** Interrupts *)

(** The PMC shows the units and the line follows the PMC. *)
Record irq_coherent d : Prop := {
  ic_pfifo : tst (pmc_pending (pmc d)) NV_PMC_INTR_0_PFIFO
             = tst (pfifo_pending (pfifo d)) (pfifo_enabled (pfifo d));
  ic_pcrtc : tst (pmc_pending (pmc d)) NV_PMC_INTR_0_PCRTC
             = tst (pcrtc_pending (pcrtc d)) (pcrtc_enabled (pcrtc d));
  ic_pgraph : tst (pmc_pending (pmc d)) NV_PMC_INTR_0_PGRAPH
             = tst (pg_pending (pgraph d)) (pg_enabled (pgraph d));
  ic_line : irq d = negb (pmc_pending (pmc d) =? 0) && negb (pmc_enabled (pmc d) =? 0)
}.

Lemma unit_line_spec pending enabled k p i : 0 <= k ->
  0 <= i -> Z.testbit (unit_line pending enabled (2 ^ k) p) i
  = if decide (i = k) then tst pending enabled else Z.testbit p i.
Proof.
  intros Hk Hi. unfold unit_line. destruct (tst pending enabled).
  - rewrite Z.lor_spec. case_decide as E; [subst|].
    + rewrite Z.pow2_bits_true by lia. apply orb_true_r.
    + rewrite Z.pow2_bits_false by lia. apply orb_false_r.
  - rewrite Z.land_spec, Z.lnot_spec by lia. case_decide as E; [subst|].
    + rewrite Z.pow2_bits_true by lia. apply andb_false_r.
    + rewrite Z.pow2_bits_false by lia. apply andb_true_r.
Qed.

Lemma update_irq_coherent d : irq_coherent (nv2a_update_irq d).
Proof.
  constructor; unfold nv2a_update_irq; cbn; try done.
  all: unfold NV_PMC_INTR_0_PFIFO, NV_PMC_INTR_0_PCRTC, NV_PMC_INTR_0_PGRAPH.
  all: change 0x100 with (2 ^ 8); change 0x1000000 with (2 ^ 24); change 0x1000 with (2 ^ 12).
  all: rewrite tst_bit, !unit_line_spec by lia; done.
Qed.

(** What the tree depends on. *)
Definition pg_irq (pg : PGRAPHState) : Z * Z := (pg_pending pg, pg_enabled pg).
Definition irq_view d : bool * Pmc * (Z * Z) * (Z * Z) * (Z * Z) :=
  (irq d, pmc d, (pfifo_pending (pfifo d), pfifo_enabled (pfifo d)),
   (pcrtc_pending (pcrtc d), pcrtc_enabled (pcrtc d)), pg_irq (pgraph d)).

Lemma irq_coherent_view d d' : irq_view d' = irq_view d -> irq_coherent d -> irq_coherent d'.
Proof.
  unfold irq_view, pg_irq. intros [= E1 E2 E3 E4 E5 E6 E7 E8] [].
  constructor; congruence.
Qed.

Lemma pg_irq_reg_w pg r v : pg_irq (reg_w pg r v) = pg_irq pg.
Proof. unfold reg_w. by case_match. Qed.

Lemma pg_irq_view d pg : pg_irq pg = pg_irq (pgraph d) -> irq_view (d <| pgraph := pg |>) = irq_view d.
Proof. intros E. unfold irq_view. cbn. by rewrite E. Qed.

(** The PGRAPH registers behind the interrupt registers. *)
Lemma pg_irq_ops pg pg' :
  (exists a, flip_next pg a = Ok pg') \/ (exists a, rdi_next pg a = Ok pg')
  \/ (exists a b c, pgraph_rdi_write pg a b c = Ok pg') \/ (exists a b, pgraph_reg_w pg a b = Ok pg') ->
  pg_irq pg' = pg_irq pg.
Proof.
  unfold flip_next, rdi_next, pgraph_rdi_write, pgraph_reg_w, PG_SET_MASK.
  intros [[a E]|[[a E]|[(a & b & c & E)|(a & b & E)]]]; res_inv E; subst; apply pg_irq_reg_w || done.
Qed.

(** A write handler that keeps the interrupt tree coherent. *)
Definition keeps_irq (w : NV2AState X -> Z -> Z -> Z -> res (NV2AState X)) : Prop :=
  forall d a val size d', irq_coherent d -> w d a val size = Ok d' -> irq_coherent d'.

Lemma pgraph_write_irq d a val size d' : irq_coherent d ->
  a <> NV_PGRAPH_INTR -> a <> NV_PGRAPH_INTR_EN ->
  pgraph_write d a val size = Ok d' -> irq_coherent d'.
Proof.
  intros Hc Ha1 Ha2 E. eapply irq_coherent_view; [|exact Hc]. unfold pgraph_write in E.
  apply res_bind_Ok in E as (d1 & E & [= <-]).
  transitivity (irq_view d1); [destruct (a =? NV_PGRAPH_FIFO); reflexivity|].
  res_inv E; subst; try lia; try done.
  - change (irq_view (pfifo_kick ?d)) with (irq_view d). apply pg_irq_view. eapply pg_irq_ops; eauto 8.
  - apply pg_irq_view. etransitivity; eapply pg_irq_ops; eauto 8.
  - apply pg_irq_view, pg_irq_reg_w.
  - apply pg_irq_view. eapply pg_irq_ops; eauto 8.
Qed.

Lemma kick_coherent d : irq_coherent d -> irq_coherent (pfifo_kick d).
Proof. by apply irq_coherent_view. Qed.

Ltac keeps_irq :=
  intros d a val size d' Hc E; res_inv E;
  repeat match goal with Hx : _ = Ok _ |- _ => progress res_inv Hx end; subst; repeat case_match;
  first [exact Hc | apply update_irq_coherent | apply kick_coherent, update_irq_coherent
        | apply (irq_coherent_view d); [reflexivity|exact Hc]].

Lemma blocks_keep_irq :
  keeps_irq pmc_write /\ keeps_irq pbus_write /\ keeps_irq pfifo_write /\ keeps_irq pvideo_write
  /\ keeps_irq ptimer_write /\ keeps_irq prmvio_write /\ keeps_irq pfb_write
  /\ keeps_irq pcrtc_write /\ keeps_irq prmcio_write /\ keeps_irq pramdac_write
  /\ keeps_irq prmdio_write /\ keeps_irq user_write.
Proof.
  unfold pmc_write, pbus_write, pfifo_write, pvideo_write, ptimer_write, prmvio_write, pfb_write,
    pcrtc_write, prmcio_write, pramdac_write, prmdio_write, user_write.
  split_and!. all: keeps_irq.
Qed.

Lemma stub_keeps_irq :
  keeps_irq stub_write /\ keeps_irq pstraps_write /\ keeps_irq ramin_write.
Proof. unfold stub_write, pstraps_write, ramin_write. split_and!; keeps_irq. Qed.

Lemma block_at_in a b : block_at a = Some b -> b ∈ regions /\ in_block a b.
Proof.
  unfold block_at. intros E. assert (b ∈ filter (fun b => in_block a b) regions) as Hb.
  { destruct (filter _ regions) as [|b' l]; [done|]. injection E as ->. left. }
  apply list_elem_of_filter in Hb. tauto.
Qed.

Definition pgraph_block : NV2ABlockInfo := ENTRY 0x400000 0x002000 pgraph_read pgraph_write.

Lemma table_keeps_irq b : b ∈ regions -> b = pgraph_block \/ keeps_irq (bi_write b).
Proof.
  destruct blocks_keep_irq as (? & ? & ? & ? & ? & ? & ? & ? & ? & ? & ? & ?).
  destruct stub_keeps_irq as (? & ? & ?). revert b. apply Forall_forall. unfold regions, blocktable. cbn [app].
  repeat (apply Forall_cons_2; [first [left; reflexivity | right; cbn [bi_write ENTRY]; assumption]|]).
  constructor.
Qed.

(** C19. Every MMIO write leaves the interrupt tree coherent, except to the two PGRAPH
    interrupt registers: the PFIFO, PCRTC and PGRAPH bits of the PMC register say
    which units have an enabled interrupt pending, and the PCI line is up exactly
    when the PMC has something pending and something enabled. *)
Theorem mmio_write_irq d a val size d' :
  irq_coherent d -> a <> 0x400000 + NV_PGRAPH_INTR -> a <> 0x400000 + NV_PGRAPH_INTR_EN ->
  mmio_write d a val size = Ok d' -> irq_coherent d'.
Proof.
  intros Hc H1' H2' E. unfold mmio_write in E.
  destruct (block_at a) as [b|] eqn:Eb; [|by injection E as <-].
  apply block_at_in in Eb as [Hb _]. destruct (table_keeps_irq b Hb) as [->|Hk].
  - cbn [bi_write bi_offset pgraph_block ENTRY] in E.
    eapply pgraph_write_irq; [exact Hc| | |exact E]; lia.
  - eapply Hk; eauto.
Qed.

(** C38. Acknowledging a PGRAPH interrupt at the PGRAPH does not reach the PMC: after
    all ones are written to PGRAPH_INTR nothing is pending there, but the PMC bit and
    the PCI line stay as they were, until some other event recomputes the tree. *)
Theorem pgraph_ack_stale d :
  irq_coherent d -> tst (pg_pending (pgraph d)) (pg_enabled (pgraph d)) = true ->
  0 <= pg_pending (pgraph d) < 2 ^ 32 ->
  exists d', mmio_write d (0x400000 + NV_PGRAPH_INTR) 0xffffffff 4 = Ok d'
    /\ pg_pending (pgraph d') = 0 /\ irq d' = irq d
    /\ tst (pmc_pending (pmc d')) NV_PMC_INTR_0_PGRAPH = true
    /\ tst (pmc_pending (pmc (nv2a_update_irq d'))) NV_PMC_INTR_0_PGRAPH = false.
Proof.
  intros Hc Hp Hr. set (d' := pfifo_kick (d <| pgraph := ack_interrupts (pgraph d) 0xffffffff |>)).
  exists d'. split; [reflexivity|].
  assert (Z.land (pg_pending (pgraph d)) (Z.lnot 0xffffffff) = 0) as E0.
  { change 0xffffffff with (Z.ones 32). apply Z.bits_inj'. intros i Hi.
    rewrite Z.land_spec, Z.lnot_spec, Z.bits_0 by lia. destruct (Z.lt_ge_cases i 32).
    - rewrite Z.ones_spec_low by lia. apply andb_false_r.
    - by rewrite (testbit_above 32). }
  assert (pg_pending (pgraph d') = 0) as E1.
  { unfold d', ack_interrupts. rewrite E0. reflexivity. }
  split_and!; [done|..].
  - unfold d', ack_interrupts. rewrite E0. reflexivity.
  - transitivity (tst (pmc_pending (pmc d)) NV_PMC_INTR_0_PGRAPH); [reflexivity|].
    by rewrite (ic_pgraph _ Hc).
  - rewrite (ic_pgraph _ (update_irq_coherent d')).
    change (pg_pending (pgraph (nv2a_update_irq d'))) with (pg_pending (pgraph d')).
    rewrite E1. unfold tst. by rewrite Z.land_0_l.
Qed.

(** ** The device invariant *)

Definition regs_u32 (r : regfile) : Prop := map_Forall (fun _ v => is_u32 v) r.

Record pmc_wf (p : Pmc) : Prop := {
  pmw_pending : is_u32 (pmc_pending p);
  pmw_enabled : is_u32 (pmc_enabled p)
}.

Record pfifo_wf (p : Pfifo) : Prop := {
  pfw_pending : is_u32 (pfifo_pending p);
  pfw_enabled : is_u32 (pfifo_enabled p);
  pfw_regs : regs_u32 (pfifo_regs p)
}.

Record ptimer_wf (p : Ptimer) : Prop := {
  ptw_pending : is_u32 (ptimer_pending p);
  ptw_enabled : is_u32 (ptimer_enabled p);
  ptw_numerator : is_u32 (numerator p);
  ptw_denominator : is_u32 (denominator p);
  ptw_alarm : is_u32 (alarm_time p)
}.

Record pcrtc_wf (p : Pcrtc) : Prop := {
  pcw_pending : is_u32 (pcrtc_pending p);
  pcw_enabled : is_u32 (pcrtc_enabled p);
  pcw_start : is_u32 (pcrtc_start p);
  pcw_raster : is_u32 (raster p)
}.

Definition pramdac_wf (p : Pramdac) : Prop :=
  Forall is_u32 [core_clock_coeff p; core_clock_freq p; memory_clock_coeff p;
    video_clock_coeff p; general_control p; fp_vdisplay_end p; fp_vcrtc p; fp_vsync_end p;
    fp_vvalid_end p; fp_hdisplay_end p; fp_hcrtc p; fp_hvalid_end p].

Record puserdac_wf (p : Puserdac) : Prop := {
  puw_address : is_u16 (write_mode_address p);
  puw_length : length (palette p) = 768%nat;
  puw_bytes : Forall is_u8 (palette p)
}.

Record pgraph_wf (pg : PGRAPHState) : Prop := {
  pgw_pending : is_u32 (pg_pending pg);
  pgw_enabled : is_u32 (pg_enabled pg);
  pgw_regs : regs_u32 (regs_ pg);
  pgw_rows : length (vsh_constants pg) = 192%nat;
  pgw_row : Forall (fun r => length r = 4%nat /\ Forall is_u32 r) (vsh_constants pg)
}.

(** Registers have their width, arrays their length, and RAMIN is a megabyte. *)
Record nv2a_wf d : Prop := {
  nw_pmc : pmc_wf (pmc d);
  nw_pfifo : pfifo_wf (pfifo d);
  nw_pvideo : regs_u32 (pvideo_regs d);
  nw_ptimer : ptimer_wf (ptimer d);
  nw_pfb : regs_u32 (pfb_regs d);
  nw_pgraph : pgraph_wf (pgraph d);
  nw_pcrtc : pcrtc_wf (pcrtc d);
  nw_pramdac : pramdac_wf (pramdac d);
  nw_puserdac : puserdac_wf (puserdac d);
  nw_config : bytes_valid (config d) 0 256;
  nw_ramin_size : ramin_size d = 0x100000;
  nw_ramin : bytes_valid (ramin d) 0 0x100000
}.

Lemma unit_line_u32 a e k p : is_u32 p -> is_u32 k -> is_u32 (unit_line a e k p).
Proof. intros. unfold unit_line. case_match; auto with words. Qed.

Lemma regs_u32_insert r a v : regs_u32 r -> is_u32 v -> regs_u32 (<[a := v]> r).
Proof. intros. by apply map_Forall_insert_2. Qed.

Lemma regs_u32_reg r a : regs_u32 r -> is_u32 (reg r a).
Proof.
  intros Hr. unfold reg. destruct (r !! a) as [v|] eqn:E; [|done]. exact (Hr _ _ E).
Qed.

#[local] Hint Resolve regs_u32_insert regs_u32_reg : words.

Lemma update_irq_wf d : nv2a_wf d -> nv2a_wf (nv2a_update_irq d).
Proof.
  intros Hd. destruct Hd as [[Hp He] [? ? ?] ? ? ? ? [? ? ? ?] ? ? ? ? ?].
  constructor; try done. constructor; [|done]. cbn. by repeat apply unit_line_u32.
Qed.

(** ** Every access is answered *)

(** An access the memory core lets through: 1, 2 or 4 bytes, aligned. *)
Definition aligned (a size : Z) : Prop := (size = 1 \/ size = 2 \/ size = 4) /\ a mod size = 0.

(** A write handler of a block of [n] bytes that always returns. *)
Definition total_write (n : Z) (w : NV2AState X -> Z -> Z -> Z -> res (NV2AState X)) : Prop :=
  forall d a val size, nv2a_wf d -> 0 <= a < n -> aligned a size ->
  exists d', w d a val size = Ok d' /\ nv2a_wf d'.

Lemma pci_set_long_ok m a v : bytes_valid m 0 256 -> 0 <= a <= 252 ->
  exists m', pci_set_long m a v = Ok m' /\ bytes_valid m' 0 256.
Proof.
  intros Hm Ha. apply (res_foldl_ind _ (fun _ m => bytes_valid m 0 256)); [done|].
  intros l i rest m1 Hl Hm1. apply zseq_split in Hl as [Hi _].
  destruct (Hm1 (a + i) ltac:(lia)) as (x & Ex & _). unfold st. rewrite Ex.
  eexists. split; [done|]. intros b Hb. destruct (decide (b = a + i)) as [->|].
  - rewrite lookup_insert_eq. eexists. split; [done|]. apply uwrap_range. lia.
  - rewrite lookup_insert_ne by done. by apply Hm1.
Qed.

Lemma st_le_ok m n a v k : bytes_valid m 0 k -> 0 <= a -> a + Z.of_nat n <= k ->
  exists m', st_le m n a v = Ok m' /\ bytes_valid m' 0 k.
Proof.
  revert m a v. induction n as [|n IH]; intros m a v Hm Ha Hk; [by exists m|]. cbn [st_le].
  destruct (Hm a ltac:(lia)) as (x & Ex & _). unfold st. rewrite Ex. cbn [mbind res_mbind res_bind].
  apply IH; [|lia..]. intros b Hb. destruct (decide (b = a)) as [->|].
  - rewrite lookup_insert_eq. eexists. split; [done|]. unfold in_uw.
    pose proof (Z.mod_pos_bound v 256 ltac:(lia)). lia.
  - rewrite lookup_insert_ne by done. by apply Hm.
Qed.

(** An aligned access does not straddle the end of a region. *)
Lemma aligned_end a size n : aligned a size -> 0 <= a < n -> n mod 4 = 0 -> a + size <= n.
Proof. intros [[->|[->| ->]] Ha] Hn H4; dlia. Qed.

Lemma ramin_write_total : total_write 0x100000 ramin_write.
Proof.
  intros d a val size Hd Ha Hal. unfold ramin_write.
  pose proof (aligned_end a size _ Hal Ha eq_refl) as He.
  assert (0 <= size) by (destruct Hal as [[->|[->| ->]] _]; lia).
  destruct (st_le_ok (ramin d) (Z.to_nat size) a val 0x100000) as (m & -> & Hm);
    [apply (nw_ramin _ Hd)|lia..|].
  eexists. split; [reflexivity|]. destruct Hd. by constructor.
Qed.

Lemma pll_freq_u32 val : is_u32 (pll_freq val).
Proof.
  unfold pll_freq. set (m := Z.land val _). set (p := Z.shiftr (Z.land val _) 16).
  destruct (Z.eqb_spec m 0) as [|Hm0]; [done|].
  assert (0 <= m) by (apply Z.land_nonneg; right; done).
  assert (0 <= p) by (apply Z.shiftr_nonneg, Z.land_nonneg; right; done).
  pose proof (uwrap_range 32 (NV2A_CRYSTAL_FREQ * Z.shiftr (Z.land val NV_PRAMDAC_NVPLL_COEFF_NDIV) 8)
    ltac:(lia)) as Hu. unfold in_uw in *. set (x := u32 _) in *. clearbody x m p.
  rewrite Z.shiftl_mul_pow2, Z.mul_1_l by lia. pose proof (Z.pow_pos_nonneg 2 p ltac:(lia) ltac:(lia)).
  assert (0 <= x / 2 ^ p <= x) by (split; [apply Z.div_pos|apply Z.div_le_upper_bound]; nia).
  split; [apply Z.div_pos; lia|]. apply Z.le_lt_trans with (x / 2 ^ p); [|lia].
  apply Z.div_le_upper_bound; nia.
Qed.

(** The unit that changed and the ones that did not. *)
Ltac wf_unit :=
  match goal with
  | |- is_u32 (Z.land _ 0x07FFFFFF) => rewrite Z.land_comm; apply land_range; done
  | |- is_u32 (pll_freq _) => apply pll_freq_u32
  | |- _ => solve [auto with words | done]
  end.

Ltac wf_tac Hd :=
  try apply update_irq_wf; destruct Hd as [[] [] ? [] ? ? [] ? ? ? ? ?]; constructor; try assumption;
  try (constructor; cbn; try assumption; wf_unit).

Lemma switch_writes_total :
  total_write 0x1000 pmc_write /\ total_write 0x1000 ptimer_write /\ total_write 0x1000 pcrtc_write
  /\ total_write 0x1000 prmvio_write /\ total_write 0x1000 prmcio_write
  /\ total_write 0x1000 stub_write /\ total_write 0x20000 stub_write
  /\ total_write 0x1000 pstraps_write.
Proof.
  unfold pmc_write, ptimer_write, pcrtc_write, prmvio_write, prmcio_write, stub_write, pstraps_write.
  split_and!; intros d a val size Hd Ha _; eexists; (split; [reflexivity|]); try exact Hd;
    cbn [switch]; repeat case_match; try done; wf_tac Hd.
Qed.

Lemma kick_wf d : nv2a_wf d -> nv2a_wf (pfifo_kick d).
Proof. intros [? [] ? ? ? ? ? ? ? ? ? ?]. by constructor. Qed.

Lemma register_writes_total :
  total_write 0x2000 pfifo_write /\ total_write 0x1000 pvideo_write /\ total_write 0x1000 pfb_write.
Proof.
  unfold pfifo_write, pvideo_write, pfb_write.
  split_and!; intros d a val size Hd Ha _; cbn [switch]; rewrite reg_write_ok by lia;
    cbn [mbind res_mbind res_bind]; repeat case_match; cbn [mbind res_mbind res_bind];
    (eexists; split; [reflexivity|]); try apply kick_wf; wf_tac Hd;
    (apply regs_u32_insert; [assumption|]; (apply uwrap_range; lia) || done).
Qed.

Lemma pramdac_write_total : total_write 0x1000 pramdac_write.
Proof.
  intros d a val size Hd Ha _. unfold pramdac_write. eexists. split; [reflexivity|].
  assert (is_u32 (u32 val)) as Hv by auto with words.
  destruct Hd as [? ? ? ? ? ? ? Hp ? ? ? ?]. unfold pramdac_wf in Hp. rewrite !Forall_cons in Hp.
  cbn [switch]. repeat case_match; constructor; try assumption;
    unfold pramdac_wf; rewrite !Forall_cons; cbn; pose proof (pll_freq_u32 val); tauto.
Qed.

Lemma prmdio_write_total : total_write 0x1000 prmdio_write.
Proof.
  intros d a val size Hd Ha _. unfold prmdio_write. destruct Hd as [? ? ? ? ? ? ? ? [Hw Hl Hb] ? ? ?].
  pose proof (Z.mod_pos_bound (write_mode_address (puserdac d)) (256 * 3) ltac:(lia)).
  rewrite buf_set_ok by (rewrite Hl; lia). cbn [switch mbind res_mbind res_bind].
  assert (0 <= Z.land val 255 < 256).
  { change 255 with (Z.ones 8). rewrite Z.land_ones by lia. apply Z.mod_pos_bound. lia. }
  repeat case_match; eexists; (split; [reflexivity|]); constructor; try assumption; constructor;
    cbn; try assumption; try (apply uwrap_range; lia).
  - unfold in_uw. lia.
  - by rewrite length_insert.
  - apply Forall_insert; [done|]. apply uwrap_range. lia.
Qed.

Lemma pbus_write_total : total_write 0x1000 pbus_write.
Proof.
  intros d a val size Hd Ha _. unfold pbus_write. cbn [switch]. case_match; [|by exists d].
  destruct (pci_set_long_ok (config d) PCI_COMMAND (u32 val)) as (m & -> & Hm);
    [by destruct Hd|done|]. cbn [mbind res_mbind res_bind].
  eexists. split; [reflexivity|]. destruct Hd. by constructor.
Qed.

(** PGRAPH stops the emulator on an unaligned register, a flip chain of length
    zero, a write to the vertex constants and at the end of an RDI range. *)
Definition rdi_select d : Z :=
  PG_GET_MASK (pgraph d) NV_PGRAPH_RDI_INDEX NV_PGRAPH_RDI_INDEX_SELECT.
Definition rdi_address d : Z :=
  PG_GET_MASK (pgraph d) NV_PGRAPH_RDI_INDEX NV_PGRAPH_RDI_INDEX_ADDRESS.
Definition rdi_constants d : bool :=
  (rdi_select d =? RDI_INDEX_VTX_CONSTANTS0) || (rdi_select d =? RDI_INDEX_VTX_CONSTANTS1).

Definition pgraph_write_ok d (a val : Z) : bool :=
  switch a
    [(NV_PGRAPH_INTR, true);
     (NV_PGRAPH_INTR_EN, true);
     (NV_PGRAPH_INCREMENT,
      negb (tst val NV_PGRAPH_INCREMENT_READ_3D)
      || negb (PG_GET_MASK (pgraph d) NV_PGRAPH_SURFACE NV_PGRAPH_SURFACE_MODULO_3D =? 0));
     (NV_PGRAPH_RDI_DATA, negb (rdi_constants d) && (rdi_address d <? 0x7ff));
     (NV_PGRAPH_CHANNEL_CTX_TRIGGER, true)]
    (a mod 4 =? 0).

Lemma reg_w_u32 pg r v : pgraph_wf pg -> is_u32 v -> pgraph_wf (reg_w pg r v).
Proof.
  intros [] Hv. unfold reg_w. case_match; constructor; try assumption; by apply regs_u32_insert.
Qed.

Lemma PG_SET_MASK_wf pg r m v : pgraph_wf pg -> pgraph_wf (PG_SET_MASK pg r m v).
Proof.
  intros Hp. apply reg_w_u32; [done|]. apply SET_MASK_range, regs_u32_reg. apply Hp.
Qed.

Lemma set_pgraph_wf d pg : nv2a_wf d -> pgraph_wf pg -> nv2a_wf (d <| pgraph := pg |>).
Proof. intros [] Hp. by constructor. Qed.

Lemma ack_interrupts_wf pg val : pgraph_wf pg -> pgraph_wf (ack_interrupts pg val).
Proof.
  intros []. unfold ack_interrupts. repeat case_match; constructor; cbn; auto with words.
Qed.

Lemma ctx_read_ok d : nv2a_wf d ->
  exists v, ld_le (ramin d) 4 (Z.shiftl (PG_GET_MASK (pgraph d) NV_PGRAPH_CHANNEL_CTX_POINTER
                                   NV_PGRAPH_CHANNEL_CTX_POINTER_INST) 4) = Ok v
    /\ is_u32 v
    /\ (Z.shiftl (PG_GET_MASK (pgraph d) NV_PGRAPH_CHANNEL_CTX_POINTER
                  NV_PGRAPH_CHANNEL_CTX_POINTER_INST) 4 <? ramin_size d) = true.
Proof.
  intros Hd. unfold PG_GET_MASK.
  pose proof (GET_MASK_range (reg (regs_ (pgraph d)) NV_PGRAPH_CHANNEL_CTX_POINTER)
    NV_PGRAPH_CHANNEL_CTX_POINTER_INST 0 16) as Hr.
  set (x := GET_MASK _ _) in *. clearbody x. rewrite Z.shiftl_mul_pow2 by lia.
  rewrite (nw_ramin_size _ Hd). destruct (ld_le_total (ramin d) 4 (x * 2 ^ 4)) as (v & E & Hv).
  { eapply bytes_valid_sub; [apply (nw_ramin _ Hd)|cbn; lia..]. }
  exists v. split; [done|]. split; [done|]. apply Z.ltb_lt. lia.
Qed.

Lemma pgraph_write_total d a val size : nv2a_wf d -> 0 <= a < 0x2000 ->
  if pgraph_write_ok d a val then exists d', pgraph_write d a val size = Ok d' /\ nv2a_wf d'
  else exists f, pgraph_write d a val size = Fault f.
Proof.
  intros Hd Ha. pose proof (nw_pgraph _ Hd) as Hp. destruct (ctx_read_ok d Hd) as (v & Ev & Hv & Elt).
  unfold pgraph_write, pgraph_write_ok. cbn [switch].
  repeat match goal with |- context [if a =? ?x then _ else _] =>
    lazymatch x with NV_PGRAPH_FIFO => fail | _ => destruct (Z.eqb_spec a x) as [->|] end end;
  cbn [mbind res_mbind res_bind].
  - eexists. split; [reflexivity|]. apply kick_wf, set_pgraph_wf; [done|by apply ack_interrupts_wf].
  - eexists. split; [reflexivity|]. apply set_pgraph_wf; [done|].
    destruct Hp. constructor; cbn; auto with words.
  - unfold flip_next. destruct (tst val _); cbn [negb orb]; [|by eexists].
    destruct (_ =? 0); cbn [negb mbind res_mbind res_bind]; [by eexists|].
    eexists. split; [reflexivity|]. apply kick_wf, set_pgraph_wf; [done|by apply PG_SET_MASK_wf].
  - fold (rdi_select d). fold (rdi_address d). unfold pgraph_rdi_write, rdi_constants. cbn [switch].
    destruct (rdi_select d =? RDI_INDEX_VTX_CONSTANTS0); [by eexists|].
    destruct (rdi_select d =? RDI_INDEX_VTX_CONSTANTS1); [by eexists|].
    cbn [mbind res_mbind res_bind negb andb orb]. unfold rdi_next.
    change (GET_MASK NV_PGRAPH_RDI_INDEX_ADDRESS NV_PGRAPH_RDI_INDEX_ADDRESS) with 0x7ff.
    destruct (rdi_address d <? 0x7ff); [|by eexists].
    eexists. split; [reflexivity|]. apply set_pgraph_wf; [done|by apply PG_SET_MASK_wf].
  - destruct (tst val _); [|by eexists]. rewrite Elt, Ev. eexists. split; [reflexivity|].
    apply set_pgraph_wf; [done|by apply reg_w_u32].
  - unfold pgraph_reg_w. destruct (a mod 4 =? 0); [|by eexists].
    destruct (Z.leb_spec 0 a), (Z.ltb_spec a 0x2000); try lia. cbn [negb andb mbind res_mbind res_bind].
    eexists. split; [reflexivity|].
    assert (nv2a_wf (d <| pgraph := reg_w (pgraph d) a (u32 val) |>)).
    { apply set_pgraph_wf; [done|]. apply reg_w_u32; [done|]. auto with words. }
    case_match; [by apply kick_wf|done].
Qed.

(** USER wants the current DMA channel and one of its three registers. *)
Definition user_write_ok d (a : Z) : bool :=
  user_guard d a
  && switch (Z.land a 0xFFFF) [(NV_USER_DMA_PUT, true); (NV_USER_DMA_GET, true); (NV_USER_REF, true)]
       false.

Lemma user_write_total d a val size : nv2a_wf d ->
  if user_write_ok d a then exists d', user_write d a val size = Ok d' /\ nv2a_wf d'
  else exists f, user_write d a val size = Fault f.
Proof.
  intros Hd. unfold user_write, user_write_ok. destruct (user_guard d a); [|by eexists].
  cbn [switch negb andb].
  repeat case_match; try done; try (by exists AssertFail); eexists; (split; [reflexivity|]);
    apply kick_wf; wf_tac Hd.
Qed.

Definition user_block : NV2ABlockInfo := ENTRY 0x800000 0x800000 user_read user_write.

Lemma table_total b : b ∈ regions ->
  b = pgraph_block \/ b = user_block \/ total_write (bi_size b) (bi_write b).
Proof.
  destruct switch_writes_total as (? & ? & ? & ? & ? & ? & ? & ?).
  destruct register_writes_total as (? & ? & ?).
  pose proof pramdac_write_total. pose proof prmdio_write_total. pose proof pbus_write_total.
  pose proof ramin_write_total.
  revert b. apply Forall_forall. unfold regions, blocktable. cbn [app].
  repeat (apply Forall_cons_2; [first [left; reflexivity | right; left; reflexivity
    | right; right; cbn [bi_size bi_write ENTRY]; assumption]|]).
  constructor.
Qed.

(** The accesses that stop the emulator. *)
Definition mmio_write_ok d (a val : Z) : bool :=
  if in_block a pgraph_block then pgraph_write_ok d (a - 0x400000) val
  else if in_block a user_block then user_write_ok d (a - 0x800000)
  else true.

Lemma in_block_iff a b : Is_true (in_block a b) <-> bi_offset b <= a < bi_offset b + bi_size b.
Proof. unfold in_block. rewrite andb_True, !Is_true_true, Z.leb_le, Z.ltb_lt. done. Qed.

(** No other block overlaps these two. *)
Ltac find_block :=
  unfold block_at, regions, blocktable; cbn [app];
  repeat (rewrite filter_cons;
    first [rewrite decide_False by (rewrite in_block_iff; cbn [bi_offset bi_size ENTRY]; lia)
          | rewrite decide_True by (rewrite in_block_iff; cbn [bi_offset bi_size ENTRY]; lia);
            reflexivity]).

Lemma block_at_pgraph a : 0x400000 <= a < 0x402000 -> block_at a = Some pgraph_block.
Proof. intros. find_block. Qed.

Lemma block_at_user a : 0x800000 <= a < 0x1000000 -> block_at a = Some user_block.
Proof. intros. find_block. Qed.

(** The regions start at multiples of every access size. *)
Lemma aligned_region a size b : aligned a size -> b ∈ regions -> aligned (a - bi_offset b) size.
Proof.
  intros [Hsz Hm] Hb. split; [done|].
  assert (bi_offset b mod size = 0) as Ho.
  { clear -Hb Hsz. revert b Hb. apply Forall_forall. unfold regions, blocktable. cbn [app].
    repeat (apply Forall_cons_2; [cbn [bi_offset ENTRY]; destruct Hsz as [->|[->| ->]]; reflexivity|]).
    constructor. }
  rewrite Zminus_mod, Hm, Ho. done.
Qed.

(** C17. The guest can write anywhere: an aligned write of 1, 2 or 4 bytes to any address of
    the register BAR, of any value, either returns with the device invariant kept or, exactly in the cases
    of [mmio_write_ok], stops the emulator (a USER write outside the current DMA
    channel, an unaligned PGRAPH register, the end of an RDI range, a flip increment
    with a chain of length zero). *)
Theorem mmio_write_total d a val size : nv2a_wf d -> aligned a size ->
  if mmio_write_ok d a val then exists d', mmio_write d a val size = Ok d' /\ nv2a_wf d'
  else exists f, mmio_write d a val size = Fault f.
Proof.
  intros Hd Hal. unfold mmio_write_ok.
  destruct (in_block a pgraph_block) eqn:Ep.
  { apply Is_true_true, in_block_iff in Ep. cbn in Ep. unfold mmio_write.
    rewrite block_at_pgraph by done. apply pgraph_write_total; [done|cbn; lia]. }
  destruct (in_block a user_block) eqn:Eu.
  { apply Is_true_true, in_block_iff in Eu. cbn in Eu. unfold mmio_write.
    rewrite block_at_user by done. by apply user_write_total. }
  unfold mmio_write. destruct (block_at a) as [b|] eqn:Eb; [|by exists d].
  apply block_at_in in Eb as [Hb Hin]. destruct (table_total b Hb) as [->|[->|Ht]].
  - by rewrite Ep in Hin.
  - by rewrite Eu in Hin.
  - apply in_block_iff in Hin. apply Ht; [done|lia|]. by apply aligned_region.
Qed.

(** ** Reads *)

Definition total_read (n : Z) (r : Z -> option Z -> NV2AState X -> Z -> Z -> res (NV2AState X * Z))
  : Prop :=
  forall now straps d a size, nv2a_wf d -> 0 <= a < n -> aligned a size ->
  exists d' v, r now straps d a size = Ok (d', v) /\ nv2a_wf d'.

Lemma ext_wf d x : nv2a_wf d -> nv2a_wf (d <| ext := x |>).
Proof. intros []. by constructor. Qed.

(** The shift of a PRAMDAC read is in range for the accesses that are let through. *)
Lemma pramdac_shift a size r : aligned a size ->
  shr64 r (32 - 8 * size - 8 * Z.land a 3) = Ok (Z.shiftr r (32 - 8 * size - 8 * Z.land a 3)).
Proof.
  intros [Hs Ha]. unfold shr64. change 3 with (Z.ones 2). rewrite Z.land_ones by lia.
  change (2 ^ 2) with 4.
  assert (0 <= 32 - 8 * size - 8 * (a mod 4) < 64) as Hr.
  { destruct Hs as [->|[->| ->]]; dlia. }
  destruct (Z.leb_spec 0 (32 - 8 * size - 8 * (a mod 4))),
    (Z.ltb_spec (32 - 8 * size - 8 * (a mod 4)) 64); (lia || done).
Qed.

Ltac read_done Hd := do 2 eexists; (split; [reflexivity|]); first [exact Hd | by apply ext_wf].

Lemma plain_reads_total n :
  total_read n (fun _ _ => pmc_read) /\ total_read n (fun _ _ => prmvio_read)
  /\ total_read n (fun _ _ => prmcio_read) /\ total_read n (fun _ _ => prmdio_read)
  /\ total_read n (fun _ _ => pramdac_read) /\ total_read n (fun _ _ => stub_read)
  /\ total_read n (fun _ straps => pstraps_read straps).
Proof.
  unfold pmc_read, prmvio_read, prmcio_read, prmdio_read, pramdac_read, stub_read, pstraps_read.
  split_and!; intros now straps d a size Hd Ha Hal; rewrite ?pramdac_shift by done;
    cbn [mbind res_mbind res_bind]; try (destruct (vga_ioport_read _ _)); read_done Hd.
Qed.

Lemma register_reads_total :
  total_read 0x2000 (fun _ _ => pfifo_read) /\ total_read 0x1000 (fun _ _ => pvideo_read)
  /\ total_read 0x1000 (fun _ _ => pfb_read).
Proof.
  unfold pfifo_read, pvideo_read, pfb_read.
  split_and!; intros now straps d a size Hd Ha Hal; rewrite reg_read_ok by lia; cbn [switch];
    repeat case_match; read_done Hd.
Qed.

Lemma pbus_read_total : total_read 0x1000 (fun _ _ => pbus_read).
Proof.
  intros now straps d a size Hd Ha Hal. unfold pbus_read. cbn [switch].
  assert (forall k, 0 <= k <= 252 -> exists v, ld_le (config d) 4 k = Ok v) as Hl.
  { intros k Hk. destruct (ld_le_total (config d) 4 k) as (v & E & _); [|by exists v].
    eapply bytes_valid_sub; [apply (nw_config _ Hd)|cbn; lia..]. }
  destruct (Hl PCI_VENDOR_ID) as [v1 ->]; [done|]. destruct (Hl PCI_COMMAND) as [v2 ->]; [done|].
  destruct (Hl PCI_CLASS_REVISION) as [v3 ->]; [done|]. repeat case_match; read_done Hd.
Qed.

Lemma pcrtc_read_total : total_read 0x1000 (fun _ _ => pcrtc_read).
Proof.
  intros now straps d a size Hd Ha Hal. unfold pcrtc_read. cbn [switch].
  repeat case_match; do 2 eexists; (split; [reflexivity|]); try exact Hd. wf_tac Hd.
Qed.

Lemma ramin_read_total : total_read 0x100000 (fun _ _ => ramin_read).
Proof.
  intros now straps d a size Hd Ha Hal. unfold ramin_read.
  pose proof (aligned_end a size _ Hal Ha eq_refl) as He.
  assert (0 <= size) by (destruct Hal as [[->|[->| ->]] _]; lia).
  destruct (ld_le_total (ramin d) (Z.to_nat size) a) as (v & -> & _);
    [eapply bytes_valid_sub; [apply (nw_ramin _ Hd)|lia..]|]. read_done Hd.
Qed.

Definition pgraph_read_ok d (a : Z) : bool :=
  switch a
    [(NV_PGRAPH_INTR, true);
     (NV_PGRAPH_INTR_EN, true);
     (NV_PGRAPH_RDI_DATA, rdi_constants d && (rdi_address d / 4 <? NV2A_VERTEXSHADER_CONSTANTS))]
    (a mod 4 =? 0).

Lemma rdi_constant_ok pg a : pgraph_wf pg -> 0 <= a ->
  if a / 4 <? NV2A_VERTEXSHADER_CONSTANTS then exists v, rdi_constant pg a = Ok v
  else exists f, rdi_constant pg a = Fault f.
Proof.
  intros Hp Ha. unfold rdi_constant. unfold NV2A_VERTEXSHADER_CONSTANTS.
  destruct (Z.ltb_spec (a / 4) 192) as [Hlt|]; [|by eexists]. cbn [negb].
  destruct (lookup_lt_is_Some_2 (vsh_constants pg) (Z.to_nat (a / 4))) as [row Hrow].
  { rewrite (pgw_rows _ Hp). dlia. }
  rewrite Hrow. destruct (Forall_lookup_1 _ _ _ _ (pgw_row _ Hp) Hrow) as [Hl _].
  unfold buf_at. destruct (lookup_lt_is_Some_2 row (Z.to_nat (3 - a mod 4))) as [v ->]; [|by exists v].
  rewrite Hl. dlia.
Qed.

Lemma pgraph_read_total d a size : nv2a_wf d -> 0 <= a < 0x2000 ->
  if pgraph_read_ok d a then exists d' v, pgraph_read d a size = Ok (d', v) /\ nv2a_wf d'
  else exists f, pgraph_read d a size = Fault f.
Proof.
  intros Hd Ha. pose proof (nw_pgraph _ Hd) as Hp. unfold pgraph_read, pgraph_read_ok. cbn [switch].
  destruct (a =? NV_PGRAPH_INTR); [by do 2 eexists|].
  destruct (a =? NV_PGRAPH_INTR_EN); [by do 2 eexists|].
  destruct (a =? NV_PGRAPH_RDI_DATA).
  - fold (rdi_select d). fold (rdi_address d). unfold pgraph_rdi_read, rdi_constants. cbn [switch].
    assert (0 <= rdi_address d < 2 ^ 11) as Hr by (apply (GET_MASK_range _ _ 2 11)).
    pose proof (rdi_constant_ok (pgraph d) (rdi_address d) Hp ltac:(lia)) as Hc.
    destruct (rdi_select d =? RDI_INDEX_VTX_CONSTANTS0), (rdi_select d =? RDI_INDEX_VTX_CONSTANTS1);
      cbn [orb andb]; try (by eexists);
      unfold NV2A_VERTEXSHADER_CONSTANTS in *; destruct (Z.ltb_spec (rdi_address d / 4) 192);
      destruct Hc as [v ->]; cbn [mbind res_mbind res_bind]; try (by eexists);
      unfold rdi_next; change (GET_MASK NV_PGRAPH_RDI_INDEX_ADDRESS _) with 0x7ff;
      (destruct (Z.ltb_spec (rdi_address d) 0x7ff); [|dlia]); do 2 eexists;
      (split; [reflexivity|]); (apply set_pgraph_wf; [done|by apply PG_SET_MASK_wf]).
  - unfold pgraph_reg_r. destruct (a mod 4 =? 0); [|by eexists].
    cbn [negb]. rewrite reg_read_ok by lia. by do 2 eexists.
Qed.

(** The clock divides by the numerator. *)
Definition ptimer_read_ok d (a : Z) : bool :=
  switch a [(NV_PTIMER_TIME_0, negb (numerator (ptimer d) =? 0));
            (NV_PTIMER_TIME_1, negb (numerator (ptimer d) =? 0))] true.

Lemma ptimer_clock_ok now d : nv2a_wf d ->
  if numerator (ptimer d) =? 0 then ptimer_get_clock d now = Fault DivByZero
  else exists c, ptimer_get_clock d now = Ok c.
Proof.
  intros Hd. unfold ptimer_get_clock, muldiv64. cbn [mbind res_mbind res_bind].
  rewrite (uwrap_small 32 (numerator _)) by apply (nw_ptimer _ Hd).
  case_match; [done|by eexists].
Qed.

Lemma ptimer_read_total now d a size : nv2a_wf d ->
  if ptimer_read_ok d a then exists d' v, ptimer_read now d a size = Ok (d', v) /\ nv2a_wf d'
  else exists f, ptimer_read now d a size = Fault f.
Proof.
  intros Hd. pose proof (ptimer_clock_ok now d Hd) as Hc.
  unfold ptimer_read, ptimer_read_ok. cbn [switch].
  repeat match goal with |- context [if a =? ?x then _ else _] => destruct (Z.eqb_spec a x) as [->|] end;
    cbn [mbind res_mbind res_bind]; try done; try read_done Hd;
    (destruct (numerator (ptimer d) =? 0); [rewrite Hc; by eexists|];
     destruct Hc as [c ->]; read_done Hd).
Qed.

Lemma user_read_total d a size : nv2a_wf d ->
  if user_guard d a then exists d' v, user_read d a size = Ok (d', v) /\ nv2a_wf d'
  else exists f, user_read d a size = Fault f.
Proof. intros Hd. unfold user_read. destruct (user_guard d a); [read_done Hd|by eexists]. Qed.

Definition ptimer_block : NV2ABlockInfo :=
  {| bi_offset := 0x009000; bi_size := 0x001000;
     bi_read := fun now _ => ptimer_read now; bi_write := ptimer_write |}.

Lemma table_read_total b : b ∈ regions ->
  b = pgraph_block \/ b = user_block \/ b = ptimer_block \/ total_read (bi_size b) (bi_read b).
Proof.
  destruct (plain_reads_total 0x1000) as (? & ? & ? & ? & ? & ? & ?).
  destruct (plain_reads_total 0x20000) as (_ & _ & _ & _ & _ & ? & _).
  destruct register_reads_total as (? & ? & ?).
  pose proof pbus_read_total. pose proof pcrtc_read_total. pose proof ramin_read_total.
  revert b. apply Forall_forall. unfold regions, blocktable. cbn [app].
  repeat (apply Forall_cons_2; [first [left; reflexivity | right; left; reflexivity
    | right; right; left; reflexivity
    | right; right; right; cbn [bi_size bi_read ENTRY]; assumption]|]).
  constructor.
Qed.

Lemma block_at_ptimer a : 0x009000 <= a < 0x00a000 -> block_at a = Some ptimer_block.
Proof. intros. find_block. Qed.

Definition mmio_read_ok d (a : Z) : bool :=
  if in_block a pgraph_block then pgraph_read_ok d (a - 0x400000)
  else if in_block a user_block then user_guard d (a - 0x800000)
  else if in_block a ptimer_block then ptimer_read_ok d (a - 0x009000)
  else true.

(** The memory core cuts the result to the size of the access. *)
Lemma read_bind (ok : bool) (r : res (NV2AState X * Z)) size : 0 <= size ->
  (if ok then exists d' v, r = Ok (d', v) /\ nv2a_wf d' else exists f, r = Fault f) ->
  if ok then exists d' v, ('(d, v) ← r; Ok (d, uwrap (8 * size) v)) = Ok (d', v)
                          /\ nv2a_wf d' /\ in_uw (8 * size) v
  else exists f, ('(d, v) ← r; Ok (d, uwrap (8 * size) v)) = Fault f.
Proof.
  intros Hs Hr. destruct ok.
  - destruct Hr as (d' & v & -> & Hw). do 2 eexists. split; [reflexivity|]. split; [done|].
    apply uwrap_range. lia.
  - destruct Hr as [f ->]. by eexists.
Qed.

(** C18. The guest can read anywhere: an aligned read of 1, 2 or 4 bytes of the register
    BAR returns a value of that size with the device invariant kept, or stops the
    emulator exactly in the cases of [mmio_read_ok] (an unaligned or unknown PGRAPH
    register, a USER read outside the current DMA channel, the PTIMER time while its
    numerator is zero). *)
Theorem mmio_read_total now straps d a size : nv2a_wf d -> aligned a size ->
  if mmio_read_ok d a
  then exists d' v, mmio_read now straps d a size = Ok (d', v) /\ nv2a_wf d' /\ in_uw (8 * size) v
  else exists f, mmio_read now straps d a size = Fault f.
Proof.
  intros Hd Hal. assert (0 <= size) as Hs by (destruct Hal as [[->|[->| ->]] _]; lia).
  unfold mmio_read_ok.
  destruct (in_block a pgraph_block) eqn:Ep.
  { apply Is_true_true, in_block_iff in Ep. cbn in Ep. unfold mmio_read.
    rewrite block_at_pgraph by done. apply read_bind, pgraph_read_total; [done|done|cbn; lia]. }
  destruct (in_block a user_block) eqn:Eu.
  { apply Is_true_true, in_block_iff in Eu. cbn in Eu. unfold mmio_read.
    rewrite block_at_user by done. by apply read_bind, user_read_total. }
  destruct (in_block a ptimer_block) eqn:Et.
  { apply Is_true_true, in_block_iff in Et. cbn in Et. unfold mmio_read.
    rewrite block_at_ptimer by done. by apply read_bind, ptimer_read_total. }
  unfold mmio_read. destruct (block_at a) as [b|] eqn:Eb.
  2: { exists d, 0. split; [done|]. split; [done|]. unfold in_uw. lia. }
  apply block_at_in in Eb as [Hb Hin]. destruct (table_read_total b Hb) as [->|[->|[->|Ht]]].
  - by rewrite Ep in Hin.
  - by rewrite Eu in Hin.
  - by rewrite Et in Hin.
  - apply (read_bind true); [done|]. apply in_block_iff in Hin. apply Ht; [done|lia|].
    by apply aligned_region.
Qed.

(** ** Vertical blank and reset *)

(** C27. The vertical blank raises the interrupt: it marks the PCRTC interrupt pending
    and restarts the raster counter with the tree coherent, so that with the VBLANK
    and any PMC interrupt enabled the PCI line is up; until then, whatever happened to
    the device before, the line says what the PMC says. *)
Theorem vblank_irq d : nv2a_wf d ->
  let d' := nv2a_vga_gfx_update d in
  nv2a_wf d' /\ irq_coherent d' /\ raster (pcrtc d') = 0
  /\ tst (pcrtc_pending (pcrtc d')) NV_PCRTC_INTR_0_VBLANK = true
  /\ (tst (pcrtc_enabled (pcrtc d)) NV_PCRTC_INTR_0_VBLANK = true -> pmc_enabled (pmc d) <> 0 ->
      irq d' = true).
Proof.
  intros Hd d'. assert (Hc : irq_coherent d') by apply update_irq_coherent.
  assert (Hp : forall i, 0 <= i -> Z.testbit (pcrtc_pending (pcrtc d')) i
                = (Z.testbit (pcrtc_pending (pcrtc d)) i || Z.testbit 1 i)).
  { intros i Hi. apply Z.lor_spec. }
  assert (Hv : tst (pcrtc_pending (pcrtc d')) NV_PCRTC_INTR_0_VBLANK = true).
  { change NV_PCRTC_INTR_0_VBLANK with (2 ^ 0). rewrite tst_bit, Hp by lia. apply orb_true_r. }
  split_and!; try done.
  - apply update_irq_wf. destruct Hd as [? ? ? ? ? ? [] ? ? ? ? ?]. constructor; try assumption.
    constructor; cbn; try done. by apply lor_range.
  - intros He Hm. rewrite (ic_line _ Hc). change (pmc_enabled (pmc d')) with (pmc_enabled (pmc d)).
    apply andb_true_iff. split; apply negb_true_iff, Z.eqb_neq; [|done].
    intros E0. pose proof (ic_pcrtc _ Hc) as Hb. rewrite E0 in Hb. unfold tst at 1 in Hb.
    rewrite Z.land_0_l in Hb. symmetry in Hb. apply negb_false_iff, Z.eqb_eq in Hb.
    apply (f_equal (fun z => Z.testbit z 0)) in Hb. rewrite Z.land_spec, Hp, Z.bits_0 in Hb by lia.
    change NV_PCRTC_INTR_0_VBLANK with (2 ^ 0) in He. rewrite tst_bit in He by lia.
    change (pcrtc_enabled (pcrtc d')) with (pcrtc_enabled (pcrtc d)) in Hb.
    rewrite He, orb_true_r in Hb. done.
Qed.

Lemma reset_palette_wf : length reset_palette = 768%nat /\ Forall is_u8 reset_palette.
Proof.
  split; [reflexivity|]. apply Forall_forall. intros x. unfold reset_palette.
  rewrite list_elem_of_bind. intros (i & Hx & Hi%elem_of_zseq). unfold in_uw. set_solver by lia.
Qed.

(** C35. Reset puts the registers in range but leaves the interrupt line alone: pending
    interrupts of the PMC, the PFIFO, the PTIMER and the PCRTC are gone; those of the PGRAPH, the
    interrupt enables of all five units and the level of the PCI line are what they were. *)
Theorem reset_interrupts d : nv2a_wf d ->
  let d' := nv2a_reset d in
  nv2a_wf d' /\ pmc_pending (pmc d') = 0 /\ pfifo_pending (pfifo d') = 0
  /\ ptimer_pending (ptimer d') = 0 /\ pcrtc_pending (pcrtc d') = 0
  /\ pg_pending (pgraph d') = pg_pending (pgraph d)
  /\ pmc_enabled (pmc d') = pmc_enabled (pmc d) /\ pfifo_enabled (pfifo d') = pfifo_enabled (pfifo d)
  /\ ptimer_enabled (ptimer d') = ptimer_enabled (ptimer d)
  /\ pcrtc_enabled (pcrtc d') = pcrtc_enabled (pcrtc d)
  /\ pg_enabled (pgraph d') = pg_enabled (pgraph d) /\ irq d' = irq d.
Proof.
  intros [[] [] ? [] ? [] [] Hp [] ? ? ?]. cbv zeta. split_and!; try done.
  destruct reset_palette_wf as [Hl Hb]. constructor; try assumption; try by constructor.
  - constructor; try done. by apply (regs_u32_insert ∅).
  - unfold pramdac_wf in *. rewrite !Forall_cons in *. cbn. unfold in_uw in *. intuition lia.
Qed.

End Device.

End Nv2a.
