(* ===== verification/PgraphInvariant.v ===== *)
(** * The invariant of PGRAPH

    The sizes of the arrays and the bounds of the counts hold in every state the guest can
    bring about: by words of the push buffer, sent one by one or in bursts to any of the
    graphics classes, by context switches, and by reads and writes of the registers. *)

From S2P Require Import Prelude Nv2aRegs Nv2aState Float32 Vertex Pgraph Kelvin KelvinTable.
From S2P Require Import KelvinBatch KelvinSafety Nv2aBlocks Pfifo Nv2a.
Import Nv2aState Vertex Pgraph Kelvin KelvinTable KelvinBatch KelvinSafety Nv2aBlocks Pfifo Nv2a.

Module PgraphInvariant.

Section Invariant.
Context {X : Type} `{VgaOps X} `{RendererSafe X} `{VshSafe}.
Implicit Types d : NV2AState X.

(** ** Initialisation *)

(** Every object of QEMU starts zeroed. *)
Definition zero_attribute : VertexAttribute := {|
  dma_select := false; attr_offset := 0; inline_value := [0; 0; 0; 0]; attr_format := 0;
  attr_size := 0; attr_count := 0; attr_stride := 0; inline_buffer := ∅;
  inline_buffer_populated := false |}.
Definition zero_surface : Surface := {|
  buffer_dirty := false; write_enabled_cache := false; surf_pitch := 0; surf_offset := 0 |}.
Definition zero_shape : SurfaceShape := {|
  shape_z_format := 0; shape_color_format := 0; shape_zeta_format := 0; log_width := 0;
  log_height := 0; clip_x := 0; clip_y := 0; clip_width := 0; clip_height := 0;
  anti_aliasing := 0 |}.
Definition zero_rows (n m : nat) : list (list Z) := repeat (repeat 0 m) n.

Definition pgraph_zero : PGRAPHState := {|
  pg_pending := 0; pg_enabled := 0; frame_time := 0;
  context_surfaces_2d := Build_ContextSurfaces2DState 0 0 0 0 0 0 0 0;
  image_blit := Build_ImageBlitState 0 0 0 0 0 0 0 0 0;
  kelvin_object_instance := 0; beta_state := Build_BetaState 0 0; dma_color := 0; dma_zeta := 0;
  surface_color := zero_surface; surface_zeta := zero_surface; surface_type := 0;
  surface_shape := zero_shape; dma_a := 0; dma_b := 0; texture_dirty := repeat false 4;
  texture_matrix_enable := repeat false 4; dma_state := 0; dma_notifies := 0; dma_semaphore := 0;
  dma_report := 0; zpass_pixel_count_enable := false; dma_vertex_a := 0; dma_vertex_b := 0;
  primitive_mode := 0; enable_vertex_program_write := false; vertex_state_shader_v0 := repeat 0 4;
  program_data := zero_rows 136 4; program_data_dirty := false; vsh_constants := zero_rows 192 4;
  vsh_constants_dirty := repeat false 192; ltctxa := zero_rows 26 4;
  ltctxa_dirty := repeat false 26; ltctxb := zero_rows 52 4; ltctxb_dirty := repeat false 52;
  ltc1 := zero_rows 20 4; ltc1_dirty := repeat false 20; material_alpha := 0;
  light_infinite_half_vector := zero_rows 8 3; light_infinite_direction := zero_rows 8 3;
  light_local_position := zero_rows 8 3; light_local_attenuation := zero_rows 8 3;
  specular_params := repeat 0 6; specular_power := 0; specular_params_back := repeat 0 6;
  specular_power_back := 0; point_params := repeat 0 8;
  vertex_attributes := repeat zero_attribute 16; compressed_attrs := 0; inline_array_length := 0;
  inline_array := ∅; inline_elements_length := 0; inline_elements := ∅; inline_buffer_length := 0;
  draw_arrays_length := 0; draw_arrays_min_start := 0; draw_arrays_max_count := 0;
  draw_arrays_start := ∅; draw_arrays_count := ∅; draw_arrays_prevent_connect := false;
  regs_ := ∅; regs_dirty := ∅; waiting_for_nop := false; waiting_for_flip := false;
  waiting_for_context_switch := false |}.

(** [pgraph_init], without the locks and events; [junk] is what [g_malloc] finds in the
    buffers. *)
Definition pgraph_init (junk : regfile) (pg : PGRAPHState) : PGRAPHState :=
  let pg := pg <| frame_time := 0 |> <| material_alpha := 0 |> in
  let pg := PG_SET_MASK pg NV_PGRAPH_CONTROL_3 NV_PGRAPH_CONTROL_3_SHADEMODE
              NV_PGRAPH_CONTROL_3_SHADEMODE_SMOOTH in
  let pg := pg <| primitive_mode := PRIM_TYPE_INVALID |> in
  let pg := pg <| vertex_attributes ::=
              fmap (fun a => a <| inline_buffer := junk |> <| inline_buffer_populated := false |>) |> in
  pg <| regs_dirty := ∅ |>.

Lemma zero_rows_matrix n m : matrix n m (zero_rows n m).
Proof.
  split; [apply repeat_length|]. apply Forall_forall. intros r Hr%list_elem_of_In%repeat_spec.
  subst. apply repeat_length.
Qed.

Lemma pgraph_zero_wf : kelvin_wf pgraph_zero.
Proof.
  unfold kelvin_wf. split_and!; try apply zero_rows_matrix; try reflexivity; try done.
  - apply Forall_forall. by intros a ->%list_elem_of_In%repeat_spec.
  - intros i Hi. cbn in Hi. lia.
  - by left.
Qed.

Lemma pgraph_init_wf junk : kelvin_wf (pgraph_init junk pgraph_zero).
Proof.
  unfold pgraph_init. cbv zeta.
  assert (forall pg f, kelvin_wf pg -> (forall a, inline_value (f a) = inline_value a) ->
    kelvin_wf (pg <| vertex_attributes ::= fmap f |> <| regs_dirty := ∅ |>)) as Hf.
  { intros pg f Hw Hv. wf_update.
    - change (length (f <$> vertex_attributes pg) = 16%nat). by rewrite length_fmap.
    - change (Forall (fun a => length (inline_value a) = 4%nat) (f <$> vertex_attributes pg)).
      apply Forall_fmap. eapply Forall_impl; [eassumption|]. intros a Ha. cbn. by rewrite Hv. }
  apply Hf; [|done]. assert (forall pg v, kelvin_wf pg -> kelvin_wf (pg <| primitive_mode := v |>))
    as Hp by done. apply Hp, set_mask_wf. apply pgraph_zero_wf.
Qed.

(** ** The registers *)

Definition rwf (r : res (NV2AState X)) : Prop :=
  match r with Ok d => kelvin_wf (pgraph d) | Fault _ => True end.
Definition rwf2 {B} (r : res (NV2AState X * B)) : Prop :=
  match r with Ok (d, _) => kelvin_wf (pgraph d) | Fault _ => True end.

Lemma rwf_Ok r d : rwf r -> r = Ok d -> kelvin_wf (pgraph d).
Proof. by intros Hr ->. Qed.

Lemma rwf_bind r k : rwf r -> (forall d, kelvin_wf (pgraph d) -> rwf (k d)) -> rwf (r ≫= k).
Proof. destruct r; cbn; auto. Qed.

Lemma rwf2_bind {B} r (k : NV2AState X -> res (NV2AState X * B)) : rwf r -> (forall d, kelvin_wf (pgraph d) -> rwf2 (k d)) -> rwf2 (r ≫= k).
Proof. destruct r; cbn; auto. Qed.

Lemma rwf2_bind2 {A B} (r : res (NV2AState X * A)) (k : NV2AState X * A -> res (NV2AState X * B)) :
  rwf2 r -> (forall d a, kelvin_wf (pgraph d) -> rwf2 (k (d, a))) -> rwf2 (r ≫= k).
Proof. destruct r as [[]|]; cbn; auto. Qed.

Lemma rwf2_any {A B} (r : res A) (k : A -> res (NV2AState X * B)) :
  (forall a, rwf2 (k a)) -> rwf2 (r ≫= k).
Proof. destruct r; cbn; auto. Qed.

Lemma rwf_any {A} (r : res A) k : (forall a, rwf (k a)) -> rwf (r ≫= k).
Proof. destruct r; cbn; auto. Qed.

Lemma rwf_pg (r : res PGRAPHState) (k : PGRAPHState -> NV2AState X) :
  match r with Ok pg => kelvin_wf (pgraph (k pg)) | Fault _ => True end -> rwf (pg ← r; Ok (k pg)).
Proof. by destruct r. Qed.

Lemma flip_next_wf pg field pg' : kelvin_wf pg -> flip_next pg field = Ok pg' -> kelvin_wf pg'.
Proof. intros Hw. unfold flip_next. cbv zeta. case_match; [done|]. intros [= <-]. by apply set_mask_wf. Qed.

Lemma rdi_next_wf pg a pg' : kelvin_wf pg -> rdi_next pg a = Ok pg' -> kelvin_wf pg'.
Proof. intros Hw. unfold rdi_next. case_match; [done|]. intros [= <-]. by apply set_mask_wf. Qed.

Lemma ack_wf pg val : kelvin_wf pg -> kelvin_wf (ack_interrupts pg val).
Proof. intros Hw. unfold ack_interrupts. cbv zeta. destruct (tst _ _), (tst _ _); exact Hw. Qed.

Lemma rdi_write_wf pg s a v pg' : kelvin_wf pg -> pgraph_rdi_write pg s a v = Ok pg' -> kelvin_wf pg'.
Proof.
  intros Hw. unfold pgraph_rdi_write. apply (switch_ind (fun r => r = Ok pg' -> kelvin_wf pg'));
    [repeat constructor; done|]. by intros [= <-].
Qed.

Lemma pgraph_reg_w_wf pg r v pg' : kelvin_wf pg -> pgraph_reg_w pg r v = Ok pg' -> kelvin_wf pg'.
Proof. intros Hw. unfold pgraph_reg_w. repeat case_match; try done. intros [= <-]. by apply reg_w_wf. Qed.

Lemma pgraph_write_wf d a v size : kelvin_wf (pgraph d) -> rwf (pgraph_write d a v size).
Proof.
  intros Hw. unfold pgraph_write. cbv zeta. apply rwf_bind; [|by intros d1 Hw1; case_match].
  apply (switch_ind rwf); [repeat apply Forall_cons_2; [..|by apply Forall_nil_2]; cbn [snd]; intros _|].
  - by apply ack_wf.
  - done.
  - case_match; [|done]. apply rwf_pg. destruct (flip_next _ _) eqn:E; [|done].
    by eapply flip_next_wf.
  - destruct (pgraph_rdi_write _ _ _ _) as [pg1|] eqn:E1; [|done]. cbn [mbind res_mbind res_bind].
    destruct (rdi_next pg1 _) as [pg2|] eqn:E2; [|done].
    eapply rdi_next_wf, E2. by eapply rdi_write_wf.
  - case_match; [|done]. case_match; [done|]. apply rwf_any. intros u. by apply reg_w_wf.
  - apply rwf_pg. destruct (pgraph_reg_w _ _ _) eqn:E; [|done]. by eapply pgraph_reg_w_wf.
Qed.

Lemma pgraph_read_wf d a size : kelvin_wf (pgraph d) -> rwf2 (pgraph_read d a size).
Proof.
  intros Hw. unfold pgraph_read. cbv zeta.
  apply (switch_ind rwf2); [repeat apply Forall_cons_2; [..|by apply Forall_nil_2]; cbn [snd]; intros _|].
  - done.
  - done.
  - destruct (pgraph_rdi_read _ _ _); [|done]. cbn [mbind res_mbind res_bind].
    destruct (rdi_next _ _) eqn:E; [|done]. by eapply rdi_next_wf.
  - by destruct (pgraph_reg_r _ _).
Qed.

Lemma context_switch_wf d c : kelvin_wf (pgraph d) -> rwf (pgraph_context_switch d c).
Proof.
  intros Hw. unfold pgraph_context_switch. cbv zeta. case_match; [done|].
  case_match; [done|]. unfold rwf. rewrite pgraph_irq, pgraph_set. by apply set_mask_wf.
Qed.

(** ** Words and bursts *)

Lemma handler_wf k d s m p : kelvin_wf (pgraph d) -> METHOD_ADDR k <= m < METHOD_RANGE_END k ->
  rwf (method_handler (method_func k) d s m p).
Proof.
  intros Hw Hm. pose proof (method_good k d s m p Hw Hm) as Hg. unfold rwf.
  by destruct (method_handler _ _ _ _ _).
Qed.

(** The words of a burst stay in the range of the handler. *)
Lemma method_loop_wf k n step d s m a : kelvin_wf (pgraph d) -> 0 <= step ->
  METHOD_ADDR k <= m -> (n <> 0%nat -> m + step * (Z.of_nat n - 1) < METHOD_RANGE_END k) ->
  rwf (method_loop (method_handler (method_func k)) n step d s m a).
Proof.
  intros Hw Hs. induction n as [|n IH] in d, m, a, Hw |- *; intros Hm He; [done|].
  cbn [method_loop]. apply rwf_any. intros p. apply rwf_bind.
  - apply handler_wf; [done|]. split; [done|]. specialize (He ltac:(done)). nia.
  - intros d1 Hw1. apply IH; [done|lia|]. intros Hn. specialize (He ltac:(done)). nia.
Qed.

Lemma run_method_wf k d s m p a n inc : kelvin_wf (pgraph d) ->
  METHOD_ADDR k <= m < METHOD_RANGE_END k -> METHOD_RANGE_END k <= 0x2000 -> 0 <= METHOD_ADDR k ->
  rwf2 (run_method (method_func k) d s m p a n inc).
Proof.
  intros Hw Hm He Ha. pose proof (handler_wf k d s m p Hw Hm) as Hh.
  assert (forall r (n : Z), rwf r -> rwf2 (d ← r; Ok (d, n))) as Hr by (intros r n' Hr; by destruct r).
  pose proof (method_loop_wf k) as Hl. pose proof (inc_end k) as Hend.
  destruct (method_func k) as [h|e h|h]; cbn [run_method method_handler] in *.
  - by apply Hr.
  - unfold pgraph_method_inc. destruct inc; [|by apply Hr]. cbn [negb]. cbv zeta. apply Hr, Hl; [done|lia..|].
    intros _. rewrite (Hend e h eq_refl), uwrap_id by lia.
    destruct (Z.le_gt_cases n 0); [|dlia].
    pose proof (Z.le_min_l n ((METHOD_RANGE_END k - m) / 4)). lia.
  - unfold pgraph_method_non_inc. destruct inc; [by apply Hr|]. cbv zeta. apply Hr, Hl; [done|lia..].
Qed.

(** The ranges of the table lie in the 8 KiB of methods. *)
Lemma method_limits k : 0 <= METHOD_ADDR k /\ METHOD_RANGE_END k <= 0x2000.
Proof.
  assert ((0 <=? METHOD_ADDR k) && (METHOD_RANGE_END k <=? 0x2000) = true) as Hl
    by (destruct k; vm_compute; reflexivity).
  by apply andb_true_iff in Hl as [?%Z.leb_le ?%Z.leb_le].
Qed.

Lemma kelvin_dispatch_wf d s m p a n l inc : kelvin_wf (pgraph d) -> 0 <= m < 0x2000 ->
  rwf2 (kelvin_dispatch d s m p a n l inc).
Proof.
  intros Hw Hm. unfold kelvin_dispatch. destruct (negb _); [done|].
  destruct (kelvin_method (Z.shiftr m 2)) as [f|] eqn:Ef; [|done].
  destruct (kelvin_method_Some _ _ Ef) as (_ & k & Ek & ->). destruct (method_limits k).
  apply rwf2_bind2; [by apply run_method_wf; [|by apply method_range|..]|].
  intros d1 c Hw1. apply rwf2_any. intros [|]; exact Hw1.
Qed.

Lemma load_object_wf pg s : kelvin_wf pg -> kelvin_wf (load_object pg s).
Proof. intros Hw. unfold load_object. cbv zeta. by repeat apply reg_w_wf. Qed.

Lemma set_object_wf d s p : kelvin_wf (pgraph d) -> rwf (set_object d s p).
Proof.
  intros Hw. unfold set_object. case_match; [done|]. do 4 (apply rwf_any; intros ?). cbv zeta.
  unfold rwf. rewrite pgraph_set. by repeat apply reg_w_wf.
Qed.

Lemma image_blit_wf d m p : kelvin_wf (pgraph d) -> rwf (image_blit_method d m p).
Proof.
  intros Hw. unfold image_blit_method. cbv zeta.
  apply (switch_ind rwf); [repeat apply Forall_cons_2; [..|by apply Forall_nil_2]; cbn [snd]; intros _|];
    try exact Hw.
  case_match; [|exact Hw]. pose proof (dgood_ops ImageBlit) as Ho.
  match goal with |- rwf (ops _ ?d1) => specialize (Ho d1 ltac:(done) Hw); by destruct (ops _ d1) end.
Qed.

Lemma beta_wf d m p : kelvin_wf (pgraph d) -> kelvin_wf (pgraph (beta_method d m p)).
Proof.
  intros Hw. unfold beta_method. apply (switch_ind (fun d => kelvin_wf (pgraph d))); [|exact Hw].
  repeat apply Forall_cons_2; [..|by apply Forall_nil_2]; intros _; exact Hw.
Qed.

Lemma pattern_wf d m p : kelvin_wf (pgraph d) -> kelvin_wf (pgraph (pattern_method d m p)).
Proof.
  intros Hw. unfold pattern_method. apply (switch_ind (fun d => kelvin_wf (pgraph d))); [|exact Hw].
  apply Forall_cons_2; [|by apply Forall_nil_2]. intros _. cbn [snd]. rewrite pgraph_set. by apply reg_w_wf.
Qed.

Lemma surfaces_2d_wf d m p : kelvin_wf (pgraph d) -> kelvin_wf (pgraph (surfaces_2d_method d m p)).
Proof.
  intros Hw. unfold surfaces_2d_method. apply (switch_ind (fun d => kelvin_wf (pgraph d))); [|exact Hw].
  repeat apply Forall_cons_2; [..|by apply Forall_nil_2]; intros _; exact Hw.
Qed.

(** What the object of the subchannel does. *)
Lemma object_method_wf k d s m p : kelvin_wf (pgraph d) ->
  (forall d, kelvin_wf (pgraph d) -> rwf2 (k d)) -> rwf2 (object_method k d s m p).
Proof.
  intros Hw Hk. unfold object_method. case_match; [done|]. case_match; [done|].
  apply rwf2_bind; [case_match; [by apply set_object_wf|exact Hw]|]. intros d1 Hw1.
  cbv zeta. match goal with |- context [PG_GET_MASK (pgraph ?D) _ _] =>
    assert (kelvin_wf (pgraph D)) as Hw2 by (rewrite pgraph_set; by apply load_object_wf);
    revert Hw2; generalize D as d2; intros d2 Hw2 end.
  case_match; [done|].
  apply (switch_ind rwf2); [repeat apply Forall_cons_2; [..|by apply Forall_nil_2]; cbn [snd]; intros _|].
  - exact (beta_wf d2 m p Hw2).
  - exact (pattern_wf d2 m p Hw2).
  - exact (surfaces_2d_wf d2 m p Hw2).
  - apply rwf2_bind; [by apply image_blit_wf|done].
  - by apply Hk.
  - exact Hw2.
Qed.

Lemma pgraph_method_wf d s m p a n l inc : kelvin_wf (pgraph d) -> 0 <= m < 0x2000 ->
  rwf2 (pgraph_method d s m p a n l inc).
Proof. intros Hw Hm. apply object_method_wf; [done|]. intros d1 Hw1. by apply kelvin_dispatch_wf. Qed.

(** ** The FIFO *)

Lemma should_stall_wf d d' b : kelvin_wf (pgraph d) -> pfifo_puller_should_stall d = (d', b) ->
  kelvin_wf (pgraph d').
Proof.
  intros Hw. unfold pfifo_puller_should_stall, pfifo_stall_for_flip.
  destruct (waiting_for_flip _); [destruct (is_flip_stall_complete d)|]; by intros [= <- _].
Qed.

Lemma puller_bind_wf d s p a n l inc : kelvin_wf (pgraph d) -> rwf2 (puller_bind d s p a n l inc).
Proof.
  intros Hw. unfold puller_bind. apply rwf2_any. intros entry. do 3 (case_match; [done|]). cbv zeta.
  destruct (can_fifo_access _); [|exact Hw]. apply rwf2_bind; [by apply context_switch_wf|].
  intros d1 Hw1. destruct (negb (waiting_for_context_switch _)); [by apply pgraph_method_wf|exact Hw1].
Qed.

Lemma puller_method_wf d s m p a n l inc : kelvin_wf (pgraph d) -> 0 <= m < 0x2000 ->
  rwf2 (puller_method d s m p a n l inc).
Proof.
  intros Hw Hm. unfold puller_method. apply rwf2_any. intros v. cbv zeta.
  case_match; [done|]. destruct (can_fifo_access _); [by apply pgraph_method_wf|exact Hw].
Qed.

Lemma run_puller_wf d e p a n l : kelvin_wf (pgraph d) -> rwf2 (pfifo_run_puller d e p a n l).
Proof.
  intros Hw. unfold pfifo_run_puller.
  destruct (pfifo_puller_should_stall d) as [d1 b] eqn:E1. pose proof (should_stall_wf _ _ _ Hw E1) as Hw1.
  destruct b; [exact Hw1|]. destruct (_ || _); [exact Hw1|]. cbv zeta. apply rwf2_bind2.
  - assert (0 <= Z.land e 0x1FFC < 0x2000) as Hm.
    { change 0x1FFC with (Z.land 0x1FFC (Z.ones 13)). rewrite Z.land_assoc, Z.land_ones by lia.
      by apply Z.mod_pos_bound. }
    case_match; [by apply puller_bind_wf|]. case_match; [by apply puller_method_wf|done].
  - intros d2 c Hw2. case_match; exact Hw2.
Qed.

Lemma pusher_data_wf d dma g w n : kelvin_wf (pgraph d) -> rwf2 (pusher_data d dma g w n).
Proof.
  intros Hw. unfold pusher_data. cbv zeta. apply rwf2_bind2; [by apply run_puller_wf|].
  intros d1 c Hw1. case_match; [exact Hw1|]. case_match; exact Hw1.
Qed.

Lemma pusher_command_wf d g w : kelvin_wf (pgraph d) -> rwf2 (pusher_command d g w).
Proof. intros Hw. unfold pusher_command. cbv zeta. repeat case_match; exact Hw || done. Qed.

Lemma pusher_step_wf d dma len : kelvin_wf (pgraph d) -> rwf2 (pusher_step d dma len).
Proof.
  intros Hw. unfold pusher_step. case_match; [exact Hw|]. cbv zeta.
  case_match; [exact Hw|]. case_match; [done|]. case_match; [done|].
  apply rwf2_any. intros w. apply rwf2_bind2.
  - case_match; [by apply pusher_data_wf|by apply pusher_command_wf].
  - intros d1 [v|] Hw1; exact Hw1.
Qed.

Lemma pusher_loop_wf fuel d dma len : kelvin_wf (pgraph d) -> rwf (pusher_loop fuel d dma len).
Proof.
  induction fuel as [|fuel IH] in d |- *; intros Hw; [done|]. cbn [pusher_loop].
  pose proof (pusher_step_wf d dma len Hw) as Hs.
  destruct (pusher_step d dma len) as [[d1 [|]]|]; [by apply IH|exact Hs|done].
Qed.

Lemma run_pusher_wf fuel d : kelvin_wf (pgraph d) -> rwf (pfifo_run_pusher fuel d).
Proof.
  intros Hw. unfold pfifo_run_pusher. case_match; [exact Hw|]. case_match; [done|]. cbv zeta.
  apply rwf_any. intros [dma len]. apply rwf_bind; [by apply pusher_loop_wf|].
  intros d1 Hw1. case_match; [done|exact Hw1].
Qed.

(** ** The other units *)

(** A handler that does not touch PGRAPH. *)
Definition keeps_pgraph (w : NV2AState X -> Z -> Z -> Z -> res (NV2AState X)) : Prop :=
  forall d a val size d', w d a val size = Ok d' -> pgraph d' = pgraph d.
Definition reads_pgraph (r : NV2AState X -> Z -> Z -> res (NV2AState X * Z)) : Prop :=
  forall d a size d' v, r d a size = Ok (d', v) -> pgraph d' = pgraph d.

Ltac keeps_pg :=
  unfold keeps_pgraph, reads_pgraph; intros; match goal with E : _ = Ok _ |- _ => res_inv E end;
  repeat match goal with Hx : _ = Ok _ |- _ => progress res_inv Hx end; subst; repeat case_match;
  try match goal with E : (_, _) = (_, _) |- _ => injection E as <- _ end; reflexivity.

Lemma blocks_keep_pgraph :
  keeps_pgraph pmc_write /\ keeps_pgraph pbus_write /\ keeps_pgraph pfifo_write
  /\ keeps_pgraph pvideo_write /\ keeps_pgraph ptimer_write /\ keeps_pgraph prmvio_write
  /\ keeps_pgraph pfb_write /\ keeps_pgraph pcrtc_write /\ keeps_pgraph prmcio_write
  /\ keeps_pgraph pramdac_write /\ keeps_pgraph prmdio_write /\ keeps_pgraph user_write
  /\ keeps_pgraph stub_write /\ keeps_pgraph pstraps_write /\ keeps_pgraph ramin_write.
Proof.
  unfold pmc_write, pbus_write, pfifo_write, pvideo_write, ptimer_write, prmvio_write, pfb_write,
    pcrtc_write, prmcio_write, pramdac_write, prmdio_write, user_write, stub_write, pstraps_write,
    ramin_write.
  split_and!. all: keeps_pg.
Qed.

Lemma reads_keep_pgraph :
  reads_pgraph pmc_read /\ reads_pgraph pbus_read /\ reads_pgraph pfifo_read
  /\ reads_pgraph pvideo_read /\ (forall now, reads_pgraph (ptimer_read now))
  /\ reads_pgraph prmvio_read /\ reads_pgraph pfb_read /\ reads_pgraph pcrtc_read
  /\ reads_pgraph prmcio_read /\ reads_pgraph pramdac_read /\ reads_pgraph prmdio_read
  /\ reads_pgraph user_read /\ reads_pgraph stub_read
  /\ (forall straps, reads_pgraph (pstraps_read straps)) /\ reads_pgraph ramin_read.
Proof.
  unfold pmc_read, pbus_read, pfifo_read, pvideo_read, ptimer_read, prmvio_read, pfb_read, pcrtc_read,
    prmcio_read, pramdac_read, prmdio_read, user_read, stub_read, pstraps_read, ramin_read.
  split_and!. all: keeps_pg.
Qed.

Lemma regions_pgraph b : b ∈ regions ->
  b = pgraph_block \/ keeps_pgraph (bi_write b) /\ forall now straps, reads_pgraph (bi_read b now straps).
Proof.
  destruct blocks_keep_pgraph as (? & ? & ? & ? & ? & ? & ? & ? & ? & ? & ? & ? & ? & ? & ?).
  destruct reads_keep_pgraph as (? & ? & ? & ? & ? & ? & ? & ? & ? & ? & ? & ? & ? & ? & ?).
  revert b. apply Forall_forall. unfold regions, blocktable. cbn [app].
  repeat (apply Forall_cons_2; [first [left; reflexivity
    | right; split; [assumption|intros now straps; cbn [bi_read ENTRY]; auto; done]]|]).
  constructor.
Qed.

Lemma mmio_write_wf d a v size : kelvin_wf (pgraph d) -> rwf (mmio_write d a v size).
Proof.
  intros Hw. unfold mmio_write. destruct (block_at a) as [b|] eqn:Eb; [|exact Hw].
  apply block_at_in in Eb as [Hb _]. destruct (regions_pgraph b Hb) as [->|[Hk _]].
  - by apply pgraph_write_wf.
  - unfold rwf. destruct (bi_write _ _ _ _ _) eqn:E; [|done]. by rewrite (Hk _ _ _ _ _ E).
Qed.

Lemma mmio_read_wf now straps d a size : kelvin_wf (pgraph d) -> rwf2 (mmio_read now straps d a size).
Proof.
  intros Hw. unfold mmio_read. destruct (block_at a) as [b|] eqn:Eb; [|exact Hw].
  apply block_at_in in Eb as [Hb _]. destruct (regions_pgraph b Hb) as [->|[_ Hk]].
  - apply rwf2_bind2; [by apply pgraph_read_wf|done].
  - destruct (bi_read _ _ _ _ _ _) as [[d1 r]|] eqn:E; [|done]. cbn. by rewrite (Hk _ _ _ _ _ _ _ E).
Qed.

(** ** Every state the guest can bring about *)

(** What the guest and the machine do to the device. *)
Inductive device_step : NV2AState X -> NV2AState X -> Prop :=
| step_write d a v size d' : mmio_write d a v size = Ok d' -> device_step d d'
| step_read now straps d a size d' v : mmio_read now straps d a size = Ok (d', v) -> device_step d d'
| step_pusher fuel d d' : pfifo_run_pusher fuel d = Ok d' -> device_step d d'
| step_memory d m : device_step d (d <| vram := m |>)
| step_vblank d : device_step d (nv2a_vga_gfx_update d)
| step_reset d : device_step d (nv2a_reset d).

Lemma device_step_wf d d' : device_step d d' -> kelvin_wf (pgraph d) -> kelvin_wf (pgraph d').
Proof.
  destruct 1 as [d a v size d' E|now straps d a size d' v E|fuel d d' E|d m|d|d]; intros Hw.
  - pose proof (mmio_write_wf d a v size Hw) as Hr. by rewrite E in Hr.
  - pose proof (mmio_read_wf now straps d a size Hw) as Hr. by rewrite E in Hr.
  - pose proof (run_pusher_wf fuel d Hw) as Hr. by rewrite E in Hr.
  - exact Hw.
  - exact Hw.
  - exact Hw.
Qed.

(** C2. The arrays of PGRAPH keep their sizes and its counts their bounds in every state that
    can be reached after [pgraph_init]: by any MMIO accesses, any runs of the pusher over any
    push buffer (methods one by one and in bursts, to every graphics class), any changes of
    guest memory, vertical blanks and resets, in any order. *)
Theorem reachable_wf junk d0 d : pgraph d0 = pgraph_init junk pgraph_zero ->
  rtc device_step d0 d -> kelvin_wf (pgraph d).
Proof.
  intros E Hr. assert (kelvin_wf (pgraph d0)) as Hw by (rewrite E; apply pgraph_init_wf).
  clear E. induction Hr as [|d1 d2 d3 Hs _ IH]; [done|]. by apply IH, (device_step_wf d1).
Qed.

End Invariant.

End PgraphInvariant.
