(* ===== verification/NullRenderer.v ===== *)
(** * The null renderer (pgraph/null/renderer.c), and a machine that runs

    The renderer that draws nothing satisfies what the theorems about PGRAPH and PFIFO ask
    of a renderer.  With it, a VGA core without registers and an interpreter that rejects
    every vertex program, the model of the device is closed and can be run: [demo] is a
    device with a push buffer, on which the theorems are applied. *)

From S2P Require Import Prelude Nv2aRegs Nv2aState Float32 Vertex Pgraph Kelvin KelvinTable.
From S2P Require Import KelvinLaws KelvinBatch KelvinSafety Nv2aBlocks Pfifo PfifoStream Nv2a.
From S2P Require Import PgraphInvariant.
Import Nv2aState Vertex Pgraph Kelvin KelvinTable KelvinLaws KelvinBatch KelvinSafety Nv2aBlocks
  Pfifo PfifoStream Nv2a PgraphInvariant.

Module NullRenderer.

Section Null.
Context {X : Type}.
Implicit Types d : NV2AState X.

Definition pgraph_write_zpass_pixel_cnt_report d (parameter result : Z) : res (NV2AState X) :=
  let timestamp := 0x0011223344556677 in
  let done := 0 in
  '(report_data, report_dma_len) ← nv_dma_map d (dma_report (pgraph d));
  let offset := GET_MASK parameter NV097_GET_REPORT_OFFSET in
  _ ← c_assert (offset <? report_dma_len);
  m ← st_le (vram d) 8 (report_data + offset) timestamp;
  m ← st_le m 4 (report_data + offset + 8) result;
  m ← st_le m 4 (report_data + offset + 12) done;
  Ok (d <| vram := m |>).

Definition pgraph_null_ops (c : RendererCall) d : res (NV2AState X) :=
  match c with
  | GetReport parameter => pgraph_write_zpass_pixel_cnt_report d parameter 0
  | ClearReportValue | ClearSurface _ | DrawBegin | DrawEnd | FlipStall | FlushDraw | ImageBlit
  | ProcessPendingReports | SurfaceUpdate _ _ _ => Ok d
  end.

#[export] Instance pgraph_null_renderer : Renderer X := {| ops := pgraph_null_ops |}.

Lemma report_pgraph d p r d' : pgraph_write_zpass_pixel_cnt_report d p r = Ok d' ->
  pgraph d' = pgraph d.
Proof.
  unfold pgraph_write_zpass_pixel_cnt_report. cbv zeta. intros ([a n] & _ & E)%res_bind_Ok.
  res_inv E. by subst.
Qed.

Lemma report_blind p r : fifo_blind (X := X) (fun d => pgraph_write_zpass_pixel_cnt_report d p r).
Proof.
  intros rf d. unfold pgraph_write_zpass_pixel_cnt_report, with_regs. cbv zeta.
  change (nv_dma_map (d <| pfifo; pfifo_regs := rf |>) (dma_report (pgraph (d <| pfifo; pfifo_regs := rf |>))))
    with (nv_dma_map d (dma_report (pgraph d))).
  destruct (nv_dma_map _ _) as [[a n]|]; [|done]. cbn [mbind res_mbind res_bind].
  destruct (c_assert _); [|done]. cbn [mbind res_mbind res_bind].
  change (vram (d <| pfifo; pfifo_regs := rf |>)) with (vram d).
  destruct (st_le (vram d) _ _ _) as [m1|]; [|done]. cbn [mbind res_mbind res_bind].
  destruct (st_le m1 _ _ _) as [m2|]; [|done]. cbn [mbind res_mbind res_bind].
  by destruct (st_le m2 _ _ _).
Qed.

#[export] Instance null_laws : RendererLaws X.
Proof.
  constructor.
  - intros c d r Hr. destruct c; try reflexivity. by apply report_blind.
  - intros d d' [= <-]. done.
Qed.

#[export] Instance null_safe : RendererSafe X.
Proof.
  intros c d Hw. destruct c; try exact Hw. cbn [ops pgraph_null_renderer pgraph_null_ops].
  destruct (pgraph_write_zpass_pixel_cnt_report d parameter 0) as [d'|] eqn:E; [|eauto].
  by rewrite (report_pgraph _ _ _ _ E).
Qed.

End Null.

(** ** The parts that are not modelled, at their simplest *)

#[export] Instance no_vga : VgaOps unit := {|
  vga_ioport_read x _ := (x, 0);
  vga_ioport_write x _ _ := x;
  vga_ar_flip_flop _ := 0;
  vga_invalidate_scanlines x _ _ := x;
  vga_reset x := x
|}.

#[export] Instance no_vsh : VshEmu := {|
  Nv2aVshProgram := Empty_set;
  nv2a_vsh_parse_program _ := None;
  nv2a_vsh_emu_execute p := match p with end
|}.

#[export] Instance no_vsh_safe : VshSafe.
Proof. intros []. Qed.

(** ** A device after power on *)

Definition zero_bytes (n : Z) : mem := g_malloc (fun _ => 0) n.

Definition power_on_with {X} (x : X) (vram_bytes ramin_bytes : mem) (vsize rsize : Z) : NV2AState X := {|
  irq := false; config := zero_bytes 256; vram_size := vsize; vram := vram_bytes;
  ramin_size := rsize; ramin := ramin_bytes;
  pmc := Build_Pmc 0 0; pfifo := Build_Pfifo 0 0 ∅ false false; pvideo_regs := ∅;
  ptimer := Build_Ptimer 0 0 0 0 0; pfb_regs := ∅; pgraph := pgraph_init ∅ pgraph_zero;
  pcrtc := Build_Pcrtc 0 0 0 0; pramdac := Build_Pramdac 0 0 0 0 0 0 0 0 0 0 0 0;
  puserdac := Build_Puserdac 0 (repeat 0 768); ext := x
|}.

Definition power_on : mem -> mem -> Z -> Z -> NV2AState unit := power_on_with tt.

(** With a megabyte of instance memory. *)
Definition machine : NV2AState unit := power_on ∅ (zero_bytes 0x100000) 0x4000000 0x100000.

Lemma zero_bytes_valid n : bytes_valid (zero_bytes n) 0 n.
Proof.
  intros a Ha. unfold zero_bytes. rewrite g_malloc_lookup. rewrite decide_True by lia.
  eexists. split; [done|]. done.
Qed.

Lemma pgraph_init_u32 : pgraph_wf (pgraph_init ∅ pgraph_zero).
Proof.
  constructor; try done.
  - apply (regs_u32_insert ∅); [done|]. done.
  - apply Forall_forall. intros r Hr%list_elem_of_In%repeat_spec. subst. split; [done|].
    apply Forall_forall. by intros x ->%list_elem_of_In%repeat_spec.
Qed.

Lemma machine_wf : nv2a_wf machine.
Proof.
  constructor; try done; try by constructor.
  - apply pgraph_init_u32.
  - repeat (apply Forall_cons_2; [done|]). by constructor.
  - constructor; [done| |].
    + apply repeat_length.
    + apply Forall_forall. by intros x ->%list_elem_of_In%repeat_spec.
  - apply zero_bytes_valid.
  - apply zero_bytes_valid.
Qed.

End NullRenderer.
