(* ===== verification/Texture.v ===== *)
(** * Texture shapes and conversions (hw/xbox/nv2a/pgraph/texture.c, texture.h, util.h)

    The shape of the texture a stage samples, as its registers describe it; how many bytes
    of memory it takes; and the formats that are converted to ones the host has. *)

From S2P Require Import Prelude Swizzle Nv2aRegs Nv2aState.
Import Nv2aState.
Import Swizzle(linear, linear_disjoint, linear_inj, texels, in_box, elem_of_texels).

Module Texture.

(** ** Formats *)

Record BasicColorFormatInfo := { bytes_per_pixel : Z; is_linear : bool; is_depth : bool }.

Definition no_format : BasicColorFormatInfo :=
  {| bytes_per_pixel := 0; is_linear := false; is_depth := false |}.
Definition color_fmt (n : Z) (l : bool) : BasicColorFormatInfo :=
  {| bytes_per_pixel := n; is_linear := l; is_depth := false |}.
Definition depth_fmt (n : Z) (l : bool) : BasicColorFormatInfo :=
  {| bytes_per_pixel := n; is_linear := l; is_depth := true |}.

(** An array of 66 entries; those without an initialiser are zero. *)
Definition kelvin_color_format_info_map : list BasicColorFormatInfo :=
  (fun i => switch i
    [(NV097_SET_TEXTURE_FORMAT_COLOR_SZ_Y8, color_fmt 1 false);
     (NV097_SET_TEXTURE_FORMAT_COLOR_SZ_AY8, color_fmt 1 false);
     (NV097_SET_TEXTURE_FORMAT_COLOR_SZ_A1R5G5B5, color_fmt 2 false);
     (NV097_SET_TEXTURE_FORMAT_COLOR_SZ_X1R5G5B5, color_fmt 2 false);
     (NV097_SET_TEXTURE_FORMAT_COLOR_SZ_A4R4G4B4, color_fmt 2 false);
     (NV097_SET_TEXTURE_FORMAT_COLOR_SZ_R5G6B5, color_fmt 2 false);
     (NV097_SET_TEXTURE_FORMAT_COLOR_SZ_A8R8G8B8, color_fmt 4 false);
     (NV097_SET_TEXTURE_FORMAT_COLOR_SZ_X8R8G8B8, color_fmt 4 false);
     (NV097_SET_TEXTURE_FORMAT_COLOR_SZ_I8_A8R8G8B8, color_fmt 1 false);
     (NV097_SET_TEXTURE_FORMAT_COLOR_L_DXT1_A1R5G5B5, color_fmt 4 false);
     (NV097_SET_TEXTURE_FORMAT_COLOR_L_DXT23_A8R8G8B8, color_fmt 4 false);
     (NV097_SET_TEXTURE_FORMAT_COLOR_L_DXT45_A8R8G8B8, color_fmt 4 false);
     (NV097_SET_TEXTURE_FORMAT_COLOR_LU_IMAGE_A1R5G5B5, color_fmt 2 true);
     (NV097_SET_TEXTURE_FORMAT_COLOR_LU_IMAGE_R5G6B5, color_fmt 2 true);
     (NV097_SET_TEXTURE_FORMAT_COLOR_LU_IMAGE_A8R8G8B8, color_fmt 4 true);
     (NV097_SET_TEXTURE_FORMAT_COLOR_LU_IMAGE_Y8, color_fmt 1 true);
     (NV097_SET_TEXTURE_FORMAT_COLOR_LU_IMAGE_G8B8, color_fmt 2 true);
     (NV097_SET_TEXTURE_FORMAT_COLOR_SZ_A8, color_fmt 1 false);
     (NV097_SET_TEXTURE_FORMAT_COLOR_SZ_A8Y8, color_fmt 2 false);
     (NV097_SET_TEXTURE_FORMAT_COLOR_LU_IMAGE_AY8, color_fmt 1 true);
     (NV097_SET_TEXTURE_FORMAT_COLOR_LU_IMAGE_X1R5G5B5, color_fmt 2 true);
     (NV097_SET_TEXTURE_FORMAT_COLOR_LU_IMAGE_A4R4G4B4, color_fmt 2 true);
     (NV097_SET_TEXTURE_FORMAT_COLOR_LU_IMAGE_X8R8G8B8, color_fmt 4 true);
     (NV097_SET_TEXTURE_FORMAT_COLOR_LU_IMAGE_A8, color_fmt 1 true);
     (NV097_SET_TEXTURE_FORMAT_COLOR_LU_IMAGE_A8Y8, color_fmt 2 true);
     (NV097_SET_TEXTURE_FORMAT_COLOR_SZ_R6G5B5, color_fmt 2 false);
     (NV097_SET_TEXTURE_FORMAT_COLOR_SZ_G8B8, color_fmt 2 false);
     (NV097_SET_TEXTURE_FORMAT_COLOR_SZ_R8B8, color_fmt 2 false);
     (NV097_SET_TEXTURE_FORMAT_COLOR_LC_IMAGE_CR8YB8CB8YA8, color_fmt 2 true);
     (NV097_SET_TEXTURE_FORMAT_COLOR_LC_IMAGE_YB8CR8YA8CB8, color_fmt 2 true);
     (NV097_SET_TEXTURE_FORMAT_COLOR_SZ_DEPTH_Y16_FIXED, depth_fmt 2 false);
     (NV097_SET_TEXTURE_FORMAT_COLOR_LU_IMAGE_DEPTH_X8_Y24_FIXED, depth_fmt 4 true);
     (NV097_SET_TEXTURE_FORMAT_COLOR_LU_IMAGE_DEPTH_X8_Y24_FLOAT, depth_fmt 4 true);
     (NV097_SET_TEXTURE_FORMAT_COLOR_LU_IMAGE_DEPTH_Y16_FIXED, depth_fmt 2 true);
     (NV097_SET_TEXTURE_FORMAT_COLOR_LU_IMAGE_DEPTH_Y16_FLOAT, depth_fmt 2 true);
     (NV097_SET_TEXTURE_FORMAT_COLOR_LU_IMAGE_Y16, color_fmt 2 true);
     (NV097_SET_TEXTURE_FORMAT_COLOR_SZ_A8B8G8R8, color_fmt 4 false);
     (NV097_SET_TEXTURE_FORMAT_COLOR_SZ_B8G8R8A8, color_fmt 4 false);
     (NV097_SET_TEXTURE_FORMAT_COLOR_SZ_R8G8B8A8, color_fmt 4 false);
     (NV097_SET_TEXTURE_FORMAT_COLOR_LU_IMAGE_A8B8G8R8, color_fmt 4 true);
     (NV097_SET_TEXTURE_FORMAT_COLOR_LU_IMAGE_B8G8R8A8, color_fmt 4 true);
     (NV097_SET_TEXTURE_FORMAT_COLOR_LU_IMAGE_R8G8B8A8, color_fmt 4 true)] no_format)
  <$> zseq 66.

Definition pgraph_is_texture_format_compressed (color_format : Z) : bool :=
  (color_format =? NV097_SET_TEXTURE_FORMAT_COLOR_L_DXT1_A1R5G5B5)
  || (color_format =? NV097_SET_TEXTURE_FORMAT_COLOR_L_DXT23_A8R8G8B8)
  || (color_format =? NV097_SET_TEXTURE_FORMAT_COLOR_L_DXT45_A8R8G8B8).

(** ** Shapes *)

Record TextureShape := {
  cubemap : bool;
  dimensionality : Z;
  tex_format : Z;
  tex_levels : Z;
  tex_width : Z;
  tex_height : Z;
  tex_depth : Z;
  border : bool;
  min_mipmap_level : Z;
  max_mipmap_level : Z;
  tex_pitch : Z
}.

Definition pgraph_is_texture_enabled (pg : PGRAPHState) (texture_idx : Z) : res bool :=
  ctl_0 ← pgraph_reg_r pg (NV_PGRAPH_TEXCTL0_0 + texture_idx * 4);
  Ok (negb (GET_MASK ctl_0 NV_PGRAPH_TEXCTL0_0_ENABLE =? 0)).

(** Levels that would be smaller than 1x1 are dropped, and for volumes those smaller
    than 4x4. *)
Definition swizzled_levels (dims levels max_mipmap_level log_width log_height : Z) : res Z :=
  let levels := Z.min levels (max_mipmap_level + 1) in
  let levels := Z.min levels (Z.max log_width log_height + 1) in
  _ ← c_assert (0 <? levels);
  Ok (if dims =? 3 then
        if (log_width <? 2) || (log_height <? 2) then 1
        else Z.min levels (Z.min log_width log_height - 1)
      else levels).

Definition pgraph_get_texture_shape (pg : PGRAPHState) (texture_idx : Z) : res TextureShape :=
  let i := texture_idx in
  ctl_0 ← pgraph_reg_r pg (NV_PGRAPH_TEXCTL0_0 + i * 4);
  ctl_1 ← pgraph_reg_r pg (NV_PGRAPH_TEXCTL1_0 + i * 4);
  fmt ← pgraph_reg_r pg (NV_PGRAPH_TEXFMT0 + i * 4);
  let min_mipmap_level := GET_MASK ctl_0 NV_PGRAPH_TEXCTL0_0_MIN_LOD_CLAMP in
  let max_mipmap_level := GET_MASK ctl_0 NV_PGRAPH_TEXCTL0_0_MAX_LOD_CLAMP in
  let pitch := GET_MASK ctl_1 NV_PGRAPH_TEXCTL1_0_IMAGE_PITCH in
  let cubemap := negb (GET_MASK fmt NV_PGRAPH_TEXFMT0_CUBEMAPENABLE =? 0) in
  let dims := GET_MASK fmt NV_PGRAPH_TEXFMT0_DIMENSIONALITY in
  shaderprog ← pgraph_reg_r pg NV_PGRAPH_SHADERPROG;
  let tex_mode := Z.land (Z.shiftr shaderprog (texture_idx * 5)) 0x1F in
  _ ← (if tex_mode =? 0x02 then e ← pgraph_is_texture_enabled pg texture_idx; c_assert e
       else Ok tt);
  let color_format := GET_MASK fmt NV_PGRAPH_TEXFMT0_COLOR in
  let levels := GET_MASK fmt NV_PGRAPH_TEXFMT0_MIPMAP_LEVELS in
  let log_width := GET_MASK fmt NV_PGRAPH_TEXFMT0_BASE_SIZE_U in
  let log_height := GET_MASK fmt NV_PGRAPH_TEXFMT0_BASE_SIZE_V in
  let log_depth := GET_MASK fmt NV_PGRAPH_TEXFMT0_BASE_SIZE_P in
  rect ← pgraph_reg_r pg (NV_PGRAPH_TEXIMAGERECT0 + i * 4);
  let rect_width := GET_MASK rect NV_PGRAPH_TEXIMAGERECT0_WIDTH in
  let rect_height := GET_MASK rect NV_PGRAPH_TEXIMAGERECT0_HEIGHT in
  let border_source := GET_MASK fmt NV_PGRAPH_TEXFMT0_BORDER_SOURCE in
  _ ← c_assert (color_format <? 66);
  f ← aget kelvin_color_format_info_map color_format;
  if bytes_per_pixel f =? 0 then Fault AssertFail
  else
    let shape levels width height depth min_level max_level pitch :=
      {| cubemap := cubemap; dimensionality := dims; tex_format := color_format;
         tex_levels := levels; tex_width := width; tex_height := height; tex_depth := depth;
         border := negb (border_source =? NV_PGRAPH_TEXFMT0_BORDER_SOURCE_COLOR);
         min_mipmap_level := min_level; max_mipmap_level := max_level; tex_pitch := pitch |} in
    if is_linear f then
      _ ← c_assert (dims =? 2);
      Ok (shape levels rect_width rect_height 1 min_mipmap_level max_mipmap_level pitch)
    else
      levels ← swizzled_levels dims levels max_mipmap_level log_width log_height;
      Ok (shape levels (Z.shiftl 1 log_width) (Z.shiftl 1 log_height) (Z.shiftl 1 log_depth)
            (Z.min (levels - 1) min_mipmap_level) (Z.min (levels - 1) max_mipmap_level) 0).

(** ** Lengths *)

(** The loop over the mipmap levels; [size] is what a level of the given sides takes. *)
Fixpoint mip_chain (levels : nat) (size : Z -> Z -> Z) (w h length : Z) : Z :=
  match levels with
  | O => length
  | S levels =>
      let w := Z.max w 1 in
      let h := Z.max h 1 in
      mip_chain levels size (w / 2) (h / 2) (u64 (length + size w h))
  end.

(** [w * h * f.bytes_per_pixel] *)
Definition texels_size (bpp w h : Z) : Z := u32 (u32 (w * h) * bpp).

(** [(v + 3) & ~3], and [phys_w/4 * phys_h/4 * block_size], from left to right. *)
Definition align4 (v : Z) : Z := Z.land (u32 (v + 3)) 0xFFFFFFFC.
Definition blocks_size (block_size w h : Z) : Z :=
  u32 (u32 (align4 w / 4 * align4 h) / 4 * block_size).

Definition dxt_block_size (color_format : Z) : Z :=
  if color_format =? NV097_SET_TEXTURE_FORMAT_COLOR_L_DXT1_A1R5G5B5 then 8 else 16.

Definition align_face (length : Z) : Z :=
  Z.land (u64 (length + NV2A_CUBEMAP_FACE_ALIGNMENT - 1)) (Z.lnot (NV2A_CUBEMAP_FACE_ALIGNMENT - 1)).

Definition pgraph_get_texture_length (s : TextureShape) : res Z :=
  f ← aget kelvin_color_format_info_map (tex_format s);
  if is_linear f then
    _ ← c_assert (negb (cubemap s));
    _ ← c_assert (dimensionality s =? 2);
    Ok (u32 (tex_height s * tex_pitch s))
  else if 2 <=? dimensionality s then
    let size := if negb (pgraph_is_texture_format_compressed (tex_format s))
                then texels_size (bytes_per_pixel f) else blocks_size (dxt_block_size (tex_format s)) in
    let length := mip_chain (Z.to_nat (tex_levels s)) size (tex_width s) (tex_height s) 0 in
    length ← (if cubemap s then
                _ ← c_assert (dimensionality s =? 2);
                Ok (u64 (align_face length * 6))
              else Ok length);
    Ok (if 3 <=? dimensionality s then u64 (length * tex_depth s) else length)
  else Ok 0.

(** ** Where the texture and its palette are *)

Section Addresses.
Context {X : Type}.
Implicit Types d : NV2AState X.

(** An offset into [vram]. *)
Definition pgraph_get_texture_phys_addr d (texture_idx : Z) : res Z :=
  let i := texture_idx in
  let pg := pgraph d in
  fmt ← pgraph_reg_r pg (NV_PGRAPH_TEXFMT0 + i * 4);
  let dma_select := GET_MASK fmt NV_PGRAPH_TEXFMT0_CONTEXT_DMA in
  offset ← pgraph_reg_r pg (NV_PGRAPH_TEXOFFSET0 + i * 4);
  '(texture_data, dma_len) ← nv_dma_map d (if negb (dma_select =? 0) then dma_b pg else dma_a pg);
  _ ← c_assert (offset <? dma_len);
  Ok (texture_data + offset).

(** The offset and the length in bytes. *)
Definition pgraph_get_texture_palette_phys_addr_length d (texture_idx : Z) : res (Z * Z) :=
  let i := texture_idx in
  let pg := pgraph d in
  palette ← pgraph_reg_r pg (NV_PGRAPH_TEXPALETTE0 + i * 4);
  let palette_dma_select := negb (GET_MASK palette NV_PGRAPH_TEXPALETTE0_CONTEXT_DMA =? 0) in
  let palette_length_index := GET_MASK palette NV_PGRAPH_TEXPALETTE0_LENGTH in
  let palette_offset := Z.land palette NV_PGRAPH_TEXPALETTE0_OFFSET in
  palette_length ← switch palette_length_index
    [(NV_PGRAPH_TEXPALETTE0_LENGTH_256, Ok 256); (NV_PGRAPH_TEXPALETTE0_LENGTH_128, Ok 128);
     (NV_PGRAPH_TEXPALETTE0_LENGTH_64, Ok 64); (NV_PGRAPH_TEXPALETTE0_LENGTH_32, Ok 32)]
    (Fault AssertFail);
  '(palette_data, palette_dma_len) ← nv_dma_map d (if palette_dma_select then dma_b pg else dma_a pg);
  _ ← c_assert (palette_offset <? palette_dma_len);
  Ok (palette_data + palette_offset, palette_length * 4).

End Addresses.

(** ** Conversions *)

Definition cliptobyte (x : Z) : Z := u8 (if x <? 0 then 0 else if 255 <? x then 255 else x).

(** The three results of both conversions. *)
Definition yuv_to_rgb (c d e : Z) : list Z :=
  [cliptobyte (Z.shiftr (298 * c + 409 * e + 128) 8);
   cliptobyte (Z.shiftr (298 * c - 100 * d - 208 * e + 128) 8);
   cliptobyte (Z.shiftr (298 * c + 516 * d + 128) 8)].

(** [line] is the offset of the line in [data]. *)
Definition convert_yuy2_to_rgb (data : mem) (line ix : Z) : res (list Z) :=
  let at_ k := ld data (line + u32 k) in
  c ← at_ (ix * 2);
  '(d, e) ← (if negb (ix mod 2 =? 0)
             then d ← at_ (ix * 2 - 1); e ← at_ (ix * 2 + 1); Ok (d, e)
             else d ← at_ (ix * 2 + 1); e ← at_ (ix * 2 + 3); Ok (d, e));
  Ok (yuv_to_rgb (c - 16) (d - 128) (e - 128)).

Definition convert_uyvy_to_rgb (data : mem) (line ix : Z) : res (list Z) :=
  let at_ k := ld data (line + u32 k) in
  c ← at_ (ix * 2 + 1);
  '(d, e) ← (if negb (ix mod 2 =? 0)
             then d ← at_ (ix * 2 - 2); e ← at_ (ix * 2 + 0); Ok (d, e)
             else d ← at_ (ix * 2 + 0); e ← at_ (ix * 2 + 2); Ok (d, e));
  Ok (yuv_to_rgb (c - 16) (d - 128) (e - 128)).

(** [pixel[0] = l0; pixel[1] = l1; ...] *)
Fixpoint st_bytes (m : mem) (a : Z) (l : list Z) : res mem :=
  match l with
  | [] => Ok m
  | b :: l => m ← st m a b; st_bytes m (a + 1) l
  end.

(** Stored as [int8_t]. *)
Definition rgb655_bytes (rgb655 : Z) : list Z :=
  let v := Z.lxor rgb655 (Z.lor (Z.shiftl 1 9) (Z.shiftl 1 4)) in
  [u8 (Z.shiftr (Z.land v 0xFC00) 10 * 0x7F / 0x3F);
   u8 (Z.shiftr (Z.land v 0x03E0) 5 * 0xFF / 0x1F - 0x80);
   u8 (Z.land v 0x001F * 0xFF / 0x1F - 0x80)].

Definition convert_palette (junk : Z -> Z) (data palette_data : mem)
    (width height depth row_pitch slice_pitch : Z) : res (mem * Z) :=
  let size := u32 (u32 (u32 (width * height) * depth) * 4) in
  '(m, _) ← res_foldl (fun '(m, (dst, src)) _ =>
    '(m, dst) ← res_foldl (fun '(m, dst) y =>
      res_foldl (fun '(m, dst) x =>
        index ← ld data (src + u32 (u32 (y * row_pitch) + x));
        color ← ld_le palette_data 4 (index * 4);
        m ← st_le m 4 dst color;
        Ok (m, dst + 4)) (m, dst) (zseq width)) (m, dst) (zseq height);
    Ok (m, (dst, src + slice_pitch))) (g_malloc junk size, (0, 0)) (zseq depth);
  Ok (m, size).

Definition convert_yuv (junk : Z -> Z) (color_format : Z) (data : mem)
    (width height depth row_pitch : Z) : res (mem * Z) :=
  _ ← c_assert (depth =? 1);
  let size := u32 (u32 (width * height) * 4) in
  '(m, _) ← res_foldl (fun '(m, pixel) y =>
    let line := u32 (u32 (y * row_pitch) * depth) in
    res_foldl (fun '(m, pixel) x =>
      rgb ← (if color_format =? NV097_SET_TEXTURE_FORMAT_COLOR_LC_IMAGE_CR8YB8CB8YA8
             then convert_yuy2_to_rgb data line x else convert_uyvy_to_rgb data line x);
      m ← st_bytes m pixel (rgb ++ [255]);
      Ok (m, pixel + 4)) (m, pixel) (zseq width)) (g_malloc junk size, 0) (zseq height);
  Ok (m, size).

Definition convert_rgb655 (junk : Z -> Z) (data : mem) (width height depth row_pitch : Z)
  : res (mem * Z) :=
  _ ← c_assert (depth =? 1);
  let size := u32 (u32 (width * height) * 3) in
  m ← res_foldl (fun m y =>
    res_foldl (fun m x =>
      rgb655 ← ld_le data 2 (u32 (y * row_pitch) + x * 2);
      st_bytes m (u32 (u32 (u32 (y * width) + x) * 3)) (rgb655_bytes rgb655))
    m (zseq width)) (g_malloc junk size) (zseq height);
  Ok (m, size).

(** [NULL] is [None]; otherwise the converted data and their size. *)
Definition pgraph_convert_texture_data (junk : Z -> Z) (s : TextureShape) (data palette_data : mem)
    (width height depth row_pitch slice_pitch : Z) : res (option (mem * Z)) :=
  if tex_format s =? NV097_SET_TEXTURE_FORMAT_COLOR_SZ_I8_A8R8G8B8 then
    r ← convert_palette junk data palette_data width height depth row_pitch slice_pitch; Ok (Some r)
  else if (tex_format s =? NV097_SET_TEXTURE_FORMAT_COLOR_LC_IMAGE_CR8YB8CB8YA8)
          || (tex_format s =? NV097_SET_TEXTURE_FORMAT_COLOR_LC_IMAGE_YB8CR8YA8CB8) then
    r ← convert_yuv junk (tex_format s) data width height depth row_pitch; Ok (Some r)
  else if tex_format s =? NV097_SET_TEXTURE_FORMAT_COLOR_SZ_R6G5B5 then
    r ← convert_rgb655 junk data width height depth row_pitch; Ok (Some r)
  else Ok None.

(** ** Reference: the bytes of one converted texel *)

(** Two texels share their colour difference, bytes [u] and [v] of the pair; [k] is the
    place of the luminance in its half. *)
Definition ref_yuv (k u v : Z) (data : mem) (line x : Z) : list Z :=
  let c := byte_at data (line + (2 * x + k)) - 16 in
  let d := byte_at data (line + (4 * (x / 2) + u)) - 128 in
  let e := byte_at data (line + (4 * (x / 2) + v)) - 128 in
  let clip n := Z.max 0 (Z.min 255 (n / 256)) in
  [clip (298 * c + 409 * e + 128); clip (298 * c - 100 * d - 208 * e + 128);
   clip (298 * c + 516 * d + 128); 255].

(** Red is unsigned, green and blue are two's complement. *)
Definition ref_rgb655 (v : Z) : list Z :=
  let signed c := u8 ((swrap 5 c + 16) * 255 / 31 - 128) in
  [v / 1024 mod 64 * 127 / 63; signed (v / 32); signed v].

Definition ref_palette (palette : mem) (index : Z) : list Z := byte_at palette <$> seqZ (4 * index) 4.

(** How a format is converted; the bytes of the texel (x, y, z). *)
Inductive conversion := Palette | Yuy2 | Uyvy | Rgb655.

Definition conversion_of (color_format : Z) : option conversion :=
  if color_format =? NV097_SET_TEXTURE_FORMAT_COLOR_SZ_I8_A8R8G8B8 then Some Palette
  else if color_format =? NV097_SET_TEXTURE_FORMAT_COLOR_LC_IMAGE_CR8YB8CB8YA8 then Some Yuy2
  else if color_format =? NV097_SET_TEXTURE_FORMAT_COLOR_LC_IMAGE_YB8CR8YA8CB8 then Some Uyvy
  else if color_format =? NV097_SET_TEXTURE_FORMAT_COLOR_SZ_R6G5B5 then Some Rgb655
  else None.

Definition ref_converted (c : conversion) (data palette : mem) (row slice : Z) (p : Z * Z * Z)
  : list Z :=
  let '(x, y, z) := p in
  match c with
  | Palette => ref_palette palette (byte_at data (z * slice + y * row + x))
  | Yuy2 => ref_yuv 0 1 3 data (y * row) x
  | Uyvy => ref_yuv 1 0 2 data (y * row) x
  | Rgb655 => ref_rgb655 (le_at data 2 (y * row + 2 * x))
  end.

Definition converted_bpp (c : conversion) : Z := match c with Rgb655 => 3 | _ => 4 end.

(** The bytes of a row that are read. *)
Definition row_bytes (c : conversion) (w : Z) : Z :=
  match c with Palette => w | Rgb655 => 2 * w | _ => 4 * ((w + 1) / 2) end.

(** An image of [n] bytes per texel without gaps, and nothing else. *)
Definition texel_addr (w h n : Z) (p : Z * Z * Z) : Z := linear (w * n) (w * h * n) n p.

Definition image_is (m : mem) (w h d n : Z) (val : Z * Z * Z -> list Z) : Prop :=
  (forall p i, in_box w h d p -> 0 <= i < n ->
     m !! (texel_addr w h n p + i) = val p !! Z.to_nat i)
  /\ forall a, ~ 0 <= a < n * (w * h * d) -> m !! a = None.

(** ** Storing an image *)

Lemma st_bytes_ok m a l : (forall i, 0 <= i < Z.of_nat (length l) -> is_Some (m !! (a + i))) ->
  exists m', st_bytes m a l = Ok m' /\ forall b,
    m' !! b = if decide (a <= b < a + Z.of_nat (length l)) then l !! Z.to_nat (b - a) else m !! b.
Proof.
  induction l as [|v l IH] in m, a |- *; intros Hv.
  - exists m. split; [done|]. intros b. by rewrite decide_False by (cbn; lia).
  - cbn [st_bytes length] in *. destruct (Hv 0) as [x Ex]; [lia|]. rewrite Z.add_0_r in Ex.
    unfold st at 1. rewrite Ex. cbn [mbind res_mbind res_bind].
    destruct (IH (<[a := v]> m) (a + 1)) as (m' & E & Hm').
    { intros i Hi. rewrite lookup_insert_ne by lia. rewrite <- Z.add_assoc. apply Hv. lia. }
    exists m'. split; [done|]. intros b. rewrite Hm'. destruct (decide (b = a)) as [->|].
    + rewrite decide_False, lookup_insert_eq, decide_True by lia. by rewrite Z.sub_diag.
    + rewrite lookup_insert_ne by lia. repeat case_decide; try lia; [|done].
      replace (Z.to_nat (b - a)) with (S (Z.to_nat (b - (a + 1)))) by lia. done.
Qed.

Fixpoint le_bytes (n : nat) (v : Z) : list Z :=
  match n with O => [] | S n => v mod 256 :: le_bytes n (v / 256) end.

Lemma st_le_bytes m n a v : st_le m n a v = st_bytes m a (le_bytes n v).
Proof.
  induction n as [|n IH] in m, a, v |- *; [done|]. cbn.
  destruct (st m a (v mod 256)); [apply IH|done].
Qed.

Lemma le_bytes_at data n a : bytes_valid data a (Z.of_nat n) ->
  le_bytes n (le_at data n a) = byte_at data <$> seqZ a (Z.of_nat n).
Proof.
  induction n as [|n IH] in a |- *; intros Hv; [done|]. rewrite le_at_S. cbn [le_bytes].
  destruct (ld_byte data a) as [_ Hb]; [eapply bytes_valid_sub; [exact Hv|lia..]|].
  unfold in_uw in Hb. change (2 ^ 8) with 256 in Hb. rewrite seqZ_cons by lia. cbn [fmap list_fmap].
  f_equal; [dlia|]. replace ((_ + 256 * _) / 256) with (le_at data n (a + 1)) by dlia.
  replace (Z.pred (Z.of_nat (S n))) with (Z.of_nat n) by lia. apply IH.
  eapply bytes_valid_sub; [exact Hv|lia..].
Qed.

Section Image.
Context (w h d n : Z) (Hw : 0 <= w) (Hh : 0 <= h) (Hd : 0 <= d) (Hn : 0 < n).

Lemma plain_addr_range p i : in_box w h d p -> 0 <= i < n ->
  0 <= texel_addr w h n p + i < n * (w * h * d).
Proof.
  destruct p as [[x y] z]. intros (Hx & Hy & Hz) Hi. unfold texel_addr. cbn [linear].
  assert (E : z * (w * h * n) + y * (w * n) + x * n + i = ((z * h + y) * w + x) * n + i) by lia.
  rewrite E. assert (0 <= z * h + y <= d * h - 1) by nia.
  assert (0 <= (z * h + y) * w + x <= d * h * w - 1) by nia. nia.
Qed.

Lemma plain_addr_inj p q i j : in_box w h d p -> in_box w h d q -> 0 <= i < n -> 0 <= j < n ->
  texel_addr w h n p + i = texel_addr w h n q + j -> p = q.
Proof.
  intros Hp Hq Hi Hj. apply (linear_inj w h d); [|done..]. split; [lia|]. right. lia.
Qed.

Lemma put_image (val : Z * Z * Z -> list Z) junk :
  (forall p, in_box w h d p -> length (val p) = Z.to_nat n) ->
  exists m, res_foldl (fun m p => st_bytes m (texel_addr w h n p) (val p))
              (g_malloc junk (n * (w * h * d))) (texels w h d) = Ok m
    /\ image_is m w h d n val.
Proof.
  intros Hl.
  destruct (res_foldl_chunks (fun m p => st_bytes m (texel_addr w h n p) (val p))
    (texel_addr w h n) (fun p i => val p !! Z.to_nat i) n (g_malloc junk (n * (w * h * d)))
    (texels w h d)) as (m & E & Hin & Hout).
  - intros p m Hp%elem_of_texels Hm. destruct (st_bytes_ok m (texel_addr w h n p) (val p)) as (m' & E & H).
    + rewrite Hl, Z2Nat.id by (done || lia). done.
    + exists m'. split; [done|]. intros a. rewrite H, Hl, Z2Nat.id by (done || lia). done.
  - intros p i Hp%elem_of_texels Hi. split.
    + apply lookup_lt_is_Some. rewrite Hl by done. lia.
    + rewrite g_malloc_lookup, decide_True by (by apply plain_addr_range). done.
  - intros p q i j Hp%elem_of_texels Hq%elem_of_texels. by apply plain_addr_inj.
  - exists m. split; [done|]. split.
    + intros p i Hp. apply Hin. by apply elem_of_texels.
    + intros a Ha. rewrite Hout, g_malloc_lookup, decide_False; [done..|].
      intros p i Hp%elem_of_texels Hi ->. by apply Ha, plain_addr_range.
Qed.

(** ** Loops that advance a pointer *)

Lemma row_counter (f : Z -> Z -> mem -> res mem) m c :
  res_foldl (fun '(m, c) x => m ← f x c m; Ok (m, c + n)) (m, c) (zseq w)
  = (m ← res_foldl (fun m x => f x (c + n * x) m) m (zseq w); Ok (m, c + n * w)).
Proof.
  apply (res_foldl_counter _ (fun m x => f x (c + n * x) m) (fun x => c + n * x)); [lia| |done].
  intros m' k Hk. replace (c + n * k + n) with (c + n * (k + 1)) by lia. done.
Qed.

Lemma plane_counter (f : Z -> Z -> Z -> mem -> res mem) m c :
  res_foldl (fun '(m, c) y =>
    res_foldl (fun '(m, c) x => m ← f x y c m; Ok (m, c + n)) (m, c) (zseq w)) (m, c) (zseq h)
  = (m ← res_foldl (fun m y => res_foldl (fun m x => f x y (c + n * (w * y + x)) m) m (zseq w))
           m (zseq h); Ok (m, c + n * (w * h))).
Proof.
  apply (res_foldl_counter _ (fun m y =>
    res_foldl (fun m x => f x y (c + n * (w * y + x)) m) m (zseq w)) (fun y => c + n * (w * y)));
    [lia| |done].
  intros m' k Hk. rewrite row_counter.
  replace (c + n * (w * k) + n * w) with (c + n * (w * (k + 1))) by lia. f_equal.
  apply res_foldl_ext. intros m1 x _. f_equal. lia.
Qed.

Lemma box_counter slice (f : Z -> Z -> Z -> Z -> mem -> res mem) m :
  res_foldl (fun '(m, (c, s)) _ =>
    '(m, c) ← res_foldl (fun '(m, c) y =>
      res_foldl (fun '(m, c) x => m ← f x y s c m; Ok (m, c + n)) (m, c) (zseq w)) (m, c) (zseq h);
    Ok (m, (c, s + slice))) (m, (0, 0)) (zseq d)
  = (m ← res_foldl (fun m p => let '(x, y, z) := p in f x y (z * slice) (texel_addr w h n p) m)
           m (texels w h d); Ok (m, (n * (w * h) * d, d * slice))).
Proof.
  unfold texels. rewrite <- res_foldl_nest.
  apply (res_foldl_counter _ _ (fun z => (n * (w * h) * z, z * slice))); [f_equal; lia| |done].
  intros m' z Hz. rewrite plane_counter. rewrite <- res_foldl_nest.
  set (a := res_foldl _ m' (zseq h)). set (b := res_foldl _ m' (zseq h)).
  assert (a = b) as ->; [|destruct b; cbn; [do 4 f_equal; lia|done]].
  apply res_foldl_ext. intros m1 y _. rewrite <- res_foldl_fmap.
  apply res_foldl_ext. intros m2 x _. f_equal. unfold texel_addr, linear. lia.
Qed.

Lemma plane_texels (f : Z -> Z -> mem -> res mem) m :
  res_foldl (fun m y => res_foldl (fun m x => f x y m) m (zseq w)) m (zseq h)
  = res_foldl (fun m p => let '(x, y, _) := p in f x y m) m (texels w h 1).
Proof.
  unfold texels. change (zseq 1) with [0]. cbn [mbind list_bind]. rewrite app_nil_r.
  rewrite <- res_foldl_nest. apply res_foldl_ext. intros m1 y _. by rewrite <- res_foldl_fmap.
Qed.

End Image.

(** ** Each texel is converted as the reference says *)

Lemma cliptobyte_eq x : cliptobyte (Z.shiftr x 8) = Z.max 0 (Z.min 255 (x / 256)).
Proof.
  unfold cliptobyte. rewrite Z.shiftr_div_pow2 by lia. change (2 ^ 8) with 256.
  destruct (Z.ltb_spec (x / 256) 0); [|destruct (Z.ltb_spec 255 (x / 256))];
    rewrite uwrap_id; lia.
Qed.

Lemma ld_at data a n b : bytes_valid data a n -> a <= b < a + n -> ld data b = Ok (byte_at data b).
Proof. intros Hv Hb. apply ld_byte. eapply bytes_valid_sub; [exact Hv|lia..]. Qed.

Lemma yuy2_texel data line x n : bytes_valid data line n -> 0 <= x -> 4 * (x / 2) + 3 < n -> x < 2 ^ 30 ->
  (rgb ← convert_yuy2_to_rgb data line x; Ok (rgb ++ [255])) = Ok (ref_yuv 0 1 3 data line x).
Proof.
  intros Hv Hx Hn H30. unfold convert_yuy2_to_rgb, ref_yuv. cbv zeta.
  destruct (Z.eqb_spec (x mod 2) 0) as [E|E]; cbn [negb];
    [replace (x * 2 + 1) with (4 * (x / 2) + 1) by dlia; replace (x * 2 + 3) with (4 * (x / 2) + 3) by dlia
    |replace (x * 2 - 1) with (4 * (x / 2) + 1) by dlia; replace (x * 2 + 1) with (4 * (x / 2) + 3) by dlia];
    replace (x * 2) with (2 * x + 0) by lia;
    rewrite !(uwrap_id 32) by dlia; rewrite !(ld_at data line n) by (done || dlia);
    cbn [mbind res_mbind res_bind yuv_to_rgb app]; by rewrite !cliptobyte_eq.
Qed.

Lemma uyvy_texel data line x n : bytes_valid data line n -> 0 <= x -> 4 * (x / 2) + 3 < n -> x < 2 ^ 30 ->
  (rgb ← convert_uyvy_to_rgb data line x; Ok (rgb ++ [255])) = Ok (ref_yuv 1 0 2 data line x).
Proof.
  intros Hv Hx Hn H30. unfold convert_uyvy_to_rgb, ref_yuv. cbv zeta.
  replace (x * 2 + 1) with (2 * x + 1) by lia.
  destruct (Z.eqb_spec (x mod 2) 0) as [E|E]; cbn [negb];
    [replace (x * 2 + 0) with (4 * (x / 2) + 0) by dlia; replace (x * 2 + 2) with (4 * (x / 2) + 2) by dlia
    |replace (x * 2 - 2) with (4 * (x / 2) + 0) by dlia; replace (x * 2 + 0) with (4 * (x / 2) + 2) by dlia];
    rewrite !(uwrap_id 32) by dlia; rewrite !(ld_at data line n) by (done || dlia);
    cbn [mbind res_mbind res_bind yuv_to_rgb app]; by rewrite !cliptobyte_eq.
Qed.

(** Flipping the sign bit turns two's complement into an offset. *)
Lemma flip_sign5 v : Z.lxor (v mod 32) 16 = swrap 5 v + 16.
Proof.
  unfold swrap. change (2 ^ 5) with 32. change (2 ^ (5 - 1)) with 16.
  pose proof (Z.mod_pos_bound v 32 ltac:(lia)) as Hv. generalize dependent (v mod 32). clear v.
  intros v Hv.
  assert (Hall : Forall (fun v => Z.lxor v 16 = (if v <? 16 then v else v - 32) + 16) (zseq 32))
    by (repeat constructor).
  rewrite Forall_forall in Hall. apply Hall. by apply elem_of_zseq.
Qed.

Lemma rgb655_texel v : rgb655_bytes v = ref_rgb655 v.
Proof.
  unfold rgb655_bytes, ref_rgb655. cbv zeta.
  assert (Z.shiftr (Z.land (Z.lxor v (Z.lor (Z.shiftl 1 9) (Z.shiftl 1 4))) 0xFC00) 10
          = v / 1024 mod 64) as ->.
  { change 64 with (2 ^ 6). change 1024 with (2 ^ 10).
    rewrite <- Z.land_ones, <- Z.shiftr_div_pow2 by lia. rewrite Z.shiftr_land, Z.shiftr_lxor. 
    change (Z.shiftr (Z.lor _ _) 10) with 0. by rewrite Z.lxor_0_r. }
  assert (Z.shiftr (Z.land (Z.lxor v (Z.lor (Z.shiftl 1 9) (Z.shiftl 1 4))) 0x03E0) 5
          = swrap 5 (v / 32) + 16) as ->.
  { rewrite <- flip_sign5. change 32 with (2 ^ 5).
    rewrite <- Z.land_ones, <- Z.shiftr_div_pow2 by lia. rewrite Z.shiftr_land, Z.shiftr_lxor.
    change (Z.shiftr (Z.lor _ _) 5) with 16. change (Z.shiftr 0x03E0 5) with (Z.ones 5).
    apply Z.bits_inj'. intros i Hi. rewrite !Z.land_spec, !Z.lxor_spec, !Z.land_spec.
    destruct (Z.lt_ge_cases i 5); [by rewrite Z.ones_spec_low, !andb_true_r by lia|].
    rewrite Z.ones_spec_high, !andb_false_r by lia. by rewrite (testbit_above 5 16) by lia. }
  assert (Z.land (Z.lxor v (Z.lor (Z.shiftl 1 9) (Z.shiftl 1 4))) 0x001F = swrap 5 v + 16) as ->.
  { rewrite <- flip_sign5. change 32 with (2 ^ 5). rewrite <- Z.land_ones by lia.
    change 0x001F with (Z.ones 5). apply Z.bits_inj'. intros i Hi.
    rewrite !Z.land_spec, !Z.lxor_spec, !Z.land_spec.
    destruct (Z.lt_ge_cases i 5) as [H|].
    - rewrite Z.ones_spec_low, !andb_true_r by lia. f_equal.
      change (Z.lor _ _) with (16 + 512 * 1). rewrite <- (Z.mod_pow2_bits_low _ 5) by lia.
      done.
    - rewrite Z.ones_spec_high, !andb_false_r by lia. by rewrite (testbit_above 5 16) by lia. }
  f_equal. apply uwrap_id. dlia.
Qed.

(** ** Whole images *)

(** Sizes within 32 bits, rows as long as their texels, and all that is read is there. *)
Record convertible (c : conversion) (data palette : mem) (w h d row slice : Z) : Prop := {
  cv_w : 0 <= w;
  cv_h : 0 <= h;
  cv_d : 0 <= d;
  cv_flat : c <> Palette -> d = 1;
  cv_size : 4 * (w * h * d) < 2 ^ 32;
  cv_width : w < 2 ^ 30;
  cv_row : w <= row;
  cv_rows : h * row < 2 ^ 32;
  cv_data : forall y z, 0 <= y < h -> 0 <= z < d ->
    bytes_valid data (z * slice + y * row) (row_bytes c w);
  cv_palette : c = Palette -> bytes_valid palette 0 1024
}.

Lemma ref_converted_length c data palette row slice p :
  length (ref_converted c data palette row slice p) = Z.to_nat (converted_bpp c).
Proof. by destruct p as [[x y] z], c. Qed.

Lemma row_wraps h w row y : 0 <= w <= row -> h * row < 2 ^ 32 -> 0 <= y < h -> u32 (y * row) = y * row.
Proof. intros. apply uwrap_id. nia. Qed.

Definition put_converted (c : conversion) (data palette : mem) (w h row slice : Z) (m : mem)
    (p : Z * Z * Z) : res mem :=
  st_bytes m (texel_addr w h (converted_bpp c) p) (ref_converted c data palette row slice p).

Section Convert.
Context (c : conversion) (data palette : mem) (w h d row slice : Z)
  (Hc : convertible c data palette w h d row slice).

#[local] Abbreviation put := (put_converted c data palette w h row slice).

Lemma converted_image junk : exists m,
  res_foldl put (g_malloc junk (converted_bpp c * (w * h * d))) (texels w h d) = Ok m
  /\ image_is m w h d (converted_bpp c) (ref_converted c data palette row slice).
Proof.
  destruct Hc. apply (put_image w h d (converted_bpp c)); [done..|by destruct c|].
  intros p _. apply ref_converted_length.
Qed.

Lemma convert_palette_run junk : c = Palette ->
  convert_palette junk data palette w h d row slice
  = (m ← res_foldl put (g_malloc junk (4 * (w * h * d))) (texels w h d); Ok (m, 4 * (w * h * d))).
Proof.
  intros ->. destruct Hc as [Hw Hh Hd _ Hs Hww Hr Hrs Hdata Hpal].
  assert (Hsz : u32 (u32 (u32 (w * h) * d) * 4) = 4 * (w * h * d)).
  { unfold uwrap. rewrite Zmult_mod_idemp_l, <- Z.mul_assoc, Zmult_mod_idemp_l.
    rewrite Z.mod_small; nia. }
  unfold convert_palette. rewrite Hsz. cbv zeta.
  set (g := fun x y s c m => index ← ld data (s + u32 (u32 (y * row) + x));
    color ← ld_le palette 4 (index * 4); st_le m 4 c color).
  transitivity ('(m, _) ← res_foldl (fun '(m, (c, s)) _ =>
    '(m, c) ← res_foldl (fun '(m, c) y =>
      res_foldl (fun '(m, c) x => m ← g x y s c m; Ok (m, c + 4)) (m, c) (zseq w)) (m, c) (zseq h);
    Ok (m, (c, s + slice))) (g_malloc junk (4 * (w * h * d)), (0, 0)) (zseq d); Ok (m, 4 * (w * h * d))).
  { f_equal. apply res_foldl_ext. intros [m1 [c1 s1]] z _. f_equal. apply res_foldl_ext.
    intros [m2 c2] y _. apply res_foldl_ext. intros [m3 c3] x _. unfold g.
    destruct (ld data _); [|done]. cbn [mbind res_mbind res_bind]. by destruct (ld_le palette 4 _). }
  rewrite (box_counter w h d 4) by lia. rewrite res_bind_pair. f_equal.
  apply res_foldl_ext. intros m [[x y] z] (Hx & Hy & Hz)%elem_of_texels. unfold g, put_converted.
  rewrite (row_wraps h w row), (uwrap_id 32 (y * row + x)) by nia.
  rewrite (ld_at data (z * slice + y * row) w) by (by apply Hdata || lia). cbn [mbind res_mbind res_bind].
  replace (z * slice + (y * row + x)) with (z * slice + y * row + x) by lia.
  set (i := byte_at data _).
  assert (Hi : is_u8 i).
  { apply ld_byte. eapply bytes_valid_sub; [by apply (Hdata y z)|cbn; lia..]. }
  unfold in_uw in Hi. change (2 ^ 8) with 256 in Hi.
  assert (Hv : bytes_valid palette (i * 4) 4)
    by (eapply bytes_valid_sub; [by apply Hpal|lia..]).
  rewrite ld_le_ok by done. cbn [mbind res_mbind res_bind].
  rewrite st_le_bytes, le_bytes_at by done. cbn [ref_converted]. fold i. unfold ref_palette.
  by replace (4 * i) with (i * 4) by lia.
Qed.

Lemma convert_yuv_run junk fmt :
  c = (if fmt =? NV097_SET_TEXTURE_FORMAT_COLOR_LC_IMAGE_CR8YB8CB8YA8 then Yuy2 else Uyvy) ->
  convert_yuv junk fmt data w h d row
  = (m ← res_foldl put (g_malloc junk (4 * (w * h * d))) (texels w h d); Ok (m, 4 * (w * h * d))).
Proof.
  intros Ec. assert (Hn : converted_bpp c = 4) by (rewrite Ec; by case_match).
  assert (d = 1) as -> by (destruct Hc; apply cv_flat0; rewrite Ec; by case_match).
  destruct Hc as [Hw Hh Hd _ Hs Hww Hr Hrs Hdata _].
  unfold convert_yuv. cbn [Z.eqb Pos.eqb c_assert mbind res_mbind res_bind].
  assert (u32 (u32 (w * h) * 4) = 4 * (w * h * 1)) as ->.
  { unfold uwrap. rewrite Zmult_mod_idemp_l. rewrite Z.mod_small; nia. }
  set (g := fun x y c m => rgb ← (if fmt =? NV097_SET_TEXTURE_FORMAT_COLOR_LC_IMAGE_CR8YB8CB8YA8
     then convert_yuy2_to_rgb data (u32 (u32 (y * row) * 1)) x
     else convert_uyvy_to_rgb data (u32 (u32 (y * row) * 1)) x); st_bytes m c (rgb ++ [255])).
  transitivity ('(m, _) ← res_foldl (fun '(m, c) y =>
    res_foldl (fun '(m, c) x => m ← g x y c m; Ok (m, c + 4)) (m, c) (zseq w))
    (g_malloc junk (4 * (w * h * 1)), 0) (zseq h); Ok (m, 4 * (w * h * 1))).
  { f_equal. apply res_foldl_ext. intros [m1 c1] y _. apply res_foldl_ext. intros [m2 c2] x _.
    unfold g. destruct (fmt =? _); [by destruct (convert_yuy2_to_rgb _ _ _)
      |by destruct (convert_uyvy_to_rgb _ _ _)]. }
  rewrite (plane_counter w h 4) by lia. rewrite res_bind_pair. f_equal.
  rewrite (plane_texels w h (fun x y => g x y (0 + 4 * (w * y + x)))).
  apply res_foldl_ext. intros m [[x y] z] (Hx & Hy & Hz)%elem_of_texels. unfold g, put_converted. rewrite Hn.
  assert (z = 0) as -> by lia. rewrite (row_wraps h w row), Z.mul_1_r, (row_wraps h w row) by lia.
  replace (0 + 4 * (w * y + x)) with (texel_addr w h 4 (x, y, 0)) by (unfold texel_addr, linear; lia).
  specialize (Hdata y 0 Hy Hz). rewrite Z.mul_0_l, Z.add_0_l in Hdata.
  transitivity (l ← (if fmt =? NV097_SET_TEXTURE_FORMAT_COLOR_LC_IMAGE_CR8YB8CB8YA8
    then rgb ← convert_yuy2_to_rgb data (y * row) x; Ok (rgb ++ [255])
    else rgb ← convert_uyvy_to_rgb data (y * row) x; Ok (rgb ++ [255]));
    st_bytes m (texel_addr w h 4 (x, y, 0)) l).
  { destruct (fmt =? _); [by destruct (convert_yuy2_to_rgb data (y * row) x)
      |by destruct (convert_uyvy_to_rgb data (y * row) x)]. }
  rewrite Ec in *. destruct (fmt =? _).
  - rewrite (yuy2_texel data _ x (4 * ((w + 1) / 2))) by (done || dlia). done.
  - rewrite (uyvy_texel data _ x (4 * ((w + 1) / 2))) by (done || dlia). done.
Qed.

Lemma convert_rgb655_run junk : c = Rgb655 ->
  convert_rgb655 junk data w h d row
  = (m ← res_foldl put (g_malloc junk (3 * (w * h * d))) (texels w h d); Ok (m, 3 * (w * h * d))).
Proof.
  intros Ec. assert (d = 1) as -> by (destruct Hc; apply cv_flat0; by rewrite Ec).
  subst c. destruct Hc as [Hw Hh Hd _ Hs Hww Hr Hrs Hdata _].
  unfold convert_rgb655. cbn [Z.eqb Pos.eqb c_assert mbind res_mbind res_bind].
  assert (u32 (u32 (w * h) * 3) = 3 * (w * h * 1)) as ->.
  { unfold uwrap. rewrite Zmult_mod_idemp_l. rewrite Z.mod_small; nia. }
  f_equal.
  rewrite (plane_texels w h (fun x y m => rgb655 ← ld_le data 2 (u32 (y * row) + x * 2);
    st_bytes m (u32 (u32 (u32 (y * w) + x) * 3)) (rgb655_bytes rgb655))).
  apply res_foldl_ext. intros m [[x y] z] (Hx & Hy & Hz)%elem_of_texels. unfold put_converted.
  assert (z = 0) as -> by lia. rewrite (row_wraps h w row) by lia.
  specialize (Hdata y 0 Hy Hz). rewrite Z.mul_0_l, Z.add_0_l in Hdata. cbn [row_bytes] in Hdata.
  rewrite ld_le_ok by (eapply bytes_valid_sub; [exact Hdata|lia..]). cbn [mbind res_mbind res_bind].
  rewrite rgb655_texel. cbn [ref_converted converted_bpp].
  replace (y * row + x * 2) with (y * row + 2 * x) by lia.
  assert (0 <= y * w + x < w * h) by nia.
  assert (u32 (u32 (u32 (y * w) + x) * 3) = texel_addr w h 3 (x, y, 0)) as ->; [|done].
  unfold uwrap. rewrite Zmult_mod_idemp_l, Z.mul_add_distr_r, <- Zplus_mod_idemp_l, Zmult_mod_idemp_l.
  rewrite Zplus_mod_idemp_l, Z.mod_small by nia. unfold texel_addr, linear. lia.
Qed.

End Convert.

Lemma convert_some c data palette w h d row slice junk s :
  convertible c data palette w h d row slice -> conversion_of (tex_format s) = Some c ->
  exists m, pgraph_convert_texture_data junk s data palette w h d row slice
      = Ok (Some (m, converted_bpp c * (w * h * d)))
    /\ image_is m w h d (converted_bpp c) (ref_converted c data palette row slice).
Proof.
  intros Hc Ec. destruct (converted_image _ _ _ _ _ _ _ _ Hc junk) as (m & E & Hm). exists m. split; [|done].
  unfold conversion_of in Ec. unfold pgraph_convert_texture_data.
  destruct (tex_format s =? NV097_SET_TEXTURE_FORMAT_COLOR_SZ_I8_A8R8G8B8).
  { injection Ec as <-. cbn [converted_bpp] in E |- *. rewrite (convert_palette_run _ _ _ _ _ _ _ _ Hc) by done. by rewrite E. }
  destruct (tex_format s =? NV097_SET_TEXTURE_FORMAT_COLOR_LC_IMAGE_CR8YB8CB8YA8) eqn:E1.
  { injection Ec as <-. cbn [converted_bpp] in E |- *. cbn [orb]. rewrite (convert_yuv_run _ _ _ _ _ _ _ _ Hc) by (by rewrite E1). by rewrite E. }
  destruct (tex_format s =? NV097_SET_TEXTURE_FORMAT_COLOR_LC_IMAGE_YB8CR8YA8CB8); cbn [orb].
  { injection Ec as <-. cbn [converted_bpp] in E |- *. rewrite (convert_yuv_run _ _ _ _ _ _ _ _ Hc) by (by rewrite E1). by rewrite E. }
  destruct (tex_format s =? NV097_SET_TEXTURE_FORMAT_COLOR_SZ_R6G5B5); [|done].
  injection Ec as <-. cbn [converted_bpp] in E |- *. rewrite (convert_rgb655_run _ _ _ _ _ _ _ _ Hc) by done. by rewrite E.
Qed.

Lemma convert_none junk s data palette w h d row slice : conversion_of (tex_format s) = None ->
  pgraph_convert_texture_data junk s data palette w h d row slice = Ok None.
Proof.
  unfold conversion_of, pgraph_convert_texture_data. intros Ec. by repeat case_match.
Qed.

(** What is converted, and how many bytes a texel of it takes. *)
Lemma conversion_format fmt f c : aget kelvin_color_format_info_map fmt = Ok f ->
  conversion_of fmt = Some c ->
  (bytes_per_pixel f, is_linear f)
  = match c with Palette => (1, false) | Rgb655 => (2, false) | _ => (2, true) end.
Proof.
  unfold conversion_of. intros Hf Hc. repeat case_match; simplify_eq;
    repeat match goal with H : (fmt =? _) = true |- _ => apply Z.eqb_eq in H; subst fmt end;
    vm_compute in Hf; by injection Hf as <-.
Qed.

(** ** What the registers can describe *)

Lemma format_bpp : Forall (fun f => 0 <= bytes_per_pixel f <= 4) kelvin_color_format_info_map.
Proof. vm_compute. repeat constructor; discriminate. Qed.

(** A linear image of at most 8191 by 8191 texels, or sides of 1 to 2^15 texels with at least one
    mipmap level and none smaller than one texel. *)
Record shape_wf (s : TextureShape) (f : BasicColorFormatInfo) : Prop := {
  sh_format : aget kelvin_color_format_info_map (tex_format s) = Ok f;
  sh_bpp : 0 < bytes_per_pixel f <= 4;
  sh_dims : 0 <= dimensionality s < 4;
  sh_linear : is_linear f = true -> dimensionality s = 2 /\ tex_depth s = 1
    /\ 0 <= tex_width s < 2 ^ 13 /\ 0 <= tex_height s < 2 ^ 13 /\ 0 <= tex_pitch s < 2 ^ 16;
  sh_swizzled : is_linear f = false -> exists a b c, 0 <= a < 16 /\ 0 <= b < 16 /\ 0 <= c < 16
    /\ tex_width s = 2 ^ a /\ tex_height s = 2 ^ b /\ tex_depth s = 2 ^ c
    /\ 1 <= tex_levels s < 16 /\ tex_levels s <= Z.max a b + 1
    /\ (dimensionality s = 3 -> tex_levels s = 1 \/ tex_levels s < Z.min a b)
}.

Lemma swizzled_levels_ok dims levels top a b n : 0 <= levels < 16 -> 0 <= a -> 0 <= b ->
  swizzled_levels dims levels top a b = Ok n ->
  1 <= n < 16 /\ n <= Z.max a b + 1 /\ (dims = 3 -> n = 1 \/ n < Z.min a b).
Proof.
  intros Hl Ha Hb. unfold swizzled_levels. cbv zeta. intros E.
  apply res_bind_Ok in E as ([] & Hp%c_assert_Ok%Z.ltb_lt & E). injection E as <-.
  destruct (Z.eqb_spec dims 3); [|lia].
  destruct (Z.ltb_spec a 2), (Z.ltb_spec b 2); cbn [orb]; lia.
Qed.

Lemma texture_shape_wf pg i s : pgraph_get_texture_shape pg i = Ok s -> exists f, shape_wf s f.
Proof.
  unfold pgraph_get_texture_shape. cbv zeta. intros E.
  repeat (apply res_bind_Ok in E as (? & ? & E)).
  destruct (bytes_per_pixel _ =? 0) eqn:Hb; [done|]. apply Z.eqb_neq in Hb.
  match goal with H : aget _ _ = Ok ?f |- _ => rename H into Hf; exists f end.
  pose proof (aget_Ok _ _ _ Hf) as [_ Hlk].
  pose proof (Forall_lookup_1 _ _ _ _ format_bpp Hlk) as Hbpp. cbn beta in Hbpp.
  destruct (is_linear _) eqn:El; apply res_bind_Ok in E as (n & Hn & E); injection E as <-;
    constructor; cbn; try done; try lia; try exact (GET_MASK_range _ _ 6 2); intros; try congruence.
  - destruct n. apply c_assert_Ok, Z.eqb_eq in Hn. split; [done|]. split; [done|].
    split; [exact (GET_MASK_range _ _ 16 13)|]. split; [exact (GET_MASK_range _ _ 0 13)|].
    exact (GET_MASK_range _ _ 16 16).
  - match type of Hn with swizzled_levels _ (GET_MASK ?v _) _ _ _ = _ =>
      pose proof (GET_MASK_range v NV_PGRAPH_TEXFMT0_MIPMAP_LEVELS 16 4) as Hl;
      pose proof (GET_MASK_range v NV_PGRAPH_TEXFMT0_BASE_SIZE_U 20 4) as Ha;
      pose proof (GET_MASK_range v NV_PGRAPH_TEXFMT0_BASE_SIZE_V 24 4) as Hb';
      pose proof (GET_MASK_range v NV_PGRAPH_TEXFMT0_BASE_SIZE_P 28 4) as Hc end.
    apply swizzled_levels_ok in Hn as (Hn & Hm & Hvol); [|done|lia|lia].
    match type of Ha with _ <= ?x < _ => exists x end. match type of Hb' with _ <= ?x < _ => exists x end.
    match type of Hc with _ <= ?x < _ => exists x end. by rewrite !Z.shiftl_1_l.
Qed.

End Texture.
