(* ===== verification/TextureLayout.v ===== *)
(** * Decoding a texture (hw/xbox/nv2a/pgraph/vk/texture.c)

    [get_texture_layout] turns the texture of a stage, as it is in memory, into one plain
    image per layer and mipmap level.  It is where shapes, addresses, unswizzling, S3TC
    decompression and conversions come together.

    A C pointer into video memory is the memory seen from an offset, [ptr]. *)

From S2P Require Import Prelude Swizzle S3tc Nv2aRegs Nv2aState Texture.
Import Nv2aState Texture.
Import Swizzle(unswizzle_box, unswizzle_rect, linear, in_box).
Import S3tc(S3TC_DECOMPRESS_FORMAT(..), s3tc_decompress_2d, s3tc_decompress_3d).

Module TextureLayout.

(** ** The code *)

Definition ptr (m : mem) (off : Z) : mem := kmap (fun a => a - off) m.

Record TextureLevel := {
  level_width : Z;
  level_height : Z;
  level_depth : Z;
  decoded_data : mem;
  decoded_size : Z
}.

(** [layers[6]], each with [levels[16]]; an entry that is not there is all zero. *)
Abbreviation TextureLayout := (gmap (Z * Z) TextureLevel).

Definition set_level (layout : TextureLayout) (layer level : Z) (v : TextureLevel)
  : res TextureLayout :=
  if (0 <=? layer) && (layer <? 6) && (0 <=? level) && (level <? 16)
  then Ok (<[(layer, level) := v]> layout) else Fault OutOfBounds.

Definition kelvin_format_to_s3tc_format (color_format : Z) : res S3TC_DECOMPRESS_FORMAT :=
  switch color_format
    [(NV097_SET_TEXTURE_FORMAT_COLOR_L_DXT1_A1R5G5B5, Ok S3TC_DECOMPRESS_FORMAT_DXT1);
     (NV097_SET_TEXTURE_FORMAT_COLOR_L_DXT23_A8R8G8B8, Ok S3TC_DECOMPRESS_FORMAT_DXT3);
     (NV097_SET_TEXTURE_FORMAT_COLOR_L_DXT45_A8R8G8B8, Ok S3TC_DECOMPRESS_FORMAT_DXT5)]
    (Fault AssertFail).

(** Row [i] of [height] rows. *)
Definition memcpy_image (dst src : mem) (min_stride dst_stride src_stride height : Z) : res mem :=
  res_foldl (fun dst i => memcpy src (i * src_stride) dst (i * dst_stride) min_stride)
    dst (zseq height).

(** The loop over the levels, which does not keep the sides from becoming zero. *)
Fixpoint layer_chain (levels : nat) (size : Z -> Z -> Z) (w h length : Z) : Z :=
  match levels with
  | O => length
  | S levels => layer_chain levels size (w / 2) (h / 2) (u64 (length + size w h))
  end.

(** [w / 4 * h / 4 * block_size] *)
Definition layer_blocks_size (block_size w h : Z) : Z := u32 (u32 (w / 4 * h) / 4 * block_size).

(** Bordered textures are larger than their registers say. *)
Definition with_border (f : BasicColorFormatInfo) (s : TextureShape) (v : Z) : Z :=
  if negb (is_linear f) && border s then Z.max 16 (u32 (v * 2)) else v.

Definition get_cubemap_layer_size (s : TextureShape) : res Z :=
  f ← aget kelvin_color_format_info_map (tex_format s);
  let size := if pgraph_is_texture_format_compressed (tex_format s)
              then layer_blocks_size (dxt_block_size (tex_format s)) else texels_size (bytes_per_pixel f) in
  Ok (align_face (layer_chain (Z.to_nat (tex_levels s)) size
        (with_border f s (tex_width s)) (with_border f s (tex_height s)) 0)).

Section Decode.
Context (junk : Z -> Z) (s : TextureShape) (f : BasicColorFormatInfo) (palette_data : mem).

(** The bodies of the loops over the levels: the image and by how much the pointer
    advances.  The size reported for a bordered cube map is that of the registers. *)
Definition reported (width height : Z) : Z * Z :=
  if cubemap s && negb (with_border f s (tex_width s) =? tex_width s)
  then (tex_width s, tex_height s) else (width, height).

Definition compressed_level_2d (texture_data : mem) (width height : Z) : res (TextureLevel * Z) :=
  fmt ← kelvin_format_to_s3tc_format (tex_format s);
  converted ← s3tc_decompress_2d junk fmt texture_data width height;
  let '(rw, rh) := reported width height in
  Ok ({| level_width := rw; level_height := rh; level_depth := 1; decoded_data := converted;
         decoded_size := u32 (u32 (width * height) * 4) |},
      u32 (align4 width / 4 * align4 height) / 4 * dxt_block_size (tex_format s)).

Definition swizzled_level_2d (texture_data : mem) (width height : Z) : res (TextureLevel * Z) :=
  let bpp := bytes_per_pixel f in
  let pitch := u32 (width * bpp) in
  unswizzled ← unswizzle_rect texture_data width height (g_malloc junk (u32 (height * pitch))) pitch bpp;
  converted ← pgraph_convert_texture_data junk s unswizzled palette_data width height 1 pitch 0;
  let '(rw, rh) := reported width height in
  let '(data, size) := default (unswizzled, u32 (height * pitch)) converted in
  Ok ({| level_width := rw; level_height := rh; level_depth := 1; decoded_data := data;
         decoded_size := size |},
      u32 (u32 (width * height) * bpp)).

Definition compressed_level_3d (texture_data : mem) (width height depth : Z)
  : res (TextureLevel * Z) :=
  fmt ← kelvin_format_to_s3tc_format (tex_format s);
  converted ← s3tc_decompress_3d junk fmt texture_data width height depth;
  Ok ({| level_width := width; level_height := height; level_depth := depth;
         decoded_data := converted; decoded_size := u32 (u32 (u32 (width * height) * depth) * 4) |},
      u32 (u32 (align4 width / 4 * align4 height) / 4 * depth) * dxt_block_size (tex_format s)).

Definition swizzled_level_3d (texture_data : mem) (width height depth : Z)
  : res (TextureLevel * Z) :=
  let bpp := bytes_per_pixel f in
  let row_pitch := u32 (width * bpp) in
  let slice_pitch := u32 (row_pitch * height) in
  let unswizzled_size := u32 (slice_pitch * depth) in
  unswizzled ← unswizzle_box texture_data width height depth (g_malloc junk unswizzled_size)
                 row_pitch slice_pitch bpp;
  converted ← pgraph_convert_texture_data junk s unswizzled palette_data width height depth
                row_pitch slice_pitch;
  let '(data, size) := default (unswizzled, unswizzled_size) converted in
  Ok ({| level_width := width; level_height := height; level_depth := depth; decoded_data := data;
         decoded_size := size |},
      u32 (u32 (u32 (width * height) * depth) * bpp)).

(** The levels of a layer, from [level] on. *)
Fixpoint levels_2d (n : nat) (vram : mem) (layer level off width height : Z) (layout : TextureLayout)
  : res TextureLayout :=
  match n with
  | O => Ok layout
  | S n =>
      let width := Z.max width 1 in
      let height := Z.max height 1 in
      '(v, advance) ← (if pgraph_is_texture_format_compressed (tex_format s)
                       then compressed_level_2d (ptr vram off) width height
                       else swizzled_level_2d (ptr vram off) width height);
      layout ← set_level layout layer level v;
      levels_2d n vram layer (level + 1) (off + advance) (width / 2) (height / 2) layout
  end.

Fixpoint levels_3d (n : nat) (vram : mem) (level off width height depth : Z) (layout : TextureLayout)
  : res TextureLayout :=
  match n with
  | O => Ok layout
  | S n =>
      let width := Z.max width 1 in
      let height := Z.max height 1 in
      let depth := Z.max depth 1 in
      '(v, advance) ← (if pgraph_is_texture_format_compressed (tex_format s)
                       then compressed_level_3d (ptr vram off) width height depth
                       else swizzled_level_3d (ptr vram off) width height depth);
      layout ← set_level layout 0 level v;
      levels_3d n vram (level + 1) (off + advance) (width / 2) (height / 2) (depth / 2) layout
  end.

Definition layout_linear (texture_data : mem) : res TextureLayout :=
  let bpp := bytes_per_pixel f in
  let '(width, height, pitch) := (tex_width s, tex_height s, tex_pitch s) in
  _ ← (if bpp =? 0 then Fault DivByZero else c_assert (pitch mod bpp =? 0));
  converted ← pgraph_convert_texture_data junk s texture_data palette_data width height 1 pitch 0;
  '(data, size) ←
    (match converted with
     | Some r => Ok r
     | None =>
         let dst_stride := s32 (u32 (width * bpp)) in
         let size := u32 (dst_stride * height) in
         data ← memcpy_image (g_malloc junk size) texture_data dst_stride dst_stride (s32 pitch) (s32 height);
         Ok (data, size)
     end);
  _ ← c_assert (tex_levels s =? 1);
  set_level ∅ 0 0 {| level_width := width; level_height := height; level_depth := 1;
                      decoded_data := data; decoded_size := size |}.

End Decode.

Section Device.
Context {X : Type}.
Implicit Types d : NV2AState X.

Definition get_texture_layout (junk : Z -> Z) d (texture_idx : Z) : res TextureLayout :=
  s ← pgraph_get_texture_shape (pgraph d) texture_idx;
  f ← aget kelvin_color_format_info_map (tex_format s);
  _ ← (if is_linear f then c_assert (dimensionality s =? 2) else Ok tt);
  _ ← (if cubemap s then
         _ ← c_assert (dimensionality s =? 2); c_assert (negb (is_linear f))
       else Ok tt);
  _ ← c_assert (1 <? dimensionality s);
  texture_vram_offset ← pgraph_get_texture_phys_addr d texture_idx;
  '(texture_palette_vram_offset, _) ← pgraph_get_texture_palette_phys_addr_length d texture_idx;
  let palette_data := ptr (vram d) texture_palette_vram_offset in
  if is_linear f then layout_linear junk s f palette_data (ptr (vram d) texture_vram_offset)
  else
    let width := with_border f s (tex_width s) in
    let height := with_border f s (tex_height s) in
    let depth := with_border f s (tex_depth s) in
    let levels := Z.to_nat (tex_levels s) in
    if dimensionality s =? 2 then
      layer_size ← (if cubemap s then get_cubemap_layer_size s else Ok 0);
      res_foldl (fun layout layer =>
        levels_2d junk s f palette_data levels (vram d) layer 0
          (texture_vram_offset + u64 (layer * layer_size)) width height layout)
        ∅ (zseq (if cubemap s then 6 else 1))
    else if dimensionality s =? 3 then
      levels_3d junk s f palette_data levels (vram d) 0 texture_vram_offset width height depth ∅
    else Ok ∅.

End Device.

(** ** Reference: the bytes of one decoded texel *)

#[global] Instance sub_inj off : Inj (=) (=) (fun a => a - off).
Proof. intros a b. lia. Qed.

Lemma ptr_lookup (m : mem) off a : ptr m off !! a = m !! (off + a).
Proof.
  unfold ptr. replace a with (off + a - off) at 1 by lia.
  by apply (lookup_kmap (fun a => a - off)).
Qed.

Lemma ptr_byte (m : mem) off a : byte_at (ptr m off) a = byte_at m (off + a).
Proof. unfold byte_at. by rewrite ptr_lookup. Qed.

Lemma ptr_valid (m : mem) off a n : bytes_valid m (off + a) n -> bytes_valid (ptr m off) a n.
Proof.
  intros Hv b Hb. rewrite ptr_lookup. apply Hv. lia.
Qed.

Definition s3tc_of (color_format : Z) : S3TC_DECOMPRESS_FORMAT :=
  if color_format =? NV097_SET_TEXTURE_FORMAT_COLOR_L_DXT1_A1R5G5B5 then S3TC_DECOMPRESS_FORMAT_DXT1
  else if color_format =? NV097_SET_TEXTURE_FORMAT_COLOR_L_DXT23_A8R8G8B8
  then S3TC_DECOMPRESS_FORMAT_DXT3 else S3TC_DECOMPRESS_FORMAT_DXT5.

Definition rgba (t : S3tc.texel) : list Z := let '(r, g, b, a) := t in [r; g; b; a].

(** Texel [p] of a level of sides [w], [h], [d] whose data start at [data]: decompressed,
    or taken from its place in Z order and converted if its format is. *)
Definition ref_level_texel (fmt bpp : Z) (data palette : mem) (w h d : Z) (p : Z * Z * Z) : list Z :=
  if pgraph_is_texture_format_compressed fmt then rgba (S3tc.image_texel (s3tc_of fmt) data w h d p)
  else
    let a := Swizzle.weave3 (Swizzle.layout w h d) p * bpp in
    match conversion_of fmt with
    | Some Palette => ref_palette palette (byte_at data a)
    | Some Rgb655 => ref_rgb655 (le_at data 2 a)
    | _ => byte_at data <$> seqZ a bpp
    end.

(** Texel [p] of a linear texture. *)
Definition ref_linear_texel (fmt bpp pitch : Z) (data palette : mem) (p : Z * Z * Z) : list Z :=
  match conversion_of fmt with
  | Some c => ref_converted c data palette pitch 0 p
  | None => byte_at data <$> seqZ (linear pitch 0 bpp p) bpp
  end.

Definition decoded_bpp (fmt bpp : Z) : Z :=
  if pgraph_is_texture_format_compressed fmt then 4
  else match conversion_of fmt with Some c => converted_bpp c | None => bpp end.

(** ** One level *)

Lemma image_is_ext m w h d n val val' : (forall p, in_box w h d p -> val p = val' p) ->
  image_is m w h d n val -> image_is m w h d n val'.
Proof. intros He [H1 H2]. split; [|done]. intros p i Hp Hi. rewrite <- He by done. by apply H1. Qed.

Lemma seqZ_byte data a n i : 0 <= i < n ->
  (byte_at data <$> seqZ a n) !! Z.to_nat i = Some (byte_at data (a + i)).
Proof.
  intros Hi. rewrite list_lookup_fmap. rewrite (proj2 (lookup_seqZ a n (Z.to_nat i) (a + i))); [done|].
  lia.
Qed.

Lemma decompressed_image m f data w h d : S3tc.image_spec f data w h d m ->
  image_is m w h d 4 (fun p => rgba (S3tc.image_texel f data w h d p)).
Proof.
  intros [Hin Hout]. split; [|done]. intros [[x y] z] i Hp Hi.
  replace (texel_addr w h 4 (x, y, z)) with (S3tc.texel_addr w h (x, y, z))
    by (unfold texel_addr, linear; cbn; lia).
  rewrite (Hin (x, y, z) i Hp Hi). destruct (S3tc.image_texel _ _ _ _ _ _) as [[[r g] b] a].
  assert (i = 0 \/ i = 1 \/ i = 2 \/ i = 3) as [->|[->|[->| ->]]] by lia; done.
Qed.

(** A box of power-of-two sides and fewer than 2^27 texels, twice the video memory. *)
Record level_dims (w h d : Z) : Prop := {
  ld_w : 0 < w;
  ld_h : 0 < h;
  ld_d : 0 < d;
  ld_size : 16 * (w * h * d) < 2 ^ 31;
  ld_pow2 : 2 ^ Swizzle.offset_bits w h d = w * h * d
}.

Lemma level_box w h d : level_dims w h d -> Swizzle.box_dims w h d.
Proof.
  intros [Hw Hh Hd Hs Hp].
  assert (0 < h * d /\ 0 < w * d /\ 0 < w * h) as (? & ? & ?) by nia.
  assert (w * h * d = w * (h * d) /\ w * h * d = h * (w * d)) as [E1 E2] by lia.
  assert (w <= w * h * d /\ h <= w * h * d /\ d <= w * h * d) as (? & ? & ?) by nia.
  clear E1 E2.
  constructor; try lia. destruct (Z.le_gt_cases (Swizzle.offset_bits w h d) 32); [done|].
  assert (2 ^ 32 <= 2 ^ Swizzle.offset_bits w h d) by (apply Z.pow_le_mono_r; lia). lia.
Qed.

Section Level.
Context (data : mem) (w h d bpp slice : Z).
Context (Hl : level_dims w h d) (Hb : 0 < bpp <= 4) (Hs : slice = w * h * bpp \/ slice = 0 /\ d = 1)
  (Hv : bytes_valid data 0 (w * h * d * bpp)).

Lemma linear_texel_addr p : in_box w h d p -> linear (w * bpp) slice bpp p = texel_addr w h bpp p.
Proof.
  destruct p as [[x y] z]. intros (_ & _ & Hz). unfold texel_addr, linear.
  destruct Hs as [E|[E E1]]; rewrite E; [lia|]. replace z with 0 by lia. lia.
Qed.

Lemma level_pitches : Swizzle.box_pitches w h d (w * bpp) slice bpp.
Proof.
  destruct Hl as [? ? ? ? Hp]. constructor; [lia|nia|destruct Hs; nia|nia|rewrite Hp; nia].
Qed.

(** What is unswizzled has texel [p] in its place. *)
Lemma unswizzled_image junk : exists m,
  unswizzle_box data w h d (g_malloc junk (w * h * d * bpp)) (w * bpp) slice bpp = Ok m
  /\ image_is m w h d bpp (fun p => byte_at data <$> seqZ (Swizzle.weave3 (Swizzle.layout w h d) p * bpp) bpp).
Proof.
  pose proof Hl as [Hw Hh Hd Hsz Hp].
  assert (Hsrc : forall p i, in_box w h d p -> 0 <= i < bpp ->
    data !! (Swizzle.weave3 (Swizzle.layout w h d) p * bpp + i)
    = Some (byte_at data (Swizzle.weave3 (Swizzle.layout w h d) p * bpp + i))).
  { intros p i _ Hi. pose proof (Swizzle.weave3_range w h d p) as Hr. rewrite Hp in Hr.
    unfold byte_at. destruct (Hv (Swizzle.weave3 (Swizzle.layout w h d) p * bpp + i)) as (v & -> & _);
      [nia|done]. }
  destruct (Swizzle.unswizzle_box_run w h d (w * bpp) slice bpp (level_box w h d Hl) level_pitches data
    (g_malloc junk (w * h * d * bpp))) as (m & E & Hin & Hout).
  - split; [lia|]. destruct Hs; nia.
  - intros p i Hbx Hi. rewrite linear_texel_addr, g_malloc_lookup, decide_True; [done| |done].
    replace (w * h * d * bpp) with (bpp * (w * h * d)) by lia. apply plain_addr_range; lia || done.
  - intros p i Hbx Hi. by rewrite Hsrc.
  - exists m. split; [done|]. split.
    + intros p i Hbx Hi. rewrite seqZ_byte by done. rewrite <- linear_texel_addr, Hin by done. by apply Hsrc.
    + intros a Ha. rewrite Hout, g_malloc_lookup, decide_False; [done|lia|].
      intros p i Hbx Hi ->. apply Ha. rewrite linear_texel_addr by done.
      apply plain_addr_range; lia || done.
Qed.

(** A plain image can be converted. *)
Lemma unswizzled_bytes m val : image_is m w h d bpp val ->
  (forall p i, in_box w h d p -> 0 <= i < bpp -> exists v, val p !! Z.to_nat i = Some v /\ is_u8 v) ->
  forall y z, 0 <= y < h -> 0 <= z < d -> bytes_valid m (z * slice + y * (w * bpp)) (w * bpp).
Proof.
  intros [Hin _] Hval y z Hy Hz a Ha. set (b := a - (z * slice + y * (w * bpp))).
  assert (Hbx : in_box w h d (b / bpp, y, z)).
  { cbn. split_and!; try lia. - apply Z.div_pos; lia. - apply Z.div_lt_upper_bound; lia. }
  pose proof (Z.mod_pos_bound b bpp ltac:(lia)) as Hm.
  destruct (Hval _ _ Hbx Hm) as (v & E & Hu). exists v. split; [|done].
  rewrite <- E, <- (Hin _ _ Hbx Hm). rewrite <- linear_texel_addr by done. f_equal. unfold linear.
  pose proof (Z.div_mod b bpp ltac:(lia)). unfold b in *. lia.
Qed.

Lemma data_bytes p i : in_box w h d p -> 0 <= i < bpp ->
  exists v, (byte_at data <$> seqZ (Swizzle.weave3 (Swizzle.layout w h d) p * bpp) bpp) !! Z.to_nat i
            = Some v /\ is_u8 v.
Proof.
  intros _ Hi. rewrite seqZ_byte by done. eexists. split; [done|].
  pose proof (Swizzle.weave3_range w h d p) as Hr. rewrite (ld_pow2 _ _ _ Hl) in Hr.
  apply ld_byte. eapply bytes_valid_sub; [exact Hv|nia..].
Qed.

(** An unswizzled texel, byte by byte. *)
Lemma unswizzled_byte m p i :
  image_is m w h d bpp (fun p => byte_at data <$> seqZ (Swizzle.weave3 (Swizzle.layout w h d) p * bpp) bpp) ->
  in_box w h d p -> 0 <= i < bpp ->
  byte_at m (linear (w * bpp) slice bpp p + i)
  = byte_at data (Swizzle.weave3 (Swizzle.layout w h d) p * bpp + i).
Proof.
  intros [Hin _] Hp Hi. unfold byte_at at 1. rewrite linear_texel_addr, Hin, seqZ_byte by done. done.
Qed.

Lemma level_size_wraps : u32 (w * bpp) = w * bpp /\ u32 (w * bpp * h) = w * h * bpp
  /\ u32 (w * h * bpp * d) = w * h * d * bpp /\ u32 (u32 (u32 (w * h) * d) * bpp) = w * h * d * bpp.
Proof.
  destruct Hl as [? ? ? Hsz _]. assert (0 < w * h) by nia.
  assert (0 < w * h * bpp <= w * h * d * bpp /\ w * bpp <= w * h * bpp) by nia.
  assert (w * h * d * bpp < 2 ^ 32) by nia.
  rewrite (uwrap_id 32 (w * h)) by nia. rewrite (uwrap_id 32 (w * h * d)) by nia.
  rewrite !uwrap_id by nia. lia.
Qed.

End Level.

Section Swizzled.
Context (s : TextureShape) (f : BasicColorFormatInfo) (data palette : mem) (w h d slice : Z).
Context (Hf : aget kelvin_color_format_info_map (tex_format s) = Ok f) (Hsz : is_linear f = false)
  (Hcomp : pgraph_is_texture_format_compressed (tex_format s) = false)
  (Hbpp : 0 < bytes_per_pixel f <= 4) (Hl : level_dims w h d)
  (Hs : slice = w * h * bytes_per_pixel f \/ slice = 0 /\ d = 1)
  (Hv : bytes_valid data 0 (w * h * d * bytes_per_pixel f))
  (Hpal : conversion_of (tex_format s) = Some Palette -> bytes_valid palette 0 1024)
  (Hflat : conversion_of (tex_format s) = Some Rgb655 -> d = 1).

(** Unswizzling and then converting gives the reference image. *)
Lemma swizzled_image junk : exists m,
  (unswizzled ← unswizzle_box data w h d (g_malloc junk (w * h * d * bytes_per_pixel f))
                  (w * bytes_per_pixel f) slice (bytes_per_pixel f);
   converted ← pgraph_convert_texture_data junk s unswizzled palette w h d (w * bytes_per_pixel f) slice;
   Ok (default (unswizzled, w * h * d * bytes_per_pixel f) converted))
  = Ok (m, decoded_bpp (tex_format s) (bytes_per_pixel f) * (w * h * d))
  /\ image_is m w h d (decoded_bpp (tex_format s) (bytes_per_pixel f))
       (ref_level_texel (tex_format s) (bytes_per_pixel f) data palette w h d).
Proof.
  destruct (unswizzled_image data w h d _ slice Hl Hbpp Hs Hv junk) as (u & -> & Hu).
  cbn [mbind res_mbind res_bind]. unfold decoded_bpp, ref_level_texel. rewrite Hcomp.
  destruct (conversion_of (tex_format s)) as [c|] eqn:Ec.
  - pose proof (conversion_format _ _ _ Hf Ec) as Ef. rewrite Hsz in Ef.
    pose proof (unswizzled_bytes w h d _ slice Hbpp Hs u _ Hu
      (data_bytes data w h d _ Hl Hbpp Hv)) as Hub.
    pose proof (unswizzled_byte data w h d _ slice Hs u) as Hby.
    pose proof Hl as [Hw Hh Hd Hdz _]. assert (0 < w * h) by nia.
    destruct (convert_some c u palette w h d (w * bytes_per_pixel f) slice junk s)
      as (m & E & Hm); [|done|].
    { assert (w <= w * h * d) by nia.
      destruct c; try done; injection Ef as Eb; rewrite Eb in *; constructor;
        try done; try lia; try nia.
      - intros y z Hy Hz. specialize (Hub y z Hy Hz). by rewrite Z.mul_1_r in Hub |- *.
      - intros _. by apply Hpal.
      - intros _. by apply Hflat.
      - intros y z Hy Hz. specialize (Hub y z Hy Hz). cbn [row_bytes]. by rewrite (Z.mul_comm 2). }
    rewrite E. exists m. split; [done|]. revert Hm. apply image_is_ext. intros [[x y] z] Hp.
    destruct c; try done; injection Ef as Eb; rewrite Eb in *; cbn [ref_converted].
    + specialize (Hby (x, y, z) 0 Hu Hp ltac:(lia)). rewrite !Z.add_0_r in Hby. rewrite <- Hby.
      unfold linear. do 2 f_equal. lia.
    + pose proof (Hby (x, y, z) 0 Hu Hp ltac:(lia)) as H0. pose proof (Hby (x, y, z) 1 Hu Hp ltac:(lia)) as H1.
      rewrite !Z.add_0_r in H0. f_equal. rewrite !le_at_S, <- H0, <- H1. unfold linear.
      replace (z * slice + y * (w * 2) + x * 2) with (y * (w * 2) + 2 * x); [done|].
      destruct Hp as (_ & _ & Hz). rewrite (Hflat eq_refl) in *. replace z with 0 by lia. lia.
  - rewrite convert_none by done. cbn [mbind res_mbind res_bind default]. exists u.
    split; [do 2 f_equal; lia|done].
Qed.

End Swizzled.

Lemma align4_eq v : 0 <= v < 2 ^ 31 -> align4 v = 4 * S3tc.nblocks v.
Proof.
  intros Hv. unfold align4, S3tc.nblocks. rewrite uwrap_id by lia.
  pose proof (S3tc.land_align4 (v + 3) ltac:(lia)) as E.
  assert (Z.land (v + 3) 0xFFFFFFFC mod 4 = 0) as Em.
  { change 4 with (2 ^ 2). rewrite <- Z.land_ones, <- Z.land_assoc by lia.
    change (Z.land 0xFFFFFFFC (Z.ones 2)) with 0. apply Z.land_0_r. }
  rewrite <- E. dlia.
Qed.

(** The memory a level takes. *)
Definition level_bytes (fmt bpp w h d : Z) : Z :=
  if pgraph_is_texture_format_compressed fmt
  then S3tc.nblocks w * S3tc.nblocks h * d * dxt_block_size fmt else w * h * d * bpp.

Lemma nblocks_le v : 0 < v -> 0 < S3tc.nblocks v <= v.
Proof. intros. unfold S3tc.nblocks. dlia. Qed.

Lemma dxt_block_s3tc fmt : pgraph_is_texture_format_compressed fmt = true ->
  kelvin_format_to_s3tc_format fmt = Ok (s3tc_of fmt)
  /\ S3tc.block_size (s3tc_of fmt) = dxt_block_size fmt.
Proof.
  unfold pgraph_is_texture_format_compressed, kelvin_format_to_s3tc_format, s3tc_of, dxt_block_size.
  cbn [switch]. intros H. by repeat case_match.
Qed.

Lemma dxt_block_size_range fmt : dxt_block_size fmt = 8 \/ dxt_block_size fmt = 16.
Proof. unfold dxt_block_size. case_match; auto. Qed.

Lemma blocks_bound w h d : level_dims w h d ->
  0 < S3tc.nblocks w * S3tc.nblocks h /\ 0 < S3tc.nblocks w * S3tc.nblocks h * d <= w * h * d.
Proof.
  intros [Hw Hh Hd _ _]. pose proof (nblocks_le w Hw). pose proof (nblocks_le h Hh).
  assert (0 < S3tc.nblocks w * S3tc.nblocks h <= w * h) by nia. nia.
Qed.

Lemma blocks_wrap w h d : level_dims w h d ->
  u32 (align4 w / 4 * align4 h) / 4 = S3tc.nblocks w * S3tc.nblocks h.
Proof.
  intros Hl. destruct (level_box w h d Hl) as [Hw Hh _ _]. pose proof Hl as [? ? ? Hs _].
  assert (w * h <= w * h * d) by nia. assert (w <= w * h /\ h <= w * h) by nia.
  pose proof (nblocks_le w). pose proof (nblocks_le h).
  rewrite !align4_eq by lia. rewrite (Z.mul_comm 4 (S3tc.nblocks w)), Z.div_mul by lia.
  rewrite uwrap_id by nia. replace (_ * (4 * _)) with (S3tc.nblocks w * S3tc.nblocks h * 4) by lia.
  apply Z.div_mul. lia.
Qed.

(** A level in the layout: its sides, the size of its image and the image itself. *)
Record level_is (fmt bpp : Z) (data palette : mem) (w h d : Z) (v : TextureLevel) : Prop := {
  li_width : level_width v = w;
  li_height : level_height v = h;
  li_depth : level_depth v = d;
  li_size : decoded_size v = decoded_bpp fmt bpp * (w * h * d);
  li_image : image_is (decoded_data v) w h d (decoded_bpp fmt bpp)
               (ref_level_texel fmt bpp data palette w h d)
}.

Section OneLevel.
Context (junk : Z -> Z) (s : TextureShape) (f : BasicColorFormatInfo) (data palette : mem) (w h d : Z).
Context (Hf : aget kelvin_color_format_info_map (tex_format s) = Ok f) (Hsz : is_linear f = false)
  (Hbpp : 0 < bytes_per_pixel f <= 4) (Hborder : border s = false) (Hl : level_dims w h d)
  (Hv : bytes_valid data 0 (level_bytes (tex_format s) (bytes_per_pixel f) w h d))
  (Hpal : conversion_of (tex_format s) = Some Palette -> bytes_valid palette 0 1024)
  (Hflat : conversion_of (tex_format s) = Some Rgb655 -> d = 1).

#[local] Abbreviation fmt := (tex_format s).
#[local] Abbreviation bpp := (bytes_per_pixel f).

Lemma reported_plain : reported s f w h = (w, h).
Proof. unfold reported, with_border. rewrite Hborder, andb_false_r, Z.eqb_refl. by destruct (cubemap s). Qed.

Lemma compressed_ok : pgraph_is_texture_format_compressed fmt = true ->
  S3tc.image_ok (s3tc_of fmt) data w h d.
Proof.
  intros Hc. destruct (dxt_block_s3tc fmt Hc) as [_ E]. pose proof (blocks_bound w h d Hl) as [_ Hb].
  pose proof Hl as [? ? ? Hs _]. pose proof (dxt_block_size_range fmt).
  unfold level_bytes in Hv. rewrite Hc in Hv. constructor; try done.
  - lia.
  - rewrite E. nia.
  - rewrite E, Z.mul_comm. exact Hv.
Qed.

Lemma size_wraps : u32 (u32 (u32 (w * h) * d) * 4) = 4 * (w * h * d).
Proof.
  destruct (level_size_wraps w h d 4) as (_ & _ & _ & ->); [done|lia|lia].
Qed.

Lemma level_3d : exists v,
  (if pgraph_is_texture_format_compressed fmt then compressed_level_3d junk s data w h d
   else swizzled_level_3d junk s f palette data w h d) = Ok (v, level_bytes fmt bpp w h d)
  /\ level_is fmt bpp data palette w h d v.
Proof.
  destruct (pgraph_is_texture_format_compressed fmt) eqn:Hc.
  - destruct (dxt_block_s3tc fmt Hc) as [E1 E2]. pose proof (compressed_ok Hc) as Hok.
    unfold compressed_level_3d. rewrite E1. cbn [mbind res_mbind res_bind].
    rewrite S3tc.decompress_3d_run by done.
    destruct (S3tc.puts_spec _ _ _ _ _ Hok junk) as (m & -> & Hm). cbn [mbind res_mbind res_bind].
    rewrite (blocks_wrap w h d Hl), size_wraps. pose proof (blocks_bound w h d Hl) as [_ Hb].
    pose proof Hl as [_ _ _ Hs _]. rewrite uwrap_id by lia.
    eexists. split; [unfold level_bytes; by rewrite Hc|].
    constructor; try done; unfold decoded_bpp; rewrite Hc; [done|].
    unfold ref_level_texel. rewrite Hc. by apply decompressed_image.
  - assert (Hv' : bytes_valid data 0 (w * h * d * bpp)) by (unfold level_bytes in Hv; by rewrite Hc in Hv).
    destruct (swizzled_image s f data palette w h d (w * h * bpp) Hf Hsz Hc Hbpp Hl
      (or_introl eq_refl) Hv' Hpal Hflat junk) as (m & E & Hm).
    destruct (level_size_wraps w h d bpp Hl Hbpp) as (E1 & E2 & E3 & E4).
    unfold swizzled_level_3d. cbv zeta. rewrite E1, E2, E3, E4.
    destruct (unswizzle_box _ _ _ _ _ _ _ _) as [u|]; [|done]. cbn [mbind res_mbind res_bind] in *.
    destruct (pgraph_convert_texture_data _ _ _ _ _ _ _ _ _) as [c|]; [|done].
    cbn [mbind res_mbind res_bind] in *. injection E as E. rewrite E.
    eexists. split; [unfold level_bytes; by rewrite Hc|]. by constructor.
Qed.

Lemma level_2d : d = 1 -> exists v,
  (if pgraph_is_texture_format_compressed fmt then compressed_level_2d junk s f data w h
   else swizzled_level_2d junk s f palette data w h) = Ok (v, level_bytes fmt bpp w h d)
  /\ level_is fmt bpp data palette w h d v.
Proof.
  intros Ed. pose proof size_wraps as Esz.
  destruct (level_size_wraps w h d bpp Hl Hbpp) as (E1 & E2 & _ & E4).
  rewrite (uwrap_id 32 (u32 (w * h) * d)) in Esz, E4
    by (rewrite Ed, Z.mul_1_r; apply uwrap_range; lia).
  destruct (pgraph_is_texture_format_compressed fmt) eqn:Hc.
  - destruct (dxt_block_s3tc fmt Hc) as [E3 E5]. pose proof (compressed_ok Hc) as Hok.
    unfold compressed_level_2d. rewrite E3. cbn [mbind res_mbind res_bind].
    pose proof Hok as Hok1. rewrite Ed in Hok1. rewrite S3tc.decompress_2d_run by done.
    destruct (S3tc.puts_spec _ _ _ _ _ Hok1 junk) as (m & -> & Hm). cbn [mbind res_mbind res_bind].
    rewrite reported_plain, (blocks_wrap w h d Hl). rewrite Ed, Z.mul_1_r in Esz. rewrite Esz.
    replace (level_bytes fmt bpp w h d) with (S3tc.nblocks w * S3tc.nblocks h * dxt_block_size fmt)
      by (unfold level_bytes; rewrite Hc, Ed; lia).
    eexists. split; [done|].
    rewrite Ed. constructor; try done; unfold decoded_bpp; rewrite Hc; [done|].
    unfold ref_level_texel. rewrite Hc. by apply decompressed_image.
  - assert (Hv' : bytes_valid data 0 (w * h * d * bpp)) by (unfold level_bytes in Hv; by rewrite Hc in Hv).
    destruct (swizzled_image s f data palette w h d 0 Hf Hsz Hc Hbpp Hl
      (or_intror (conj eq_refl Ed)) Hv' Hpal Hflat junk) as (m & E & Hm).
    unfold swizzled_level_2d, unswizzle_rect. cbv zeta.
    assert (w * h * d * bpp = w * h * bpp) as Ew by (rewrite Ed; lia).
    rewrite E1, (Z.mul_comm h (w * bpp)), E2. rewrite Ed, Z.mul_1_r in E4. rewrite E4.
    replace (level_bytes fmt bpp w h d) with (w * h * bpp) by (unfold level_bytes; rewrite Hc, Ed; lia).
    rewrite Ew, Ed in E. rewrite reported_plain.
    destruct (unswizzle_box _ _ _ _ _ _ _ _) as [u|]; [|done]. cbn [mbind res_mbind res_bind] in *.
    destruct (pgraph_convert_texture_data _ _ _ _ _ _ _ _ _) as [c|]; [|done].
    cbn [mbind res_mbind res_bind] in *. injection E as E. rewrite E.
    replace (w * h * 1 * bpp) with (w * h * bpp) by lia. eexists. split; [done|]. rewrite Ed in Hm |- *. by constructor.
Qed.

End OneLevel.

(** ** The levels of a layer *)

(** A side of level [l]. *)
Definition side (v l : Z) : Z := Z.max 1 (v / 2 ^ l).

Lemma side_0 v : Z.max v 1 = side v 0.
Proof. unfold side. rewrite Z.div_1_r. lia. Qed.

Lemma side_step v l : 0 <= l -> Z.max (side v l / 2) 1 = side v (l + 1).
Proof.
  intros Hl. unfold side. rewrite Z.pow_add_r, <- Z.div_div by lia. change (2 ^ 1) with 2.
  generalize (v / 2 ^ l). intros x. dlia.
Qed.

(** The bytes before level [n] when level [l] takes [size l]. *)
Fixpoint level_off (size : Z -> Z) (n : nat) : Z :=
  match n with O => 0 | S n => level_off size n + size (Z.of_nat n) end.

Lemma set_level_ok layout layer level v : 0 <= layer < 6 -> 0 <= level < 16 ->
  set_level layout layer level v = Ok (<[(layer, level) := v]> layout).
Proof.
  intros. unfold set_level.
  by rewrite !(proj2 (Z.leb_le _ _)), !(proj2 (Z.ltb_lt _ _)) by lia.
Qed.

(** Levels [k .. k + n) of [layer] are there, the rest is as it was. *)
Definition levels_are (good : nat -> TextureLevel -> Prop) (layer : Z) (k n : nat)
    (layout layout' : TextureLayout) : Prop :=
  (forall l, (k <= l < k + n)%nat -> exists v, layout' !! (layer, Z.of_nat l) = Some v /\ good l v)
  /\ forall q, ~ (q.1 = layer /\ Z.of_nat k <= q.2 < Z.of_nat (k + n)) -> layout' !! q = layout !! q.

Lemma levels_are_cons (good : nat -> TextureLevel -> Prop) layer k n v layout layout' : good k v ->
  levels_are good layer (S k) n (<[(layer, Z.of_nat k) := v]> layout) layout' ->
  levels_are good layer k (S n) layout layout'.
Proof.
  intros Hg [Hin Hout]. split.
  - intros l Hl. destruct (decide (l = k)) as [->|]; [|apply Hin; lia].
    exists v. split; [|done]. rewrite (Hout (layer, Z.of_nat k)) by (cbn; lia).
    by rewrite lookup_insert_eq.
  - intros [a b] Hq. cbn [fst snd] in *. rewrite Hout by (cbn; lia). rewrite lookup_insert_ne; [done|].
    intros [= <- <-]. lia.
Qed.

Section Levels.
Context (junk : Z -> Z) (s : TextureShape) (f : BasicColorFormatInfo) (vram palette : mem) (base : Z).
Context (Hf : aget kelvin_color_format_info_map (tex_format s) = Ok f) (Hsz : is_linear f = false)
  (Hbpp : 0 < bytes_per_pixel f <= 4) (Hborder : border s = false)
  (Hpal : conversion_of (tex_format s) = Some Palette -> bytes_valid palette 0 1024).

#[local] Abbreviation fmt := (tex_format s).
#[local] Abbreviation bpp := (bytes_per_pixel f).

(** The sides of level [l], and what it takes. *)
Definition size_2d (l : Z) : Z := level_bytes fmt bpp (side (tex_width s) l) (side (tex_height s) l) 1.
Definition size_3d (l : Z) : Z :=
  level_bytes fmt bpp (side (tex_width s) l) (side (tex_height s) l) (side (tex_depth s) l).

Definition good_2d (l : nat) (v : TextureLevel) : Prop :=
  level_is fmt bpp (ptr vram (base + level_off size_2d l)) palette
    (side (tex_width s) (Z.of_nat l)) (side (tex_height s) (Z.of_nat l)) 1 v.
Definition good_3d (l : nat) (v : TextureLevel) : Prop :=
  level_is fmt bpp (ptr vram (base + level_off size_3d l)) palette (side (tex_width s) (Z.of_nat l))
    (side (tex_height s) (Z.of_nat l)) (side (tex_depth s) (Z.of_nat l)) v.

Lemma levels_2d_ok layer n k width height layout : 0 <= layer < 6 -> (k + n <= 16)%nat ->
  Z.max width 1 = side (tex_width s) (Z.of_nat k) -> Z.max height 1 = side (tex_height s) (Z.of_nat k) ->
  (forall l, (k <= l < k + n)%nat ->
     level_dims (side (tex_width s) (Z.of_nat l)) (side (tex_height s) (Z.of_nat l)) 1
     /\ bytes_valid vram (base + level_off size_2d l) (size_2d (Z.of_nat l))) ->
  exists layout',
    levels_2d junk s f palette n vram layer (Z.of_nat k) (base + level_off size_2d k) width height layout
      = Ok layout'
    /\ levels_are good_2d layer k n layout layout'.
Proof.
  intros Hlayer. induction n as [|n IH] in k, width, height, layout |- *; intros Hk Ew Eh Hl.
  - exists layout. split; [done|]. split; [lia|done].
  - cbn [levels_2d]. rewrite Ew, Eh.
    destruct (Hl k ltac:(lia)) as [Hd Hv].
    destruct (level_2d junk s f (ptr vram (base + level_off size_2d k)) palette
      (side (tex_width s) (Z.of_nat k)) (side (tex_height s) (Z.of_nat k)) 1) as (v & -> & Hgood); try done.
    { apply ptr_valid. by rewrite Z.add_0_r. }
    cbn [mbind res_mbind res_bind]. rewrite set_level_ok by lia. cbn [mbind res_mbind res_bind].
    destruct (IH (S k) (side (tex_width s) (Z.of_nat k) / 2) (side (tex_height s) (Z.of_nat k) / 2)
      (<[(layer, Z.of_nat k) := v]> layout)) as (layout' & E & Hls).
    + lia.
    + rewrite side_step by lia. f_equal. lia.
    + rewrite side_step by lia. f_equal. lia.
    + intros l Hr. apply Hl. lia.
    + exists layout'. split; [|by eapply levels_are_cons].
      rewrite <- E. f_equal; [lia|]. cbn [level_off]. unfold size_2d. lia.
Qed.

Lemma levels_3d_ok n k width height depth layout : (k + n <= 16)%nat -> conversion_of fmt <> Some Rgb655 ->
  Z.max width 1 = side (tex_width s) (Z.of_nat k) -> Z.max height 1 = side (tex_height s) (Z.of_nat k) ->
  Z.max depth 1 = side (tex_depth s) (Z.of_nat k) ->
  (forall l, (k <= l < k + n)%nat ->
     level_dims (side (tex_width s) (Z.of_nat l)) (side (tex_height s) (Z.of_nat l))
       (side (tex_depth s) (Z.of_nat l))
     /\ bytes_valid vram (base + level_off size_3d l) (size_3d (Z.of_nat l))) ->
  exists layout',
    levels_3d junk s f palette n vram (Z.of_nat k) (base + level_off size_3d k) width height depth layout
      = Ok layout'
    /\ levels_are good_3d 0 k n layout layout'.
Proof.
  intros Hk Hc. revert Hk.
  induction n as [|n IH] in k, width, height, depth, layout |- *; intros Hk Ew Eh Ed Hl.
  - exists layout. split; [done|]. split; [lia|done].
  - cbn [levels_3d]. rewrite Ew, Eh, Ed. destruct (Hl k ltac:(lia)) as [Hd Hv].
    destruct (level_3d junk s f (ptr vram (base + level_off size_3d k)) palette
      (side (tex_width s) (Z.of_nat k)) (side (tex_height s) (Z.of_nat k)) (side (tex_depth s) (Z.of_nat k)))
      as (v & -> & Hgood); try done.
    { apply ptr_valid. by rewrite Z.add_0_r. }
    cbn [mbind res_mbind res_bind]. rewrite set_level_ok by lia. cbn [mbind res_mbind res_bind].
    destruct (IH (S k) (side (tex_width s) (Z.of_nat k) / 2) (side (tex_height s) (Z.of_nat k) / 2)
      (side (tex_depth s) (Z.of_nat k) / 2) (<[(0, Z.of_nat k) := v]> layout)) as (layout' & E & Hls).
    + lia.
    + rewrite side_step by lia. f_equal. lia.
    + rewrite side_step by lia. f_equal. lia.
    + rewrite side_step by lia. f_equal. lia.
    + intros l Hr. apply Hl. lia.
    + exists layout'. split; [|by eapply levels_are_cons].
      rewrite <- E. f_equal; [lia|]. cbn [level_off]. unfold size_3d. lia.
Qed.

End Levels.

(** ** Sides that are powers of two *)

Lemma side_of_pow2 a l : 0 <= a -> 0 <= l -> side (2 ^ a) l = 2 ^ Z.max 0 (a - l).
Proof.
  intros Ha Hl. unfold side. destruct (Z.le_gt_cases l a).
  - rewrite <- Z.pow_sub_r, Z.max_r, Z.max_r by lia. done.
  - rewrite Z.div_small by (split; [lia|apply Z.pow_lt_mono_r; lia]).
    by rewrite Z.max_l, Z.max_l by lia.
Qed.

Lemma side_le v l : 0 < v -> 0 <= l -> 0 < side v l <= v.
Proof.
  intros Hv Hl. unfold side. pose proof (Z.div_pos v (2 ^ l) ltac:(lia) ltac:(lia)).
  assert (v / 2 ^ l <= v) by (apply Z.div_le_upper_bound; [lia|]; nia). lia.
Qed.

Lemma pow2_level a b c l : 0 <= a -> 0 <= b -> 0 <= c -> 0 <= l -> 16 * (2 ^ a * 2 ^ b * 2 ^ c) < 2 ^ 31 ->
  level_dims (side (2 ^ a) l) (side (2 ^ b) l) (side (2 ^ c) l).
Proof.
  intros Ha Hb Hc Hl Hs. pose proof (side_le (2 ^ a) l ltac:(lia) Hl).
  pose proof (side_le (2 ^ b) l ltac:(lia) Hl). pose proof (side_le (2 ^ c) l ltac:(lia) Hl).
  constructor; try lia.
  - assert (side (2 ^ a) l * side (2 ^ b) l <= 2 ^ a * 2 ^ b) by nia. nia.
  - unfold Swizzle.offset_bits. rewrite !side_of_pow2 by done. rewrite !Z.log2_up_pow2 by lia.
    rewrite !Z.pow_add_r by lia. done.
Qed.

(** ** Lengths *)

Lemma level_off_mono size n k : (forall l, 0 <= size l) -> (k <= n)%nat ->
  0 <= level_off size k <= level_off size n.
Proof.
  intros Hs Hk. induction Hk as [|n Hk IH].
  - split; [|done]. induction k as [|k IH]; cbn; [lia|]. specialize (Hs (Z.of_nat k)). lia.
  - cbn. specialize (Hs (Z.of_nat n)). lia.
Qed.

Lemma level_off_next size n l : (forall l, 0 <= size l) -> (l < n)%nat ->
  level_off size l + size (Z.of_nat l) <= level_off size n.
Proof. intros Hs Hl. exact (proj2 (level_off_mono size n (S l) Hs Hl)). Qed.

Lemma level_off_bound size n m : (forall l, 0 <= l < Z.of_nat n -> size l < m) ->
  level_off size n <= Z.of_nat n * m.
Proof.
  induction n as [|n IH]; intros Hs; [done|]. cbn [level_off].
  assert (size (Z.of_nat n) < m) by (apply Hs; lia).
  assert (level_off size n <= Z.of_nat n * m) by (apply IH; intros; apply Hs; lia). lia.
Qed.

(** The sum the C code makes is the sum of the levels. *)
Lemma mip_chain_eq csize size W H n k w h : (k + n <= 16)%nat -> (forall l, 0 <= size l) ->
  (forall l, Z.of_nat k <= l < Z.of_nat (k + n) -> csize (side W l) (side H l) = size l) ->
  (forall l, 0 <= l < Z.of_nat (k + n) -> size l < 2 ^ 32) ->
  Z.max w 1 = side W (Z.of_nat k) -> Z.max h 1 = side H (Z.of_nat k) ->
  mip_chain n csize w h (level_off size k) = level_off size (k + n).
Proof.
  induction n as [|n IH] in k, w, h |- *; intros Hk Hs Hc Hb Ew Eh; [by rewrite Nat.add_0_r|].
  cbn [mip_chain]. rewrite Ew, Eh, Hc by lia.
  pose proof (level_off_bound size (S k) (2 ^ 32) ltac:(intros; apply Hb; lia)) as Hle.
  pose proof (level_off_mono size (S k) 0 Hs ltac:(lia)) as Hge. cbn [level_off] in Hle, Hge.
  rewrite (uwrap_id 64) by lia. change (level_off size k + size (Z.of_nat k)) with (level_off size (S k)).
  rewrite IH; [by rewrite Nat.add_succ_r|lia|done| | | |].
  - intros l Hl. apply Hc. lia.
  - intros l Hl. apply Hb. lia.
  - rewrite side_step by lia. f_equal. lia.
  - rewrite side_step by lia. f_equal. lia.
Qed.

(** What [pgraph_get_texture_length] adds for a level. *)
Definition c_size (fmt bpp : Z) : Z -> Z -> Z :=
  if negb (pgraph_is_texture_format_compressed fmt) then texels_size bpp
  else blocks_size (dxt_block_size fmt).

Lemma c_size_exact fmt bpp w h : 0 < bpp <= 4 -> level_dims w h 1 ->
  c_size fmt bpp w h = level_bytes fmt bpp w h 1 /\ 0 <= level_bytes fmt bpp w h 1 < 2 ^ 31.
Proof.
  intros Hb Hl. pose proof Hl as [? ? _ Hs _]. unfold c_size, level_bytes.
  destruct (pgraph_is_texture_format_compressed fmt); cbn [negb].
  - pose proof (blocks_bound w h 1 Hl). pose proof (dxt_block_size_range fmt).
    unfold blocks_size. rewrite (blocks_wrap w h 1 Hl). rewrite uwrap_id by nia. nia.
  - unfold texels_size. assert (0 < w * h) by nia. rewrite (uwrap_id 32 (w * h)) by lia.
    rewrite uwrap_id by nia. nia.
Qed.

Lemma align_face_eq n : 0 <= n < 2 ^ 60 -> align_face n = (n + 127) / 128 * 128.
Proof.
  intros Hn. unfold align_face. change (NV2A_CUBEMAP_FACE_ALIGNMENT - 1) with (Z.ones 7).
  replace (n + NV2A_CUBEMAP_FACE_ALIGNMENT - 1) with (n + 127) by (unfold NV2A_CUBEMAP_FACE_ALIGNMENT; lia).
  rewrite uwrap_id by lia. rewrite <- Z.ldiff_land, Z.ldiff_ones_r by lia.
  rewrite Z.shiftl_mul_pow2, Z.shiftr_div_pow2 by lia. done.
Qed.

(** ** Cube maps *)

Definition same_face (lsize csize : Z -> Z -> Z) (a : Z) (n : nat) : bool :=
  align_face (layer_chain n lsize (2 ^ a) (2 ^ a) 0) =? align_face (mip_chain n csize (2 ^ a) (2 ^ a) 0).

Lemma forall_sides (P : Z -> nat -> bool) lo :
  forallb (fun a => forallb (P a) (seq 1 (Z.to_nat a + 1))) (seqZ lo (16 - lo)) = true ->
  forall a n, lo <= a < 16 -> (0 < n <= Z.to_nat a + 1)%nat -> P a n = true.
Proof.
  intros H a n Ha Hn. rewrite forallb_forall in H.
  specialize (H a). rewrite <- list_elem_of_In, elem_of_seqZ in H. specialize (H ltac:(lia)).
  rewrite forallb_forall in H. apply H. apply in_seq. lia.
Qed.

(** The two sums differ by the blocks of the levels below 4x4, which fit the alignment. *)
Lemma square_faces fmt bpp a n : 0 < bpp <= 4 -> 0 <= a < 16 -> (0 < n <= Z.to_nat a + 1)%nat ->
  (pgraph_is_texture_format_compressed fmt = true -> 2 <= a) ->
  align_face (layer_chain n (if pgraph_is_texture_format_compressed fmt
    then layer_blocks_size (dxt_block_size fmt) else texels_size bpp) (2 ^ a) (2 ^ a) 0)
  = align_face (mip_chain n (c_size fmt bpp) (2 ^ a) (2 ^ a) 0).
Proof.
  intros Hb Ha Hn Hc. unfold c_size. apply Z.eqb_eq.
  destruct (pgraph_is_texture_format_compressed fmt); cbn [negb].
  - destruct (dxt_block_size_range fmt) as [-> | ->].
    + apply (forall_sides (same_face (layer_blocks_size 8) (blocks_size 8)) 2); [vm_compute; done|lia|done].
    + apply (forall_sides (same_face (layer_blocks_size 16) (blocks_size 16)) 2); [vm_compute; done|lia|done].
  - assert (bpp = 1 \/ bpp = 2 \/ bpp = 3 \/ bpp = 4) as [->|[->|[->| ->]]] by lia.
    + apply (forall_sides (same_face (texels_size 1) (texels_size 1)) 0); [vm_compute; done|lia|done].
    + apply (forall_sides (same_face (texels_size 2) (texels_size 2)) 0); [vm_compute; done|lia|done].
    + apply (forall_sides (same_face (texels_size 3) (texels_size 3)) 0); [vm_compute; done|lia|done].
    + apply (forall_sides (same_face (texels_size 4) (texels_size 4)) 0); [vm_compute; done|lia|done].
Qed.

(** ** Linear textures *)

Section Linear.
Context (junk : Z -> Z) (s : TextureShape) (f : BasicColorFormatInfo) (data palette : mem).
#[local] Abbreviation fmt := (tex_format s).
#[local] Abbreviation bpp := (bytes_per_pixel f).
#[local] Abbreviation w := (tex_width s).
#[local] Abbreviation h := (tex_height s).
#[local] Abbreviation pitch := (tex_pitch s).

Lemma memcpy_image_ok n : n = w * bpp -> 0 <= w -> 0 <= h -> 0 < bpp -> n <= pitch ->
  bytes_valid data 0 (h * pitch) ->
  exists m, memcpy_image (g_malloc junk (n * h)) data n n pitch h = Ok m
    /\ image_is m w h 1 bpp (fun p => byte_at data <$> seqZ (linear pitch 0 bpp p) bpp).
Proof.
  intros En Hw Hh Hb Hp Hv.
  assert (Hn : 0 <= n) by nia.
  assert (Hsrc : forall y k, 0 <= y < h -> 0 <= k < n ->
    data !! (y * pitch + k) = Some (byte_at data (y * pitch + k))).
  { intros y k Hy Hk. unfold byte_at. destruct (Hv (y * pitch + k)) as (v & -> & _); [nia|done]. }
  destruct (res_foldl_chunks (fun dst i => memcpy data (i * pitch) dst (i * n) n) (fun i => i * n)
    (fun i k => data !! (i * pitch + k)) n (g_malloc junk (n * h)) (zseq h)) as (m & E & Hin & Hout).
  - intros y m Hy%elem_of_zseq Hm. apply memcpy_ok; [done|]. intros k Hk. split; [|by apply Hm].
    by rewrite Hsrc.
  - intros y k Hy%elem_of_zseq Hk. split; [by rewrite Hsrc|].
    rewrite g_malloc_lookup, decide_True by nia. done.
  - intros y y' k k' _ _ Hk Hk' Ea. apply radix_unique in Ea as [-> _]; done.
  - exists m. split; [done|]. split.
    + intros [[x y] z] i (Hx & Hy & Hz) Hi. rewrite seqZ_byte by done.
      replace (texel_addr w h bpp (x, y, z) + i) with (y * n + (x * bpp + i))
        by (unfold texel_addr, linear; replace z with 0 by lia; lia).
      rewrite Hin by (rewrite ?elem_of_zseq; nia). rewrite Hsrc by nia. unfold linear. do 2 f_equal. lia.
    + intros a Ha. rewrite Hout, g_malloc_lookup, decide_False; [done|nia|].
      intros y k Hy%elem_of_zseq Hk ->. apply Ha. nia.
Qed.

(** The bytes of a row. *)
Definition linear_row : Z := match conversion_of fmt with Some c => row_bytes c w | None => w * bpp end.

Record linear_is (v : TextureLevel) : Prop := {
  ln_width : level_width v = w;
  ln_height : level_height v = h;
  ln_depth : level_depth v = 1;
  ln_size : decoded_size v = decoded_bpp fmt bpp * (w * h);
  ln_image : image_is (decoded_data v) w h 1 (decoded_bpp fmt bpp)
               (ref_linear_texel fmt bpp pitch data palette)
}.

Lemma linear_not_compressed : aget kelvin_color_format_info_map fmt = Ok f -> is_linear f = true ->
  pgraph_is_texture_format_compressed fmt = false.
Proof.
  intros Hf Hl. destruct (pgraph_is_texture_format_compressed fmt) eqn:E; [|done].
  unfold pgraph_is_texture_format_compressed in E.
  apply orb_true_iff in E as [E|E]; [apply orb_true_iff in E as [E|E]|];
    apply Z.eqb_eq in E; rewrite E in Hf; vm_compute in Hf; injection Hf as <-; discriminate Hl.
Qed.

Lemma layout_linear_ok : shape_wf s f -> is_linear f = true -> tex_levels s = 1 -> pitch mod bpp = 0 ->
  linear_row <= pitch -> w <= pitch -> bytes_valid data 0 (h * pitch) ->
  exists v, layout_linear junk s f palette data = Ok {[ (0, 0) := v ]} /\ linear_is v.
Proof.
  intros [Hf Hbpp _ Hlin _] El Elev Hmod Hrow Hwp Hv. destruct (Hlin El) as (_ & _ & Hw & Hh & Hp).
  pose proof (linear_not_compressed Hf El) as Hnc. unfold layout_linear. cbv zeta.
  rewrite (proj2 (Z.eqb_neq bpp 0)) by lia. rewrite Hmod, Elev. cbn [Z.eqb c_assert mbind res_mbind res_bind].
  unfold linear_row in Hrow.
  assert (Hd : exists m, (converted ← pgraph_convert_texture_data junk s data palette w h 1 pitch 0;
     match converted with
     | Some r => Ok r
     | None => let dst_stride := s32 (u32 (w * bpp)) in let size := u32 (dst_stride * h) in
         data ← memcpy_image (g_malloc junk size) data dst_stride dst_stride (s32 pitch) (s32 h);
         Ok (data, size)
     end) = Ok (m, decoded_bpp fmt bpp * (w * h))
    /\ image_is m w h 1 (decoded_bpp fmt bpp) (ref_linear_texel fmt bpp pitch data palette)).
  { unfold decoded_bpp, ref_linear_texel. rewrite Hnc. destruct (conversion_of fmt) as [c|] eqn:Ec.
    - pose proof (conversion_format _ _ _ Hf Ec) as Ef. rewrite El in Ef.
      destruct (convert_some c data palette w h 1 pitch 0 junk s) as (m & E & Hm); [|done|].
      { constructor; try lia; try nia; [|by destruct c].
        intros y z Hy Hz. replace z with 0 by lia. eapply bytes_valid_sub; [exact Hv|nia..]. }
      rewrite E. exists m. cbn [mbind res_mbind res_bind]. split; [|done]. do 2 f_equal. lia.
    - rewrite convert_none by done. cbn [mbind res_mbind res_bind]. cbv zeta.
      assert (w * bpp < 2 ^ 15) by nia. rewrite (uwrap_id 32 (w * bpp)), (swrap_small 32 (w * bpp)) by nia.
      rewrite (uwrap_id 32), (swrap_small 32 pitch), (swrap_small 32 h) by nia.
      destruct (memcpy_image_ok (w * bpp)) as (m & -> & Hm); try done; [lia..|].
      exists m. cbn [mbind res_mbind res_bind]. split; [|done]. do 2 f_equal. lia. }
  destruct Hd as (m & E & Hm).
  destruct (pgraph_convert_texture_data _ _ _ _ _ _ _ _ _) as [c|]; [|done]. cbn [mbind res_mbind res_bind] in *.
  rewrite E. cbn [mbind res_mbind res_bind]. rewrite set_level_ok by lia.
  eexists. split; [done|]. by constructor.
Qed.

End Linear.

(** ** Where the sizes disagree *)

Definition dxt1_cube (side levels : Z) : TextureShape :=
  {| cubemap := true; dimensionality := 2; tex_format := NV097_SET_TEXTURE_FORMAT_COLOR_L_DXT1_A1R5G5B5;
     tex_levels := levels; tex_width := side; tex_height := side; tex_depth := 1; border := false;
     min_mipmap_level := 0; max_mipmap_level := levels - 1; tex_pitch := 0 |}.

(** The faces of a compressed cube map smaller than a block lie 128 bytes apart, but the layer
    size is 0: all six layers decode the first face. *)
Lemma tiny_faces : get_cubemap_layer_size (dxt1_cube 2 2) = Ok 0
  /\ pgraph_get_texture_length (dxt1_cube 2 2) = Ok (6 * 128).
Proof. split; vm_compute; reflexivity. Qed.

Definition bordered_y8 : TextureShape :=
  {| cubemap := false; dimensionality := 2; tex_format := NV097_SET_TEXTURE_FORMAT_COLOR_SZ_Y8;
     tex_levels := 1; tex_width := 4; tex_height := 4; tex_depth := 1; border := true;
     min_mipmap_level := 0; max_mipmap_level := 0; tex_pitch := 0 |}.

(** A bordered texture is decoded with doubled sides, which its length leaves out: of a 4x4
    texture the 16 bytes of the length are too few and 256 are read. *)
Lemma bordered_beyond : pgraph_get_texture_length bordered_y8 = Ok 16
  /\ levels_2d (fun _ => 0) bordered_y8 (color_fmt 1 false) ∅ 1 (g_malloc (fun _ => 0) 16) 0 0 0
       (with_border (color_fmt 1 false) bordered_y8 4) (with_border (color_fmt 1 false) bordered_y8 4) ∅
     = Fault OutOfBounds
  /\ exists layout, levels_2d (fun _ => 0) bordered_y8 (color_fmt 1 false) ∅ 1 (g_malloc (fun _ => 0) 256) 0 0 0
       (with_border (color_fmt 1 false) bordered_y8 4) (with_border (color_fmt 1 false) bordered_y8 4) ∅
     = Ok layout.
Proof. split; [|split]; [vm_compute; reflexivity..|]. eexists. vm_compute. reflexivity. Qed.

(** ** The whole texture *)

Section Whole.
Context {X : Type}.
Implicit Types d : NV2AState X.

(** What the guest has to respect: no border texels, square cube maps of at least one block,
    linear rows within the pitch, volumes in formats that can be converted as such, and all
    of [pgraph_get_texture_length] bytes in memory. *)
Record decodable d (s : TextureShape) (f : BasicColorFormatInfo) (addr pal len : Z) : Prop := {
  dc_border : is_linear f = false -> border s = false;
  dc_dims : 1 < dimensionality s;
  dc_cube : cubemap s = true -> dimensionality s = 2 /\ tex_width s = tex_height s
    /\ (pgraph_is_texture_format_compressed (tex_format s) = true -> 4 <= tex_width s);
  dc_size : is_linear f = false ->
    16 * (tex_width s * tex_height s * (if dimensionality s =? 3 then tex_depth s else 1)) < 2 ^ 31;
  dc_volume : dimensionality s = 3 -> conversion_of (tex_format s) <> Some Rgb655;
  dc_linear : is_linear f = true -> tex_levels s = 1 /\ tex_pitch s mod bytes_per_pixel f = 0
    /\ linear_row s f <= tex_pitch s /\ tex_width s <= tex_pitch s;
  dc_data : bytes_valid (vram d) addr len;
  dc_palette : conversion_of (tex_format s) = Some Palette -> bytes_valid (vram d) pal 1024
}.

Lemma size_2d_pos s f l : 0 < bytes_per_pixel f -> 0 <= size_2d s f l.
Proof.
  intros Hb. unfold size_2d, level_bytes, side, S3tc.nblocks. pose proof (dxt_block_size_range (tex_format s)).
  case_match; [|nia]. assert (0 <= (Z.max 1 (tex_width s / 2 ^ l) + 3) / 4) by dlia.
  assert (0 <= (Z.max 1 (tex_height s / 2 ^ l) + 3) / 4) by dlia. nia.
Qed.

Lemma size_3d_eq s f l : size_3d s f l = size_2d s f l * side (tex_depth s) l.
Proof. unfold size_3d, size_2d, level_bytes. case_match; lia. Qed.

Lemma size_3d_le s f k : 0 < bytes_per_pixel f -> 0 < tex_depth s ->
  level_off (size_3d s f) k <= level_off (size_2d s f) k * tex_depth s.
Proof.
  intros Hb Hd. induction k as [|k IH]; [done|]. cbn [level_off]. rewrite size_3d_eq.
  pose proof (size_2d_pos s f (Z.of_nat k) Hb).
  pose proof (side_le (tex_depth s) (Z.of_nat k) Hd ltac:(lia)). nia.
Qed.

Section Shape.
Context (s : TextureShape) (f : BasicColorFormatInfo) (a b c : Z).
Context (Ha : 0 <= a < 16) (Hb : 0 <= b < 16) (Hc : 0 <= c < 16) (Ew : tex_width s = 2 ^ a)
  (Eh : tex_height s = 2 ^ b) (Ed : tex_depth s = 2 ^ c)
  (Hs : 16 * (tex_width s * tex_height s * (if dimensionality s =? 3 then tex_depth s else 1)) < 2 ^ 31).

Lemma dims_2d l : 0 <= l -> level_dims (side (tex_width s) l) (side (tex_height s) l) 1.
Proof.
  intros Hl. rewrite Ew, Eh in *. assert (0 < 2 ^ a * 2 ^ b) by nia.
  assert (1 <= (if dimensionality s =? 3 then tex_depth s else 1)) by (case_match; [rewrite Ed|]; lia).
  assert (side (2 ^ 0) l = 1) as E1; [|pose proof (pow2_level a b 0 l) as H1; rewrite E1 in H1; apply H1; nia].
  unfold side. destruct (Z.eq_dec l 0) as [->|]; [done|].
  rewrite Z.div_small; [done|]. assert (2 ^ 0 < 2 ^ l) by (apply Z.pow_lt_mono_r; lia). lia.
Qed.

Context (n : nat) (Hn : (n <= 16)%nat) (Hbpp : 0 < bytes_per_pixel f <= 4).

Lemma chain_length : mip_chain n (c_size (tex_format s) (bytes_per_pixel f)) (tex_width s) (tex_height s) 0
  = level_off (size_2d s f) n.
Proof.
  apply (mip_chain_eq _ (size_2d s f) (tex_width s) (tex_height s) n 0); [done| | | |apply side_0..].
  - intros l. apply size_2d_pos. lia.
  - intros l Hl. apply c_size_exact; [done|]. apply dims_2d. lia.
  - intros l Hl. destruct (c_size_exact (tex_format s) _ _ _ Hbpp (dims_2d l ltac:(lia))).
    unfold size_2d. lia.
Qed.

Lemma chain_bound : 0 <= level_off (size_2d s f) n < 2 ^ 36.
Proof.
  split; [apply (level_off_mono _ n 0); [|lia]; intros; apply size_2d_pos; lia|].
  assert (level_off (size_2d s f) n <= Z.of_nat n * 2 ^ 31); [|lia].
  apply level_off_bound. intros l Hl.
  destruct (c_size_exact (tex_format s) _ _ _ Hbpp (dims_2d l ltac:(lia))) as [_ Hr]. apply Hr.
Qed.

End Shape.

(** The bytes between the faces of a cube map. *)
Definition face_size (s : TextureShape) (f : BasicColorFormatInfo) : Z :=
  (level_off (size_2d s f) (Z.to_nat (tex_levels s)) + 127) / 128 * 128.

(** Layer after layer. *)
Lemma layers_ok junk s f palette vram n k (bases : Z -> Z) width height : 0 <= k <= 6 ->
  (forall layer layout, 0 <= layer < k -> exists layout',
     levels_2d junk s f palette n vram layer 0 (bases layer) width height layout = Ok layout'
     /\ levels_are (good_2d s f vram palette (bases layer)) layer 0 n layout layout') ->
  exists layout, res_foldl (fun layout layer =>
      levels_2d junk s f palette n vram layer 0 (bases layer) width height layout) ∅ (zseq k) = Ok layout
    /\ forall layer l, 0 <= layer < k -> (l < n)%nat -> exists v,
         layout !! (layer, Z.of_nat l) = Some v /\ good_2d s f vram palette (bases layer) l v.
Proof.
  intros Hk Hl.
  destruct (res_foldl_ind (fun layout layer =>
      levels_2d junk s f palette n vram layer 0 (bases layer) width height layout)
    (fun done layout => forall layer l, 0 <= layer < Z.of_nat (length done) -> (l < n)%nat -> exists v,
       layout !! (layer, Z.of_nat l) = Some v /\ good_2d s f vram palette (bases layer) l v) ∅ (zseq k))
    as (layout & E & H).
  - cbn. lia.
  - intros done layer rest layout Es IH. apply zseq_split in Es as [Hr ->].
    destruct (Hl (Z.of_nat (length done)) layout Hr) as (layout' & E & Hin & Hout). exists layout'.
    split; [done|]. intros layer l. rewrite length_app. cbn [length]. intros Hy Hln.
    destruct (decide (layer = Z.of_nat (length done))) as [->|]; [apply Hin; lia|].
    rewrite (Hout (layer, Z.of_nat l)) by (cbn; lia). apply IH; lia.
  - exists layout. split; [done|]. intros layer l Hy. apply H. unfold zseq.
    rewrite length_seqZ, Z2Nat.id by lia. done.
Qed.

(** The size of a face is what the reference says, and six of them are the length. *)
Lemma faces_ok s f a b c : shape_wf s f -> 0 <= a < 16 -> 0 <= b < 16 -> 0 <= c < 16 ->
  tex_width s = 2 ^ a -> tex_height s = 2 ^ b -> tex_depth s = 2 ^ c ->
  16 * (tex_width s * tex_height s * (if dimensionality s =? 3 then tex_depth s else 1)) < 2 ^ 31 ->
  1 <= tex_levels s < 16 -> tex_levels s <= Z.max a b + 1 ->
  is_linear f = false -> border s = false -> tex_width s = tex_height s ->
  (pgraph_is_texture_format_compressed (tex_format s) = true -> 4 <= tex_width s) ->
  get_cubemap_layer_size s = Ok (face_size s f) /\ align_face (level_off (size_2d s f) (Z.to_nat (tex_levels s))) = face_size s f.
Proof.
  intros [Hf Hbpp _ _ _] Ha Hb Hc Ew Eh Ed Hs Hl Hm Elin Ebr Esq H4.
  assert (a = b) as <- by (apply (Z.pow_inj_r 2); lia).
  pose proof (chain_length s f a a c Ha Hb Hc Ew Eh Ed Hs (Z.to_nat (tex_levels s)) ltac:(lia) Hbpp) as El.
  pose proof (chain_bound s f a a c Ha Hb Hc Ew Eh Ed Hs (Z.to_nat (tex_levels s)) ltac:(lia) Hbpp) as Hlb.
  split; [|apply align_face_eq; lia].
  unfold get_cubemap_layer_size, with_border. rewrite Hf. cbn [mbind res_mbind res_bind]. cbv zeta.
  rewrite Elin, Ebr. cbn [negb andb]. f_equal. rewrite Ew, Eh in El |- *.
  rewrite square_faces; [|lia|lia|lia|].
  - rewrite El. apply align_face_eq. lia.
  - intros Hcp. specialize (H4 Hcp). rewrite Ew in H4.
    destruct (Z.le_gt_cases 2 a); [done|]. assert (2 ^ a < 2 ^ 2) by (apply Z.pow_lt_mono_r; lia). lia.
Qed.

(** Level [l] of [layer] as the registers and the memory of [d] have it. *)
Definition level_good d (s : TextureShape) (f : BasicColorFormatInfo) (addr pal layer : Z) (l : nat)
    (v : TextureLevel) : Prop :=
  let palette := ptr (vram d) pal in
  if is_linear f then linear_is s f (ptr (vram d) addr) palette v
  else if dimensionality s =? 3 then good_3d s f (vram d) palette addr l v
  else good_2d s f (vram d) palette (addr + layer * (if cubemap s then face_size s f else 0)) l v.

Section Cases.
Context (junk : Z -> Z) (d : NV2AState X) (s : TextureShape) (f : BasicColorFormatInfo) (addr pal len : Z).
Context (Hwf : shape_wf s f) (Hok : decodable d s f addr pal len)
  (Hlen : pgraph_get_texture_length s = Ok len).

Lemma palette_there : conversion_of (tex_format s) = Some Palette -> bytes_valid (ptr (vram d) pal) 0 1024.
Proof. intros E. apply ptr_valid. rewrite Z.add_0_r. by apply Hok. Qed.

Lemma linear_case : is_linear f = true ->
  exists v, layout_linear junk s f (ptr (vram d) pal) (ptr (vram d) addr) = Ok {[ (0, 0) := v ]}
    /\ linear_is s f (ptr (vram d) addr) (ptr (vram d) pal) v.
Proof.
  intros El. destruct Hok as [_ _ _ _ _ Hlin Hdata _]. destruct (Hlin El) as (E1 & Hm & Hr & Hw).
  apply layout_linear_ok; try done. apply ptr_valid. rewrite Z.add_0_r.
  pose proof Hwf as [Hf _ _ Hs _]. destruct (Hs El) as (_ & _ & _ & Hh & Hp).
  unfold pgraph_get_texture_length in Hlen. rewrite Hf in Hlen. cbn [mbind res_mbind res_bind] in Hlen.
  rewrite El in Hlen. apply res_bind_Ok in Hlen as (_ & _ & E). apply res_bind_Ok in E as (_ & _ & E).
  injection E as <-. rewrite uwrap_id in Hdata by nia. exact Hdata.
Qed.

(** The length of a swizzled texture. *)
Lemma swizzled_length a b c : is_linear f = false -> 0 <= a < 16 -> 0 <= b < 16 -> 0 <= c < 16 ->
  tex_width s = 2 ^ a -> tex_height s = 2 ^ b -> tex_depth s = 2 ^ c -> 1 <= tex_levels s < 16 ->
  tex_levels s <= Z.max a b + 1 ->
  len = if cubemap s then 6 * face_size s f
        else level_off (size_2d s f) (Z.to_nat (tex_levels s))
             * (if dimensionality s =? 3 then tex_depth s else 1).
Proof.
  intros El Ha Hb Hc Ew Eh Ed Hl Hm. pose proof Hwf as [Hf Hbpp Hd _ _]. pose proof Hok as [Hbr H1 Hcb Hs _ _ _ _].
  specialize (Hs El).
  pose proof (chain_length s f a b c Ha Hb Hc Ew Eh Ed Hs (Z.to_nat (tex_levels s)) ltac:(lia) Hbpp) as Ec.
  pose proof (chain_bound s f a b c Ha Hb Hc Ew Eh Ed Hs (Z.to_nat (tex_levels s)) ltac:(lia) Hbpp) as Hbd.
  unfold pgraph_get_texture_length in Hlen. rewrite Hf in Hlen. cbn [mbind res_mbind res_bind] in Hlen.
  rewrite El, (proj2 (Z.leb_le 2 _)) in Hlen by lia. fold (c_size (tex_format s) (bytes_per_pixel f)) in Hlen.
  rewrite Ec in Hlen. apply res_bind_Ok in Hlen as (l1 & E1 & E). injection E as <-.
  destruct (cubemap s) eqn:Ecb.
  - destruct (Hcb eq_refl) as (E2 & Esq & H4). rewrite E2 in E1 |- *. injection E1 as <-.
    destruct (faces_ok s f a b c) as [_ ->]; try done; [by apply Hbr|].
    change (3 <=? 2) with false. cbv iota. rewrite uwrap_id; [lia|]. unfold face_size. dlia.
  - injection E1 as <-. destruct (Z.leb_spec 3 (dimensionality s)), (Z.eqb_spec (dimensionality s) 3);
      try lia. rewrite uwrap_id; [done|]. assert (0 < tex_depth s <= 2 ^ 15); [|nia].
    rewrite Ed. split; [lia|]. apply Z.pow_le_mono_r; lia.
Qed.

Lemma flat_case : is_linear f = false -> dimensionality s = 2 ->
  exists layout,
    (layer_size ← (if cubemap s then get_cubemap_layer_size s else Ok 0);
     res_foldl (fun layout layer =>
       levels_2d junk s f (ptr (vram d) pal) (Z.to_nat (tex_levels s)) (vram d) layer 0
         (addr + u64 (layer * layer_size)) (tex_width s) (tex_height s) layout)
       ∅ (zseq (if cubemap s then 6 else 1))) = Ok layout
    /\ forall layer l, 0 <= layer < (if cubemap s then 6 else 1) -> (l < Z.to_nat (tex_levels s))%nat ->
         exists v, layout !! (layer, Z.of_nat l) = Some v /\ level_good d s f addr pal layer l v.
Proof.
  intros El E2. pose proof Hwf as [Hf Hbpp Hd _ Hsw]. pose proof Hok as [Hbr _ Hcb Hs _ _ Hdata _].
  destruct (Hsw El) as (a & b & c & Ha & Hb & Hc & Ew & Eh & Ed & Hl & Hm & _). specialize (Hs El).
  pose proof (swizzled_length a b c El Ha Hb Hc Ew Eh Ed Hl Hm) as Elen.
  set (n := Z.to_nat (tex_levels s)) in *.
  pose proof (chain_bound s f a b c Ha Hb Hc Ew Eh Ed Hs n ltac:(lia) Hbpp) as Hbd.
  set (stride := if cubemap s then face_size s f else 0).
  assert ((if cubemap s then get_cubemap_layer_size s else Ok 0) = Ok stride) as ->.
  { unfold stride. destruct (cubemap s) eqn:Ecb; [|done]. destruct (Hcb eq_refl) as (_ & Esq & H4).
    apply (faces_ok s f a b c); try done. by apply Hbr. }
  cbn [mbind res_mbind res_bind].
  assert (Hst : 0 <= stride < 2 ^ 37) by (unfold stride, face_size; fold n; case_match; dlia).
  assert (Hfit : forall layer, 0 <= layer < (if cubemap s then 6 else 1) ->
    layer * stride + level_off (size_2d s f) n <= len).
  { intros layer Hy. unfold stride, face_size in *. fold n in Elen |- *. rewrite E2 in Elen.
    cbn [Z.eqb Pos.eqb] in Elen. destruct (cubemap s); rewrite Elen.
    - assert (level_off (size_2d s f) n <= (level_off (size_2d s f) n + 127) / 128 * 128) by dlia. nia.
    - lia. }
  destruct (layers_ok junk s f (ptr (vram d) pal) (vram d) n (if cubemap s then 6 else 1)
    (fun layer => addr + u64 (layer * stride)) (tex_width s) (tex_height s)) as (layout & E & H).
  - case_match; lia.
  - intros layer layout Hy. rewrite uwrap_id by (repeat case_match; nia). set (base := addr + layer * stride).
    specialize (Hfit layer Hy).
    assert (Hpos : forall l, 0 <= size_2d s f l) by (intros; apply size_2d_pos; lia).
    destruct (levels_2d_ok junk s f (vram d) (ptr (vram d) pal) base Hf El Hbpp (Hbr El) palette_there
      layer n 0 (tex_width s) (tex_height s) layout) as (layout' & E & Hls);
      [repeat case_match; lia|lia|apply side_0|apply side_0| |].
    + intros l Hln. split; [apply (dims_2d s a b c); done || lia|].
      pose proof (level_off_next (size_2d s f) n l Hpos ltac:(lia)).
      pose proof (level_off_mono (size_2d s f) n l Hpos ltac:(lia)).
      eapply bytes_valid_sub; [exact Hdata|unfold base; nia..].
    + cbn [level_off] in E. rewrite Z.add_0_r in E. by exists layout'.
  - exists layout. split; [exact E|]. intros layer l Hy Hln. destruct (H layer l Hy Hln) as (v & Ev & Hg).
    exists v. split; [done|]. unfold level_good. rewrite El, E2. cbn [Z.eqb Pos.eqb]. fold stride.
    rewrite uwrap_id in Hg by (repeat case_match; nia). exact Hg.
Qed.

Lemma volume_case : is_linear f = false -> dimensionality s = 3 ->
  exists layout,
    levels_3d junk s f (ptr (vram d) pal) (Z.to_nat (tex_levels s)) (vram d) 0 addr
      (tex_width s) (tex_height s) (tex_depth s) ∅ = Ok layout
    /\ forall l, (l < Z.to_nat (tex_levels s))%nat ->
         exists v, layout !! (0, Z.of_nat l) = Some v /\ level_good d s f addr pal 0 l v.
Proof.
  intros El E3. pose proof Hwf as [Hf Hbpp Hd _ Hsw]. pose proof Hok as [Hbr _ Hcb Hs Hvol _ Hdata _].
  destruct (Hsw El) as (a & b & c & Ha & Hb & Hc & Ew & Eh & Ed & Hl & Hm & _). specialize (Hs El).
  pose proof (swizzled_length a b c El Ha Hb Hc Ew Eh Ed Hl Hm) as Elen.
  assert (cubemap s = false) as Ecb.
  { destruct (cubemap s); [|done]. destruct (Hcb eq_refl). lia. }
  rewrite Ecb, E3 in Elen. rewrite E3 in Hs. cbn [Z.eqb Pos.eqb] in Elen, Hs.
  set (n := Z.to_nat (tex_levels s)) in *.
  assert (Hpos : forall l, 0 <= size_3d s f l).
  { intros l. rewrite size_3d_eq. pose proof (size_2d_pos s f l ltac:(lia)). unfold side. nia. }
  assert (Hle : level_off (size_3d s f) n <= level_off (size_2d s f) n * tex_depth s)
    by (apply size_3d_le; [lia|rewrite Ed; lia]).
  destruct (levels_3d_ok junk s f (vram d) (ptr (vram d) pal) addr Hf El Hbpp palette_there
    n 0 (tex_width s) (tex_height s) (tex_depth s) ∅) as (layout & E & Hin & _);
    [lia|by apply Hvol|apply side_0|apply side_0|apply side_0| |].
  - intros l Hln. split.
    + rewrite Ew, Eh, Ed in *. apply pow2_level; lia.
    + pose proof (level_off_next (size_3d s f) n l Hpos ltac:(lia)).
      pose proof (level_off_mono (size_3d s f) n l Hpos ltac:(lia)).
      eapply bytes_valid_sub; [exact Hdata|lia..].
  - cbn [level_off] in E. rewrite Z.add_0_r in E. exists layout. split; [exact E|]. intros l Hln.
    destruct (Hin l ltac:(lia)) as (v & Ev & Hg). exists v. split; [done|].
    unfold level_good. by rewrite El, E3.
Qed.

End Cases.

(** C7. Decoding a texture reads only the [pgraph_get_texture_length] bytes it is said to
    take, never faults, and gives for every layer and mipmap level an image of the right size
    in which every texel has the bytes the format gives it: decompressed from its S3TC block,
    or taken from its place in Z order (or in its row) and converted by palette, from YUV or
    from signed components where the format asks for it.  The levels follow each other in
    memory, the faces of a cube map at multiples of 128 bytes.  Not claimed ([decodable]) of
    swizzled textures with a border, cube maps that are not square or are compressed and smaller
    than a block, linear textures with mipmaps or with rows longer than the pitch, and volumes in
    the R6G5B5 format. *)
Theorem texture_layout_correct junk d i s f addr pal plen len :
  pgraph_get_texture_shape (pgraph d) i = Ok s ->
  aget kelvin_color_format_info_map (tex_format s) = Ok f ->
  pgraph_get_texture_phys_addr d i = Ok addr ->
  pgraph_get_texture_palette_phys_addr_length d i = Ok (pal, plen) ->
  pgraph_get_texture_length s = Ok len ->
  decodable d s f addr pal len ->
  exists layout, get_texture_layout junk d i = Ok layout
    /\ forall layer l, 0 <= layer < (if cubemap s then 6 else 1) -> (l < Z.to_nat (tex_levels s))%nat ->
         exists v, layout !! (layer, Z.of_nat l) = Some v /\ level_good d s f addr pal layer l v.
Proof.
  intros Es Ef Ea Ep El Hok. destruct (texture_shape_wf _ _ _ Es) as [f' Hwf].
  assert (f' = f) as -> by (destruct Hwf; congruence).
  unfold get_texture_layout. rewrite Es. cbn [mbind res_mbind res_bind]. rewrite Ef.
  cbn [mbind res_mbind res_bind]. pose proof Hwf as [_ _ Hd Hlin _]. pose proof Hok as [Hbr H1 Hcb _ _ Hl _ _].
  rewrite Ea, Ep, (proj2 (Z.ltb_lt _ _) H1). cbn [mbind res_mbind res_bind].
  destruct (is_linear f) eqn:Elf.
  - destruct (Hlin eq_refl) as (E2 & _). destruct (Hl eq_refl) as (E1 & _).
    assert (cubemap s = false) as Ecb.
    { unfold pgraph_get_texture_length in El. rewrite Ef in El. cbn [mbind res_mbind res_bind] in El.
      rewrite Elf in El. by destruct (cubemap s). }
    rewrite E2, Ecb, E1. cbn [Z.eqb Pos.eqb c_assert mbind res_mbind res_bind].
    destruct (linear_case junk d s f addr pal len Hwf Hok El Elf) as (v & -> & Hv).
    eexists. split; [done|]. intros layer l Hy Hln. assert (layer = 0 /\ l = 0%nat) as [-> ->] by lia.
    exists v. split; [apply lookup_singleton_eq|]. unfold level_good. by rewrite Elf.
  - assert ((if cubemap s then _ ← c_assert (dimensionality s =? 2); c_assert (negb false) else Ok tt) = Ok tt)
      as ->. { destruct (cubemap s); [|done]. by destruct (Hcb eq_refl) as (-> & _). }
    cbn [mbind res_mbind res_bind]. unfold with_border. rewrite (Hbr eq_refl), andb_false_r.
    destruct (Z.eqb_spec (dimensionality s) 2) as [E2|].
    + by apply (flat_case junk d s f addr pal len).
    + assert (dimensionality s = 3) as E3 by lia. rewrite E3. cbn [Z.eqb Pos.eqb].
      destruct (volume_case junk d s f addr pal len Hwf Hok El Elf E3) as (layout & -> & H).
      exists layout. split; [done|]. intros layer l Hy Hln.
      assert (layer = 0) as ->; [|by apply H].
      destruct (cubemap s); [|lia]. destruct (Hcb eq_refl). lia.
Qed.

End Whole.

End TextureLayout.
