(* ===== verification/DspCore.v ===== *)
(** * The core of the audio DSP (hw/xbox/mcpx/apu/dsp/dsp_cpu.c, dsp_cpu.h, dsp_cpu_regs.h)

    The DSP56300 interpreter's state, its memories, its hardware stack, its interrupts and
    what happens after each instruction.  What the two callbacks reach from the core (the
    DMA engine behind them) is the field [container], and the callbacks are a class. *)

From S2P Require Import Prelude.

Module DspCore.

(** ** Names *)

Definition DSP_SR_C : Z := 0x00.
Definition DSP_SR_V : Z := 0x01.
Definition DSP_SR_Z : Z := 0x02.
Definition DSP_SR_N : Z := 0x03.
Definition DSP_SR_U : Z := 0x04.
Definition DSP_SR_E : Z := 0x05.
Definition DSP_SR_L : Z := 0x06.
Definition DSP_SR_I0 : Z := 0x08.
Definition DSP_SR_I1 : Z := 0x09.
Definition DSP_SR_S0 : Z := 0x0a.
Definition DSP_SR_S1 : Z := 0x0b.
Definition DSP_SR_T : Z := 0x0d.
Definition DSP_SR_LF : Z := 0x0f.

Definition DSP_SP_SE : Z := 0x04.
Definition DSP_SP_UF : Z := 0x05.

Definition DSP_REG_NULL : Z := 0x00.
Definition DSP_REG_X0 : Z := 0x04.
Definition DSP_REG_X1 : Z := 0x05.
Definition DSP_REG_Y0 : Z := 0x06.
Definition DSP_REG_Y1 : Z := 0x07.
Definition DSP_REG_A0 : Z := 0x08.
Definition DSP_REG_B0 : Z := 0x09.
Definition DSP_REG_A2 : Z := 0x0a.
Definition DSP_REG_B2 : Z := 0x0b.
Definition DSP_REG_A1 : Z := 0x0c.
Definition DSP_REG_B1 : Z := 0x0d.
Definition DSP_REG_A : Z := 0x0e.
Definition DSP_REG_B : Z := 0x0f.
Definition DSP_REG_R0 : Z := 0x10.
Definition DSP_REG_N0 : Z := 0x18.
Definition DSP_REG_M0 : Z := 0x20.
Definition DSP_REG_LCSAVE : Z := 0x30.
Definition DSP_REG_SR : Z := 0x39.
Definition DSP_REG_OMR : Z := 0x3a.
Definition DSP_REG_SP : Z := 0x3b.
Definition DSP_REG_SSH : Z := 0x3c.
Definition DSP_REG_SSL : Z := 0x3d.
Definition DSP_REG_LA : Z := 0x3e.
Definition DSP_REG_LC : Z := 0x3f.
Definition DSP_REG_MAX : Z := 0x40.

Definition DSP_SPACE_X : Z := 0x00.
Definition DSP_SPACE_Y : Z := 0x01.
Definition DSP_SPACE_P : Z := 0x02.

Definition DSP_XRAM_SIZE : Z := 4096.
Definition DSP_YRAM_SIZE : Z := 2048.
Definition DSP_PRAM_SIZE : Z := 4096.
Definition DSP_MIXBUFFER_BASE : Z := 0x001400.
Definition DSP_MIXBUFFER_SIZE : Z := 1024.
Definition DSP_PERIPH_BASE : Z := 0xFFFF80.

Definition DSP_INTERRUPT_NONE : Z := 0x0.
Definition DSP_INTERRUPT_DISABLED : Z := 0x1.
Definition DSP_INTERRUPT_LONG : Z := 0x2.

Definition DSP_INTER_ILLEGAL : Z := 0x1.
Definition DSP_INTER_STACK_ERROR : Z := 0x2.
Definition DSP_INTER_TRACE : Z := 0x3.

(** [BITMASK(x)], and [1 << x] for bits below 31. *)
Definition BITMASK (x : Z) : Z := Z.shiftl 1 x - 1.
Definition bit (x : Z) : Z := Z.shiftl 1 x.

(** The field of [k] bits from bit [i]: [(v >> i) & BITMASK(k)]. *)
Definition field (v i k : Z) : Z := Z.land (Z.shiftr v i) (BITMASK k).

(** ** State *)

Record dsp_core_t {X : Type} := {
  is_idle : bool;
  cycle_count : Z;
  instr_cycle : Z;
  pc : Z;
  registers : gmap Z Z;
  stack_ssh : gmap Z Z;            (* stack[0] *)
  stack_ssl : gmap Z Z;            (* stack[1] *)
  xram : gmap Z Z;
  yram : gmap Z Z;
  pram : gmap Z Z;
  pram_opcache : gmap Z nat;       (* the entry of the opcode table, if cached *)
  opcache : gmap Z (Z * nat);      (* static in lookup_opcode *)
  mixbuffer : gmap Z Z;
  loop_rep : Z;
  pc_on_rep : Z;
  interrupt_state : Z;
  interrupt_instr_fetch : Z;
  interrupt_save_pc : Z;
  interrupt_counter : Z;
  interrupt_ipl_to_raise : Z;
  interrupt_pipeline_count : Z;
  interrupt_ipl : gmap Z Z;
  interrupt_is_pending : gmap Z Z;
  num_inst : Z;
  cur_inst_len : Z;
  cur_inst : Z;
  exception_debugging : bool;
  container : X
}.
Arguments dsp_core_t : clear implicits.

#[export] Instance eta_dsp_core_t X : Eta (dsp_core_t X) := fun r =>
  {| is_idle := is_idle r; cycle_count := cycle_count r; instr_cycle := instr_cycle r;
     pc := pc r; registers := registers r; stack_ssh := stack_ssh r; stack_ssl := stack_ssl r;
     xram := xram r; yram := yram r; pram := pram r; pram_opcache := pram_opcache r;
     opcache := opcache r; mixbuffer := mixbuffer r; loop_rep := loop_rep r;
     pc_on_rep := pc_on_rep r; interrupt_state := interrupt_state r;
     interrupt_instr_fetch := interrupt_instr_fetch r; interrupt_save_pc := interrupt_save_pc r;
     interrupt_counter := interrupt_counter r; interrupt_ipl_to_raise := interrupt_ipl_to_raise r;
     interrupt_pipeline_count := interrupt_pipeline_count r; interrupt_ipl := interrupt_ipl r;
     interrupt_is_pending := interrupt_is_pending r; num_inst := num_inst r;
     cur_inst_len := cur_inst_len r; cur_inst := cur_inst r;
     exception_debugging := exception_debugging r; container := container r |}.

(** The callbacks of the core. *)
Class Peripherals (X : Type) := {
  read_peripheral : dsp_core_t X -> Z -> Z;
  write_peripheral : dsp_core_t X -> Z -> Z -> res (dsp_core_t X)
}.

(** Element [i] of an array of [n] words. *)
Definition arr_at (n : Z) (a : gmap Z Z) (i : Z) : res Z :=
  if (0 <=? i) && (i <? n) then Ok (default 0 (a !! i)) else Fault OutOfBounds.
Definition arr_set (n : Z) (a : gmap Z Z) (i v : Z) : res (gmap Z Z) :=
  if (0 <=? i) && (i <? n) then Ok (<[i := u32 v]> a) else Fault OutOfBounds.

Section Core.
Context {X : Type} `{Peripherals X}.
Implicit Types dsp : dsp_core_t X.

(** [registers[n]] for a constant [n]; [reg_at] and [reg_set] when [n] is computed. *)
Definition getr dsp (n : Z) : Z := default 0 (registers dsp !! n).
Definition setr dsp (n v : Z) : dsp_core_t X := dsp <| registers := <[n := u32 v]> (registers dsp) |>.

Definition reg_at dsp (n : Z) : res Z := arr_at DSP_REG_MAX (registers dsp) n.
Definition reg_set dsp (n v : Z) : res (dsp_core_t X) :=
  r ← arr_set DSP_REG_MAX (registers dsp) n v;
  Ok (dsp <| registers := r |>).

Definition cycles dsp (n : Z) : dsp_core_t X := dsp <| instr_cycle := u16 (instr_cycle dsp + n) |>.
Definition longer dsp : dsp_core_t X := dsp <| cur_inst_len := u32 (cur_inst_len dsp + 1) |>.

(** ** Interrupts *)

(** The [vectorAddr] column of [dsp_interrupt]. *)
Definition dsp_interrupt : list Z :=
  [0x00; 0x3e; 0x02; 0x04; 0x06; 0xff; 0x20; 0x22; 0x0e; 0x0c; 0x12; 0x10].

Definition dsp56k_add_interrupt dsp (inter : Z) : res (dsp_core_t X) :=
  ipl ← arr_at 12 (interrupt_ipl dsp) inter;
  if ipl =? -1 then Ok dsp
  else
    pending ← arr_at 12 (interrupt_is_pending dsp) inter;
    if pending =? 0 then
      p ← arr_set 12 (interrupt_is_pending dsp) inter 1;
      Ok (dsp <| interrupt_is_pending := p |>
              <| interrupt_counter := u16 (interrupt_counter dsp + 1) |>)
    else Ok dsp.

(** [assert(!"...")] when exceptions are debugged. *)
Definition debug_abort dsp : res unit := c_assert (negb (exception_debugging dsp)).

(** ** The hardware stack *)

Definition dsp_compute_ssh_ssl dsp : res (dsp_core_t X) :=
  let stack := Z.land (getr dsp DSP_REG_SP) (BITMASK 4) in
  ssh ← arr_at 16 (stack_ssh dsp) stack;
  ssl ← arr_at 16 (stack_ssl dsp) stack;
  Ok (setr (setr dsp DSP_REG_SSH ssh) DSP_REG_SSL ssl).

(** [stack_error == 0 && (stack & (1 << DSP_SP_SE))] *)
Definition stack_check dsp (stack_error stack : Z) : res (dsp_core_t X) :=
  if (stack_error =? 0) && tst stack (bit DSP_SP_SE) then
    dsp ← dsp56k_add_interrupt dsp DSP_INTER_STACK_ERROR;
    _ ← debug_abort dsp;
    Ok dsp
  else Ok dsp.

Definition dsp_stack_push dsp (curpc cursr sshOnly : Z) : res (dsp_core_t X) :=
  let sp := getr dsp DSP_REG_SP in
  let stack_error := Z.land sp (bit DSP_SP_SE) in
  let underflow := Z.land sp (bit DSP_SP_UF) in
  let stack := Z.land sp (BITMASK 4) + 1 in
  dsp ← stack_check dsp stack_error stack;
  let dsp := setr dsp DSP_REG_SP (Z.land (Z.lor (Z.lor underflow stack_error) stack) (BITMASK 6)) in
  let stack := Z.land stack (BITMASK 4) in
  dsp ← (if negb (stack =? 0) then
           ssh ← arr_set 16 (stack_ssh dsp) stack (Z.land curpc (BITMASK 16));
           let dsp := dsp <| stack_ssh := ssh |> in
           if sshOnly =? 0 then
             ssl ← arr_set 16 (stack_ssl dsp) stack (Z.land cursr (BITMASK 16));
             Ok (dsp <| stack_ssl := ssl |>)
           else Ok dsp
         else
           ssh ← arr_set 16 (stack_ssh dsp) 0 0;
           ssl ← arr_set 16 (stack_ssl dsp) 0 0;
           Ok (dsp <| stack_ssh := ssh |> <| stack_ssl := ssl |>));
  ssh ← arr_at 16 (stack_ssh dsp) stack;
  ssl ← arr_at 16 (stack_ssl dsp) stack;
  Ok (setr (setr dsp DSP_REG_SSH ssh) DSP_REG_SSL ssl).

(** The core, [*newpc] and [*newsr]. *)
Definition dsp_stack_pop dsp : res (dsp_core_t X * Z * Z) :=
  let sp := getr dsp DSP_REG_SP in
  let stack_error := Z.land sp (bit DSP_SP_SE) in
  let underflow := Z.land sp (bit DSP_SP_UF) in
  let stack := u32 (Z.land sp (BITMASK 4) - 1) in
  dsp ← stack_check dsp stack_error stack;
  let dsp := setr dsp DSP_REG_SP (Z.land (Z.lor (Z.lor underflow stack_error) stack) (BITMASK 6)) in
  let stack := Z.land stack (BITMASK 4) in
  let newpc := getr dsp DSP_REG_SSH in
  let newsr := getr dsp DSP_REG_SSL in
  ssh ← arr_at 16 (stack_ssh dsp) stack;
  ssl ← arr_at 16 (stack_ssl dsp) stack;
  Ok (setr (setr dsp DSP_REG_SSH ssh) DSP_REG_SSL ssl, newpc, newsr).

(** ** Registers *)

Definition registers_mask : list Z :=
  [0; 0; 0; 0;      24; 24; 24; 24;  24; 24; 8; 8;    24; 24; 24; 24;
   16; 16; 16; 16;  16; 16; 16; 16;  16; 16; 16; 16;  16; 16; 16; 16;
   16; 16; 16; 16;  16; 16; 16; 16;  0; 0; 0; 0;      0; 0; 0; 0;
   0; 0; 0; 0;      0; 0; 0; 0;      0; 16; 8; 6;     16; 16; 16; 16].

(** [BITMASK(registers_mask[numreg])] *)
Definition reg_mask (numreg : Z) : res Z :=
  w ← aget registers_mask numreg; Ok (BITMASK w).

(** The extension byte of a 24-bit value: [v & (1 << 23) ? 0xff : 0x0]. *)
Definition sign_ext (v : Z) : Z := if tst v (bit 23) then 0xff else 0x0.

(** An accumulator takes a 24-bit value. *)
Definition set_accu_a dsp (v : Z) : dsp_core_t X :=
  setr (setr (setr dsp DSP_REG_A0 0) DSP_REG_A1 v) DSP_REG_A2 (sign_ext v).
Definition set_accu_b dsp (v : Z) : dsp_core_t X :=
  setr (setr (setr dsp DSP_REG_B0 0) DSP_REG_B1 v) DSP_REG_B2 (sign_ext v).

Definition dsp_write_reg dsp (numreg value : Z) : res (dsp_core_t X) :=
  switch numreg
    [(DSP_REG_A, Ok (set_accu_a dsp value));
     (DSP_REG_B, Ok (set_accu_b dsp value));
     (DSP_REG_OMR, Ok (setr dsp DSP_REG_OMR (Z.land value 0xc7)));
     (DSP_REG_SR, Ok (setr dsp DSP_REG_SR (Z.land value 0xaf7f)));
     (DSP_REG_SP,
       let stack_error := Z.land (getr dsp DSP_REG_SP) (Z.shiftl 3 DSP_SP_SE) in
       dsp ← (if (stack_error =? 0) && tst value (Z.shiftl 3 DSP_SP_SE) then
                dsp ← dsp56k_add_interrupt dsp DSP_INTER_STACK_ERROR;
                let dsp := setr dsp DSP_REG_SP (Z.land value (Z.shiftl 3 DSP_SP_SE)) in
                _ ← debug_abort dsp;
                Ok dsp
              else Ok (setr dsp DSP_REG_SP (Z.land value (BITMASK 6))));
       dsp_compute_ssh_ssl dsp);
     (DSP_REG_SSH, dsp_stack_push dsp value 0 1);
     (DSP_REG_SSL,
       let numreg := Z.land (getr dsp DSP_REG_SP) (BITMASK 4) in
       let value := if numreg =? 0 then 0 else value in
       ssl ← arr_set 16 (stack_ssl dsp) numreg (Z.land value (BITMASK 16));
       Ok (setr (dsp <| stack_ssl := ssl |>) DSP_REG_SSL (Z.land value (BITMASK 16))))]
    (m ← reg_mask numreg; reg_set dsp numreg (Z.land value m)).

(** ** Memory *)

(** Addresses and values are passed as [uint32_t]. *)

(** [(v & 0xFF000000) == 0] *)
Definition is_24 (v : Z) : bool := Z.land v 0xFF000000 =? 0.

Definition read_memory_p dsp (address : Z) : res Z :=
  let address := u32 address in
  _ ← c_assert (is_24 address);
  _ ← c_assert (address <? DSP_PRAM_SIZE);
  r ← arr_at DSP_PRAM_SIZE (pram dsp) address;
  _ ← c_assert (is_24 r);
  Ok r.

Definition in_mixbuffer (base address : Z) : bool :=
  (base <=? address) && (address <? base + DSP_MIXBUFFER_SIZE).

Definition dsp56k_read_memory dsp (space address : Z) : res Z :=
  let address := u32 address in
  _ ← c_assert (is_24 address);
  if space =? DSP_SPACE_X then
    if DSP_PERIPH_BASE <=? address then Ok (read_peripheral dsp address)
    else if in_mixbuffer DSP_MIXBUFFER_BASE address then
      arr_at DSP_MIXBUFFER_SIZE (mixbuffer dsp) (address - DSP_MIXBUFFER_BASE)
    else if in_mixbuffer 0xc00 address then
      arr_at DSP_MIXBUFFER_SIZE (mixbuffer dsp) (address - 0xc00)
    else if address <? DSP_XRAM_SIZE then arr_at DSP_XRAM_SIZE (xram dsp) address
    else Ok 0x00FFFFFF
  else if space =? DSP_SPACE_Y then
    _ ← c_assert (address <? DSP_YRAM_SIZE);
    arr_at DSP_YRAM_SIZE (yram dsp) address
  else if space =? DSP_SPACE_P then read_memory_p dsp address
  else Fault AssertFail.

Definition write_memory_raw dsp (space address value : Z) : res (dsp_core_t X) :=
  let address := u32 address in
  let value := u32 value in
  _ ← c_assert (is_24 value);
  _ ← c_assert (is_24 address);
  if space =? DSP_SPACE_X then
    if DSP_PERIPH_BASE <=? address then write_peripheral dsp address value
    else if in_mixbuffer DSP_MIXBUFFER_BASE address then
      m ← arr_set DSP_MIXBUFFER_SIZE (mixbuffer dsp) (address - DSP_MIXBUFFER_BASE) value;
      Ok (dsp <| mixbuffer := m |>)
    else if in_mixbuffer 0xc00 address then
      m ← arr_set DSP_MIXBUFFER_SIZE (mixbuffer dsp) (address - 0xc00) value;
      Ok (dsp <| mixbuffer := m |>)
    else
      _ ← c_assert (address <? DSP_XRAM_SIZE);
      m ← arr_set DSP_XRAM_SIZE (xram dsp) address value;
      Ok (dsp <| xram := m |>)
  else if space =? DSP_SPACE_Y then
    _ ← c_assert (address <? DSP_YRAM_SIZE);
    m ← arr_set DSP_YRAM_SIZE (yram dsp) address value;
    Ok (dsp <| yram := m |>)
  else if space =? DSP_SPACE_P then
    _ ← c_assert (address <? DSP_PRAM_SIZE);
    m ← arr_set DSP_PRAM_SIZE (pram dsp) address value;
    Ok (dsp <| pram := m |> <| pram_opcache := delete address (pram_opcache dsp) |>)
  else Fault AssertFail.

(** Without the traces of the disassembler. *)
Definition dsp56k_write_memory dsp (space address value : Z) : res (dsp_core_t X) :=
  write_memory_raw dsp space address value.

(** ** After each instruction *)

(** [--registers[DSP_REG_LC]; registers[DSP_REG_LC] &= BITMASK(16)] *)
Definition dec_lc dsp : dsp_core_t X :=
  setr dsp DSP_REG_LC (Z.land (u32 (getr dsp DSP_REG_LC - 1)) (BITMASK 16)).

(** A REP stays on its instruction until the count is zero. *)
Definition update_rep dsp : dsp_core_t X :=
  if negb (loop_rep dsp =? 0) then
    if pc_on_rep dsp =? 0 then
      let dsp := dec_lc dsp in
      if 0 <? getr dsp DSP_REG_LC then dsp <| cur_inst_len := 0 |>
      else setr (dsp <| loop_rep := 0 |>) DSP_REG_LC (getr dsp DSP_REG_LCSAVE)
    else
      let dsp := if getr dsp DSP_REG_LC =? 0 then setr dsp DSP_REG_LC 0x010000 else dsp in
      dsp <| pc_on_rep := 0 |>
  else dsp.

(** The end of a DO loop: the flag, LA and LC come back from the stack. *)
Definition end_do dsp : res (dsp_core_t X) :=
  '(dsp, _, saved_sr) ← dsp_stack_pop dsp;
  let dsp := setr dsp DSP_REG_SR (Z.land (getr dsp DSP_REG_SR) 0x7f) in
  let dsp := setr dsp DSP_REG_SR (Z.lor (getr dsp DSP_REG_SR) (Z.land saved_sr (bit DSP_SR_LF))) in
  '(dsp, la, lc) ← dsp_stack_pop dsp;
  Ok (setr (setr dsp DSP_REG_LA la) DSP_REG_LC lc).

Definition dsp_postexecute_update_pc dsp : res (dsp_core_t X) :=
  let dsp := update_rep dsp in
  let dsp := dsp <| pc := u32 (pc dsp + cur_inst_len dsp) |> in
  if tst (getr dsp DSP_REG_SR) (bit DSP_SR_LF)
     && (pc dsp =? u32 (getr dsp DSP_REG_LA + 1)) then
    let dsp := dec_lc dsp in
    if getr dsp DSP_REG_LC =? 0 then end_do dsp
    else Ok (dsp <| pc := getr dsp DSP_REG_SSH |>)
  else Ok dsp.

(** A vector that holds a jump to a subroutine starts a long interrupt. *)
Definition is_jsr (instr : Z) : bool :=
  (Z.land instr 0xfff000 =? 0x0d0000) || (Z.land instr 0xffc0ff =? 0x0bc080).

Definition long_interrupt dsp : res (dsp_core_t X) :=
  let dsp := dsp <| interrupt_state := DSP_INTERRUPT_LONG |> in
  dsp ← dsp_stack_push dsp (interrupt_save_pc dsp) (getr dsp DSP_REG_SR) 0;
  let mask := BITMASK 16 - (bit DSP_SR_LF + bit DSP_SR_T + bit DSP_SR_S1 + bit DSP_SR_S0
                            + bit DSP_SR_I0 + bit DSP_SR_I1) in
  let dsp := setr dsp DSP_REG_SR (Z.land (getr dsp DSP_REG_SR) mask) in
  Ok (setr dsp DSP_REG_SR
        (Z.lor (getr dsp DSP_REG_SR) (Z.shiftl (interrupt_ipl_to_raise dsp) DSP_SR_I0))).

Definition dec_pipeline dsp : dsp_core_t X :=
  dsp <| interrupt_pipeline_count := u16 (interrupt_pipeline_count dsp - 1) |>.

(** The pipeline of a dispatched interrupt, and whether the function returned in it. *)
Definition interrupt_pipeline dsp : res (dsp_core_t X * bool) :=
  switch (interrupt_pipeline_count dsp)
    [(5, Ok (dec_pipeline dsp, true));
     (4, let dsp := dsp <| interrupt_save_pc := u16 (pc dsp) |>
                        <| pc := interrupt_instr_fetch dsp |> in
         instr ← read_memory_p dsp (interrupt_instr_fetch dsp);
         dsp ← (if is_jsr instr then long_interrupt dsp else Ok dsp);
         Ok (dec_pipeline dsp, true));
     (3, dsp ← (if pc dsp =? interrupt_instr_fetch dsp + 1 then
                  instr ← read_memory_p dsp (pc dsp);
                  if is_jsr instr then long_interrupt dsp else Ok dsp
                else Ok dsp);
         Ok (dec_pipeline dsp, true));
     (2, let dsp := if pc dsp =? interrupt_instr_fetch dsp + 2
                    then dsp <| pc := interrupt_save_pc dsp |> else dsp in
         Ok (dec_pipeline dsp, true));
     (1, Ok (dec_pipeline dsp, true));
     (0, Ok (dsp <| interrupt_save_pc := 0xFFFF |> <| interrupt_instr_fetch := 0xFFFF |>
                 <| interrupt_state := DSP_INTERRUPT_NONE |>, false))]
    (Ok (dsp, false)).

(** The loop that arbitrates: [None] is 0xffff. *)
Fixpoint arbitrate dsp (ipl_sr : Z) (inters : list Z) (index : option Z) (ipl_to_raise : Z)
  : res (option Z) :=
  match inters with
  | [] => Ok index
  | i :: inters =>
      pending ← arr_at 12 (interrupt_is_pending dsp) i;
      if pending =? 1 then
        ipl ← arr_at 12 (interrupt_ipl dsp) i;
        if ipl =? 3 then Ok (Some i)
        else if ipl <? ipl_sr then arbitrate dsp ipl_sr inters index ipl_to_raise
        else if ipl <=? ipl_to_raise then arbitrate dsp ipl_sr inters index ipl_to_raise
        else arbitrate dsp ipl_sr inters (Some i) ipl
      else arbitrate dsp ipl_sr inters index ipl_to_raise
  end.

Definition dispatch_interrupt dsp (index : Z) : res (dsp_core_t X) :=
  p ← arr_set 12 (interrupt_is_pending dsp) index 0;
  let dsp := dsp <| interrupt_is_pending := p |>
                 <| interrupt_counter := u16 (interrupt_counter dsp - 1) |> in
  ipl ← arr_at 12 (interrupt_ipl dsp) index;
  let ipl_to_raise := if 3 <? ipl + 1 then 3 else ipl + 1 in
  vector ← aget dsp_interrupt index;
  let dsp := dsp <| interrupt_instr_fetch := vector |> <| interrupt_pipeline_count := 5 |>
                 <| interrupt_state := DSP_INTERRUPT_DISABLED |>
                 <| interrupt_ipl_to_raise := u16 ipl_to_raise |> in
  _ ← c_assert (negb (interrupt_instr_fetch dsp =? 0xe));
  _ ← c_assert (negb (interrupt_instr_fetch dsp =? 0x12));
  _ ← c_assert (negb (interrupt_instr_fetch dsp =? 0xff));
  Ok dsp.

Definition raise_interrupt dsp : res (dsp_core_t X) :=
  dsp ← (if tst (getr dsp DSP_REG_SR) (bit DSP_SR_T)
         then dsp56k_add_interrupt dsp DSP_INTER_TRACE else Ok dsp);
  if interrupt_counter dsp =? 0 then Ok dsp
  else
    let ipl_sr := field (getr dsp DSP_REG_SR) DSP_SR_I0 2 in
    index ← arbitrate dsp ipl_sr (zseq 12) None (-1);
    match index with
    | None => Ok dsp
    | Some index => dispatch_interrupt dsp index
    end.

Definition dsp_postexecute_interrupts dsp : res (dsp_core_t X) :=
  if negb (loop_rep dsp =? 0) then Ok dsp
  else
    '(dsp, returned) ← (if interrupt_state dsp =? DSP_INTERRUPT_DISABLED
                        then interrupt_pipeline dsp else Ok (dsp, false));
    if returned : bool then Ok dsp else raise_interrupt dsp.

(** ** Reset *)

Definition dsp56k_reset_cpu dsp : dsp_core_t X :=
  let regs := foldr (fun i r => <[DSP_REG_M0 + i := 0x00ffff]> r) {[ DSP_REG_OMR := 0x02 ]} (zseq 8) in
  let ipl := list_to_map (((fun i => (i, 3)) <$> seqZ 0 5) ++ ((fun i => (i, -1)) <$> seqZ 5 7)) in
  dsp <| stack_ssh := ∅ |> <| stack_ssl := ∅ |> <| registers := regs |> <| pc := 0 |>
      <| interrupt_is_pending := ∅ |> <| interrupt_state := DSP_INTERRUPT_NONE |>
      <| interrupt_instr_fetch := 0xFFFF |> <| interrupt_save_pc := 0xFFFF |>
      <| interrupt_counter := 0 |> <| interrupt_pipeline_count := 0 |> <| interrupt_ipl := ipl |>
      <| loop_rep := 0 |> <| num_inst := 0 |> <| exception_debugging := true |>.

End Core.

End DspCore.
