(* ===== verification/DspArith.v ===== *)
(** * 56-bit arithmetic of the DSP (hw/xbox/mcpx/apu/dsp/dsp_cpu.c)

    An accumulator is three words: bits 55..48, 47..24 and 23..0.  The routines add, subtract,
    shift, multiply and round such values and return the status bits L, V and C; the lemmas
    say what they compute on integers. *)

From S2P Require Import Prelude DspCore.
Import DspCore.

Module DspArith.

(** ** The code *)

(** [dest[0]], [dest[1]], [dest[2]] *)
Definition w56 : Type := Z * Z * Z.

(** [(x >> i) & 1] *)
Definition bit_of (x i : Z) : Z := Z.land (Z.shiftr x i) 1.

(** [(l << DSP_SR_L) | (v << DSP_SR_V) | (c << DSP_SR_C)] *)
Definition newsr_lvc (l v c : Z) : Z :=
  Z.lor (Z.lor (Z.shiftl l DSP_SR_L) (Z.shiftl v DSP_SR_V)) (Z.shiftl c DSP_SR_C).

Definition mask56 (d0 d1 d2 : Z) : w56 :=
  (Z.land d0 (BITMASK 8), Z.land d1 (BITMASK 24), Z.land d2 (BITMASK 24)).

(** [dest += source]: the status bits and the sum. *)
Definition dsp_add56 (source dest : w56) : Z * w56 :=
  let '(s0, s1, s2) := source in
  let '(d0, d1, d2) := dest in
  let flg_s := bit_of s0 7 in
  let flg_d := bit_of d0 7 in
  let d2 := u32 (d2 + s2) in
  let d1 := u32 (d1 + (s1 + bit_of d2 24)) in
  let d0 := u32 (d0 + (s0 + bit_of d1 24)) in
  let carry := bit_of d0 8 in
  let '(d0, d1, d2) := mask56 d0 d1 d2 in
  let flg_r := bit_of d0 7 in
  let overflow := Z.land (Z.lxor flg_s flg_r) (Z.lxor flg_d flg_r) in
  (newsr_lvc overflow overflow carry, (d0, d1, d2)).

(** [dest -= source] *)
Definition dsp_sub56 (source dest : w56) : Z * w56 :=
  let '(s0, s1, s2) := source in
  let '(d0, d1, d2) := dest in
  let dest_save := u16 d0 in
  let d2 := u32 (d2 - s2) in
  let d1 := u32 (d1 - (s1 + bit_of d2 24)) in
  let d0 := u32 (d0 - (s0 + bit_of d1 24)) in
  let carry := bit_of d0 8 in
  let '(d0, d1, d2) := mask56 d0 d1 d2 in
  let flg_s := bit_of s0 7 in
  let flg_d := bit_of dest_save 7 in
  let flg_r := bit_of d0 7 in
  let overflow := Z.land (Z.lxor flg_s flg_d) (Z.lxor flg_r flg_d) in
  (newsr_lvc overflow overflow carry, (d0, d1, d2)).

Definition dsp_abs56 (dest : w56) : Z * w56 :=
  let '(d0, _, _) := dest in
  if tst d0 (bit 7) then dsp_sub56 dest (0, 0, 0) else (0, dest).

(** The three words as one of 64 bits, and back. *)
Definition join64 (dest : w56) : Z :=
  let '(d0, d1, d2) := dest in
  Z.lor (Z.lor d2 (u64 (Z.shiftl d1 24))) (u64 (Z.shiftl d0 48)).
Definition split64 (v : Z) : w56 :=
  mask56 (Z.shiftr v 48) (Z.shiftr v 24) v.

(** A 64-bit shift by a negative amount or by 64 and more is undefined. *)
Definition shift_ok (n : Z) : res unit :=
  if (0 <=? n) && (n <? 64) then Ok tt else Fault ShiftRange.

Definition dsp_asl56 (dest : w56) (n : Z) : res (Z * w56) :=
  let dest_v := join64 dest in
  _ ← shift_ok (56 - n);
  let carry := bit_of dest_v (56 - n) in
  _ ← shift_ok n;
  let dest_s := u64 (Z.shiftl dest_v n) in
  let overflow := Z.b2z (negb (Z.shiftr dest_v (56 - n) =? 0)) in
  let v := Z.b2z (negb (bit_of dest_v 55 =? bit_of dest_s 55)) in
  Ok (newsr_lvc overflow v carry, split64 dest_s).

Definition dsp_asr56 (dest : w56) (n : Z) : res (Z * w56) :=
  let dest_v := join64 dest in
  _ ← shift_ok (n - 1);
  let carry := bit_of dest_v (n - 1) in
  _ ← shift_ok n;
  Ok (Z.shiftl carry DSP_SR_C, split64 (Z.shiftr dest_v n)).

Definition SIGN_PLUS : Z := 0.
Definition SIGN_MINUS : Z := 1.

(** A negative factor is replaced by its opposite and flips the sign. *)
Definition mul_sign (source signe : Z) : Z * Z :=
  if tst source (bit 23) then (u32 (Z.shiftl 1 24 - source), Z.lxor signe 1) else (source, signe).

(** A word's bits above 24 are added to the next one. *)
Definition mul_carry (hi lo : Z) : Z * Z :=
  let value := Z.land (Z.shiftr lo 24) (BITMASK 8) in
  if negb (value =? 0) then (u32 (hi + value), Z.land lo (BITMASK 24)) else (hi, lo).

Definition dsp_mul56 (source1 source2 signe : Z) : res w56 :=
  let '(source1, signe) := mul_sign source1 signe in
  let '(source2, signe) := mul_sign source2 signe in
  let lo1 := Z.land source1 (BITMASK 12) in
  let hi1 := Z.land (Z.shiftr source1 12) (BITMASK 12) in
  let lo2 := Z.land source2 (BITMASK 12) in
  let hi2 := Z.land (Z.shiftr source2 12) (BITMASK 12) in
  let part0 := u32 (lo1 * lo2) in
  let part1 := u32 (hi1 * lo2) in
  let part2 := u32 (lo1 * hi2) in
  let part3 := u32 (hi1 * hi2) in
  let d2 := u32 (u32 (part0 + Z.shiftl (Z.land part1 (BITMASK 12)) 12)
                 + Z.shiftl (Z.land part2 (BITMASK 12)) 12) in
  let d1 := u32 (Z.land (Z.shiftr part1 12) (BITMASK 12)
                 + Z.land (Z.shiftr part2 12) (BITMASK 12) + part3) in
  let '(d1, d2) := mul_carry d1 d2 in
  let '(d0, d1) := mul_carry 0 d1 in
  '(_, dest) ← dsp_asl56 (d0, d1, d2) 1;
  Ok (if negb (signe =? 0) then (dsp_sub56 dest (0, 0, 0)).2 else dest).

(** [sr] is the status register, whose bits S0 and S1 choose where to round. *)
Definition dsp_rnd56 (sr : Z) (dest : w56) : w56 :=
  if tst sr (bit DSP_SR_S0) then
    let '(_, (d0, d1, d2)) := dsp_add56 (0, 1, 0) dest in
    let d1 := if (d2 =? 0) && (Z.land d1 1 =? 0) then Z.land d1 (0xffffff - 0x3) else d1 in
    (d0, Z.land d1 0xfffffe, 0)
  else if tst sr (bit DSP_SR_S1) then
    let '(_, (d0, d1, d2)) := dsp_add56 (0, 0, bit 22) dest in
    let d2 := if Z.land d2 0x7fffff =? 0 then 0 else d2 in
    (d0, d1, Z.land d2 0x800000)
  else
    let '(_, (d0, d1, d2)) := dsp_add56 (0, 0, bit 23) dest in
    (d0, (if d2 =? 0 then Z.land d1 0xfffffe else d1), 0).

(** Sign extension from [bits] to 32 bits. *)
Definition dsp_signextend (bits v : Z) : res Z :=
  let shift := 32 - bits in
  _ ← c_assert (0 <? shift);
  Ok (u32 (Z.shiftr (s32 (Z.shiftl v shift)) shift)).

(** ** What they compute *)

Definition val56 (w : w56) : Z := let '(d0, d1, d2) := w in d0 * 2 ^ 48 + d1 * 2 ^ 24 + d2.
Definition limbs (w : w56) : Prop := let '(d0, d1, d2) := w in is_u8 d0 /\ in_uw 24 d1 /\ in_uw 24 d2.
Definition sgn56 (w : w56) : Z := swrap 56 (val56 w).

(** Twice the product of two fractions, or its opposite. *)
Definition ref_mul (signe s1 s2 : Z) : Z :=
  (if signe =? 0 then 1 else -1) * (2 * (swrap 24 s1 * swrap 24 s2)).

(** The multiple of [2 ^ k] nearest to [v]; of two, the even one. *)
Definition ref_round (k v : Z) : Z :=
  let q := v / 2 ^ k in
  let r := v mod 2 ^ k in
  (if (r <? 2 ^ (k - 1)) || ((r =? 2 ^ (k - 1)) && Z.even q) then q else q + 1) * 2 ^ k.

Lemma bit_of_arith x i : 0 <= i -> bit_of x i = x / 2 ^ i mod 2.
Proof.
  intros. unfold bit_of. change 1 with (Z.ones 1).
  by rewrite Z.land_ones, Z.shiftr_div_pow2 by lia.
Qed.

Lemma land_BITMASK x k : 0 <= k -> Z.land x (BITMASK k) = x mod 2 ^ k.
Proof.
  intros. unfold BITMASK. rewrite Z.shiftl_mul_pow2, Z.mul_1_l, Z.sub_1_r, <- Z.ones_equiv by done.
  by apply Z.land_ones.
Qed.

Lemma mask56_arith d0 d1 d2 : mask56 d0 d1 d2 = (d0 mod 2 ^ 8, d1 mod 2 ^ 24, d2 mod 2 ^ 24).
Proof. unfold mask56. by rewrite !land_BITMASK by lia. Qed.

Lemma bit_cases x i : 0 <= i -> bit_of x i = 0 \/ bit_of x i = 1.
Proof. intros. rewrite bit_of_arith by done. pose proof (Z.mod_pos_bound (x / 2 ^ i) 2). lia. Qed.

(** The overflow bit of an addition: the operands agree in sign and the result does not. *)
Lemma overflow_bits a b r : (a = 0 \/ a = 1) -> (b = 0 \/ b = 1) -> (r = 0 \/ r = 1) ->
  Z.land (Z.lxor a r) (Z.lxor b r) = Z.b2z ((a =? b) && negb (a =? r)).
Proof. intros [->| ->] [->| ->] [->| ->]; done. Qed.

Definition in_s56 (x : Z) : bool := (- 2 ^ 55 <=? x) && (x <? 2 ^ 55).

Ltac arith_limbs :=
  unfold limbs, in_uw, sgn56, val56, swrap, in_s56, uwrap in *;
  change (2 ^ 8) with 256 in *; change (2 ^ 24) with 16777216 in *;
  change (2 ^ 48) with 281474976710656 in *; change (2 ^ 56) with 72057594037927936 in *;
  change (2 ^ (56 - 1)) with 36028797018963968 in *; change (2 ^ 55) with 36028797018963968 in *;
  change (2 ^ 32) with 4294967296 in *; change (2 ^ 7) with 128 in *; change (2 ^ 16) with 65536 in *.

(** The top bit is the sign. *)
Lemma sgn56_bit d0 d1 d2 : limbs (d0, d1, d2) ->
  sgn56 (d0, d1, d2) = val56 (d0, d1, d2) - 2 ^ 56 * (d0 / 2 ^ 7 mod 2)
  /\ (d0 / 2 ^ 7 mod 2 = 0 \/ d0 / 2 ^ 7 mod 2 = 1)
  /\ 0 <= val56 (d0, d1, d2) - 2 ^ 55 * (d0 / 2 ^ 7 mod 2) < 2 ^ 55.
Proof.
  intros Hl. assert (d0 / 2 ^ 7 mod 2 = 0 \/ d0 / 2 ^ 7 mod 2 = 1) by (arith_limbs; dlia).
  split_and!; [|done|arith_limbs; dlia|arith_limbs; dlia].
  unfold sgn56, swrap. rewrite Z.mod_small by (arith_limbs; lia).
  destruct (Z.ltb_spec (val56 (d0, d1, d2)) (2 ^ (56 - 1))); arith_limbs; dlia.
Qed.

Lemma dsp_add56_correct s d : limbs s -> limbs d ->
  let '(sr, r) := dsp_add56 s d in
  limbs r /\ val56 r = (val56 d + val56 s) mod 2 ^ 56
  /\ exists v, sr = newsr_lvc v v ((val56 d + val56 s) / 2 ^ 56)
     /\ v = Z.b2z (negb (in_s56 (sgn56 d + sgn56 s))).
Proof.
  destruct s as [[s0 s1] s2], d as [[d0 d1] d2]. intros Hs Hd.
  unfold dsp_add56. rewrite mask56_arith.
  set (e2 := u32 (d2 + s2)). set (e1 := u32 (d1 + (s1 + bit_of e2 24))).
  set (e0 := u32 (d0 + (s0 + bit_of e1 24))). cbn beta iota zeta.
  rewrite overflow_bits by (apply bit_cases; lia).
  assert (E2 : e2 = d2 + s2) by (subst e2; arith_limbs; dlia).
  assert (E1 : e1 = d1 + s1 + e2 / 2 ^ 24).
  { subst e1. rewrite bit_of_arith by lia. arith_limbs. dlia. }
  assert (E0 : e0 = d0 + s0 + e1 / 2 ^ 24).
  { subst e0. rewrite bit_of_arith by lia. arith_limbs. dlia. }
  clearbody e0 e1 e2. rewrite !bit_of_arith by lia.
  assert (EV : val56 (d0, d1, d2) + val56 (s0, s1, s2)
    = val56 (e0 mod 2 ^ 8, e1 mod 2 ^ 24, e2 mod 2 ^ 24) + 2 ^ 56 * (e0 / 2 ^ 8 mod 2)).
  { arith_limbs. dlia. }
  assert (Hl : limbs (e0 mod 2 ^ 8, e1 mod 2 ^ 24, e2 mod 2 ^ 24)).
  { arith_limbs. split_and!; apply Z.mod_pos_bound; lia. }
  split; [done|]. split; [rewrite EV; arith_limbs; dlia|].
  eexists. split; [|done].
  destruct (sgn56_bit _ _ _ Hs) as (-> & Bs & Vs), (sgn56_bit _ _ _ Hd) as (-> & Bd & Vd),
    (sgn56_bit _ _ _ Hl) as (_ & Br & Vr).
  set (bs := s0 / 2 ^ 7 mod 2) in *. set (bd := d0 / 2 ^ 7 mod 2) in *.
  set (br := (e0 mod 2 ^ 8) / 2 ^ 7 mod 2) in *. set (c := e0 / 2 ^ 8 mod 2) in *.
  assert (c = 0 \/ c = 1) by (subst c; pose proof (Z.mod_pos_bound (e0 / 2 ^ 8) 2); lia).
  set (vs := val56 (s0, s1, s2)) in *. set (vd := val56 (d0, d1, d2)) in *.
  set (vr := val56 _) in *. clearbody bs bd br c vs vd vr.
  assert (c = (vd + vs) / 2 ^ 56) as <- by (arith_limbs; dlia).
  enough (Z.b2z ((bs =? bd) && negb (bs =? br))
    = Z.b2z (negb (in_s56 (vd - 2 ^ 56 * bd + (vs - 2 ^ 56 * bs))))) as -> by done.
  f_equal. arith_limbs. lia.
Qed.

Lemma dsp_sub56_correct s d : limbs s -> limbs d ->
  let '(sr, r) := dsp_sub56 s d in
  limbs r /\ val56 r = (val56 d - val56 s) mod 2 ^ 56
  /\ exists v, sr = newsr_lvc v v (Z.b2z (val56 d <? val56 s))
     /\ v = Z.b2z (negb (in_s56 (sgn56 d - sgn56 s))).
Proof.
  destruct s as [[s0 s1] s2], d as [[d0 d1] d2]. intros Hs Hd.
  unfold dsp_sub56. rewrite mask56_arith, (uwrap_small 16 d0) by (arith_limbs; lia).
  set (e2 := u32 (d2 - s2)). set (e1 := u32 (d1 - (s1 + bit_of e2 24))).
  set (e0 := u32 (d0 - (s0 + bit_of e1 24))). cbn beta iota zeta.
  rewrite (Z.lxor_comm (bit_of s0 7)), (Z.lxor_comm (bit_of (e0 mod 2 ^ 8) 7)),
    Z.land_comm, Z.lxor_comm, (Z.lxor_comm (bit_of d0 7) (bit_of s0 7)).
  rewrite overflow_bits by (apply bit_cases; lia).
  assert (E2 : e2 mod 2 ^ 24 = d2 - s2 + 2 ^ 24 * (e2 / 2 ^ 24 mod 2)).
  { subst e2. arith_limbs. dlia. }
  assert (E1 : e1 mod 2 ^ 24 = d1 - (s1 + e2 / 2 ^ 24 mod 2) + 2 ^ 24 * (e1 / 2 ^ 24 mod 2)).
  { subst e1. rewrite bit_of_arith by lia. arith_limbs. dlia. }
  assert (E0 : e0 mod 2 ^ 8 = d0 - (s0 + e1 / 2 ^ 24 mod 2) + 2 ^ 8 * (e0 / 2 ^ 8 mod 2)).
  { subst e0. rewrite bit_of_arith by lia. arith_limbs. dlia. }
  clearbody e0 e1 e2. rewrite !bit_of_arith by lia.
  assert (Hl : limbs (e0 mod 2 ^ 8, e1 mod 2 ^ 24, e2 mod 2 ^ 24)).
  { arith_limbs. split_and!; apply Z.mod_pos_bound; lia. }
  assert (EV : val56 (d0, d1, d2) - val56 (s0, s1, s2)
    = val56 (e0 mod 2 ^ 8, e1 mod 2 ^ 24, e2 mod 2 ^ 24) - 2 ^ 56 * (e0 / 2 ^ 8 mod 2)).
  { arith_limbs. lia. }
  assert (Hb : e0 / 2 ^ 8 mod 2 = 0 \/ e0 / 2 ^ 8 mod 2 = 1)
    by (pose proof (Z.mod_pos_bound (e0 / 2 ^ 8) 2); lia).
  destruct (sgn56_bit _ _ _ Hs) as (-> & Bs & Vs), (sgn56_bit _ _ _ Hd) as (-> & Bd & Vd),
    (sgn56_bit _ _ _ Hl) as (_ & Br & Vr).
  split; [done|].
  set (bs := s0 / 2 ^ 7 mod 2) in *. set (bd := d0 / 2 ^ 7 mod 2) in *.
  set (br := (e0 mod 2 ^ 8) / 2 ^ 7 mod 2) in *. set (c := e0 / 2 ^ 8 mod 2) in *.
  set (vs := val56 (s0, s1, s2)) in *. set (vd := val56 (d0, d1, d2)) in *.
  set (vr := val56 _) in *. clearbody bs bd br c vs vd vr.
  split; [arith_limbs; dlia|]. eexists. split; [|done].
  assert (c = Z.b2z (vd <? vs)) as <- by (destruct (Z.ltb_spec vd vs); cbn [Z.b2z]; arith_limbs; lia).
  enough (Z.b2z ((br =? bs) && negb (br =? bd))
    = Z.b2z (negb (in_s56 (vd - 2 ^ 56 * bd - (vs - 2 ^ 56 * bs))))) as -> by done.
  f_equal. arith_limbs. lia.
Qed.

Lemma join64_val w : limbs w -> join64 w = val56 w.
Proof.
  destruct w as [[d0 d1] d2]. intros Hl. unfold join64.
  rewrite !uwrap_small by (rewrite Z.shiftl_mul_pow2 by lia; arith_limbs; lia).
  rewrite (lor_shiftl 24) by (arith_limbs; lia).
  rewrite (lor_shiftl 48) by (arith_limbs; lia). unfold val56. lia.
Qed.

Lemma split64_val v : limbs (split64 v) /\ val56 (split64 v) = v mod 2 ^ 56.
Proof.
  unfold split64. rewrite mask56_arith, !Z.shiftr_div_pow2 by lia.
  split; [|arith_limbs; dlia]. arith_limbs. split_and!; apply Z.mod_pos_bound; lia.
Qed.

Lemma val56_range w : limbs w -> 0 <= val56 w < 2 ^ 56.
Proof. destruct w as [[d0 d1] d2]. arith_limbs. lia. Qed.

Lemma sgn56_range w : limbs w -> in_s56 (sgn56 w) = true /\ (sgn56 w - val56 w) mod 2 ^ 56 = 0.
Proof.
  intros Hl. pose proof (val56_range w Hl). unfold sgn56, swrap.
  rewrite Z.mod_small by done. case_match; unfold in_s56; arith_limbs; dlia.
Qed.

(** A number in range is determined by its remainder. *)
Lemma sgn56_unique w x : limbs w -> in_s56 x = true -> val56 w = x mod 2 ^ 56 -> sgn56 w = x.
Proof.
  intros Hl Hx Hv. destruct (sgn56_range w Hl) as [Hr Hm]. rewrite Hv in Hm.
  unfold in_s56 in *. arith_limbs. dlia.
Qed.

Lemma shift_ok_true n : 0 <= n < 64 -> shift_ok n = Ok tt.
Proof. intros. unfold shift_ok. by rewrite (proj2 (Z.leb_le _ _)), (proj2 (Z.ltb_lt _ _)) by lia. Qed.

Lemma dsp_asl56_correct d n : limbs d -> 0 <= n <= 56 ->
  exists l v c r, dsp_asl56 d n = Ok (newsr_lvc l v c, r) /\ limbs r
    /\ val56 r = (val56 d * 2 ^ n) mod 2 ^ 56
    /\ l = Z.b2z (negb (val56 d / 2 ^ (56 - n) =? 0))
    /\ c = val56 d / 2 ^ (56 - n) mod 2
    /\ v = Z.b2z (negb (Bool.eqb (sgn56 d <? 0) (sgn56 r <? 0))).
Proof.
  intros Hd Hn. unfold dsp_asl56. rewrite !shift_ok_true by lia. cbn [mbind res_mbind res_bind].
  rewrite join64_val by done. do 4 eexists. split; [done|].
  set (s := u64 _). destruct (split64_val s) as [Hl Hv].
  assert (Hs : s mod 2 ^ 56 = (val56 d * 2 ^ n) mod 2 ^ 56).
  { subst s. unfold uwrap. rewrite Z.shiftl_mul_pow2 by lia.
    rewrite Z.mod_mod_divide; [done|]. by exists (2 ^ 8). }
  split; [done|]. split; [by rewrite Hv|].
  split; [by rewrite Z.shiftr_div_pow2 by lia|]. split; [by rewrite bit_of_arith by lia|].
  assert (Hb : forall w x, limbs w -> val56 w = x mod 2 ^ 56 -> 0 <= x ->
    bit_of x 55 = Z.b2z (sgn56 w <? 0)).
  { intros w x Hw E Hx. rewrite bit_of_arith by lia. unfold sgn56, swrap.
    rewrite E, Z.mod_mod by lia.
    destruct (Z.ltb_spec (x mod 2 ^ 56) (2 ^ (56 - 1)));
      [destruct (Z.ltb_spec (x mod 2 ^ 56) 0)|destruct (Z.ltb_spec (x mod 2 ^ 56 - 2 ^ 56) 0)];
      cbn [Z.b2z]; arith_limbs; dlia. }
  pose proof (val56_range d Hd).
  rewrite (Hb d (val56 d)) by (done || lia || by rewrite Z.mod_small).
  rewrite (Hb (split64 s) s) by (done || apply uwrap_range; lia).
  by destruct (sgn56 d <? 0), (sgn56 (split64 s) <? 0).
Qed.

(** The right shift fills with zeros. *)
Lemma dsp_asr56_correct d n : limbs d -> 1 <= n < 64 ->
  exists r, dsp_asr56 d n = Ok (val56 d / 2 ^ (n - 1) mod 2, r) /\ limbs r /\ val56 r = val56 d / 2 ^ n.
Proof.
  intros Hd Hn. unfold dsp_asr56. rewrite !shift_ok_true by lia. cbn [mbind res_mbind res_bind].
  rewrite join64_val by done. eexists. split.
  { rewrite bit_of_arith by lia. by rewrite Z.shiftl_0_r. }
  destruct (split64_val (Z.shiftr (val56 d) n)) as [Hl Hv]. split; [done|].
  rewrite Hv, Z.shiftr_div_pow2 by lia. pose proof (val56_range d Hd).
  apply Z.mod_small. split; [apply Z.div_pos; lia|].
  apply Z.le_lt_trans with (val56 d); [|lia]. apply Z.div_le_upper_bound; [lia|]. nia.
Qed.

(** The partial products, put together. *)
Lemma mul_limbs a b : 0 <= a <= 2 ^ 23 -> 0 <= b <= 2 ^ 23 ->
  let lo1 := a mod 2 ^ 12 in let hi1 := a / 2 ^ 12 mod 2 ^ 12 in
  let lo2 := b mod 2 ^ 12 in let hi2 := b / 2 ^ 12 mod 2 ^ 12 in
  exists p0 p1 p2 p3, u32 (lo1 * lo2) = p0 /\ u32 (hi1 * lo2) = p1 /\ u32 (lo1 * hi2) = p2
    /\ u32 (hi1 * hi2) = p3
    /\ 0 <= p0 < 2 ^ 24 /\ 0 <= p1 < 2 ^ 24 /\ 0 <= p2 < 2 ^ 24 /\ 0 <= p3 <= 2 ^ 22
    /\ a * b = p0 + 2 ^ 12 * (p1 + p2) + 2 ^ 24 * p3.
Proof.
  intros Ha Hb lo1 hi1 lo2 hi2.
  assert (E1 : a = hi1 * 2 ^ 12 + lo1) by (subst lo1 hi1; dlia).
  assert (E2 : b = hi2 * 2 ^ 12 + lo2) by (subst lo2 hi2; dlia).
  assert (0 <= lo1 < 2 ^ 12) by (subst lo1; apply Z.mod_pos_bound; lia).
  assert (0 <= lo2 < 2 ^ 12) by (subst lo2; apply Z.mod_pos_bound; lia).
  assert (0 <= hi1 <= 2 ^ 11) by (subst hi1; dlia).
  assert (0 <= hi2 <= 2 ^ 11) by (subst hi2; dlia).
  clearbody lo1 hi1 lo2 hi2.
  change (2 ^ 12) with 4096 in *. change (2 ^ 11) with 2048 in *.
  change (2 ^ 24) with 16777216. change (2 ^ 22) with 4194304.
  exists (lo1 * lo2), (hi1 * lo2), (lo1 * hi2), (hi1 * hi2).
  rewrite !uwrap_id by (change (2 ^ 32) with 4294967296; nia).
  split_and!; try done; nia.
Qed.

(** The factor's absolute value and sign. *)
Lemma mul_sign_abs s g : in_uw 24 s -> (g = 0 \/ g = 1) ->
  let '(a, g') := mul_sign s g in
  a = Z.abs (swrap 24 s) /\ 0 <= a <= 2 ^ 23
  /\ g' = Z.lxor g (Z.b2z (swrap 24 s <? 0)) /\ (g' = 0 \/ g' = 1).
Proof.
  unfold in_uw. intros Hs Hg. unfold mul_sign, swrap, tst, bit.
  rewrite Z.mod_small by done.
  assert (E : Z.land s (Z.shiftl 1 23) = 2 ^ 23 * (s / 2 ^ 23)).
  { rewrite (land_GET_MASK s _ 23 1), (GET_MASK_arith s _ 23 1) by bitfield.
    rewrite (Z.mod_small (s / 2 ^ 23)) by (change (2 ^ 1) with 2; dlia). lia. }
  rewrite E. change (2 ^ (24 - 1)) with (2 ^ 23).
  destruct (Z.eqb_spec (2 ^ 23 * (s / 2 ^ 23)) 0) as [E0|E0]; cbn [negb].
  - assert (s < 2 ^ 23) by dlia. rewrite (proj2 (Z.ltb_lt _ _)) by done.
    rewrite (proj2 (Z.ltb_ge _ _)) by lia. cbn [Z.b2z]. rewrite Z.lxor_0_r. lia.
  - assert (2 ^ 23 <= s) by dlia. rewrite (proj2 (Z.ltb_ge s _)) by done.
    rewrite (proj2 (Z.ltb_lt _ 0)) by lia. cbn [Z.b2z].
    rewrite uwrap_id by (change (Z.shiftl 1 24) with (2 ^ 24); lia).
    change (Z.shiftl 1 24) with (2 ^ 24). split_and!; [lia|lia|lia|done|].
    destruct Hg as [->| ->]; [by right|by left].
Qed.

Lemma mul_carry_arith hi lo : 0 <= lo < 2 ^ 32 -> 0 <= hi < 2 ^ 31 ->
  mul_carry hi lo = (hi + lo / 2 ^ 24, lo mod 2 ^ 24).
Proof.
  intros Hl Hh. unfold mul_carry. rewrite !land_BITMASK, Z.shiftr_div_pow2 by lia.
  rewrite (Z.mod_small (lo / 2 ^ 24)) by dlia.
  destruct (Z.eqb_spec (lo / 2 ^ 24) 0) as [E|E]; cbn [negb].
  - rewrite E, Z.mod_small by dlia. f_equal. lia.
  - f_equal. apply uwrap_id. dlia.
Qed.

(** The words of the product of two magnitudes. *)
Lemma mul_words a b : 0 <= a <= 2 ^ 23 -> 0 <= b <= 2 ^ 23 ->
  let lo1 := Z.land a (BITMASK 12) in let hi1 := Z.land (Z.shiftr a 12) (BITMASK 12) in
  let lo2 := Z.land b (BITMASK 12) in let hi2 := Z.land (Z.shiftr b 12) (BITMASK 12) in
  let part0 := u32 (lo1 * lo2) in let part1 := u32 (hi1 * lo2) in
  let part2 := u32 (lo1 * hi2) in let part3 := u32 (hi1 * hi2) in
  let d2 := u32 (u32 (part0 + Z.shiftl (Z.land part1 (BITMASK 12)) 12)
                 + Z.shiftl (Z.land part2 (BITMASK 12)) 12) in
  let d1 := u32 (Z.land (Z.shiftr part1 12) (BITMASK 12)
                 + Z.land (Z.shiftr part2 12) (BITMASK 12) + part3) in
  let '(d1, d2) := mul_carry d1 d2 in
  let '(d0, d1) := mul_carry 0 d1 in
  limbs (d0, d1, d2) /\ val56 (d0, d1, d2) = a * b.
Proof.
  intros Ha Hb. cbv zeta. rewrite !land_BITMASK, !Z.shiftr_div_pow2, !Z.shiftl_mul_pow2 by lia.
  destruct (mul_limbs a b Ha Hb) as (p0 & p1 & p2 & p3 & E0 & E1 & E2 & E3 & H0 & H1 & H2 & H3 & ->).
  rewrite E0, E1, E2, E3. clear E0 E1 E2 E3 Ha Hb.
  set (d2 := u32 (u32 _ + _)). set (d1 := u32 (_ + p3)).
  assert (E2 : d2 = p0 + p1 mod 2 ^ 12 * 2 ^ 12 + p2 mod 2 ^ 12 * 2 ^ 12).
  { subst d2. rewrite (uwrap_id 32 (p0 + _)) by dlia. apply uwrap_id. dlia. }
  assert (E1 : d1 = p1 / 2 ^ 12 + p2 / 2 ^ 12 + p3).
  { subst d1. rewrite !(Z.mod_small (_ / 2 ^ 12)) by dlia. apply uwrap_id. dlia. }
  clearbody d1 d2. rewrite mul_carry_arith by dlia. rewrite mul_carry_arith by dlia.
  subst d1 d2. change (2 ^ 12) with 4096 in *. change (2 ^ 22) with 4194304 in *. arith_limbs.
  split; [split_and!; dlia|dlia].
Qed.

Lemma dsp_mul56_correct s1 s2 g : in_uw 24 s1 -> in_uw 24 s2 -> (g = 0 \/ g = 1) ->
  exists r, dsp_mul56 s1 s2 g = Ok r /\ limbs r /\ sgn56 r = ref_mul g s1 s2.
Proof.
  intros H1 H2 Hg. unfold dsp_mul56, ref_mul.
  pose proof (mul_sign_abs s1 g H1 Hg) as M1. destruct (mul_sign s1 g) as [a g1].
  destruct M1 as (Ea & Ha & E1 & Hg1).
  pose proof (mul_sign_abs s2 g1 H2 Hg1) as M2. destruct (mul_sign s2 g1) as [b g2].
  destruct M2 as (Eb & Hb & E2 & Hg2). cbv zeta.
  pose proof (mul_words a b Ha Hb) as W. cbv zeta in W.
  destruct (mul_carry _ _) as [d1 d2]. destruct (mul_carry _ _) as [d0 d1']. destruct W as [Hl Hv].
  destruct (dsp_asl56_correct (d0, d1', d2) 1 Hl ltac:(lia)) as (l & v & c & r & -> & Hr & Er & _).
  cbn [mbind res_mbind res_bind]. eexists. split; [done|].
  assert (Hab : 0 <= a * b <= 2 ^ 46) by nia.
  rewrite Hv in Er. rewrite Z.mod_small in Er by (change (2 ^ 1) with 2; lia).
  assert (E : (if g =? 0 then 1 else -1) * (2 * (swrap 24 s1 * swrap 24 s2))
            = (if g2 =? 0 then 1 else -1) * (2 * (a * b))).
  { subst a b g1 g2. set (x := swrap 24 s1) in *. set (y := swrap 24 s2) in *.
    destruct (Z.abs_spec x) as [[? ->]|[? ->]], (Z.abs_spec y) as [[? ->]|[? ->]];
      destruct Hg as [-> | ->]; destruct (Z.ltb_spec x 0), (Z.ltb_spec y 0);
      cbn [Z.b2z]; rewrite ?Z.lxor_0_r, ?Z.lxor_0_l, ?Z.lxor_nilpotent, ?Z.eqb_refl; cbn -[Z.mul]; lia. }
  rewrite E. destruct (Z.eqb_spec g2 0); cbn [negb].
  - split; [done|]. apply sgn56_unique; [done|unfold in_s56; lia|].
    rewrite Er, Z.mod_small by lia. lia.
  - pose proof (dsp_sub56_correct r (0, 0, 0) Hr ltac:(by repeat split)) as S.
    destruct (dsp_sub56 r (0, 0, 0)) as [sr r']. destruct S as (Hr' & Er' & _). cbn [snd].
    split; [done|]. apply sgn56_unique; [done|unfold in_s56; lia|].
    rewrite Er', Er. f_equal. unfold val56. lia.
Qed.

(** Where the scaling mode rounds: S0 scales down, S1 up. *)
Definition round_bit (sr : Z) : Z :=
  if tst sr (bit DSP_SR_S0) then 25 else if tst sr (bit DSP_SR_S1) then 23 else 24.

(** Rounding by adding half and clearing: a tie has nothing left below the bit. *)
Lemma ref_round_add k v : 0 < k ->
  ref_round k v =
  let u := v + 2 ^ (k - 1) in
  (u / 2 ^ k - (if (u mod 2 ^ k =? 0) && negb (u / 2 ^ k mod 2 =? 0) then 1 else 0)) * 2 ^ k.
Proof.
  intros Hk. unfold ref_round. cbv zeta. f_equal.
  assert (E : 2 ^ k = 2 * 2 ^ (k - 1)) by (rewrite <- Z.pow_succ_r by lia; f_equal; lia).
  rewrite E. set (h := 2 ^ (k - 1)). assert (0 < h) by (subst h; lia). clearbody h. clear E Hk.
  set (q := v / (2 * h)). set (r := v mod (2 * h)).
  assert (Ev : v = (2 * h) * q + r) by (apply Z.div_mod; lia).
  assert (Hr : 0 <= r < 2 * h) by (apply Z.mod_pos_bound; lia). clearbody q r. subst v.
  rewrite Zeven_mod.
  destruct (Z.ltb_spec r h); cbn [orb].
  - assert ((2 * h * q + r + h) / (2 * h) = q /\ (2 * h * q + r + h) mod (2 * h) = r + h) as [-> ->].
    { split; [symmetry; eapply (Z.div_unique_pos _ _ _ (r + h))|
              symmetry; eapply (Z.mod_unique_pos _ _ q)]; lia. }
    rewrite (proj2 (Z.eqb_neq (r + h) 0)) by lia. cbn [andb]. lia.
  - assert ((2 * h * q + r + h) / (2 * h) = q + 1 /\ (2 * h * q + r + h) mod (2 * h) = r - h) as [-> ->].
    { split; [symmetry; eapply (Z.div_unique_pos _ _ _ (r - h))|
              symmetry; eapply (Z.mod_unique_pos _ _ (q + 1))]; lia. }
    destruct (Z.eqb_spec r h); [|rewrite (proj2 (Z.eqb_neq (r - h) 0)) by lia; cbn [andb]; lia].
    rewrite (proj2 (Z.eqb_eq (r - h) 0)) by lia. cbn [andb].
    destruct (Z.eqb_spec (q mod 2) 0), (Z.eqb_spec ((q + 1) mod 2) 0); cbn [negb]; dlia.
Qed.

(** The rounded value, when [u] is known modulo [2 ^ 56] as [m] units of [2 ^ k] and [r]. *)
Lemma round_limbs k u m r c : 0 < k < 56 -> 0 <= m < 2 ^ (56 - k) -> 0 <= r < 2 ^ k ->
  u mod 2 ^ 56 = m * 2 ^ k + r -> c = (r =? 0) && negb (m mod 2 =? 0) ->
  ((u / 2 ^ k - (if (u mod 2 ^ k =? 0) && negb (u / 2 ^ k mod 2 =? 0) then 1 else 0)) * 2 ^ k) mod 2 ^ 56
  = (m - Z.b2z c) * 2 ^ k.
Proof.
  intros Hk Hm Hr Hu Hc.
  assert (E : 2 ^ 56 = 2 * 2 ^ (55 - k) * 2 ^ k).
  { rewrite <- Z.pow_succ_r, <- Z.pow_add_r by lia. f_equal. lia. }
  assert (E' : 2 ^ (56 - k) = 2 * 2 ^ (55 - k)) by (rewrite <- Z.pow_succ_r by lia; f_equal; lia).
  rewrite E in *. rewrite E' in Hm. assert (0 < 2 ^ (55 - k)) by lia.
  set (b := 2 ^ k) in *. set (n := 2 ^ (55 - k)) in *. assert (0 < b) by (subst b; lia).
  clearbody b n. clear E E' Hk.
  pose proof (Z.div_mod u (2 * n * b) ltac:(nia)) as Ed. rewrite Hu in Ed.
  set (t := u / (2 * n * b)) in *. clearbody t.
  assert (u / b = 2 * n * t + m) as ->.
  { symmetry. apply (Z.div_unique_pos _ _ _ r); [done|]. rewrite Ed. ring. }
  assert (u mod b = r) as ->.
  { symmetry. apply (Z.mod_unique_pos _ _ (2 * n * t + m)); [done|]. rewrite Ed. ring. }
  assert ((2 * n * t + m) mod 2 = m mod 2) as ->.
  { replace (2 * n * t + m) with (m + (n * t) * 2) by ring. apply Z.mod_add. lia. }
  rewrite <- Hc. assert (Hc' : c = true -> 1 <= m).
  { intros Ec. rewrite Ec in Hc. symmetry in Hc. apply andb_prop in Hc as [_ Hc].
    destruct (Z.eqb_spec (m mod 2) 0); [done|]. dlia. }
  symmetry. apply (Z.mod_unique_pos _ _ t); [|destruct c; cbn [Z.b2z]; ring].
  destruct c; cbn [Z.b2z]; [specialize (Hc' eq_refl)|]; nia.
Qed.

Lemma dsp_rnd56_correct sr d : limbs d ->
  limbs (dsp_rnd56 sr d) /\ val56 (dsp_rnd56 sr d) = ref_round (round_bit sr) (val56 d) mod 2 ^ 56.
Proof.
  intros Hd. unfold dsp_rnd56, round_bit.
  assert (A : forall c, limbs c -> exists sr d0 d1 d2, dsp_add56 c d = (sr, (d0, d1, d2))
    /\ limbs (d0, d1, d2) /\ (val56 d + val56 c) mod 2 ^ 56 = d0 * 2 ^ 48 + d1 * 2 ^ 24 + d2).
  { intros c Hc. pose proof (dsp_add56_correct c d Hc Hd) as S.
    destruct (dsp_add56 c d) as [sr' [[d0 d1] d2]]. destruct S as (? & ? & _). eauto 10. }
  destruct (tst sr (bit DSP_SR_S0)); [|destruct (tst sr (bit DSP_SR_S1))].
  - destruct (A (0, 1, 0)) as (sr' & d0 & d1 & d2 & -> & Hl & Hv); [done|].
    rewrite ref_round_add by lia. cbv zeta. change (val56 (0, 1, 0)) with (2 ^ (25 - 1)) in Hv.
    rewrite (round_limbs 25 _ (d0 * 2 ^ 23 + d1 / 2) (d1 mod 2 * 2 ^ 24 + d2)
      ((d2 =? 0) && (d1 mod 2 =? 0) && negb (d1 / 2 mod 2 =? 0)));
      [|lia|arith_limbs; dlia|arith_limbs; dlia|rewrite Hv; arith_limbs; dlia|
       arith_limbs; dlia].
    change (0xffffff - 0x3) with 0xfffffc.
    replace (Z.land d1 1) with (d1 mod 2) by (symmetry; apply (Z.land_ones d1 1); lia).
    rewrite !(land_GET_MASK _ 0xfffffe 1 23), (land_GET_MASK d1 0xfffffc 2 22),
      !(GET_MASK_arith _ 0xfffffe 1 23), (GET_MASK_arith d1 0xfffffc 2 22) by (lia || bitfield).
    destruct (Z.eqb_spec d2 0), (Z.eqb_spec (d1 mod 2) 0), (Z.eqb_spec (d1 / 2 mod 2) 0);
      cbn [andb negb Z.b2z]; arith_limbs; split; try (split_and!; dlia); dlia.
  - destruct (A (0, 0, bit 22)) as (sr' & d0 & d1 & d2 & -> & Hl & Hv); [done|].
    rewrite ref_round_add by lia. cbv zeta. change (val56 (0, 0, bit 22)) with (2 ^ (23 - 1)) in Hv.
    rewrite (round_limbs 23 _ (d0 * 2 ^ 25 + d1 * 2 + d2 / 2 ^ 23) (d2 mod 2 ^ 23)
      ((d2 mod 2 ^ 23 =? 0) && negb (d2 / 2 ^ 23 =? 0)));
      [|lia|arith_limbs; dlia|arith_limbs; dlia|rewrite Hv; arith_limbs; dlia|
       arith_limbs; dlia].
    rewrite (land_GET_MASK d2 0x7fffff 0 23), (GET_MASK_arith d2 0x7fffff 0 23),
      !(land_GET_MASK _ 0x800000 23 1), !(GET_MASK_arith _ 0x800000 23 1) by bitfield.
    rewrite Z.pow_0_r, Z.div_1_r, Z.mul_1_r.
    destruct (Z.eqb_spec (d2 mod 2 ^ 23) 0), (Z.eqb_spec (d2 / 2 ^ 23) 0);
      cbn [andb negb Z.b2z]; arith_limbs; split; try (split_and!; dlia); dlia.
  - destruct (A (0, 0, bit 23)) as (sr' & d0 & d1 & d2 & -> & Hl & Hv); [done|].
    rewrite ref_round_add by lia. cbv zeta. change (val56 (0, 0, bit 23)) with (2 ^ (24 - 1)) in Hv.
    rewrite (round_limbs 24 _ (d0 * 2 ^ 24 + d1) d2 ((d2 =? 0) && negb (d1 mod 2 =? 0)));
      [|lia|arith_limbs; dlia|arith_limbs; dlia|rewrite Hv; arith_limbs; dlia|
       arith_limbs; dlia].
    rewrite (land_GET_MASK _ 0xfffffe 1 23), (GET_MASK_arith _ 0xfffffe 1 23) by bitfield.
    destruct (Z.eqb_spec d2 0), (Z.eqb_spec (d1 mod 2) 0);
      cbn [andb negb Z.b2z]; arith_limbs; split; try (split_and!; dlia); dlia.
Qed.

End DspArith.
