(* ===== verification/DspAlu.v ===== *)
(** * Addresses, conditions and the ALU of the DSP (hw/xbox/mcpx/apu/dsp/dsp_emu.c.inc)

    The update of an address register, effective addresses, condition codes, and the 256
    operations of [opcodes_alu] that run beside a parallel move.  The source has one function
    for each choice of operands; here one definition stands for each operation, and the table
    supplies the operands. *)

From S2P Require Import Prelude DspCore DspArith.
Import DspCore DspArith.

Module DspAlu.

Abbreviation s16 := (swrap 16).

Section Alu.
Context {X : Type} `{Peripherals X}.
Implicit Types dsp : dsp_core_t X.

Definition emu_undefined dsp : res (dsp_core_t X) :=
  let dsp := cycles (dsp <| cur_inst_len := 0 |>) 100 in
  _ ← debug_abort dsp;
  Ok dsp.

(** ** Address registers *)

(** The loop that looks for the lowest set bit of 16, which ends with 16 if there is none. *)
Fixpoint lowest_bit (n : nat) (revbits value : Z) : Z :=
  match n with
  | O => revbits
  | S n => if tst value (bit revbits) then revbits else lowest_bit n (revbits + 1) value
  end.

(** The low [revbits] bits of [r_reg] in reverse, above them as they are. *)
Definition reverse_bits (revbits r_reg : Z) : Z :=
  foldl (fun value i => if tst r_reg (bit i) then Z.lor value (bit (revbits - i - 1)) else value)
    (Z.land r_reg (BITMASK 16 - BITMASK revbits)) (zseq revbits).

Definition emu_update_rn_bitreverse dsp (numreg : Z) : res (dsp_core_t X) :=
  value ← reg_at dsp (DSP_REG_N0 + numreg);
  let revbits := lowest_bit 16 0 value + 1 in
  r_reg ← reg_at dsp (DSP_REG_R0 + numreg);
  let value := reverse_bits revbits r_reg in
  let value := Z.land (u32 (value + 1)) (BITMASK revbits) in
  let r_reg := Z.lor (Z.land r_reg (BITMASK 16 - BITMASK revbits)) value in
  reg_set dsp (DSP_REG_R0 + numreg) (reverse_bits revbits r_reg).

(** [while (bufsize < modulo) { bufsize <<= 1; bufmask <<= 1; }] *)
Fixpoint buf_loop (fuel : nat) (modulo bufsize bufmask : Z) : res (Z * Z) :=
  if bufsize <? modulo then
    match fuel with
    | O => Fault OutOfFuel
    | S fuel => buf_loop fuel modulo (u16 (Z.shiftl bufsize 1)) (u16 (Z.shiftl bufmask 1))
    end
  else Ok (bufsize, bufmask).

(** [while (modifier > bufsize) { r_reg += bufsize; modifier -= bufsize; }] *)
Fixpoint up_loop (fuel : nat) (bufsize r_reg modifier : Z) : res (Z * Z) :=
  if bufsize <? modifier then
    match fuel with
    | O => Fault OutOfFuel
    | S fuel => up_loop fuel bufsize (s16 (r_reg + bufsize)) (s16 (modifier - bufsize))
    end
  else Ok (r_reg, modifier).

(** [while (modifier < -bufsize) { r_reg -= bufsize; modifier += bufsize; }] *)
Fixpoint down_loop (fuel : nat) (bufsize r_reg modifier : Z) : res (Z * Z) :=
  if modifier <? - bufsize then
    match fuel with
    | O => Fault OutOfFuel
    | S fuel => down_loop fuel bufsize (s16 (r_reg - bufsize)) (s16 (modifier + bufsize))
    end
  else Ok (r_reg, modifier).

Definition emu_update_rn_modulo dsp (numreg modifier : Z) : res (dsp_core_t X) :=
  let orig_modifier := modifier in
  m ← reg_at dsp (DSP_REG_M0 + numreg);
  let modulo := u16 (m + 1) in
  '(bufsize, bufmask) ← buf_loop 16 modulo 1 (BITMASK 16);
  r ← reg_at dsp (DSP_REG_R0 + numreg);
  let lobound := u16 (Z.land r bufmask) in
  let hibound := u16 (lobound + modulo - 1) in
  let r_reg := s16 r in
  '(r_reg, modifier) ←
    (if modulo <? orig_modifier then
       '(r_reg, modifier) ← up_loop (Z.to_nat modifier) bufsize r_reg modifier;
       down_loop (Z.to_nat (- modifier)) bufsize r_reg modifier
     else Ok (r_reg, modifier));
  let r_reg := s16 (r_reg + modifier) in
  let r_reg := if negb (orig_modifier =? modulo) then
                 if hibound <? r_reg then s16 (r_reg - modulo)
                 else if r_reg <? lobound then s16 (r_reg + modulo) else r_reg
               else r_reg in
  reg_set dsp (DSP_REG_R0 + numreg) (Z.land (u32 r_reg) (BITMASK 16)).

Definition emu_update_rn dsp (numreg modifier : Z) : res (dsp_core_t X) :=
  let modifier := s16 modifier in
  m ← reg_at dsp (DSP_REG_M0 + numreg);
  let m_reg := u16 m in
  if m_reg =? 65535 then
    r ← reg_at dsp (DSP_REG_R0 + numreg);
    let value := s16 (s16 r + modifier) in
    reg_set dsp (DSP_REG_R0 + numreg) (Z.land (u32 value) (BITMASK 16))
  else if m_reg =? 0 then emu_update_rn_bitreverse dsp numreg
  else if m_reg <=? 32767 then emu_update_rn_modulo dsp numreg modifier
  else Ok dsp.

(** The core, [*dst_addr], and whether it is an immediate value. *)
Definition emu_calc_ea dsp (ea_mode : Z) : res (dsp_core_t X * Z * bool) :=
  let value := field ea_mode 3 3 in
  let numreg := Z.land ea_mode (BITMASK 3) in
  let post modifier :=
    r ← reg_at dsp (DSP_REG_R0 + numreg);
    n ← modifier;
    dsp ← emu_update_rn dsp numreg n;
    Ok (dsp, r, false) in
  switch value
    [(0, post (n ← reg_at dsp (DSP_REG_N0 + numreg); Ok (- n)));
     (1, post (reg_at dsp (DSP_REG_N0 + numreg)));
     (2, post (Ok (-1)));
     (3, post (Ok 1));
     (4, r ← reg_at dsp (DSP_REG_R0 + numreg); Ok (dsp, r, false));
     (5, let dsp := cycles dsp 2 in
         curreg ← reg_at dsp (DSP_REG_R0 + numreg);
         n ← reg_at dsp (DSP_REG_N0 + numreg);
         dsp ← emu_update_rn dsp numreg n;
         r ← reg_at dsp (DSP_REG_R0 + numreg);
         dsp ← reg_set dsp (DSP_REG_R0 + numreg) curreg;
         Ok (dsp, r, false));
     (6, let dsp := cycles dsp 2 in
         r ← read_memory_p dsp (pc dsp + 1);
         Ok (longer dsp, r, negb (numreg =? 0)))]
    (* 7 *)
    (let dsp := cycles dsp 2 in
     dsp ← emu_update_rn dsp numreg (-1);
     r ← reg_at dsp (DSP_REG_R0 + numreg);
     Ok (dsp, r, false)).

(** ** Conditions *)

Definition emu_calc_cc dsp (cc_code : Z) : bool :=
  let sr := getr dsp DSP_REG_SR in
  let c := bit_of sr DSP_SR_C in
  let v := bit_of sr DSP_SR_V in
  let z := bit_of sr DSP_SR_Z in
  let n := bit_of sr DSP_SR_N in
  let e := bit_of sr DSP_SR_E in
  let l := bit_of sr DSP_SR_L in
  let not_u := Z.land (Z.lnot (Z.shiftr sr DSP_SR_U)) 1 in
  let not_e := Z.land (Z.lnot (Z.shiftr sr DSP_SR_E)) 1 in
  switch cc_code
    [(0, c =? 0); (1, Z.lxor n v =? 0); (2, z =? 0); (3, n =? 0);
     (4, Z.lor z (Z.land not_u not_e) =? 0); (5, e =? 0); (6, l =? 0);
     (7, Z.lor z (Z.lxor n v) =? 0); (8, c =? 1); (9, Z.lxor n v =? 1); (10, z =? 1);
     (11, n =? 1); (12, Z.lor z (Z.land not_u not_e) =? 1); (13, e =? 1); (14, l =? 1);
     (15, Z.lor z (Z.lxor n v) =? 1)] false.

(** ** Status bits *)

(** [registers[DSP_REG_SR] &= BITMASK(16) - bits] and [registers[DSP_REG_SR] |= bits] *)
Definition sr_clear dsp (bits : Z) : dsp_core_t X :=
  setr dsp DSP_REG_SR (Z.land (getr dsp DSP_REG_SR) (BITMASK 16 - bits)).
Definition sr_or dsp (bits : Z) : dsp_core_t X :=
  setr dsp DSP_REG_SR (Z.lor (getr dsp DSP_REG_SR) bits).
Definition sr_or_if dsp (b : bool) (n : Z) : dsp_core_t X :=
  if b then sr_or dsp (bit n) else dsp.

(** E and U by the scaling mode; [None] for the reserved mode. *)
Definition ccr_e_u (scaling reg0 reg1 : Z) : option (bool * bool) :=
  switch scaling
    [(0, let value_e := u32 (u32 (Z.shiftl reg0 1) + Z.shiftr reg1 23) in
         Some (negb (value_e =? 0) && negb (value_e =? BITMASK 9),
               (Z.land reg1 0xc00000 =? 0) || (Z.land reg1 0xc00000 =? 0xc00000)));
     (1, let value_u := Z.land (u32 (Z.shiftl reg0 1) + Z.shiftr reg1 23) 3 in
         Some (negb (reg0 =? 0) && negb (reg0 =? BITMASK 8), (value_u =? 0) || (value_u =? 3)));
     (2, let value_e := u32 (u32 (Z.shiftl reg0 2) + Z.shiftr reg1 22) in
         Some (negb (value_e =? 0) && negb (value_e =? BITMASK 10),
               (Z.land reg1 0x600000 =? 0) || (Z.land reg1 0x600000 =? 0x600000)))] None.

Definition emu_ccr_update_e_u_n_z dsp (r : w56) : dsp_core_t X :=
  let '(reg0, reg1, reg2) := r in
  let dsp := sr_clear dsp (bit DSP_SR_E + bit DSP_SR_U + bit DSP_SR_N + bit DSP_SR_Z) in
  match ccr_e_u (field (getr dsp DSP_REG_SR) DSP_SR_S0 2) reg0 reg1 with
  | None => dsp
  | Some (e, u) =>
      let dsp := sr_or_if dsp e DSP_SR_E in
      let dsp := sr_or_if dsp u DSP_SR_U in
      let dsp := sr_or_if dsp ((reg1 =? 0) && (reg2 =? 0) && (reg0 =? 0)) DSP_SR_Z in
      sr_or dsp (Z.land (Z.shiftr reg0 4) 0x8)
  end.

(** ** Accumulators and operands *)

Inductive accu := AccA | AccB.

Definition other (D : accu) : accu := match D with AccA => AccB | AccB => AccA end.
Definition accu0 (D : accu) : Z := match D with AccA => DSP_REG_A0 | AccB => DSP_REG_B0 end.
Definition accu1 (D : accu) : Z := match D with AccA => DSP_REG_A1 | AccB => DSP_REG_B1 end.
Definition accu2 (D : accu) : Z := match D with AccA => DSP_REG_A2 | AccB => DSP_REG_B2 end.

Definition load56 dsp (D : accu) : w56 :=
  (getr dsp (accu2 D), getr dsp (accu1 D), getr dsp (accu0 D)).
Definition store56 dsp (D : accu) (w : w56) : dsp_core_t X :=
  let '(d0, d1, d2) := w in
  setr (setr (setr dsp (accu2 D) d0) (accu1 D) d1) (accu0 D) d2.

(** The other accumulator, a pair of registers (X or Y), one register. *)
Inductive operand := Accu (D : accu) | Pair (hi lo : Z) | Reg (n : Z).

Definition source56 dsp (S : operand) : w56 :=
  match S with
  | Accu D => load56 dsp D
  | Pair hi lo => (sign_ext (getr dsp hi), getr dsp hi, getr dsp lo)
  | Reg n => (sign_ext (getr dsp n), getr dsp n, 0)
  end.

Definition op_x : operand := Pair DSP_REG_X1 DSP_REG_X0.
Definition op_y : operand := Pair DSP_REG_Y1 DSP_REG_Y0.

(** The end of most operations: the result's E, U, N, Z, then V and C replaced. *)
Definition set_flags dsp (dest : w56) (newsr : Z) : dsp_core_t X :=
  let dsp := emu_ccr_update_e_u_n_z dsp dest in
  sr_or (sr_clear dsp (bit DSP_SR_V + bit DSP_SR_C)) newsr.

(** ** Operations *)

Definition emu_abs (D : accu) dsp : res (dsp_core_t X) :=
  let dest := load56 dsp D in
  let '(d0, d1, d2) := dest in
  let overflowed := Z.b2z ((d2 =? 0) && (d1 =? 0) && (d0 =? 0x80)) in
  let dest := (dsp_abs56 dest).2 in
  let dsp := store56 dsp D dest in
  let dsp := sr_or (sr_clear dsp (bit DSP_SR_V)) (newsr_lvc overflowed overflowed 0) in
  Ok (emu_ccr_update_e_u_n_z dsp dest).

(** [op] is [dsp_add56] or [dsp_sub56]; the carry of the status register goes in by a second
    operation. *)
Definition emu_with_carry (op : w56 -> w56 -> Z * w56) (S : operand) (D : accu) dsp
  : res (dsp_core_t X) :=
  let curcarry := bit_of (getr dsp DSP_REG_SR) DSP_SR_C in
  let '(newsr, dest) := op (source56 dsp S) (load56 dsp D) in
  let '(newsr, dest) := if negb (curcarry =? 0) then
                          let '(newsr', dest) := op (0, 0, 1) dest in (Z.lor newsr newsr', dest)
                        else (newsr, dest) in
  Ok (set_flags (store56 dsp D dest) dest newsr).

Definition emu_adc := emu_with_carry dsp_add56.
Definition emu_sbc := emu_with_carry dsp_sub56.

Definition emu_binary (op : w56 -> w56 -> Z * w56) (S : operand) (D : accu) dsp
  : res (dsp_core_t X) :=
  let '(newsr, dest) := op (source56 dsp S) (load56 dsp D) in
  Ok (set_flags (store56 dsp D dest) dest newsr).

Definition emu_add := emu_binary dsp_add56.
Definition emu_sub := emu_binary dsp_sub56.

(** The destination is shifted by one first. *)
Definition emu_shifted (shift : w56 -> Z -> res (Z * w56)) (op : w56 -> w56 -> Z * w56) (D : accu) dsp
  : res (dsp_core_t X) :=
  '(newsr, dest) ← shift (load56 dsp D) 1;
  let '(newsr', dest) := op (load56 dsp (other D)) dest in
  Ok (set_flags (store56 dsp D dest) dest (Z.lor newsr newsr')).

Definition emu_addl := emu_shifted dsp_asl56 dsp_add56.
Definition emu_addr := emu_shifted dsp_asr56 dsp_add56.
Definition emu_subl := emu_shifted dsp_asl56 dsp_sub56.
Definition emu_subr := emu_shifted dsp_asr56 dsp_sub56.

(** N and Z of the 24-bit register [n1]. *)
Definition nz_flags dsp (n1 : Z) : dsp_core_t X :=
  let dsp := sr_or dsp (Z.shiftl (bit_of (getr dsp n1) 23) DSP_SR_N) in
  sr_or_if dsp (getr dsp n1 =? 0) DSP_SR_Z.
Definition logic_flags dsp (n1 : Z) : dsp_core_t X :=
  nz_flags (sr_clear dsp (bit DSP_SR_N + bit DSP_SR_Z + bit DSP_SR_V)) n1.

Definition emu_and (n : Z) (D : accu) dsp : res (dsp_core_t X) :=
  let dsp := setr dsp (accu1 D) (Z.land (getr dsp (accu1 D)) (getr dsp n)) in
  Ok (logic_flags dsp (accu1 D)).
Definition emu_or (n : Z) (D : accu) dsp : res (dsp_core_t X) :=
  let dsp := setr dsp (accu1 D) (Z.land (Z.lor (getr dsp (accu1 D)) (getr dsp n)) (BITMASK 24)) in
  Ok (logic_flags dsp (accu1 D)).
Definition emu_eor (n : Z) (D : accu) dsp : res (dsp_core_t X) :=
  let dsp := setr dsp (accu1 D) (Z.land (Z.lxor (getr dsp (accu1 D)) (getr dsp n)) (BITMASK 24)) in
  Ok (logic_flags dsp (accu1 D)).
Definition emu_not (D : accu) dsp : res (dsp_core_t X) :=
  let dsp := setr dsp (accu1 D) (Z.land (u32 (Z.lnot (getr dsp (accu1 D)))) (BITMASK 24)) in
  Ok (logic_flags dsp (accu1 D)).

Definition emu_shift (shift : w56 -> Z -> res (Z * w56)) (D : accu) dsp : res (dsp_core_t X) :=
  '(newsr, dest) ← shift (load56 dsp D) 1;
  let dsp := store56 dsp D dest in
  let dsp := sr_or (sr_clear dsp (bit DSP_SR_C + bit DSP_SR_V)) newsr in
  Ok (emu_ccr_update_e_u_n_z dsp dest).

Definition emu_asl := emu_shift dsp_asl56.
Definition emu_asr := emu_shift dsp_asr56.

Definition emu_clr (D : accu) dsp : res (dsp_core_t X) :=
  let dsp := store56 dsp D (0, 0, 0) in
  let dsp := sr_clear dsp (bit DSP_SR_E + bit DSP_SR_N + bit DSP_SR_V) in
  Ok (sr_or dsp (bit DSP_SR_U + bit DSP_SR_Z)).

Definition emu_cmp (S : operand) (D : accu) dsp : res (dsp_core_t X) :=
  let '(newsr, dest) := dsp_sub56 (source56 dsp S) (load56 dsp D) in
  Ok (set_flags dsp dest newsr).

Definition emu_cmpm (S : operand) (D : accu) dsp : res (dsp_core_t X) :=
  let '(newsr, dest) := dsp_sub56 (dsp_abs56 (source56 dsp S)).2 (dsp_abs56 (load56 dsp D)).2 in
  Ok (set_flags dsp dest newsr).

Definition emu_lsl (D : accu) dsp : res (dsp_core_t X) :=
  let newcarry := bit_of (getr dsp (accu1 D)) 23 in
  let dsp := setr dsp (accu1 D) (Z.land (u32 (Z.shiftl (getr dsp (accu1 D)) 1)) (BITMASK 24)) in
  let dsp := sr_clear dsp (bit DSP_SR_C + bit DSP_SR_N + bit DSP_SR_Z + bit DSP_SR_V) in
  Ok (nz_flags (sr_or dsp newcarry) (accu1 D)).

Definition emu_lsr (D : accu) dsp : res (dsp_core_t X) :=
  let newcarry := Z.land (getr dsp (accu1 D)) 1 in
  let dsp := setr dsp (accu1 D) (Z.shiftr (getr dsp (accu1 D)) 1) in
  let dsp := sr_clear dsp (bit DSP_SR_C + bit DSP_SR_N + bit DSP_SR_Z + bit DSP_SR_V) in
  let dsp := sr_or dsp newcarry in
  Ok (sr_or_if dsp (getr dsp (accu1 D) =? 0) DSP_SR_Z).

(** Multiply and add to the accumulator. *)
Definition emu_mac (s1 s2 signe : Z) (D : accu) dsp : res (dsp_core_t X) :=
  source ← dsp_mul56 (getr dsp s1) (getr dsp s2) signe;
  let '(newsr, dest) := dsp_add56 source (load56 dsp D) in
  let dsp := emu_ccr_update_e_u_n_z (store56 dsp D dest) dest in
  Ok (sr_or (sr_clear dsp (bit DSP_SR_V)) (Z.land newsr 0xfe)).

(** The same, rounded. *)
Definition emu_macr (s1 s2 signe : Z) (D : accu) dsp : res (dsp_core_t X) :=
  source ← dsp_mul56 (getr dsp s1) (getr dsp s2) signe;
  let '(newsr, dest) := dsp_add56 source (load56 dsp D) in
  let dest := dsp_rnd56 (getr dsp DSP_REG_SR) dest in
  let dsp := emu_ccr_update_e_u_n_z (store56 dsp D dest) dest in
  Ok (sr_or (sr_clear dsp (bit DSP_SR_V)) (Z.land newsr 0xfe)).

(** This one function rounds [dest] before it is set, so that the result is not rounded. *)
Definition emu_macr_p_x1_y0_b dsp : res (dsp_core_t X) :=
  source ← dsp_mul56 (getr dsp DSP_REG_X1) (getr dsp DSP_REG_Y0) SIGN_PLUS;
  let '(newsr, dest) := dsp_add56 source (load56 dsp AccB) in
  let dsp := emu_ccr_update_e_u_n_z (store56 dsp AccB dest) dest in
  Ok (sr_or (sr_clear dsp (bit DSP_SR_V)) (Z.land newsr 0xfe)).

Definition emu_move dsp : res (dsp_core_t X) := Ok dsp.
Definition emu_nop dsp : res (dsp_core_t X) := Ok dsp.

Definition emu_mpy (s1 s2 signe : Z) (D : accu) dsp : res (dsp_core_t X) :=
  source ← dsp_mul56 (getr dsp s1) (getr dsp s2) signe;
  let dsp := emu_ccr_update_e_u_n_z (store56 dsp D source) source in
  Ok (sr_clear dsp (bit DSP_SR_V)).

Definition emu_mpyr (s1 s2 signe : Z) (D : accu) dsp : res (dsp_core_t X) :=
  source ← dsp_mul56 (getr dsp s1) (getr dsp s2) signe;
  let source := dsp_rnd56 (getr dsp DSP_REG_SR) source in
  let dsp := emu_ccr_update_e_u_n_z (store56 dsp D source) source in
  Ok (sr_clear dsp (bit DSP_SR_V)).

Definition emu_neg (D : accu) dsp : res (dsp_core_t X) :=
  let source := load56 dsp D in
  let '(s0, s1, s2) := source in
  let overflowed := Z.b2z ((s2 =? 0) && (s1 =? 0) && (s0 =? 0x80)) in
  let dest := (dsp_sub56 source (0, 0, 0)).2 in
  let dsp := store56 dsp D dest in
  let dsp := sr_or (sr_clear dsp (bit DSP_SR_V)) (newsr_lvc overflowed overflowed 0) in
  Ok (emu_ccr_update_e_u_n_z dsp dest).

Definition emu_rnd (D : accu) dsp : res (dsp_core_t X) :=
  let dest := dsp_rnd56 (getr dsp DSP_REG_SR) (load56 dsp D) in
  Ok (emu_ccr_update_e_u_n_z (store56 dsp D dest) dest).

Definition emu_rol (D : accu) dsp : res (dsp_core_t X) :=
  let newcarry := bit_of (getr dsp (accu1 D)) 23 in
  let dsp := setr dsp (accu1 D)
    (Z.land (Z.lor (u32 (Z.shiftl (getr dsp (accu1 D)) 1)) newcarry) (BITMASK 24)) in
  let dsp := sr_clear dsp (bit DSP_SR_C + bit DSP_SR_N + bit DSP_SR_Z + bit DSP_SR_V) in
  Ok (nz_flags (sr_or dsp newcarry) (accu1 D)).

Definition emu_ror (D : accu) dsp : res (dsp_core_t X) :=
  let newcarry := Z.land (getr dsp (accu1 D)) 1 in
  let dsp := setr dsp (accu1 D) (Z.lor (Z.shiftr (getr dsp (accu1 D)) 1) (Z.shiftl newcarry 23)) in
  let dsp := sr_clear dsp (bit DSP_SR_C + bit DSP_SR_N + bit DSP_SR_Z + bit DSP_SR_V) in
  let dsp := sr_or (sr_or dsp newcarry) (Z.shiftl newcarry DSP_SR_N) in
  Ok (sr_or_if dsp (getr dsp (accu1 D) =? 0) DSP_SR_Z).

Definition emu_tfr_accu (D : accu) dsp : res (dsp_core_t X) :=
  Ok (store56 dsp D (load56 dsp (other D))).
Definition emu_tfr (n : Z) (D : accu) dsp : res (dsp_core_t X) :=
  Ok (store56 dsp D (sign_ext (getr dsp n), getr dsp n, 0)).

Definition emu_tst (D : accu) dsp : res (dsp_core_t X) :=
  Ok (sr_clear (emu_ccr_update_e_u_n_z dsp (load56 dsp D)) (bit DSP_SR_V)).

(** The words of A are copied in the opposite order. *)
Definition emu_max dsp : res (dsp_core_t X) :=
  let '(d0, d1, d2) := (dsp_sub56 (load56 dsp AccB) (load56 dsp AccA)).2 in
  let pass := tst d0 (bit 7) || ((d0 =? 0) && (d1 =? 0) && (d2 =? 0)) in
  let dsp := if pass then
               let dsp := setr dsp DSP_REG_B0 (getr dsp DSP_REG_A2) in
               let dsp := setr dsp DSP_REG_B1 (getr dsp DSP_REG_A1) in
               setr dsp DSP_REG_B2 (getr dsp DSP_REG_A0)
             else dsp in
  Ok (sr_or_if (sr_clear dsp (bit DSP_SR_C)) pass DSP_SR_C).

(** ** The table *)

Definition opcodes_alu : list (dsp_core_t X -> res (dsp_core_t X)) :=
  [emu_move; emu_tfr_accu AccA; emu_addr AccA; emu_tst AccA; emu_undefined;
   emu_cmp (Accu AccB) AccA; emu_subr AccA; emu_cmpm (Accu AccB) AccA; emu_undefined;
   emu_tfr_accu AccB; emu_addr AccB; emu_tst AccB; emu_undefined; emu_cmp (Accu AccA) AccB;
   emu_subr AccB; emu_cmpm (Accu AccA) AccB; emu_add (Accu AccB) AccA; emu_rnd AccA; emu_addl AccA;
   emu_clr AccA; emu_sub (Accu AccB) AccA; emu_undefined; emu_subl AccA; emu_not AccA;
   emu_add (Accu AccA) AccB; emu_rnd AccB; emu_addl AccB; emu_clr AccB; emu_sub (Accu AccA) AccB;
   emu_max; emu_subl AccB; emu_not AccB; emu_add op_x AccA; emu_adc op_x AccA; emu_asr AccA;
   emu_lsr AccA; emu_sub op_x AccA; emu_sbc op_x AccA; emu_abs AccA; emu_ror AccA;
   emu_add op_x AccB; emu_adc op_x AccB; emu_asr AccB; emu_lsr AccB; emu_sub op_x AccB;
   emu_sbc op_x AccB; emu_abs AccB; emu_ror AccB; emu_add op_y AccA; emu_adc op_y AccA;
   emu_asl AccA; emu_lsl AccA; emu_sub op_y AccA; emu_sbc op_y AccA; emu_neg AccA; emu_rol AccA;
   emu_add op_y AccB; emu_adc op_y AccB; emu_asl AccB; emu_lsl AccB; emu_sub op_y AccB;
   emu_sbc op_y AccB; emu_neg AccB; emu_rol AccB; emu_add (Reg DSP_REG_X0) AccA;
   emu_tfr DSP_REG_X0 AccA; emu_or DSP_REG_X0 AccA; emu_eor DSP_REG_X0 AccA;
   emu_sub (Reg DSP_REG_X0) AccA; emu_cmp (Reg DSP_REG_X0) AccA; emu_and DSP_REG_X0 AccA;
   emu_cmpm (Reg DSP_REG_X0) AccA; emu_add (Reg DSP_REG_X0) AccB; emu_tfr DSP_REG_X0 AccB;
   emu_or DSP_REG_X0 AccB; emu_eor DSP_REG_X0 AccB; emu_sub (Reg DSP_REG_X0) AccB;
   emu_cmp (Reg DSP_REG_X0) AccB; emu_and DSP_REG_X0 AccB; emu_cmpm (Reg DSP_REG_X0) AccB;
   emu_add (Reg DSP_REG_Y0) AccA; emu_tfr DSP_REG_Y0 AccA; emu_or DSP_REG_Y0 AccA;
   emu_eor DSP_REG_Y0 AccA; emu_sub (Reg DSP_REG_Y0) AccA; emu_cmp (Reg DSP_REG_Y0) AccA;
   emu_and DSP_REG_Y0 AccA; emu_cmpm (Reg DSP_REG_Y0) AccA; emu_add (Reg DSP_REG_Y0) AccB;
   emu_tfr DSP_REG_Y0 AccB; emu_or DSP_REG_Y0 AccB; emu_eor DSP_REG_Y0 AccB;
   emu_sub (Reg DSP_REG_Y0) AccB; emu_cmp (Reg DSP_REG_Y0) AccB; emu_and DSP_REG_Y0 AccB;
   emu_cmpm (Reg DSP_REG_Y0) AccB; emu_add (Reg DSP_REG_X1) AccA; emu_tfr DSP_REG_X1 AccA;
   emu_or DSP_REG_X1 AccA; emu_eor DSP_REG_X1 AccA; emu_sub (Reg DSP_REG_X1) AccA;
   emu_cmp (Reg DSP_REG_X1) AccA; emu_and DSP_REG_X1 AccA; emu_cmpm (Reg DSP_REG_X1) AccA;
   emu_add (Reg DSP_REG_X1) AccB; emu_tfr DSP_REG_X1 AccB; emu_or DSP_REG_X1 AccB;
   emu_eor DSP_REG_X1 AccB; emu_sub (Reg DSP_REG_X1) AccB; emu_cmp (Reg DSP_REG_X1) AccB;
   emu_and DSP_REG_X1 AccB; emu_cmpm (Reg DSP_REG_X1) AccB; emu_add (Reg DSP_REG_Y1) AccA;
   emu_tfr DSP_REG_Y1 AccA; emu_or DSP_REG_Y1 AccA; emu_eor DSP_REG_Y1 AccA;
   emu_sub (Reg DSP_REG_Y1) AccA; emu_cmp (Reg DSP_REG_Y1) AccA; emu_and DSP_REG_Y1 AccA;
   emu_cmpm (Reg DSP_REG_Y1) AccA; emu_add (Reg DSP_REG_Y1) AccB; emu_tfr DSP_REG_Y1 AccB;
   emu_or DSP_REG_Y1 AccB; emu_eor DSP_REG_Y1 AccB; emu_sub (Reg DSP_REG_Y1) AccB;
   emu_cmp (Reg DSP_REG_Y1) AccB; emu_and DSP_REG_Y1 AccB; emu_cmpm (Reg DSP_REG_Y1) AccB;
   emu_mpy DSP_REG_X0 DSP_REG_X0 SIGN_PLUS AccA; emu_mpyr DSP_REG_X0 DSP_REG_X0 SIGN_PLUS AccA;
   emu_mac DSP_REG_X0 DSP_REG_X0 SIGN_PLUS AccA; emu_macr DSP_REG_X0 DSP_REG_X0 SIGN_PLUS AccA;
   emu_mpy DSP_REG_X0 DSP_REG_X0 SIGN_MINUS AccA; emu_mpyr DSP_REG_X0 DSP_REG_X0 SIGN_MINUS AccA;
   emu_mac DSP_REG_X0 DSP_REG_X0 SIGN_MINUS AccA; emu_macr DSP_REG_X0 DSP_REG_X0 SIGN_MINUS AccA;
   emu_mpy DSP_REG_X0 DSP_REG_X0 SIGN_PLUS AccB; emu_mpyr DSP_REG_X0 DSP_REG_X0 SIGN_PLUS AccB;
   emu_mac DSP_REG_X0 DSP_REG_X0 SIGN_PLUS AccB; emu_macr DSP_REG_X0 DSP_REG_X0 SIGN_PLUS AccB;
   emu_mpy DSP_REG_X0 DSP_REG_X0 SIGN_MINUS AccB; emu_mpyr DSP_REG_X0 DSP_REG_X0 SIGN_MINUS AccB;
   emu_mac DSP_REG_X0 DSP_REG_X0 SIGN_MINUS AccB; emu_macr DSP_REG_X0 DSP_REG_X0 SIGN_MINUS AccB;
   emu_mpy DSP_REG_Y0 DSP_REG_Y0 SIGN_PLUS AccA; emu_mpyr DSP_REG_Y0 DSP_REG_Y0 SIGN_PLUS AccA;
   emu_mac DSP_REG_Y0 DSP_REG_Y0 SIGN_PLUS AccA; emu_macr DSP_REG_Y0 DSP_REG_Y0 SIGN_PLUS AccA;
   emu_mpy DSP_REG_Y0 DSP_REG_Y0 SIGN_MINUS AccA; emu_mpyr DSP_REG_Y0 DSP_REG_Y0 SIGN_MINUS AccA;
   emu_mac DSP_REG_Y0 DSP_REG_Y0 SIGN_MINUS AccA; emu_macr DSP_REG_Y0 DSP_REG_Y0 SIGN_MINUS AccA;
   emu_mpy DSP_REG_Y0 DSP_REG_Y0 SIGN_PLUS AccB; emu_mpyr DSP_REG_Y0 DSP_REG_Y0 SIGN_PLUS AccB;
   emu_mac DSP_REG_Y0 DSP_REG_Y0 SIGN_PLUS AccB; emu_macr DSP_REG_Y0 DSP_REG_Y0 SIGN_PLUS AccB;
   emu_mpy DSP_REG_Y0 DSP_REG_Y0 SIGN_MINUS AccB; emu_mpyr DSP_REG_Y0 DSP_REG_Y0 SIGN_MINUS AccB;
   emu_mac DSP_REG_Y0 DSP_REG_Y0 SIGN_MINUS AccB; emu_macr DSP_REG_Y0 DSP_REG_Y0 SIGN_MINUS AccB;
   emu_mpy DSP_REG_X1 DSP_REG_X0 SIGN_PLUS AccA; emu_mpyr DSP_REG_X1 DSP_REG_X0 SIGN_PLUS AccA;
   emu_mac DSP_REG_X1 DSP_REG_X0 SIGN_PLUS AccA; emu_macr DSP_REG_X1 DSP_REG_X0 SIGN_PLUS AccA;
   emu_mpy DSP_REG_X1 DSP_REG_X0 SIGN_MINUS AccA; emu_mpyr DSP_REG_X1 DSP_REG_X0 SIGN_MINUS AccA;
   emu_mac DSP_REG_X1 DSP_REG_X0 SIGN_MINUS AccA; emu_macr DSP_REG_X1 DSP_REG_X0 SIGN_MINUS AccA;
   emu_mpy DSP_REG_X1 DSP_REG_X0 SIGN_PLUS AccB; emu_mpyr DSP_REG_X1 DSP_REG_X0 SIGN_PLUS AccB;
   emu_mac DSP_REG_X1 DSP_REG_X0 SIGN_PLUS AccB; emu_macr DSP_REG_X1 DSP_REG_X0 SIGN_PLUS AccB;
   emu_mpy DSP_REG_X1 DSP_REG_X0 SIGN_MINUS AccB; emu_mpyr DSP_REG_X1 DSP_REG_X0 SIGN_MINUS AccB;
   emu_mac DSP_REG_X1 DSP_REG_X0 SIGN_MINUS AccB; emu_macr DSP_REG_X1 DSP_REG_X0 SIGN_MINUS AccB;
   emu_mpy DSP_REG_Y1 DSP_REG_Y0 SIGN_PLUS AccA; emu_mpyr DSP_REG_Y1 DSP_REG_Y0 SIGN_PLUS AccA;
   emu_mac DSP_REG_Y1 DSP_REG_Y0 SIGN_PLUS AccA; emu_macr DSP_REG_Y1 DSP_REG_Y0 SIGN_PLUS AccA;
   emu_mpy DSP_REG_Y1 DSP_REG_Y0 SIGN_MINUS AccA; emu_mpyr DSP_REG_Y1 DSP_REG_Y0 SIGN_MINUS AccA;
   emu_mac DSP_REG_Y1 DSP_REG_Y0 SIGN_MINUS AccA; emu_macr DSP_REG_Y1 DSP_REG_Y0 SIGN_MINUS AccA;
   emu_mpy DSP_REG_Y1 DSP_REG_Y0 SIGN_PLUS AccB; emu_mpyr DSP_REG_Y1 DSP_REG_Y0 SIGN_PLUS AccB;
   emu_mac DSP_REG_Y1 DSP_REG_Y0 SIGN_PLUS AccB; emu_macr DSP_REG_Y1 DSP_REG_Y0 SIGN_PLUS AccB;
   emu_mpy DSP_REG_Y1 DSP_REG_Y0 SIGN_MINUS AccB; emu_mpyr DSP_REG_Y1 DSP_REG_Y0 SIGN_MINUS AccB;
   emu_mac DSP_REG_Y1 DSP_REG_Y0 SIGN_MINUS AccB; emu_macr DSP_REG_Y1 DSP_REG_Y0 SIGN_MINUS AccB;
   emu_mpy DSP_REG_X0 DSP_REG_Y1 SIGN_PLUS AccA; emu_mpyr DSP_REG_X0 DSP_REG_Y1 SIGN_PLUS AccA;
   emu_mac DSP_REG_X0 DSP_REG_Y1 SIGN_PLUS AccA; emu_macr DSP_REG_X0 DSP_REG_Y1 SIGN_PLUS AccA;
   emu_mpy DSP_REG_X0 DSP_REG_Y1 SIGN_MINUS AccA; emu_mpyr DSP_REG_X0 DSP_REG_Y1 SIGN_MINUS AccA;
   emu_mac DSP_REG_X0 DSP_REG_Y1 SIGN_MINUS AccA; emu_macr DSP_REG_X0 DSP_REG_Y1 SIGN_MINUS AccA;
   emu_mpy DSP_REG_X0 DSP_REG_Y1 SIGN_PLUS AccB; emu_mpyr DSP_REG_X0 DSP_REG_Y1 SIGN_PLUS AccB;
   emu_mac DSP_REG_X0 DSP_REG_Y1 SIGN_PLUS AccB; emu_macr DSP_REG_X0 DSP_REG_Y1 SIGN_PLUS AccB;
   emu_mpy DSP_REG_X0 DSP_REG_Y1 SIGN_MINUS AccB; emu_mpyr DSP_REG_X0 DSP_REG_Y1 SIGN_MINUS AccB;
   emu_mac DSP_REG_X0 DSP_REG_Y1 SIGN_MINUS AccB; emu_macr DSP_REG_X0 DSP_REG_Y1 SIGN_MINUS AccB;
   emu_mpy DSP_REG_Y0 DSP_REG_X0 SIGN_PLUS AccA; emu_mpyr DSP_REG_Y0 DSP_REG_X0 SIGN_PLUS AccA;
   emu_mac DSP_REG_Y0 DSP_REG_X0 SIGN_PLUS AccA; emu_macr DSP_REG_Y0 DSP_REG_X0 SIGN_PLUS AccA;
   emu_mpy DSP_REG_Y0 DSP_REG_X0 SIGN_MINUS AccA; emu_mpyr DSP_REG_Y0 DSP_REG_X0 SIGN_MINUS AccA;
   emu_mac DSP_REG_Y0 DSP_REG_X0 SIGN_MINUS AccA; emu_macr DSP_REG_Y0 DSP_REG_X0 SIGN_MINUS AccA;
   emu_mpy DSP_REG_Y0 DSP_REG_X0 SIGN_PLUS AccB; emu_mpyr DSP_REG_Y0 DSP_REG_X0 SIGN_PLUS AccB;
   emu_mac DSP_REG_Y0 DSP_REG_X0 SIGN_PLUS AccB; emu_macr DSP_REG_Y0 DSP_REG_X0 SIGN_PLUS AccB;
   emu_mpy DSP_REG_Y0 DSP_REG_X0 SIGN_MINUS AccB; emu_mpyr DSP_REG_Y0 DSP_REG_X0 SIGN_MINUS AccB;
   emu_mac DSP_REG_Y0 DSP_REG_X0 SIGN_MINUS AccB; emu_macr DSP_REG_Y0 DSP_REG_X0 SIGN_MINUS AccB;
   emu_mpy DSP_REG_X1 DSP_REG_Y0 SIGN_PLUS AccA; emu_mpyr DSP_REG_X1 DSP_REG_Y0 SIGN_PLUS AccA;
   emu_mac DSP_REG_X1 DSP_REG_Y0 SIGN_PLUS AccA; emu_macr DSP_REG_X1 DSP_REG_Y0 SIGN_PLUS AccA;
   emu_mpy DSP_REG_X1 DSP_REG_Y0 SIGN_MINUS AccA; emu_mpyr DSP_REG_X1 DSP_REG_Y0 SIGN_MINUS AccA;
   emu_mac DSP_REG_X1 DSP_REG_Y0 SIGN_MINUS AccA; emu_macr DSP_REG_X1 DSP_REG_Y0 SIGN_MINUS AccA;
   emu_mpy DSP_REG_X1 DSP_REG_Y0 SIGN_PLUS AccB; emu_mpyr DSP_REG_X1 DSP_REG_Y0 SIGN_PLUS AccB;
   emu_mac DSP_REG_X1 DSP_REG_Y0 SIGN_PLUS AccB; emu_macr_p_x1_y0_b;
   emu_mpy DSP_REG_X1 DSP_REG_Y0 SIGN_MINUS AccB; emu_mpyr DSP_REG_X1 DSP_REG_Y0 SIGN_MINUS AccB;
   emu_mac DSP_REG_X1 DSP_REG_Y0 SIGN_MINUS AccB; emu_macr DSP_REG_X1 DSP_REG_Y0 SIGN_MINUS AccB;
   emu_mpy DSP_REG_Y1 DSP_REG_X1 SIGN_PLUS AccA; emu_mpyr DSP_REG_Y1 DSP_REG_X1 SIGN_PLUS AccA;
   emu_mac DSP_REG_Y1 DSP_REG_X1 SIGN_PLUS AccA; emu_macr DSP_REG_Y1 DSP_REG_X1 SIGN_PLUS AccA;
   emu_mpy DSP_REG_Y1 DSP_REG_X1 SIGN_MINUS AccA; emu_mpyr DSP_REG_Y1 DSP_REG_X1 SIGN_MINUS AccA;
   emu_mac DSP_REG_Y1 DSP_REG_X1 SIGN_MINUS AccA; emu_macr DSP_REG_Y1 DSP_REG_X1 SIGN_MINUS AccA;
   emu_mpy DSP_REG_Y1 DSP_REG_X1 SIGN_PLUS AccB; emu_mpyr DSP_REG_Y1 DSP_REG_X1 SIGN_PLUS AccB;
   emu_mac DSP_REG_Y1 DSP_REG_X1 SIGN_PLUS AccB; emu_macr DSP_REG_Y1 DSP_REG_X1 SIGN_PLUS AccB;
   emu_mpy DSP_REG_Y1 DSP_REG_X1 SIGN_MINUS AccB; emu_mpyr DSP_REG_Y1 DSP_REG_X1 SIGN_MINUS AccB;
   emu_mac DSP_REG_Y1 DSP_REG_X1 SIGN_MINUS AccB; emu_macr DSP_REG_Y1 DSP_REG_X1 SIGN_MINUS AccB].

(** [opcodes_alu[dsp->cur_inst & BITMASK(8)](dsp)] *)
Definition alu dsp : res (dsp_core_t X) :=
  f ← aget opcodes_alu (Z.land (cur_inst dsp) (BITMASK 8));
  f dsp.

End Alu.

End DspAlu.
