(* ===== verification/DspMove.v ===== *)
(** * Parallel moves of the DSP (hw/xbox/mcpx/apu/dsp/dsp_emu.c.inc)

    Instructions from 0x100000 up: an ALU operation with one or two moves beside it.  What is
    moved is read before the operation and written after it. *)

From S2P Require Import Prelude DspCore DspArith DspAlu.
Import DspCore DspArith DspAlu.

Module DspMove.

Section Move.
Context {X : Type} `{Peripherals X}.
Implicit Types dsp : dsp_core_t X.

(** Bit [i] of the current instruction. *)
Definition inst_bit dsp (i : Z) : bool := tst (cur_inst dsp) (bit i).
(** [(dsp->cur_inst >> i) & BITMASK(k)] *)
Definition inst_field dsp (i k : Z) : Z := field (cur_inst dsp) i k.

(** An accumulator as 24 bits, limited: the core, the value and whether it was limited. *)
Definition emu_pm_read_accu24 dsp (numreg : Z) : res (dsp_core_t X * Z * bool) :=
  let scaling := field (getr dsp DSP_REG_SR) DSP_SR_S0 2 in
  let reg := Z.land numreg 1 in
  a2 ← reg_at dsp (DSP_REG_A2 + reg);
  a1 ← reg_at dsp (DSP_REG_A1 + reg);
  a0 ← reg_at dsp (DSP_REG_A0 + reg);
  let value := u32 (u32 (Z.shiftl a2 24) + a1) in
  let value := switch scaling
    [(1, Z.shiftr value 1); (2, Z.lor (u32 (Z.shiftl value 1)) (bit_of a0 23))] value in
  let value := Z.land value (BITMASK 24) in
  if (a2 =? 0) && (value <=? 0x007fffff) then Ok (dsp, value, false)
  else if (a2 =? 0xff) && (0x00800000 <=? value) then Ok (dsp, value, false)
  else if tst a2 (bit 7) then Ok (sr_or dsp (bit DSP_SR_L), 0x00800000, true)
  else Ok (sr_or dsp (bit DSP_SR_L), 0x007fffff, true).

Definition is_accu (numreg : Z) : bool := (numreg =? DSP_REG_A) || (numreg =? DSP_REG_B).

(** A register that is read for a move: accumulators are limited. *)
Definition read_move dsp (numreg : Z) : res (dsp_core_t X * Z) :=
  if is_accu numreg then '(dsp, v, _) ← emu_pm_read_accu24 dsp numreg; Ok (dsp, v)
  else v ← reg_at dsp numreg; Ok (dsp, v).

(** A register that is written by a move: accumulators are extended. *)
Definition write_move dsp (numreg value : Z) : res (dsp_core_t X) :=
  if numreg =? DSP_REG_A then Ok (set_accu_a dsp value)
  else if numreg =? DSP_REG_B then Ok (set_accu_b dsp value)
  else reg_set dsp numreg value.

(** The same with the register's width. *)
Definition write_move_masked dsp (numreg value : Z) : res (dsp_core_t X) :=
  if is_accu numreg then write_move dsp numreg value
  else m ← reg_mask numreg; reg_set dsp numreg (Z.land value m).

Definition emu_pm_0 dsp : res (dsp_core_t X) :=
  let memspace := inst_field dsp 15 1 in
  let numreg := inst_field dsp 16 1 in
  '(dsp, addr, _) ← emu_calc_ea dsp (inst_field dsp 8 6);
  '(dsp, save_accu, _) ← emu_pm_read_accu24 dsp numreg;
  save_xy0 ← reg_at dsp (DSP_REG_X0 + Z.shiftl memspace 1);
  dsp ← alu dsp;
  dsp ← dsp56k_write_memory dsp memspace addr save_accu;
  dsp ← reg_set dsp (DSP_REG_A0 + numreg) 0;
  dsp ← reg_set dsp (DSP_REG_A1 + numreg) save_xy0;
  reg_set dsp (DSP_REG_A2 + numreg) (sign_ext save_xy0).

(** The register that the field [n] names: X0, X1, A, B, or Y0, Y1, A, B. *)
Definition x_reg (n : Z) : Z :=
  switch n [(0, DSP_REG_X0); (1, DSP_REG_X1); (2, DSP_REG_A); (3, DSP_REG_B)] DSP_REG_NULL.
Definition y_reg (n : Z) : Z :=
  switch n [(0, DSP_REG_Y0); (1, DSP_REG_Y1); (2, DSP_REG_A); (3, DSP_REG_B)] DSP_REG_NULL.

(** The closing brace of the last branch comes too early: [registers[numreg1]] is written in
    every case. *)
Definition emu_pm_1 dsp : res (dsp_core_t X) :=
  '(dsp, xy_addr, retour) ← emu_calc_ea dsp (inst_field dsp 8 6);
  let memspace := inst_field dsp 14 1 in
  let numreg1 := if negb (memspace =? 0) then y_reg (inst_field dsp 16 2)
                 else x_reg (inst_field dsp 18 2) in
  '(dsp, save_1) ← (if inst_bit dsp 15 then
                      if retour : bool then Ok (dsp, xy_addr)
                      else v ← dsp56k_read_memory dsp memspace xy_addr; Ok (dsp, v)
                    else read_move dsp numreg1);
  let numreg2 := if negb (memspace =? 0) then DSP_REG_A + inst_field dsp 19 1
                 else DSP_REG_A + inst_field dsp 17 1 in
  '(dsp, save_2, _) ← emu_pm_read_accu24 dsp numreg2;
  dsp ← alu dsp;
  dsp ← (if inst_bit dsp 15 then
           let dsp := if numreg1 =? DSP_REG_A then set_accu_a dsp save_1
                      else if numreg1 =? DSP_REG_B then set_accu_b dsp save_1 else dsp in
           reg_set dsp numreg1 save_1
         else dsp56k_write_memory dsp memspace xy_addr save_1);
  let numreg2 := if negb (memspace =? 0) then DSP_REG_X0 + inst_field dsp 18 1
                 else DSP_REG_Y0 + inst_field dsp 16 1 in
  reg_set dsp numreg2 save_2.

Definition emu_pm_2_2 dsp : res (dsp_core_t X) :=
  let srcreg := inst_field dsp 13 5 in
  let dstreg := inst_field dsp 8 5 in
  '(dsp, save_reg) ← read_move dsp srcreg;
  dsp ← alu dsp;
  write_move_masked dsp dstreg save_reg.

Definition emu_pm_3 dsp : res (dsp_core_t X) :=
  dsp ← alu dsp;
  let dstreg := inst_field dsp 16 5 in
  let srcvalue := inst_field dsp 8 8 in
  let wide := Z.shiftl srcvalue 16 in
  let srcvalue := switch dstreg
    [(DSP_REG_X0, wide); (DSP_REG_X1, wide); (DSP_REG_Y0, wide); (DSP_REG_Y1, wide);
     (DSP_REG_A, wide); (DSP_REG_B, wide)] srcvalue in
  write_move_masked dsp dstreg srcvalue.

Definition emu_pm_2 dsp : res (dsp_core_t X) :=
  if Z.land (cur_inst dsp) 0xffff00 =? 0x200000 then alu dsp
  else if Z.land (cur_inst dsp) 0xffe000 =? 0x204000 then
    '(dsp, _, _) ← emu_calc_ea dsp (inst_field dsp 8 5);
    alu dsp
  else if Z.land (cur_inst dsp) 0xfc0000 =? 0x200000 then emu_pm_2_2 dsp
  else emu_pm_3 dsp.

(** A long move reads two words: A10, B10, X, Y, A, B, AB or BA. *)
Definition read_long dsp (numreg : Z) : res (dsp_core_t X * Z * Z) :=
  let pair hi lo := Ok (dsp, getr dsp hi, getr dsp lo) in
  let limited numreg lo :=
    '(dsp, save_lx, got_limited) ← emu_pm_read_accu24 dsp numreg;
    Ok (dsp, save_lx, if got_limited : bool then (if tst save_lx (bit 23) then 0 else 0xffffff)
                      else getr dsp lo) in
  let both n1 n2 :=
    '(dsp, save_lx, _) ← emu_pm_read_accu24 dsp n1;
    '(dsp, save_ly, _) ← emu_pm_read_accu24 dsp n2;
    Ok (dsp, save_lx, save_ly) in
  switch numreg
    [(0, pair DSP_REG_A1 DSP_REG_A0); (1, pair DSP_REG_B1 DSP_REG_B0);
     (2, pair DSP_REG_X1 DSP_REG_X0); (3, pair DSP_REG_Y1 DSP_REG_Y0);
     (4, limited DSP_REG_A DSP_REG_A0); (5, limited DSP_REG_B DSP_REG_B0);
     (6, both DSP_REG_A DSP_REG_B)]
    (* 7 *) (both DSP_REG_B DSP_REG_A).

Definition write_long dsp (numreg save_lx save_ly : Z) : dsp_core_t X :=
  let pair hi lo := setr (setr dsp hi save_lx) lo save_ly in
  switch numreg
    [(0, pair DSP_REG_A1 DSP_REG_A0); (1, pair DSP_REG_B1 DSP_REG_B0);
     (2, pair DSP_REG_X1 DSP_REG_X0); (3, pair DSP_REG_Y1 DSP_REG_Y0);
     (4, store56 dsp AccA (sign_ext save_lx, save_lx, save_ly));
     (5, store56 dsp AccB (sign_ext save_lx, save_lx, save_ly));
     (6, set_accu_b (set_accu_a dsp save_lx) save_ly)]
    (* 7 *) (set_accu_a (set_accu_b dsp save_lx) save_ly).

Definition emu_pm_4x dsp : res (dsp_core_t X) :=
  let value := inst_field dsp 8 6 in
  '(dsp, l_addr) ← (if inst_bit dsp 14 then '(dsp, a, _) ← emu_calc_ea dsp value; Ok (dsp, a)
                    else Ok (dsp, value));
  let numreg := Z.lor (inst_field dsp 16 2) (Z.land (Z.shiftr (cur_inst dsp) 17) (bit 2)) in
  '(dsp, save_lx, save_ly) ←
    (if inst_bit dsp 15 then
       x ← dsp56k_read_memory dsp DSP_SPACE_X l_addr;
       y ← dsp56k_read_memory dsp DSP_SPACE_Y l_addr;
       Ok (dsp, x, y)
     else read_long dsp numreg);
  dsp ← alu dsp;
  if inst_bit dsp 15 then Ok (write_long dsp numreg save_lx save_ly)
  else
    dsp ← dsp56k_write_memory dsp DSP_SPACE_X l_addr save_lx;
    dsp56k_write_memory dsp DSP_SPACE_Y l_addr save_ly.

Definition emu_pm_5 dsp : res (dsp_core_t X) :=
  let value := inst_field dsp 8 6 in
  '(dsp, xy_addr, retour) ← (if inst_bit dsp 14 then emu_calc_ea dsp value else Ok (dsp, value, false));
  let memspace := inst_field dsp 19 1 in
  let numreg := Z.lor (inst_field dsp 16 3) (Z.land (Z.shiftr (cur_inst dsp) 17) (Z.shiftl (BITMASK 2) 3)) in
  '(dsp, value) ← (if inst_bit dsp 15 then
                     if retour : bool then Ok (dsp, xy_addr)
                     else v ← dsp56k_read_memory dsp memspace xy_addr; Ok (dsp, v)
                   else read_move dsp numreg);
  dsp ← alu dsp;
  if inst_bit dsp 15 then write_move_masked dsp numreg value
  else dsp56k_write_memory dsp memspace xy_addr value.

Definition emu_pm_4 dsp : res (dsp_core_t X) :=
  if Z.land (cur_inst dsp) 0xf40000 =? 0x400000 then emu_pm_4x dsp else emu_pm_5 dsp.

(** The two effective addresses of an XY move. *)
Definition pm_8_ea1 dsp : Z :=
  let ea1 := inst_field dsp 8 5 in
  if Z.shiftr ea1 3 =? 0 then Z.lor ea1 (bit 5) else ea1.
Definition pm_8_ea2 dsp : Z :=
  let ea2 := Z.lor (inst_field dsp 13 2) (Z.land (Z.shiftr (cur_inst dsp) 17) (Z.shiftl (BITMASK 2) 3)) in
  let ea2 := if Z.land (pm_8_ea1 dsp) (bit 2) =? 0 then Z.lor ea2 (bit 2) else ea2 in
  if Z.shiftr ea2 3 =? 0 then Z.lor ea2 (bit 5) else ea2.

(** One of its moves, before and after the operation; [w] is its direction bit. *)
Definition pm_8_read dsp (w space numreg addr : Z) : res (dsp_core_t X * Z) :=
  if inst_bit dsp w then v ← dsp56k_read_memory dsp space addr; Ok (dsp, v)
  else read_move dsp numreg.
Definition pm_8_write dsp (w space numreg addr value : Z) : res (dsp_core_t X) :=
  if inst_bit dsp w then write_move dsp numreg value
  else dsp56k_write_memory dsp space addr value.

Definition emu_pm_8 dsp : res (dsp_core_t X) :=
  let ea1 := pm_8_ea1 dsp in
  let ea2 := pm_8_ea2 dsp in
  '(dsp, x_addr, _) ← emu_calc_ea dsp ea1;
  '(dsp, y_addr, _) ← emu_calc_ea dsp ea2;
  let numreg1 := x_reg (inst_field dsp 18 2) in
  let numreg2 := y_reg (inst_field dsp 16 2) in
  '(dsp, save_reg1) ← pm_8_read dsp 15 DSP_SPACE_X numreg1 x_addr;
  '(dsp, save_reg2) ← pm_8_read dsp 22 DSP_SPACE_Y numreg2 y_addr;
  dsp ← alu dsp;
  dsp ← pm_8_write dsp 15 DSP_SPACE_X numreg1 x_addr save_reg1;
  pm_8_write dsp 22 DSP_SPACE_Y numreg2 y_addr save_reg2.

Definition opcodes_parmove : list (dsp_core_t X -> res (dsp_core_t X)) :=
  [emu_pm_0; emu_pm_1; emu_pm_2; emu_pm_3; emu_pm_4; emu_pm_5; emu_pm_5; emu_pm_5;
   emu_pm_8; emu_pm_8; emu_pm_8; emu_pm_8; emu_pm_8; emu_pm_8; emu_pm_8; emu_pm_8].

End Move.

End DspMove.
