(* ===== verification/DspEmu.v ===== *)
(** * Instructions without parallel moves (hw/xbox/mcpx/apu/dsp/dsp_emu.c.inc)

    Instructions below 0x100000: immediate arithmetic, bit operations, branches and jumps,
    loops, and moves between registers and memories.  Functions that differ only in how they
    address their operand share a definition with the addressing as an argument. *)

From S2P Require Import Prelude DspCore DspArith DspAlu DspMove.
Import DspCore DspArith DspAlu DspMove.

Module DspEmu.

(** How an instruction addresses its operand. *)
Inductive amode := Aa | Ea | Pp.

Section Emu.
Context {X : Type} `{Peripherals X}.
Implicit Types dsp : dsp_core_t X.

(** [1 << numbit] as an unsigned word. *)
Definition bit32 (numbit : Z) : Z := u32 (Z.shiftl 1 numbit).

Definition accu_of (d : bool) : accu := if d then AccB else AccA.

(** The word after the instruction: [read_memory_p(dsp, dsp->pc+1); dsp->cur_inst_len++]. *)
Definition next_word dsp : res (dsp_core_t X * Z) :=
  xxxx ← read_memory_p dsp (pc dsp + 1);
  Ok (longer dsp, xxxx).

(** ** Immediate arithmetic *)

Definition emu_add_x dsp (x : Z) (d : bool) : res (dsp_core_t X) :=
  let '(newsr, dest) := dsp_add56 (sign_ext x, x, 0) (load56 dsp (accu_of d)) in
  Ok (set_flags (store56 dsp (accu_of d) dest) dest newsr).
Definition emu_add_imm dsp : res (dsp_core_t X) :=
  emu_add_x dsp (inst_field dsp 8 6) (inst_bit dsp 3).
Definition emu_add_long dsp : res (dsp_core_t X) :=
  '(dsp, xxxx) ← next_word dsp;
  emu_add_x dsp xxxx (inst_bit dsp 3).

Definition emu_sub_x dsp (x : Z) (d : bool) : res (dsp_core_t X) :=
  let '(newsr, dest) := dsp_sub56 (sign_ext x, x, 0) (load56 dsp (accu_of d)) in
  Ok (set_flags (store56 dsp (accu_of d) dest) dest newsr).
Definition emu_sub_imm dsp : res (dsp_core_t X) :=
  emu_sub_x dsp (inst_field dsp 8 6) (inst_bit dsp 3).
Definition emu_sub_long dsp : res (dsp_core_t X) :=
  '(dsp, xxxx) ← next_word dsp;
  emu_sub_x dsp xxxx (inst_bit dsp 3).

Definition emu_and_x dsp (x : Z) (d : bool) : res (dsp_core_t X) :=
  let dstreg := accu1 (accu_of d) in
  Ok (logic_flags (setr dsp dstreg (Z.land (getr dsp dstreg) x)) dstreg).
Definition emu_and_imm dsp : res (dsp_core_t X) :=
  emu_and_x dsp (inst_field dsp 8 6) (inst_bit dsp 3).
Definition emu_and_long dsp : res (dsp_core_t X) :=
  '(dsp, xxxx) ← next_word dsp;
  emu_and_x dsp xxxx (inst_bit dsp 3).

Definition emu_or_long dsp : res (dsp_core_t X) :=
  '(dsp, xxxx) ← next_word dsp;
  let dstreg := accu1 (accu_of (inst_bit dsp 3)) in
  Ok (logic_flags (setr dsp dstreg (Z.lor (getr dsp dstreg) xxxx)) dstreg).

Definition emu_andi dsp : res (dsp_core_t X) :=
  let value := inst_field dsp 8 8 in
  Ok (switch (Z.land (cur_inst dsp) (BITMASK 2))
    [(0, setr dsp DSP_REG_SR (Z.land (getr dsp DSP_REG_SR) (Z.lor (Z.shiftl value 8) (BITMASK 8))));
     (1, setr dsp DSP_REG_SR (Z.land (getr dsp DSP_REG_SR) (Z.lor (Z.shiftl (BITMASK 8) 8) value)));
     (2, setr dsp DSP_REG_OMR (Z.land (getr dsp DSP_REG_OMR) value))] dsp).

Definition emu_ori dsp : res (dsp_core_t X) :=
  let value := inst_field dsp 8 8 in
  Ok (switch (Z.land (cur_inst dsp) (BITMASK 2))
    [(0, setr dsp DSP_REG_SR (Z.lor (getr dsp DSP_REG_SR) (Z.shiftl value 8)));
     (1, setr dsp DSP_REG_SR (Z.lor (getr dsp DSP_REG_SR) value));
     (2, setr dsp DSP_REG_OMR (Z.lor (getr dsp DSP_REG_OMR) value))] dsp).

Definition emu_shift_imm (shift : w56 -> Z -> res (Z * w56)) dsp : res (dsp_core_t X) :=
  let ii := inst_field dsp 1 6 in
  '(newsr, dest) ← shift (load56 dsp (accu_of (inst_bit dsp 7))) ii;
  let dsp := store56 dsp (accu_of (inst_bit dsp 0)) dest in
  let dsp := sr_or (sr_clear dsp (bit DSP_SR_C + bit DSP_SR_V)) newsr in
  Ok (emu_ccr_update_e_u_n_z dsp dest).
Definition emu_asl_imm := emu_shift_imm dsp_asl56.
Definition emu_asr_imm := emu_shift_imm dsp_asr56.

Definition emu_lsl_imm dsp : res (dsp_core_t X) :=
  let D := accu_of (inst_bit dsp 0) in
  res_foldl (fun dsp _ => emu_lsl D dsp) dsp (zseq (inst_field dsp 1 5)).

(** The immediate is not sign extended. *)
Definition cmp_x dsp (x : Z) (d : bool) : res (dsp_core_t X) :=
  let '(newsr, dest) := dsp_sub56 (0, x, 0) (load56 dsp (accu_of d)) in
  Ok (set_flags dsp dest newsr).
Definition emu_cmp_imm dsp : res (dsp_core_t X) := cmp_x dsp (inst_field dsp 8 6) (inst_bit dsp 3).
Definition emu_cmp_long dsp : res (dsp_core_t X) :=
  '(dsp, xxxx) ← next_word dsp;
  cmp_x dsp xxxx (inst_bit dsp 3).

Definition emu_cmpu dsp : res (dsp_core_t X) :=
  let d := inst_bit dsp 0 in
  let srcreg := switch (inst_field dsp 1 3)
    [(0, if d then DSP_REG_A else DSP_REG_B); (4, DSP_REG_X0); (5, DSP_REG_Y0); (6, DSP_REG_X1);
     (7, DSP_REG_Y1)] DSP_REG_NULL in
  let dest := load56 dsp (accu_of d) in
  '(dsp, value) ← read_move dsp srcreg;
  let '(newsr, (d0, d1, d2)) := dsp_sub56 (sign_ext value, value, 0) dest in
  let dsp := sr_clear dsp (bit DSP_SR_V + bit DSP_SR_C + bit DSP_SR_Z + bit DSP_SR_N) in
  let dsp := sr_or dsp (Z.land newsr (bit DSP_SR_C)) in
  let dsp := sr_or_if dsp ((d0 =? 0) && (d2 =? 0) && (d1 =? 0)) DSP_SR_Z in
  Ok (sr_or dsp (Z.land (Z.shiftr d0 4) 0x8)).

Definition emu_dec dsp : res (dsp_core_t X) :=
  let D := accu_of (inst_bit dsp 0) in
  let '(newsr, dest) := dsp_sub56 (0, 0, 1) (load56 dsp D) in
  Ok (set_flags (store56 dsp D dest) dest newsr).
Definition emu_inc dsp : res (dsp_core_t X) :=
  let D := accu_of (inst_bit dsp 0) in
  let '(newsr, dest) := dsp_add56 (0, 0, 1) (load56 dsp D) in
  Ok (set_flags (store56 dsp D dest) dest newsr).

(** The data register that two bits name. *)
Definition xy_reg (n : Z) : Z :=
  switch n [(0, DSP_REG_X0); (1, DSP_REG_Y0); (2, DSP_REG_X1); (3, DSP_REG_Y1)] DSP_REG_NULL.

(** One step of a division. *)
Definition emu_div dsp : res (dsp_core_t X) :=
  s1 ← reg_at dsp (xy_reg (inst_field dsp 4 2));
  let source := (sign_ext s1, s1, 0) in
  let D := accu_of (inst_bit dsp 3) in
  let dest := load56 dsp D in
  let '(d0, _, _) := dest in
  '(newsr, shifted) ← dsp_asl56 dest 1;
  let op := if negb (Z.lxor (bit_of d0 7) (bit_of s1 23) =? 0) then dsp_add56 else dsp_sub56 in
  let '(d0, d1, d2) := (op source shifted).2 in
  let d2 := Z.lor d2 (bit_of (getr dsp DSP_REG_SR) DSP_SR_C) in
  let dsp := store56 dsp D (d0, d1, d2) in
  let dsp := sr_clear dsp (bit DSP_SR_C + bit DSP_SR_V) in
  let dsp := sr_or dsp (Z.shiftl (1 - bit_of d0 7) DSP_SR_C) in
  let dsp := sr_or dsp (Z.land newsr (bit DSP_SR_L)) in
  Ok (sr_or dsp (Z.land newsr (bit DSP_SR_V))).

Definition emu_mpyi dsp : res (dsp_core_t X) :=
  '(dsp, xxxx) ← next_word dsp;
  s ← reg_at dsp (xy_reg (inst_field dsp 4 2));
  source ← dsp_mul56 xxxx s (if inst_bit dsp 2 then SIGN_MINUS else SIGN_PLUS);
  let dsp := store56 dsp (accu_of (inst_bit dsp 3)) source in
  Ok (sr_clear (emu_ccr_update_e_u_n_z dsp source) (bit DSP_SR_V)).

(** One step of a normalisation: left when E is clear, U set and Z clear, right when E is set. *)
Definition emu_norm dsp : res (dsp_core_t X) :=
  let cursr := getr dsp DSP_REG_SR in
  let cur_e := bit_of cursr DSP_SR_E in
  let cur_euz := (cur_e =? 0) && (bit_of cursr DSP_SR_U =? 1) && (bit_of cursr DSP_SR_Z =? 0) in
  let D := accu_of (inst_bit dsp 3) in
  let dest := load56 dsp D in
  let rreg := DSP_REG_R0 + inst_field dsp 8 3 in
  '(dsp, newsr, dest) ←
    (if cur_euz then
       '(newsr, dest) ← dsp_asl56 dest 1;
       r ← reg_at dsp rreg;
       dsp ← reg_set dsp rreg (Z.land (u32 (r - 1)) (BITMASK 16));
       Ok (dsp, newsr, dest)
     else if negb (cur_e =? 0) then
       '(newsr, dest) ← dsp_asr56 dest 1;
       r ← reg_at dsp rreg;
       dsp ← reg_set dsp rreg (Z.land (u32 (r + 1)) (BITMASK 16));
       Ok (dsp, newsr, dest)
     else Ok (dsp, 0, dest));
  Ok (set_flags (store56 dsp D dest) dest newsr).

(** ** Bit operations *)

(** The address of the operand: the field [aa] itself, an effective address, or a
    peripheral. *)
Definition operand_addr (m : amode) dsp : res (dsp_core_t X * Z) :=
  let value := inst_field dsp 8 6 in
  match m with
  | Aa => Ok (dsp, value)
  | Ea => '(dsp, addr, _) ← emu_calc_ea dsp value; Ok (dsp, addr)
  | Pp => Ok (dsp, 0xffffc0 + value)
  end.

Definition set_carry dsp (newcarry : Z) : dsp_core_t X :=
  sr_or (sr_clear dsp (bit DSP_SR_C)) (Z.shiftl newcarry DSP_SR_C).

(** What a bit operation stores: the bit flipped, cleared, set. *)
Definition change_bit (value numbit : Z) : Z :=
  if negb (bit_of value numbit =? 0) then u32 (value - bit32 numbit) else u32 (value + bit32 numbit).
Definition clear_bit (value numbit : Z) : Z := Z.land value (u32 (0xffffffff - bit32 numbit)).
Definition set_bit (value numbit : Z) : Z := Z.lor value (bit32 numbit).

(** On memory. *)
Definition emu_bit_mem (f : Z -> Z -> Z) (m : amode) dsp : res (dsp_core_t X) :=
  let memspace := inst_field dsp 6 1 in
  let numbit := Z.land (cur_inst dsp) (BITMASK 5) in
  '(dsp, addr) ← operand_addr m dsp;
  value ← dsp56k_read_memory dsp memspace addr;
  let newcarry := bit_of value numbit in
  dsp ← dsp56k_write_memory dsp memspace addr (f value numbit);
  Ok (cycles (set_carry dsp newcarry) 2).

(** On a register. *)
Definition emu_bit_reg (f : Z -> Z -> Z) dsp : res (dsp_core_t X) :=
  let numreg := inst_field dsp 8 6 in
  let numbit := Z.land (cur_inst dsp) (BITMASK 5) in
  '(dsp, value) ← read_move dsp numreg;
  let newcarry := bit_of value numbit in
  dsp ← dsp_write_reg dsp numreg (f value numbit);
  Ok (cycles (set_carry dsp newcarry) 2).

Definition emu_bchg := emu_bit_mem change_bit.
Definition emu_bclr := emu_bit_mem clear_bit.
Definition emu_bset := emu_bit_mem set_bit.
Definition emu_bchg_reg := emu_bit_reg change_bit.
Definition emu_bclr_reg := emu_bit_reg clear_bit.
Definition emu_bset_reg := emu_bit_reg set_bit.

Definition emu_btst (m : amode) dsp : res (dsp_core_t X) :=
  let memspace := inst_field dsp 6 1 in
  let numbit := Z.land (cur_inst dsp) (BITMASK 5) in
  '(dsp, addr) ← operand_addr m dsp;
  value ← dsp56k_read_memory dsp memspace addr;
  Ok (cycles (set_carry dsp (bit_of value numbit)) 2).
Definition emu_btst_reg dsp : res (dsp_core_t X) :=
  let numreg := inst_field dsp 8 6 in
  let numbit := Z.land (cur_inst dsp) (BITMASK 5) in
  '(dsp, value) ← read_move dsp numreg;
  Ok (cycles (set_carry dsp (bit_of value numbit)) 2).

(** ** Branches and jumps *)

(** [dsp->pc += offset; dsp->pc &= BITMASK(24); dsp->cur_inst_len = 0] *)
Definition branch dsp (offset : Z) : dsp_core_t X :=
  dsp <| pc := Z.land (u32 (pc dsp + offset)) (BITMASK 24) |> <| cur_inst_len := 0 |>.
(** [dsp->pc = newpc; dsp->cur_inst_len = 0] *)
Definition jump dsp (newpc : Z) : dsp_core_t X := dsp <| pc := newpc |> <| cur_inst_len := 0 |>.

(** The nine bits of a short displacement. *)
Definition short_disp dsp : res Z :=
  dsp_signextend 9 (Z.land (cur_inst dsp) (BITMASK 5)
                    + Z.shiftr (Z.land (cur_inst dsp) (Z.shiftl (BITMASK 4) 6)) 1).

Definition emu_bcc_long dsp : res (dsp_core_t X) :=
  '(dsp, xxxx) ← next_word dsp;
  Ok (if emu_calc_cc dsp (Z.land (cur_inst dsp) (BITMASK 4)) then branch dsp xxxx else dsp).
Definition emu_bcc_imm dsp : res (dsp_core_t X) :=
  if emu_calc_cc dsp (inst_field dsp 12 4) then
    xxx ← short_disp dsp; Ok (branch dsp xxx)
  else Ok dsp.
Definition emu_bra_long dsp : res (dsp_core_t X) :=
  '(dsp, xxxx) ← next_word dsp; Ok (branch dsp xxxx).
Definition emu_bra_imm dsp : res (dsp_core_t X) :=
  xxx ← short_disp dsp; Ok (branch dsp xxx).

(** The operand of a test of a bit: of a peripheral or of a register. *)
Definition pp_operand dsp : res (dsp_core_t X * Z) :=
  v ← dsp56k_read_memory dsp (inst_field dsp 6 1) (0xffffc0 + inst_field dsp 8 6); Ok (dsp, v).
Definition reg_operand dsp : res (dsp_core_t X * Z) := read_move dsp (inst_field dsp 8 6).

(** [value & (1 << numbit)] *)
Definition bit_is_set dsp (value : Z) : bool :=
  tst value (bit32 (Z.land (cur_inst dsp) (BITMASK 5))).

(** Branch when the bit is [set]. *)
Definition emu_br (set : bool) (operand : dsp_core_t X -> res (dsp_core_t X * Z)) dsp
  : res (dsp_core_t X) :=
  '(dsp, xxxx) ← next_word dsp;
  '(dsp, value) ← operand dsp;
  let dsp := cycles dsp 4 in
  Ok (if Bool.eqb (bit_is_set dsp value) set then branch dsp xxxx else dsp).
Definition emu_brclr_pp := emu_br false pp_operand.
Definition emu_brclr_reg := emu_br false reg_operand.
Definition emu_brset_pp := emu_br true pp_operand.
Definition emu_brset_reg := emu_br true reg_operand.

(** In a long interrupt the return address is already on the stack. *)
Definition push_return dsp : res (dsp_core_t X) :=
  if negb (interrupt_state dsp =? DSP_INTERRUPT_LONG) then
    dsp_stack_push dsp (u32 (pc dsp + cur_inst_len dsp)) (getr dsp DSP_REG_SR) 0
  else Ok (dsp <| interrupt_state := DSP_INTERRUPT_DISABLED |>).

Definition emu_bsr_long dsp : res (dsp_core_t X) :=
  '(dsp, xxxx) ← next_word dsp;
  dsp ← push_return dsp;
  Ok (cycles (branch dsp xxxx) 4).
Definition emu_bsr_imm dsp : res (dsp_core_t X) :=
  dsp ← push_return dsp;
  xxx ← short_disp dsp;
  Ok (cycles (branch dsp xxx) 2).

Definition inst_addr12 dsp : Z := Z.land (cur_inst dsp) (BITMASK 12).

Definition emu_jcc_imm dsp : res (dsp_core_t X) :=
  let dsp := if emu_calc_cc dsp (inst_field dsp 12 4) then jump dsp (inst_addr12 dsp) else dsp in
  Ok (cycles dsp 2).
Definition emu_jcc_ea dsp : res (dsp_core_t X) :=
  '(dsp, newpc, _) ← emu_calc_ea dsp (inst_field dsp 8 6);
  let dsp := if emu_calc_cc dsp (Z.land (cur_inst dsp) (BITMASK 4)) then jump dsp newpc else dsp in
  Ok (cycles dsp 2).
Definition emu_jmp_ea dsp : res (dsp_core_t X) :=
  '(dsp, newpc, _) ← emu_calc_ea dsp (inst_field dsp 8 6);
  Ok (cycles (jump dsp newpc) 2).
Definition emu_jmp_imm dsp : res (dsp_core_t X) := Ok (cycles (jump dsp (inst_addr12 dsp)) 2).

(** Jump to a subroutine at [newpc]. *)
Definition call dsp (newpc : Z) : res (dsp_core_t X) :=
  dsp ← dsp_stack_push dsp (u32 (pc dsp + cur_inst_len dsp)) (getr dsp DSP_REG_SR) 0;
  Ok (jump dsp newpc).

Definition emu_jscc_ea dsp : res (dsp_core_t X) :=
  '(dsp, newpc, _) ← emu_calc_ea dsp (inst_field dsp 8 6);
  dsp ← (if emu_calc_cc dsp (Z.land (cur_inst dsp) (BITMASK 4)) then call dsp newpc else Ok dsp);
  Ok (cycles dsp 2).
Definition emu_jscc_imm dsp : res (dsp_core_t X) :=
  dsp ← (if emu_calc_cc dsp (inst_field dsp 12 4) then call dsp (inst_addr12 dsp) else Ok dsp);
  Ok (cycles dsp 2).
Definition emu_jsr_imm dsp : res (dsp_core_t X) :=
  dsp ← push_return dsp;
  Ok (cycles (jump dsp (inst_addr12 dsp)) 2).
Definition emu_jsr_ea dsp : res (dsp_core_t X) :=
  '(dsp, newpc, _) ← emu_calc_ea dsp (inst_field dsp 8 6);
  dsp ← push_return dsp;
  Ok (cycles (jump dsp newpc) 2).

(** The operand in memory, by its addressing. *)
Definition mem_operand (m : amode) dsp : res (dsp_core_t X * Z) :=
  let memspace := inst_field dsp 6 1 in
  '(dsp, addr) ← operand_addr m dsp;
  v ← dsp56k_read_memory dsp memspace addr;
  Ok (dsp, v).

(** Jump, to a subroutine if [sub], when the bit is [set]. *)
Definition emu_j (sub set : bool) (operand : dsp_core_t X -> res (dsp_core_t X * Z)) dsp
  : res (dsp_core_t X) :=
  '(dsp, value) ← operand dsp;
  newaddr ← read_memory_p dsp (pc dsp + 1);
  let dsp := cycles dsp 4 in
  if Bool.eqb (bit_is_set dsp value) set then
    dsp ← (if sub : bool then dsp_stack_push dsp (u32 (pc dsp + 2)) (getr dsp DSP_REG_SR) 0 else Ok dsp);
    Ok (jump dsp newaddr)
  else Ok (longer dsp).
Definition emu_jclr (m : amode) := emu_j false false (mem_operand m).
Definition emu_jclr_reg := emu_j false false reg_operand.
Definition emu_jset (m : amode) := emu_j false true (mem_operand m).
Definition emu_jset_reg := emu_j false true reg_operand.
Definition emu_jsclr (m : amode) := emu_j true false (mem_operand m).
Definition emu_jsclr_reg := emu_j true false reg_operand.
Definition emu_jsset (m : amode) := emu_j true true (mem_operand m).
Definition emu_jsset_reg := emu_j true true reg_operand.

(** ** Loops *)

(** [((dsp->cur_inst >> 8) & BITMASK(8)) + ((dsp->cur_inst & BITMASK(4)) << 8)] *)
Definition imm12 dsp : Z := inst_field dsp 8 8 + Z.shiftl (Z.land (cur_inst dsp) (BITMASK 4)) 8.

(** LA and LC are saved and LA is set from the next word. *)
Definition do_begin dsp : res (dsp_core_t X) :=
  dsp ← dsp_stack_push dsp (getr dsp DSP_REG_LA) (getr dsp DSP_REG_LC) 0;
  la ← read_memory_p dsp (pc dsp + 1);
  Ok (longer (setr dsp DSP_REG_LA (Z.land la (BITMASK 16)))).

(** The same, relative to the PC. *)
Definition dor_begin dsp : res (dsp_core_t X) :=
  '(dsp, xxxx) ← next_word dsp;
  dsp ← dsp_stack_push dsp (getr dsp DSP_REG_LA) (getr dsp DSP_REG_LC) 0;
  Ok (setr dsp DSP_REG_LA (Z.land (u32 (pc dsp + xxxx)) (BITMASK 16))).

(** The start of the loop and the status go on the stack, and the loop flag is set. *)
Definition do_push dsp : res (dsp_core_t X) :=
  dsp ← dsp_stack_push dsp (u32 (pc dsp + cur_inst_len dsp)) (getr dsp DSP_REG_SR) 0;
  Ok (sr_or dsp (bit DSP_SR_LF)).

(** [registers[DSP_REG_LC]] from a register. *)
Definition lc_from_reg dsp : res (dsp_core_t X) :=
  '(dsp, v) ← read_move dsp (inst_field dsp 8 6);
  Ok (setr dsp DSP_REG_LC (Z.land v (BITMASK 16))).

Definition emu_do_aa dsp : res (dsp_core_t X) :=
  dsp ← do_begin dsp;
  dsp ← do_push dsp;
  v ← dsp56k_read_memory dsp (inst_field dsp 6 1) (inst_field dsp 8 6);
  Ok (cycles (setr dsp DSP_REG_LC (Z.land v (BITMASK 16))) 4).
Definition emu_do_imm dsp : res (dsp_core_t X) :=
  dsp ← do_begin dsp;
  dsp ← do_push dsp;
  Ok (cycles (setr dsp DSP_REG_LC (imm12 dsp)) 4).
Definition emu_do_ea dsp : res (dsp_core_t X) :=
  dsp ← do_begin dsp;
  dsp ← do_push dsp;
  let memspace := inst_field dsp 6 1 in
  '(dsp, addr, _) ← emu_calc_ea dsp (inst_field dsp 8 6);
  v ← dsp56k_read_memory dsp memspace addr;
  Ok (cycles (setr dsp DSP_REG_LC (Z.land v (BITMASK 16))) 4).
Definition emu_do_reg dsp : res (dsp_core_t X) :=
  dsp ← do_begin dsp;
  dsp ← lc_from_reg dsp;
  dsp ← do_push dsp;
  Ok (cycles dsp 4).
Definition emu_dor_imm dsp : res (dsp_core_t X) :=
  dsp ← dor_begin dsp;
  dsp ← do_push dsp;
  Ok (cycles (setr dsp DSP_REG_LC (imm12 dsp)) 4).
Definition emu_dor_reg dsp : res (dsp_core_t X) :=
  dsp ← dor_begin dsp;
  dsp ← do_push dsp;
  dsp ← lc_from_reg dsp;
  Ok (cycles dsp 4).

Definition emu_enddo dsp : res (dsp_core_t X) := end_do dsp.

(** LC is saved and the REP begins with the next instruction. *)
Definition rep_begin dsp : dsp_core_t X :=
  (setr dsp DSP_REG_LCSAVE (getr dsp DSP_REG_LC)) <| pc_on_rep := 1 |> <| loop_rep := 1 |>.

Definition emu_rep_aa dsp : res (dsp_core_t X) :=
  let dsp := rep_begin dsp in
  v ← dsp56k_read_memory dsp (inst_field dsp 6 1) (inst_field dsp 8 6);
  Ok (cycles (setr dsp DSP_REG_LC v) 2).
Definition emu_rep_imm dsp : res (dsp_core_t X) :=
  let dsp := rep_begin dsp in
  Ok (cycles (setr dsp DSP_REG_LC (imm12 dsp)) 2).
Definition emu_rep_ea dsp : res (dsp_core_t X) :=
  let dsp := rep_begin dsp in
  '(dsp, value, _) ← emu_calc_ea dsp (inst_field dsp 8 6);
  v ← dsp56k_read_memory dsp (inst_field dsp 6 1) value;
  Ok (cycles (setr dsp DSP_REG_LC v) 2).
Definition emu_rep_reg dsp : res (dsp_core_t X) :=
  dsp ← lc_from_reg (rep_begin dsp);
  Ok (cycles dsp 2).

(** ** Control *)

Definition emu_illegal dsp : res (dsp_core_t X) :=
  dsp ← dsp56k_add_interrupt dsp DSP_INTER_ILLEGAL;
  _ ← debug_abort dsp;
  Ok dsp.

Definition emu_reset dsp : res (dsp_core_t X) := Ok (cycles dsp 2).
Definition emu_stop dsp : res (dsp_core_t X) := Ok dsp.
Definition emu_wait dsp : res (dsp_core_t X) := Ok dsp.

Definition emu_rti dsp : res (dsp_core_t X) :=
  '(dsp, newpc, newsr) ← dsp_stack_pop dsp;
  Ok (cycles (setr (jump dsp newpc) DSP_REG_SR newsr) 2).
Definition emu_rts dsp : res (dsp_core_t X) :=
  '(dsp, newpc, _) ← dsp_stack_pop dsp;
  Ok (cycles (jump dsp newpc) 2).

(** ** Moves *)

(** A new value for register [n] or for the address register beside it. *)
Definition write_rn dsp (v : Z) : res (dsp_core_t X) :=
  let dstreg := Z.land (cur_inst dsp) (BITMASK 3) in
  dsp ← reg_set dsp ((if inst_bit dsp 3 then DSP_REG_N0 else DSP_REG_R0) + dstreg) v;
  Ok (cycles dsp 2).

Definition emu_lua dsp : res (dsp_core_t X) :=
  let srcreg := DSP_REG_R0 + inst_field dsp 8 3 in
  srcsave ← reg_at dsp srcreg;
  '(dsp, _, _) ← emu_calc_ea dsp (inst_field dsp 8 5);
  srcnew ← reg_at dsp srcreg;
  dsp ← reg_set dsp srcreg srcsave;
  write_rn dsp srcnew.
Definition emu_lua_rel dsp : res (dsp_core_t X) :=
  aa ← dsp_signextend 7 (inst_field dsp 4 4 + Z.shiftl (inst_field dsp 11 3) 4);
  r ← reg_at dsp (DSP_REG_R0 + inst_field dsp 8 3);
  write_rn dsp (Z.land (u32 (r + aa)) (BITMASK 24)).

(** [value &= BITMASK(registers_mask[numreg]); dsp_write_reg(dsp, numreg, value)] *)
Definition write_ctrl dsp (numreg value : Z) : res (dsp_core_t X) :=
  m ← reg_mask numreg;
  dsp_write_reg dsp numreg (Z.land value m).
(** A control register that is read: SSH pops the stack. *)
Definition read_ctrl dsp (numreg : Z) : res (dsp_core_t X * Z) :=
  if numreg =? DSP_REG_SSH then '(dsp, v, _) ← dsp_stack_pop dsp; Ok (dsp, v)
  else v ← reg_at dsp numreg; Ok (dsp, v).
(** The same, with limited accumulators. *)
Definition read_any dsp (numreg : Z) : res (dsp_core_t X * Z) :=
  if numreg =? DSP_REG_SSH then '(dsp, v, _) ← dsp_stack_pop dsp; Ok (dsp, v)
  else read_move dsp numreg.

Definition emu_movec_reg dsp : res (dsp_core_t X) :=
  let numreg2 := inst_field dsp 8 6 in
  let numreg1 := Z.land (cur_inst dsp) (BITMASK 6) in
  if inst_bit dsp 15 then
    '(dsp, value) ← read_move dsp numreg2;
    write_ctrl dsp numreg1 value
  else
    '(dsp, value) ← read_ctrl dsp numreg1;
    if is_accu numreg2 then write_move dsp numreg2 (Z.land value (BITMASK 24))
    else m ← reg_mask numreg2; reg_set dsp numreg2 (Z.land value m).
Definition emu_movec_aa dsp : res (dsp_core_t X) :=
  let numreg := Z.land (cur_inst dsp) (BITMASK 6) in
  let addr := inst_field dsp 8 6 in
  let memspace := inst_field dsp 6 1 in
  if inst_bit dsp 15 then
    value ← dsp56k_read_memory dsp memspace addr;
    write_ctrl dsp numreg value
  else
    '(dsp, value) ← read_ctrl dsp numreg;
    dsp56k_write_memory dsp memspace addr value.
Definition emu_movec_imm dsp : res (dsp_core_t X) :=
  write_ctrl dsp (Z.land (cur_inst dsp) (BITMASK 6)) (inst_field dsp 8 8).
Definition emu_movec_ea dsp : res (dsp_core_t X) :=
  let numreg := Z.land (cur_inst dsp) (BITMASK 6) in
  let memspace := inst_field dsp 6 1 in
  let write := inst_bit dsp 15 in
  '(dsp, addr, retour) ← emu_calc_ea dsp (inst_field dsp 8 6);
  if write then
    value ← (if retour : bool then Ok addr else dsp56k_read_memory dsp memspace addr);
    write_ctrl dsp numreg value
  else
    '(dsp, value) ← read_ctrl dsp numreg;
    dsp56k_write_memory dsp memspace addr value.

(** Between program memory and a register. *)
Definition movem dsp (addr : Z) : res (dsp_core_t X) :=
  let numreg := Z.land (cur_inst dsp) (BITMASK 6) in
  dsp ← (if inst_bit dsp 15 then
           value ← read_memory_p dsp addr;
           write_ctrl dsp numreg value
         else
           '(dsp, value) ← read_any dsp numreg;
           dsp56k_write_memory dsp DSP_SPACE_P addr value);
  Ok (cycles dsp 4).
Definition emu_movem_aa dsp : res (dsp_core_t X) := movem dsp (inst_field dsp 8 6).
Definition emu_movem_ea dsp : res (dsp_core_t X) :=
  '(dsp, addr, _) ← emu_calc_ea dsp (inst_field dsp 8 6);
  movem dsp addr.

Definition emu_movep_0 dsp : res (dsp_core_t X) :=
  let addr := 0xffffc0 + Z.land (cur_inst dsp) (BITMASK 6) in
  let memspace := inst_field dsp 16 1 in
  let numreg := inst_field dsp 8 6 in
  dsp ← (if inst_bit dsp 15 then
           '(dsp, value) ← read_any dsp numreg;
           dsp56k_write_memory dsp memspace addr value
         else
           value ← dsp56k_read_memory dsp memspace addr;
           write_ctrl dsp numreg value);
  Ok (cycles dsp 2).
Definition emu_movep_1 dsp : res (dsp_core_t X) :=
  let xyaddr := 0xffffc0 + Z.land (cur_inst dsp) (BITMASK 6) in
  '(dsp, paddr, _) ← emu_calc_ea dsp (inst_field dsp 8 6);
  let memspace := inst_field dsp 16 1 in
  dsp ← (if inst_bit dsp 15 then
           value ← read_memory_p dsp paddr;
           dsp56k_write_memory dsp memspace xyaddr value
         else
           value ← dsp56k_read_memory dsp memspace xyaddr;
           dsp56k_write_memory dsp DSP_SPACE_P paddr value);
  Ok (cycles dsp 4).

(** Between an effective address and the peripheral [peraddr]. *)
Definition movep_ea dsp (perspace peraddr easpace : Z) : res (dsp_core_t X) :=
  '(dsp, addr, retour) ← emu_calc_ea dsp (inst_field dsp 8 6);
  dsp ← (if inst_bit dsp 15 then
           value ← (if retour : bool then Ok addr else dsp56k_read_memory dsp easpace addr);
           dsp56k_write_memory dsp perspace peraddr value
         else
           value ← dsp56k_read_memory dsp perspace peraddr;
           dsp56k_write_memory dsp easpace addr value);
  Ok (cycles dsp 2).
Definition emu_movep_23 dsp : res (dsp_core_t X) :=
  movep_ea dsp (inst_field dsp 16 1) (0xffffc0 + Z.land (cur_inst dsp) (BITMASK 6))
    (inst_field dsp 6 1).
Definition emu_movep_x_qq dsp : res (dsp_core_t X) :=
  movep_ea dsp DSP_SPACE_X (0xffff80 + Z.land (cur_inst dsp) (BITMASK 6)) (inst_field dsp 6 1).

(** Between a register and the word at [addr]; [w] is the direction. *)
Definition move_disp dsp (space addr numreg : Z) (w : bool) : res (dsp_core_t X) :=
  if negb w then
    '(dsp, value) ← read_move dsp numreg;
    dsp56k_write_memory dsp space addr value
  else
    value ← dsp56k_read_memory dsp space addr;
    dsp_write_reg dsp numreg value.
Definition emu_move_x_long dsp : res (dsp_core_t X) :=
  '(dsp, xxxx) ← next_word dsp;
  r ← reg_at dsp (DSP_REG_R0 + inst_field dsp 8 3);
  move_disp dsp DSP_SPACE_X (Z.land (u32 (r + xxxx)) (BITMASK 24))
    (Z.land (cur_inst dsp) (BITMASK 6)) (inst_bit dsp 6).
Definition emu_move_xy_imm (space : Z) dsp : res (dsp_core_t X) :=
  xxx ← dsp_signextend 7 (Z.shiftl (inst_field dsp 11 6) 1 + inst_field dsp 6 1);
  r ← reg_at dsp (DSP_REG_R0 + inst_field dsp 8 3);
  move_disp dsp space (Z.land (u32 (r + xxx)) (BITMASK 24))
    (Z.land (cur_inst dsp) (BITMASK 4)) (inst_bit dsp 4).
Definition emu_move_x_imm := emu_move_xy_imm DSP_SPACE_X.
Definition emu_move_y_imm := emu_move_xy_imm DSP_SPACE_Y.

Definition registers_tcc : list (Z * Z) :=
  [(DSP_REG_B, DSP_REG_A); (DSP_REG_A, DSP_REG_B); (DSP_REG_NULL, DSP_REG_NULL);
   (DSP_REG_NULL, DSP_REG_NULL); (DSP_REG_NULL, DSP_REG_NULL); (DSP_REG_NULL, DSP_REG_NULL);
   (DSP_REG_NULL, DSP_REG_NULL); (DSP_REG_NULL, DSP_REG_NULL); (DSP_REG_X0, DSP_REG_A);
   (DSP_REG_X0, DSP_REG_B); (DSP_REG_Y0, DSP_REG_A); (DSP_REG_Y0, DSP_REG_B);
   (DSP_REG_X1, DSP_REG_A); (DSP_REG_X1, DSP_REG_B); (DSP_REG_Y1, DSP_REG_A);
   (DSP_REG_Y1, DSP_REG_B)].

Definition emu_tcc dsp : res (dsp_core_t X) :=
  if emu_calc_cc dsp (inst_field dsp 12 4) then
    '(regsrc1, regdest1) ← aget registers_tcc (inst_field dsp 3 4);
    w ← (if regsrc1 =? DSP_REG_A then Ok (load56 dsp AccA)
         else if regsrc1 =? DSP_REG_B then Ok (load56 dsp AccB)
         else v ← reg_at dsp regsrc1; Ok (sign_ext v, v, 0));
    let dsp := store56 dsp (accu_of (negb (regdest1 =? DSP_REG_A))) w in
    if inst_bit dsp 16 then
      v ← reg_at dsp (DSP_REG_R0 + inst_field dsp 8 3);
      reg_set dsp (DSP_REG_R0 + Z.land (cur_inst dsp) (BITMASK 3)) v
    else Ok dsp
  else Ok dsp.

End Emu.

End DspEmu.
