(* ===== verification/DspCpu.v ===== *)
(** * The instruction cycle of the DSP (hw/xbox/mcpx/apu/dsp/dsp_cpu.c)

    The table of the instructions without parallel moves, the look-up of an instruction in it
    through two caches, and the execution of one instruction. *)

From Stdlib Require Import Ascii.
From S2P Require Import Prelude DspCore DspArith DspAlu DspMove DspEmu.
Import DspCore DspArith DspAlu DspMove DspEmu.

Module DspCpu.

Section Cpu.
Context {X : Type} `{Peripherals X}.
Implicit Types dsp : dsp_core_t X.

Record OpcodeEntry := entry {
  template : string;
  emu_func : option (dsp_core_t X -> res (dsp_core_t X));
  match_func : option (Z -> bool)
}.

Definition match_MMMRRR (op : Z) : bool :=
  let RRR := field op 8 3 in
  let MMM := field op 11 3 in
  if MMM =? 0x6 then (RRR =? 0x0) || (RRR =? 0x4) else true.

(** Without the names and the disassemblers. *)
Definition nonparallel_opcodes : list OpcodeEntry :=
  [entry "0000000101iiiiii1000d000" (Some emu_add_imm) None;
   entry "00000001010000001100d000" (Some emu_add_long) None;
   entry "0000000101iiiiii1000d110" (Some emu_and_imm) None;
   entry "00000001010000001100d110" (Some emu_and_long) None;
   entry "00000000iiiiiiii101110EE" (Some emu_andi) None;
   entry "0000110000011101SiiiiiiD" (Some emu_asl_imm) None;
   entry "0000110000011110010SsssD" None None;
   entry "0000110000011100SiiiiiiD" (Some emu_asr_imm) None;
   entry "0000110000011110011SsssD" None None;
   entry "00001101000100000100CCCC" (Some emu_bcc_long) None;
   entry "00000101CCCC01aaaa0aaaaa" (Some emu_bcc_imm) None;
   entry "0000110100011RRR0100CCCC" None None;
   entry "0000101101MMMRRR0S00bbbb" (Some (emu_bchg Ea)) (Some match_MMMRRR);
   entry "0000101100aaaaaa0S00bbbb" (Some (emu_bchg Aa)) None;
   entry "0000101110pppppp0S00bbbb" (Some (emu_bchg Pp)) None;
   entry "0000000101qqqqqq0S0bbbbb" None None;
   entry "0000101111DDDDDD010bbbbb" (Some emu_bchg_reg) None;
   entry "0000101001MMMRRR0S00bbbb" (Some (emu_bclr Ea)) (Some match_MMMRRR);
   entry "0000101000aaaaaa0S00bbbb" (Some (emu_bclr Aa)) None;
   entry "0000101010pppppp0S00bbbb" (Some (emu_bclr Pp)) None;
   entry "0000000100qqqqqq0S00bbbb" None None;
   entry "0000101011DDDDDD010bbbbb" (Some emu_bclr_reg) None;
   entry "000011010001000011000000" (Some emu_bra_long) None;
   entry "00000101000011aaaa0aaaaa" (Some emu_bra_imm) None;
   entry "0000110100011RRR11000000" None None;
   entry "0000110010MMMRRR0S0bbbbb" None (Some match_MMMRRR);
   entry "0000110010aaaaaa1S0bbbbb" None None;
   entry "0000110011pppppp0S0bbbbb" (Some emu_brclr_pp) None;
   entry "0000010010qqqqqq0S0bbbbb" None None;
   entry "0000110011DDDDDD100bbbbb" (Some emu_brclr_reg) None;
   entry "00000000000000100001CCCC" None None;
   entry "0000110010MMMRRR0S1bbbbb" None (Some match_MMMRRR);
   entry "0000110010aaaaaa1S1bbbbb" None None;
   entry "0000110011pppppp0S1bbbbb" (Some emu_brset_pp) None;
   entry "0000010010qqqqqq0S1bbbbb" None None;
   entry "0000110011DDDDDD101bbbbb" (Some emu_brset_reg) None;
   entry "00001101000100000000CCCC" None None;
   entry "00000101CCCC00aaaa0aaaaa" None None;
   entry "0000110100011RRR0000CCCC" None None;
   entry "0000110110MMMRRR0S0bbbbb" None (Some match_MMMRRR);
   entry "0000110110aaaaaa1S0bbbbb" None None;
   entry "0000010010qqqqqq1S0bbbbb" None None;
   entry "0000110111pppppp0S0bbbbb" None None;
   entry "0000110111DDDDDD100bbbbb" None None;
   entry "0000101001MMMRRR0S1bbbbb" (Some (emu_bset Ea)) (Some match_MMMRRR);
   entry "0000101000aaaaaa0S1bbbbb" (Some (emu_bset Aa)) None;
   entry "0000101010pppppp0S1bbbbb" (Some (emu_bset Pp)) None;
   entry "0000000100qqqqqq0S1bbbbb" None None;
   entry "0000101011DDDDDD011bbbbb" (Some emu_bset_reg) None;
   entry "000011010001000010000000" (Some emu_bsr_long) None;
   entry "00000101000010aaaa0aaaaa" (Some emu_bsr_imm) None;
   entry "0000110100011RRR10000000" None None;
   entry "0000110110MMMRRR0S1bbbbb" None (Some match_MMMRRR);
   entry "0000110110aaaaaa1S1bbbbb" None None;
   entry "0000110111pppppp0S1bbbbb" None None;
   entry "0000010010qqqqqq1S1bbbbb" None None;
   entry "0000110111DDDDDD101bbbbb" None None;
   entry "0000101101MMMRRR0S10bbbb" (Some (emu_btst Ea)) (Some match_MMMRRR);
   entry "0000101100aaaaaa0S10bbbb" (Some (emu_btst Aa)) None;
   entry "0000101110pppppp0S10bbbb" (Some (emu_btst Pp)) None;
   entry "0000000101qqqqqq0S10bbbb" None None;
   entry "0000101111DDDDDD0110bbbb" (Some emu_btst_reg) None;
   entry "0000110000011110000000SD" None None;
   entry "0000000101iiiiii1000d101" (Some emu_cmp_imm) None;
   entry "00000001010000001100d101" (Some emu_cmp_long) None;
   entry "00001100000111111111gggd" (Some emu_cmpu) None;
   entry "000000000000001000000000" None None;
   entry "00000000000000110000CCCC" None None;
   entry "00000000000000000000101d" (Some emu_dec) None;
   entry "000000011000000001JJd000" (Some emu_div) None;
   entry "000000010010010s1sdkQQQQ" None None;
   entry "0000011001MMMRRR0S000000" (Some emu_do_ea) (Some match_MMMRRR);
   entry "0000011000aaaaaa0S000000" (Some emu_do_aa) None;
   entry "00000110iiiiiiii1000hhhh" (Some emu_do_imm) None;
   entry "0000011011DDDDDD00000000" (Some emu_do_reg) None;
   entry "000000000000001000000011" None None;
   entry "0000011001MMMRRR0S010000" None (Some match_MMMRRR);
   entry "0000011000aaaaaa0S010000" None None;
   entry "00000110iiiiiiii1001hhhh" (Some emu_dor_imm) None;
   entry "0000011011DDDDDD00010000" (Some emu_dor_reg) None;
   entry "000000000000001000000010" None None;
   entry "000000000000000010001100" (Some emu_enddo) None;
   entry "0000000101iiiiii1000d011" None None;
   entry "00000001010000001100d011" None None;
   entry "0000110000011010000sSSSD" None None;
   entry "0000110000011000000s000D" None None;
   entry "0000110000011010100sSSSD" None None;
   entry "0000110000011000100s000D" None None;
   entry "000000000000000000000101" (Some emu_illegal) None;
   entry "00000000000000000000100d" (Some emu_inc) None;
   entry "00001100000110110qqqSSSD" None None;
   entry "00001100000110010qqq000D" None None;
   entry "00001110CCCCaaaaaaaaaaaa" (Some emu_jcc_imm) None;
   entry "0000101011MMMRRR1010CCCC" (Some emu_jcc_ea) (Some match_MMMRRR);
   entry "0000101001MMMRRR1S00bbbb" (Some (emu_jclr Ea)) (Some match_MMMRRR);
   entry "0000101000aaaaaa1S00bbbb" (Some (emu_jclr Aa)) None;
   entry "0000101010pppppp1S00bbbb" (Some (emu_jclr Pp)) None;
   entry "0000000110qqqqqq1S00bbbb" None None;
   entry "0000101011DDDDDD0000bbbb" (Some emu_jclr_reg) None;
   entry "0000101011MMMRRR10000000" (Some emu_jmp_ea) (Some match_MMMRRR);
   entry "000011000000aaaaaaaaaaaa" (Some emu_jmp_imm) None;
   entry "00001111CCCCaaaaaaaaaaaa" (Some emu_jscc_imm) None;
   entry "0000101111MMMRRR1010CCCC" (Some emu_jscc_ea) (Some match_MMMRRR);
   entry "0000101101MMMRRR1S00bbbb" (Some (emu_jsclr Ea)) (Some match_MMMRRR);
   entry "0000101100MMMRRR1S00bbbb" (Some (emu_jsclr Aa)) (Some match_MMMRRR);
   entry "0000101110pppppp1S0bbbbb" (Some (emu_jsclr Pp)) None;
   entry "0000000111qqqqqq1S0bbbbb" None None;
   entry "0000101111DDDDDD000bbbbb" (Some emu_jsclr_reg) None;
   entry "0000101001MMMRRR1S10bbbb" (Some (emu_jset Ea)) (Some match_MMMRRR);
   entry "0000101000MMMRRR1S10bbbb" (Some (emu_jset Aa)) (Some match_MMMRRR);
   entry "0000101010pppppp1S10bbbb" (Some (emu_jset Pp)) None;
   entry "0000000110qqqqqq1S10bbbb" None None;
   entry "0000101011DDDDDD0010bbbb" (Some emu_jset_reg) None;
   entry "0000101111MMMRRR10000000" (Some emu_jsr_ea) (Some match_MMMRRR);
   entry "000011010000aaaaaaaaaaaa" (Some emu_jsr_imm) None;
   entry "0000101101MMMRRR1S10bbbb" (Some (emu_jsset Ea)) (Some match_MMMRRR);
   entry "0000101100aaaaaa1S10bbbb" (Some (emu_jsset Aa)) None;
   entry "0000101110pppppp1S1bbbbb" (Some (emu_jsset Pp)) None;
   entry "0000000111qqqqqq1S1bbbbb" None None;
   entry "0000101111DDDDDD001bbbbb" (Some emu_jsset_reg) None;
   entry "0000010011000RRR000ddddd" None None;
   entry "0000010001000000010ddddd" None None;
   entry "000011000001111010iiiiiD" (Some emu_lsl_imm) None;
   entry "00001100000111100001sssD" None None;
   entry "000011000001111011iiiiiD" None None;
   entry "00001100000111100011sssD" None None;
   entry "00000100010MMRRR000ddddd" (Some emu_lua) None;
   entry "0000010000aaaRRRaaaadddd" (Some emu_lua_rel) None;
   entry "00000001000sssss11QQdk10" None None;
   entry "000000010100000111qqdk10" None None;
   entry "00000001001001101sdkQQQQ" None None;
   entry "00000001000sssss11QQdk11" None None;
   entry "000000010100000111qqdk11" None None;
   entry "00001100000110111000sssD" None None;
   entry "0000101001110RRR1WDDDDDD" (Some emu_move_x_long) None;
   entry "0000101101110RRR1WDDDDDD" None None;
   entry "0000001aaaaaaRRR1a0WDDDD" (Some emu_move_x_imm) None;
   entry "0000001aaaaaaRRR1a1WDDDD" (Some emu_move_y_imm) None;
   entry "00000101W1MMMRRR0s1ddddd" (Some emu_movec_ea) (Some match_MMMRRR);
   entry "00000101W0aaaaaa0s1ddddd" (Some emu_movec_aa) (Some match_MMMRRR);
   entry "00000100W1eeeeee101ddddd" (Some emu_movec_reg) None;
   entry "00000101iiiiiiii101ddddd" (Some emu_movec_imm) None;
   entry "00000111W1MMMRRR10dddddd" (Some emu_movem_ea) (Some match_MMMRRR);
   entry "00000111W0aaaaaa00dddddd" (Some emu_movem_aa) (Some match_MMMRRR);
   entry "0000100sW1MMMRRR1Spppppp" (Some emu_movep_23) (Some match_MMMRRR);
   entry "00000111W1MMMRRR0Sqqqqqq" (Some emu_movep_x_qq) (Some match_MMMRRR);
   entry "00000111W0MMMRRR1Sqqqqqq" None (Some match_MMMRRR);
   entry "0000100sW1MMMRRR01pppppp" (Some emu_movep_1) (Some match_MMMRRR);
   entry "000000001WMMMRRR0sqqqqqq" None (Some match_MMMRRR);
   entry "0000100sW1dddddd00pppppp" (Some emu_movep_0) None;
   entry "00000100W1dddddd1q0qqqqq" None None;
   entry "00000100W1dddddd0q1qqqqq" None None;
   entry "00000001000sssss11QQdk00" None None;
   entry "00000001001001111sdkQQQQ" None None;
   entry "000000010100000111qqdk00" (Some emu_mpyi) None;
   entry "00000001000sssss11QQdk01" None None;
   entry "000000010100000111qqdk01" None None;
   entry "000000000000000000000000" (Some emu_nop) None;
   entry "0000000111011RRR0001d101" (Some emu_norm) None;
   entry "00001100000111100010sssD" None None;
   entry "0000000101iiiiii1000d010" None None;
   entry "00000001010000001100d010" (Some emu_or_long) None;
   entry "00000000iiiiiiii111110EE" (Some emu_ori) None;
   entry "000000000000000000000011" None None;
   entry "000000000000000000000001" None None;
   entry "000000000000000000000010" None None;
   entry "0000101111MMMRRR10000001" None (Some match_MMMRRR);
   entry "000000000000000000001111" None None;
   entry "0000101011MMMRRR10000001" None (Some match_MMMRRR);
   entry "000000000000000000001110" None None;
   entry "0000011001MMMRRR0S100000" (Some emu_rep_ea) (Some match_MMMRRR);
   entry "0000011000aaaaaa0S100000" (Some emu_rep_aa) None;
   entry "00000110iiiiiiii1010hhhh" (Some emu_rep_imm) None;
   entry "0000011011dddddd00100000" (Some emu_rep_reg) None;
   entry "000000000000000010000100" (Some emu_reset) None;
   entry "000000000000000000000100" (Some emu_rti) None;
   entry "000000000000000000001100" (Some emu_rts) None;
   entry "000000000000000010000111" (Some emu_stop) None;
   entry "0000000101iiiiii1000d100" (Some emu_sub_imm) None;
   entry "00000001010000001100d100" (Some emu_sub_long) None;
   entry "00000010CCCC00000JJJd000" (Some emu_tcc) None;
   entry "00000011CCCC0ttt0JJJdTTT" (Some emu_tcc) None;
   entry "00000010CCCC1ttt00000TTT" (Some emu_tcc) None;
   entry "000000000000000000000110" None None;
   entry "00000000000000000001CCCC" None None;
   entry "0000101S11MMMRRR110i0000" None (Some match_MMMRRR);
   entry "000000000000000010000110" (Some emu_wait) None].

(** The digits of a template: a mask with the places of the digits, and the digits. *)
Fixpoint template_match (t : string) (mask m : Z) : Z * Z :=
  match t with
  | EmptyString => (mask, m)
  | String c t =>
      let '(mask, m) := (2 * mask, 2 * m) in
      if (c =? "0")%char then template_match t (mask + 1) m
      else if (c =? "1")%char then template_match t (mask + 1) (m + 1)
      else template_match t mask m
  end.

(** [nonparallel_matches], which the first reset fills in. *)
Definition nonparallel_matches : list (Z * Z) :=
  (fun e => template_match (template e) 0 0) <$> nonparallel_opcodes.

(** The first entry from number [i] on that matches. *)
Fixpoint lookup_from (i : nat) (l : list (OpcodeEntry * (Z * Z))) (op : Z) : res nat :=
  match l with
  | [] => Fault AssertFail
  | (e, (mask, m)) :: l =>
      if (Z.land op mask =? m) && match match_func e with Some f => f op | None => true end
      then Ok i else lookup_from (S i) l op
  end.

Definition lookup_opcode_slow (op : Z) : res nat :=
  lookup_from 0 (zip nonparallel_opcodes nonparallel_matches) op.

Definition opcache_tag (op : Z) : Z :=
  Z.lxor (Z.lxor (Z.lxor (Z.land (Z.shiftr op 24) 0xff) (Z.land (Z.shiftr op 16) 0xff))
    (Z.land (Z.shiftr op 8) 0xff)) (Z.land op 0xff).

Definition lookup_opcode dsp (op : Z) : res (dsp_core_t X * nat) :=
  let tag := opcache_tag op in
  let miss :=
    e ← lookup_opcode_slow op;
    Ok (dsp <| opcache := <[tag := (op, e)]> (opcache dsp) |>, e) in
  match opcache dsp !! tag with
  | Some (op', e) => if op' =? op then Ok (dsp, e) else miss
  | None => miss
  end.

(** The entry of the instruction at [pc], cached. *)
Definition current_opcode dsp : res (dsp_core_t X * nat) :=
  match pram_opcache dsp !! u32 (pc dsp) with
  | Some e => Ok (dsp, e)
  | None =>
      '(dsp, e) ← lookup_opcode dsp (cur_inst dsp);
      Ok (dsp <| pram_opcache := <[u32 (pc dsp) := e]> (pram_opcache dsp) |>, e)
  end.

Definition run_opcode dsp (e : nat) : res (dsp_core_t X) :=
  match nonparallel_opcodes !! e with
  | Some e => match emu_func e with Some f => f dsp | None => emu_undefined dsp end
  | None => Fault OutOfBounds
  end.

Definition fetch dsp : res (dsp_core_t X) :=
  inst ← read_memory_p dsp (pc dsp);
  Ok (dsp <| cur_inst := inst |> <| cur_inst_len := 1 |> <| instr_cycle := 2 |>).

Definition execute dsp : res (dsp_core_t X) :=
  if cur_inst dsp <? 0x100000 then
    '(dsp, e) ← current_opcode dsp;
    run_opcode dsp e
  else
    f ← aget opcodes_parmove (inst_field dsp 20 4);
    f dsp.

Definition dsp56k_execute_instruction dsp : res (dsp_core_t X) :=
  dsp ← fetch dsp;
  dsp ← execute dsp;
  dsp ← dsp_postexecute_update_pc dsp;
  dsp ← dsp_postexecute_interrupts dsp;
  Ok (dsp <| num_inst := u32 (num_inst dsp + instr_cycle dsp) |>).

End Cpu.

End DspCpu.
