(* ===== verification/DspDma.v ===== *)
(** * The DSP and its DMA engine (hw/xbox/mcpx/apu/dsp/dsp_dma.c, dsp.c)

    The blocks of the DMA engine, which moves words between the memories of the DSP and guest
    memory, and the device around the core: its peripheral registers, its run loop and its
    bootstrap.  How guest memory is reached is a class, as the two callbacks are in the code. *)

From S2P Require Import Prelude DspCore DspArith DspAlu DspMove DspEmu DspCpu.
Import DspCore DspArith DspAlu DspMove DspEmu DspCpu.

Module DspDma.

Definition DMA_CONTROL_ACTION : Z := 0x7.
Definition DMA_CONTROL_ACTION_START : Z := 1.
Definition DMA_CONTROL_ACTION_STOP : Z := 2.
Definition DMA_CONTROL_ACTION_FREEZE : Z := 3.
Definition DMA_CONTROL_ACTION_UNFREEZE : Z := 4.
Definition DMA_CONTROL_FROZEN : Z := bit 3.
Definition DMA_CONTROL_RUNNING : Z := bit 4.
Definition DMA_CONTROL_STOPPED : Z := bit 5.
Definition NODE_POINTER_VAL : Z := 0x3fff.
Definition NODE_POINTER_EOL : Z := bit 14.
Definition NODE_CONTROL_DIRECTION : Z := bit 1.
Definition INTERRUPT_START_FRAME : Z := bit 1.
Definition INTERRUPT_DMA_EOL : Z := bit 7.

Inductive DSPDMARegister := DMA_CONFIGURATION | DMA_CONTROL | DMA_START_BLOCK | DMA_NEXT_BLOCK.

(** Without [error], which nothing uses. *)
Record DSPDMAState := {
  configuration : Z;
  control : Z;
  start_block : Z;
  next_block : Z;
  eol : bool
}.

#[export] Instance eta_DSPDMAState : Eta DSPDMAState := fun r =>
  {| configuration := configuration r; control := control r; start_block := start_block r;
     next_block := next_block r; eol := eol r |}.

(** What is around the core in a [DSPState]; [opaque] is what [rw_opaque] points to. *)
Record dsp_rest {W : Type} := {
  dma : DSPDMAState;
  save_cycles : Z;
  interrupts : Z;
  opaque : W
}.
Arguments dsp_rest : clear implicits.

#[export] Instance eta_dsp_rest W : Eta (dsp_rest W) := fun r =>
  {| dma := dma r; save_cycles := save_cycles r; interrupts := interrupts r; opaque := opaque r |}.

Abbreviation DSPState W := (dsp_core_t (dsp_rest W)).

(** [dsp_scratch_rw_func] and [dsp_fifo_rw_func]: a buffer, an address or the number of a FIFO, a
    length and a direction. *)
Class ScratchOps (W : Type) := {
  scratch_rw : W -> list Z -> Z -> Z -> bool -> res (W * list Z);
  fifo_rw : W -> list Z -> Z -> Z -> bool -> res (W * list Z)
}.

(** ** Words and bytes *)

(** [*(uint16_t * )p = v >> 8] and [*(uint32_t * )p = v], and back. *)
Definition encode_item (item_size v : Z) : list Z :=
  if item_size =? 2 then [u8 (Z.shiftr v 8); u8 (Z.shiftr v 16)]
  else [u8 v; u8 (Z.shiftr v 8); u8 (Z.shiftr v 16); u8 (Z.shiftr v 24)].
Definition decode_item (item_size item_mask : Z) (l : list Z) : Z :=
  let b i := l !!! i in
  if item_size =? 2 then Z.shiftl (b 0%nat + 256 * b 1%nat) 8
  else Z.land (b 0%nat + 256 * b 1%nat + 65536 * b 2%nat + 16777216 * b 3%nat) item_mask.

Section Dma.
Context {W : Type} `{ScratchOps W} `{Peripherals (dsp_rest W)}.
Implicit Types dsp : DSPState W.

Definition set_opaque dsp (o : W) : DSPState W := dsp <| container; opaque := o |>.
Definition with_dma dsp (f : DSPDMAState -> DSPDMAState) : DSPState W :=
  dsp <| container ::= fun c => c <| dma ::= f |> |>.

(** ** Transfers *)

(** The loop of [scratch_circular_copy], which does not end for an empty ring: the state, the buffer and [*scratch_offset]. *)
Fixpoint circular_copy_loop (fuel : nat) (o : W) (scratch_base scratch_offset scratch_size transfer_size : Z)
    (scratch_buf : list Z) (direction : bool) : res (W * list Z * Z) :=
  if 0 <? transfer_size then
    match fuel with
    | O => Fault Hang
    | S fuel =>
        let bytes_until_wrap := u32 (scratch_size - scratch_offset) in
        let chunk_size := Z.min transfer_size bytes_until_wrap in
        let scratch_addr := u32 (scratch_base + scratch_offset) in
        let n := Z.to_nat chunk_size in
        '(o, done) ← scratch_rw o (take n scratch_buf) scratch_addr chunk_size direction;
        let scratch_offset := u32 (scratch_offset + chunk_size) in
        let scratch_offset := if scratch_size <=? scratch_offset then 0 else scratch_offset in
        '(o, rest, scratch_offset) ← circular_copy_loop fuel o scratch_base scratch_offset scratch_size
                                       (transfer_size - chunk_size) (drop n scratch_buf) direction;
        Ok (o, done ++ rest, scratch_offset)
    end
  else Ok (o, scratch_buf, scratch_offset).

Definition scratch_circular_copy (o : W) (scratch_base scratch_offset scratch_size transfer_size : Z)
    (scratch_buf : list Z) (direction : bool) : res (W * list Z * Z) :=
  let scratch_offset := if scratch_size <=? scratch_offset then 0 else scratch_offset in
  circular_copy_loop (Z.to_nat transfer_size) o scratch_base scratch_offset scratch_size transfer_size
    scratch_buf direction.

(** The memory that an address of the engine is in: [n] more words have to fit. *)
Definition dma_space (addr n : Z) : res (Z * Z) :=
  if addr <? 0x1800 then
    _ ← c_assert (u32 (addr + n) <? 0x1800); Ok (DSP_SPACE_X, addr)
  else if addr <? 0x2000 then
    _ ← c_assert (u32 (addr + n) <? 0x2000); Ok (DSP_SPACE_Y, addr - 0x1800)
  else if (0x2800 <=? addr) && (addr <? 0x3800) then
    _ ← c_assert (u32 (addr + n) <? 0x3800); Ok (DSP_SPACE_P, addr - 0x2800)
  else Fault AssertFail.

(** [item_size] and [item_mask] *)
Definition dma_format (format : Z) : res (Z * Z) :=
  switch format [(1, Ok (2, 0x0000ffff)); (2, Ok (4, 0x00ffffff)); (6, Ok (4, 0x00ffffff))] (Fault AssertFail).

(** The words at [mem_address + i] for the [i] of a list, as bytes. *)
Fixpoint gather dsp (item_size mem_space mem_address : Z) (l : list Z) : res (list Z) :=
  match l with
  | [] => Ok []
  | i :: l =>
      v ← dsp56k_read_memory dsp mem_space (mem_address + i);
      rest ← gather dsp item_size mem_space mem_address l;
      Ok (encode_item item_size v ++ rest)
  end.

(** Offsets in the order of the buffer: by blocks of a sample for each channel when the samples
    of the channels are interleaved. *)
Definition dma_order (dsp_interleave : bool) (count : Z) : list Z :=
  if dsp_interleave then
    let channel_count := Z.land count 0xF + 1 in
    let block_count := Z.shiftr count 4 in
    i ← zseq block_count; ch ← zseq channel_count; [ch * block_count + i]
  else zseq count.

(** From the bytes to the words at [mem_address] on. *)
Definition scatter dsp (item_size item_mask mem_space mem_address count : Z) (buf : list Z)
  : res (DSPState W) :=
  res_foldl (fun dsp i =>
    let v := decode_item item_size item_mask (drop (Z.to_nat (i * item_size)) buf) in
    dsp56k_write_memory dsp mem_space (mem_address + i) v) dsp (zseq count).

(** From the DSP to guest memory: the core and [scratch_offset].  The static buffer is written
    before it is read in each transfer, so that it is a list of its own here. *)
Definition dma_out dsp (dsp_interleave : bool) (buf_id item_size mem_space mem_address count
    scratch_base scratch_offset scratch_size : Z) : res (DSPState W * Z) :=
  buf ← gather dsp item_size mem_space mem_address (dma_order dsp_interleave count);
  let transfer_size := if dsp_interleave
                       then u32 (Z.shiftr count 4 * item_size * (Z.land count 0xF + 1))
                       else u32 (count * item_size) in
  let o := opaque (container dsp) in
  if buf_id <? 4 then
    '(o, _) ← fifo_rw o buf buf_id transfer_size true; Ok (set_opaque dsp o, scratch_offset)
  else if buf_id =? 0xE then
    '(o, _, scratch_offset) ← scratch_circular_copy o scratch_base scratch_offset scratch_size
                                transfer_size buf true;
    Ok (set_opaque dsp o, scratch_offset)
  else if buf_id =? 0xF then
    '(o, _) ← scratch_rw o buf (u32 (scratch_base + scratch_offset)) transfer_size true;
    Ok (set_opaque dsp o, scratch_offset)
  else Fault AssertFail.

(** From guest memory to the DSP. *)
Definition dma_in dsp (dsp_interleave : bool) (buf_id item_size item_mask mem_space mem_address count
    scratch_base scratch_offset scratch_size : Z) : res (DSPState W * Z) :=
  _ ← c_assert (negb dsp_interleave);
  let transfer_size := u32 (count * item_size) in
  let buf := replicate (Z.to_nat transfer_size) 0 in
  let o := opaque (container dsp) in
  '(o, buf, scratch_offset) ←
    (if buf_id =? 0xE then
       scratch_circular_copy o scratch_base scratch_offset scratch_size transfer_size buf false
     else if buf_id =? 0xF then
       '(o, buf) ← scratch_rw o buf (u32 (scratch_base + scratch_offset)) transfer_size false;
       Ok (o, buf, scratch_offset)
     else Fault AssertFail);
  dsp ← scatter (set_opaque dsp o) item_size item_mask mem_space mem_address count buf;
  Ok (dsp, scratch_offset).

(** One block of the list. *)
Definition dma_block dsp : res (DSPState W) :=
  let addr := Z.land (next_block (dma (container dsp))) NODE_POINTER_VAL in
  '(block_space, block_addr) ← dma_space addr 6;
  next ← dsp56k_read_memory dsp block_space block_addr;
  control ← dsp56k_read_memory dsp block_space (block_addr + 1);
  count ← dsp56k_read_memory dsp block_space (block_addr + 2);
  dsp_offset ← dsp56k_read_memory dsp block_space (block_addr + 3);
  scratch_offset ← dsp56k_read_memory dsp block_space (block_addr + 4);
  scratch_base ← dsp56k_read_memory dsp block_space (block_addr + 5);
  size ← dsp56k_read_memory dsp block_space (block_addr + 6);
  let scratch_size := u32 (size + 1) in
  let dsp := with_dma dsp (fun s => s <| next_block := next |>
                                      <| eol := eol s || tst next NODE_POINTER_EOL |>) in
  let dsp_interleave := negb (Z.land control 1 =? 0) in
  let buf_id := Z.land (Z.shiftr control 5) 0xf in
  _ ← c_assert (Z.land (Z.shiftr control 2) 0x3 =? 0x0);
  _ ← c_assert (Z.land (Z.shiftr control 13) 1 =? 0);
  '(item_size, item_mask) ← dma_format (Z.land (Z.shiftr control 10) 0x7);
  '(mem_space, mem_address) ← dma_space dsp_offset count;
  '(dsp, scratch_offset) ←
    (if tst control NODE_CONTROL_DIRECTION
     then dma_out dsp dsp_interleave buf_id item_size mem_space mem_address count scratch_base
            scratch_offset scratch_size
     else dma_in dsp dsp_interleave buf_id item_size item_mask mem_space mem_address count scratch_base
            scratch_offset scratch_size);
  if negb (Z.land (Z.shiftr control 4) 1 =? 0)
  then dsp56k_write_memory dsp block_space (block_addr + 4) scratch_offset
  else Ok dsp.

(** The blocks up to the end of the list, [fuel] of them at most: the list may be a cycle. *)
Fixpoint dma_loop (fuel : nat) dsp : res (DSPState W) :=
  if tst (next_block (dma (container dsp))) NODE_POINTER_EOL then Ok dsp
  else
    match fuel with
    | O => Fault Hang
    | S fuel => dsp ← dma_block dsp; dma_loop fuel dsp
    end.

Definition dsp_dma_run (fuel : nat) dsp : res (DSPState W) :=
  let c := control (dma (container dsp)) in
  if negb (tst c DMA_CONTROL_RUNNING) || tst c DMA_CONTROL_FROZEN then Ok dsp else dma_loop fuel dsp.

Definition dsp_dma_read dsp (reg : DSPDMARegister) : Z :=
  let s := dma (container dsp) in
  match reg with
  | DMA_CONFIGURATION => configuration s
  | DMA_CONTROL => control s
  | DMA_START_BLOCK => start_block s
  | DMA_NEXT_BLOCK => next_block s
  end.

(** [c | bits] and [c & ~bits] *)
Definition on (c bits : Z) : Z := Z.lor c bits.
Definition off (c bits : Z) : Z := Z.land c (u32 (Z.lnot bits)).

Definition dma_action (c action : Z) : res Z :=
  switch action
    [(DMA_CONTROL_ACTION_START, Ok (off (on c DMA_CONTROL_RUNNING) DMA_CONTROL_STOPPED));
     (DMA_CONTROL_ACTION_STOP, Ok (off (on c DMA_CONTROL_STOPPED) DMA_CONTROL_RUNNING));
     (DMA_CONTROL_ACTION_FREEZE, Ok (on c DMA_CONTROL_FROZEN));
     (DMA_CONTROL_ACTION_UNFREEZE, Ok (off c DMA_CONTROL_FROZEN))] (Fault AssertFail).

Definition dsp_dma_write (fuel : nat) dsp (reg : DSPDMARegister) (v : Z) : res (DSPState W) :=
  match reg with
  | DMA_CONFIGURATION => Ok (with_dma dsp (fun s => s <| configuration := v |>))
  | DMA_CONTROL =>
      c ← dma_action (control (dma (container dsp))) (Z.land v DMA_CONTROL_ACTION);
      dsp_dma_run fuel (with_dma dsp (fun s => s <| control := c |>))
  | DMA_START_BLOCK => Ok (with_dma dsp (fun s => s <| start_block := v |>))
  | DMA_NEXT_BLOCK => Ok (with_dma dsp (fun s => s <| next_block := v |>))
  end.

End Dma.

(** ** The device *)

Class DmaFuel := dma_fuel : nat.

Section Device.
Context {W : Type} `{ScratchOps W} `{DmaFuel}.
Implicit Types dsp : DSPState W.

(** [read_peripheral] and [write_peripheral] of dsp.c. *)
Definition periph_read dsp (address : Z) : Z :=
  switch address
    [(0xFFFFB3, 0);
     (0xFFFFC5, let v := interrupts (container dsp) in
                if eol (dma (container dsp)) then Z.lor v INTERRUPT_DMA_EOL else v);
     (0xFFFFD4, dsp_dma_read dsp DMA_NEXT_BLOCK);
     (0xFFFFD5, dsp_dma_read dsp DMA_START_BLOCK);
     (0xFFFFD6, dsp_dma_read dsp DMA_CONTROL);
     (0xFFFFD7, dsp_dma_read dsp DMA_CONFIGURATION)] 0xababa.

Definition periph_write `{Peripherals (dsp_rest W)} dsp (address value : Z) : res (DSPState W) :=
  switch address
    [(0xFFFFC4, Ok (if tst value 1 then dsp <| is_idle := true |> else dsp));
     (0xFFFFC5, let dsp := dsp <| container; interrupts := off (interrupts (container dsp)) value |> in
                Ok (if tst value INTERRUPT_DMA_EOL then with_dma dsp (fun s => s <| eol := false |>) else dsp));
     (0xFFFFD4, dsp_dma_write dma_fuel dsp DMA_NEXT_BLOCK value);
     (0xFFFFD5, dsp_dma_write dma_fuel dsp DMA_START_BLOCK value);
     (0xFFFFD6, dsp_dma_write dma_fuel dsp DMA_CONTROL value);
     (0xFFFFD7, dsp_dma_write dma_fuel dsp DMA_CONFIGURATION value)] (Ok dsp).

(** The engine writes to the memories of the core, but never to a peripheral register: inside
    of it such a write would not return. *)
Definition nested_peripherals : Peripherals (dsp_rest W) :=
  {| read_peripheral := periph_read; write_peripheral := fun _ _ _ => Fault Hang |}.

#[export] Instance dsp_peripherals : Peripherals (dsp_rest W) :=
  {| read_peripheral := periph_read;
     write_peripheral := fun dsp address value => periph_write (H1 := nested_peripherals) dsp address value |}.

Definition dsp_reset dsp : DSPState W :=
  let dsp := dsp56k_reset_cpu dsp in dsp <| container; save_cycles := 0 |>.

Definition dsp_init (rw_opaque : W) : DSPState W :=
  dsp_reset
    {| is_idle := false; cycle_count := 0; instr_cycle := 0; pc := 0; registers := ∅; stack_ssh := ∅;
       stack_ssl := ∅; xram := ∅; yram := ∅; pram := ∅; pram_opcache := ∅; opcache := ∅;
       mixbuffer := ∅; loop_rep := 0; pc_on_rep := 0; interrupt_state := 0;
       interrupt_instr_fetch := 0; interrupt_save_pc := 0; interrupt_counter := 0;
       interrupt_ipl_to_raise := 0; interrupt_pipeline_count := 0; interrupt_ipl := ∅;
       interrupt_is_pending := ∅; num_inst := 0; cur_inst_len := 0; cur_inst := 0;
       exception_debugging := false;
       container := {| dma := {| configuration := 0; control := 0; start_block := 0; next_block := 0;
                                 eol := false |};
                       save_cycles := 0; interrupts := 0; opaque := rw_opaque |} |}.

(** The loop of [dsp_run]. *)
Fixpoint run_loop (fuel : nat) dsp (dma_timer : Z) : res (DSPState W) :=
  if 0 <? save_cycles (container dsp) then
    match fuel with
    | O => Fault OutOfFuel
    | S fuel =>
        dsp ← dsp56k_execute_instruction dsp;
        let dsp := dsp <| container; save_cycles := s32 (save_cycles (container dsp) - instr_cycle dsp) |>
                       <| cycle_count := u32 (cycle_count dsp + 1) |> in
        let dma_timer := if tst (control (dma (container dsp))) DMA_CONTROL_RUNNING
                         then dma_timer + 1 else dma_timer in
        let '(dsp, dma_timer) :=
          if 2 <? dma_timer then
            (with_dma dsp (fun s => s <| control := on (off (control s) DMA_CONTROL_RUNNING)
                                                      DMA_CONTROL_STOPPED |>), 0)
          else (dsp, dma_timer) in
        if is_idle dsp then Ok dsp else run_loop fuel dsp dma_timer
    end
  else Ok dsp.

Definition dsp_run dsp (cycles : Z) : res (DSPState W) :=
  let dsp := dsp <| container; save_cycles := s32 (save_cycles (container dsp) + cycles) |> in
  run_loop (Z.to_nat (save_cycles (container dsp))) dsp 0.

(** The bytes of the scratch area as words of the program memory, of 24 bits each. *)
Fixpoint load_pram (pram : gmap Z Z) (i : Z) (n : nat) (buf : list Z) : gmap Z Z :=
  match n with
  | O => pram
  | S n =>
      let v := decode_item 4 0xffffffff buf in
      let v := if tst v 0xff000000 then Z.land v 0x00ffffff else v in
      load_pram (<[i := v]> pram) (i + 1) n (drop 4 buf)
  end.

Definition dsp_bootstrap dsp : res (DSPState W) :=
  '(o, buf) ← scratch_rw (opaque (container dsp)) (replicate (Z.to_nat (0x800 * 4)) 0) 0 (0x800 * 4) false;
  Ok ((set_opaque dsp o) <| pram := load_pram (pram dsp) 0 (Z.to_nat 0x800) buf |>
                         <| pram_opcache := ∅ |>).

Definition dsp_start_frame dsp : DSPState W :=
  dsp <| container; interrupts := Z.lor (interrupts (container dsp)) INTERRUPT_START_FRAME |>.

End Device.

End DspDma.
