(* ===== verification/DspAluSpec.v ===== *)
(** * The ALU of the DSP on integers (theorems about DspAlu)

    What the 8-bit operation codes mean on signed integers: which operand the bits of the code
    name, the value that the destination gets, and every bit of the status register after the
    operation.  The specification decodes the code by its bit fields and not by the table of
    functions. *)

From S2P Require Import Prelude DspCore DspArith DspAlu.
Import DspCore DspArith DspAlu.

Module DspAluSpec.

Section Spec.
Context {X : Type} `{Peripherals X}.
Implicit Types d dsp : dsp_core_t X.

(** ** Specification *)

(** A register as a signed number of 24 bits, an accumulator as one of 56. *)
Definition num24 d (n : Z) : Z := swrap 24 (getr d n).
Definition num56 d (D : accu) : Z := sgn56 (load56 d D).

(** Fractions are aligned with bit 47 of the accumulator. *)
Definition value d (S : operand) : Z :=
  match S with
  | Accu D => num56 d D
  | Pair hi lo => num24 d hi * 2 ^ 24 + getr d lo
  | Reg n => num24 d n * 2 ^ 24
  end.

Definition sr_bit d (n : Z) : bool := Z.testbit (getr d DSP_REG_SR) n.
Definition carry d : Z := Z.b2z (sr_bit d DSP_SR_C).

(** The new value of the destination; the value that E, U, N and Z tell of, if they change;
    the new C and V; whether L, which is never cleared, gets set. *)
Record meaning := {
  dest : accu;
  result : dsp_core_t X -> Z;
  seen : option (dsp_core_t X -> Z);
  flag_c : dsp_core_t X -> bool;
  flag_v : dsp_core_t X -> bool;
  flag_l : dsp_core_t X -> bool
}.

(** The bit of an accumulator that is the sign of the word a move takes from it. *)
Definition scale_bit d : Z := round_bit (getr d DSP_REG_SR) + 23.

(** Z, N, U and E of a value of 56 bits: whether it is zero or negative, whether the two bits
    at the sign of the word are equal, and whether the word has lost part of the value. *)
Definition four (z n u e : bool) : list (Z * bool) :=
  [(DSP_SR_Z, z); (DSP_SR_N, n); (DSP_SR_U, u); (DSP_SR_E, e)].
Definition value_bits d (v : Z) : list (Z * bool) :=
  let k := scale_bit d in
  four (v =? 0) (v <? 0) (Bool.eqb (Z.testbit v k) (Z.testbit v (k - 1)))
    (negb ((- 2 ^ k <=? v) && (v <? 2 ^ k))).

(** The status bits that an operation writes. *)
Definition lvc_bits d (l v c : bool) : list (Z * bool) :=
  [(DSP_SR_C, c); (DSP_SR_V, v); (DSP_SR_L, sr_bit d DSP_SR_L || l)].
Definition flags (m : meaning) d : list (Z * bool) :=
  lvc_bits d (flag_l m d) (flag_v m d) (flag_c m d)
  ++ match seen m with Some f => value_bits d (swrap 56 (f d)) | None => [] end.

(** Arithmetic operations, with their source. *)
Inductive action :=
  | Move | Tfr (S : operand) | Add (S : operand) | Sub (S : operand) | Adc (S : operand) | Sbc (S : operand)
  | Addl (S : operand) | Subl (S : operand) | Addr (S : operand) | Subr (S : operand)
  | Asl | Asr | Abs | Neg | Clr | Tst | Rnd | Cmp (S : operand) | Cmpm (S : operand)
  | Mpy (s1 s2 : Z) (minus : bool) | Mpyr (s1 s2 : Z) (minus : bool)
  | Mac (s1 s2 : Z) (minus : bool) | Macr (s1 s2 : Z) (minus : bool).

Definition rounded d (v : Z) : Z := ref_round (round_bit (getr d DSP_REG_SR)) v.
(** The emulator shifts right without the sign. *)
Definition halved (v : Z) : Z := v mod 2 ^ 56 / 2.
(** The product of two fractions is shifted by one. *)
Definition prod d (s1 s2 : Z) (minus : bool) : Z :=
  (if minus then -1 else 1) * (2 * (num24 d s1 * num24 d s2)).

(** Out of the range of 56 bits; carry and borrow out of bit 55. *)
Definition ovf (x : Z) : bool := negb (in_s56 x).
Definition carry_out (x y : Z) : bool := 2 ^ 56 <=? x mod 2 ^ 56 + y mod 2 ^ 56.
Definition borrow (x y : Z) : bool := x mod 2 ^ 56 <? y mod 2 ^ 56.

Definition old_c d : bool := sr_bit d DSP_SR_C.
Definition old_v d : bool := sr_bit d DSP_SR_V.
Definition never d : bool := false.

(** A shift by one: its value, C, V and L.  The emulator's ASL sets L for a negative number. *)
Record shift_meaning := { sh : Z -> Z; sh_c : Z -> bool; sh_v : Z -> bool; sh_l : Z -> bool }.
Definition left_one : shift_meaning :=
  {| sh := fun x => 2 * x; sh_c := fun x => x <? 0; sh_v := fun x => ovf (2 * x); sh_l := fun x => x <? 0 |}.
Definition right_one : shift_meaning :=
  {| sh := halved; sh_c := Z.odd; sh_v := fun _ => false; sh_l := fun _ => false |}.

(** A result with E, U, N and Z of it, C kept. *)
Definition flagged D (r : dsp_core_t X -> Z) (v l : dsp_core_t X -> bool) : meaning :=
  {| dest := D; result := r; seen := Some r; flag_c := old_c; flag_v := v; flag_l := l |}.
(** A transfer, without status bits. *)
Definition plain D (r : dsp_core_t X -> Z) : meaning :=
  {| dest := D; result := r; seen := None; flag_c := old_c; flag_v := old_v; flag_l := never |}.
(** [f] is the sum or the difference and [co] its carry. *)
Definition binary D (f : Z -> Z -> Z) (co : Z -> Z -> bool) (S : operand) : meaning :=
  let r d := f (num56 d D) (value d S) in
  {| dest := D; result := r; seen := Some r; flag_c := fun d => co (num56 d D) (value d S);
     flag_v := fun d => ovf (r d); flag_l := fun d => ovf (r d) |}.
(** Two such steps, of which each can set C, V and L: the carry comes second. *)
Definition with_carry D (f : Z -> Z -> Z) (co : Z -> Z -> bool) (S : operand) : meaning :=
  let r1 d := f (num56 d D) (value d S) in
  let r d := f (r1 d) (carry d) in
  let v d := ovf (r1 d) || ovf (f (swrap 56 (r1 d)) (carry d)) in
  {| dest := D; result := r; seen := Some r;
     flag_c := fun d => co (num56 d D) (value d S) || co (swrap 56 (r1 d)) (carry d);
     flag_v := v; flag_l := v |}.
(** The shift comes first. *)
Definition shifted D (s : shift_meaning) (f : Z -> Z -> Z) (co : Z -> Z -> bool) (S : operand) : meaning :=
  let x d := num56 d D in
  let r d := f (sh s (x d)) (value d S) in
  let y d := swrap 56 (sh s (x d)) in
  let v d := ovf (f (y d) (value d S)) in
  {| dest := D; result := r; seen := Some r;
     flag_c := fun d => sh_c s (x d) || co (y d) (value d S);
     flag_v := fun d => sh_v s (x d) || v d; flag_l := fun d => sh_l s (x d) || v d |}.
Definition shift_only D (s : shift_meaning) : meaning :=
  let r d := sh s (num56 d D) in
  {| dest := D; result := r; seen := Some r; flag_c := fun d => sh_c s (num56 d D);
     flag_v := fun d => sh_v s (num56 d D); flag_l := fun d => sh_l s (num56 d D) |}.
(** The status bits of the difference of [x] and [y]. *)
Definition compared D (x y : dsp_core_t X -> Z) : meaning :=
  {| dest := D; result := fun d => num56 d D; seen := Some (fun d => x d - y d);
     flag_c := fun d => borrow (x d) (y d); flag_v := fun d => ovf (x d - y d);
     flag_l := fun d => ovf (x d - y d) |}.

Definition meaning_of (D : accu) (a : action) : meaning :=
  match a with
  | Move => plain D (fun d => num56 d D)
  | Tfr o => plain D (fun d => value d o)
  | Add o => binary D Z.add carry_out o
  | Sub o => binary D Z.sub borrow o
  | Adc o => with_carry D Z.add carry_out o
  | Sbc o => with_carry D Z.sub borrow o
  | Addl o => shifted D left_one Z.add carry_out o
  | Subl o => shifted D left_one Z.sub borrow o
  | Addr o => shifted D right_one Z.add carry_out o
  | Subr o => shifted D right_one Z.sub borrow o
  | Asl => shift_only D left_one
  | Asr => shift_only D right_one
  | Abs => let v d := ovf (Z.abs (num56 d D)) in flagged D (fun d => Z.abs (num56 d D)) v v
  | Neg => let v d := ovf (- num56 d D) in flagged D (fun d => - num56 d D) v v
  | Clr => flagged D (fun d => 0) never never
  | Tst => flagged D (fun d => num56 d D) never never
  | Rnd => flagged D (fun d => rounded d (num56 d D)) old_v never
  | Cmp o => compared D (fun d => num56 d D) (fun d => value d o)
  | Cmpm o => compared D (fun d => swrap 56 (Z.abs (num56 d D))) (fun d => swrap 56 (Z.abs (value d o)))
  | Mpy s1 s2 g => flagged D (fun d => prod d s1 s2 g) never never
  | Mpyr s1 s2 g => flagged D (fun d => rounded d (prod d s1 s2 g)) never never
  | Mac s1 s2 g => let r d := num56 d D + prod d s1 s2 g in
                   flagged D r (fun d => ovf (r d)) (fun d => ovf (r d))
  | Macr s1 s2 g => let r d := num56 d D + prod d s1 s2 g in
                    flagged D (fun d => rounded d (r d)) (fun d => ovf (r d)) (fun d => ovf (r d))
  end.

(** Bits 6..4 of a code below 0x80, and of one from 0x80. *)
Definition operand_of (D : accu) (jjj : Z) : operand :=
  switch jjj
    [(2, Pair DSP_REG_X1 DSP_REG_X0); (3, Pair DSP_REG_Y1 DSP_REG_Y0); (4, Reg DSP_REG_X0);
     (5, Reg DSP_REG_Y0); (6, Reg DSP_REG_X1); (7, Reg DSP_REG_Y1)] (Accu (other D)).
Definition factors_of (qqq : Z) : Z * Z :=
  switch qqq
    [(0, (DSP_REG_X0, DSP_REG_X0)); (1, (DSP_REG_Y0, DSP_REG_Y0)); (2, (DSP_REG_X1, DSP_REG_X0));
     (3, (DSP_REG_Y1, DSP_REG_Y0)); (4, (DSP_REG_X0, DSP_REG_Y1)); (5, (DSP_REG_Y0, DSP_REG_X0));
     (6, (DSP_REG_X1, DSP_REG_Y0))] (DSP_REG_Y1, DSP_REG_X1).

Definition accu_of_code (c : Z) : accu := if Z.testbit c 3 then AccB else AccA.

(** Codes from 0x80: 1QQQdk, then what is done with the product. *)
Definition decode_multiply (c : Z) : option action :=
  let '(s1, s2) := factors_of (field c 4 3) in
  let g := Z.testbit c 2 in
  switch (field c 0 2) [(0, Some (Mpy s1 s2 g)); (1, Some (Mpyr s1 s2 g)); (2, Some (Mac s1 s2 g))]
    (Some (Macr s1 s2 g)).

(** Codes below 0x80: 0JJJdkkk.  Logical operations, which only concern the middle word of the
    accumulator, MAX and undefined codes are not arithmetic. *)
Definition decode_other (c : Z) : option action :=
  let jjj := field c 4 3 in
  let S := operand_of (accu_of_code c) jjj in
  let sole := (4 <=? jjj) || (jjj =? 0) in
  switch (field c 0 3)
    [(0, if 1 <=? jjj then Some (Add S) else if c =? 0 then Some Move else None);
     (1, if sole then Some (Tfr S) else if jjj =? 1 then Some Rnd else Some (Adc S));
     (2, switch jjj [(0, Some (Addr S)); (1, Some (Addl S)); (2, Some Asr); (3, Some Asl)] None);
     (3, switch jjj [(0, Some Tst); (1, Some Clr)] None);
     (4, if 1 <=? jjj then Some (Sub S) else None);
     (5, if sole then Some (Cmp S) else if jjj =? 1 then None else Some (Sbc S));
     (6, switch jjj [(0, Some (Subr S)); (1, Some (Subl S)); (2, Some Abs); (3, Some Neg)] None);
     (7, if sole then Some (Cmpm S) else None)] None.

Definition decode (c : Z) : option action :=
  if Z.testbit c 7 then decode_multiply c else decode_other c.

(** ** What the code has to meet *)

(** Registers of their width and a scaling mode that is not the reserved one. *)
Record alu_wf d : Prop := {
  wf_accu : forall D, limbs (load56 d D);
  wf_data : forall n, DSP_REG_X0 <= n <= DSP_REG_Y1 -> in_uw 24 (getr d n);
  wf_scaling : field (getr d DSP_REG_SR) DSP_SR_S0 2 <> 3
}.

(** The status register is [d]'s with the bits of [l] replaced. *)
Definition bits d d' (l : list (Z * bool)) : Prop :=
  forall n, 0 <= n < 16 -> sr_bit d' n = switch n l (sr_bit d n).

(** The destination has the result, the status register its new bits, and nothing else of the
    core changes. *)
Definition meets d (m : meaning) d' : Prop :=
  limbs (load56 d' (dest m)) /\ num56 d' (dest m) = swrap 56 (result m d)
  /\ bits d d' (flags m d)
  /\ (forall n, n <> DSP_REG_SR -> n ∉ [accu0 (dest m); accu1 (dest m); accu2 (dest m)] ->
        getr d' n = getr d n)
  /\ d' = d <| registers := registers d' |>.

(** ** Status bits *)

Lemma sr_bit_set d v n : 0 <= n < 32 -> sr_bit (setr d DSP_REG_SR v) n = Z.testbit v n.
Proof.
  intros. unfold sr_bit, getr, setr. cbn. rewrite lookup_insert_eq. cbn. unfold uwrap.
  apply Z.mod_pow2_bits_low. lia.
Qed.
Lemma sr_bit_clear d b n : 0 <= n < 32 -> sr_bit (sr_clear d b) n = sr_bit d n && Z.testbit (BITMASK 16 - b) n.
Proof. intros. unfold sr_clear. rewrite sr_bit_set by done. apply Z.land_spec. Qed.
Lemma sr_bit_or d b n : 0 <= n < 32 -> sr_bit (sr_or d b) n = sr_bit d n || Z.testbit b n.
Proof. intros. unfold sr_or. rewrite sr_bit_set by done. apply Z.lor_spec. Qed.
Lemma sr_bit_or_if d b k n : 0 <= n < 32 -> 0 <= k ->
  sr_bit (sr_or_if d b k) n = sr_bit d n || (b && (k =? n)).
Proof.
  intros. unfold sr_or_if. destruct b; [|by rewrite orb_false_r]. rewrite sr_bit_or by done.
  f_equal. unfold bit. rewrite Z.shiftl_1_l, Z.pow2_bits_eqb by lia. done.
Qed.

(** What is not the status register stays. *)
Definition sr_only d d' : Prop :=
  (forall n, n <> DSP_REG_SR -> getr d' n = getr d n) /\ d' = d <| registers := registers d' |>.

Lemma sr_only_trans d1 d2 d3 : sr_only d1 d2 -> sr_only d2 d3 -> sr_only d1 d3.
Proof. intros [E1 F1] [E2 F2]. split; [intros n Hn; by rewrite E2, E1|]. rewrite F2, F1. done. Qed.
Lemma sr_only_refl d : sr_only d d.
Proof. split; [done|]. by destruct d. Qed.
Lemma sr_only_set d d' v : sr_only d d' -> sr_only d (setr d' DSP_REG_SR v).
Proof.
  intros Hs. eapply sr_only_trans; [done|]. split; [|done]. intros n Hn. unfold getr, setr. cbn.
  by rewrite lookup_insert_ne.
Qed.
Lemma sr_only_or d d' b : sr_only d d' -> sr_only d (sr_or d' b).
Proof. apply sr_only_set. Qed.
Lemma sr_only_clear d d' b : sr_only d d' -> sr_only d (sr_clear d' b).
Proof. apply sr_only_set. Qed.
Lemma sr_only_or_if d d' b n : sr_only d d' -> sr_only d (sr_or_if d' b n).
Proof. unfold sr_or_if. destruct b; [apply sr_only_or|done]. Qed.
Lemma sr_only_load56 d d' D : sr_only d d' -> load56 d' D = load56 d D.
Proof. intros [Hs _]. unfold load56. by rewrite !Hs by (by destruct D). Qed.

#[local] Hint Resolve sr_only_refl sr_only_or sr_only_clear sr_only_or_if : core.

Lemma field_2 v i : 0 <= i -> field v i 2 = Z.b2z (Z.testbit v i) + 2 * Z.b2z (Z.testbit v (i + 1)).
Proof.
  intros Hi. unfold field. rewrite land_BITMASK by lia.
  replace (Z.testbit v i) with (Z.testbit (Z.shiftr v i) 0) by (rewrite Z.shiftr_spec by lia; f_equal; lia).
  replace (Z.testbit v (i + 1)) with (Z.testbit (Z.shiftr v i) 1) by (rewrite Z.shiftr_spec by lia; f_equal; lia).
  rewrite !Z.testbit_spec' by lia. change (2 ^ 2) with 4. change (2 ^ 0) with 1. change (2 ^ 1) with 2.
  dlia.
Qed.

Lemma all_bits (P : Z -> Prop) : Forall P [0; 1; 2; 3; 4; 5; 6; 7; 8; 9; 10; 11; 12; 13; 14; 15] ->
  forall n, 0 <= n < 16 -> P n.
Proof.
  intros Hl n Hn. rewrite Forall_forall in Hl. apply Hl. rewrite !elem_of_cons. lia.
Qed.

(** The sixteen bits, one by one. *)
#[local] Ltac each_bit :=
  hnf; apply all_bits; repeat (apply Forall_cons_2; [|]); try apply Forall_nil_2.
#[local] Ltac bits_done :=
  cbn -[sr_bit Z.testbit];
  repeat match goal with |- context [Z.testbit ?a ?n] =>
    let b := eval vm_compute in (Z.testbit a n) in
    lazymatch b with true => idtac | false => idtac end; change (Z.testbit a n) with b end;
  rewrite ?andb_true_r, ?andb_false_r, ?orb_true_r, ?orb_false_r, ?orb_false_l; done.

Definition scaling_ok d : Prop := field (getr d DSP_REG_SR) DSP_SR_S0 2 <> 3.

Lemma scale_bit_sr d : scale_bit d =
  if sr_bit d DSP_SR_S0 then 48 else if sr_bit d DSP_SR_S1 then 46 else 47.
Proof. unfold scale_bit, round_bit, sr_bit, bit. rewrite !Z.shiftl_1_l, !tst_bit by done. by repeat case_match. Qed.

(** Registers whose scaling bits agree. *)
Lemma scaling_same d d' : sr_bit d' DSP_SR_S0 = sr_bit d DSP_SR_S0 ->
  sr_bit d' DSP_SR_S1 = sr_bit d DSP_SR_S1 ->
  scale_bit d' = scale_bit d /\ field (getr d' DSP_REG_SR) DSP_SR_S0 2 = field (getr d DSP_REG_SR) DSP_SR_S0 2.
Proof.
  intros E0 E1. rewrite !scale_bit_sr, E0, E1, !field_2 by done.
  change (DSP_SR_S0 + 1) with DSP_SR_S1. fold (sr_bit d DSP_SR_S0) (sr_bit d DSP_SR_S1)
    (sr_bit d' DSP_SR_S0) (sr_bit d' DSP_SR_S1). by rewrite E0, E1.
Qed.

(** ** E, U, N and Z *)

Lemma testbit_val w0 w1 w2 i : limbs (w0, w1, w2) -> 0 <= i < 56 ->
  Z.testbit (sgn56 (w0, w1, w2)) i = Z.testbit (val56 (w0, w1, w2)) i.
Proof.
  intros Hl Hi. destruct (sgn56_bit w0 w1 w2 Hl) as (-> & _ & _).
  rewrite <- (Z.mod_pow2_bits_low _ 56) by lia. rewrite <- (Z.mod_pow2_bits_low (val56 _) 56) by lia.
  f_equal. replace (val56 (w0, w1, w2) - 2 ^ 56 * (w0 / 2 ^ 7 mod 2))
    with (val56 (w0, w1, w2) + - (w0 / 2 ^ 7 mod 2) * 2 ^ 56) by ring. apply Z_mod_plus_full.
Qed.

(** Two adjacent bits are equal. *)
Lemma eqb_bits v k : 0 < k -> Bool.eqb (Z.testbit v k) (Z.testbit v (k - 1))
  = ((v / 2 ^ (k - 1) mod 4 =? 0) || (v / 2 ^ (k - 1) mod 4 =? 3)).
Proof.
  intros Hk. assert (E : v / 2 ^ k = v / 2 ^ (k - 1) / 2).
  { rewrite Z.div_div, (Z.mul_comm _ 2), <- Z.pow_succ_r by lia. f_equal. f_equal. lia. }
  pose proof (Z.testbit_spec' v k ltac:(lia)) as E1. pose proof (Z.testbit_spec' v (k - 1) ltac:(lia)) as E0.
  rewrite E in E1. set (q := v / 2 ^ (k - 1)) in *. clearbody q.
  destruct (Z.testbit v k), (Z.testbit v (k - 1)); cbn [Z.b2z Bool.eqb] in *;
    destruct (Z.eqb_spec (q mod 4) 0), (Z.eqb_spec (q mod 4) 3); cbn [orb]; try done; dlia.
Qed.

(** The bits from [k] up are all equal. *)
Lemma in_range_bits k x b : 0 < k < 55 -> (b = 0 \/ b = 1) -> 0 <= x - 2 ^ 55 * b < 2 ^ 55 ->
  negb ((- 2 ^ k <=? x - 2 ^ 56 * b) && (x - 2 ^ 56 * b <? 2 ^ k))
  = negb (x / 2 ^ k =? 0) && negb (x / 2 ^ k =? 2 ^ (56 - k) - 1).
Proof.
  intros Hk Hb Hx.
  assert (E : 2 ^ 56 = 2 ^ (56 - k) * 2 ^ k) by (rewrite <- Z.pow_add_r by lia; f_equal; lia).
  assert (E' : 2 ^ 55 = 2 ^ (55 - k) * 2 ^ k) by (rewrite <- Z.pow_add_r by lia; f_equal; lia).
  assert (E'' : 2 ^ (56 - k) = 2 * 2 ^ (55 - k)) by (rewrite <- Z.pow_succ_r by lia; f_equal; lia).
  assert (H2 : 2 <= 2 ^ (55 - k)) by (apply (Z.pow_le_mono_r 2 1); lia).
  rewrite E, E', E'' in *. set (p := 2 ^ k) in *. set (n := 2 ^ (55 - k)) in *.
  assert (0 < p) by (subst p; lia). clearbody p n. clear E E' E'' Hk.
  pose proof (Z.div_mod x p ltac:(lia)) as Ex. pose proof (Z.mod_pos_bound x p ltac:(lia)) as Hr.
  set (q := x / p) in *. clearbody q.
  destruct (Z.leb_spec (- p) (x - 2 * n * p * b)), (Z.ltb_spec (x - 2 * n * p * b) p),
    (Z.eqb_spec q 0), (Z.eqb_spec q (2 * n - 1)); cbn [andb negb]; try done; exfalso;
    destruct Hb as [-> | ->]; nia.
Qed.

Lemma ccr_e_u_spec d w0 w1 w2 : limbs (w0, w1, w2) -> scaling_ok d ->
  let v := sgn56 (w0, w1, w2) in let k := scale_bit d in
  ccr_e_u (field (getr d DSP_REG_SR) DSP_SR_S0 2) w0 w1
  = Some (negb ((- 2 ^ k <=? v) && (v <? 2 ^ k)), Bool.eqb (Z.testbit v k) (Z.testbit v (k - 1))).
Proof.
  intros Hl Hs v k.
  assert (Hk : 46 <= k <= 48) by (subst k; rewrite scale_bit_sr; repeat case_match; lia).
  subst v. rewrite !testbit_val, eqb_bits by (done || lia).
  destruct (sgn56_bit w0 w1 w2 Hl) as (-> & Hb & Hv). rewrite in_range_bits by (done || lia).
  subst k. rewrite scale_bit_sr in *. unfold scaling_ok in Hs. rewrite field_2 in * by done.
  change (DSP_SR_S0 + 1) with DSP_SR_S1 in *. fold (sr_bit d DSP_SR_S0) (sr_bit d DSP_SR_S1) in *.
  unfold limbs, in_uw, is_u8 in Hl.
  assert (E48 : (w0 * 2 ^ 48 + w1 * 2 ^ 24 + w2) / 2 ^ 48 = w0) by dlia.
  assert (E47 : (w0 * 2 ^ 48 + w1 * 2 ^ 24 + w2) / 2 ^ 47 = w0 * 2 + w1 / 2 ^ 23) by dlia.
  assert (E46 : (w0 * 2 ^ 48 + w1 * 2 ^ 24 + w2) / 2 ^ 46 = w0 * 4 + w1 / 2 ^ 22) by dlia.
  assert (E45 : (w0 * 2 ^ 48 + w1 * 2 ^ 24 + w2) / 2 ^ 45 = w0 * 8 + w1 / 2 ^ 21) by dlia.
  clear Hb Hv Hk. unfold ccr_e_u, val56.
  rewrite (land_GET_MASK w1 0xc00000 22 2), (GET_MASK_arith w1 0xc00000 22 2),
     (land_GET_MASK w1 0x600000 21 2), (GET_MASK_arith w1 0x600000 21 2) by bitfield.
  rewrite !(land_BITMASK _ 2 : forall _, Z.land _ 3 = _), !Z.shiftl_mul_pow2, !Z.shiftr_div_pow2 by lia.
  rewrite !(uwrap_id 32 (w0 * _)), !(uwrap_id 32 (_ + _)) by dlia.
  destruct (sr_bit d DSP_SR_S0), (sr_bit d DSP_SR_S1); [done|..]; clear Hs;
  cbn [switch Z.b2z]; change (1 + 2 * 0) with 1; change (0 + 2 * 1) with 2; change (0 + 2 * 0) with 0;
  cbn [Z.eqb Pos.eqb]; f_equal; f_equal.

  - by rewrite E48.
  - change (48 - 1) with 47. by rewrite E47.
  - rewrite E46. done.
  - change (46 - 1) with 45. rewrite E45. dlia.
  - by rewrite E47.
  - change (47 - 1) with 46. rewrite E46. dlia.
Qed.

Lemma ccr_sr_only d w : sr_only d (emu_ccr_update_e_u_n_z d w).
Proof.
  destruct w as [[w0 w1] w2]. unfold emu_ccr_update_e_u_n_z. destruct (ccr_e_u _ _ _) as [[e u]|]; auto 10.
Qed.

(** Z and N are the sign of the value. *)
Lemma zero_negative w0 w1 w2 : limbs (w0, w1, w2) ->
  (w1 =? 0) && (w2 =? 0) && (w0 =? 0) = (sgn56 (w0, w1, w2) =? 0)
  /\ Z.testbit w0 7 = (sgn56 (w0, w1, w2) <? 0).
Proof.
  intros Hl. destruct (sgn56_bit w0 w1 w2 Hl) as (-> & _ & Hv).
  pose proof (Z.testbit_spec' w0 7 ltac:(lia)) as Hb. rewrite <- Hb in *. unfold val56 in *. arith_limbs.
  destruct (Z.testbit w0 7); cbn [Z.b2z] in *; split; lia.
Qed.

Lemma ccr_bits d w : limbs w -> scaling_ok d ->
  bits d (emu_ccr_update_e_u_n_z d w) (value_bits d (sgn56 w)).
Proof.
  intros Hl Hs. destruct w as [[w0 w1] w2]. unfold emu_ccr_update_e_u_n_z. set (d1 := sr_clear d _).
  destruct (scaling_same d d1) as [Ek Ef]; [by unfold d1; rewrite sr_bit_clear, andb_true_r by done..|].
  rewrite (ccr_e_u_spec d1 w0 w1 w2) by (done || by unfold scaling_ok; rewrite Ef).
  rewrite Ek. destruct (zero_negative w0 w1 w2 Hl) as [-> Hn]. unfold value_bits, bits.
  generalize (sgn56 (w0, w1, w2) =? 0) (negb ((- 2 ^ scale_bit d <=? sgn56 (w0, w1, w2))
    && (sgn56 (w0, w1, w2) <? 2 ^ scale_bit d))) (Bool.eqb (Z.testbit (sgn56 (w0, w1, w2)) (scale_bit d))
    (Z.testbit (sgn56 (w0, w1, w2)) (scale_bit d - 1))). intros z e u. rewrite <- Hn.
  each_bit; rewrite sr_bit_or, !sr_bit_or_if, Z.land_spec, Z.shiftr_spec by done; unfold d1;
    rewrite sr_bit_clear by done; bits_done.
Qed.

(** ** C, V and L *)

(** A word of status bits as the routines of 56 bits return them. *)
Definition is_lvc (sr : Z) (l v c : bool) : Prop :=
  forall n, 0 <= n < 16 -> Z.testbit sr n = switch n [(DSP_SR_C, c); (DSP_SR_V, v); (DSP_SR_L, l)] false.

Lemma newsr_is_lvc l v c : is_lvc (newsr_lvc (Z.b2z l) (Z.b2z v) (Z.b2z c)) l v c.
Proof. by each_bit; destruct l, v, c. Qed.
Lemma lor_is_lvc sr sr' l v c l' v' c' : is_lvc sr l v c -> is_lvc sr' l' v' c' ->
  is_lvc (Z.lor sr sr') (l || l') (v || v') (c || c').
Proof. intros E E'. each_bit; by rewrite Z.lor_spec, E, E'. Qed.
Lemma land_is_lvc sr l v c : is_lvc sr l v c -> is_lvc (Z.land sr 0xfe) l v false.
Proof. intros E. each_bit; rewrite Z.land_spec, E by done; bits_done. Qed.

(** They replace V, and C if [drop] says so. *)
Definition dropped (drop : bool) : Z := if drop then bit DSP_SR_V + bit DSP_SR_C else bit DSP_SR_V.

Lemma lvc_flags d drop sr l v c : is_lvc sr l v c ->
  bits d (sr_or (sr_clear d (dropped drop)) sr) (lvc_bits d l v (negb drop && sr_bit d DSP_SR_C || c)).
Proof.
  intros E. each_bit; rewrite sr_bit_or, sr_bit_clear, E by done; destruct drop; bits_done.
Qed.

(** One after the other. *)
Lemma bits_app d d1 d2 l v c z n u e :
  bits d d1 (lvc_bits d l v c) -> bits d1 d2 (four z n u e) ->
  bits d d2 (lvc_bits d l v c ++ four z n u e).
Proof. intros E1 E2. each_bit; rewrite E2 by done; cbn -[sr_bit]; try done; rewrite E1 by done; bits_done. Qed.
Lemma bits_app_r d d1 d2 l v c z n u e :
  bits d d1 (four z n u e) -> bits d1 d2 (lvc_bits d1 l v c) ->
  bits d d2 (lvc_bits d l v c ++ four z n u e).
Proof. intros E1 E2. each_bit; rewrite E2 by done; cbn -[sr_bit]; try done; rewrite E1 by done; bits_done. Qed.

(** The status bits of a routine come after those of the value or before them. *)
Lemma flags_after d drop w sr l v c : limbs w -> scaling_ok d -> is_lvc sr l v c ->
  bits d (sr_or (sr_clear (emu_ccr_update_e_u_n_z d w) (dropped drop)) sr)
    (lvc_bits d l v (negb drop && sr_bit d DSP_SR_C || c) ++ value_bits d (sgn56 w)).
Proof.
  intros Hl Hs Hi. pose proof (ccr_bits d w Hl Hs) as Hc. unfold value_bits.
  eapply bits_app_r; [exact Hc|]. pose proof (lvc_flags (emu_ccr_update_e_u_n_z d w) drop sr l v c Hi) as Hf.
  by rewrite (Hc DSP_SR_C) in Hf by done.
Qed.
Lemma flags_before d drop w sr l v c : limbs w -> scaling_ok d -> is_lvc sr l v c ->
  bits d (emu_ccr_update_e_u_n_z (sr_or (sr_clear d (dropped drop)) sr) w)
    (lvc_bits d l v (negb drop && sr_bit d DSP_SR_C || c) ++ value_bits d (sgn56 w)).
Proof.
  intros Hl Hs Hi. pose proof (lvc_flags d drop sr l v c Hi) as Hf. set (d1 := sr_or _ _) in *.
  destruct (scaling_same d d1) as [Ek Ef]; [by rewrite Hf by done..|].
  pose proof (ccr_bits d1 w Hl) as Hc. unfold scaling_ok in Hc. rewrite Ef in Hc. specialize (Hc Hs).
  unfold value_bits in *. rewrite Ek in Hc. by eapply bits_app.
Qed.

(** Without a routine: V is cleared, or nothing changes. *)
Lemma clear_flags d : bits d (sr_clear d (bit DSP_SR_V)) (lvc_bits d false false (sr_bit d DSP_SR_C)).
Proof. each_bit; rewrite sr_bit_clear by done; bits_done. Qed.
Lemma kept_flags d : bits d d (lvc_bits d false (sr_bit d DSP_SR_V) (sr_bit d DSP_SR_C)).
Proof. each_bit; bits_done. Qed.
Lemma cleared_after d w : limbs w -> scaling_ok d ->
  bits d (sr_clear (emu_ccr_update_e_u_n_z d w) (bit DSP_SR_V))
    (lvc_bits d false false (sr_bit d DSP_SR_C) ++ value_bits d (sgn56 w)).
Proof.
  intros Hl Hs. pose proof (ccr_bits d w Hl Hs) as Hc. eapply bits_app_r; [exact Hc|].
  pose proof (clear_flags (emu_ccr_update_e_u_n_z d w)) as Hf. by rewrite (Hc DSP_SR_C) in Hf by done.
Qed.

(** ** Accumulators *)

Lemma limbs_u32 w : limbs w -> let '(d0, d1, d2) := w in u32 d0 = d0 /\ u32 d1 = d1 /\ u32 d2 = d2.
Proof. destruct w as [[d0 d1] d2]. unfold limbs, in_uw. intros. rewrite !uwrap_id by lia. done. Qed.

Lemma load_store d D w : limbs w -> load56 (store56 d D w) D = w.
Proof.
  intros Hl. apply limbs_u32 in Hl. destruct w as [[d0 d1] d2]. destruct Hl as (E0 & E1 & E2).
  unfold load56, store56, getr, setr. cbn. destruct D; cbn;
    repeat (rewrite lookup_insert_eq || (rewrite lookup_insert_ne by done)); cbn; by rewrite E0, E1, E2.
Qed.
Lemma load_store_other d D w : load56 (store56 d D w) (other D) = load56 d (other D).
Proof.
  destruct w as [[d0 d1] d2]. unfold load56, store56, getr, setr. cbn.
  destruct D; cbn; by rewrite !lookup_insert_ne by done.
Qed.
Lemma store_reg d D w n : n = DSP_REG_SR \/ DSP_REG_X0 <= n <= DSP_REG_Y1 -> getr (store56 d D w) n = getr d n.
Proof.
  destruct w as [[d0 d1] d2]. unfold store56, getr, setr. cbn. unfold DSP_REG_SR, DSP_REG_X0, DSP_REG_Y1. intros Hn.
  by rewrite !lookup_insert_ne by (destruct D; cbn; unfold DSP_REG_A0, DSP_REG_A1, DSP_REG_A2, DSP_REG_B0, DSP_REG_B1, DSP_REG_B2; lia).
Qed.
Lemma store_scaling d D w : scaling_ok d -> scaling_ok (store56 d D w).
Proof. unfold scaling_ok. by rewrite store_reg by (by left). Qed.
Lemma store_sr_bit d D w n : sr_bit (store56 d D w) n = sr_bit d n.
Proof. unfold sr_bit. by rewrite store_reg by (by left). Qed.
Lemma store_bits d D w d' l : bits (store56 d D w) d' l -> bits d d' l.
Proof. intros Hb n Hn. by rewrite Hb, store_sr_bit. Qed.
Lemma store_only d D w : (forall n, n ∉ [accu0 D; accu1 D; accu2 D] -> getr (store56 d D w) n = getr d n)
  /\ store56 d D w = d <| registers := registers (store56 d D w) |>.
Proof.
  destruct w as [[w0 w1] w2]. split; [|done]. intros n Hn. rewrite !not_elem_of_cons in Hn.
  unfold store56, getr, setr. cbn. by rewrite !lookup_insert_ne by naive_solver.
Qed.

(** A stored result and status bits make what an operation has to meet. *)
Lemma meets_store d (m : meaning) w d' : limbs w -> sr_only (store56 d (dest m) w) d' ->
  sgn56 w = swrap 56 (result m d) -> bits (store56 d (dest m) w) d' (flags m d) -> meets d m d'.
Proof.
  intros Hl Hs Hv Hb. unfold meets, num56. destruct (store_only d (dest m) w) as [Hg Hr].
  rewrite (sr_only_load56 _ _ _ Hs), load_store by done. destruct Hs as [Hs Hr'].
  split_and!; [done..|by eapply store_bits| |].
  - intros n H1 H2. by rewrite Hs, Hg.
  - rewrite Hr', Hr. done.
Qed.

(** Where E, U, N and Z tell of the result. *)
Lemma meets_result d D r c v l w d' : limbs w -> sr_only (store56 d D w) d' -> sgn56 w = swrap 56 (r d) ->
  bits (store56 d D w) d' (lvc_bits (store56 d D w) (l d) (v d) (c d) ++ value_bits (store56 d D w) (sgn56 w)) ->
  meets d {| dest := D; result := r; seen := Some r; flag_c := c; flag_v := v; flag_l := l |} d'.
Proof.
  intros Hl Hs Hv Hb. apply (meets_store d _ w); [done..|]. unfold flags. cbn [seen flag_c flag_v flag_l dest].
  rewrite <- Hv. unfold lvc_bits, value_bits, scale_bit in *. rewrite store_sr_bit, store_reg in Hb by (by left).
  exact Hb.
Qed.

(** Equal modulo [2 ^ 56]. *)
Lemma sgn56_is w x k : val56 w = x mod 2 ^ 56 -> forall v, x = v + k * 2 ^ 56 -> sgn56 w = swrap 56 v.
Proof.
  intros Hv v ->. rewrite Z_mod_plus_full in Hv. unfold sgn56, swrap. rewrite Hv, Z.mod_mod by lia. done.
Qed.
Lemma val_sgn w : exists k, val56 w = sgn56 w + k * 2 ^ 56.
Proof.
  unfold sgn56, swrap. pose proof (Z.div_mod (val56 w) (2 ^ 56) ltac:(lia)) as E.
  case_match; [exists (val56 w / 2 ^ 56)|exists (val56 w / 2 ^ 56 + 1)]; lia.
Qed.

Lemma tst_23 h : in_uw 24 h -> tst h (bit 23) = (2 ^ 23 <=? h).
Proof.
  unfold in_uw. intros Hh. unfold tst, bit. change (Z.shiftl 1 23) with 0x800000.
  rewrite (land_GET_MASK h _ 23 1), (GET_MASK_arith h _ 23 1) by bitfield.
  destruct (Z.leb_spec (2 ^ 23) h).
  - replace (h / 2 ^ 23) with 1 by dlia. done.
  - rewrite Z.div_small by lia. done.
Qed.

(** A word of 24 bits above another as an accumulator. *)
Lemma extended h l : in_uw 24 h -> in_uw 24 l ->
  limbs (sign_ext h, h, l) /\ sgn56 (sign_ext h, h, l) = swrap 24 h * 2 ^ 24 + l.
Proof.
  intros Hh Hl. unfold sign_ext. rewrite tst_23 by done.
  split; [case_match; split_and!; try done; by unfold in_uw|].
  unfold swrap at 1. rewrite Z.mod_small by apply Hh. change (2 ^ (24 - 1)) with (2 ^ 23).
  rewrite Z.ltb_antisym. unfold in_uw in *.
  destruct (Z.leb_spec (2 ^ 23) h); cbn [negb]; unfold sgn56, val56, swrap;
    rewrite Z.mod_small by lia; case_match; lia.
Qed.

(** Operands in the data registers. *)
Definition data_operand (S : operand) : Prop :=
  match S with
  | Accu _ => True
  | Pair hi lo => DSP_REG_X0 <= hi <= DSP_REG_Y1 /\ DSP_REG_X0 <= lo <= DSP_REG_Y1
  | Reg n => DSP_REG_X0 <= n <= DSP_REG_Y1
  end.

Lemma source_value d S : alu_wf d -> data_operand S ->
  limbs (source56 d S) /\ sgn56 (source56 d S) = value d S.
Proof.
  intros Hw HS. destruct S as [D|hi lo|n]; cbn [source56 value data_operand] in *.
  - split; [apply Hw|done].
  - destruct HS as [Hh Hl]. apply (wf_data _ Hw) in Hh, Hl. by apply extended.
  - apply (wf_data _ Hw) in HS. rewrite <- (Z.add_0_r (num24 d n * 2 ^ 24)). by apply extended.
Qed.

(** ** Operations *)

Definition does (f : dsp_core_t X -> res (dsp_core_t X)) (m : meaning) : Prop :=
  forall d, alu_wf d -> exists d', f d = Ok d' /\ meets d m d'.

Lemma b2z_01 b : Z.b2z b = 0 \/ Z.b2z b = 1.
Proof. destruct b; auto. Qed.

Lemma sgn_fixed w : limbs w -> swrap 56 (sgn56 w) = sgn56 w.
Proof.
  intros Hl. destruct (val_sgn w) as [k Ek]. symmetry. apply (sgn56_is w (val56 w) k); [|done].
  symmetry. apply Z.mod_small. by apply val56_range.
Qed.

Lemma swrap_mod x y : x mod 2 ^ 56 = y mod 2 ^ 56 -> swrap 56 x = swrap 56 y.
Proof. unfold swrap. by intros ->. Qed.
Lemma swrap_mod_id x : swrap 56 x mod 2 ^ 56 = x mod 2 ^ 56.
Proof.
  unfold swrap. case_match; [by rewrite Z.mod_mod by lia|].
  rewrite <- (Z_mod_plus_full _ 1). rewrite Z.mul_1_l, Z.sub_add. by rewrite Z.mod_mod by lia.
Qed.
Lemma sgn_mod w : limbs w -> sgn56 w mod 2 ^ 56 = val56 w.
Proof. intros Hl. unfold sgn56. rewrite swrap_mod_id. apply Z.mod_small. by apply val56_range. Qed.

(** One addition or subtraction: [f] on integers, with the carry [co]. *)
Record is_add56 (op : w56 -> w56 -> Z * w56) (f : Z -> Z -> Z) (co : Z -> Z -> bool) : Prop := {
  add56_wrap : forall x y, swrap 56 (f (swrap 56 x) y) = swrap 56 (f x y);
  add56_zero : forall x, f x 0 = x /\ co x 0 = false;
  add56_sgn : forall s d : w56, limbs s -> limbs d -> exists sr r, op s d = (sr, r) /\ limbs r
    /\ sgn56 r = swrap 56 (f (sgn56 d) (sgn56 s))
    /\ is_lvc sr (ovf (f (sgn56 d) (sgn56 s))) (ovf (f (sgn56 d) (sgn56 s))) (co (sgn56 d) (sgn56 s))
}.

Lemma add_is_add56 : is_add56 dsp_add56 Z.add carry_out.
Proof.
  split.
  - intros x y. apply swrap_mod. by rewrite Z.add_mod, swrap_mod_id, <- Z.add_mod by lia.
  - intros x. unfold carry_out. pose proof (Z.mod_pos_bound x (2 ^ 56)). change (0 mod 2 ^ 56) with 0. lia.
  - intros s d Hs Hd. pose proof (dsp_add56_correct s d Hs Hd) as Hc.
    destruct (dsp_add56 s d) as [sr r]. destruct Hc as (Hl & Hv & v & -> & ->).
    do 2 eexists. split; [done|]. split; [done|]. split.
    + unfold sgn56 at 1. rewrite Hv. apply swrap_mod. rewrite Z.mod_mod, <- (sgn_mod s), <- (sgn_mod d) by done || lia.
      by rewrite <- Z.add_mod by lia.
    + unfold carry_out. rewrite !sgn_mod by done.
      replace ((val56 d + val56 s) / 2 ^ 56) with (Z.b2z (2 ^ 56 <=? val56 d + val56 s)); [apply newsr_is_lvc|].
      pose proof (val56_range _ Hs). pose proof (val56_range _ Hd).
      destruct (Z.leb_spec (2 ^ 56) (val56 d + val56 s)); cbn [Z.b2z]; dlia.
Qed.
Lemma sub_is_add56 : is_add56 dsp_sub56 Z.sub borrow.
Proof.
  split.
  - intros x y. apply swrap_mod. by rewrite Zminus_mod, swrap_mod_id, <- Zminus_mod.
  - intros x. unfold borrow. pose proof (Z.mod_pos_bound x (2 ^ 56)). change (0 mod 2 ^ 56) with 0. lia.
  - intros s d Hs Hd. pose proof (dsp_sub56_correct s d Hs Hd) as Hc.
    destruct (dsp_sub56 s d) as [sr r]. destruct Hc as (Hl & Hv & v & -> & ->).
    do 2 eexists. split; [done|]. split; [done|]. split.
    + unfold sgn56 at 1. rewrite Hv. apply swrap_mod. rewrite Z.mod_mod, <- (sgn_mod s), <- (sgn_mod d) by done || lia.
      by rewrite <- Zminus_mod.
    + unfold borrow. rewrite !sgn_mod by done. apply newsr_is_lvc.
Qed.

Lemma wf_scaling_ok d : alu_wf d -> scaling_ok d.
Proof. apply wf_scaling. Qed.

#[local] Hint Resolve store_scaling wf_scaling_ok ccr_sr_only : core.

Lemma does_binary op f co o D : is_add56 op f co -> data_operand o -> does (emu_binary op o D) (binary D f co o).
Proof.
  intros Ho Hd d Hw. destruct (source_value d o Hw Hd) as [Hs Ev]. unfold emu_binary.
  destruct (add56_sgn _ _ _ Ho _ _ Hs (wf_accu _ Hw D)) as (sr & r & -> & Hl & Er & Hi). rewrite Ev in *.
  eexists. split; [done|]. apply (meets_result d D _ _ _ _ r); [done| |done|].
  - unfold set_flags. auto.
  - apply (flags_after _ true); auto.
Qed.

Lemma ovf_wrapped x : ovf (swrap 56 x) = false.
Proof.
  unfold ovf, in_s56, swrap. pose proof (Z.mod_pos_bound x (2 ^ 56)). change (2 ^ (56 - 1)) with (2 ^ 55).
  case_match; lia.
Qed.

Lemma carry_bit d : bit_of (getr d DSP_REG_SR) DSP_SR_C = carry d.
Proof. rewrite bit_of_arith by done. unfold carry, sr_bit. by rewrite Z.testbit_spec'. Qed.

Lemma limbs_1 : limbs (0, 0, 1).
Proof. by split_and!. Qed.

Lemma does_with_carry op f co o D : is_add56 op f co -> data_operand o ->
  does (emu_with_carry op o D) (with_carry D f co o).
Proof.
  intros Ho Hd d Hw. destruct (source_value d o Hw Hd) as [Hs Ev]. unfold emu_with_carry.
  destruct (add56_sgn _ _ _ Ho _ _ Hs (wf_accu _ Hw D)) as (sr & r & -> & Hl & Er & Hi). rewrite Ev in *.
  rewrite carry_bit. destruct (sr_bit d DSP_SR_C) eqn:Ec; unfold carry; rewrite Ec; cbn [Z.b2z Z.eqb negb].
  - destruct (add56_sgn _ _ _ Ho _ _ limbs_1 Hl) as (sr' & r' & -> & Hl' & Er' & Hi').
    change (sgn56 (0, 0, 1)) with 1 in *. eexists. split; [done|].
    apply (meets_result d D _ _ _ _ r'); [done|unfold set_flags; auto| |]; unfold carry; rewrite Ec; cbn [Z.b2z].
    + rewrite Er', Er. apply (add56_wrap _ _ _ Ho).
    + apply (flags_after _ true); [auto..|]. unfold num56. rewrite <- Er. by apply lor_is_lvc.
  - eexists. split; [done|]. apply (meets_result d D _ _ _ _ r); [done|unfold set_flags; auto| |];
      unfold carry; rewrite Ec; cbn [Z.b2z]; rewrite ?(proj1 (add56_zero _ _ _ Ho _)); [done|].
    rewrite (proj2 (add56_zero _ _ _ Ho _)), ovf_wrapped, !orb_false_r. apply (flags_after _ true); auto.
Qed.

(** Shifts by one. *)
Definition is_shift (shift : w56 -> Z -> res (Z * w56)) (s : shift_meaning) : Prop :=
  forall w, limbs w -> exists sr r, shift w 1 = Ok (sr, r) /\ limbs r /\ sgn56 r = swrap 56 (sh s (sgn56 w))
    /\ is_lvc sr (sh_l s (sgn56 w)) (sh_v s (sgn56 w)) (sh_c s (sgn56 w)).

Lemma sgn_cases w : limbs w ->
  (sgn56 w = val56 w /\ val56 w < 2 ^ 55) \/ (sgn56 w = val56 w - 2 ^ 56 /\ 2 ^ 55 <= val56 w).
Proof.
  intros Hl. unfold sgn56, swrap. rewrite Z.mod_small by (by apply val56_range).
  change (2 ^ (56 - 1)) with (2 ^ 55). case_match; lia.
Qed.

Lemma asl_is_shift : is_shift dsp_asl56 left_one.
Proof.
  intros w Hl. destruct (dsp_asl56_correct w 1 Hl ltac:(lia)) as (l & v & c & r & E & Hr & Hv & -> & -> & ->).
  pose proof (val56_range w Hl) as Hw. change (56 - 1) with 55 in *. change (2 ^ 1) with 2 in *.
  assert (Er : sgn56 r = swrap 56 (2 * sgn56 w)).
  { destruct (val_sgn w) as [k Ek]. apply (sgn56_is r _ (2 * k) Hv). rewrite Ek. lia. }
  do 2 eexists. split; [done|]. split; [done|]. split; [done|]. cbn [sh_c sh_v sh_l left_one].
  destruct (sgn_cases w Hl) as [[Es Hs]|[Es Hs]].
  - replace (val56 w / 2 ^ 55) with 0 by dlia. rewrite (proj2 (Z.ltb_ge (sgn56 w) 0)) by lia.
    replace (negb (Bool.eqb false (sgn56 r <? 0))) with (ovf (2 * sgn56 w)); [apply (newsr_is_lvc false _ false)|].
    rewrite Er. unfold ovf, in_s56, swrap. change (2 ^ (56 - 1)) with (2 ^ 55). rewrite Z.mod_small by lia.
    case_match; lia.
  - replace (val56 w / 2 ^ 55) with 1 by dlia. rewrite (proj2 (Z.ltb_lt (sgn56 w) 0)) by lia.
    replace (negb (Bool.eqb true (sgn56 r <? 0))) with (ovf (2 * sgn56 w)); [apply (newsr_is_lvc true _ true)|].
    rewrite Er. unfold ovf, in_s56, swrap. change (2 ^ (56 - 1)) with (2 ^ 55).
    destruct (Z.ltb_spec ((2 * sgn56 w) mod 2 ^ 56) (2 ^ 55)); dlia.
Qed.
Lemma asr_is_shift : is_shift dsp_asr56 right_one.
Proof.
  intros w Hl. destruct (dsp_asr56_correct w 1 Hl ltac:(lia)) as (r & E & Hr & Hv).
  do 2 eexists. split; [done|]. split; [done|]. cbn [sh sh_c sh_v sh_l right_one]. split.
  - unfold halved, sgn56 at 1. f_equal. rewrite sgn_mod by done. exact Hv.
  - replace (val56 w / 2 ^ (1 - 1) mod 2) with (newsr_lvc 0 0 (Z.b2z (Z.odd (sgn56 w)))); [apply (newsr_is_lvc false false)|].
    rewrite Z.div_1_r. destruct (val_sgn w) as [k ->].
    replace (k * 2 ^ 56) with (k * 2 ^ 55 * 2) by ring. rewrite Z_mod_plus_full, Zmod_odd.
    by destruct (Z.odd _).
Qed.

Lemma does_shifted shift s op f co D : is_shift shift s -> is_add56 op f co ->
  does (emu_shifted shift op D) (shifted D s f co (Accu (other D))).
Proof.
  intros Hsh Ho d Hw. unfold emu_shifted.
  destruct (Hsh (load56 d D) (wf_accu _ Hw D)) as (sr & r & -> & Hl & Er & Hi). cbn [mbind res_mbind res_bind].
  destruct (add56_sgn _ _ _ Ho _ _ (wf_accu _ Hw (other D)) Hl) as (sr' & r' & -> & Hl' & Er' & Hi').
  eexists. split; [done|]. apply (meets_result d D _ _ _ _ r'); [done|unfold set_flags; auto| |].
  - rewrite Er', Er. apply (add56_wrap _ _ _ Ho).
  - rewrite Er in Hi'. apply (flags_after _ true); [auto..|]. by apply lor_is_lvc.
Qed.

Lemma does_shift shift s D : is_shift shift s -> does (emu_shift shift D) (shift_only D s).
Proof.
  intros Hsh d Hw. unfold emu_shift.
  destruct (Hsh (load56 d D) (wf_accu _ Hw D)) as (sr & r & -> & Hl & Er & Hi). cbn [mbind res_mbind res_bind].
  eexists. split; [done|]. apply (meets_result d D _ _ _ _ r); [done| |done|].
  - eapply sr_only_trans; [|apply ccr_sr_only]. auto.
  - apply (flags_before _ true); auto.
Qed.

(** An operation that only sets status bits. *)
Lemma meets_same d (m : meaning) d' : alu_wf d -> sr_only d d' -> result m d = num56 d (dest m) ->
  bits d d' (flags m d) -> meets d m d'.
Proof.
  intros Hw Hs Hr Hb. unfold meets, num56. rewrite (sr_only_load56 _ _ _ Hs), Hr. unfold num56.
  rewrite sgn_fixed by apply Hw. destruct Hs as [Hs Hd]. split_and!; [apply Hw|done..| |done].
  intros n Hn _. by apply Hs.
Qed.

(** Comparisons. *)
Lemma does_compared d D x y s t : alu_wf d -> limbs s -> limbs t -> sgn56 t = x d -> sgn56 s = y d ->
  let '(newsr, w) := dsp_sub56 s t in meets d (compared D x y) (set_flags d w newsr).
Proof.
  intros Hw Hs Ht Ex Ey.
  destruct (add56_sgn _ _ _ sub_is_add56 s t Hs Ht) as (sr & r & -> & Hl & Er & Hi). rewrite Ex, Ey in *.
  apply meets_same; [done|unfold set_flags; auto|done|]. unfold flags. cbn [seen compared flag_c flag_v flag_l].
  rewrite <- Er. apply (flags_after _ true); auto.
Qed.

Lemma does_cmp o D : data_operand o ->
  does (emu_cmp o D) (compared D (fun d => num56 d D) (fun d => value d o)).
Proof.
  intros Hd d Hw. destruct (source_value d o Hw Hd) as [Hs Ev]. unfold emu_cmp.
  pose proof (does_compared d D (fun d => num56 d D) (fun d => value d o) _ _ Hw Hs (wf_accu _ Hw D)
    eq_refl Ev) as Hm. destruct (dsp_sub56 _ _) as [sr r]. eauto.
Qed.

(** Moves and the sign of what is there. *)
Lemma meets_plain d D r w : limbs w -> sgn56 w = r d -> meets d (plain D r) (store56 d D w).
Proof.
  intros Hl Hv. apply (meets_store d _ w); [done|auto| |].
  - cbn [result plain]. rewrite <- Hv. symmetry. by apply sgn_fixed.
  - pose proof (kept_flags (store56 d D w)) as Hk. unfold flags, lvc_bits in *. rewrite !store_sr_bit in Hk.
    exact Hk.
Qed.
Lemma does_tfr_accu D : does (emu_tfr_accu D) (plain D (fun d => value d (Accu (other D)))).
Proof. intros d Hw. eexists. split; [done|]. apply meets_plain; [apply Hw|done]. Qed.
Lemma does_tfr n D : DSP_REG_X0 <= n <= DSP_REG_Y1 -> does (emu_tfr n D) (plain D (fun d => value d (Reg n))).
Proof.
  intros Hn d Hw. destruct (source_value d (Reg n) Hw Hn) as [Hl Ev]. eexists. split; [done|].
  by apply (meets_plain d D _ (source56 d (Reg n))).
Qed.
Lemma does_move : does emu_move (plain AccA (fun d => num56 d AccA)).
Proof. intros d Hw. eexists. split; [done|]. apply meets_same; auto. apply kept_flags. Qed.

(** 0 has no sign bits to lose, at any scale. *)
Lemma zero_bits d : value_bits d 0 = four true false true false.
Proof. unfold value_bits. rewrite scale_bit_sr. by repeat case_match. Qed.

Lemma does_clr D : does (emu_clr D) (flagged D (fun d => 0) never never).
Proof.
  intros d Hw. eexists. split; [done|]. apply (meets_result d D _ _ _ _ (0, 0, 0)); [by split_and!|auto|done|].
  change (sgn56 (0, 0, 0)) with 0. rewrite zero_bits. unfold old_c, never. rewrite <- (store_sr_bit d D (0, 0, 0)).
  each_bit; rewrite sr_bit_or, sr_bit_clear by done; bits_done.
Qed.
Lemma does_tst D : does (emu_tst D) (flagged D (fun d => num56 d D) never never).
Proof.
  intros d Hw. eexists. split; [done|]. apply meets_same; [done|auto|done|]. unfold flags.
  cbn [seen flagged flag_c flag_v flag_l]. unfold num56. rewrite sgn_fixed by apply Hw.
  apply cleared_after; [apply Hw|auto].
Qed.

(** [ref_round] does not see a multiple of [2 ^ 56]. *)
Lemma round_shift k v j : 0 < k < 55 -> ref_round k (v + j * 2 ^ 56) = ref_round k v + j * 2 ^ 56.
Proof.
  intros Hk. unfold ref_round.
  assert (E : 2 ^ 56 = 2 * 2 ^ (55 - k) * 2 ^ k).
  { rewrite <- Z.pow_succ_r, <- Z.pow_add_r by lia. f_equal. lia. }
  assert (0 < 2 ^ k) by lia. set (p := 2 ^ (55 - k)) in *.
  replace (v + j * 2 ^ 56) with (v + (j * (2 * p)) * 2 ^ k) by (rewrite E; ring).
  rewrite Z.div_add, Z_mod_plus_full by lia.
  replace (v / 2 ^ k + j * (2 * p)) with (v / 2 ^ k + 2 * (j * p)) by ring. rewrite Z.even_add_mul_2.
  case_match; rewrite E; ring.
Qed.
Lemma round_bit_range sr : 0 < round_bit sr < 55.
Proof. unfold round_bit. repeat case_match; lia. Qed.

Lemma rnd_sgn sr w : limbs w -> limbs (dsp_rnd56 sr w)
  /\ sgn56 (dsp_rnd56 sr w) = swrap 56 (ref_round (round_bit sr) (sgn56 w)).
Proof.
  intros Hl. destruct (dsp_rnd56_correct sr w Hl) as [Hr Hv]. split; [done|].
  destruct (val_sgn w) as [k Ek]. apply (sgn56_is _ _ k Hv). rewrite Ek. apply round_shift, round_bit_range.
Qed.

(** [ref_round] of a wrapped value. *)
Lemma round_wrap sr v : swrap 56 (ref_round (round_bit sr) (swrap 56 v)) = swrap 56 (ref_round (round_bit sr) v).
Proof.
  apply swrap_mod. pose proof (swrap_mod_id v) as E.
  pose proof (Z.div_mod v (2 ^ 56) ltac:(lia)) as D1. pose proof (Z.div_mod (swrap 56 v) (2 ^ 56) ltac:(lia)) as D2.
  replace (swrap 56 v) with (v + (swrap 56 v / 2 ^ 56 - v / 2 ^ 56) * 2 ^ 56) by lia.
  rewrite round_shift by apply round_bit_range. apply Z_mod_plus_full.
Qed.

Lemma does_rnd D : does (emu_rnd D) (flagged D (fun d => rounded d (num56 d D)) old_v never).
Proof.
  intros d Hw. destruct (rnd_sgn (getr d DSP_REG_SR) (load56 d D) (wf_accu _ Hw D)) as [Hl Er].
  eexists. split; [done|]. apply (meets_result d D _ _ _ _ (dsp_rnd56 (getr d DSP_REG_SR) (load56 d D))); [done|auto|done|].
  unfold old_v, old_c. rewrite <- !(store_sr_bit d D (dsp_rnd56 (getr d DSP_REG_SR) (load56 d D))).
  eapply bits_app; [apply kept_flags|]. apply ccr_bits; auto.
Qed.

(** Opposite and absolute value. *)
Lemma neg_sgn w : limbs w -> limbs (dsp_sub56 w (0, 0, 0)).2
  /\ sgn56 (dsp_sub56 w (0, 0, 0)).2 = swrap 56 (- sgn56 w).
Proof.
  intros Hl. assert (H0 : limbs (0, 0, 0)) by by split_and!.
  destruct (add56_sgn _ _ _ sub_is_add56 w (0, 0, 0) Hl H0) as (sr & r & -> & Hr & Er & _). done.
Qed.
Lemma tst_7 w0 w1 w2 : limbs (w0, w1, w2) -> tst w0 (bit 7) = (sgn56 (w0, w1, w2) <? 0).
Proof.
  intros Hl. unfold tst, bit. change (Z.shiftl 1 7) with 0x80.
  rewrite (land_GET_MASK w0 _ 7 1), (GET_MASK_arith w0 _ 7 1) by bitfield.
  change (2 ^ 1) with 2. destruct (sgn56_bit _ _ _ Hl) as (-> & Hb & Hv).
  destruct Hb as [Hb|Hb]; rewrite Hb in *; unfold val56 in *; arith_limbs; lia.
Qed.
Lemma abs_sgn w : limbs w -> limbs (dsp_abs56 w).2 /\ sgn56 (dsp_abs56 w).2 = swrap 56 (Z.abs (sgn56 w)).
Proof.
  intros Hl. destruct w as [[w0 w1] w2]. cbn [dsp_abs56]. rewrite (tst_7 w0 w1 w2) by done.
  destruct (Z.ltb_spec (sgn56 (w0, w1, w2)) 0).
  - rewrite Z.abs_neq by lia. by apply neg_sgn.
  - rewrite Z.abs_eq by lia. split; [done|]. symmetry. by apply sgn_fixed.
Qed.

(** The one number without an opposite. *)
Lemma lowest w0 w1 w2 : limbs (w0, w1, w2) ->
  (w2 =? 0) && (w1 =? 0) && (w0 =? 0x80) = ovf (- sgn56 (w0, w1, w2))
  /\ ovf (- sgn56 (w0, w1, w2)) = ovf (Z.abs (sgn56 (w0, w1, w2))).
Proof.
  intros Hl. destruct (sgn_cases _ Hl) as [[E Hv]|[E Hv]]; rewrite E; unfold ovf, in_s56, val56 in *; arith_limbs;
    split; lia.
Qed.

(** The end of ABS and NEG. *)
Lemma does_overflowed d D w r v : alu_wf d -> limbs w -> sgn56 w = swrap 56 (r d) ->
  meets d (flagged D r v v) (emu_ccr_update_e_u_n_z
    (sr_or (sr_clear (store56 d D w) (bit DSP_SR_V)) (newsr_lvc (Z.b2z (v d)) (Z.b2z (v d)) 0)) w).
Proof.
  intros Hw Hl Er. apply (meets_result d D _ _ _ _ w); [done| |done|].
  - eapply sr_only_trans; [|apply ccr_sr_only]. auto.
  - pose proof (flags_before (store56 d D w) false w _ _ _ _ Hl (store_scaling d D w (wf_scaling_ok d Hw))
      (newsr_is_lvc (v d) (v d) false)) as Hf.
    rewrite orb_false_r in Hf. unfold old_c. rewrite <- (store_sr_bit d D w). exact Hf.
Qed.

Lemma does_abs D : let v d := ovf (Z.abs (num56 d D)) in
  does (emu_abs D) (flagged D (fun d => Z.abs (num56 d D)) v v).
Proof.
  intros v d Hw. destruct (abs_sgn (load56 d D) (wf_accu _ Hw D)) as [Hl Er].
  eexists. split; [done|]. destruct (lowest _ _ _ (wf_accu _ Hw D)) as [-> ->].
  exact (does_overflowed d D _ _ v Hw Hl Er).
Qed.
Lemma does_neg D : let v d := ovf (- num56 d D) in does (emu_neg D) (flagged D (fun d => - num56 d D) v v).
Proof.
  intros v d Hw. destruct (neg_sgn (load56 d D) (wf_accu _ Hw D)) as [Hl Er].
  eexists. split; [done|]. destruct (lowest _ _ _ (wf_accu _ Hw D)) as [-> _].
  exact (does_overflowed d D _ _ v Hw Hl Er).
Qed.

Lemma does_cmpm o D : data_operand o -> does (emu_cmpm o D)
  (compared D (fun d => swrap 56 (Z.abs (num56 d D))) (fun d => swrap 56 (Z.abs (value d o)))).
Proof.
  intros Hd d Hw. destruct (source_value d o Hw Hd) as [Hs Ev]. unfold emu_cmpm.
  destruct (abs_sgn _ Hs) as [Hs' Es], (abs_sgn _ (wf_accu _ Hw D)) as [Hd' Ed]. rewrite Ev in Es.
  pose proof (does_compared d D (fun d => swrap 56 (Z.abs (num56 d D))) (fun d => swrap 56 (Z.abs (value d o)))
    _ _ Hw Hs' Hd' Ed Es) as Hm. destruct (dsp_sub56 _ _) as [sr r]. eauto.
Qed.

(** ** Products *)

Definition sign (minus : bool) : Z := if minus then SIGN_MINUS else SIGN_PLUS.

Definition data_regs (s1 s2 : Z) : Prop :=
  DSP_REG_X0 <= s1 <= DSP_REG_Y1 /\ DSP_REG_X0 <= s2 <= DSP_REG_Y1.

Lemma mul_prod d s1 s2 g : alu_wf d -> data_regs s1 s2 ->
  exists r, dsp_mul56 (getr d s1) (getr d s2) (sign g) = Ok r /\ limbs r /\ sgn56 r = prod d s1 s2 g.
Proof.
  intros Hw [H1 H2].
  destruct (dsp_mul56_correct (getr d s1) (getr d s2) (sign g)) as (r & E & Hl & Er);
    [by apply Hw..|destruct g; auto|]. exists r. split_and!; [done..|]. rewrite Er. by destruct g.
Qed.

(** A product, rounded or not, is stored and V cleared. *)
Lemma does_product d D w r : alu_wf d -> limbs w -> sgn56 w = swrap 56 (r d) ->
  meets d (flagged D r never never) (sr_clear (emu_ccr_update_e_u_n_z (store56 d D w) w) (bit DSP_SR_V)).
Proof.
  intros Hw Hl Er. apply (meets_result d D _ _ _ _ w); [done|auto|done|].
  unfold old_c, never. rewrite <- (store_sr_bit d D w). apply cleared_after; auto.
Qed.
Lemma does_mpy s1 s2 g D : data_regs s1 s2 ->
  does (emu_mpy s1 s2 (sign g) D) (flagged D (fun d => prod d s1 s2 g) never never).
Proof.
  intros Hr d Hw. destruct (mul_prod d s1 s2 g Hw Hr) as (r & E & Hl & Er). unfold emu_mpy. rewrite E.
  eexists. split; [done|]. apply does_product; [done..|]. rewrite <- Er. symmetry. by apply sgn_fixed.
Qed.
Lemma does_mpyr s1 s2 g D : data_regs s1 s2 ->
  does (emu_mpyr s1 s2 (sign g) D) (flagged D (fun d => rounded d (prod d s1 s2 g)) never never).
Proof.
  intros Hr d Hw. destruct (mul_prod d s1 s2 g Hw Hr) as (r & E & Hl & Er). unfold emu_mpyr. rewrite E.
  destruct (rnd_sgn (getr d DSP_REG_SR) r Hl) as [Hl' Er'].
  eexists. split; [done|]. apply does_product; [done..|]. by rewrite Er', Er.
Qed.

(** A sum with a product: the status bits are those of the sum before it is rounded. *)
Lemma does_sum d D w r x sr v : alu_wf d -> limbs w -> sgn56 w = swrap 56 (r d) -> v d = ovf (x d) ->
  is_lvc sr (ovf (x d)) (ovf (x d)) (carry_out (num56 d D) (x d - num56 d D)) ->
  meets d (flagged D r v v)
    (sr_or (sr_clear (emu_ccr_update_e_u_n_z (store56 d D w) w) (bit DSP_SR_V)) (Z.land sr 0xfe)).
Proof.
  intros Hw Hl Er Ev Hi. apply (meets_result d D _ _ _ _ w); [done|auto|done|].
  pose proof (flags_after (store56 d D w) false w _ _ _ _ Hl (store_scaling d D w (wf_scaling_ok d Hw))
    (land_is_lvc _ _ _ _ Hi)) as Hf.
  rewrite orb_false_r in Hf. unfold old_c. rewrite Ev, <- (store_sr_bit d D w). exact Hf.
Qed.
Lemma does_mac s1 s2 g D : data_regs s1 s2 -> does (emu_mac s1 s2 (sign g) D) (meaning_of D (Mac s1 s2 g)).
Proof.
  intros Hr d Hw. destruct (mul_prod d s1 s2 g Hw Hr) as (r & E & Hl & Er). unfold emu_mac. rewrite E.
  cbn [mbind res_mbind res_bind].
  destruct (add56_sgn _ _ _ add_is_add56 r _ Hl (wf_accu _ Hw D)) as (sr & w & -> & Hlw & Ew & Hi).
  rewrite Er in *. eexists. split; [done|].
  apply (does_sum d D w _ (fun d => num56 d D + prod d s1 s2 g)); [done..|].
  replace (num56 d D + prod d s1 s2 g - num56 d D) with (prod d s1 s2 g) by lia. exact Hi.
Qed.
Lemma does_macr s1 s2 g D : data_regs s1 s2 -> does (emu_macr s1 s2 (sign g) D) (meaning_of D (Macr s1 s2 g)).
Proof.
  intros Hr d Hw. destruct (mul_prod d s1 s2 g Hw Hr) as (r & E & Hl & Er). unfold emu_macr. rewrite E.
  cbn [mbind res_mbind res_bind].
  destruct (add56_sgn _ _ _ add_is_add56 r _ Hl (wf_accu _ Hw D)) as (sr & w & -> & Hlw & Ew & Hi).
  rewrite Er in *. destruct (rnd_sgn (getr d DSP_REG_SR) w Hlw) as [Hl' Er']. eexists. split; [done|].
  apply (does_sum d D (dsp_rnd56 (getr d DSP_REG_SR) w) _ (fun d => num56 d D + prod d s1 s2 g)); [done|done| |done|].
  - rewrite Er', Ew. apply round_wrap.
  - replace (num56 d D + prod d s1 s2 g - num56 d D) with (prod d s1 s2 g) by lia. exact Hi.
Qed.

(** ** The table *)

(** The function that stands for an operation in the table. *)
Definition function_of (D : accu) (a : action) : dsp_core_t X -> res (dsp_core_t X) :=
  match a with
  | Move => emu_move
  | Tfr (Accu _) => emu_tfr_accu D
  | Tfr (Reg n) | Tfr (Pair n _) => emu_tfr n D
  | Add o => emu_add o D
  | Sub o => emu_sub o D
  | Adc o => emu_adc o D
  | Sbc o => emu_sbc o D
  | Addl _ => emu_addl D
  | Subl _ => emu_subl D
  | Addr _ => emu_addr D
  | Subr _ => emu_subr D
  | Asl => emu_asl D
  | Asr => emu_asr D
  | Abs => emu_abs D
  | Neg => emu_neg D
  | Clr => emu_clr D
  | Tst => emu_tst D
  | Rnd => emu_rnd D
  | Cmp o => emu_cmp o D
  | Cmpm o => emu_cmpm o D
  | Mpy s1 s2 g => emu_mpy s1 s2 (sign g) D
  | Mpyr s1 s2 g => emu_mpyr s1 s2 (sign g) D
  | Mac s1 s2 g => emu_mac s1 s2 (sign g) D
  | Macr s1 s2 g => emu_macr s1 s2 (sign g) D
  end.

Definition data_action (D : accu) (a : action) : Prop :=
  match a with
  | Add o | Sub o | Adc o | Sbc o | Cmp o | Cmpm o => data_operand o
  | Tfr (Accu D') => D' = other D
  | Tfr (Reg n) => data_operand (Reg n)
  | Tfr (Pair _ _) => False
  | Addl o | Subl o | Addr o | Subr o => o = Accu (other D)
  | Move => D = AccA
  | Mpy s1 s2 _ | Mpyr s1 s2 _ | Mac s1 s2 _ | Macr s1 s2 _ => data_regs s1 s2
  | _ => True
  end.

Lemma does_function D a : data_action D a -> does (function_of D a) (meaning_of D a).
Proof.
  pose proof add_is_add56 as Ha. pose proof sub_is_add56 as Hs. pose proof asl_is_shift as Hl.
  pose proof asr_is_shift as Hr.
  destruct a as [|o|o|o|o|o|o|o|o|o| | | | | | | |o|o|s1 s2 g|s1 s2 g|s1 s2 g|s1 s2 g];
    cbn [data_action function_of]; intros Hd; try subst.
  all: try (by apply does_mac); try (by apply does_macr); cbn [meaning_of].
  - apply does_move.
  - destruct o; [subst; apply does_tfr_accu|done|by apply does_tfr].
  - by apply does_binary.
  - by apply does_binary.
  - by apply does_with_carry.
  - by apply does_with_carry.
  - by apply does_shifted.
  - by apply does_shifted.
  - by apply does_shifted.
  - by apply does_shifted.
  - by apply does_shift.
  - by apply does_shift.
  - apply does_abs.
  - apply does_neg.
  - apply does_clr.
  - apply does_tst.
  - apply does_rnd.
  - by apply does_cmp.
  - by apply does_cmpm.
  - by apply does_mpy.
  - by apply does_mpyr.
Qed.

(** What the emulator does for a code: MACR +X1,Y0,B does not round. *)
Definition emulated (c : Z) (a : action) : action :=
  if c =? 0xEB then Mac DSP_REG_X1 DSP_REG_Y0 false else a.

Definition entry_ok (c : Z) : Prop :=
  match decode c with
  | None => True
  | Some a => data_action (accu_of_code c) (emulated c a)
      /\ opcodes_alu !! Z.to_nat c = Some (function_of (accu_of_code c) (emulated c a))
  end.

#[local] Ltac table_entry :=
  unfold entry_ok;
  match goal with |- match ?x with _ => _ end => let y := eval vm_compute in x in change x with y end;
  first [exact I | split; [cbn; try done; split; done|reflexivity]].

Lemma alu_table_ok : Forall entry_ok (zseq 256).
Proof.
  let l := eval vm_compute in (zseq 256) in change (zseq 256) with l.
  repeat (apply Forall_cons_2; [table_entry|]). apply Forall_nil_2.
Qed.

(** C6. The operation codes of the ALU mean what their bit fields say.  For every instruction
    word whose low byte is the code of an arithmetic operation, with the scaling mode not the
    reserved one, the destination accumulator gets the sum, difference, product and so on of the
    operands that the fields name, computed on signed integers and wrapped to 56 bits.  The
    sixteen bits of the status register are those of [flags]: N and Z are the sign of the wrapped
    value (of the wrapped difference, for a comparison) and E and U its extension bits at the
    scaling mode; V and L of an addition or subtraction tell whether the exact value is out of
    range and C is its carry or borrow; where an operation is done in two steps (ADC, SBC, ADDL,
    ADDR, SUBL, SUBR) each of them can set C, V and L; bits that an operation does not concern
    keep their value.  No other register and nothing else of the core changes.  Three things are
    the emulator's and not the chip's: the code of MACR +X1,Y0,B does what MAC does, a shift to the right
    (ASR, ADDR, SUBR) brings in a 0 instead of the sign, and a shift to the left sets L for every
    negative number. *)
Theorem alu_arithmetic d c a : c = Z.land (cur_inst d) (BITMASK 8) -> alu_wf d -> decode c = Some a ->
  exists d', alu d = Ok d' /\ meets d (meaning_of (accu_of_code c) (emulated c a)) d'.
Proof.
  intros Ec Hw Ha. assert (Hc : 0 <= c < 256).
  { rewrite Ec, land_BITMASK by lia. apply Z.mod_pos_bound. lia. }
  pose proof (proj1 (Forall_forall _ _) alu_table_ok c) as He.
  specialize (He (proj2 (elem_of_zseq 256 c) Hc)). unfold entry_ok in He. rewrite Ha in He. destruct He as [Hd Ht].
  unfold alu. rewrite <- Ec. unfold aget.
  rewrite (proj2 (Z.ltb_ge c 0)) by lia. rewrite Ht. cbn [mbind res_mbind res_bind].
  by apply does_function.
Qed.

End Spec.

End DspAluSpec.
