(* ===== verification/DspSafety.v ===== *)
(** * Every DSP program stays inside the interpreter (theorems about DspCpu)

    Executing an instruction never reads or writes outside an array of the core, whatever the
    program, keeps the pending interrupts counted and the two instruction caches coherent with
    the program memory, and leaves the interrupt pipeline to the code after the instruction. *)

From S2P Require Import Prelude DspCore DspArith DspAlu DspMove DspEmu DspCpu.
Import DspCore DspArith DspAlu DspMove DspEmu DspCpu.

Module DspSafety.

(** ** Results without a bad fault

    An assertion may fail, and a peripheral may not come back.  A loop of the interpreter that
    does not end is a bad fault. *)

Section Results.

Definition benign (f : fault) : Prop := f = AssertFail \/ f = Hang.

Definition ok_res {A} (P : A -> Prop) (m : res A) : Prop :=
  match m with Ok a => P a | Fault f => benign f end.

Lemma ok_bind {A B} (P : A -> Prop) (Q : B -> Prop) (m : res A) (k : A -> res B) :
  ok_res P m -> (forall a, P a -> ok_res Q (k a)) -> ok_res Q (m ≫= k).
Proof. destruct m; cbn; auto. Qed.

Lemma ok_mono {A} (P Q : A -> Prop) (m : res A) : ok_res P m -> (forall a, P a -> Q a) -> ok_res Q m.
Proof. destruct m; cbn; auto. Qed.

Lemma ok_assert b : ok_res (fun _ => b = true) (c_assert b).
Proof. destruct b; cbn; [done|by left]. Qed.

Lemma ok_switch {A} (P : A -> Prop) x cases dflt :
  Forall (fun c => ok_res P c.2) cases -> ok_res P dflt -> ok_res P (switch x cases dflt).
Proof. intros Hc Hd. apply switch_ind; [|done]. eapply Forall_impl; [done|]. auto. Qed.

(** ** Indices *)

Lemma dsp_field_range v i k : 0 <= k -> 0 <= field v i k < 2 ^ k.
Proof. intros. unfold field. rewrite land_BITMASK by done. apply Z.mod_pos_bound. lia. Qed.

Lemma mask_range v k : 0 <= k -> 0 <= Z.land v (BITMASK k) < 2 ^ k.
Proof. intros. rewrite land_BITMASK by done. apply Z.mod_pos_bound. lia. Qed.

Lemma ok_arr_at n a i : 0 <= i < n -> ok_res (fun _ => True) (arr_at n a i).
Proof.
  intros. unfold arr_at. by rewrite (proj2 (Z.leb_le _ _)), (proj2 (Z.ltb_lt _ _)) by lia.
Qed.

Lemma ok_arr_set n a i v : 0 <= i < n -> ok_res (fun a' => a' = <[i := u32 v]> a) (arr_set n a i v).
Proof.
  intros. unfold arr_set. by rewrite (proj2 (Z.leb_le _ _)), (proj2 (Z.ltb_lt _ _)) by lia.
Qed.

Lemma ok_aget {A} (P : A -> Prop) l i : Forall P l -> 0 <= i < Z.of_nat (length l) -> ok_res P (aget l i).
Proof.
  intros Hl Hi. destruct (aget_ok l i Hi) as (x & -> & Hx). cbn. by eapply Forall_lookup_1.
Qed.

End Results.

(** ** Counting pending interrupts *)

(** Number of pending interrupts. *)
Definition pending_count (p : gmap Z Z) : Z :=
  foldr (fun i n => default 0 (p !! i) + n) 0 (zseq 12).

(** Pending marks are 0 or 1 and are counted. *)
Definition counted (p : gmap Z Z) (n : Z) : Prop :=
  (forall i, default 0 (p !! i) = 0 \/ default 0 (p !! i) = 1) /\ n = pending_count p.

Lemma sum_insert (p : gmap Z Z) i v l : NoDup l ->
  foldr (fun j n => default 0 (<[i := v]> p !! j) + n) 0 l
  = foldr (fun j n => default 0 (p !! j) + n) 0 l
    + if decide (i ∈ l) then v - default 0 (p !! i) else 0.
Proof.
  induction 1 as [|j l Hj Hl IH]; [by rewrite decide_False by set_solver|]. cbn [foldr]. rewrite IH.
  destruct (decide (i = j)) as [->|Hn].
  - rewrite lookup_insert_eq, (decide_True (P := j ∈ j :: l)) by set_solver.
    rewrite decide_False by done. cbn. lia.
  - rewrite lookup_insert_ne by done. destruct (decide (i ∈ l)).
    + rewrite decide_True by set_solver. lia.
    + rewrite decide_False by set_solver. lia.
Qed.

Lemma pending_count_insert p i v : 0 <= i < 12 ->
  pending_count (<[i := v]> p) = pending_count p - default 0 (p !! i) + v.
Proof.
  intros. unfold pending_count. rewrite sum_insert by apply NoDup_seqZ.
  rewrite decide_True by (by apply elem_of_zseq). lia.
Qed.

Lemma pending_count_range p n : counted p n -> 0 <= n <= 12.
Proof.
  intros [Hp ->]. unfold pending_count.
  assert (G : forall l, 0 <= foldr (fun i n => default 0 (p !! i) + n) 0 l <= Z.of_nat (length l)).
  { induction l as [|i l IH]; cbn [foldr length]; [lia|]. specialize (Hp i). lia. }
  apply (G (zseq 12)).
Qed.

(** Marking and unmarking. *)
Lemma counted_set p n i v : counted p n -> 0 <= i < 12 -> (v = 0 \/ v = 1) ->
  counted (<[i := v]> p) (n - default 0 (p !! i) + v).
Proof.
  intros [Hp ->] Hi Hv. split; [|by rewrite pending_count_insert].
  intros j. destruct (decide (i = j)) as [->|]; [by rewrite lookup_insert_eq|].
  by rewrite lookup_insert_ne.
Qed.

Section Keeps.
Context {X : Type} `{Peripherals X}.
Implicit Types dsp d : dsp_core_t X.

(** ** What instructions leave alone *)

Definition pending d (i : Z) : Prop := default 0 (interrupt_is_pending d !! i) = 1.

(** A cached entry is the one that the look-up finds. *)
Definition coherent (p : gmap Z Z) (po : gmap Z nat) (oc : gmap Z (Z * nat)) : Prop :=
  (forall a e, po !! a = Some e -> lookup_opcode_slow (X := X) (default 0 (p !! a)) = Ok e)
  /\ (forall t op e, oc !! t = Some (op, e) -> lookup_opcode_slow (X := X) op = Ok e).

(** What [keeps] speaks of. *)
Definition sens d :=
  (interrupt_ipl d, interrupt_pipeline_count d, interrupt_state d, interrupt_is_pending d,
   interrupt_counter d, pram d, pram_opcache d, opcache d).

Definition keeps d d' : Prop :=
  interrupt_ipl d' = interrupt_ipl d
  /\ interrupt_pipeline_count d' = interrupt_pipeline_count d
  /\ (interrupt_state d' = interrupt_state d
      \/ (interrupt_state d = DSP_INTERRUPT_LONG /\ interrupt_state d' = DSP_INTERRUPT_DISABLED))
  /\ (forall i, pending d i -> pending d' i)
  /\ (counted (interrupt_is_pending d) (interrupt_counter d) ->
      counted (interrupt_is_pending d') (interrupt_counter d'))
  /\ (coherent (pram d) (pram_opcache d) (opcache d) ->
      coherent (pram d') (pram_opcache d') (opcache d')).

Lemma keeps_refl d : keeps d d.
Proof. unfold keeps. naive_solver. Qed.

Lemma keeps_trans d1 d2 d3 : keeps d1 d2 -> keeps d2 d3 -> keeps d1 d3.
Proof.
  intros (A1 & B1 & C1 & D1 & E1 & F1) (A2 & B2 & C2 & D2 & E2 & F2).
  unfold keeps. split_and!; [congruence|congruence| |eauto..].
  unfold DSP_INTERRUPT_LONG, DSP_INTERRUPT_DISABLED in *.
  destruct C1 as [C1|[C1 C1']], C2 as [C2|[C2 C2']]; [left|right|right|]; split_and?; congruence.
Qed.

Lemma keeps_sens d d1 d2 : sens d2 = sens d1 -> keeps d d1 -> keeps d d2.
Proof.
  unfold sens, keeps, pending. intros [= E1 E2 E3 E4 E5 E6 E7 E8].
  by rewrite E1, E2, E3, E4, E5, E6, E7, E8.
Qed.

(** ** Automation

    Functions on the core that do not touch what [keeps] speaks of. *)

Lemma sens_setr d n v : sens (setr d n v) = sens d.
Proof. done. Qed.
Lemma sens_cycles d n : sens (cycles d n) = sens d.
Proof. done. Qed.
Lemma sens_longer d : sens (longer d) = sens d.
Proof. done. Qed.
Lemma sens_sr_or d n : sens (sr_or d n) = sens d.
Proof. done. Qed.
Lemma sens_sr_clear d n : sens (sr_clear d n) = sens d.
Proof. done. Qed.
Lemma sens_sr_or_if d b n : sens (sr_or_if d b n) = sens d.
Proof. by destruct b. Qed.
Lemma sens_store56 d D w : sens (store56 d D w) = sens d.
Proof. by destruct w as [[? ?] ?]. Qed.
Lemma sens_ccr d w : sens (emu_ccr_update_e_u_n_z d w) = sens d.
Proof.
  destruct w as [[? ?] ?]. unfold emu_ccr_update_e_u_n_z. destruct (ccr_e_u _ _ _) as [[e u]|]; [|done].
  by destruct e, u, ((z0 =? 0) && (z1 =? 0) && (z =? 0)).
Qed.
Lemma sens_set_flags d w n : sens (set_flags d w n) = sens d.
Proof. apply (sens_ccr d w). Qed.
Lemma sens_nz_flags d n : sens (nz_flags d n) = sens d.
Proof. unfold nz_flags. by rewrite sens_sr_or_if. Qed.
Lemma sens_logic_flags d n : sens (logic_flags d n) = sens d.
Proof. apply (sens_nz_flags (sr_clear _ _)). Qed.
Lemma sens_set_carry d n : sens (set_carry d n) = sens d.
Proof. done. Qed.
Lemma sens_branch d n : sens (branch d n) = sens d.
Proof. done. Qed.
Lemma sens_jump d n : sens (jump d n) = sens d.
Proof. done. Qed.

End Keeps.

Create HintDb dsp discriminated.
Create Rewrite HintDb sens.
#[export] Hint Rewrite @sens_setr @sens_cycles @sens_longer @sens_sr_or @sens_sr_clear @sens_sr_or_if @sens_store56 @sens_ccr
  @sens_set_flags @sens_nz_flags @sens_logic_flags
  @sens_set_carry @sens_branch @sens_jump : sens.

(** [keeps d T] for a [T] made by such functions from a core that keeps. *)
Ltac kp :=
  match goal with
  | H : keeps ?d ?d1 |- keeps ?d _ =>
      first [ exact H | refine (keeps_sens d d1 _ _ H); autorewrite with sens; reflexivity ]
  | |- keeps ?d _ => refine (keeps_sens d d _ _ (keeps_refl d)); autorewrite with sens; reflexivity
  end.

Lemma x_reg_range n : 0 <= x_reg n < DSP_REG_MAX.
Proof. unfold x_reg, switch. repeat case_match; unfold DSP_REG_MAX; split; done. Qed.
Lemma y_reg_range n : 0 <= y_reg n < DSP_REG_MAX.
Proof. unfold y_reg, switch. repeat case_match; unfold DSP_REG_MAX; split; done. Qed.
Lemma xy_reg_range n : 0 <= xy_reg n < DSP_REG_MAX.
Proof. unfold xy_reg, switch. repeat case_match; unfold DSP_REG_MAX; split; done. Qed.
#[export] Hint Resolve x_reg_range y_reg_range xy_reg_range : dsp.

(** Bounds of the indices that the instruction word gives. *)
Ltac index_bounds :=
  unfold inst_field in *;
  repeat match goal with
  | |- context [field ?v ?i ?k] =>
      lazymatch goal with
      | _ : 0 <= field v i k < _ |- _ => fail
      | _ => pose proof (dsp_field_range v i k ltac:(lia))
      end
  | |- context [Z.land ?v (BITMASK ?k)] =>
      lazymatch goal with
      | _ : 0 <= Z.land v (BITMASK k) < _ |- _ => fail
      | _ => pose proof (mask_range v k ltac:(lia))
      end
  | |- context [x_reg ?n] => pose proof (x_reg_range n); generalize dependent (x_reg n); intros
  | |- context [y_reg ?n] => pose proof (y_reg_range n); generalize dependent (y_reg n); intros
  end;
  unfold DSP_REG_MAX, DSP_REG_R0, DSP_REG_N0, DSP_REG_M0, DSP_REG_A, DSP_REG_A0, DSP_REG_A1,
    DSP_REG_A2, DSP_REG_X0, DSP_REG_Y0, DSP_REG_B, DSP_INTER_STACK_ERROR, DSP_INTER_TRACE,
    DSP_INTER_ILLEGAL in *;
  rewrite ?Z.shiftl_mul_pow2 by lia; repeat case_match; lia.

#[export] Hint Extern 1 (keeps _ _) => kp : dsp.
#[export] Hint Extern 3 (keeps _ ?d) =>
  match d with context [if _ then _ else _] => repeat case_match; kp end : dsp.
#[export] Hint Extern 2 (keeps _ (switch _ _ _)) =>
  apply switch_ind;
  [repeat first [apply Forall_nil_2 | apply Forall_cons_2; [intros; cbn [snd]; kp|]]|kp] : dsp.
#[export] Hint Extern 4 (0 <= switch _ _ _ < DSP_REG_MAX) =>
  unfold switch; repeat case_match; split; done : dsp.
#[export] Hint Extern 5 (_ <= _ < _) => index_bounds : dsp.

(** One step of a proof of [ok_res (keeps d) m]: what a bound computation is asked for depends
    on its type. *)
Ltac ok_intro :=
  intros ? ?; repeat match goal with p : (_ * _)%type |- _ => destruct p end; cbn [fst snd] in *.

Ltac ok_goal_core :=
  match goal with
  | |- ok_res (keeps ?d) _ => constr:(d)
  | |- ok_res (fun _ => keeps ?d _) _ => constr:(d)
  end.

Ltac ok :=
  repeat (cbv zeta; match goal with
  | |- ok_res _ (Ok _) => cbn [ok_res fst snd]; first [exact I | solve [eauto with dsp]]
  | |- ok_res _ (Fault AssertFail) => left; reflexivity
  | |- ok_res _ (switch _ _ _) => apply ok_switch; [repeat first [apply Forall_nil_2 | apply Forall_cons_2; [cbn [snd]|]]|]
  | |- ok_res _ (mbind ?k ?m) => ok_bound m; ok_intro
  | |- ok_res _ (let '(_, _) := ?x in _) => destruct x eqn:?
  | |- ok_res _ (if ?b then _ else _) => destruct b
  | |- ok_res _ (match ?x with _ => _ end) => destruct x
  | |- ok_res _ _ => solve [eauto with dsp]
  end)
with ok_bound m :=
  let T := type of m in
  lazymatch T with
  | res (dsp_core_t _) => let d := ok_goal_core in
      eapply (ok_bind (keeps d)); [solve [ok]|]
  | res (dsp_core_t _ * _ * _) => let d := ok_goal_core in
      eapply (ok_bind (fun r => keeps d r.1.1)); [solve [ok]|]
  | res (dsp_core_t _ * _) => let d := ok_goal_core in
      eapply (ok_bind (fun r => keeps d r.1)); [solve [ok]|]
  | _ => eapply (ok_bind (fun _ => True)); [solve [ok]|]
  end.

(** What the core expects of its callbacks. *)
Class PeripheralLaws (X : Type) `{Peripherals X} := {
  write_peripheral_keeps : forall (d : dsp_core_t X) a v, ok_res (keeps d) (write_peripheral d a v)
}.

Section Safety.
Context {X : Type} `{PeripheralLaws X}.
Implicit Types dsp d : dsp_core_t X.

(** ** The core *)

Lemma ok_true_assert b : ok_res (fun _ => True) (c_assert b).
Proof. by eapply ok_mono; [apply ok_assert|]. Qed.
Lemma ok_debug_abort d : ok_res (fun _ => True) (debug_abort d).
Proof. apply ok_true_assert. Qed.
Lemma ok_reg_at d n : 0 <= n < DSP_REG_MAX -> ok_res (fun _ => True) (reg_at d n).
Proof. apply ok_arr_at. Qed.
Lemma ok_reg_set d0 d n v : keeps d0 d -> 0 <= n < DSP_REG_MAX -> ok_res (keeps d0) (reg_set d n v).
Proof.
  intros Hk Hn. unfold reg_set. eapply ok_bind; [by apply ok_arr_set|]. intros r _. cbn. kp.
Qed.
Lemma ok_arr_set_true n a i v : 0 <= i < n -> ok_res (fun _ => True) (arr_set n a i v).
Proof. intros. by eapply ok_mono; [apply ok_arr_set|]. Qed.

#[local] Hint Resolve ok_true_assert ok_debug_abort ok_arr_at ok_reg_at ok_reg_set ok_arr_set_true : dsp.

Lemma ok_add_interrupt d0 d i : keeps d0 d -> 0 <= i < 12 ->
  ok_res (keeps d0) (dsp56k_add_interrupt d i).
Proof.
  intros Hk Hi. unfold dsp56k_add_interrupt, arr_at, arr_set.
  rewrite (proj2 (Z.leb_le _ _)), (proj2 (Z.ltb_lt _ _)) by lia. cbn [andb mbind res_mbind res_bind].
  destruct (_ =? -1); [done|]. destruct (Z.eqb_spec (default 0 (interrupt_is_pending d !! i)) 0) as [E|];
    [|done]. cbn. eapply keeps_trans; [done|].
  unfold keeps, pending. cbn. split_and!; try done; [by left| |].
  - intros j Hj. destruct (decide (i = j)) as [->|]; [by rewrite lookup_insert_eq|].
    by rewrite lookup_insert_ne.
  - intros Hc. pose proof (counted_set _ _ i 1 Hc Hi (or_intror eq_refl)) as Hs.
    rewrite E in Hs. apply pending_count_range in Hc as Hr.
    change (u32 1) with 1. rewrite uwrap_id by (change (2 ^ 16) with 65536; lia).
    by replace (interrupt_counter d + 1) with (interrupt_counter d - 0 + 1) by lia.
Qed.
#[local] Hint Resolve ok_add_interrupt : dsp.

Lemma ok_stack_check d0 d e n : keeps d0 d -> ok_res (keeps d0) (stack_check d e n).
Proof. intros. unfold stack_check. ok. Qed.
#[local] Hint Resolve ok_stack_check : dsp.

Lemma ok_stack_push d0 d a b c : keeps d0 d -> ok_res (keeps d0) (dsp_stack_push d a b c).
Proof. intros. unfold dsp_stack_push. ok. Qed.
Lemma ok_stack_pop d0 d : keeps d0 d -> ok_res (fun r => keeps d0 r.1.1) (dsp_stack_pop d).
Proof. intros. unfold dsp_stack_pop. ok. Qed.
#[local] Hint Resolve ok_stack_push ok_stack_pop : dsp.

Lemma ok_compute_ssh_ssl d0 d : keeps d0 d -> ok_res (keeps d0) (dsp_compute_ssh_ssl d).
Proof. intros. unfold dsp_compute_ssh_ssl. ok. Qed.

Lemma ok_reg_mask n : 0 <= n < DSP_REG_MAX -> ok_res (fun _ => True) (reg_mask n).
Proof.
  intros. unfold reg_mask. eapply ok_bind; [|done]. apply (ok_aget (fun _ => True)); [|done].
  by apply Forall_forall.
Qed.
#[local] Hint Resolve ok_compute_ssh_ssl ok_reg_mask : dsp.

Lemma ok_write_reg d0 d n v : keeps d0 d -> 0 <= n < DSP_REG_MAX ->
  ok_res (keeps d0) (dsp_write_reg d n v).
Proof. intros. unfold dsp_write_reg. ok. Qed.

Lemma ok_read_memory_p d a : ok_res (fun _ => True) (read_memory_p d a).
Proof.
  unfold read_memory_p. pose proof (uwrap_range 32 a ltac:(lia)) as [Ha _].
  eapply ok_bind; [apply ok_assert|]. intros _ _.
  eapply ok_bind; [apply ok_assert|]. cbn beta. intros _ Hp%Z.ltb_lt. ok.
Qed.
#[local] Hint Resolve ok_write_reg ok_read_memory_p : dsp.

Lemma in_mixbuffer_range b a : in_mixbuffer b a = true -> 0 <= a - b < DSP_MIXBUFFER_SIZE.
Proof. unfold in_mixbuffer. intros [?%Z.leb_le ?%Z.ltb_lt]%andb_prop. lia. Qed.

Lemma ok_read_memory d s a : ok_res (fun _ => True) (dsp56k_read_memory d s a).
Proof.
  unfold dsp56k_read_memory. pose proof (uwrap_range 32 a ltac:(lia)) as [Ha _].
  eapply ok_bind; [apply ok_true_assert|]. intros _ _.
  destruct (s =? _); [|destruct (s =? _)].
  - destruct (_ <=? _); [done|]. destruct (in_mixbuffer _ _) eqn:E1.
    { apply ok_arr_at. by apply in_mixbuffer_range. }
    destruct (in_mixbuffer 0xc00 _) eqn:E2; [apply ok_arr_at; by apply in_mixbuffer_range|].
    destruct (Z.ltb_spec (u32 a) DSP_XRAM_SIZE); [by apply ok_arr_at|done].
  - eapply ok_bind; [apply ok_assert|]. cbn beta. intros _ Hp%Z.ltb_lt. by apply ok_arr_at.
  - ok.
Qed.

Lemma coherent_write p po oc a v : coherent (X := X) p po oc ->
  coherent (X := X) (<[a := v]> p) (delete a po) oc.
Proof.
  intros [Hp Ho]. split; [|done]. intros b e. rewrite lookup_delete_Some. intros [Hn Hb].
  rewrite lookup_insert_ne by done. by apply Hp.
Qed.

Lemma ok_write_raw_p d a v : 0 <= a < DSP_PRAM_SIZE ->
  ok_res (keeps d) (m ← arr_set DSP_PRAM_SIZE (pram d) a v;
                    Ok (d <| pram := m |> <| pram_opcache := delete a (pram_opcache d) |>)).
Proof.
  intros Ha. eapply ok_bind; [by apply ok_arr_set|]. intros ? ->. cbn. unfold keeps, pending. cbn.
  split_and!; try done; [by left|]. apply coherent_write.
Qed.

Lemma ok_write_memory d0 d s a v : keeps d0 d -> ok_res (keeps d0) (dsp56k_write_memory d s a v).
Proof.
  intros Hk. unfold dsp56k_write_memory, write_memory_raw.
  pose proof (uwrap_range 32 a ltac:(lia)) as [Ha _].
  eapply ok_bind; [apply ok_true_assert|]. intros _ _.
  eapply ok_bind; [apply ok_true_assert|]. intros _ _.
  destruct (s =? _); [|destruct (s =? _); [|destruct (s =? _); [|by left]]].
  - destruct (_ <=? _).
    { eapply ok_mono; [apply write_peripheral_keeps|]. intros ?. by apply keeps_trans. }
    destruct (in_mixbuffer _ _) eqn:E1.
    { apply in_mixbuffer_range in E1. ok. }
    destruct (in_mixbuffer 0xc00 _) eqn:E2; [apply in_mixbuffer_range in E2; ok|].
    eapply ok_bind; [apply ok_assert|]. cbn beta. intros _ Hp%Z.ltb_lt. ok.
  - eapply ok_bind; [apply ok_assert|]. cbn beta. intros _ Hp%Z.ltb_lt. ok.
  - eapply ok_bind; [apply ok_assert|]. cbn beta. intros _ Hp%Z.ltb_lt.
    eapply ok_mono; [by apply ok_write_raw_p|]. intros ?. by apply keeps_trans.
Qed.
#[local] Hint Resolve ok_read_memory ok_write_memory : dsp.

(** ** Address registers

    The loops of modulo addressing end. *)

(** The buffer is the least power of two that holds [modulo] words. *)
Lemma buf_loop_ok n k j modulo : (k <= n)%nat -> 0 <= j -> j + Z.of_nat k <= 15 ->
  modulo <= 2 ^ (j + Z.of_nat k) -> (j = 0 \/ 2 ^ (j - 1) < modulo) ->
  exists l, buf_loop n modulo (2 ^ j) (2 ^ 16 - 2 ^ j) = Ok (2 ^ l, 2 ^ 16 - 2 ^ l)
    /\ 0 <= l <= 15 /\ modulo <= 2 ^ l /\ (l = 0 \/ 2 ^ (l - 1) < modulo).
Proof.
  revert n j. induction k as [|k IH]; intros n j Hk Hj Hb Hm Hl.
  - rewrite Z.add_0_r in *. exists j. split; [|lia].
    destruct n; cbn [buf_loop]; by rewrite (proj2 (Z.ltb_ge _ _)) by lia.
  - destruct n as [|n]; [lia|]. cbn [buf_loop].
    destruct (Z.ltb_spec (2 ^ j) modulo); [|exists j; split; [done|lia]].
    assert (Hp : 2 ^ j <= 2 ^ 14) by (apply Z.pow_le_mono_r; lia).
    assert (1 <= 2 ^ j) by (apply (Z.pow_le_mono_r 2 0); lia).
    assert (E : 2 ^ (j + 1) = 2 * 2 ^ j) by (rewrite Z.add_1_r, Z.pow_succ_r; lia).
    rewrite !Z.shiftl_mul_pow2, uwrap_id by lia.
    replace (u16 ((2 ^ 16 - 2 ^ j) * 2 ^ 1)) with (2 ^ 16 - 2 ^ (j + 1))
      by (unfold uwrap; apply (Z.mod_unique _ _ 1); lia).
    replace (2 ^ j * 2 ^ 1) with (2 ^ (j + 1)) by lia.
    apply (IH n (j + 1)); [lia..| |right; by rewrite Z.add_simpl_r].
    by replace (j + 1 + Z.of_nat k) with (j + Z.of_nat (S k)) by lia.
Qed.

Lemma up_loop_ok n size r modifier : 1 <= size -> modifier <= Z.of_nat n -> Z.of_nat n < 2 ^ 15 ->
  0 < modifier -> exists r' m, up_loop n size r modifier = Ok (r', m) /\ 0 < m.
Proof.
  revert r modifier. induction n as [|n IH]; intros r modifier Hs Hm Hn Hp; cbn [up_loop];
    (destruct (Z.ltb_spec size modifier); [|by eexists _, _]); [lia|].
  rewrite (swrap_small 16 (modifier - size)) by lia. apply IH; lia.
Qed.

Lemma down_loop_none n size r modifier : 0 <= size -> 0 <= modifier ->
  down_loop n size r modifier = Ok (r, modifier).
Proof. intros. destruct n; cbn [down_loop]; by rewrite (proj2 (Z.ltb_ge _ _)) by lia. Qed.

Lemma reg_at_ok d n : 0 <= n < DSP_REG_MAX -> reg_at d n = Ok (getr d n).
Proof.
  intros. unfold reg_at, arr_at. by rewrite (proj2 (Z.leb_le _ _)), (proj2 (Z.ltb_lt _ _)) by lia.
Qed.
Lemma reg_set_ok d n v : 0 <= n < DSP_REG_MAX -> reg_set d n v = Ok (setr d n v).
Proof.
  intros. unfold reg_set, arr_set. by rewrite (proj2 (Z.leb_le _ _)), (proj2 (Z.ltb_lt _ _)) by lia.
Qed.

(** The modulus of register [n]. *)
Lemma modulus_ok d n : 1 <= u16 (getr d (DSP_REG_M0 + n)) <= 32767 ->
  exists l, buf_loop 16 (u16 (getr d (DSP_REG_M0 + n) + 1)) 1 (BITMASK 16)
    = Ok (2 ^ l, 2 ^ 16 - 2 ^ l)
    /\ u16 (getr d (DSP_REG_M0 + n) + 1) = u16 (getr d (DSP_REG_M0 + n)) + 1
    /\ 1 <= l <= 15 /\ 2 ^ (l - 1) < u16 (getr d (DSP_REG_M0 + n) + 1) <= 2 ^ l.
Proof.
  set (m := getr d _). intros Hm.
  assert (E : u16 (m + 1) = u16 m + 1).
  { unfold uwrap in *. rewrite <- Zplus_mod_idemp_l. apply Z.mod_small. lia. }
  rewrite E.
  destruct (buf_loop_ok 16 15 0 (u16 m + 1)) as (l & El & Hl & Hlo & Hhi); [lia..| |by left|].
  { change (2 ^ (0 + Z.of_nat 15)) with 32768. lia. }
  exists l. split; [done|]. destruct Hhi as [->|]; [cbn in Hlo; lia|].
  assert (l <> 0) by (intros ->; cbn in Hlo; lia). lia.
Qed.

Lemma update_rn_modulo_ok d0 d n modifier : keeps d0 d -> 0 <= n < 8 ->
  - 2 ^ 15 <= modifier < 2 ^ 15 -> 1 <= u16 (getr d (DSP_REG_M0 + n)) <= 32767 ->
  exists d', emu_update_rn_modulo d n modifier = Ok d' /\ keeps d0 d'.
Proof.
  intros Hk Hn Hm Hr. destruct (modulus_ok d n Hr) as (l & El & Emod & Hl & Hlo).
  assert (1 <= 2 ^ l) by (apply (Z.pow_le_mono_r 2 0); lia).
  unfold emu_update_rn_modulo. rewrite !reg_at_ok by (unfold DSP_REG_MAX, DSP_REG_M0, DSP_REG_R0; lia).
  cbn [mbind res_mbind res_bind]. rewrite El. cbn [mbind res_mbind res_bind].
  assert (G : exists r m, (if u16 (getr d (DSP_REG_M0 + n) + 1) <? modifier then
       '(r_reg, modifier) ← up_loop (Z.to_nat modifier) (2 ^ l) (s16 (getr d (DSP_REG_R0 + n))) modifier;
       down_loop (Z.to_nat (- modifier)) (2 ^ l) r_reg modifier
     else Ok (s16 (getr d (DSP_REG_R0 + n)), modifier)) = Ok (r, m)).
  { destruct (Z.ltb_spec (u16 (getr d (DSP_REG_M0 + n) + 1)) modifier); [|by eexists _, _].
    destruct (up_loop_ok (Z.to_nat modifier) (2 ^ l) (s16 (getr d (DSP_REG_R0 + n))) modifier)
      as (r & m & -> & Hp); [lia..|]. cbn [mbind res_mbind res_bind].
    rewrite down_loop_none by lia. by eexists _, _. }
  destruct G as (r & m & ->). cbn [mbind res_mbind res_bind].
  rewrite reg_set_ok by (unfold DSP_REG_MAX, DSP_REG_R0; lia). eexists. split; [done|]. kp.
Qed.

Lemma update_rn_ok d0 d n modifier : keeps d0 d -> 0 <= n < 8 ->
  exists d', emu_update_rn d n modifier = Ok d' /\ keeps d0 d'.
Proof.
  intros Hk Hn. unfold emu_update_rn, emu_update_rn_bitreverse.
  rewrite !reg_at_ok by (unfold DSP_REG_MAX, DSP_REG_N0, DSP_REG_M0, DSP_REG_R0; lia).
  cbn [mbind res_mbind res_bind].
  rewrite !reg_set_ok by (unfold DSP_REG_MAX, DSP_REG_R0; lia).
  pose proof (uwrap_range 16 (getr d (DSP_REG_M0 + n)) ltac:(lia)) as Hu. unfold in_uw in Hu.
  case_match; [eexists; split; [done|kp]|]. case_match eqn:E0; [eexists; split; [done|kp]|].
  case_match eqn:E1; [|eauto]. apply update_rn_modulo_ok; [done..| |lia].
  unfold swrap. pose proof (Z.mod_pos_bound modifier (2 ^ 16) ltac:(lia)). case_match; lia.
Qed.

Lemma ok_update_rn d0 d n modifier : keeps d0 d -> 0 <= n < 8 ->
  ok_res (keeps d0) (emu_update_rn d n modifier).
Proof. intros Hk Hn. by destruct (update_rn_ok d0 d n modifier Hk Hn) as (d' & -> & ?). Qed.
#[local] Hint Resolve ok_update_rn : dsp.

Lemma ok_calc_ea d0 d ea : keeps d0 d -> ok_res (fun r => keeps d0 r.1.1) (emu_calc_ea d ea).
Proof. intros. unfold emu_calc_ea. ok. Qed.
Lemma ok_undefined d0 d : keeps d0 d -> ok_res (keeps d0) (emu_undefined d).
Proof. intros. unfold emu_undefined. ok. Qed.
#[local] Hint Resolve ok_calc_ea ok_undefined : dsp.

(** ** The ALU *)

Lemma ok_asl w n : 0 <= n <= 56 -> ok_res (fun _ => True) (dsp_asl56 w n).
Proof. intros. unfold dsp_asl56. by rewrite !shift_ok_true by lia. Qed.
Lemma ok_asr w n : 1 <= n < 64 -> ok_res (fun _ => True) (dsp_asr56 w n).
Proof. intros. unfold dsp_asr56. by rewrite !shift_ok_true by lia. Qed.
Lemma ok_asl_1 w : ok_res (fun _ => True) (dsp_asl56 w 1).
Proof. by apply ok_asl. Qed.
Lemma ok_asr_1 w : ok_res (fun _ => True) (dsp_asr56 w 1).
Proof. by apply ok_asr. Qed.
#[local] Hint Resolve ok_asl_1 ok_asr_1 : dsp.

Lemma ok_mul56 a b g : ok_res (fun _ => True) (dsp_mul56 a b g).
Proof.
  unfold dsp_mul56. repeat (destruct (mul_sign _ _) || destruct (mul_carry _ _)).
  eapply ok_bind; [by apply ok_asl|]. by intros [? ?].
Qed.
#[local] Hint Resolve ok_mul56 : dsp.

(** An operation of the table. *)
Definition alu_safe (f : dsp_core_t X -> res (dsp_core_t X)) : Prop :=
  forall d0 d, keeps d0 d -> ok_res (keeps d0) (f d).

Tactic Notation "safe" reference(f) := intros d0 d Hk; unfold f; ok.

Lemma safe_with_carry op o D : alu_safe (emu_with_carry op o D).
Proof. safe emu_with_carry. Qed.
Lemma safe_binary op o D : alu_safe (emu_binary op o D).
Proof. safe emu_binary. Qed.
Lemma safe_cmp o D : alu_safe (emu_cmp o D).
Proof. safe emu_cmp. Qed.
Lemma safe_cmpm o D : alu_safe (emu_cmpm o D).
Proof. safe emu_cmpm. Qed.
Lemma safe_and n D : alu_safe (emu_and n D).
Proof. safe emu_and. Qed.
Lemma safe_or n D : alu_safe (emu_or n D).
Proof. safe emu_or. Qed.
Lemma safe_eor n D : alu_safe (emu_eor n D).
Proof. safe emu_eor. Qed.
Lemma safe_tfr n D : alu_safe (emu_tfr n D).
Proof. safe emu_tfr. Qed.
Lemma safe_tfr_accu D : alu_safe (emu_tfr_accu D).
Proof. safe emu_tfr_accu. Qed.
Lemma safe_not D : alu_safe (emu_not D).
Proof. safe emu_not. Qed.
Lemma safe_clr D : alu_safe (emu_clr D).
Proof. safe emu_clr. Qed.
Lemma safe_lsl D : alu_safe (emu_lsl D).
Proof. safe emu_lsl. Qed.
Lemma safe_lsr D : alu_safe (emu_lsr D).
Proof. safe emu_lsr. Qed.
Lemma safe_rol D : alu_safe (emu_rol D).
Proof. safe emu_rol. Qed.
Lemma safe_ror D : alu_safe (emu_ror D).
Proof. safe emu_ror. Qed.
Lemma safe_tst D : alu_safe (emu_tst D).
Proof. safe emu_tst. Qed.
Lemma safe_rnd D : alu_safe (emu_rnd D).
Proof. safe emu_rnd. Qed.
Lemma safe_abs D : alu_safe (emu_abs D).
Proof. safe emu_abs. Qed.
Lemma safe_neg D : alu_safe (emu_neg D).
Proof. safe emu_neg. Qed.
Lemma safe_mac s1 s2 g D : alu_safe (emu_mac s1 s2 g D).
Proof. safe emu_mac. Qed.
Lemma safe_macr s1 s2 g D : alu_safe (emu_macr s1 s2 g D).
Proof. safe emu_macr. Qed.
Lemma safe_mpy s1 s2 g D : alu_safe (emu_mpy s1 s2 g D).
Proof. safe emu_mpy. Qed.
Lemma safe_mpyr s1 s2 g D : alu_safe (emu_mpyr s1 s2 g D).
Proof. safe emu_mpyr. Qed.
Lemma safe_macr_p_x1_y0_b : alu_safe emu_macr_p_x1_y0_b.
Proof. safe emu_macr_p_x1_y0_b. Qed.
Lemma safe_max : alu_safe emu_max.
Proof.
  intros d0 d Hk. unfold emu_max. destruct (dsp_sub56 _ _).2 as [[? ?] ?]. destruct (tst _ _ || _); ok.
Qed.
Lemma safe_move : alu_safe emu_move.
Proof. safe emu_move. Qed.
Lemma safe_nop : alu_safe emu_nop.
Proof. safe emu_nop. Qed.
Lemma safe_undefined : alu_safe emu_undefined.
Proof. safe emu_undefined. Qed.
Lemma safe_shifted shift op D : (forall w, ok_res (fun _ => True) (shift w 1)) ->
  alu_safe (emu_shifted shift op D).
Proof. intros Hs. safe emu_shifted. Qed.
Lemma safe_shift shift D : (forall w, ok_res (fun _ => True) (shift w 1)) -> alu_safe (emu_shift shift D).
Proof. intros Hs. safe emu_shift. Qed.

Create HintDb alu discriminated.
Hint Constants Opaque : alu.
#[local] Hint Resolve safe_with_carry safe_binary safe_cmp safe_cmpm safe_and safe_or safe_eor safe_tfr safe_tfr_accu safe_not safe_clr safe_lsl safe_lsr safe_rol safe_ror safe_tst safe_rnd safe_abs safe_neg safe_mac safe_macr safe_mpy safe_mpyr safe_macr_p_x1_y0_b safe_max safe_move safe_nop safe_undefined safe_shifted safe_shift
  ok_asl_1 ok_asr_1 : alu.

Lemma safe_opcodes_alu : Forall alu_safe opcodes_alu.
Proof.
  unfold opcodes_alu, emu_adc, emu_sbc, emu_add, emu_sub, emu_addl, emu_addr, emu_subl, emu_subr,
    emu_asl, emu_asr.
  repeat first [apply Forall_nil_2 | apply Forall_cons_2]; eauto with alu.
Qed.
Lemma ok_alu d0 d : keeps d0 d -> ok_res (keeps d0) (alu d).
Proof.
  intros Hk. unfold alu. eapply (ok_bind alu_safe).
  - apply ok_aget; [apply safe_opcodes_alu|]. apply (mask_range (cur_inst d) 8). lia.
  - intros f Hf. by apply Hf.
Qed.
#[local] Hint Resolve ok_alu : dsp.

(** ** Parallel moves *)

Lemma land_1_range v : 0 <= Z.land v 1 < 2.
Proof. apply (mask_range v 1). lia. Qed.

Lemma ok_read_accu24 d0 d n : keeps d0 d -> ok_res (fun r => keeps d0 r.1.1) (emu_pm_read_accu24 d n).
Proof.
  intros Hk. unfold emu_pm_read_accu24. pose proof (land_1_range n).
  cbv zeta. ok.
Qed.
#[local] Hint Resolve ok_read_accu24 : dsp.

Lemma ok_read_move d0 d n : keeps d0 d -> 0 <= n < DSP_REG_MAX ->
  ok_res (fun r => keeps d0 r.1) (read_move d n).
Proof. intros. unfold read_move. ok. Qed.
Lemma ok_write_move d0 d n v : keeps d0 d -> 0 <= n < DSP_REG_MAX ->
  ok_res (keeps d0) (write_move d n v).
Proof. intros. unfold write_move. ok. Qed.
#[local] Hint Resolve ok_read_move ok_write_move : dsp.
Lemma ok_write_move_masked d0 d n v : keeps d0 d -> 0 <= n < DSP_REG_MAX ->
  ok_res (keeps d0) (write_move_masked d n v).
Proof. intros. unfold write_move_masked. ok. Qed.
#[local] Hint Resolve ok_write_move_masked : dsp.

Lemma ok_read_long d0 d n : keeps d0 d -> ok_res (fun r => keeps d0 r.1.1) (read_long d n).
Proof. intros. unfold read_long. ok. Qed.
Lemma keeps_write_long d0 d n x y : keeps d0 d -> keeps d0 (write_long d n x y).
Proof.
  intros. unfold write_long. eauto with dsp.
Qed.
#[local] Hint Resolve ok_read_long keeps_write_long : dsp.

Lemma ok_pm_8_read d0 d w sp n a : keeps d0 d -> 0 <= n < DSP_REG_MAX ->
  ok_res (fun r => keeps d0 r.1) (pm_8_read d w sp n a).
Proof. intros. unfold pm_8_read. ok. Qed.
Lemma ok_pm_8_write d0 d w sp n a v : keeps d0 d -> 0 <= n < DSP_REG_MAX ->
  ok_res (keeps d0) (pm_8_write d w sp n a v).
Proof. intros. unfold pm_8_write. ok. Qed.
#[local] Hint Resolve ok_pm_8_read ok_pm_8_write : dsp.

Lemma safe_pm_0 : alu_safe emu_pm_0.
Proof. safe emu_pm_0. Qed.
Lemma safe_pm_1 : alu_safe emu_pm_1.
Proof. safe emu_pm_1. Qed.
Lemma safe_pm_2_2 : alu_safe emu_pm_2_2.
Proof. safe emu_pm_2_2. Qed.
Lemma safe_pm_3 : alu_safe emu_pm_3.
Proof. safe emu_pm_3. Qed.
Lemma safe_pm_4x : alu_safe emu_pm_4x.
Proof. safe emu_pm_4x. Qed.
(** Two fields that name a register together. *)
Lemma numreg_5_range v c :
  0 <= Z.lor (field v 16 3) (Z.land (Z.shiftr c 17) (Z.shiftl (BITMASK 2) 3)) < DSP_REG_MAX.
Proof.
  apply (lor_range 6); [lia|pose proof (dsp_field_range v 16 3 ltac:(lia)); unfold in_uw; lia|].
  change (Z.shiftl (BITMASK 2) 3) with (Z.land (BITMASK 6) 24). rewrite Z.land_assoc.
  apply land_range; [lia|]. apply mask_range. lia.
Qed.
#[local] Hint Extern 1 (0 <= Z.lor _ _ < DSP_REG_MAX) => apply numreg_5_range : dsp.
Lemma safe_pm_5 : alu_safe emu_pm_5.
Proof. safe emu_pm_5. Qed.
Lemma safe_pm_8 : alu_safe emu_pm_8.
Proof. safe emu_pm_8. Qed.

Lemma safe_pm_2 : alu_safe emu_pm_2.
Proof.
  intros d0 d Hk. unfold emu_pm_2. destruct (_ =? _); [ok|]. destruct (_ =? _); [ok|].
  destruct (_ =? _); [by apply safe_pm_2_2|by apply safe_pm_3].
Qed.
Lemma safe_pm_4 : alu_safe emu_pm_4.
Proof.
  intros d0 d Hk. unfold emu_pm_4. destruct (_ =? _); [by apply safe_pm_4x|by apply safe_pm_5].
Qed.
Lemma safe_parmove : Forall alu_safe opcodes_parmove.
Proof.
  pose proof safe_pm_0. pose proof safe_pm_1. pose proof safe_pm_2. pose proof safe_pm_3.
  pose proof safe_pm_4. pose proof safe_pm_5. pose proof safe_pm_8.
  unfold opcodes_parmove. repeat first [apply Forall_nil_2 | apply Forall_cons_2; [assumption|]].
Qed.

(** ** Instructions without parallel moves *)

Lemma ok_next_word d0 d : keeps d0 d -> ok_res (fun r => keeps d0 r.1) (next_word d).
Proof. intros. unfold next_word. ok. Qed.
Lemma ok_signextend n v : ok_res (fun _ => True) (dsp_signextend n v).
Proof. unfold dsp_signextend. ok. Qed.
#[local] Hint Resolve ok_next_word ok_signextend : dsp.
Lemma ok_operand_addr m d0 d : keeps d0 d -> ok_res (fun r => keeps d0 r.1) (operand_addr m d).
Proof. intros. unfold operand_addr. ok. Qed.
Lemma ok_short_disp d : ok_res (fun _ => True) (short_disp d).
Proof. unfold short_disp. ok. Qed.
Lemma ok_push_return d0 d : keeps d0 d -> ok_res (keeps d0) (push_return d).
Proof.
  intros Hk. unfold push_return. destruct (Z.eqb_spec (interrupt_state d) DSP_INTERRUPT_LONG) as [E|];
    cbn [negb]; [|ok]. cbn [ok_res]. eapply keeps_trans; [done|]. unfold keeps, pending. cbn. auto 10.
Qed.
Lemma ok_call d0 d n : keeps d0 d -> ok_res (keeps d0) (call d n).
Proof. intros. unfold call. ok. Qed.
Lemma ok_pp_operand d0 d : keeps d0 d -> ok_res (fun r => keeps d0 r.1) (pp_operand d).
Proof. intros. unfold pp_operand. ok. Qed.
Lemma ok_reg_operand d0 d : keeps d0 d -> ok_res (fun r => keeps d0 r.1) (reg_operand d).
Proof. intros. unfold reg_operand. ok. Qed.
#[local] Hint Resolve ok_operand_addr ok_short_disp ok_push_return ok_call ok_pp_operand ok_reg_operand : dsp.
Lemma ok_mem_operand m d0 d : keeps d0 d -> ok_res (fun r => keeps d0 r.1) (mem_operand m d).
Proof. intros. unfold mem_operand. ok. Qed.
Lemma ok_do_begin d0 d : keeps d0 d -> ok_res (keeps d0) (do_begin d).
Proof. intros. unfold do_begin. ok. Qed.
Lemma ok_dor_begin d0 d : keeps d0 d -> ok_res (keeps d0) (dor_begin d).
Proof. intros. unfold dor_begin. ok. Qed.
Lemma ok_do_push d0 d : keeps d0 d -> ok_res (keeps d0) (do_push d).
Proof. intros. unfold do_push. ok. Qed.
Lemma ok_lc_from_reg d0 d : keeps d0 d -> ok_res (keeps d0) (lc_from_reg d).
Proof. intros. unfold lc_from_reg. ok. Qed.
Lemma ok_end_do d0 d : keeps d0 d -> ok_res (keeps d0) (end_do d).
Proof. intros. unfold end_do. ok. Qed.
Lemma ok_write_rn d0 d v : keeps d0 d -> ok_res (keeps d0) (write_rn d v).
Proof. intros. unfold write_rn. ok. Qed.
Lemma ok_write_ctrl d0 d n v : keeps d0 d -> 0 <= n < DSP_REG_MAX -> ok_res (keeps d0) (write_ctrl d n v).
Proof. intros. unfold write_ctrl. ok. Qed.
Lemma ok_read_ctrl d0 d n : keeps d0 d -> 0 <= n < DSP_REG_MAX ->
  ok_res (fun r => keeps d0 r.1) (read_ctrl d n).
Proof. intros. unfold read_ctrl. ok. Qed.
Lemma ok_read_any d0 d n : keeps d0 d -> 0 <= n < DSP_REG_MAX ->
  ok_res (fun r => keeps d0 r.1) (read_any d n).
Proof. intros. unfold read_any. ok. Qed.
#[local] Hint Resolve ok_mem_operand ok_do_begin ok_dor_begin ok_do_push ok_lc_from_reg ok_end_do ok_write_rn
  ok_write_ctrl ok_read_ctrl ok_read_any : dsp.
Lemma ok_movem d0 d a : keeps d0 d -> ok_res (keeps d0) (movem d a).
Proof. intros. unfold movem. ok. Qed.
Lemma ok_movep_ea d0 d s1 a s2 : keeps d0 d -> ok_res (keeps d0) (movep_ea d s1 a s2).
Proof. intros. unfold movep_ea. ok. Qed.
Lemma ok_move_disp d0 d sp a n w : keeps d0 d -> 0 <= n < DSP_REG_MAX ->
  ok_res (keeps d0) (move_disp d sp a n w).
Proof. intros. unfold move_disp. ok. Qed.
#[local] Hint Resolve ok_movem ok_movep_ea ok_move_disp : dsp.

Lemma ok_add_x d0 d x b : keeps d0 d -> ok_res (keeps d0) (emu_add_x d x b).
Proof. intros. unfold emu_add_x. ok. Qed.
Lemma ok_sub_x d0 d x b : keeps d0 d -> ok_res (keeps d0) (emu_sub_x d x b).
Proof. intros. unfold emu_sub_x. ok. Qed.
Lemma ok_and_x d0 d x b : keeps d0 d -> ok_res (keeps d0) (emu_and_x d x b).
Proof. intros. unfold emu_and_x. ok. Qed.
Lemma ok_cmp_x d0 d x b : keeps d0 d -> ok_res (keeps d0) (cmp_x d x b).
Proof. intros. unfold cmp_x. ok. Qed.
#[local] Hint Resolve ok_add_x ok_sub_x ok_and_x ok_cmp_x : dsp.

Lemma safe_br b operand :
  (forall d0 d, keeps d0 d -> ok_res (fun r => keeps d0 r.1) (operand d)) -> alu_safe (emu_br b operand).
Proof. intros Ho. safe emu_br. Qed.
Lemma safe_j b1 b2 operand :
  (forall d0 d, keeps d0 d -> ok_res (fun r => keeps d0 r.1) (operand d)) ->
  alu_safe (emu_j b1 b2 operand).
Proof. intros Ho. safe emu_j. Qed.
Lemma safe_bit_mem f m : alu_safe (emu_bit_mem f m).
Proof. safe emu_bit_mem. Qed.
Lemma safe_bit_reg f : alu_safe (emu_bit_reg f).
Proof. safe emu_bit_reg. Qed.
Lemma safe_move_xy_imm sp : alu_safe (emu_move_xy_imm sp).
Proof. safe emu_move_xy_imm. Qed.
Lemma safe_btst m : alu_safe (emu_btst m).
Proof. safe emu_btst. Qed.
Lemma safe_add_imm : alu_safe emu_add_imm.
Proof. safe emu_add_imm. Qed.
Lemma safe_add_long : alu_safe emu_add_long.
Proof. safe emu_add_long. Qed.
Lemma safe_and_imm : alu_safe emu_and_imm.
Proof. safe emu_and_imm. Qed.
Lemma safe_and_long : alu_safe emu_and_long.
Proof. safe emu_and_long. Qed.
Lemma safe_andi : alu_safe emu_andi.
Proof. safe emu_andi. Qed.
Lemma safe_bcc_long : alu_safe emu_bcc_long.
Proof. safe emu_bcc_long. Qed.
Lemma safe_bcc_imm : alu_safe emu_bcc_imm.
Proof. safe emu_bcc_imm. Qed.
Lemma safe_bra_long : alu_safe emu_bra_long.
Proof. safe emu_bra_long. Qed.
Lemma safe_bra_imm : alu_safe emu_bra_imm.
Proof. safe emu_bra_imm. Qed.
Lemma safe_bsr_long : alu_safe emu_bsr_long.
Proof. safe emu_bsr_long. Qed.
Lemma safe_bsr_imm : alu_safe emu_bsr_imm.
Proof. safe emu_bsr_imm. Qed.
Lemma safe_btst_reg : alu_safe emu_btst_reg.
Proof. safe emu_btst_reg. Qed.
Lemma safe_cmp_imm : alu_safe emu_cmp_imm.
Proof. safe emu_cmp_imm. Qed.
Lemma safe_cmp_long : alu_safe emu_cmp_long.
Proof. safe emu_cmp_long. Qed.
Lemma safe_cmpu : alu_safe emu_cmpu.
Proof. safe emu_cmpu. Qed.
Lemma safe_dec : alu_safe emu_dec.
Proof. safe emu_dec. Qed.
Lemma safe_div : alu_safe emu_div.
Proof. safe emu_div. Qed.
Lemma safe_do_ea : alu_safe emu_do_ea.
Proof. safe emu_do_ea. Qed.
Lemma safe_do_aa : alu_safe emu_do_aa.
Proof. safe emu_do_aa. Qed.
Lemma safe_do_imm : alu_safe emu_do_imm.
Proof. safe emu_do_imm. Qed.
Lemma safe_do_reg : alu_safe emu_do_reg.
Proof. safe emu_do_reg. Qed.
Lemma safe_dor_imm : alu_safe emu_dor_imm.
Proof. safe emu_dor_imm. Qed.
Lemma safe_dor_reg : alu_safe emu_dor_reg.
Proof. safe emu_dor_reg. Qed.
Lemma safe_enddo : alu_safe emu_enddo.
Proof. safe emu_enddo. Qed.
Lemma safe_illegal : alu_safe emu_illegal.
Proof. safe emu_illegal. Qed.
Lemma safe_inc : alu_safe emu_inc.
Proof. safe emu_inc. Qed.
Lemma safe_jcc_imm : alu_safe emu_jcc_imm.
Proof. safe emu_jcc_imm. Qed.
Lemma safe_jcc_ea : alu_safe emu_jcc_ea.
Proof. safe emu_jcc_ea. Qed.
Lemma safe_jmp_ea : alu_safe emu_jmp_ea.
Proof. safe emu_jmp_ea. Qed.
Lemma safe_jmp_imm : alu_safe emu_jmp_imm.
Proof. safe emu_jmp_imm. Qed.
Lemma safe_jscc_imm : alu_safe emu_jscc_imm.
Proof. safe emu_jscc_imm. Qed.
Lemma safe_jscc_ea : alu_safe emu_jscc_ea.
Proof. safe emu_jscc_ea. Qed.
Lemma safe_jsr_ea : alu_safe emu_jsr_ea.
Proof. safe emu_jsr_ea. Qed.
Lemma safe_jsr_imm : alu_safe emu_jsr_imm.
Proof. safe emu_jsr_imm. Qed.
Lemma safe_lsl_imm : alu_safe emu_lsl_imm.
Proof.
  intros d0 d Hk. unfold emu_lsl_imm. generalize (zseq (inst_field d 1 5)). intros l.
  generalize (accu_of (inst_bit d 0)). intros D. revert d Hk.
  induction l as [|i l IH]; intros d Hk; [done|]. cbn [res_foldl].
  eapply ok_bind; [by apply safe_lsl|]. apply IH.
Qed.
Lemma safe_lua : alu_safe emu_lua.
Proof. safe emu_lua. Qed.
Lemma safe_lua_rel : alu_safe emu_lua_rel.
Proof. safe emu_lua_rel. Qed.
Lemma safe_move_x_long : alu_safe emu_move_x_long.
Proof. safe emu_move_x_long. Qed.
Lemma safe_movec_ea : alu_safe emu_movec_ea.
Proof. safe emu_movec_ea. Qed.
Lemma safe_movec_aa : alu_safe emu_movec_aa.
Proof. safe emu_movec_aa. Qed.
Lemma safe_movec_reg : alu_safe emu_movec_reg.
Proof. safe emu_movec_reg. Qed.
Lemma safe_movec_imm : alu_safe emu_movec_imm.
Proof. safe emu_movec_imm. Qed.
Lemma safe_movem_ea : alu_safe emu_movem_ea.
Proof. safe emu_movem_ea. Qed.
Lemma safe_movem_aa : alu_safe emu_movem_aa.
Proof. safe emu_movem_aa. Qed.
Lemma safe_movep_23 : alu_safe emu_movep_23.
Proof. safe emu_movep_23. Qed.
Lemma safe_movep_x_qq : alu_safe emu_movep_x_qq.
Proof. safe emu_movep_x_qq. Qed.
Lemma safe_movep_1 : alu_safe emu_movep_1.
Proof. safe emu_movep_1. Qed.
Lemma safe_movep_0 : alu_safe emu_movep_0.
Proof. safe emu_movep_0. Qed.
Lemma safe_mpyi : alu_safe emu_mpyi.
Proof. safe emu_mpyi. Qed.
Lemma safe_norm : alu_safe emu_norm.
Proof. safe emu_norm. Qed.
Lemma safe_or_long : alu_safe emu_or_long.
Proof. safe emu_or_long. Qed.
Lemma safe_ori : alu_safe emu_ori.
Proof. safe emu_ori. Qed.
Lemma safe_rep_ea : alu_safe emu_rep_ea.
Proof. safe emu_rep_ea. Qed.
Lemma safe_rep_aa : alu_safe emu_rep_aa.
Proof. safe emu_rep_aa. Qed.
Lemma safe_rep_imm : alu_safe emu_rep_imm.
Proof. safe emu_rep_imm. Qed.
Lemma safe_rep_reg : alu_safe emu_rep_reg.
Proof. safe emu_rep_reg. Qed.
Lemma safe_reset : alu_safe emu_reset.
Proof. safe emu_reset. Qed.
Lemma safe_rti : alu_safe emu_rti.
Proof. safe emu_rti. Qed.
Lemma safe_rts : alu_safe emu_rts.
Proof. safe emu_rts. Qed.
Lemma safe_stop : alu_safe emu_stop.
Proof. safe emu_stop. Qed.
Lemma safe_sub_imm : alu_safe emu_sub_imm.
Proof. safe emu_sub_imm. Qed.
Lemma safe_sub_long : alu_safe emu_sub_long.
Proof. safe emu_sub_long. Qed.
Lemma safe_tcc : alu_safe emu_tcc.
Proof.
  intros d0 d Hk. unfold emu_tcc. destruct (emu_calc_cc _ _); [|ok].
  eapply (ok_bind (fun r => 0 <= r.1 < DSP_REG_MAX)).
  { apply ok_aget; [by repeat constructor|]. apply (dsp_field_range _ 3 4). lia. }
  intros [r1 r2] Hr. cbn [fst] in Hr. ok.
Qed.
Lemma safe_wait : alu_safe emu_wait.
Proof. safe emu_wait. Qed.
#[local] Hint Resolve safe_br safe_j safe_bit_mem safe_bit_reg safe_move_xy_imm safe_btst safe_add_imm safe_add_long safe_and_imm safe_and_long safe_andi safe_bcc_long safe_bcc_imm safe_bra_long safe_bra_imm safe_bsr_long safe_bsr_imm safe_btst_reg safe_cmp_imm safe_cmp_long safe_cmpu safe_dec safe_div safe_do_ea safe_do_aa safe_do_imm safe_do_reg safe_dor_imm safe_dor_reg safe_enddo safe_illegal safe_inc safe_jcc_imm safe_jcc_ea safe_jmp_ea safe_jmp_imm safe_jscc_imm safe_jscc_ea safe_jsr_ea safe_jsr_imm safe_lsl_imm safe_lua safe_lua_rel safe_move_x_long safe_movec_ea safe_movec_aa safe_movec_reg safe_movec_imm safe_movem_ea safe_movem_aa safe_movep_23 safe_movep_x_qq safe_movep_1 safe_movep_0 safe_mpyi safe_norm safe_or_long safe_ori safe_rep_ea safe_rep_aa safe_rep_imm safe_rep_reg safe_reset safe_rti safe_rts safe_stop safe_sub_imm safe_sub_long safe_tcc safe_wait ok_mem_operand
  ok_pp_operand ok_reg_operand : alu.

(** ** The table

    An immediate shift has to be by 56 at most to the left, by one at least to the right. *)

Definition shift_defined (inst : Z) : bool :=
  if field inst 8 16 =? 0x0c1d then field inst 1 6 <=? 56
  else if field inst 8 16 =? 0x0c1c then 1 <=? field inst 1 6 else true.

(** The digits of the template of [e] are those of the instruction. *)
Definition matches (e : OpcodeEntry (X := X)) (op : Z) : Prop :=
  let '(mask, m) := template_match (template e) 0 0 in Z.land op mask = m.

Definition entry_safe (e : OpcodeEntry (X := X)) : Prop :=
  match emu_func e with
  | None => True
  | Some f => forall d0 d, keeps d0 d -> matches e (cur_inst d) -> shift_defined (cur_inst d) = true ->
      ok_res (keeps d0) (f d)
  end.

Lemma alu_entry_safe t f m : alu_safe f -> entry_safe (entry t (Some f) m).
Proof. intros Hf d0 d Hk _ _. by apply Hf. Qed.
Lemma none_entry_safe t m : entry_safe (entry t None m).
Proof. exact I. Qed.

Lemma ok_shift_imm shift d0 d : keeps d0 d ->
  (forall w, ok_res (fun _ => True) (shift w (inst_field d 1 6))) -> ok_res (keeps d0) (emu_shift_imm shift d).
Proof. intros. unfold emu_shift_imm. ok. Qed.

Lemma field_8_16 op v : Z.land op 0xffff00 = Z.shiftl v 8 -> field op 8 16 = v.
Proof.
  intros E. unfold field. apply (f_equal (fun x => Z.shiftr x 8)) in E.
  rewrite Z.shiftr_land in E. change (Z.shiftr 0xffff00 8) with (BITMASK 16) in E. rewrite E.
  rewrite Z.shiftr_shiftl_l by lia. apply Z.shiftl_0_r.
Qed.

Lemma asl_entry_safe : entry_safe (entry "0000110000011101SiiiiiiD" (Some emu_asl_imm) None).
Proof.
  intros d0 d Hk Hm%(field_8_16 _ 0x0c1d). unfold shift_defined. rewrite Hm. cbn [Z.eqb].
  intros Hs%Z.leb_le. apply ok_shift_imm; [done|]. intros w. apply ok_asl.
  unfold inst_field. pose proof (dsp_field_range (cur_inst d) 1 6). lia.
Qed.
Lemma asr_entry_safe : entry_safe (entry "0000110000011100SiiiiiiD" (Some emu_asr_imm) None).
Proof.
  intros d0 d Hk Hm%(field_8_16 _ 0x0c1c). unfold shift_defined. rewrite Hm. cbn [Z.eqb].
  intros Hs%Z.leb_le. apply ok_shift_imm; [done|]. intros w. apply ok_asr.
  unfold inst_field. pose proof (dsp_field_range (cur_inst d) 1 6). lia.
Qed.
#[local] Hint Resolve alu_entry_safe none_entry_safe asl_entry_safe asr_entry_safe : alu.

Lemma nonparallel_safe : Forall entry_safe nonparallel_opcodes.
Proof.
  unfold nonparallel_opcodes, emu_bchg, emu_bclr, emu_bset, emu_bchg_reg, emu_bclr_reg, emu_bset_reg,
    emu_brclr_pp, emu_brclr_reg, emu_brset_pp, emu_brset_reg, emu_jclr, emu_jclr_reg, emu_jset,
    emu_jset_reg, emu_jsclr, emu_jsclr_reg, emu_jsset, emu_jsset_reg, emu_move_x_imm, emu_move_y_imm.
  repeat first [apply Forall_nil_2 | apply Forall_cons_2]; eauto with alu.
Qed.

(** The look-up gives an entry that matches. *)
Lemma lookup_from_sound i l op j :
  lookup_from i (zip l ((fun e => template_match (template e) 0 0) <$> l)) op = Ok j ->
  exists e, l !! (j - i)%nat = Some e /\ (i <= j)%nat /\ matches e op.
Proof.
  revert i. induction l as [|e l IH]; intros i; cbn; [done|]. destruct (template_match _ 0 0) as [mask m] eqn:E.
  destruct ((_ =? _) && _) eqn:Eb.
  - intros [= <-]. exists e. rewrite Nat.sub_diag. split_and!; [done|lia|].
    apply andb_prop in Eb as [Eb%Z.eqb_eq _]. unfold matches. by rewrite E.
  - intros (e' & He & Hi & Hm)%IH. exists e'. split_and!; [|lia|done].
    by replace (j - i)%nat with (S (j - S i)) by lia.
Qed.

Lemma ok_run_opcode d0 d e : keeps d0 d -> lookup_opcode_slow (X := X) (cur_inst d) = Ok e ->
  shift_defined (cur_inst d) = true -> ok_res (keeps d0) (run_opcode d e).
Proof.
  intros Hk (en & He & _ & Hm)%lookup_from_sound Hs. rewrite Nat.sub_0_r in He. unfold run_opcode. rewrite He.
  pose proof (Forall_lookup_1 _ _ _ _ nonparallel_safe He) as Hsafe. unfold entry_safe in Hsafe.
  destruct (emu_func en); [by apply Hsafe|by apply ok_undefined].
Qed.

(** ** Caches *)

Lemma lookup_slow_benign op : ok_res (fun _ => True) (lookup_opcode_slow (X := X) op).
Proof.
  unfold lookup_opcode_slow. generalize 0%nat. induction (zip _ _) as [|[e [mask m]] l IH]; intros i; cbn;
    [by left|]. by case_match.
Qed.

Lemma ok_lookup_opcode d op : coherent (pram d) (pram_opcache d) (opcache d) ->
  ok_res (fun r => keeps d r.1 /\ lookup_opcode_slow (X := X) op = Ok r.2
                   /\ pram_opcache r.1 = pram_opcache d /\ pram r.1 = pram d /\ pc r.1 = pc d
                   /\ cur_inst r.1 = cur_inst d) (lookup_opcode d op).
Proof.
  intros [Hp Ho]. unfold lookup_opcode.
  assert (G : ok_res (fun r => keeps d r.1 /\ lookup_opcode_slow (X := X) op = Ok r.2
      /\ pram_opcache r.1 = pram_opcache d /\ pram r.1 = pram d /\ pc r.1 = pc d
      /\ cur_inst r.1 = cur_inst d)
    (e ← lookup_opcode_slow op; Ok (d <| opcache := <[opcache_tag op := (op, e)]> (opcache d) |>, e))).
  { destruct (lookup_opcode_slow op) as [e|f] eqn:E; cbn;
      [|pose proof (lookup_slow_benign op) as Hb; by rewrite E in Hb].
    split_and!; [|done..]. unfold keeps, pending. cbn. split_and!; try done; [by left|].
    intros _. split; [done|]. intros t op' e'. rewrite lookup_insert_Some.
    intros [[<- [= <- <-]]|[_ Ht]]; [done|by eapply Ho]. }
  destruct (opcache d !! opcache_tag op) as [[op' e]|] eqn:E; [|done].
  destruct (Z.eqb_spec op' op) as [->|]; [|done]. cbn. apply Ho in E.
  split_and!; auto using keeps_refl.
Qed.

Lemma ok_current_opcode d0 d : keeps d0 d -> coherent (pram d) (pram_opcache d) (opcache d) ->
  default 0 (pram d !! u32 (pc d)) = cur_inst d ->
  ok_res (fun r => keeps d0 r.1 /\ lookup_opcode_slow (X := X) (cur_inst d) = Ok r.2
                   /\ cur_inst r.1 = cur_inst d) (current_opcode d).
Proof.
  intros Hk Hc Hi. unfold current_opcode. destruct (pram_opcache d !! u32 (pc d)) as [e|] eqn:E.
  { cbn. split_and!; [done| |done]. rewrite <- Hi. by apply Hc. }
  eapply ok_bind; [by apply ok_lookup_opcode|]. intros [d1 e] (Hk1 & He & Ep & Epr & Epc & Eci).
  cbn in *. split_and!; [|done..]. eapply keeps_trans; [done|]. eapply keeps_trans; [done|].
  unfold keeps, pending. cbn. split_and!; try done; [by left|]. intros [Hp Ho]. split; [|done].
  intros a e'. rewrite lookup_insert_Some. intros [[<- <-]|[_ ?]]; [|by apply Hp].
  by rewrite Epr, Epc, Hi.
Qed.

(** ** One instruction *)

(** What holds between instructions. *)
Record cpu_inv d : Prop := {
  inv_counted : counted (interrupt_is_pending d) (interrupt_counter d);
  inv_coherent : coherent (pram d) (pram_opcache d) (opcache d);
  inv_pipeline : 0 <= interrupt_pipeline_count d <= 5
}.

Lemma cpu_inv_keeps d d' : cpu_inv d -> keeps d d' -> cpu_inv d'.
Proof. intros [Hc Ho Hp] (_ & E & _ & _ & Hc' & Ho'). split; [auto|auto|by rewrite E]. Qed.

Lemma ok_fetch d : ok_res (fun d' => keeps d d' /\ pram d' = pram d /\ pc d' = pc d
    /\ default 0 (pram d !! u32 (pc d)) = cur_inst d') (fetch d).
Proof.
  unfold fetch. eapply (ok_bind (fun r => r = default 0 (pram d !! u32 (pc d)))).
  - unfold read_memory_p. pose proof (uwrap_range 32 (pc d) ltac:(lia)) as [Ha _].
    eapply ok_bind; [apply ok_assert|]. intros _ _.
    eapply ok_bind; [apply ok_assert|]. cbn beta. intros _ Hp%Z.ltb_lt.
    unfold arr_at. rewrite (proj2 (Z.leb_le _ _)), (proj2 (Z.ltb_lt _ _)) by lia. cbn.
    eapply ok_bind; [apply ok_assert|]. done.
  - intros r ->. cbn. split_and!; [kp|done..].
Qed.

Lemma ok_execute d0 d : keeps d0 d -> coherent (pram d) (pram_opcache d) (opcache d) ->
  default 0 (pram d !! u32 (pc d)) = cur_inst d -> shift_defined (cur_inst d) = true ->
  ok_res (keeps d0) (execute d).
Proof.
  intros Hk Hc Hi Hs. unfold execute. destruct (cur_inst d <? _).
  - eapply ok_bind; [by apply ok_current_opcode|]. intros [d1 e] (Hk1 & He & Ec). cbn [fst snd] in *.
    apply ok_run_opcode; [done|..]; by rewrite Ec.
  - eapply (ok_bind alu_safe).
    + apply ok_aget; [apply safe_parmove|]. apply (dsp_field_range (cur_inst d) 20 4). lia.
    + intros f Hf. by apply Hf.
Qed.

Lemma ok_update_pc d0 d : keeps d0 d -> ok_res (keeps d0) (dsp_postexecute_update_pc d).
Proof.
  intros Hk. unfold dsp_postexecute_update_pc. cbv zeta.
  assert (Hr : keeps d0 (update_rep d)).
  { unfold update_rep. repeat case_match; kp. }
  ok.
Qed.

(** The part of an instruction before its interrupts. *)
Lemma ok_execute_update d : cpu_inv d -> shift_defined (default 0 (pram d !! u32 (pc d))) = true ->
  ok_res (keeps d) (d1 ← fetch d; d2 ← execute d1; dsp_postexecute_update_pc d2).
Proof.
  intros Hi Hs. eapply ok_bind; [apply ok_fetch|]. intros d1 (Hk & Ep & Epc & Ei).
  eapply ok_bind.
  - apply ok_execute; [done|by eapply inv_coherent, cpu_inv_keeps|by rewrite Ep, Epc|by rewrite <- Ei].
  - intros d2 Hk2. by apply ok_update_pc.
Qed.


End Safety.

End DspSafety.
