(* ===== verification/DspInterrupts.v ===== *)
(** * Interrupts of the DSP (theorems about DspCore and DspCpu)

    Which pending interrupt is dispatched, that the interrupt code keeps the invariant of
    DspSafety, so that every instruction does, and that a pending interrupt of the highest level
    is dispatched soon. *)

From S2P Require Import Prelude DspCore DspArith DspAlu DspMove DspEmu DspCpu DspSafety.
Import DspCore DspArith DspAlu DspMove DspEmu DspCpu DspSafety.

Module DspInterrupts.

Section Interrupts.
Context {X : Type} `{PeripheralLaws X}.
Implicit Types dsp d : dsp_core_t X.

(** ** Arbitration *)

Definition level d (i : Z) : Z := default 0 (interrupt_ipl d !! i).
Definition is_pending d (i : Z) : bool := default 0 (interrupt_is_pending d !! i) =? 1.

(** The first pending interrupt of level 3, if there is one. *)
Definition first_level_3 d (l : list Z) : option Z :=
  head (filter (fun i => is_pending d i = true /\ level d i = 3) l).

(** The first of the pending interrupts with the highest level, if that is not masked. *)
Definition highest d (ipl_sr : Z) (l : list Z) (best : option Z) (ipl : Z) : option Z :=
  (foldl (fun '(best, ipl) i =>
     if is_pending d i && (ipl_sr <=? level d i) && (ipl <? level d i) then (Some i, level d i)
     else (best, ipl)) (best, ipl) l).1.

Lemma arbitrate_spec d ipl_sr l best ipl : Forall (fun i => 0 <= i < 12) l ->
  arbitrate d ipl_sr l best ipl
  = Ok (match first_level_3 d l with Some i => Some i | None => highest d ipl_sr l best ipl end).
Proof.
  intros Hl. revert best ipl. induction Hl as [|i l Hi Hl IH]; intros best ipl; [done|].
  cbn [arbitrate]. unfold arr_at. rewrite (proj2 (Z.leb_le _ _)), (proj2 (Z.ltb_lt _ _)) by lia.
  cbn [andb mbind res_mbind res_bind]. unfold first_level_3, highest in *. cbn [foldl].
  fold (is_pending d i) (level d i). rewrite filter_cons.
  destruct (is_pending d i) eqn:Ep; cbn [andb]; [|by rewrite decide_False by (intros [? ?]; congruence); rewrite IH].
  destruct (Z.eqb_spec (level d i) 3) as [E3|E3]; [by rewrite decide_True|].
  rewrite decide_False by (intros [? ?]; congruence).
  rewrite (Z.leb_antisym (level d i) ipl_sr). destruct (level d i <? ipl_sr); cbn [negb andb]; [by rewrite IH|].
  rewrite (Z.ltb_antisym (level d i) ipl). destruct (level d i <=? ipl); cbn [negb]; by rewrite IH.
Qed.

Lemma first_level_3_spec d n j : first_level_3 d (zseq n) = Some j ->
  0 <= j < n /\ is_pending d j = true /\ level d j = 3
  /\ forall i, 0 <= i < j -> is_pending d i = true -> level d i <> 3.
Proof.
  unfold first_level_3. intros Hh. destruct (filter _ (zseq n)) as [|j' l] eqn:E; [done|].
  injection Hh as ->.
  assert (Hj : j ∈ filter (fun i => is_pending d i = true /\ level d i = 3) (zseq n))
    by (rewrite E; left).
  apply list_elem_of_filter in Hj as [[Hp Hl] Hn%elem_of_zseq]. split_and!; try lia; [done..|].
  intros i Hi Hpi Hli.
  replace (zseq n) with (seqZ 0 j ++ seqZ j (n - j)) in E by (unfold zseq; rewrite <- seqZ_app by lia; f_equal; lia).
  rewrite filter_app in E.
  assert (Hi' : i ∈ filter (fun i => is_pending d i = true /\ level d i = 3) (seqZ 0 j))
    by (apply list_elem_of_filter; split; [done|apply elem_of_seqZ; lia]).
  destruct (filter _ (seqZ 0 j)) as [|k l'] eqn:Ek; [by apply elem_of_nil in Hi'|].
  injection E as -> _.
  assert (Hk : j ∈ filter (fun i => is_pending d i = true /\ level d i = 3) (seqZ 0 j))
    by (rewrite Ek; left).
  apply list_elem_of_filter in Hk as [_ Hk%elem_of_seqZ]. lia.
Qed.

Lemma first_level_3_exists d n i : 0 <= i < n -> is_pending d i = true -> level d i = 3 ->
  exists j, first_level_3 d (zseq n) = Some j /\ 0 <= j <= i.
Proof.
  intros Hi Hp Hl. destruct (first_level_3 d (zseq n)) as [j|] eqn:E.
  - exists j. split; [done|]. apply first_level_3_spec in E as (Hj & _ & _ & Hmin).
    destruct (decide (i < j)); [|lia]. exfalso. apply (Hmin i); [lia|done..].
  - exfalso. assert (Hin : i ∈ filter (fun i => is_pending d i = true /\ level d i = 3) (zseq n))
      by (apply list_elem_of_filter; split; [done|by apply elem_of_zseq]).
    unfold first_level_3 in E. destruct (filter _ _); [by apply elem_of_nil in Hin|done].
Qed.

Lemma highest_pending d ipl_sr l best ipl i : highest d ipl_sr l best ipl = Some i ->
  best = Some i \/ (i ∈ l /\ is_pending d i = true /\ ipl_sr <= level d i).
Proof.
  unfold highest. revert best ipl. induction l as [|k l IH]; intros best ipl; cbn [foldl]; [by left|].
  intros Hh. destruct (is_pending d k && _ && _) eqn:E; apply IH in Hh as [Hb|(Hi & Hp & Hl)].
  - injection Hb as ->. right. apply andb_prop in E as [[Ep El%Z.leb_le]%andb_prop _].
    split_and!; [left|done..].
  - right. split_and!; [by right|done..].
  - by left.
  - right. split_and!; [by right|done..].
Qed.

(** ** What the interrupt code leaves alone *)

Definition same_irq d d' : Prop :=
  interrupt_ipl d' = interrupt_ipl d
  /\ (forall i, pending d i -> pending d' i)
  /\ (counted (interrupt_is_pending d) (interrupt_counter d) ->
      counted (interrupt_is_pending d') (interrupt_counter d'))
  /\ (coherent (X := X) (pram d) (pram_opcache d) (opcache d) ->
      coherent (X := X) (pram d') (pram_opcache d') (opcache d')).

Lemma keeps_same_irq d d' : keeps d d' -> same_irq d d'.
Proof. unfold keeps, same_irq. naive_solver. Qed.
Lemma same_irq_trans d1 d2 d3 : same_irq d1 d2 -> same_irq d2 d3 -> same_irq d1 d3.
Proof. unfold same_irq. intros (E1 & ? & ? & ?) (E2 & ? & ? & ?). rewrite E2. naive_solver. Qed.

(** [d'] differs from [d] in none of the fields. *)
Lemma same_irq_fields d d' : interrupt_ipl d' = interrupt_ipl d ->
  interrupt_is_pending d' = interrupt_is_pending d -> interrupt_counter d' = interrupt_counter d ->
  pram d' = pram d -> pram_opcache d' = pram_opcache d -> opcache d' = opcache d -> same_irq d d'.
Proof. intros E1 E2 E3 E4 E5 E6. unfold same_irq, pending. by rewrite E1, E2, E3, E4, E5, E6. Qed.

(** ** The pipeline *)

Lemma ok_long_interrupt d : ok_res (fun d' => same_irq d d'
  /\ interrupt_pipeline_count d' = interrupt_pipeline_count d) (long_interrupt d).
Proof.
  unfold long_interrupt. cbv zeta.
  set (d1 := d <| interrupt_state := DSP_INTERRUPT_LONG |>).
  eapply ok_bind; [apply (ok_stack_push d1), keeps_refl|]. intros d2 Hk. cbn [ok_res].
  assert (same_irq d d1) by by apply same_irq_fields.
  split; [|cbn; by destruct Hk as (_ & -> & _)].
  eapply same_irq_trans; [done|]. apply keeps_same_irq. kp.
Qed.

(** The pipeline either returns with its count decremented or goes on. *)
Definition pipeline_post d (r : dsp_core_t X * bool) : Prop :=
  same_irq d r.1
  /\ if r.2 then 1 <= interrupt_pipeline_count d
                 /\ interrupt_pipeline_count r.1 = interrupt_pipeline_count d - 1
     else interrupt_pipeline_count r.1 = interrupt_pipeline_count d.

Lemma dec_pipeline_post d d' : 1 <= interrupt_pipeline_count d <= 5 -> same_irq d d' ->
  interrupt_pipeline_count d' = interrupt_pipeline_count d -> pipeline_post d (dec_pipeline d', true).
Proof.
  intros Hc Hs E. split; [eapply same_irq_trans; [done|]; by apply same_irq_fields|].
  cbn. rewrite E, uwrap_id by lia. lia.
Qed.

Lemma ok_interrupt_pipeline d : 0 <= interrupt_pipeline_count d <= 5 ->
  ok_res (pipeline_post d) (interrupt_pipeline d).
Proof.
  intros Hc. unfold interrupt_pipeline, switch.
  assert (Hrefl : same_irq d d) by by apply same_irq_fields.
  repeat match goal with |- context [if interrupt_pipeline_count d =? ?k then _ else _] =>
    destruct (Z.eqb_spec (interrupt_pipeline_count d) k) as [E|] end; try lia.
  - cbn [ok_res]. apply dec_pipeline_post; [lia|done..].
  - cbv zeta. eapply ok_bind; [apply ok_read_memory_p|]. intros instr _.
    set (d1 := d <| interrupt_save_pc := _ |> <| pc := _ |>).
    eapply (ok_bind (fun d2 => same_irq d1 d2 /\ interrupt_pipeline_count d2 = interrupt_pipeline_count d1)).
    { destruct (is_jsr instr); [apply ok_long_interrupt|]. by split; [apply same_irq_fields|]. }
    intros d2 [Hs2 Ec]. cbn [ok_res]. apply dec_pipeline_post; [lia| |done].
    eapply same_irq_trans; [|done]. by apply same_irq_fields.
  - eapply (ok_bind (fun d2 => same_irq d d2 /\ interrupt_pipeline_count d2 = interrupt_pipeline_count d)).
    { case_match; [|done]. eapply ok_bind; [apply ok_read_memory_p|]. intros instr _.
      destruct (is_jsr instr); [apply ok_long_interrupt|done]. }
    intros d2 [Hs2 Ec]. cbn [ok_res]. apply dec_pipeline_post; [lia|done..].
  - cbn [ok_res]. apply dec_pipeline_post; [lia|by case_match; apply same_irq_fields|by case_match].
  - cbn [ok_res]. apply dec_pipeline_post; [lia|done..].
  - cbn [ok_res]. split; [by apply same_irq_fields|done].
Qed.

(** ** Dispatch *)

(** Interrupt [j] of [d] has been dispatched in [d']. *)
Definition dispatched d j d' : Prop :=
  interrupt_ipl d' = interrupt_ipl d
  /\ interrupt_is_pending d' = <[j := 0]> (interrupt_is_pending d)
  /\ aget dsp_interrupt j = Ok (interrupt_instr_fetch d')
  /\ interrupt_pipeline_count d' = 5 /\ interrupt_state d' = DSP_INTERRUPT_DISABLED.

Lemma pending_counter d i : counted (interrupt_is_pending d) (interrupt_counter d) -> 0 <= i < 12 ->
  pending d i -> 1 <= interrupt_counter d.
Proof.
  intros Hc Hi Hp. pose proof (counted_set _ _ i 0 Hc Hi (or_introl eq_refl)) as Hs.
  rewrite Hp in Hs. apply pending_count_range in Hs. lia.
Qed.

Lemma ok_dispatch d j : cpu_inv d -> 0 <= j < 12 -> pending d j ->
  ok_res (fun d' => cpu_inv d' /\ dispatched d j d') (dispatch_interrupt d j).
Proof.
  intros [Hc Ho Hl] Hj Hp. unfold dispatch_interrupt.
  eapply ok_bind; [by apply ok_arr_set|]. intros p ->. cbv zeta.
  eapply (ok_bind (fun _ => True)); [by apply ok_arr_at|]. intros ipl _.
  destruct (aget_ok dsp_interrupt j Hj) as (v & Ev & _). rewrite Ev. cbn [mbind res_mbind res_bind].
  do 3 (eapply ok_bind; [apply ok_true_assert|]; intros _ _).
  pose proof (pending_counter d j Hc Hj Hp). pose proof (pending_count_range _ _ Hc) as Hr.
  cbn. split; [split; cbn; [|done|lia]|by split_and!].
  change (u32 0) with 0. rewrite uwrap_id by lia.
  pose proof (counted_set _ _ j 0 Hc Hj (or_introl eq_refl)) as Hs. rewrite Hp in Hs.
  by replace (interrupt_counter d - 1 + 0) with (interrupt_counter d - 1) in Hs by lia.
Qed.

(** The interrupts [i] and above of level 3 are not taken before a lower one of level 3. *)
Definition taken d i d' : Prop :=
  exists j, 0 <= j <= i /\ level d j = 3 /\ ~ pending d' j /\ (j <> i -> pending d' i)
    /\ aget dsp_interrupt j = Ok (interrupt_instr_fetch d')
    /\ interrupt_pipeline_count d' = 5 /\ interrupt_state d' = DSP_INTERRUPT_DISABLED.

Lemma dispatched_taken d d1 i j d' : same_irq d d1 -> pending d1 i -> 0 <= j <= i -> level d1 j = 3 ->
  dispatched d1 j d' -> taken d i d'.
Proof.
  intros (Ei & _) Hp Hj Hl (Ei' & Ep & Ev & Ec & Es). exists j. split_and!; try done; try lia.
  - unfold level in *. by rewrite <- Ei.
  - unfold pending. rewrite Ep, lookup_insert_eq. done.
  - intros Hn. unfold pending in *. by rewrite Ep, lookup_insert_ne.
Qed.

Lemma is_pending_spec d i : is_pending d i = true <-> pending d i.
Proof. unfold is_pending, pending. apply Z.eqb_eq. Qed.

Lemma ok_raise_interrupt d : cpu_inv d ->
  ok_res (fun d' => cpu_inv d' /\ forall i, 0 <= i < 12 -> pending d i -> level d i = 3 -> taken d i d')
    (raise_interrupt d).
Proof.
  intros Hi. unfold raise_interrupt.
  eapply (ok_bind (keeps d)).
  { case_match; [apply ok_add_interrupt; [apply keeps_refl|by split]|apply keeps_refl]. }
  intros d1 Hk. assert (Hi1 : cpu_inv d1) by by eapply cpu_inv_keeps.
  pose proof (keeps_same_irq _ _ Hk) as Hs. destruct Hs as (Eipl & Hpend & _).
  assert (Hlev : forall i, level d1 i = level d i) by (intros; unfold level; by rewrite Eipl).
  destruct (Z.eqb_spec (interrupt_counter d1) 0) as [E0|E0].
  { cbn. split; [done|]. intros i Hr Hp _.
    pose proof (pending_counter d1 i (inv_counted _ Hi1) Hr (Hpend _ Hp)). lia. }
  cbv zeta. rewrite arbitrate_spec by (apply Forall_forall; intros i; by rewrite elem_of_zseq).
  cbn [mbind res_mbind res_bind].
  destruct (first_level_3 d1 (zseq 12)) as [j|] eqn:E3.
  - pose proof (first_level_3_spec _ _ _ E3) as (Hj & Hp%is_pending_spec & Hl & Hmin).
    eapply ok_mono; [by apply ok_dispatch|]. intros d' [Hi' Hd]. split; [done|].
    intros i Hr Hpi Hli. eapply (dispatched_taken d d1 i j); [by apply keeps_same_irq|by apply Hpend| |done..].
    destruct (first_level_3_exists d1 12 i) as (j' & E' & Hle); [done|by apply is_pending_spec, Hpend|
      by rewrite Hlev|]. rewrite E3 in E'. injection E' as <-. lia.
  - assert (Hno : forall i, 0 <= i < 12 -> pending d i -> level d i <> 3).
    { intros i Hr Hp%Hpend%is_pending_spec Hl. rewrite <- Hlev in Hl.
      destruct (first_level_3_exists d1 12 i Hr Hp Hl) as (? & ? & _). congruence. }
    destruct (highest _ _ _ _ _) as [j|] eqn:Eh; [|split; [done|]; intros i Hr Hp Hl; by destruct (Hno i)].
    apply highest_pending in Eh as [?|(Hj%elem_of_zseq & Hp%is_pending_spec & _)]; [done|].
    eapply ok_mono; [by apply ok_dispatch|]. intros d' [Hi' Hd]. split; [done|].
    intros i Hr Hp' Hl. by destruct (Hno i).
Qed.

(** ** After an instruction *)

(** Nothing of it is done inside a REP; otherwise the pipeline moves on or an interrupt may be
    taken. *)
Definition post_result d d' : Prop :=
  cpu_inv d' /\
  if loop_rep d =? 0 then
    (same_irq d d' /\ 1 <= interrupt_pipeline_count d
     /\ interrupt_pipeline_count d' = interrupt_pipeline_count d - 1)
    \/ (forall i, 0 <= i < 12 -> pending d i -> level d i = 3 -> taken d i d')
  else d' = d.

Lemma cpu_inv_irq d d' : cpu_inv d -> same_irq d d' -> 0 <= interrupt_pipeline_count d' <= 5 -> cpu_inv d'.
Proof. intros [Hc Ho _] (_ & _ & Hc' & Ho') Hp. split; auto. Qed.

Lemma taken_irq d d1 i d' : same_irq d d1 -> taken d1 i d' -> taken d i d'.
Proof. intros (E & _) (j & ? & Hl & ?). exists j. unfold level in *. by rewrite <- E. Qed.

Lemma ok_postexecute_interrupts d : cpu_inv d ->
  ok_res (post_result d) (dsp_postexecute_interrupts d).
Proof.
  intros Hi. unfold dsp_postexecute_interrupts, post_result. destruct (loop_rep d =? 0); cbn [negb]; [|done].
  eapply (ok_bind (pipeline_post d)).
  { case_match; [by apply ok_interrupt_pipeline, inv_pipeline|]. by split; [apply same_irq_fields|]. }
  intros [d1 returned] [Hs Hr]. cbn [fst snd] in *. pose proof (inv_pipeline _ Hi).
  destruct returned.
  - cbn. destruct Hr as [Hr1 Hr2]. split; [eapply cpu_inv_irq; [done..|lia]|by left].
  - assert (Hi1 : cpu_inv d1) by (eapply cpu_inv_irq; [done..|lia]).
    eapply ok_mono; [by apply ok_raise_interrupt|]. cbn beta. intros d' [Hi' Ht]. split; [done|]. right.
    intros i Hin Hp Hl. eapply taken_irq; [done|]. pose proof Hs as (E & Hpend & _).
    apply Ht; [done|auto|]. unfold level in *. by rewrite E.
Qed.

(** The REP is left alone. *)
Lemma rep_add_interrupt d i d' : dsp56k_add_interrupt d i = Ok d' -> loop_rep d' = loop_rep d.
Proof. unfold dsp56k_add_interrupt. intros E. res_inv E; by subst. Qed.
Lemma rep_stack_check d e n d' : stack_check d e n = Ok d' -> loop_rep d' = loop_rep d.
Proof.
  unfold stack_check. intros E. res_inv E; subst; [|done]. by eapply rep_add_interrupt.
Qed.
Lemma rep_stack_push d a b c d' : dsp_stack_push d a b c = Ok d' -> loop_rep d' = loop_rep d.
Proof.
  unfold dsp_stack_push. intros E. res_inv E. subst. cbn.
  match goal with H : stack_check _ _ _ = Ok _ |- _ => apply rep_stack_check in H as <- end.
  match goal with H : (if _ then _ else _) = Ok _ |- _ => res_inv H; subst; done end.
Qed.
Lemma rep_long_interrupt d d' : long_interrupt d = Ok d' -> loop_rep d' = loop_rep d.
Proof.
  unfold long_interrupt. intros E. res_inv E. subst. cbn.
  match goal with H : dsp_stack_push _ _ _ _ = Ok _ |- _ => by apply rep_stack_push in H end.
Qed.
Lemma rep_pipeline d d' b : interrupt_pipeline d = Ok (d', b) -> loop_rep d' = loop_rep d.
Proof.
  unfold interrupt_pipeline. intros E. res_inv E; simplify_eq; try done;
    repeat match goal with H : (if _ then _ else _) = Ok _ |- _ => res_inv H; simplify_eq end;
    try done; cbn; try (match goal with H : long_interrupt _ = Ok _ |- _ => by apply rep_long_interrupt in H end).
  by case_match.
Qed.
Lemma rep_raise d d' : raise_interrupt d = Ok d' -> loop_rep d' = loop_rep d.
Proof.
  unfold raise_interrupt, dispatch_interrupt. intros E. res_inv E; subst; cbn;
    match goal with H : (if _ then _ else _) = Ok _ |- _ => res_inv H; subst end;
    try done; by eapply rep_add_interrupt.
Qed.
Lemma rep_postexecute d d' : dsp_postexecute_interrupts d = Ok d' -> loop_rep d' = loop_rep d.
Proof.
  unfold dsp_postexecute_interrupts. intros E. res_inv E; simplify_eq; [done|..];
    match goal with H : (if _ then _ else _) = Ok _ |- _ => res_inv H; simplify_eq end;
    repeat match goal with
    | H : raise_interrupt _ = Ok _ |- _ => apply rep_raise in H as ->
    | H : interrupt_pipeline _ = Ok _ |- _ => by apply rep_pipeline in H
    end; done.
Qed.

(** ** One instruction *)

Lemma execute_unfold d d' : dsp56k_execute_instruction d = Ok d' -> exists d1 d2,
  (d1 ← fetch d; d2 ← execute d1; dsp_postexecute_update_pc d2) = Ok d1
  /\ dsp_postexecute_interrupts d1 = Ok d2 /\ d' = d2 <| num_inst := u32 (num_inst d2 + instr_cycle d2) |>.
Proof.
  unfold dsp56k_execute_instruction. intros E. res_inv E. subst.
  do 2 eexists. split_and!; [|done..].
  repeat match goal with H : _ = Ok _ |- context [_ ≫= _] => rewrite H; cbn [mbind res_mbind res_bind]; clear H end.
  done.
Qed.

(** The instruction that is executed next. *)
Definition next_inst d : Z := default 0 (pram d !! u32 (pc d)).

Lemma cpu_inv_fields d d' : cpu_inv d -> sens d' = sens d -> cpu_inv d'.
Proof. intros Hi E. eapply cpu_inv_keeps; [done|]. eapply keeps_sens; [done|apply keeps_refl]. Qed.

(** C5. Whatever instruction the program holds (except an immediate shift by more than 56 or to
    the right by 0), executing it does not index an array of the core or a table outside its
    bounds, divide by zero or run one of the interpreter's loops for ever: it returns a core, or
    an assertion of the source fails, or it started a transfer of a peripheral that does not
    come back ([Hang], which only the DMA engine's loops over lists and rings of the guest
    give).  The callbacks are those of [PeripheralLaws]; the device of the GP is an instance.  The core that it returns has its pending interrupts
    counted, an interrupt pipeline of at most 5, and its two opcode caches equal to what the
    table gives for the program memory, also when the program overwrites itself. *)
Theorem dsp_step_safe d : cpu_inv d -> shift_defined (next_inst d) = true ->
  ok_res cpu_inv (dsp56k_execute_instruction d).
Proof.
  intros Hi Hs. pose proof (ok_execute_update d Hi Hs) as Hu. unfold dsp56k_execute_instruction.
  destruct (fetch d) as [d1|f]; [|done]. cbn [mbind res_mbind res_bind] in *.
  destruct (execute d1) as [d2|f]; [|done]. cbn [mbind res_mbind res_bind] in *.
  eapply ok_bind; [exact Hu|]. intros d3 Hk.
  eapply ok_bind; [by eapply ok_postexecute_interrupts, cpu_inv_keeps|]. intros d4 [Hi4 _].
  cbn. by eapply cpu_inv_fields.
Qed.

(** ** Liveness *)

(** The cores after each of [n] instructions. *)
Fixpoint trace (n : nat) d : res (list (dsp_core_t X)) :=
  match n with
  | O => Ok []
  | S n => d' ← dsp56k_execute_instruction d; l ← trace n d'; Ok (d' :: l)
  end.

(** The instructions of [l] that did not end inside a REP. *)
Definition outside_rep (l : list (dsp_core_t X)) : Z :=
  Z.of_nat (length (filter (fun d => loop_rep d = 0) l)).

Lemma step_progress d d' i : cpu_inv d -> shift_defined (next_inst d) = true ->
  dsp56k_execute_instruction d = Ok d' -> 0 <= i < 12 -> pending d i -> level d i = 3 ->
  cpu_inv d' /\
  (taken d i d' \/
   (pending d' i /\ level d' i = 3
    /\ interrupt_pipeline_count d' + outside_rep [d'] = interrupt_pipeline_count d)).
Proof.
  intros Hi Hs Hx Hr Hp Hl. pose proof (ok_execute_update d Hi Hs) as Hu.
  apply execute_unfold in Hx as (d1 & d2 & E1 & E2 & ->). rewrite E1 in Hu. cbn in Hu.
  pose proof (cpu_inv_keeps _ _ Hi Hu) as Hi1. pose proof (rep_postexecute _ _ E2) as Erep.
  pose proof (ok_postexecute_interrupts d1 Hi1) as Hpost. rewrite E2 in Hpost. destruct Hpost as [Hi2 Hpost].
  split; [by eapply cpu_inv_fields|].
  pose proof (keeps_same_irq _ _ Hu) as Hsame. pose proof Hsame as (Eipl & Hpend & _).
  assert (Ec : interrupt_pipeline_count d1 = interrupt_pipeline_count d) by apply Hu.
  unfold outside_rep. rewrite filter_cons, filter_nil. cbn. rewrite Erep.
  destruct (Z.eqb_spec (loop_rep d1) 0) as [E0|E0].
  - rewrite decide_True by done. destruct Hpost as [(Hs2 & Hc1 & Hc2)|Ht].
    + right. pose proof Hs2 as (Eipl2 & Hpend2 & _). split_and!; [by apply Hpend2, Hpend| |cbn; lia].
      unfold level in *. cbn. by rewrite Eipl2, Eipl.
    + left. eapply (taken_irq d d1 i d2) in Hsame; [done|]. apply Ht; [done|by apply Hpend|].
      unfold level in *. by rewrite Eipl.
  - rewrite decide_False by done. subst d2. right. split_and!; [by apply Hpend| |cbn; lia].
    unfold level in *. cbn. by rewrite Eipl.
Qed.

(** C8. An interrupt of level 3 that is pending is taken: in any run of the program whose
    instructions outside of a REP are more than the interrupt pipeline still holds (so six at
    most), one of the instructions ends with an interrupt of level 3 dispatched, with this one
    or with one that comes before it in the table; its vector is what is fetched next and it is
    no longer pending, and this one is still pending if it was not the one. *)
Theorem dsp_interrupt_taken n d l i : cpu_inv d -> trace n d = Ok l ->
  Forall (fun d => shift_defined (next_inst d) = true) (d :: l) ->
  0 <= i < 12 -> pending d i -> level d i = 3 -> interrupt_pipeline_count d < outside_rep l ->
  exists l1 d1 d2 l2, d :: l = l1 ++ d1 :: d2 :: l2 /\ dsp56k_execute_instruction d1 = Ok d2
    /\ taken d1 i d2.
Proof.
  intros Hi Ht Hs Hr. revert d l Hi Ht Hs. induction n as [|n IH]; intros d l Hi Ht Hs Hp Hl Hc; cbn in Ht.
  - injection Ht as <-. pose proof (inv_pipeline _ Hi). unfold outside_rep in Hc. cbn in Hc. lia.
  - apply res_bind_Ok in Ht as (d' & Ex & Ht). apply res_bind_Ok in Ht as (l' & Ht & [= <-]).
    inversion_clear Hs as [|? ? Hs1 Hs2].
    destruct (step_progress d d' i Hi Hs1 Ex Hr Hp Hl) as [Hi' [Htk|(Hp' & Hl' & Ec)]].
    + by exists [], d, d', l'.
    + destruct (IH d' l' Hi' Ht Hs2 Hp' Hl') as (l1 & d1 & d2 & l2 & E & Ex' & Htk).
      { revert Ec Hc. unfold outside_rep. rewrite !filter_cons, filter_nil. case_decide; cbn; lia. }
      exists (d :: l1), d1, d2, l2. cbn. by rewrite E.
Qed.

End Interrupts.

End DspInterrupts.
