(* ===== verification/ApuMem.v ===== *)
(** * Guest memory of the audio DSPs (hw/xbox/mcpx/apu/dsp/gp_ep.c)

    The DSPs reach guest memory through lists of pages: a scratch area, addressed from 0, and
    FIFOs, which are rings inside such an area.  The theorems say which byte of guest memory
    each byte of a transfer goes to and that what a ring is given can be taken out again. *)

From S2P Require Import Prelude.

Module ApuMem.

(** ** Registers *)

Definition NV_PAPU_GPSADDR : Z := 0x2040.
Definition NV_PAPU_GPFADDR : Z := 0x2044.
Definition NV_PAPU_EPSADDR : Z := 0x2048.
Definition NV_PAPU_EPFADDR : Z := 0x204C.
Definition NV_PAPU_GPSMAXSGE : Z := 0x20D4.
Definition NV_PAPU_GPFMAXSGE : Z := 0x20D8.
Definition NV_PAPU_EPSMAXSGE : Z := 0x20DC.
Definition NV_PAPU_EPFMAXSGE : Z := 0x20E0.
Definition NV_PAPU_GPOFBASE0 : Z := 0x3024.
Definition NV_PAPU_GPOFEND0 : Z := 0x3028.
Definition NV_PAPU_GPOFCUR0 : Z := 0x302C.
Definition NV_PAPU_GPIFBASE0 : Z := 0x3064.
Definition NV_PAPU_GPIFEND0 : Z := 0x3068.
Definition NV_PAPU_GPIFCUR0 : Z := 0x306C.
Definition NV_PAPU_EPOFBASE0 : Z := 0x4024.
Definition NV_PAPU_EPOFEND0 : Z := 0x4028.
Definition NV_PAPU_EPOFCUR0 : Z := 0x402C.
Definition NV_PAPU_EPIFBASE0 : Z := 0x4064.
Definition NV_PAPU_EPIFEND0 : Z := 0x4068.
Definition NV_PAPU_EPIFCUR0 : Z := 0x406C.

(** [NV_PAPU_GPOFBASE0_VALUE], [NV_PAPU_GPOFEND0_VALUE] and [NV_PAPU_GPOFCUR0_VALUE] *)
Definition FIFO_VALUE : Z := 0x00FFFFFF.

Definition GP_OUTPUT_FIFO_COUNT : Z := 4.
Definition GP_INPUT_FIFO_COUNT : Z := 2.
Definition EP_OUTPUT_FIFO_COUNT : Z := 4.
Definition EP_INPUT_FIFO_COUNT : Z := 2.

Definition TARGET_PAGE_SIZE : Z := 4096.

Inductive mon_point := MON_AC97 | MON_VP | MON_GP | MON_EP | MON_GP_OR_EP.
#[export] Instance mon_point_eq_dec : EqDecision mon_point.
Proof. solve_decision. Defined.

(** ** State *)

(** What the transfers use of the audio unit. *)
Record apu_mem := {
  regs : gmap Z Z;
  ram : mem;                 (* ram_ptr *)
  ram_size : Z;              (* memory_region_size(d->ram) *)
  mon : mon_point;           (* monitor.point *)
  frame_buf : list Z         (* monitor.frame_buf, as bytes *)
}.

#[export] Instance eta_apu_mem : Eta apu_mem := fun r =>
  {| regs := regs r; ram := ram r; ram_size := ram_size r; mon := mon r; frame_buf := frame_buf r |}.

Definition reg (d : apu_mem) (n : Z) : Z := default 0 (regs d !! n).

(** The bytes [l] at the places [f v], [f (v + 1)] and so on, and what is there. *)
Fixpoint put (f : Z -> Z) (m : mem) (v : Z) (l : list Z) : mem :=
  match l with
  | [] => m
  | x :: l => put f (<[f v := x]> m) (v + 1) l
  end.
Fixpoint get (f : Z -> Z) (m : mem) (v : Z) (n : nat) : list Z :=
  match n with
  | O => []
  | S n => default 0 (m !! f v) :: get f m (v + 1) n
  end.

(** [memcpy] from and to [&d->ram_ptr[a]]. *)
Definition in_ram (d : apu_mem) (a : Z) (n : nat) : bool := (0 <=? a) && (a + Z.of_nat n <=? ram_size d).
Definition rd_bytes (d : apu_mem) (a : Z) (n : nat) : res (list Z) :=
  if in_ram d a n then Ok (get (fun x => x) (ram d) a n) else Fault OutOfBounds.
Definition wr_bytes (d : apu_mem) (a : Z) (l : list Z) : res apu_mem :=
  if in_ram d a (length l) then Ok (d <| ram := put (fun x => x) (ram d) a l |>) else Fault OutOfBounds.

Section Transfers.

(** What a guest-physical address outside of the RAM reads as. *)
Context (mmio_ldl : Z -> Z).
Implicit Types d : apu_mem.

(** [ldl_le_phys(&address_space_memory, a)]: the RAM is at address 0. *)
Definition ldl_le_phys d (a : Z) : Z :=
  if (0 <=? a) && (a + 3 <? ram_size d) then
    let b i := default 0 (ram d !! (a + i)) in b 0 + 256 * b 1 + 65536 * b 2 + 16777216 * b 3
  else mmio_ldl a.

(** ** Transfers by pages

    The buffer from [ptr] on is a list of bytes, at least [len], which a read replaces. *)

Fixpoint sg_loop (fuel : nat) d (sge_base max_sge : Z) (ptr : list Z)
    (page_entry offset_in_page bytes_to_copy len : Z) (dir : bool) : res (apu_mem * list Z) :=
  if 0 <? len then
    match fuel with
    | O => Fault OutOfFuel
    | S fuel =>
        _ ← c_assert (page_entry <=? max_sge);
        let prd_address := ldl_le_phys d (sge_base + u32 (page_entry * 8 + 0)) in
        let paddr := u32 (prd_address + offset_in_page) in
        let bytes_to_copy := if len <? bytes_to_copy then len else bytes_to_copy in
        _ ← c_assert (paddr + bytes_to_copy <? ram_size d);
        let n := Z.to_nat bytes_to_copy in
        '(d, done) ← (if dir then
                        d ← wr_bytes d paddr (take n ptr); Ok (d, take n ptr)
                      else l ← rd_bytes d paddr n; Ok (d, l));
        '(d, rest) ← sg_loop fuel d sge_base max_sge (drop n ptr) (u32 (page_entry + 1)) 0
                       TARGET_PAGE_SIZE (len - bytes_to_copy) dir;
        Ok (d, done ++ rest)
    end
  else Ok (d, ptr).

Definition scatter_gather_rw d (sge_base max_sge : Z) (ptr : list Z) (addr len : Z) (dir : bool)
  : res (apu_mem * list Z) :=
  let page_entry := addr / TARGET_PAGE_SIZE in
  let offset_in_page := addr mod TARGET_PAGE_SIZE in
  let bytes_to_copy := TARGET_PAGE_SIZE - offset_in_page in
  sg_loop (Z.to_nat len) d sge_base max_sge ptr page_entry offset_in_page bytes_to_copy len dir.

Definition gp_scratch_rw d (ptr : list Z) (addr len : Z) (dir : bool) : res (apu_mem * list Z) :=
  scatter_gather_rw d (reg d NV_PAPU_GPSADDR) (reg d NV_PAPU_GPSMAXSGE) ptr addr len dir.
Definition ep_scratch_rw d (ptr : list Z) (addr len : Z) (dir : bool) : res (apu_mem * list Z) :=
  scatter_gather_rw d (reg d NV_PAPU_EPSADDR) (reg d NV_PAPU_EPSMAXSGE) ptr addr len dir.

(** ** Rings *)

(** The state, the buffer and the position after the transfer, which does not end in a ring
    without bytes. *)
Fixpoint circular_loop (fuel : nat) d (sge_base max_sge : Z) (ptr : list Z) (base end_ cur len : Z)
    (dir : bool) : res (apu_mem * list Z * Z) :=
  if 0 <? len then
    match fuel with
    | O => Fault Hang
    | S fuel =>
        let bytes_to_copy := u32 (end_ - cur) in
        let bytes_to_copy := if len <? bytes_to_copy then len else bytes_to_copy in
        _ ← c_assert ((base <=? cur) && (u32 (cur + bytes_to_copy) <=? end_));
        let n := Z.to_nat bytes_to_copy in
        '(d, done) ← scatter_gather_rw d sge_base max_sge (take n ptr) cur bytes_to_copy dir;
        let cur := u32 (cur + bytes_to_copy) in
        cur ← (if end_ <=? cur then _ ← c_assert (cur =? end_); Ok base else Ok cur);
        '(d, rest, cur) ← circular_loop fuel d sge_base max_sge (drop n ptr) base end_ cur
                            (len - bytes_to_copy) dir;
        Ok (d, done ++ rest, cur)
    end
  else Ok (d, ptr, cur).

Definition circular_scatter_gather_rw d (sge_base max_sge : Z) (ptr : list Z) (base end_ cur len : Z)
    (dir : bool) : res (apu_mem * list Z * Z) :=
  circular_loop (Z.to_nat len) d sge_base max_sge ptr base end_ cur len dir.

(** ** FIFOs *)

Definition gp_fifo_rw d (ptr : list Z) (index len : Z) (dir : bool) : res (apu_mem * list Z) :=
  '(base, end_, cur_reg) ←
    (if dir then
       _ ← c_assert (index <? GP_OUTPUT_FIFO_COUNT);
       Ok (GET_MASK (reg d (NV_PAPU_GPOFBASE0 + 0x10 * index)) FIFO_VALUE,
           GET_MASK (reg d (NV_PAPU_GPOFEND0 + 0x10 * index)) FIFO_VALUE,
           NV_PAPU_GPOFCUR0 + 0x10 * index)
     else
       _ ← c_assert (index <? GP_INPUT_FIFO_COUNT);
       Ok (GET_MASK (reg d (NV_PAPU_GPIFBASE0 + 0x10 * index)) FIFO_VALUE,
           GET_MASK (reg d (NV_PAPU_GPIFEND0 + 0x10 * index)) FIFO_VALUE,
           NV_PAPU_GPIFCUR0 + 0x10 * index));
  let cur := GET_MASK (reg d cur_reg) FIFO_VALUE in
  _ ← c_assert (cur <? end_);
  let cur := if cur <? base then base else cur in
  '(d, ptr, cur) ← circular_scatter_gather_rw d (reg d NV_PAPU_GPFADDR) (reg d NV_PAPU_GPFMAXSGE)
                     ptr base end_ cur len dir;
  Ok (d <| regs := <[cur_reg := SET_MASK (reg d cur_reg) FIFO_VALUE cur]> (regs d) |>, ptr).

(** The state, and whether the samples are taken by the monitor. *)
Definition ep_sink_samples d (ptr : list Z) (len : Z) : res (apu_mem * bool) :=
  if decide (mon d = MON_AC97) then Ok (d, false)
  else if decide (mon d = MON_EP \/ mon d = MON_GP_OR_EP) then
    _ ← c_assert (len =? 1024);
    Ok (d <| frame_buf := take (Z.to_nat len) ptr |>, true)
  else Ok (d, true).

Definition ep_fifo_rw d (ptr : list Z) (index len : Z) (dir : bool) : res (apu_mem * list Z) :=
  '(base, end_, cur_reg) ←
    (if dir then
       _ ← c_assert (index <? EP_OUTPUT_FIFO_COUNT);
       Ok (GET_MASK (reg d (NV_PAPU_EPOFBASE0 + 0x10 * index)) FIFO_VALUE,
           GET_MASK (reg d (NV_PAPU_EPOFEND0 + 0x10 * index)) FIFO_VALUE,
           NV_PAPU_EPOFCUR0 + 0x10 * index)
     else
       _ ← c_assert (index <? EP_INPUT_FIFO_COUNT);
       Ok (GET_MASK (reg d (NV_PAPU_EPIFBASE0 + 0x10 * index)) FIFO_VALUE,
           GET_MASK (reg d (NV_PAPU_EPIFEND0 + 0x10 * index)) FIFO_VALUE,
           NV_PAPU_EPIFCUR0 + 0x10 * index));
  let cur := GET_MASK (reg d cur_reg) FIFO_VALUE in
  '(d, ptr) ← (if dir && (index =? 0) then
                 '(d, did_sink) ← ep_sink_samples d ptr len;
                 if did_sink : bool then
                   _ ← c_assert (len <=? 1024);
                   Ok (d, replicate 1024 0)        (* ep_silence *)
                 else Ok (d, ptr)
               else Ok (d, ptr));
  cur ← (if end_ <=? cur then
           if u32 (end_ - base) =? 0 then Fault DivByZero else Ok (cur mod u32 (end_ - base))
         else Ok cur);
  let cur := if cur <? base then base else cur in
  '(d, ptr, cur) ← circular_scatter_gather_rw d (reg d NV_PAPU_EPFADDR) (reg d NV_PAPU_EPFMAXSGE)
                     ptr base end_ cur len dir;
  Ok (d <| regs := <[cur_reg := SET_MASK (reg d cur_reg) FIFO_VALUE cur]> (regs d) |>, ptr).

(** ** Where the bytes go *)

Lemma put_app f m v l1 l2 : put f m v (l1 ++ l2) = put f (put f m v l1) (v + Z.of_nat (length l1)) l2.
Proof.
  revert m v. induction l1 as [|x l1 IH]; intros m v; cbn [app put length]; [by rewrite Z.add_0_r|].
  rewrite IH. f_equal. lia.
Qed.
Lemma get_app f m v n1 n2 : get f m v (n1 + n2) = get f m v n1 ++ get f m (v + Z.of_nat n1) n2.
Proof.
  revert v. induction n1 as [|n1 IH]; intros v; cbn [Nat.add get app]; [by rewrite Z.add_0_r|].
  rewrite IH. do 3 f_equal. lia.
Qed.
Lemma put_ext f g m v w l : (forall i, 0 <= i < Z.of_nat (length l) -> f (v + i) = g (w + i)) ->
  put f m v l = put g m w l.
Proof.
  revert m v w. induction l as [|x l IH]; intros m v w Hf; [done|]. cbn [put].
  rewrite <- (Z.add_0_r v), <- (Z.add_0_r w), (Hf 0) by (cbn; lia). apply IH.
  intros i Hi. replace (v + 0 + 1 + i) with (v + (1 + i)) by lia.
  replace (w + 0 + 1 + i) with (w + (1 + i)) by lia. apply Hf. cbn [length]. lia.
Qed.
Lemma get_ext f g m v w n : (forall i, 0 <= i < Z.of_nat n -> f (v + i) = g (w + i)) ->
  get f m v n = get g m w n.
Proof.
  revert v w. induction n as [|n IH]; intros v w Hf; [done|]. cbn [get].
  rewrite <- (Z.add_0_r v), <- (Z.add_0_r w), (Hf 0) by lia. f_equal. apply IH.
  intros i Hi. replace (v + 0 + 1 + i) with (v + (1 + i)) by lia.
  replace (w + 0 + 1 + i) with (w + (1 + i)) by lia. apply Hf. lia.
Qed.

Lemma put_other f m v l a : (forall i, 0 <= i < Z.of_nat (length l) -> f (v + i) <> a) ->
  put f m v l !! a = m !! a.
Proof.
  revert m v. induction l as [|x l IH]; intros m v Hf; [done|]. cbn [put]. rewrite IH.
  - rewrite lookup_insert_ne; [done|]. rewrite <- (Z.add_0_r v). apply Hf. cbn. lia.
  - intros i Hi. replace (v + 1 + i) with (v + (1 + i)) by lia. apply Hf. cbn [length]. lia.
Qed.

(** What was put at different places is found there. *)
Lemma get_put f m v l :
  (forall i j, 0 <= i < j -> j < Z.of_nat (length l) -> f (v + i) <> f (v + j)) ->
  get f (put f m v l) v (length l) = l.
Proof.
  revert m v. induction l as [|x l IH]; intros m v Hf; [done|]. cbn [length get put].
  assert (Hs : forall i, v + 1 + i = v + (1 + i)) by lia.
  rewrite put_other, lookup_insert_eq; cbn [default from_option id].
  - f_equal. apply IH. intros i j Hi Hj. rewrite !Hs. apply Hf; cbn [length]; lia.
  - intros i Hi. rewrite Hs. intros E. apply (Hf 0 (1 + i)); [lia|cbn [length]; lia|].
    by rewrite Z.add_0_r.
Qed.

Lemma lookup_put f m v l k x :
  (forall i j, 0 <= i < j -> j < Z.of_nat (length l) -> f (v + i) <> f (v + j)) ->
  l !! k = Some x -> put f m v l !! f (v + Z.of_nat k) = Some x.
Proof.
  revert m v k. induction l as [|y l IH]; intros m v k Hf Hk; [done|]. cbn [put].
  assert (Hs : forall i, v + 1 + i = v + (1 + i)) by lia.
  destruct k as [|k]; cbn in Hk.
  - injection Hk as <-. rewrite Z.add_0_r, put_other, lookup_insert_eq; [done|].
    intros i Hi. rewrite Hs. intros E. apply (Hf 0 (1 + i)); [lia|cbn [length]; lia|].
    by rewrite Z.add_0_r.
  - replace (v + Z.of_nat (S k)) with (v + 1 + Z.of_nat k) by lia. apply IH; [|done].
    intros i j Hi Hj. rewrite !Hs. apply Hf; cbn [length]; lia.
Qed.

(** ** Pages *)

(** Entry [e] of the list of pages at [sge_base]. *)
Definition page d (sge_base e : Z) : Z := ldl_le_phys d (sge_base + u32 (e * 8 + 0)).

(** The addresses [lo] to [hi] of an area whose list of pages is at [sge_base]: [T] says where
    in the RAM they are.  The pages are in the RAM and the list is not on one of them. *)
Record area d (sge_base max_sge : Z) (T : Z -> Z) (lo hi : Z) : Prop := {
  area_range : 0 <= lo /\ hi <= 2 ^ 32;
  area_ram : ram_size d <= 2 ^ 32;
  area_entry : forall v, lo <= v < hi -> v / 4096 <= max_sge;
  area_page : forall v, lo <= v < hi -> 0 <= page d sge_base (v / 4096)
                /\ page d sge_base (v / 4096) + 4096 < ram_size d;
  area_at : forall v, lo <= v < hi -> T v = page d sge_base (v / 4096) + v mod 4096;
  area_list : forall v w i, lo <= v < hi -> lo <= w < hi -> 0 <= i < 4 ->
                T v <> sge_base + u32 (w / 4096 * 8 + 0) + i
}.

Lemma ldl_put d f v l a :
  (forall i j, 0 <= i < Z.of_nat (length l) -> 0 <= j < 4 -> f (v + i) <> a + j) ->
  ldl_le_phys (d <| ram := put f (ram d) v l |>) a = ldl_le_phys d a.
Proof.
  intros Hf. unfold ldl_le_phys. cbn. case_match; [|done].
  rewrite !put_other; [done|..]; intros i Hi; by apply Hf.
Qed.

Lemma area_put d sge_base max_sge T lo hi f v l : area d sge_base max_sge T lo hi ->
  (forall i, 0 <= i < Z.of_nat (length l) -> exists w, lo <= w < hi /\ f (v + i) = T w) ->
  area (d <| ram := put f (ram d) v l |>) sge_base max_sge T lo hi.
Proof.
  intros [Hr Hs He Hp Ht Hl] Hf.
  assert (E : forall w, lo <= w < hi ->
    page (d <| ram := put f (ram d) v l |>) sge_base (w / 4096) = page d sge_base (w / 4096)).
  { intros w Hw. apply ldl_put. intros i j Hi Hj. destruct (Hf i Hi) as (u & Hu & ->). by apply Hl. }
  split; cbn.
  - done.
  - done.
  - done.
  - intros w Hw. rewrite E by done. by apply Hp.
  - intros w Hw. rewrite E by done. by apply Ht.
  - done.
Qed.

Lemma area_sub d sge_base max_sge T lo hi lo' hi' : area d sge_base max_sge T lo hi ->
  lo <= lo' -> hi' <= hi -> area d sge_base max_sge T lo' hi'.
Proof.
  intros [Hr Hs He Hp Ht Hl] Hlo Hhi.
  split; [lia|done|intros; apply He; lia|intros; apply Hp; lia|intros; apply Ht; lia|].
  intros v w i Hv Hw Hi. apply Hl; lia.
Qed.

(** Inside a page the places are consecutive. *)
Lemma area_chunk d sge_base max_sge T lo hi n : area d sge_base max_sge T lo hi ->
  0 < n -> lo + n <= hi -> lo mod 4096 + n <= 4096 ->
  T lo + n < ram_size d /\ 0 <= T lo /\ T lo = u32 (page d sge_base (lo / 4096) + lo mod 4096)
  /\ forall i, 0 <= i < n -> T (lo + i) = T lo + i.
Proof.
  intros Ha Hn Hh Hp. destruct Ha as [Hr Hs He Hpg Ht Hl].
  pose proof (Z.mod_pos_bound lo 4096 ltac:(lia)). destruct (Hpg lo) as [Hp0 Hp1]; [lia|].
  rewrite Ht by lia. split_and!; [lia|lia|by rewrite uwrap_id by lia|].
  intros i Hi. rewrite Ht by lia.
  assert (E : (lo + i) / 4096 = lo / 4096 /\ (lo + i) mod 4096 = lo mod 4096 + i) by dlia.
  destruct E as [-> ->]. lia.
Qed.

Lemma ram_same d : d <| ram := ram d |> = d.
Proof. by destruct d. Qed.

(** The rest of a transfer after a chunk begins at a page. *)
Lemma next_page v n : 0 <= v < 2 ^ 32 -> n = 4096 - v mod 4096 -> v + n < 2 ^ 32 ->
  u32 (v / 4096 + 1) = (v + n) / 4096 /\ (v + n) mod 4096 = 0.
Proof. intros Hv -> Hn. rewrite uwrap_id by dlia. dlia. Qed.

(** What a transfer of the buffer [l] to or from the addresses from [v] on gives. *)
Definition moved d (T : Z -> Z) (v : Z) (l : list Z) (dir : bool) : apu_mem * list Z :=
  if dir then (d <| ram := put T (ram d) v l |>, l) else (d, get T (ram d) v (length l)).

Lemma moved_area d sb mx T lo hi v l dir : area d sb mx T lo hi -> lo <= v ->
  v + Z.of_nat (length l) <= hi -> area (moved d T v l dir).1 sb mx T lo hi.
Proof.
  intros Ha Hv Hh. destruct dir; [|done]. apply area_put; [done|]. intros i Hi. exists (v + i). lia.
Qed.

Lemma moved_nil d T v dir : moved d T v [] dir = (d, []).
Proof. destruct dir; [|done]. cbn. by rewrite ram_same. Qed.

Lemma moved_app d T v l1 l2 dir : moved d T v (l1 ++ l2) dir
  = (let '(d1, done) := moved d T v l1 dir in
     let '(d2, rest) := moved d1 T (v + Z.of_nat (length l1)) l2 dir in (d2, done ++ rest)).
Proof.
  destruct dir; cbn; [by rewrite put_app|]. by rewrite length_app, get_app.
Qed.

Lemma moved_ext d f g v w l dir : (forall i, 0 <= i < Z.of_nat (length l) -> f (v + i) = g (w + i)) ->
  moved d f v l dir = moved d g w l dir.
Proof.
  intros E. destruct dir; cbn; [by rewrite (put_ext f g (ram d) v w l)|].
  by rewrite (get_ext f g (ram d) v w).
Qed.

(** A chunk inside a page. *)
Lemma chunk_moved d sb mx T v l n (dir : bool) : area d sb mx T v (v + Z.of_nat (length l)) ->
  0 < n <= Z.of_nat (length l) -> v mod 4096 + n <= 4096 ->
  (if dir then d' ← wr_bytes d (T v) (take (Z.to_nat n) l); Ok (d', take (Z.to_nat n) l)
   else l ← rd_bytes d (T v) (Z.to_nat n); Ok (d, l))
  = Ok (moved d T v (take (Z.to_nat n) l) dir).
Proof.
  intros Ha Hn Hp. destruct (area_chunk d sb mx T v (v + Z.of_nat (length l)) n) as (Hin & H0 & _ & Hi);
    [done|lia..|].
  assert (Htk : length (take (Z.to_nat n) l) = Z.to_nat n) by (rewrite length_take; lia).
  unfold wr_bytes, rd_bytes, in_ram. rewrite Htk.
  rewrite (proj2 (Z.leb_le _ _)), (proj2 (Z.leb_le _ _)) by lia. unfold moved. destruct dir; cbn.
  - by rewrite (put_ext (fun x => x) T (ram d) (T v) v) by (rewrite Htk; intros i Hii; rewrite Hi; lia).
  - by rewrite Htk, (get_ext (fun x => x) T (ram d) (T v) v) by (intros i Hii; rewrite Hi; lia).
Qed.

Lemma sg_loop_moved fuel d sb mx T v l dir : area d sb mx T v (v + Z.of_nat (length l)) ->
  (length l <= fuel)%nat ->
  sg_loop fuel d sb mx l (v / 4096) (v mod 4096) (4096 - v mod 4096) (Z.of_nat (length l)) dir
  = Ok (moved d T v l dir).
Proof.
  revert d v l. induction fuel as [|fuel IH]; intros d v l Ha Hf; cbn [sg_loop];
    (destruct (Z.ltb_spec 0 (Z.of_nat (length l))) as [Hlen|Hlen];
     [|assert (l = []) as -> by (destruct l; [done|cbn in Hlen; lia]); by rewrite moved_nil]); [lia|].
  pose proof (Z.mod_pos_bound v 4096 ltac:(lia)) as Hm.
  rewrite (proj2 (Z.leb_le _ _)) by (eapply area_entry; [done|lia]). cbn [c_assert mbind res_mbind res_bind].
  set (n := if Z.of_nat (length l) <? 4096 - v mod 4096 then _ else _).
  assert (Hn : 0 < n <= Z.of_nat (length l) /\ v mod 4096 + n <= 4096
               /\ (n = Z.of_nat (length l) \/ n = 4096 - v mod 4096)).
  { unfold n. destruct (Z.ltb_spec (Z.of_nat (length l)) (4096 - v mod 4096)); lia. }
  clearbody n. fold (page d sb (v / 4096)). destruct Hn as (Hn & Hp & Hor).
  destruct (area_chunk d sb mx T v (v + Z.of_nat (length l)) n) as (Hin & H0 & Et & Hi); [done|lia..|].
  rewrite <- Et, (proj2 (Z.ltb_lt _ _)) by done. cbn [c_assert mbind res_mbind res_bind].
  rewrite (chunk_moved d sb mx T v l n dir) by (done || lia).
  replace (moved d T v l dir) with (moved d T v (take (Z.to_nat n) l ++ drop (Z.to_nat n) l) dir)
    by (by rewrite take_drop).
  rewrite moved_app.
  assert (Htk : length (take (Z.to_nat n) l) = Z.to_nat n) by (rewrite length_take; lia).
  pose proof (moved_area d sb mx T v (v + Z.of_nat (length l)) v (take (Z.to_nat n) l) dir Ha
    ltac:(lia) ltac:(lia)) as Ha1.
  destruct (moved d T v (take (Z.to_nat n) l) dir) as [d1 done1]. cbn [mbind res_mbind res_bind fst] in *.
  rewrite Htk, Z2Nat.id by lia.
  assert (Hdl : Z.of_nat (length l) - n = Z.of_nat (length (drop (Z.to_nat n) l))) by (rewrite length_drop; lia).
  rewrite Hdl. destruct (decide (n = Z.of_nat (length l))) as [En|En].
  { assert (drop (Z.to_nat n) l = []) as -> by (apply length_zero_iff_nil; rewrite length_drop; lia).
    rewrite moved_nil. by destruct fuel. }
  destruct Hor as [?|Hor]; [done|]. pose proof (area_range _ _ _ _ _ _ Ha) as Hr.
  destruct (next_page v n) as [-> E0]; [lia..|]. unfold TARGET_PAGE_SIZE.
  replace 4096 with (4096 - (v + n) mod 4096) at 2 by lia. rewrite <- E0 at 1.
  rewrite IH; [by destruct (moved d1 T (v + n) (drop (Z.to_nat n) l) dir)| |rewrite length_drop; lia].
  eapply area_sub; [done|lia|]. rewrite length_drop. lia.
Qed.

Lemma scatter_gather_moved d sb mx T v l dir : area d sb mx T v (v + Z.of_nat (length l)) ->
  scatter_gather_rw d sb mx l v (Z.of_nat (length l)) dir = Ok (moved d T v l dir).
Proof. intros Ha. unfold scatter_gather_rw, TARGET_PAGE_SIZE. rewrite Nat2Z.id. by apply sg_loop_moved. Qed.

(** ** Rings *)

(** The address of a ring from [base] to [end_] that [v] falls on. *)
Definition ring (base end_ v : Z) : Z := base + (v - base) mod (end_ - base).

Lemma ring_small base end_ v : base <= v < end_ -> ring base end_ v = v.
Proof. intros. unfold ring. rewrite Z.mod_small by lia. lia. Qed.
Lemma ring_range base end_ v : base < end_ -> base <= ring base end_ v < end_.
Proof. intros. unfold ring. pose proof (Z.mod_pos_bound (v - base) (end_ - base)). lia. Qed.
Lemma ring_wrap base end_ v i : base < end_ -> v = end_ -> ring base end_ (v + i) = ring base end_ (base + i).
Proof.
  intros Hb ->. unfold ring. f_equal.
  replace (end_ + i - base) with (base + i - base + 1 * (end_ - base)) by lia. apply Z.mod_add. lia.
Qed.

Lemma circular_moved fuel d sb mx T base end_ cur l dir : area d sb mx T base end_ ->
  base <= cur < end_ -> end_ < 2 ^ 32 -> (length l <= fuel)%nat ->
  circular_loop fuel d sb mx l base end_ cur (Z.of_nat (length l)) dir
  = Ok (moved d (fun v => T (ring base end_ v)) cur l dir, ring base end_ (cur + Z.of_nat (length l))).
Proof.
  revert d cur l. induction fuel as [|fuel IH]; intros d cur l Ha Hc He Hf; cbn [circular_loop];
    (destruct (Z.ltb_spec 0 (Z.of_nat (length l))) as [Hlen|Hlen];
     [|assert (l = []) as -> by (destruct l; [done|cbn in Hlen; lia]);
       rewrite moved_nil, Z.add_0_r; by rewrite ring_small]); [lia|].
  pose proof (area_range _ _ _ _ _ _ Ha) as Hr. rewrite (uwrap_id 32 (end_ - cur)) by lia.
  set (n := if Z.of_nat (length l) <? end_ - cur then _ else _).
  assert (Hn : 0 < n <= Z.of_nat (length l) /\ cur + n <= end_
               /\ (n = Z.of_nat (length l) \/ cur + n = end_)).
  { unfold n. destruct (Z.ltb_spec (Z.of_nat (length l)) (end_ - cur)); lia. }
  clearbody n. destruct Hn as (Hn & Hp & Hor). rewrite !(uwrap_id 32 (cur + n)) by lia.
  rewrite (proj2 (Z.leb_le base cur)), (proj2 (Z.leb_le (cur + n) end_)) by lia.
  cbn [andb c_assert mbind res_mbind res_bind].
  assert (Htk : Z.of_nat (length (take (Z.to_nat n) l)) = n) by (rewrite length_take; lia).
  rewrite <- Htk at 2. rewrite (scatter_gather_moved d sb mx T) by (eapply area_sub; [done|lia..]).
  cbn [mbind res_mbind res_bind].
  replace (moved d (fun v => T (ring base end_ v)) cur l dir)
    with (moved d (fun v => T (ring base end_ v)) cur (take (Z.to_nat n) l ++ drop (Z.to_nat n) l) dir)
    by (by rewrite take_drop).
  rewrite moved_app, (moved_ext d (fun v => T (ring base end_ v)) T cur cur)
    by (intros i Hi; by rewrite ring_small by lia).
  pose proof (moved_area d sb mx T base end_ cur (take (Z.to_nat n) l) dir Ha ltac:(lia) ltac:(lia)) as Ha1.
  destruct (moved d T cur (take (Z.to_nat n) l) dir) as [d1 done1]. cbn [fst] in Ha1. rewrite Htk.
  assert (Hdl : Z.of_nat (length l) - n = Z.of_nat (length (drop (Z.to_nat n) l))) by (rewrite length_drop; lia).
  rewrite Hdl. destruct (Z.leb_spec end_ (cur + n)).
  - rewrite (proj2 (Z.eqb_eq (cur + n) end_)) by lia. cbn [c_assert mbind res_mbind res_bind].
    rewrite IH by (done || lia || (rewrite length_drop; lia)).
    rewrite (moved_ext d1 _ (fun v => T (ring base end_ v)) base (cur + n))
      by (intros i Hi; f_equal; symmetry; apply ring_wrap; lia).
    rewrite <- (ring_wrap base end_ (cur + n)) by lia.
    replace (cur + n + Z.of_nat (length (drop (Z.to_nat n) l))) with (cur + Z.of_nat (length l)) by lia.
    by destruct (moved _ _ _ _ _).
  - cbn [mbind res_mbind res_bind]. rewrite IH by (done || lia || (rewrite length_drop; lia)).
    replace (cur + n + Z.of_nat (length (drop (Z.to_nat n) l))) with (cur + Z.of_nat (length l)) by lia.
    by destruct (moved _ _ _ _ _).
Qed.

(** ** FIFOs of the GP *)

Definition gp_base d (dir : bool) (i : Z) : Z :=
  GET_MASK (reg d ((if dir then NV_PAPU_GPOFBASE0 else NV_PAPU_GPIFBASE0) + 0x10 * i)) FIFO_VALUE.
Definition gp_end d (dir : bool) (i : Z) : Z :=
  GET_MASK (reg d ((if dir then NV_PAPU_GPOFEND0 else NV_PAPU_GPIFEND0) + 0x10 * i)) FIFO_VALUE.
Definition gp_cur_reg (dir : bool) (i : Z) : Z :=
  (if dir then NV_PAPU_GPOFCUR0 else NV_PAPU_GPIFCUR0) + 0x10 * i.
Definition gp_cur d (dir : bool) (i : Z) : Z := GET_MASK (reg d (gp_cur_reg dir i)) FIFO_VALUE.

(** Where a FIFO takes its next byte: not before [base]. *)
Definition gp_start d (dir : bool) (i : Z) : Z := Z.max (gp_base d dir i) (gp_cur d dir i).

(** The pages of the FIFO are in the RAM at [T]. *)
Definition gp_fifo_area d (dir : bool) (i : Z) (T : Z -> Z) : Prop :=
  area d (reg d NV_PAPU_GPFADDR) (reg d NV_PAPU_GPFMAXSGE) T (gp_base d dir i) (gp_end d dir i)
  /\ 0 <= i < (if dir then GP_OUTPUT_FIFO_COUNT else GP_INPUT_FIFO_COUNT)
  /\ gp_base d dir i < gp_end d dir i /\ gp_cur d dir i < gp_end d dir i.

#[local] Instance FIFO_VALUE_field : BitField FIFO_VALUE 0 24.
Proof. bitfield. Qed.

(** The current address moves; the list of pages and the other FIFOs stay. *)
Definition set_cur d (dir : bool) (i v : Z) : apu_mem :=
  d <| regs := <[gp_cur_reg dir i := SET_MASK (reg d (gp_cur_reg dir i)) FIFO_VALUE v]> (regs d) |>.

Lemma gp_cur_set d dir i v : 0 <= v < 2 ^ 24 -> gp_cur (set_cur d dir i v) dir i = v.
Proof.
  intros Hv. unfold gp_cur, reg. cbn. rewrite lookup_insert_eq. cbn. rewrite (GET_SET_MASK _ _ 0 24) by apply FIFO_VALUE_field.
  by apply Z.mod_small.
Qed.
Lemma set_cur_reg d dir i v n : n <> gp_cur_reg dir i -> reg (set_cur d dir i v) n = reg d n.
Proof. intros Hn. unfold reg. cbn. by rewrite lookup_insert_ne. Qed.
Lemma area_regs d r sb mx T lo hi : area d sb mx T lo hi -> area (d <| regs := r |>) sb mx T lo hi.
Proof. intros [? ? ? ? ? ?]. by split. Qed.

Lemma gp_fifo_moved d T i l dir : gp_fifo_area d dir i T ->
  let base := gp_base d dir i in let end_ := gp_end d dir i in
  let r := moved d (fun v => T (ring base end_ v)) (gp_start d dir i) l dir in
  gp_fifo_rw d l i (Z.of_nat (length l)) dir
  = Ok (set_cur r.1 dir i (ring base end_ (gp_start d dir i + Z.of_nat (length l))), r.2).
Proof.
  intros (Ha & Hi & Hb & Hc) base end_ r. unfold gp_fifo_rw.
  assert (He : gp_end d dir i < 2 ^ 24) by apply (GET_MASK_range _ FIFO_VALUE 0 24).
  assert (Hs : (if gp_cur d dir i <? gp_base d dir i then gp_base d dir i else gp_cur d dir i)
               = gp_start d dir i).
  { unfold gp_start. destruct (Z.ltb_spec (gp_cur d dir i) (gp_base d dir i)); lia. }
  assert (Hm : circular_scatter_gather_rw d (reg d NV_PAPU_GPFADDR) (reg d NV_PAPU_GPFMAXSGE) l base
      end_ (gp_start d dir i) (Z.of_nat (length l)) dir
    = Ok (r, ring base end_ (gp_start d dir i + Z.of_nat (length l)))).
  { unfold circular_scatter_gather_rw. rewrite Nat2Z.id. apply circular_moved; [done| |lia..].
    unfold gp_start, base, end_. lia. }
  match goal with |- ?x ≫= _ = _ => assert (E : x = Ok (base, end_, gp_cur_reg dir i)) end.
  { destruct dir; by rewrite (proj2 (Z.ltb_lt _ _)) by lia. }
  rewrite E. cbn [mbind res_mbind res_bind]. fold (gp_cur d dir i).
  rewrite (proj2 (Z.ltb_lt (gp_cur d dir i) end_)) by exact Hc. cbn [c_assert mbind res_mbind res_bind].
  fold base in Hs. rewrite Hs, Hm. cbn [mbind res_mbind res_bind].
  clearbody base end_. unfold r, moved. by destruct dir.
Qed.

(** Addresses of a ring that are less than a turn apart are different. *)
Lemma ring_inj base end_ v w : base < end_ -> 0 < w - v < end_ - base ->
  ring base end_ v <> ring base end_ w.
Proof.
  intros Hb Hd E. unfold ring in E.
  assert (E' : (v - base) mod (end_ - base) = (w - base) mod (end_ - base)) by lia.
  pose proof (Z.div_mod (v - base) (end_ - base) ltac:(lia)).
  pose proof (Z.div_mod (w - base) (end_ - base) ltac:(lia)).
  set (q := (w - base) / (end_ - base) - (v - base) / (end_ - base)).
  assert (w - v = (end_ - base) * q) by (unfold q; lia). destruct (Z.le_gt_cases q 0); nia.
Qed.

(** The place in the RAM of byte [k] of a transfer. *)
Definition fifo_place d (dir : bool) (i : Z) (T : Z -> Z) (k : Z) : Z :=
  T (ring (gp_base d dir i) (gp_end d dir i) (gp_start d dir i + k)).

(** After a transfer by way of an output FIFO the input FIFOs are as they were. *)
Section Reread.
Context (d : apu_mem) (T : Z -> Z) (i j : Z) (l : list Z).
Context (Ha : gp_fifo_area d true i T) (Hj : 0 <= j < GP_INPUT_FIFO_COUNT).
Context (Eb : gp_base d false j = gp_base d true i) (Ee : gp_end d false j = gp_end d true i).
Context (Ec : gp_cur d false j = gp_cur d true i) (cur : Z).

Let f v := T (ring (gp_base d true i) (gp_end d true i) v).
Let d' := set_cur (d <| ram := put f (ram d) (gp_start d true i) l |>) true i cur.

Lemma reread_regs n : n <> gp_cur_reg true i -> reg d' n = reg d n.
Proof. intros Hn. unfold d'. by rewrite set_cur_reg. Qed.

Lemma reread_fifo : gp_base d' false j = gp_base d true i /\ gp_end d' false j = gp_end d true i
  /\ gp_cur d' false j = gp_cur d true i.
Proof.
  destruct Ha as (_ & Hi & _). unfold GP_OUTPUT_FIFO_COUNT, GP_INPUT_FIFO_COUNT in *.
  rewrite <- Eb, <- Ee, <- Ec. unfold gp_base, gp_end, gp_cur.
  by rewrite !reread_regs by
    (unfold gp_cur_reg, NV_PAPU_GPOFCUR0, NV_PAPU_GPIFBASE0, NV_PAPU_GPIFEND0, NV_PAPU_GPIFCUR0; lia).
Qed.

Lemma reread_area : gp_fifo_area d' false j T.
Proof.
  destruct Ha as (Har & Hi & Hb & Hc). destruct reread_fifo as (Eb' & Ee' & Ec').
  unfold gp_fifo_area. rewrite Eb', Ee', Ec'. split_and!; try apply Hj; try done.
  unfold GP_OUTPUT_FIFO_COUNT in Hi.
  rewrite !reread_regs by (unfold gp_cur_reg, NV_PAPU_GPOFCUR0, NV_PAPU_GPFADDR, NV_PAPU_GPFMAXSGE; lia).
  apply area_regs, area_put; [done|]. intros k Hk. eexists. split; [by apply ring_range|done].
Qed.

Lemma reread buf : length buf = length l ->
  (forall p q, 0 <= p < q -> q < Z.of_nat (length l) ->
     f (gp_start d true i + p) <> f (gp_start d true i + q)) ->
  gp_fifo_rw d' buf j (Z.of_nat (length l)) false
  = Ok (set_cur d' false j (ring (gp_base d true i) (gp_end d true i)
                              (gp_start d true i + Z.of_nat (length l))), l).
Proof.
  intros El Hd. rewrite <- El, (gp_fifo_moved d' T j buf false reread_area).
  destruct reread_fifo as (Eb' & Ee' & Ec'). unfold moved, gp_start. cbn [fst snd].
  rewrite El, Eb', Ee', Ec'. fold (gp_start d true i). do 2 f_equal. by apply (get_put f).
Qed.

End Reread.

(** C28. A FIFO of the GP in guest memory is a ring.  Writing bytes to an output FIFO always
    ends; byte [k] goes to the address [k] places on from the current one, wrapping at the end of
    the ring, through the list of pages; nothing else of the RAM changes, and the current
    address moves on by the length.  An input FIFO that is set to the same ring and position
    then gives back exactly those bytes, if they are no more than the ring holds. *)
Theorem gp_fifo_roundtrip d T i j l buf : gp_fifo_area d true i T ->
  (forall v w, gp_base d true i <= v < gp_end d true i -> gp_base d true i <= w < gp_end d true i ->
     T v = T w -> v = w) ->
  Z.of_nat (length l) <= gp_end d true i - gp_base d true i ->
  exists d', gp_fifo_rw d l i (Z.of_nat (length l)) true = Ok (d', l)
    /\ (forall k x, l !! k = Some x -> ram d' !! fifo_place d true i T (Z.of_nat k) = Some x)
    /\ (forall a, (forall k, 0 <= k < Z.of_nat (length l) -> fifo_place d true i T k <> a) ->
         ram d' !! a = ram d !! a)
    /\ gp_cur d' true i
        = ring (gp_base d true i) (gp_end d true i) (gp_start d true i + Z.of_nat (length l))
    /\ (0 <= j < GP_INPUT_FIFO_COUNT -> gp_base d false j = gp_base d true i ->
        gp_end d false j = gp_end d true i -> gp_cur d false j = gp_cur d true i ->
        length buf = length l ->
        exists d'', gp_fifo_rw d' buf j (Z.of_nat (length l)) false = Ok (d'', l) /\ ram d'' = ram d'
          /\ gp_cur d'' false j = gp_cur d' true i).
Proof.
  intros Hf Hinj Hlen. pose proof Hf as (Ha & Hi & Hb & Hc).
  assert (He : gp_end d true i < 2 ^ 24) by apply (GET_MASK_range _ FIFO_VALUE 0 24).
  assert (Hr : 0 <= ring (gp_base d true i) (gp_end d true i) (gp_start d true i + Z.of_nat (length l)) < 2 ^ 24).
  { pose proof (ring_range (gp_base d true i) (gp_end d true i)
      (gp_start d true i + Z.of_nat (length l)) Hb). pose proof (area_range _ _ _ _ _ _ Ha). lia. }
  eexists. split; [by apply (gp_fifo_moved d T i l true)|]. cbn [moved fst snd].
  set (f := fun v => T (ring (gp_base d true i) (gp_end d true i) v)).
  assert (Hdiff : forall p q, 0 <= p < q -> q < Z.of_nat (length l) ->
    f (gp_start d true i + p) <> f (gp_start d true i + q)).
  { intros p q Hp Hq E. apply Hinj in E; [|by apply ring_range..].
    revert E. apply ring_inj; [done|]. lia. }
  split_and!.
  - intros k x Hk. by apply (lookup_put f).
  - intros a Ho. by apply put_other.
  - by apply gp_cur_set.
  - intros Hj Eb Ee Ec El. eexists. split; [by apply reread|]. split; [done|].
    by rewrite !gp_cur_set.
Qed.

End Transfers.

End ApuMem.
