(* ===== verification/DspDevice.v ===== *)
(** * The DSP with its DMA engine (theorems about DspDma, DspCpu and ApuMem)

    The DMA engine is a peripheral as the core expects one, whatever blocks the program gives
    it, so that the theorems about the core hold of the device; and words that are moved to
    guest memory and back are the same. *)

From S2P Require Import Prelude DspCore DspArith DspAlu DspMove DspEmu DspCpu DspDma DspSafety ApuMem.
Import DspCore DspArith DspAlu DspMove DspEmu DspCpu DspDma DspSafety ApuMem.

Module DspDevice.

(** ** Safety of the engine *)

(** What the engine expects of guest memory. *)
Class ScratchLaws (W : Type) `{ScratchOps W} := {
  scratch_rw_ok : forall (o : W) l a n dir, ok_res (fun _ => True) (scratch_rw o l a n dir);
  fifo_rw_ok : forall (o : W) l i n dir, ok_res (fun _ => True) (fifo_rw o l i n dir)
}.

Section Engine.
Context {W : Type} `{ScratchLaws W} `{DmaFuel}.
Implicit Types d : DSPState W.

#[local] Instance nested_laws : PeripheralLaws (dsp_rest W) (H := nested_peripherals).
Proof. split. intros d a v. by right. Qed.

#[local] Existing Instance nested_peripherals | 0.

Lemma ok_write_words d0 d s a v : keeps d0 d -> ok_res (keeps d0) (dsp56k_write_memory d s a v).
Proof. apply ok_write_memory. Qed.

#[local] Hint Resolve scratch_rw_ok fifo_rw_ok ok_read_memory ok_write_words ok_true_assert : dsp.

Lemma keeps_opaque d0 d o : keeps d0 d -> keeps d0 (set_opaque d o).
Proof. intros. kp. Qed.
Lemma keeps_with_dma d0 d f : keeps d0 d -> keeps d0 (with_dma d f).
Proof. intros. kp. Qed.
#[local] Hint Resolve keeps_opaque keeps_with_dma : dsp.

Lemma ok_circular_loop fuel o b off size n l dir :
  ok_res (fun _ => True) (circular_copy_loop (W := W) fuel o b off size n l dir).
Proof.
  revert o off n l. induction fuel as [|fuel IH]; intros o off n l; cbn [circular_copy_loop];
    (destruct (0 <? n); [|done]); [by right|].
  cbv zeta. eapply ok_bind; [apply scratch_rw_ok|]. intros [o' l'] _.
  eapply ok_bind; [apply IH|]. by intros [[? ?] ?] _.
Qed.

Lemma ok_dma_space a n : ok_res (fun _ => True) (dma_space a n).
Proof. unfold dma_space. ok. Qed.
Lemma ok_dma_format f : ok_res (fun _ => True) (dma_format f).
Proof. unfold dma_format. ok. Qed.
#[local] Hint Resolve ok_circular_loop ok_dma_space ok_dma_format : dsp.

Lemma ok_gather d size sp a l : ok_res (fun _ => True) (gather d size sp a l).
Proof.
  induction l as [|i l IH]; cbn [gather]; [done|]. eapply ok_bind; [apply ok_read_memory|]. intros v _.
  by eapply ok_bind; [apply IH|].
Qed.
Lemma ok_scatter d0 d size mask sp a n l : keeps d0 d -> ok_res (keeps d0) (scatter d size mask sp a n l).
Proof.
  unfold scatter. revert d. induction (zseq n) as [|i is' IH]; intros d Hk; [done|]. cbn [res_foldl].
  eapply ok_bind; [by apply ok_write_memory|]. intros d1 Hk1. by apply IH.
Qed.
#[local] Hint Resolve ok_gather ok_scatter : dsp.

Lemma ok_dma_out d0 d il b size sp a n sb so ss : keeps d0 d ->
  ok_res (fun r => keeps d0 r.1) (dma_out d il b size sp a n sb so ss).
Proof. intros. unfold dma_out, scratch_circular_copy. ok. Qed.
Lemma ok_dma_in d0 d il b size mask sp a n sb so ss : keeps d0 d ->
  ok_res (fun r => keeps d0 r.1) (dma_in d il b size mask sp a n sb so ss).
Proof. intros. unfold dma_in, scratch_circular_copy. ok. Qed.
#[local] Hint Resolve ok_dma_out ok_dma_in : dsp.

Lemma ok_dma_block d0 d : keeps d0 d -> ok_res (keeps d0) (dma_block d).
Proof. intros. unfold dma_block. ok. Qed.

Lemma ok_dma_loop fuel d0 d : keeps d0 d -> ok_res (keeps d0) (dma_loop fuel d).
Proof.
  revert d. induction fuel as [|fuel IH]; intros d Hk; cbn [dma_loop]; (case_match; [done|]); [by right|].
  eapply ok_bind; [by apply ok_dma_block|]. intros d1 Hk1. by apply IH.
Qed.
#[local] Hint Resolve ok_dma_loop : dsp.

Lemma ok_periph_write d a v : ok_res (keeps d) (periph_write d a v).
Proof.
  assert (Hd : keeps d d) by apply keeps_refl.
  unfold periph_write, dsp_dma_write, dsp_dma_run, dma_action. ok.
Qed.

End Engine.

(** The entry that the look-up finds does not depend on the peripherals. *)
Lemma lookup_slow_indep {X} (P1 P2 : Peripherals X) op :
  lookup_opcode_slow (H := P1) op = lookup_opcode_slow (H := P2) op.
Proof. reflexivity. Qed.

Lemma keeps_indep {X} (P1 P2 : Peripherals X) (d d' : dsp_core_t X) :
  keeps (H := P1) d d' -> keeps (H := P2) d d'.
Proof.
  unfold keeps, coherent. intros (E1 & E2 & E3 & E4 & E5 & E6). split_and!; [done..|].
  intros [Hp Ho]. destruct E6 as [Hp' Ho'].
  - split; intros *; rewrite (lookup_slow_indep P1 P2); auto.
    apply Ho.
  - split; intros *; rewrite (lookup_slow_indep P2 P1); auto.
    apply Ho'.
Qed.

#[export] Instance dsp_laws {W} `{ScratchLaws W} `{DmaFuel} : PeripheralLaws (dsp_rest W).
Proof.
  split. intros d a v. eapply ok_mono; [apply ok_periph_write|].
  intros d'. apply keeps_indep.
Qed.

(** ** Guest memory of the GP and the EP *)

Section Guest.
Context (mmio_ldl : Z -> Z).

(** The callbacks that [mcpx_apu_dsp_init] gives the two DSPs. *)
Definition gp_ops : ScratchOps apu_mem :=
  {| scratch_rw := gp_scratch_rw mmio_ldl; fifo_rw := gp_fifo_rw mmio_ldl |}.
Definition ep_ops : ScratchOps apu_mem :=
  {| scratch_rw := ep_scratch_rw mmio_ldl; fifo_rw := ep_fifo_rw mmio_ldl |}.

Lemma ok_sg_loop fuel d sb mx l e off b n dir : 0 < b -> n <= Z.of_nat fuel ->
  ok_res (fun _ => True) (sg_loop mmio_ldl fuel d sb mx l e off b n dir).
Proof.
  revert d l e off b n. induction fuel as [|fuel IH]; intros d l e off b n Hb Hn; cbn [sg_loop];
    (destruct (Z.ltb_spec 0 n); [|done]); [lia|].
  eapply ok_bind; [apply ok_true_assert|]. intros _ _. cbv zeta.
  set (k := if n <? b then n else b). set (paddr := u32 _).
  assert (0 < k) by (unfold k; case_match; lia).
  pose proof (uwrap_range 32 (ldl_le_phys mmio_ldl d (sb + u32 (e * 8 + 0)) + off) ltac:(lia)) as [Hp _].
  fold paddr in Hp. eapply ok_bind; [apply ok_assert|]. cbn beta. intros _ Hk%Z.ltb_lt.
  eapply (ok_bind (fun _ => True)).
  - unfold wr_bytes, rd_bytes, in_ram. destruct dir; rewrite ?length_take;
      by rewrite (proj2 (Z.leb_le _ _)), (proj2 (Z.leb_le _ _)) by lia.
  - intros [d1 done1] _. eapply ok_bind; [apply IH; unfold TARGET_PAGE_SIZE; lia|].
    by intros [? ?] _.
Qed.

Lemma ok_scatter_gather d sb mx l a n dir :
  ok_res (fun _ => True) (scatter_gather_rw mmio_ldl d sb mx l a n dir).
Proof.
  unfold scatter_gather_rw, TARGET_PAGE_SIZE. apply ok_sg_loop; [|lia].
  pose proof (Z.mod_pos_bound a 4096). lia.
Qed.

Lemma ok_circular_rw fuel d sb mx l b e c n dir :
  ok_res (fun _ => True) (circular_loop mmio_ldl fuel d sb mx l b e c n dir).
Proof.
  revert d l c n. induction fuel as [|fuel IH]; intros d l c n; cbn [circular_loop];
    (destruct (Z.ltb_spec 0 n); [|done]); [by right|].
  cbv zeta. eapply ok_bind; [apply ok_true_assert|]. intros _ _.
  eapply ok_bind; [apply ok_scatter_gather|]. intros [d1 l1] _.
  eapply (ok_bind (fun _ => True)).
  { case_match; [|done]. by eapply ok_bind; [apply ok_true_assert|]. }
  intros c1 _. eapply ok_bind; [apply IH|]. by intros [[? ?] ?] _.
Qed.

(** The guest memory of the GP is such as the engine expects.  That of the EP is not: its
    FIFOs divide by the length of the ring. *)
Lemma gp_laws : ScratchLaws apu_mem (H := gp_ops).
Proof.
  split; cbn; intros o l a n dir; [apply ok_scatter_gather|].
  unfold gp_fifo_rw, circular_scatter_gather_rw.
  eapply (ok_bind (fun _ => True)).
  { case_match; by eapply ok_bind; [apply ok_true_assert|]. }
  intros [[b e] c] _. cbv zeta. eapply ok_bind; [apply ok_true_assert|]. intros _ _.
  eapply ok_bind; [apply ok_circular_rw|]. by intros [[? ?] ?] _.
Qed.

Lemma ep_fifo_empty_ring : ep_fifo_rw mmio_ldl
  {| regs := ∅; ram := ∅; ram_size := 0; mon := MON_AC97; frame_buf := [] |} [0] 1 1 true = Fault DivByZero.
Proof. done. Qed.

End Guest.

(** ** Words of the memories *)

Inductive bank := Mix | Xram | Yram | Pram.
#[export] Instance bank_eq_dec : EqDecision bank.
Proof. solve_decision. Defined.

(** The word that an address names; two addresses may name the same word of the mix buffer. *)
Definition loc (space address : Z) : option (bank * Z) :=
  let a := u32 address in
  if negb (is_24 a) then None
  else if space =? DSP_SPACE_X then
    if DSP_PERIPH_BASE <=? a then None
    else if in_mixbuffer DSP_MIXBUFFER_BASE a then Some (Mix, a - DSP_MIXBUFFER_BASE)
    else if in_mixbuffer 0xc00 a then Some (Mix, a - 0xc00)
    else if a <? DSP_XRAM_SIZE then Some (Xram, a) else None
  else if space =? DSP_SPACE_Y then if a <? DSP_YRAM_SIZE then Some (Yram, a) else None
  else if space =? DSP_SPACE_P then if a <? DSP_PRAM_SIZE then Some (Pram, a) else None
  else None.

Section Words.
Context {X : Type} `{Peripherals X}.
Implicit Types d : dsp_core_t X.

Definition cell d (c : bank * Z) : Z :=
  default 0 (match c.1 with Mix => mixbuffer d | Xram => xram d | Yram => yram d | Pram => pram d end !! c.2).

Lemma arr_at_in n a i : 0 <= i < n -> arr_at n a i = Ok (default 0 (a !! i)).
Proof. intros. unfold arr_at. by rewrite (proj2 (Z.leb_le _ _)), (proj2 (Z.ltb_lt _ _)) by lia. Qed.
Lemma arr_set_in n a i v : 0 <= i < n -> arr_set n a i v = Ok (<[i := u32 v]> a).
Proof. intros. unfold arr_set. by rewrite (proj2 (Z.leb_le _ _)), (proj2 (Z.ltb_lt _ _)) by lia. Qed.

Lemma read_loc d s a c : loc s a = Some c -> is_24 (cell d c) = true ->
  dsp56k_read_memory d s a = Ok (cell d c).
Proof.
  pose proof (uwrap_range 32 a ltac:(lia)) as [Ha _]. unfold loc, dsp56k_read_memory, read_memory_p.
  rewrite uwrap_uwrap. destruct (is_24 (u32 a)); [|done]. cbn [negb c_assert mbind res_mbind res_bind].
  intros El Hc. repeat (case_match; try done); injection El as <-; cbn [c_assert mbind res_mbind res_bind] in *;
    rewrite ?arr_at_in by (first [by apply in_mixbuffer_range | lia]); try done.
  cbn. unfold cell in Hc. cbn in Hc. by rewrite Hc.
Qed.

Lemma write_loc d s a v c : loc s a = Some c -> is_24 (u32 v) = true ->
  exists d', dsp56k_write_memory d s a v = Ok d' /\ container d' = container d
    /\ forall c', cell d' c' = if decide (c' = c) then u32 v else cell d c'.
Proof.
  pose proof (uwrap_range 32 a ltac:(lia)) as [Ha _]. unfold loc, dsp56k_write_memory, write_memory_raw.
  destruct (is_24 (u32 a)); [|done]. intros El ->. cbn [negb c_assert mbind res_mbind res_bind] in *.
  repeat (case_match; try done); injection El as <-; cbn [c_assert mbind res_mbind res_bind] in *;
    rewrite ?arr_set_in by (first [by apply in_mixbuffer_range | lia]);
    (eexists; split_and!; [done|done|]); intros [b i]; unfold cell; cbn; rewrite uwrap_uwrap;
    destruct (decide _) as [[= -> ->]|Hn]; rewrite ?lookup_insert_eq; try done;
    destruct b; try done; (rewrite lookup_insert_ne; [done|congruence]).
Qed.

End Words.

(** ** There and back *)

(** What a format keeps of a word: its upper 16 bits or all 24. *)
Definition kept (item_size v : Z) : Z :=
  if item_size =? 2 then Z.shiftl (u16 (Z.shiftr v 8)) 8 else Z.land (u32 v) 0xffffff.

Definition item_format (item_size item_mask : Z) : Prop :=
  exists format, dma_format format = Ok (item_size, item_mask).

Lemma item_format_cases size mask : item_format size mask -> size = 2 \/ (size = 4 /\ mask = 0xffffff).
Proof.
  intros [f Hf]. unfold dma_format, switch in Hf. repeat case_match; try done; injection Hf as <- <-; auto.
Qed.

Lemma decode_encode size mask v l : item_format size mask ->
  decode_item size mask (encode_item size v ++ l) = kept size v.
Proof.
  intros [->|[-> ->]]%item_format_cases; unfold decode_item, encode_item, kept; cbn.
  - f_equal. unfold uwrap. rewrite !Z.shiftr_div_pow2 by lia. dlia.
  - f_equal. unfold uwrap. rewrite !Z.shiftr_div_pow2 by lia. dlia.
Qed.

Lemma is_24_small v : 0 <= v < 2 ^ 24 -> is_24 v = true.
Proof.
  intros Hv. unfold is_24. rewrite (land_GET_MASK v _ 24 8), (GET_MASK_arith v _ 24 8) by bitfield.
  apply Z.eqb_eq. rewrite Z.div_small by lia. done.
Qed.

Lemma kept_range size mask v : item_format size mask -> 0 <= kept size v < 2 ^ 24.
Proof.
  intros [->|[-> ->]]%item_format_cases; unfold kept; cbn.
  - pose proof (uwrap_range 16 (Z.shiftr v 8) ltac:(lia)) as Hr. unfold in_uw in Hr.
    rewrite Z.shiftl_mul_pow2 by lia. lia.
  - change 0xffffff with (BITMASK 24). apply mask_range. lia.
Qed.

Lemma length_encode size mask v : item_format size mask -> length (encode_item size v) = Z.to_nat size.
Proof. by intros [->|[-> ->]]%item_format_cases. Qed.

Lemma length_items size mask (w : Z -> Z) l : item_format size mask ->
  length (l ≫= fun i => encode_item size (w i)) = (length l * Z.to_nat size)%nat.
Proof.
  intros Hf. induction l as [|x l IH]; [done|].
  by rewrite bind_cons, length_app, IH, (length_encode size mask).
Qed.

(** Item [i] of a buffer. *)
Lemma items_at size mask (w : Z -> Z) count i : item_format size mask -> 0 <= i < count ->
  exists rest, drop (Z.to_nat (i * size)) (zseq count ≫= fun i => encode_item size (w i))
    = encode_item size (w i) ++ rest.
Proof.
  intros Hf Hi. assert (E : zseq count = zseq i ++ i :: seqZ (Z.succ i) (Z.pred (count - i))).
  { unfold zseq. replace count with (i + (count - i)) at 1 by lia.
    by rewrite seqZ_app, Z.add_0_l, (seqZ_cons i) by lia. }
  rewrite E, bind_app, bind_cons. eexists. apply drop_app_length'.
  rewrite (length_items size mask) by done. unfold zseq. rewrite length_seqZ.
  apply item_format_cases in Hf. lia.
Qed.

Section Transfer.
Context {W : Type} `{ScratchOps W} `{Peripherals (dsp_rest W)}.
Implicit Types d : DSPState W.
Context (size mask : Z) (Hf : item_format size mask).

Lemma gather_ok d s a (c : Z -> bank * Z) l :
  (forall i, i ∈ l -> loc s (a + i) = Some (c i) /\ is_24 (cell d (c i)) = true) ->
  gather d size s a l = Ok (l ≫= fun i => encode_item size (cell d (c i))).
Proof.
  induction l as [|i l IH]; intros Hc; [done|]. cbn [gather]. destruct (Hc i) as [Hl H24]; [left|].
  rewrite (read_loc d s (a + i) (c i)) by done. cbn [mbind res_mbind res_bind].
  rewrite IH by (intros j Hj; apply Hc; by right). done.
Qed.

(** The words arrive and nothing else changes. *)
Lemma scatter_ok d s a (c : Z -> bank * Z) count (w : Z -> Z) : 0 <= count ->
  (forall i, 0 <= i < count -> loc s (a + i) = Some (c i)) ->
  (forall i j, 0 <= i < count -> 0 <= j < count -> c i = c j -> i = j) ->
  exists d', scatter d size mask s a count (zseq count ≫= fun i => encode_item size (w i)) = Ok d'
    /\ container d' = container d
    /\ (forall i, 0 <= i < count -> cell d' (c i) = kept size (w i))
    /\ (forall x, (forall i, 0 <= i < count -> c i <> x) -> cell d' x = cell d x).
Proof.
  intros Hc Hl Hinj. unfold scatter.
  destruct (res_foldl_ind (fun d i =>
    dsp56k_write_memory d s (a + i) (decode_item size mask
      (drop (Z.to_nat (i * size)) (zseq count ≫= fun i => encode_item size (w i)))))
    (fun l d' => container d' = container d /\ (forall i, i ∈ l -> cell d' (c i) = kept size (w i))
       /\ (forall x, (forall i, i ∈ l -> c i <> x) -> cell d' x = cell d x)) d (zseq count))
    as (d' & E & Hd & Hin & Hout).
  - split_and!; [done|by intros i ?%elem_of_nil|done].
  - intros l1 i l2 d1 El (Hd & Hin & Hout).
    assert (Hi : 0 <= i < count) by (apply elem_of_zseq; rewrite El; set_solver).
    destruct (items_at size mask w count i Hf Hi) as [rest ->]. rewrite decode_encode by done.
    pose proof (kept_range size mask (w i) Hf) as Hk. assert (Ek : u32 (kept size (w i)) = kept size (w i)) by (apply uwrap_id; lia).
    destruct (write_loc d1 s (a + i) (kept size (w i)) (c i)) as (d2 & E2 & Hd2 & Hcell);
      [by apply Hl|rewrite Ek; by apply is_24_small|].
    exists d2. split; [done|]. split_and!; [by rewrite Hd2| |].
    + intros j [Hj|Hj%list_elem_of_singleton]%elem_of_app; rewrite Hcell.
      * case_decide as Ec; [|by apply Hin]. rewrite Ek. apply Hinj in Ec as ->; [done| |done].
        apply elem_of_zseq. rewrite El. set_solver.
      * subst. by rewrite decide_True.
    + intros x Hx. rewrite Hcell, decide_False by (intros ->; apply (Hx i); set_solver). apply Hout.
      intros j Hj. apply Hx. set_solver.
  - exists d'. split_and!; [done|done| |].
    + intros i Hi. apply Hin. by apply elem_of_zseq.
    + intros x Hx. apply Hout. intros i Hi%elem_of_zseq. by apply Hx.
Qed.

End Transfer.

(** The scratch area of the GP gives back what it was given. *)
Lemma gp_scratch_back mmio_ldl o T v l n : n = Z.of_nat (length l) ->
  area mmio_ldl o (reg o NV_PAPU_GPSADDR) (reg o NV_PAPU_GPSMAXSGE) T v (v + n) ->
  (forall x y, v <= x < v + n -> v <= y < v + n -> T x = T y -> x = y) ->
  exists o', gp_scratch_rw mmio_ldl o l v n true = Ok (o', l)
    /\ forall buf, length buf = length l -> gp_scratch_rw mmio_ldl o' buf v n false = Ok (o', l).
Proof.
  intros -> Ha Hinj. exists (o <| ram := put T (ram o) v l |>). split.
  { unfold gp_scratch_rw. by rewrite (scatter_gather_moved mmio_ldl o _ _ T). }
  intros buf Hb. unfold gp_scratch_rw. rewrite <- Hb. cbn [reg regs].
  rewrite (scatter_gather_moved mmio_ldl (o <| ram := put T (ram o) v l |>) _ _ T).
  - unfold moved. rewrite Hb. cbn. rewrite get_put; [done|].
    intros i j Hi Hj E. apply Hinj in E; lia.
  - rewrite Hb. apply area_put; [done|]. intros i Hi. exists (v + i). lia.
Qed.

Section Roundtrip.
Context (mmio_ldl : Z -> Z) `{Peripherals (dsp_rest apu_mem)}.
Implicit Types d : DSPState apu_mem.

(** C9. Words that the DMA engine moves to the scratch area of the GP and back are the same
    words.  The engine reads [count] words from the memory of the DSP, packs them as bytes of
    the format, and writes the bytes to the guest's pages; a transfer in the other direction
    with the same scratch address and format leaves each word at its destination, all 24 bits of
    it or the upper 16 by the format, and changes no other word of the memories. *)
Theorem dma_roundtrip d size mask count sb so ss s1 a1 c1 s2 a2 c2 T :
  item_format size mask -> 0 <= count -> count * size < 2 ^ 32 ->
  (forall i, 0 <= i < count -> loc s1 (a1 + i) = Some (c1 i) /\ is_24 (cell d (c1 i)) = true) ->
  (forall i, 0 <= i < count -> loc s2 (a2 + i) = Some (c2 i)) ->
  (forall i j, 0 <= i < count -> 0 <= j < count -> c2 i = c2 j -> i = j) ->
  let o := opaque (container d) in
  let v := u32 (sb + so) in
  area mmio_ldl o (reg o NV_PAPU_GPSADDR) (reg o NV_PAPU_GPSMAXSGE) T v (v + count * size) ->
  (forall x y, v <= x < v + count * size -> v <= y < v + count * size -> T x = T y -> x = y) ->
  exists d1 d2,
    dma_out (H := gp_ops mmio_ldl) d false 0xF size s1 a1 count sb so ss = Ok (d1, so)
    /\ dma_in (H := gp_ops mmio_ldl) d1 false 0xF size mask s2 a2 count sb so ss = Ok (d2, so)
    /\ (forall i, 0 <= i < count -> cell d2 (c2 i) = kept size (cell d (c1 i)))
    /\ (forall x, (forall i, 0 <= i < count -> c2 i <> x) -> cell d2 x = cell d x).
Proof.
  intros Hf Hc Hs H1 H2 Hinj o v Ha HT.
  set (w i := cell d (c1 i)). set (buf := zseq count ≫= fun i => encode_item size (w i)).
  assert (Hlen : Z.of_nat (length buf) = count * size).
  { unfold buf. rewrite (length_items size mask) by done. unfold zseq. rewrite length_seqZ.
    apply item_format_cases in Hf. lia. }
  destruct (gp_scratch_back mmio_ldl o T v buf (count * size)) as (o' & Ew & Er); [done..|].
  destruct (scatter_ok (W := apu_mem) size mask Hf (set_opaque (set_opaque d o') o') s2 a2 c2 count w)
    as (d2 & Es & _ & Hin & Hout); [done..|].
  exists (set_opaque d o'), d2. split_and!.
  - unfold dma_out, dma_order. rewrite (gather_ok size d s1 a1 c1) by (intros i Hi%elem_of_zseq; by apply H1).
    cbn [mbind res_mbind res_bind]. rewrite uwrap_id by (apply item_format_cases in Hf; lia).
    cbn [scratch_rw gp_ops Z.ltb Z.compare Z.eqb Pos.compare Pos.compare_cont Pos.eqb].
    fold o v. unfold buf, w in Ew. by rewrite Ew.
  - unfold dma_in. rewrite uwrap_id by (apply item_format_cases in Hf; lia).
    cbn [scratch_rw gp_ops negb c_assert mbind res_mbind res_bind Z.eqb Pos.eqb].
    fold v. change (opaque (container (set_opaque d o'))) with o'.
    rewrite Er by (rewrite length_replicate; lia). cbn [mbind res_mbind res_bind]. unfold buf. by rewrite Es.
  - done.
  - intros x Hx. by rewrite Hout.
Qed.

End Roundtrip.

End DspDevice.
