(* ===== verification/Demo.v ===== *)
(** * Runs of the closed model

    The theorems about the NV2A applied to concrete devices: a machine after power on, and
    one whose push buffer uploads a transform constant and synchronises. *)

From S2P Require Import Prelude Nv2aRegs Nv2aState Float32 Vertex Pgraph Kelvin KelvinTable.
From S2P Require Import KelvinLaws KelvinBatch KelvinSafety Nv2aBlocks Pfifo PfifoStream Nv2a.
From S2P Require Import PgraphInvariant NullRenderer Swizzle Texture TextureLayout.
Import Nv2aState Vertex Pgraph Kelvin KelvinTable KelvinLaws KelvinBatch KelvinSafety Nv2aBlocks
  Pfifo PfifoStream Nv2a PgraphInvariant NullRenderer Texture TextureLayout.

Module Demo.

(** ** A push buffer *)

Definition calls : list MethodCall := [
  {| c_inc := true; c_subchannel := 0; c_method := NV097_SET_TRANSFORM_CONSTANT_LOAD; c_data := [7] |};
  {| c_inc := true; c_subchannel := 0; c_method := NV097_SET_TRANSFORM_CONSTANT;
     c_data := [11; 22; 33; 44] |};
  {| c_inc := false; c_subchannel := 0; c_method := NV097_NO_OPERATION; c_data := [0] |} ].

Definition le_bytes (w : Z) : list Z := (fun i => Z.shiftr w (8 * i) mod 256) <$> zseq 4.

(** A DMA object at [0x10] covers the first 64 bytes of memory. *)
Definition demo_ramin : mem := mem_of_list ([0; 0; 0; 0; 0; 64; 0; 0] ≫= le_bytes).
Definition demo_vram : mem := mem_of_list ((calls ≫= encode) ≫= le_bytes).

(** The pusher and the puller are enabled and the Kelvin object is on subchannel 0. *)
Definition demo : NV2AState unit :=
  (power_on demo_vram demo_ramin 64 32)
    <| pfifo; pfifo_regs := list_to_map
         [(NV_PFIFO_CACHE1_PUSH0, 1); (NV_PFIFO_CACHE1_DMA_PUSH, 1);
          (NV_PFIFO_CACHE1_PUSH1, 0x100); (NV_PFIFO_MODE, 1); (NV_PFIFO_CACHE1_DMA_INSTANCE, 1);
          (NV_PFIFO_CACHE1_DMA_PUT, 36); (NV_PFIFO_CACHE1_PULL0, 1); (NV_PFIFO_CACHE1_ENGINE, 1)] |>
    <| pgraph; regs_ := list_to_map
         [(NV_PGRAPH_FIFO, 1); (NV_PGRAPH_CTX_CONTROL, NV_PGRAPH_CTX_CONTROL_CHID);
          (NV_PGRAPH_CTX_CACHE1, 0x97)] |>.

Lemma demo_ready : pusher_ready demo 0 64.
Proof. constructor; vm_compute; done. Qed.

Definition returns {A} (r : res A) : bool := match r with Ok _ => true | Fault _ => false end.

Lemma returns_Ok {A} (r : res A) : returns r = true -> exists a, r = Ok a.
Proof. destruct r; [eauto|done]. Qed.

Lemma pusher_refines_witness :
  exists D e r, fifo_run 20 0 64 (decoder_of (pfifo_regs (pfifo demo))) demo = Ok (D, e)
    /\ pfifo_run_pusher 20 demo = Ok (with_regs r e) /\ decoder_of r = D.
Proof.
  destruct (returns_Ok (fifo_run 20 0 64 (decoder_of (pfifo_regs (pfifo demo))) demo)) as [[D e] E];
    [vm_compute; reflexivity|].
  destruct (pusher_refines 20 demo 0 64 D e demo_ready E) as (r & Er & Ed & _).
  exists D, e, r. split; [exact E|]. split; [exact Er|exact Ed].
Defined.

(** The words of a stream, with a check of the device after each. *)
Fixpoint stream (check : NV2AState unit -> bool) (e : NV2AState unit) (l : list (Z * Z * Z))
  : option (NV2AState unit) :=
  match l with
  | [] => Some e
  | (s, m, w) :: l =>
      if pfifo_pusher_should_stall e then None
      else match fifo_word e s m w with
           | Ok (e1, true) => if check e1 then stream check e1 l else None
           | _ => None
           end
  end.

Lemma stream_delivers check (intact : NV2AState unit -> Prop) e l e' :
  (forall e, check e = true -> intact e) -> stream check e l = Some e' -> delivers intact e l e'.
Proof.
  intros Hc. induction l as [|[[s m] w] l IH] in e |- *; [intros [= <-]; constructor|].
  cbn [stream]. destruct (pfifo_pusher_should_stall e) eqn:Es; [done|].
  destruct (fifo_word e s m w) as [[e1 [|]]|] eqn:Ew; try done.
  destruct (check e1) eqn:Ec; [|done]. intros Hs. econstructor; eauto.
Qed.

Lemma stream_Some check e l : (if stream check e l is Some _ then true else false) = true ->
  exists e', stream check e l = Some e'.
Proof. destruct (stream check e l); [eauto|done]. Qed.

Lemma demo_words : words_at demo_vram 0 (calls ≫= encode).
Proof.
  intros i w Hi. do 9 (destruct i as [|i]; [injection Hi as <-; vm_compute; reflexivity|]).
  discriminate Hi.
Qed.

Lemma calls_wf : Forall call_wf calls.
Proof.
  repeat (apply Forall_cons_2; [constructor; [done|done|cbn; lia|]|]); [..|by apply Forall_nil_2];
    repeat (apply Forall_cons_2; [done|]); by apply Forall_nil_2.
Qed.

Lemma push_buffer_delivered_witness :
  exists e r, pfifo_run_pusher 10 demo = Ok (with_regs r e) /\ reg r NV_PFIFO_CACHE1_DMA_GET = 36.
Proof.
  destruct (stream_Some (fun e => bool_decide (vram e = demo_vram)) demo (calls ≫= call_words))
    as [e E]; [vm_compute; reflexivity|].
  destruct (push_buffer_delivered demo 0 64 calls e demo_ready) as (r & Er & Eg & _).
  - vm_compute. reflexivity.
  - exact calls_wf.
  - vm_compute. reflexivity.
  - vm_compute. discriminate.
  - exact demo_words.
  - eapply stream_delivers; [|exact E]. intros e1 Ev%bool_decide_eq_true. unfold words_at.
    rewrite Ev. exact demo_words.
  - exists e, r. split; [exact Er|exact Eg].
Defined.

(** ** Registers *)

(** After power on, without memory. *)
Definition bare : NV2AState unit := power_on ∅ ∅ 0 0.

Lemma bare_wf : kelvin_wf (pgraph bare).
Proof. exact (pgraph_init_wf ∅). Qed.

Lemma mmio_write_irq_witness :
  exists d, mmio_write (nv2a_update_irq bare) NV_PMC_INTR_EN_0 1 4 = Ok d /\ irq_coherent d.
Proof.
  eexists. split; [reflexivity|].
  eapply (mmio_write_irq (nv2a_update_irq bare) NV_PMC_INTR_EN_0 1 4);
    [apply update_irq_coherent|done|done|reflexivity].
Defined.

(** A device with a PGRAPH notification pending and enabled. *)
Definition notified : NV2AState unit :=
  nv2a_update_irq (bare <| pgraph; pg_pending := 1 |> <| pgraph; pg_enabled := 1 |>).

Lemma pgraph_ack_stale_witness :
  exists d, mmio_write notified (0x400000 + NV_PGRAPH_INTR) 0xffffffff 4 = Ok d.
Proof.
  destruct (pgraph_ack_stale notified) as (d & E & _);
    [apply update_irq_coherent|reflexivity|done|eauto].
Defined.

Lemma mmio_write_total_witness :
  exists d, mmio_write machine (0x680000 + NV_PRAMDAC_NVPLL_COEFF) 0x11C01 4 = Ok d /\ nv2a_wf d.
Proof.
  exact (mmio_write_total machine (0x680000 + NV_PRAMDAC_NVPLL_COEFF) 0x11C01 4 machine_wf
    (conj (or_intror (or_intror eq_refl)) eq_refl)).
Defined.

Lemma mmio_read_total_witness :
  exists d v, mmio_read 0 None machine NV_PMC_BOOT_0 4 = Ok (d, v) /\ nv2a_wf d /\ in_uw 32 v.
Proof.
  exact (mmio_read_total 0 None machine NV_PMC_BOOT_0 4 machine_wf
    (conj (or_intror (or_intror eq_refl)) eq_refl)).
Defined.

Lemma vblank_irq_witness : nv2a_wf (nv2a_vga_gfx_update machine).
Proof. apply (vblank_irq machine machine_wf). Defined.

Lemma reset_interrupts_witness : nv2a_wf (nv2a_reset machine).
Proof. apply (reset_interrupts machine machine_wf). Defined.

Lemma ptimer_time_witness :
  let d := bare <| ptimer; numerator := 1 |> <| ptimer; denominator := 1 |>
                <| pramdac; core_clock_freq := 233333324 |> in
  exists lo hi, ptimer_read 1000000000 d NV_PTIMER_TIME_0 4 = Ok (d, lo)
    /\ ptimer_read 1000000000 d NV_PTIMER_TIME_1 4 = Ok (d, hi)
    /\ hi * 2 ^ 32 + lo = 32 * 233333324.
Proof.
  cbv zeta. destruct (ptimer_time 1000000000 (bare <| ptimer; numerator := 1 |>
    <| ptimer; denominator := 1 |> <| pramdac; core_clock_freq := 233333324 |>) 4)
    as (lo & hi & E1 & E2 & _ & _ & E3);
    [split; [discriminate|reflexivity]..|discriminate|].
  exists lo, hi. split; [exact E1|]. split; [exact E2|]. rewrite E3. vm_compute. reflexivity.
Defined.

Lemma palette_load_spec_witness :
  exists d, palette_load bare 255 [1; 2; 3; 4] = Ok d
    /\ palette (puserdac d) !! 0%nat = Some 4.
Proof.
  destruct (palette_load_spec bare 255 [1; 2; 3; 4]) as (d & E & H1 & _).
  - apply repeat_length.
  - done.
  - repeat (apply Forall_cons_2; [done|]). by apply Forall_nil_2.
  - cbn. lia.
  - exists d. split; [exact E|]. exact (H1 3%nat 4 eq_refl).
Defined.

Lemma pramdac_lanes_witness :
  let d := bare <| pramdac; core_clock_coeff := 0x11C01 |> in
  exists x w, pramdac_read d (NV_PRAMDAC_NVPLL_COEFF + 3) 1 = Ok (d, x)
    /\ pramdac_read d NV_PRAMDAC_NVPLL_COEFF 4 = Ok (d, w) /\ u8 x = w / 2 ^ (8 * (3 - 3)) mod 256.
Proof.
  exact (pramdac_lanes (bare <| pramdac; core_clock_coeff := 0x11C01 |>) NV_PRAMDAC_NVPLL_COEFF 3
    ltac:(split; [discriminate|reflexivity]) eq_refl).
Defined.

(** ** Batches *)

(** Two vertices: the position is set before each, the colour only before the second. *)
Definition two_vertices : list VertexOp :=
  [SetAttribute 0 [(0, 1); (1, 2)]; EmitVertex; SetAttribute 3 [(0, 5)]; EmitVertex].

Lemma vertex_refines_witness :
  exists pg, res_foldl vertex_op (pgraph bare) two_vertices = Ok pg
    /\ length (vertices pg) = 2%nat.
Proof.
  destruct (vertex_refines (pgraph bare) two_vertices) as (pg & E & _ & Ev).
  - apply wf_attrs, bare_wf.
  - repeat (apply Forall_cons_2; [first [exact I | split; [done|]; repeat (apply Forall_cons_2; [done|]);
      by apply Forall_nil_2]|]). by apply Forall_nil_2.
  - done.
  - exists pg. split; [exact E|]. apply (f_equal snd) in Ev. cbn [snd] in Ev. rewrite Ev.
    vm_compute. reflexivity.
Defined.

(** A range of four vertices, two more, and an element. *)
Lemma batch_requests_witness :
  exists d, res_foldl request bare [DrawArrays 0x03000000; DrawArrays 0x01000004; Element32 9] = Ok d
    /\ batch (pgraph d) = [0; 1; 2; 3; 4; 5; 9].
Proof.
  destruct (batch_requests bare [DrawArrays 0x03000000; DrawArrays 0x01000004; Element32 9])
    as (d & E & Eb).
  - constructor.
    + apply wf_batch, bare_wf.
    + done.
    + vm_compute. reflexivity.
    + right. right. split; [done|]. cbn [joinable]. split; [by left|]. split; [by right|done].
  - exists d. split; [exact E|]. rewrite Eb. vm_compute. reflexivity.
Defined.

(** A renderer that keeps what it is asked to draw. *)
Definition log_ops (c : RendererCall) (d : NV2AState (list (list Z)))
  : res (NV2AState (list (list Z))) :=
  match c with
  | FlushDraw => Ok (d <| ext := ext d ++ [batch (pgraph d)] |>)
  | _ => Ok d
  end.

Definition log_renderer : Renderer (list (list Z)) := {| ops := log_ops |}.

Definition log_draws : DrawLog (H := log_renderer) (list (list Z)).
Proof. exists (fun d => ext d); [|done]. by intros d d1 [= <-]. Defined.

(** Two ranges that do not touch. *)
Definition two_ranges : NV2AState (list (list Z)) :=
  let start := power_on_with [] ∅ ∅ 0 0 in
  match res_foldl (@request _ log_renderer) start [DrawArrays 0x03000000; DrawArrays 0x01000010] with
  | Ok d => d
  | Fault _ => start
  end.

Lemma last_range_twice_witness :
  exists d, @pgraph_expand_draw_arrays _ log_renderer two_ranges = Ok d
    /\ ext d ++ [batch (pgraph d)] = [[0; 1; 2; 3; 16; 17]; [16; 17]].
Proof.
  destruct (last_range_twice (H := log_renderer) (DrawLog0 := log_draws) two_ranges
    (two_ranges <| ext := [[0; 1; 2; 3; 16; 17]] |>)) as (d & earlier & E & Eb & Ed).
  - constructor; [vm_compute; split; discriminate|vm_compute; split; discriminate| |by left].
    intros i Hi. change (0 <= i < 2) in Hi.
    assert (i = 0 \/ i = 1) as [->| ->] by lia; vm_compute; split_and!; discriminate.
  - done.
  - done.
  - vm_compute. reflexivity.
  - exists d. split; [exact E|]. etransitivity; [exact Ed|]. rewrite <- Eb. vm_compute. reflexivity.
Defined.

Lemma array_element16_overflow_witness :
  request (bare <| pgraph; inline_elements_length := NV2A_MAX_BATCH_LENGTH - 1 |>) (Element16 0x20001)
  = Fault OutOfBounds.
Proof.
  exact (array_element16_overflow (bare <| pgraph; inline_elements_length := NV2A_MAX_BATCH_LENGTH - 1 |>)
    0x20001 eq_refl eq_refl).
Defined.

(** ** Invariants *)

Lemma kelvin_word_safe_witness :
  exists d n, kelvin_word bare 0 NV097_SET_TRANSFORM_CONSTANT 5 = Ok (d, n) /\ kelvin_wf (pgraph d).
Proof.
  destruct (returns_Ok (kelvin_word bare 0 NV097_SET_TRANSFORM_CONSTANT 5)) as [[d n] E];
    [vm_compute; reflexivity|].
  pose proof (kelvin_word_safe bare 0 NV097_SET_TRANSFORM_CONSTANT 5 bare_wf) as Hs.
  rewrite E in Hs. exists d, n. split; [exact E|]. apply Hs. split; [discriminate|reflexivity].
Defined.

Lemma reachable_wf_witness :
  exists d, rtc device_step bare d /\ irq d = false /\ kelvin_wf (pgraph d).
Proof.
  exists (nv2a_reset (nv2a_vga_gfx_update bare)).
  assert (rtc device_step bare (nv2a_reset (nv2a_vga_gfx_update bare))) as Hr.
  { eapply rtc_l; [apply step_vblank|]. eapply rtc_l; [apply step_reset|]. apply rtc_refl. }
  split; [exact Hr|]. split; [reflexivity|]. exact (reachable_wf ∅ bare _ eq_refl Hr).
Defined.

(** ** A texture *)

(** 2 KiB of memory; stage 0 has a 4x4 palettised texture of two levels at 0 and its palette
    at 0x400. *)
Definition textured : NV2AState unit :=
  (power_on (g_malloc (fun a => a mod 256) 2048) (mem_of_list ([0; 2047; 0; 0] ≫= le_bytes)) 2048 16)
    <| pgraph; regs_ := list_to_map
         [(NV_PGRAPH_TEXFMT0, 0x02220B88); (NV_PGRAPH_TEXCTL0_0, 0x3FFC0);
          (NV_PGRAPH_TEXPALETTE0, 0x400)] |>.

Definition palette_shape : TextureShape :=
  {| cubemap := false; dimensionality := 2; tex_format := 0x0B; tex_levels := 2; tex_width := 4;
     tex_height := 4; tex_depth := 1; border := false; min_mipmap_level := 0; max_mipmap_level := 1;
     tex_pitch := 0 |}.

Lemma textured_memory : bytes_valid (vram textured) 0 2048.
Proof.
  intros a Ha. change (vram textured) with (g_malloc (fun a => a mod 256) 2048).
  rewrite g_malloc_lookup, decide_True by lia. eexists. split; [done|]. apply Z.mod_pos_bound. lia.
Qed.

Lemma textured_decodable : decodable textured palette_shape (color_fmt 1 false) 0 0x400 20.
Proof.
  constructor; try done.
  - eapply bytes_valid_sub; [apply textured_memory|lia..].
  - intros _. eapply bytes_valid_sub; [apply textured_memory|lia..].
Qed.

(** Texel (1, 0) of the second level has index 17; its green is byte 69 of the palette. *)
Lemma texture_layout_correct_witness :
  exists layout v, get_texture_layout (fun _ => 0) textured 0 = Ok layout
    /\ layout !! (0, 1) = Some v /\ decoded_data v !! 5 = Some 69.
Proof.
  destruct (texture_layout_correct (fun _ => 0) textured 0 palette_shape (color_fmt 1 false) 0 0x400 1024 20)
    as (layout & E & H); [vm_compute; reflexivity..|exact textured_decodable|].
  assert (Hy : 0 <= 0 < (if cubemap palette_shape then 6 else 1)) by (cbn; lia).
  assert (Hl : (1 < Z.to_nat (tex_levels palette_shape))%nat) by (cbn; lia).
  destruct (H 0 1%nat Hy Hl) as (v & Ev & Hv). clear H.
  exists layout, v. split; [exact E|]. split; [exact Ev|].
  unfold level_good in Hv. cbn [is_linear color_fmt palette_shape dimensionality Z.eqb Pos.eqb] in Hv.
  destruct (li_image _ _ _ _ _ _ _ _ Hv) as [Hin _].
  assert (Hb : Swizzle.Swizzle.in_box 2 2 1 (1, 0, 0)) by (cbn; lia).
  refine (eq_trans (Hin (1, 0, 0) 1 Hb _) _); [vm_compute; split; [discriminate|reflexivity]|].
  vm_compute. reflexivity.
Defined.

End Demo.
