(* ===== verification/DspDemo.v ===== *)
(** * Runs of the audio DSPs

    The theorems about the DSPs applied to a GP whose scratch area and FIFOs are pages of a small
    guest memory. *)

From S2P Require Import Prelude DspCore DspArith DspAlu DspCpu DspDma DspAluSpec DspSafety.
From S2P Require Import DspInterrupts ApuMem DspDevice.
Import DspCore DspArith DspAlu DspCpu DspDma DspAluSpec DspSafety DspInterrupts ApuMem DspDevice.

Module DspDemo.

Definition no_mmio : Z -> Z := fun _ => 0.

#[local] Instance demo_ops : ScratchOps apu_mem := gp_ops no_mmio.
#[local] Instance demo_laws : ScratchLaws apu_mem := gp_laws no_mmio.
#[local] Instance demo_fuel : DmaFuel := 16%nat.

(** 20 KiB of memory.  The list of pages at 0x3000 has pages 0x1000 and 0x2000; output FIFO 1 and
    input FIFO 0 are the bytes 0xFFE to 0x1006 of it, at 0x1004. *)
Definition guest : apu_mem :=
  {| regs := list_to_map
       [(NV_PAPU_GPSADDR, 0x3000); (NV_PAPU_GPSMAXSGE, 1); (NV_PAPU_GPFADDR, 0x3000);
        (NV_PAPU_GPFMAXSGE, 1); (NV_PAPU_GPOFBASE0 + 0x10, 0xFFE); (NV_PAPU_GPOFEND0 + 0x10, 0x1006);
        (NV_PAPU_GPOFCUR0 + 0x10, 0x1004); (NV_PAPU_GPIFBASE0, 0xFFE); (NV_PAPU_GPIFEND0, 0x1006);
        (NV_PAPU_GPIFCUR0, 0x1004)];
     ram := list_to_map [(0x3001, 0x10); (0x3009, 0x20)];
     ram_size := 0x5000; mon := MON_VP; frame_buf := [] |}.

Definition place (v : Z) : Z := 0x1000 + v.

Lemma guest_page v : 0 <= v < 0x2000 ->
  page no_mmio guest 0x3000 (v / 4096) = 0x1000 + v / 4096 * 4096.
Proof.
  intros Hv. assert (v / 4096 = 0 \/ v / 4096 = 1) as [-> | ->] by dlia; vm_compute; reflexivity.
Qed.

Lemma guest_area lo hi : 0 <= lo -> hi <= 0x2000 -> area no_mmio guest 0x3000 1 place lo hi.
Proof.
  intros Hl Hh. split; cbn [guest ram_size]; try lia.
  - intros v Hv. dlia.
  - intros v Hv. rewrite guest_page by lia. dlia.
  - intros v Hv. rewrite guest_page by lia. unfold place. dlia.
  - intros v w i Hv Hw Hi. rewrite uwrap_id by dlia. unfold place. dlia.
Qed.

(** Four bytes written over the end of the ring are read back. *)
Lemma gp_fifo_roundtrip_witness :
  exists d d', gp_fifo_rw no_mmio guest [1; 2; 3; 4] 1 4 true = Ok (d, [1; 2; 3; 4])
    /\ ram d !! 0x1FFF = Some 4
    /\ gp_fifo_rw no_mmio d [0; 0; 0; 0] 0 4 false = Ok (d', [1; 2; 3; 4]).
Proof.
  destruct (gp_fifo_roundtrip no_mmio guest place 1 0 [1; 2; 3; 4] [0; 0; 0; 0])
    as (d & E & Hin & _ & _ & Hr).
  - split; [apply (guest_area 0xFFE 0x1006); lia|vm_compute; split_and!; congruence].
  - unfold place. intros. lia.
  - vm_compute. congruence.
  - destruct Hr as (d' & E' & _ & _); [split; [done|reflexivity]|reflexivity..|].
    exists d, d'. split; [exact E|]. split; [|exact E']. exact (Hin 3%nat 4 eq_refl).
Defined.

(** A GP that has been reset, with a few words in its X memory. *)
Definition gp : DSPState apu_mem :=
  (dsp_init guest) <| xram := list_to_map [(0, 0x123456); (1, 0xABCDEF)] |>.

(** Two words go to the scratch area across the end of a page and come back to the Y memory. *)
Lemma dma_roundtrip_witness :
  exists d1 d2,
    dma_out gp false 0xF 4 DSP_SPACE_X 0 2 0xFFC 0 0 = Ok (d1, 0)
    /\ dma_in d1 false 0xF 4 0x00FFFFFF DSP_SPACE_Y 8 2 0xFFC 0 0 = Ok (d2, 0)
    /\ cell d2 (Yram, 9) = 0xABCDEF.
Proof.
  assert (Hz : forall i, 0 <= i < 2 -> i = 0 \/ i = 1) by (intros; lia).
  destruct (dma_roundtrip no_mmio gp 4 0x00FFFFFF 2 0xFFC 0 0 DSP_SPACE_X 0 (fun i => (Xram, i))
              DSP_SPACE_Y 8 (fun i => (Yram, 8 + i)) place) as (d1 & d2 & E1 & E2 & Hin & _).
  - exists 6. reflexivity.
  - lia.
  - lia.
  - intros i [-> | ->]%Hz; split; vm_compute; reflexivity.
  - intros i [-> | ->]%Hz; vm_compute; reflexivity.
  - intros i j _ _ [=]. lia.
  - apply (guest_area 0xFFC 0x1004); lia.
  - unfold place. intros. lia.
  - exists d1, d2. split; [exact E1|]. split; [exact E2|]. refine (eq_trans (Hin 1 _) _); [lia|].
    vm_compute. reflexivity.
Defined.

(** ** Instructions *)

(** The words of [p] are the program. *)
Definition running (p : list Z) : DSPState apu_mem :=
  (dsp_init guest) <| pram := list_to_map (zip (zseq (Z.of_nat (length p))) p) |>.

Lemma running_inv p : cpu_inv (running p).
Proof.
  split; cbn.
  - split; [intros i; left; by rewrite lookup_empty|vm_compute; reflexivity].
  - by split; intros *; rewrite lookup_empty.
  - lia.
Qed.

(** An endless jump, after two instructions. *)
Definition jumping : DSPState apu_mem := running [0; 0x200013; 0x0C0002].

Lemma dsp_step_safe_witness :
  exists d, dsp56k_execute_instruction jumping = Ok d /\ pc d = 1 /\ cpu_inv d.
Proof.
  assert (match dsp56k_execute_instruction jumping with Ok d => pc d =? 1 | Fault _ => false end = true)
    as Hok by (vm_compute; reflexivity).
  pose proof (dsp_step_safe jumping (running_inv _) eq_refl) as Hs.
  destruct (dsp56k_execute_instruction jumping) as [d|f]; [|discriminate].
  exists d. split; [reflexivity|]. split; [by apply Z.eqb_eq|exact Hs].
Defined.

(** A stack error is pending while an earlier interrupt is still in the pipeline. *)
Definition interrupted : DSPState apu_mem :=
  jumping <| interrupt_is_pending := {[DSP_INTER_STACK_ERROR := 1]} |> <| interrupt_counter := 1 |>
          <| interrupt_pipeline_count := 2 |> <| interrupt_state := DSP_INTERRUPT_DISABLED |>.

Lemma interrupted_inv : cpu_inv interrupted.
Proof.
  split.
  - split; [|vm_compute; reflexivity]. intros i.
    change (interrupt_is_pending interrupted) with ({[DSP_INTER_STACK_ERROR := 1]} : gmap Z Z).
    destruct (decide (i = DSP_INTER_STACK_ERROR)) as [->|Hn].
    + right. by rewrite lookup_singleton_eq.
    + left. by rewrite lookup_singleton_ne.
  - by split; intros *; cbn; rewrite lookup_empty.
  - cbn. lia.
Qed.

Lemma dsp_interrupt_taken_witness :
  exists l1 d1 d2 l2, interrupted :: l1 <> [] /\ length (l1 ++ d1 :: d2 :: l2) = 5%nat
    /\ dsp56k_execute_instruction d1 = Ok d2 /\ taken d1 DSP_INTER_STACK_ERROR d2.
Proof.
  assert (match trace 4 interrupted with
          | Ok l => (length l =? 4)%nat && (outside_rep l =? 4)
                    && forallb (fun d => shift_defined (next_inst d)) (interrupted :: l)
          | Fault _ => false
          end = true) as Hok by (vm_compute; reflexivity).
  destruct (trace 4 interrupted) as [l|f] eqn:E; [|discriminate].
  rewrite !andb_true_iff, Nat.eqb_eq, Z.eqb_eq in Hok. destruct Hok as ((El & Eo) & Ef).
  destruct (dsp_interrupt_taken 4 interrupted l DSP_INTER_STACK_ERROR interrupted_inv E)
    as (l1 & d1 & d2 & l2 & Ed & Ex & Ht).
  - apply Forall_forall. intros d Hd. rewrite forallb_forall in Ef. by apply Ef, list_elem_of_In.
  - vm_compute. split; congruence.
  - reflexivity.
  - reflexivity.
  - rewrite Eo. vm_compute. reflexivity.
  - exists l1, d1, d2, l2. split; [discriminate|]. split; [|split; [exact Ex|exact Ht]].
    rewrite <- Ed. cbn. by rewrite El.
Defined.

(** ** The ALU *)

(** ADD X0,A at the most positive number overflows. *)
Definition adding : DSPState apu_mem :=
  (dsp_init guest) <| cur_inst := 0x200040 |>
    <| registers := list_to_map
         [(DSP_REG_X0, 1); (DSP_REG_A2, 0x7F); (DSP_REG_A1, 0xFFFFFF); (DSP_REG_A0, 0xFFFFFF)] |>.

Lemma adding_wf : alu_wf adding.
Proof.
  split.
  - intros []; vm_compute; split_and!; congruence.
  - intros n Hn. assert (n = 4 \/ n = 5 \/ n = 6 \/ n = 7) as [->|[->|[->| ->]]]
      by (unfold DSP_REG_X0, DSP_REG_Y1 in Hn; lia); vm_compute; split; congruence.
  - vm_compute. congruence.
Qed.

Definition ccr : list Z := [DSP_SR_C; DSP_SR_V; DSP_SR_Z; DSP_SR_N; DSP_SR_U; DSP_SR_E; DSP_SR_L].

Lemma ccr_low n : n ∈ ccr -> 0 <= n < 16.
Proof. unfold ccr, DSP_SR_C, DSP_SR_V, DSP_SR_Z, DSP_SR_N, DSP_SR_U, DSP_SR_E, DSP_SR_L. set_solver by lia. Qed.

Lemma alu_arithmetic_witness :
  exists d', alu adding = Ok d' /\ num56 d' AccA = - 2 ^ 55 + 2 ^ 24 - 1
    /\ (sr_bit d' <$> ccr) = [false; true; false; true; true; true; true].
Proof.
  destruct (alu_arithmetic adding 0x40 (Add (Reg DSP_REG_X0))) as (d' & E & _ & Hr & Hb & _);
    [reflexivity|exact adding_wf|reflexivity|].
  exists d'. split; [exact E|]. split.
  - refine (eq_trans Hr _). vm_compute. reflexivity.
  - etransitivity.
    + apply list_fmap_ext. intros i n Hn. apply Hb, ccr_low. eapply list_elem_of_lookup_2. exact Hn.
    + vm_compute. reflexivity.
Defined.

End DspDemo.
